(* ===== verification/_CoqProject ===== *)
-Q . S2P
Prelude.v
Errors.v
GoStrings.v
Json.v
Types.v
Proto.v
Keys.v
VMTypes.v
Policy.v
GasRegister.v
Chain.v
Logic.v
Wp.v
Engine.v
Store.v
Registry.v
Events.v
Keeper.v
Dispatcher.v
Msgs.v
MsgServer.v
KeeperFrame.v
Encoders.v
Messenger.v
QueryPlugins.v
Relay.v
System.v
SystemFrame.v
Refinement.v
RefineKeeper.v
RelayRefine.v
RefineSystem.v
Guarantees.v
Packets.v
Termination.v
Checksum.v
Authz.v
Genesis.v
GenesisRefine.v
Proposals.v
Total.v
Querier.v
Gateway.v
SimOps.v
Options.v
JsonPrint.v
ProposalText.v
Bindings.v
Snapshots.v
RustVM.v
Client.v
ClientFacts.v
Ante.v
Legacy.v
Migrations.v
AppModule.v
Simulation.v
Demo.v
Witnesses.v
Scenarios.v
Cases.v
ClientCases.v
BorderCases.v
Findings.v
