(* ===== verification/Prelude.v ===== *)
(** * Verification of the CosmWasm module (x/wasm): prelude and overview

    The development models the Go code of the CosmWasm module of a
    cosmos-sdk chain (src/x/wasm), of the bindings to the virtual machine it
    embeds, Go and Rust (src/wasmvm), and of the ante handler that the
    application puts in front of it (src/app/ante.go), and proves what users
    of the module rely on.

    ** The program and its parts

    A transaction passes the ante handlers, and each of its messages goes to
    the message server. A handler validates the message, picks an
    authorization policy and calls the keeper. The keeper reads and writes
    the records of codes and contracts and calls the entry points of a
    contract in the virtual machine. A running contract calls back into Go
    for its storage, for iterators and for queries, which go through the query
    plugins and may call other contracts. What it returns are events, data
    and submessages; the dispatcher runs each submessage on a branch of the
    state through the messenger, which encodes it as a message of some module,
    and may end up in the message server again. The contract then gets a
    reply. Other modules call back too: authz and group send messages in the
    name of others through the application's router (app/app.go), and ibc-go
    calls the IBC module when it handles a relayer's message. The same keeper
    serves governance proposals, IBC, genesis,
    migrations, snapshots and the query service, and clients reach it by
    command line and over REST.

    ** How code is translated

    Pure functions are functions. Code that uses the SDK's context is a
    function in the monad [M] of Chain.v over the state of the chain: gas
    meter, key-value store of the module, events, and the other modules. Its
    outcome is a value, an error or a panic, and a panic or error keeps the
    state reached so far until a caller discards the branch, as in Go. A
    uint64 is an [N] whose arithmetic wraps where the code's does; bytes are
    lists of bytes; a slice or pointer that may be nil is an option where the
    code tells the difference. Code that is not in the repository is a
    parameter: a class whose members are the functions called, and a second
    class with the laws documented for them. The instances of Simulation.v,
    ClientCases.v, BorderCases.v, Scenarios.v and Cases.v show that the laws
    can hold together.

    ** The files

    Foundations:
    - Prelude.v: notations, tactics, hint databases, bytes, uint64
      arithmetic, big-endian numbers, list lemmas.
    - Errors.v: x/wasm/types/errors.go, wasmvm/types/systemerror.go,
      redactError; GoStrings.v and Json.v: the parts of unicode/utf8, strings,
      encoding/hex and encoding/json in use; JsonPrint.v: reading back what
      json.Marshal wrote.
    - Types.v: x/wasm/types/types.go, params.go, validation.go; Proto.v:
      Marshal, Size and Unmarshal of types.pb.go; Keys.v: keys.go; VMTypes.v:
      wasmvm/types; Policy.v: authz_policy.go of types and keeper;
      GasRegister.v: gas_register.go, fraction.go; Checksum.v: CreateChecksum
      of wasmvm/lib.go with SHA-256.
    - Chain.v: the state, the monad and the context values (context.go);
      Logic.v, Wp.v, Total.v: relations every operation respects, partial and
      total correctness.

    The keeper and what it calls:
    - Engine.v: callbacks.go, iterator.go, lib_libwasmvm.go, keeper/api.go;
      Bindings.v: internal/api/lib.go, the JSON arguments; RustVM.v:
      libwasmvm/src (calls.rs, cache.rs, storage.rs, iterator.rs, api.rs,
      querier.rs, memory.rs, error) and internal/api/memory.go.
    - Store.v: the records of keeper.go; Events.v: events.go; Keeper.v:
      the operations of keeper.go, addresses.go, ibc.go; Dispatcher.v:
      msg_dispatcher.go; Encoders.v: handler_plugin_encoders.go; Messenger.v:
      handler_plugin.go; QueryPlugins.v: query_plugins.go.
    - Msgs.v: tx.go; MsgServer.v: msg_server.go; Relay.v: ibc.go,
      keeper/relay.go; System.v: the assembly of all of these, in which the
      handler of another module's message is a parameter: a tree of charges,
      events, branches and calls back into this module ([Routed]); Options.v: NewKeeper with keeper_cgo.go, options.go,
      metrics.go and wasmvm/types/config.go.

    Around the keeper:
    - Authz.v: types/authz.go, json_matching.go; Genesis.v: genesis.go of types and keeper,
      contract_keeper.go; Proposals.v and ProposalText.v: proposal_legacy.go,
      proposal_handler_legacy.go; Ante.v: keeper/ante.go, app/ante.go;
      Snapshots.v: snapshotter.go, ioutils/utils.go; Legacy.v, Migrations.v:
      x/wasm/migrations, keeper/migrations.go; AppModule.v: module.go;
      SimOps.v: x/wasm/simulation.
    - Querier.v: keeper/querier.go; Gateway.v: types/query.pb.gw.go;
      Client.v: x/wasm/client/cli, with its theorems in ClientFacts.v.

    The specification and its refinement:
    - Registry.v: the abstract state (codes, contracts with their histories,
      pins, parameters, sequences), how a store represents it ([repr]) and
      the steps that change it with the permission each needs.
    - KeeperFrame.v, SystemFrame.v: what operations leave alone.
      Refinement.v, RefineKeeper.v, RelayRefine.v, RefineSystem.v: the
      records, the keeper, the IBC module and the assembled module implement
      the registry. Guarantees.v, Packets.v, GenesisRefine.v, Termination.v:
      the consequences.

    Instances: Simulation.v is a small chain that satisfies every assumption,
    Demo.v a contract on it; Witnesses.v, Scenarios.v, Cases.v, ClientCases.v
    and BorderCases.v apply the theorems to them; Findings.v shows behaviour that
    the documentation of the code does not lead one to expect.

    ** What the theorems show

    - Refinement (Guarantees.v, Proposals.v, Migrations.v): whatever contracts
      and other modules do, messages of any module, IBC calls and proposals
      take a store that represents a registry to one that represents a
      registry reached by permitted steps; the migrations return on a store of
      version 1 and leave such a store. Who may be behind a step is a set
      [sender]: the signer of the message and everyone for whom other modules
      send messages ([acts_for]). Code ids and history positions are uint64
      and wrap in the code; the theorems are about stores in which neither the
      last code id nor the last position of a history is taken ([full] of
      Registry.v), which, as records are permanent, covers everything that
      happened before. In RustVM.v: through libwasmvm and the callbacks a
      contract sees its store with one list of iterators.
    - Invariants and safety (Guarantees.v): every reachable store is coherent
      and its records decode; codes and contracts are permanent; contracts
      without an admin are immutable; only an admin, or the authority, changes
      a contract; only the authority changes parameters and pins, be it
      directly or through a module that acts for them.
    - Isolation (Engine.v, Messenger.v, Keys.v, Keeper.v): a call into the VM
      writes only below the contract's prefix; messages of a contract are
      signed by it alone; keys and predictable addresses do not collide.
    - Submessages (Dispatcher.v, Termination.v): commit, rollback, replies and
      gas limits; nested calls end.
    - Grants (Authz.v): an authorization is never worth more than what was
      granted, is usable for that much and then deleted, and accepts only
      what it covers.
    - Round trips (Proto.v, GenesisRefine.v, Snapshots.v, Packets.v,
      JsonPrint.v, Bindings.v, RustVM.v): records, genesis states, snapshots,
      packets that wait for their acknowledgement, JSON, memory that crosses
      between Go and Rust.
    - Services (Querier.v, Gateway.v, Ante.v, Options.v, AppModule.v):
      lookups are exact, listings complete, REST requests reach the query they
      stand for, transactions are numbered under their own gas meter, the
      keeper is put together as its
      options say, migrations are registered without a gap.
    - Clients (ClientFacts.v, SimOps.v, ProposalText.v): who signs what the
      commands and the simulator make, which grants cannot be used, what
      voters are shown.

    ** Bounds

    - Nested queries ([System.query_smart]) are bounded by the limit on the
      query stack plus one; the result solves the unbounded equation. Nested
      messages ([System.response_handler]) take a bound as argument; above the
      call depth and gas that are left the outcome does not depend on it (both
      in Termination.v).
    - A contract ([run_prog] of Engine.v, [run_vm] of RustVM.v) is a finite
      tree of callbacks: one that runs forever is stopped by the gas limit of
      the virtual machine.
    - The JSON parser takes two rounds per byte ([p_fuel_enough]), unquoting
      and UTF-8 decoding one per byte ([unquote_fuel_enough],
      [runes_fuel_concat], [chunks_concat]), Unmarshal one per byte
      ([unmarshal_enough] with [readers_consume] and [legacy_readers_consume],
      [skip_field_enough]). A varint has ten groups, as in the code.
    - Fetching page after page ([Querier.fetch]) is a client written for the
      theorems; it needs no more rounds than the store has entries.

    ** Not modelled

    - The virtual machine itself, which is the crate cosmwasm-vm and not in
      the repository: RustVM.v takes a running contract as any program over
      the backend. Pinning of memory has no counterpart, and neither have the
      messages that libwasmvm prints (handle_vm_panic.rs, debug messages).
      Go slices that libwasmvm gets are taken as not nil. The Rust function
      [release_cache], which frees a boxed cache, has no definition; the Go
      side of the release is in Bindings.v.
    - The cosmos-sdk, ibc-go, cobra, pflag, viper, grpc-gateway, prometheus and
      the crates that libwasmvm uses: parameters with laws where a theorem
      needs one.
    - The application (app/app.go, app/export.go, app/upgrades, cmd/wasmd): it
      wires modules of the SDK and does command line I/O, so that every
      definition would be a parameter. What its wiring lets other modules do
      to this one is the parameter [route_other] of System.v. The build without cgo
      (keeper/keeper_no_cgo.go) has no virtual machine.
    - Generated wire formats, descriptors and clients of messages and queries
      that are not stored (tx.pb.go, query.pb.go and others); dialling a
      connection (RegisterQueryHandlerFromEndpoint); registration of types
      with amino and with the interface registry (types/codec.go), which is
      a list of calls into the SDK.
    - Logging and telemetry, texts of the command line help, tests, mocks and
      fixtures (keeper/test_common.go and others), the benchmarks. *)

From stdpp Require Export base tactics list gmap strings sorting pretty.
From Stdlib Require Export NArith ZArith Lia.
From Stdlib Require Import Strings.Byte.

(** ** Notations and automation of the development *)

Declare Scope wasm_scope.
Delimit Scope wasm_scope with wasm.

Create HintDb wasm.
Create Rewrite HintDb wasm_simpl.

(** [guard_case H] splits the first conditional or match that the code's
    guards put in [H], keeping the equation. *)
Ltac guard_case H :=
  match type of H with
  | context [match ?x with _ => _ end] => destruct x eqn:?; simplify_eq/=
  | context [if ?x then _ else _] => destruct x eqn:?; simplify_eq/=
  end.

(** [guards H] follows every guard of a handler run recorded in [H]. *)
Ltac guards H := repeat (guard_case H; try discriminate).

(** Booleans to propositions, both ways of every connective and test. *)
#[export] Hint Rewrite andb_true_iff andb_false_iff orb_true_iff
  orb_false_iff negb_true_iff negb_false_iff bool_decide_eq_true
  bool_decide_eq_false N.eqb_eq N.eqb_neq N.leb_le N.leb_gt N.ltb_lt
  N.ltb_ge String.eqb_eq String.eqb_neq : wasm_simpl.

Ltac breflect := autorewrite with wasm_simpl in *.

(** ** Bytes *)

Abbreviation byte := Byte.byte.
Abbreviation bytes := (list byte).

#[global] Instance byte_eq_dec : EqDecision byte := Byte.byte_eq_dec.
#[global] Instance byte_countable : Countable byte :=
  inj_countable Byte.to_N Byte.of_N Byte.of_to_N.

Definition byte_of_N (n : N) : byte :=
  match Byte.of_N (n mod 256) with Some b => b | None => Byte.x00 end.

Lemma to_N_byte_of_N n : Byte.to_N (byte_of_N n) = (n mod 256)%N.
Proof.
  unfold byte_of_N.
  destruct (Byte.of_N (n mod 256)) as [b|] eqn:E.
  - by apply Byte.to_of_N.
  - apply Byte.of_N_None_iff in E.
    pose proof (N.mod_upper_bound n 256). lia.
Qed.

Lemma to_N_bound (b : byte) : (Byte.to_N b < 256)%N.
Proof. pose proof (Byte.to_N_bounded b). lia. Qed.

Lemma to_N_inj (a b : byte) : Byte.to_N a = Byte.to_N b -> a = b.
Proof.
  intros H. apply (f_equal Byte.of_N) in H.
  rewrite !Byte.of_to_N in H. congruence.
Qed.

Lemma byte_of_to_N (b : byte) : byte_of_N (Byte.to_N b) = b.
Proof.
  apply to_N_inj. rewrite to_N_byte_of_N.
  apply N.mod_small, to_N_bound.
Qed.

(** ** Machine integers

    uint64 and uint32 values are [N]; the arithmetic of the source that can
    wrap is written with [wrap64] and [wrap32]. *)

Definition MaxUint64 : N := 18446744073709551615.
Definition MaxUint32 : N := 4294967295.
Definition two64 : N := 18446744073709551616.
Definition two32 : N := 4294967296.
Definition wrap64 (n : N) : N := n mod two64.
Definition wrap32 (n : N) : N := n mod two32.

Definition is_u64 (n : N) : Prop := (n < two64)%N.
Definition is_u32 (n : N) : Prop := (n < two32)%N.

Definition add64 (a b : N) : N := wrap64 (a + b).
Definition mul64 (a b : N) : N := wrap64 (a * b).
(** [a - b] on uint64: borrow wraps around. *)
Definition sub64 (a b : N) : N := wrap64 (a + (two64 - wrap64 b)).

Lemma wrap64_small n : is_u64 n -> wrap64 n = n.
Proof. apply N.mod_small. Qed.

Lemma wrap64_bound n : is_u64 (wrap64 n).
Proof. apply N.mod_upper_bound. done. Qed.

Lemma sub64_exact a b : is_u64 a -> (b <= a)%N -> sub64 a b = (a - b)%N.
Proof.
  unfold sub64, is_u64. intros Ha Hb.
  rewrite (wrap64_small b) by (unfold is_u64; lia).
  unfold wrap64.
  replace (a + (two64 - b))%N with (a - b + 1 * two64)%N by lia.
  rewrite N.Div0.mod_add. apply N.mod_small. lia.
Qed.

Lemma add64_exact a b : (a + b < two64)%N -> add64 a b = (a + b)%N.
Proof. apply wrap64_small. Qed.

Lemma mul64_exact a b : (a * b < two64)%N -> mul64 a b = (a * b)%N.
Proof. apply wrap64_small. Qed.

Lemma add64_le a b : (add64 a b <= a + b)%N.
Proof. apply N.Div0.mod_le. Qed.

#[export] Hint Resolve wrap64_bound : wasm.

(** ** Big-endian integers (encoding/binary.BigEndian) *)

Fixpoint be_encode (k : nat) (n : N) : bytes :=
  match k with
  | O => []
  | S k' => byte_of_N (n / 256 ^ N.of_nat k') :: be_encode k' n
  end.

Fixpoint be_decode (bs : bytes) : N :=
  match bs with
  | [] => 0
  | b :: bs' => Byte.to_N b * 256 ^ N.of_nat (length bs') + be_decode bs'
  end.

Lemma length_be_encode k n : length (be_encode k n) = k.
Proof. induction k; simpl; congruence. Qed.

#[export] Hint Rewrite length_be_encode : wasm_simpl.

Lemma be_decode_encode_mod k n :
  be_decode (be_encode k n) = (n mod 256 ^ N.of_nat k)%N.
Proof.
  induction k as [|k IH]; simpl be_encode; simpl be_decode.
  { by rewrite N.mod_1_r. }
  rewrite length_be_encode, IH, to_N_byte_of_N.
  replace (N.of_nat (S k)) with (N.of_nat k + 1)%N by lia.
  rewrite N.pow_add_r, N.pow_1_r.
  rewrite N.Div0.mod_mul_r. lia.
Qed.

Lemma be_decode_encode k n :
  (n < 256 ^ N.of_nat k)%N -> be_decode (be_encode k n) = n.
Proof. intros. rewrite be_decode_encode_mod. by apply N.mod_small. Qed.

Lemma be_decode_bound bs : (be_decode bs < 256 ^ N.of_nat (length bs))%N.
Proof.
  induction bs as [|b bs IH]; simpl be_decode; simpl length; [done|].
  replace (N.of_nat (S (length bs))) with (N.of_nat (length bs) + 1)%N by lia.
  rewrite N.pow_add_r, N.pow_1_r.
  pose proof (to_N_bound b). nia.
Qed.

Lemma be_decode_app a b :
  be_decode (a ++ b) = (be_decode a * 256 ^ N.of_nat (length b) + be_decode b)%N.
Proof.
  induction a as [|x a IH]; simpl app; cbn [be_decode]; [lia|].
  rewrite IH, length_app, Nat2N.inj_add, N.pow_add_r. lia.
Qed.

Lemma be_encode_inj k a b :
  (a < 256 ^ N.of_nat k)%N -> (b < 256 ^ N.of_nat k)%N ->
  be_encode k a = be_encode k b -> a = b.
Proof.
  intros Ha Hb E. apply (f_equal be_decode) in E.
  by rewrite !be_decode_encode in E.
Qed.

(** sdk.Uint64ToBigEndian: binary.BigEndian.PutUint64 on a fresh slice. *)
Definition Uint64ToBigEndian (n : N) : bytes := be_encode 8 n.

Lemma pow_256_8 : (256 ^ N.of_nat 8)%N = two64.
Proof. reflexivity. Qed.

Lemma Uint64ToBigEndian_inj a b :
  is_u64 a -> is_u64 b ->
  Uint64ToBigEndian a = Uint64ToBigEndian b -> a = b.
Proof. intros Ha Hb. by apply be_encode_inj. Qed.

Lemma length_Uint64ToBigEndian n : length (Uint64ToBigEndian n) = 8.
Proof. apply length_be_encode. Qed.

#[export] Hint Rewrite length_Uint64ToBigEndian : wasm_simpl.

(** ** Lexicographic byte order (bytes.Compare): the iteration order of the
    SDK's key-value stores *)

Fixpoint bytes_leb (a b : bytes) : bool :=
  match a, b with
  | [], _ => true
  | _ :: _, [] => false
  | x :: a', y :: b' =>
      (Byte.to_N x <? Byte.to_N y)%N
      || ((Byte.to_N x =? Byte.to_N y)%N && bytes_leb a' b')
  end.

Definition bytes_le (a b : bytes) : Prop := bytes_leb a b = true.

#[global] Instance bytes_le_dec : RelDecision bytes_le.
Proof. intros a b. unfold bytes_le. apply _. Defined.

#[global] Instance bytes_le_total : Total bytes_le.
Proof.
  unfold bytes_le. intros a.
  induction a as [|x a IH]; intros [|y b]; simpl; auto.
  breflect. rewrite (N.eq_sym_iff (Byte.to_N y)).
  destruct (N.lt_trichotomy (Byte.to_N x) (Byte.to_N y)) as [|[|]]; auto.
  destruct (IH b); auto.
Qed.

#[global] Instance bytes_le_antisymm : AntiSymm (=) bytes_le.
Proof.
  unfold bytes_le. intros a.
  induction a as [|x a IH]; intros [|y b]; simpl; try done.
  breflect. intros H1 H2.
  assert (Byte.to_N x = Byte.to_N y) as E by lia.
  f_equal; [by apply to_N_inj|].
  apply IH; [destruct H1 as [|[]]|destruct H2 as [|[]]]; try done; lia.
Qed.

#[global] Instance bytes_le_trans : Transitive bytes_le.
Proof.
  unfold bytes_le. intros a.
  induction a as [|x a IH]; intros [|y b] [|z c]; simpl; try done.
  breflect. intros [H1|[H1 H1']] [H2|[H2 H2']]; [left; lia..|].
  right. split; [lia|]. by apply (IH b).
Qed.

#[global] Instance bytes_le_refl : Reflexive bytes_le.
Proof. intros a. destruct (total bytes_le a a); done. Qed.

Lemma bytes_le_app_l p a b : bytes_le (p ++ a) (p ++ b) <-> bytes_le a b.
Proof.
  unfold bytes_le. induction p as [|x p IH]; simpl; [done|].
  rewrite <- IH. breflect. intuition lia.
Qed.

(** On encodings of one width the byte order is the numeric order. *)
Lemma bytes_le_decode a b :
  length a = length b ->
  bytes_le a b <-> (be_decode a <= be_decode b)%N.
Proof.
  unfold bytes_le. revert b.
  induction a as [|x a IH]; intros [|y b]; try discriminate;
    cbn [bytes_leb be_decode]; [intros; split; [lia|done]|].
  intros [= E]. breflect. rewrite (IH b E), E.
  pose proof (be_decode_bound a) as Ba. pose proof (be_decode_bound b) as Bb.
  rewrite E in Ba. set (M := (256 ^ N.of_nat (length b))%N) in *.
  split.
  - intros [H|[H H']]; [nia|rewrite H; nia].
  - intros H. destruct (N.lt_trichotomy (Byte.to_N x) (Byte.to_N y))
      as [|[Hxy|]]; [auto| |nia].
    right. split; [done|]. rewrite Hxy in H. nia.
Qed.

Lemma bytes_le_be_encode k a b :
  (a < 256 ^ N.of_nat k)%N -> (b < 256 ^ N.of_nat k)%N ->
  bytes_le (be_encode k a) (be_encode k b) <-> (a <= b)%N.
Proof.
  intros. rewrite bytes_le_decode by by rewrite !length_be_encode.
  by rewrite !be_decode_encode.
Qed.

Lemma be_encode_decode bs : be_encode (length bs) (be_decode bs) = bs.
Proof.
  apply (anti_symm bytes_le); apply bytes_le_decode; rewrite ?length_be_encode; try done;
    rewrite be_decode_encode; try done; apply be_decode_bound.
Qed.
Lemma be_of_length8 bs : length bs = 8 -> exists n, is_u64 n /\ bs = Uint64ToBigEndian n.
Proof.
  intros Hl. exists (be_decode bs). split.
  - pose proof (be_decode_bound bs) as Hb. by rewrite Hl in Hb.
  - unfold Uint64ToBigEndian. by rewrite <- Hl, be_encode_decode.
Qed.

(** ** Prefixes *)

(** [strip_prefix p k] is what follows [p] in [k], when [k] starts with [p]:
    the key a prefix store hands to its client. *)
Fixpoint strip_prefix (p k : bytes) : option bytes :=
  match p, k with
  | [], _ => Some k
  | _ :: _, [] => None
  | x :: p', y :: k' => if decide (x = y) then strip_prefix p' k' else None
  end.

Lemma strip_prefix_Some p k r : strip_prefix p k = Some r <-> k = p ++ r.
Proof.
  revert k. induction p as [|x p IH]; intros k; simpl.
  { split; congruence. }
  destruct k as [|y k]; [done|]. case_decide; subst.
  - rewrite IH. split; congruence.
  - split; [done|]. congruence.
Qed.

Lemma strip_prefix_app p r : strip_prefix p (p ++ r) = Some r.
Proof. by apply strip_prefix_Some. Qed.

Lemma strip_prefix_None p k :
  strip_prefix p k = None <-> forall r, k <> p ++ r.
Proof.
  split.
  - intros H r E. rewrite E, strip_prefix_app in H. done.
  - intros H. destruct (strip_prefix p k) as [r|] eqn:E; [|done].
    apply strip_prefix_Some in E. by destruct (H r).
Qed.

#[export] Hint Rewrite strip_prefix_app : wasm_simpl.

(** Two equally long prefixes with a common extension are equal. *)
Lemma app_same_prefix {A} (p q r s : list A) :
  length p = length q -> p ++ r = q ++ s -> p = q /\ r = s.
Proof. intros ? ?. by apply app_inj_1. Qed.

(** ** Strings (Go strings are byte sequences) *)

Definition bytes_of_string (s : string) : bytes := String.list_byte_of_string s.
Definition string_of_bytes (b : bytes) : string := String.string_of_list_byte b.

Lemma string_of_bytes_of_string s : string_of_bytes (bytes_of_string s) = s.
Proof. apply String.string_of_list_byte_of_string. Qed.

Lemma bytes_of_string_of_bytes b : bytes_of_string (string_of_bytes b) = b.
Proof. apply String.list_byte_of_string_of_list_byte. Qed.

#[global] Instance bytes_of_string_inj : Inj (=) (=) bytes_of_string.
Proof.
  intros a b E. apply (f_equal string_of_bytes) in E.
  by rewrite !string_of_bytes_of_string in E.
Qed.

(** len(s) for a Go string, as the uint64 / int the source converts it to. *)
Definition slen (s : string) : N := N.of_nat (String.length s).
Definition blen (b : bytes) : N := N.of_nat (length b).

Lemma blen_bytes_of_string s : blen (bytes_of_string s) = slen s.
Proof.
  unfold blen, slen, bytes_of_string, String.list_byte_of_string. f_equal.
  rewrite length_map. by induction s as [|? ? IH]; simpl; [|rewrite IH].
Qed.

(** ** Boolean list membership, for `for ... if v == o` loops *)

Definition contains {A} `{EqDecision A} (src : list A) (o : A) : bool :=
  existsb (fun v => bool_decide (v = o)) src.

Lemma contains_spec {A} `{EqDecision A} (src : list A) o :
  contains src o = true <-> o ∈ src.
Proof.
  unfold contains. rewrite existsb_exists. setoid_rewrite bool_decide_eq_true.
  rewrite list_elem_of_In. naive_solver.
Qed.
