(* ===== verification/Errors.v ===== *)
(** * Errors of x/wasm and of wasmvm

    The error values the module returns (x/wasm/types/errors.go), the system
    errors it shares with the VM (wasmvm/types/systemerror.go) and the
    redaction of an error before a contract sees it
    (x/wasm/keeper/msg_dispatcher.go, redactError).

    An [error] is the tree that wrapping builds.  Descriptions given with a
    format string keep the format string; the interpolated arguments are
    left out, except where the text itself is what a contract receives. *)

From S2P Require Import Prelude.
From stdpp Require Import pretty.

Module Errors.

(** The variants of a wasmvm system error; each is a Go error type. *)
Inductive SysVariant :=
| InvalidRequest (Err : string) (Request : bytes)
| InvalidResponse (Err : string) (Response : bytes)
| NoSuchContract (Addr : string)
| NoSuchCode (CodeID : N)
| Unknown
| UnsupportedRequest (Kind : string).

(** The SystemError struct: pointers of which exactly one should be set. *)
Record SystemError := mkSystemError {
  seInvalidRequest : option (string * bytes);
  seInvalidResponse : option (string * bytes);
  seNoSuchContract : option string;
  seNoSuchCode : option N;
  seUnknown : option unit;
  seUnsupportedRequest : option string
}.

Inductive error :=
| ESdk (codespace : string) (code : N) (desc : string)
    (* errorsmod.Register *)
| EWrap (parent : error) (msg : string)
    (* errorsmod.Wrap, Wrapf *)
| EFlavoured (sdkErr : error) (wasmVMErr : option error)
    (* WasmVMFlavouredError *)
| EDeterministic (e : error)
    (* DeterministicError *)
| ESystem (s : SystemError)
| EVariant (v : SysVariant)
| EText (msg : string).
    (* errors.New, fmt.Errorf *)

Definition Wrap (e : error) (msg : string) : error := EWrap e msg.

(** errorsmod.Wrap returns nil on nil. *)
Definition WrapOpt (e : option error) (msg : string) : option error :=
  (fun e => EWrap e msg) <$> e.

Definition DefaultCodespace : string := "wasm".
Definition wasmErr (code : N) (desc : string) : error :=
  ESdk DefaultCodespace code desc.

Definition ErrCreateFailed := wasmErr 2 "create wasm contract failed".
Definition ErrAccountExists := wasmErr 3 "contract account already exists".
Definition ErrInstantiateFailed := wasmErr 4 "instantiate wasm contract failed".
Definition ErrExecuteFailed := wasmErr 5 "execute wasm contract failed".
Definition ErrNotFound := wasmErr 8 "not found".
Definition ErrQueryFailed := wasmErr 9 "query wasm contract failed".
Definition ErrInvalidMsg := wasmErr 10 "invalid CosmosMsg from the contract".
Definition ErrMigrationFailed := wasmErr 11 "migrate wasm contract failed".
Definition ErrEmpty := wasmErr 12 "empty".
Definition ErrLimit := wasmErr 13 "exceeds limit".
Definition ErrInvalid := wasmErr 14 "invalid".
Definition ErrDuplicate := wasmErr 15 "duplicate".
Definition ErrMaxIBCChannels := wasmErr 16 "max transfer channels".
Definition ErrUnsupportedForContract :=
  wasmErr 17 "unsupported for this contract".
Definition ErrPinContractFailed := wasmErr 18 "pinning contract failed".
Definition ErrUnpinContractFailed := wasmErr 19 "unpinning contract failed".
Definition ErrUnknownMsg := wasmErr 20 "unknown message from the contract".
Definition ErrInvalidEvent := wasmErr 21 "invalid event".
Definition ErrExceedMaxQueryStackSize :=
  wasmErr 27 "max query stack size exceeded".
Definition ErrVMError := wasmErr 29 "wasmvm error".
Definition ErrExceedMaxCallDepth := wasmErr 30 "max call depth exceeded".

Definition WasmVMFlavouredErrorFactory {T} (sdkErr : error)
    (wasmVMErrBuilder : T -> error) (d : T) : error :=
  EFlavoured sdkErr (Some (wasmVMErrBuilder d)).

Definition ErrNoSuchContractFn : string -> error :=
  WasmVMFlavouredErrorFactory (wasmErr 22 "no such contract")
    (fun addr => EVariant (NoSuchContract addr)).
Definition ErrNoSuchCodeFn : N -> error :=
  WasmVMFlavouredErrorFactory (wasmErr 28 "no such code")
    (fun id => EVariant (NoSuchCode id)).

(** The registered errors of cosmos-sdk/types/errors that the module uses. *)
Definition sdkErr (code : N) (desc : string) : error := ESdk "sdk" code desc.
Definition ErrUnauthorized := sdkErr 4 "unauthorized".
Definition ErrUnknownRequest := sdkErr 6 "unknown request".
Definition ErrInvalidAddress := sdkErr 7 "invalid address".
Definition ErrInvalidCoins := sdkErr 10 "invalid coins".
Definition ErrOutOfGas := sdkErr 11 "out of gas".
Definition ErrInvalidRequest := sdkErr 18 "invalid request".
Definition ErrInvalidType := sdkErr 29 "invalid type".
Definition ErrPackAny := sdkErr 33 "failed packing protobuf message to Any".
Definition ErrSdkNotFound := sdkErr 38 "not found".

Definition MarkErrorDeterministic (e : error) : error := EDeterministic e.

(** WasmVMFlavouredError.ToWasmVMError. *)
Definition ToWasmVMError (sdkErr : error) (wasmVMErr : option error) : error :=
  match wasmVMErr with Some e => e | None => sdkErr end.

(** errors.Unwrap on the module's error types and on errorsmod's wrapper. *)
Definition Unwrap (e : error) : option error :=
  match e with
  | EWrap p _ => Some p
  | EFlavoured s _ => Some s
  | EDeterministic e => Some e
  | _ => None
  end.

(** errors.Is against a registered error: the first error of the Unwrap chain
    that is registered decides. *)
Fixpoint errorsIs (err target : error) : bool :=
  match err, target with
  | ESdk cs c _, ESdk cs' c' _ => bool_decide (cs = cs') && (c =? c')%N
  | EWrap p _, _ => errorsIs p target
  | EFlavoured s _, _ => errorsIs s target
  | EDeterministic e, _ => errorsIs e target
  | _, _ => false
  end.

(** errors.As with a WasmVMErrorable target: the first WasmVMFlavouredError
    of the Unwrap chain, converted. *)
Fixpoint asWasmVMError (err : error) : option error :=
  match err with
  | EFlavoured s v => Some (ToWasmVMError s v)
  | EWrap p _ => asWasmVMError p
  | EDeterministic e => asWasmVMError e
  | _ => None
  end.

Definition emptySystemError : SystemError :=
  mkSystemError None None None None None None.

(** ToSystemError: a system error or one of its variants, but not a wrapped
    one. *)
Definition ToSystemError (err : error) : option SystemError :=
  match err with
  | ESystem s => Some s
  | EVariant (InvalidRequest e r) =>
      Some (mkSystemError (Some (e, r)) None None None None None)
  | EVariant (InvalidResponse e r) =>
      Some (mkSystemError None (Some (e, r)) None None None None)
  | EVariant (NoSuchContract a) =>
      Some (mkSystemError None None (Some a) None None None)
  | EVariant (NoSuchCode c) =>
      Some (mkSystemError None None None (Some c) None None)
  | EVariant Unknown => Some (mkSystemError None None None None (Some tt) None)
  | EVariant (UnsupportedRequest k) =>
      Some (mkSystemError None None None None None (Some k))
  | _ => None
  end.

Definition variant_string (v : SysVariant) : string :=
  match v with
  | InvalidRequest e r =>
      "invalid request: " +:+ e +:+ " - original request: "
        +:+ string_of_bytes r
  | InvalidResponse e r =>
      "invalid response: " +:+ e +:+ " - original response: "
        +:+ string_of_bytes r
  | NoSuchContract a => "no such contract: " +:+ a
  | NoSuchCode c => "no such code: " +:+ pretty c
  | Unknown => "unknown system error"
  | UnsupportedRequest k => "unsupported request: " +:+ k
  end.

(** SystemError.Error: the first variant set; [None] is the panic on an empty
    struct. *)
Definition system_error_variant (s : SystemError) : option SysVariant :=
  match s with
  | mkSystemError (Some (e, r)) _ _ _ _ _ => Some (InvalidRequest e r)
  | mkSystemError _ (Some (e, r)) _ _ _ _ => Some (InvalidResponse e r)
  | mkSystemError _ _ (Some a) _ _ _ => Some (NoSuchContract a)
  | mkSystemError _ _ _ (Some c) _ _ => Some (NoSuchCode c)
  | mkSystemError _ _ _ _ (Some _) _ => Some Unknown
  | mkSystemError _ _ _ _ _ (Some k) => Some (UnsupportedRequest k)
  | _ => None
  end.

(** What the module relies on in cosmossdk.io/errors. *)
Class ErrorsMod := {
  (** errorsmod.ABCIInfo(err, false): codespace and code *)
  ABCIInfo : error -> string * N;
  (** Error() of a registered and of a wrapped error *)
  registered_text : string -> N -> string -> string;
  wrapped_text : string -> string -> string
}.

(** ABCIInfo reports the registered error found by following Cause. *)
Class ErrorsModLaws `{ErrorsMod} : Prop := {
  ABCIInfo_registered cs c d : ABCIInfo (ESdk cs c d) = (cs, c);
  ABCIInfo_wrap e m : ABCIInfo (EWrap e m) = ABCIInfo e;
  ABCIInfo_flavoured s v : ABCIInfo (EFlavoured s v) = ABCIInfo s;
  ABCIInfo_deterministic e : ABCIInfo (EDeterministic e) = ABCIInfo e
}.

Section Redaction.
Context `{ErrorsMod}.

(** err.Error(). *)
Fixpoint error_string (e : error) : string :=
  match e with
  | ESdk cs c d => registered_text cs c d
  | EWrap p m => wrapped_text m (error_string p)
  | EFlavoured s _ => error_string s
  | EDeterministic e => error_string e
  | ESystem s =>
      match system_error_variant s with
      | Some v => variant_string v
      | None => "unknown error variant"
      end
  | EVariant v => variant_string v
  | EText m => m
  end.

(** The text a redacted error gets: its codespace and code only. *)
Definition redacted_text (info : string * N) : string :=
  "codespace: " +:+ info.1 +:+ ", code: " +:+ pretty info.2.

Definition redactError (err : error) : error :=
  match ToSystemError err with
  | Some _ => err
  | None =>
      match err with
      | EDeterministic _ => err
      | _ => EText (redacted_text (ABCIInfo err))
      end
  end.

(** An error the module lets through to contracts as it is. *)
Definition passes_redaction (err : error) : bool :=
  match err with
  | ESystem _ | EVariant _ | EDeterministic _ => true
  | _ => false
  end.

Lemma redactError_cases err :
  redactError err =
    if passes_redaction err then err else EText (redacted_text (ABCIInfo err)).
Proof. by destruct err as [| | | | |[]|]. Qed.

(** The text handed to a contract for an error that is neither a system
    error nor marked deterministic depends on its codespace and code only, so
    two nodes whose errors agree on these hand out the same bytes. *)
Theorem redactError_deterministic e1 e2 :
  passes_redaction e1 = false -> passes_redaction e2 = false ->
  ABCIInfo e1 = ABCIInfo e2 ->
  error_string (redactError e1) = error_string (redactError e2).
Proof. intros H1 H2 E. by rewrite !redactError_cases, H1, H2, E. Qed.

End Redaction.

Section RedactionWrapping.
Context `{ErrorsModLaws}.

(** Wrapping takes the mark away: only the top-level error is looked at, so
    a wrapped deterministic or flavoured error is redacted to the code of
    the registered error below. *)
Lemma redactError_wrapped e m :
  redactError (EWrap e m) = EText (redacted_text (ABCIInfo e)).
Proof. rewrite redactError_cases; simpl. by rewrite ABCIInfo_wrap. Qed.

Lemma ToSystemError_wrapped e m : ToSystemError (EWrap e m) = None.
Proof. done. Qed.

End RedactionWrapping.

(** ToSystemError embeds a variant so that Error() reads it back. *)
Lemma ToSystemError_variant v :
  exists s, ToSystemError (EVariant v) = Some s
    /\ system_error_variant s = Some v.
Proof. destruct v as [| | | |[]|]; simpl; eauto. Qed.

(** ** Outcomes of a Go call: normal return, returned error, panic *)

Inductive panic :=
| POutOfGas (descriptor : string)     (* storetypes.ErrorOutOfGas *)
| PGasOverflow (descriptor : string)  (* storetypes.ErrorGasOverflow *)
| PError (e : error)                  (* panic(err) *)
| PText (msg : string)                (* panic("...") *)
| PRuntime (msg : string)             (* nil dereference, index out of range *)
| PFuel.                              (* the model's recursion bound *)

Inductive outcome (A : Type) :=
| Ret (a : A)
| Fail (e : error)
| Panic (p : panic).
Arguments Ret {A} a.
Arguments Fail {A} e.
Arguments Panic {A} p.

Definition obind {A B} (o : outcome A) (f : A -> outcome B) : outcome B :=
  match o with Ret a => f a | Fail e => Fail e | Panic p => Panic p end.

(** [if err := v(); err != nil { return err }] chains: the first error. *)
Definition first_error (a b : option error) : option error :=
  match a with Some e => Some e | None => b end.

Lemma first_error_None a b : first_error a b = None <-> a = None /\ b = None.
Proof. destruct a; simpl; naive_solver. Qed.

Lemma WrapOpt_None e m : WrapOpt e m = None <-> e = None.
Proof. destruct e; simpl; naive_solver. Qed.

#[export] Hint Rewrite first_error_None WrapOpt_None : wasm_simpl.

(** [if cond { return e }]. *)
Definition errIf (b : bool) (e : error) : option error :=
  if b then Some e else None.

Lemma errIf_None b e : errIf b e = None <-> b = false.
Proof. destruct b; simpl; naive_solver. Qed.

#[export] Hint Rewrite errIf_None : wasm_simpl.

End Errors.

Infix ">>?" := Errors.first_error (at level 59, right associativity)
  : wasm_scope.
