(* ===== verification/GoStrings.v ===== *)
(** * Go's string functions used by the module

    UTF-8 decoding (unicode/utf8.DecodeRune), strings.TrimSpace, ToUpper,
    EqualFold, bytes.EqualFold, strings.HasPrefix and encoding/hex, as the
    source uses them.  The Unicode tables beyond ASCII are a parameter. *)

From S2P Require Import Prelude.
From Stdlib Require Import Strings.Byte.

Module GoStrings.
Local Open Scope N_scope.

Definition RuneError : N := 0xFFFD.
Definition RuneSelf : N := 0x80.

(** Number of bytes and accepted range of the second byte for a leading byte,
    the `first` and `acceptRanges` tables; [None] for an invalid one. *)
Definition lead_info (b : N) : option (nat * N * N) :=
  if b <? 0x80 then Some (1%nat, 0x80, 0xBF)
  else if b <? 0xC2 then None
  else if b <? 0xE0 then Some (2%nat, 0x80, 0xBF)
  else if b =? 0xE0 then Some (3%nat, 0xA0, 0xBF)
  else if b =? 0xED then Some (3%nat, 0x80, 0x9F)
  else if b <? 0xF0 then Some (3%nat, 0x80, 0xBF)
  else if b =? 0xF0 then Some (4%nat, 0x90, 0xBF)
  else if b <? 0xF4 then Some (4%nat, 0x80, 0xBF)
  else if b =? 0xF4 then Some (4%nat, 0x80, 0x8F)
  else None.

Definition in_range (lo hi b : N) : bool := (lo <=? b) && (b <=? hi).
Definition cont_bits (b : N) : N := N.land b 0x3F.

(** utf8.DecodeRune: the rune and its width; an invalid byte is
    [RuneError] of width 1. *)
Definition DecodeRune (bs : bytes) : N * nat :=
  match bs with
  | [] => (RuneError, 0%nat)
  | x :: rest =>
      let b0 := Byte.to_N x in
      match lead_info b0, Byte.to_N <$> rest with
      | Some (1%nat, _, _), _ => (b0, 1%nat)
      | Some (2%nat, lo, hi), b1 :: _ =>
          if in_range lo hi b1
          then (N.lor (N.shiftl (N.land b0 0x1F) 6) (cont_bits b1), 2%nat)
          else (RuneError, 1%nat)
      | Some (3%nat, lo, hi), b1 :: b2 :: _ =>
          if in_range lo hi b1 && in_range 0x80 0xBF b2
          then (N.lor (N.shiftl (N.land b0 0x0F) 12)
                  (N.lor (N.shiftl (cont_bits b1) 6) (cont_bits b2)), 3%nat)
          else (RuneError, 1%nat)
      | Some (4%nat, lo, hi), b1 :: b2 :: b3 :: _ =>
          if in_range lo hi b1 && in_range 0x80 0xBF b2
             && in_range 0x80 0xBF b3
          then (N.lor (N.shiftl (N.land b0 0x07) 18)
                  (N.lor (N.shiftl (cont_bits b1) 12)
                     (N.lor (N.shiftl (cont_bits b2) 6) (cont_bits b3))), 4%nat)
          else (RuneError, 1%nat)
      | _, _ => (RuneError, 1%nat)
      end
  end.

(** The runes of a byte sequence with the bytes each came from. *)
Fixpoint runes_fuel (fuel : nat) (bs : bytes) : list (N * bytes) :=
  match fuel, bs with
  | S fuel', _ :: _ =>
      let '(r, w) := DecodeRune bs in
      (r, take w bs) :: runes_fuel fuel' (drop w bs)
  | _, _ => []
  end.
Definition runes (bs : bytes) : list (N * bytes) := runes_fuel (length bs) bs.

Lemma DecodeRune_width bs :
  bs <> [] -> (1 <= (DecodeRune bs).2 <= length bs)%nat.
Proof.
  destruct bs as [|x rest]; [done|intros _].
  unfold DecodeRune. simpl length.
  destruct (lead_info _) as [[[[|[|[|[|[|?]]]]] lo] hi]|]; simpl; try lia;
    destruct rest as [|? [|? [|? ?]]]; simpl; try lia;
    repeat case_match; simpl; lia.
Qed.

Lemma runes_fuel_concat fuel bs :
  (length bs <= fuel)%nat -> concat (runes_fuel fuel bs).*2 = bs.
Proof.
  revert bs. induction fuel as [|fuel IH]; intros bs Hl.
  { by destruct bs; [|simpl in Hl; lia]. }
  destruct bs as [|x rest]; [done|].
  pose proof (DecodeRune_width (x :: rest) ltac:(done)) as W.
  cbn [runes_fuel]. destruct (DecodeRune (x :: rest)) as [r w].
  simpl in W. simpl. rewrite IH by (rewrite length_drop; simpl in *; lia).
  by rewrite take_drop.
Qed.

(** Decoding loses no byte: the widths partition the input, and the fuel
    (one unit per byte) is enough. *)
Lemma runes_concat bs : concat (runes bs).*2 = bs.
Proof. by apply runes_fuel_concat. Qed.

(** unicode.IsSpace. *)
Definition IsSpace (r : N) : bool :=
  in_range 0x09 0x0D r || (r =? 0x20) || (r =? 0x85) || (r =? 0xA0)
  || (r =? 0x1680) || in_range 0x2000 0x200A r || (r =? 0x2028)
  || (r =? 0x2029) || (r =? 0x202F) || (r =? 0x205F) || (r =? 0x3000).

Fixpoint drop_spaces (rs : list (N * bytes)) : list (N * bytes) :=
  match rs with
  | (r, b) :: rs' => if IsSpace r then drop_spaces rs' else rs
  | [] => []
  end.

Definition trim_bytes (bs : bytes) : bytes :=
  concat (reverse (drop_spaces (reverse (drop_spaces (runes bs))))).*2.

(** strings.TrimSpace. *)
Definition TrimSpace (s : string) : string :=
  string_of_bytes (trim_bytes (bytes_of_string s)).

Definition is_upper_ascii (r : N) : bool := in_range 65 90 r.
Definition is_lower_ascii (r : N) : bool := in_range 97 122 r.

(** strings.ToUpper on ASCII text, which bech32 strings are. *)
Definition to_upper_byte (b : byte) : byte :=
  if is_lower_ascii (Byte.to_N b) then byte_of_N (Byte.to_N b - 32) else b.
Definition to_lower_byte (b : byte) : byte :=
  if is_upper_ascii (Byte.to_N b) then byte_of_N (Byte.to_N b + 32) else b.
Definition ToUpper (s : string) : string :=
  string_of_bytes (to_upper_byte <$> bytes_of_string s).

Class UnicodeTables := {
  (** unicode.IsPrint beyond ASCII *)
  IsPrint_hi : N -> bool;
  (** sr and tr are on one unicode.SimpleFold orbit, at least one of them
      beyond ASCII *)
  SimpleFold_hi : N -> N -> bool
}.

Section Unicode.
Context `{UnicodeTables}.

Definition IsPrint (r : N) : bool :=
  if r <? RuneSelf then in_range 0x20 0x7E r else IsPrint_hi r.

(** strings.Map(func(r) { if IsPrint(r) r else -1 }, s); an invalid byte is
    re-encoded as the three bytes of RuneError, so it never compares equal. *)
Definition rune_error_bytes : bytes := [Byte.xef; Byte.xbf; Byte.xbd].
Definition keep_printable (s : string) : string :=
  string_of_bytes (concat ((fun rb : N * bytes =>
    if IsPrint rb.1
    then (if rb.1 =? RuneError then rune_error_bytes else rb.2)
    else []) <$> runes (bytes_of_string s))).

(** One step of the EqualFold loops. *)
Definition rune_eq_fold (sr tr : N) : bool :=
  (sr =? tr)
  || (let lo := N.min sr tr in
      let hi := N.max sr tr in
      if hi <? RuneSelf then is_upper_ascii lo && (hi =? lo + 32)
      else SimpleFold_hi lo hi).

Fixpoint runes_eq_fold (s t : list (N * bytes)) : bool :=
  match s, t with
  | [], [] => true
  | (sr, _) :: s', (tr, _) :: t' => rune_eq_fold sr tr && runes_eq_fold s' t'
  | _, _ => false
  end.

(** bytes.EqualFold, strings.EqualFold. *)
Definition bytes_EqualFold (s t : bytes) : bool :=
  runes_eq_fold (runes s) (runes t).
Definition EqualFold (s t : string) : bool :=
  bytes_EqualFold (bytes_of_string s) (bytes_of_string t).

Lemma runes_eq_fold_refl s : runes_eq_fold s s = true.
Proof.
  induction s as [|[r b] s IH]; simpl; [done|].
  unfold rune_eq_fold. by rewrite N.eqb_refl, IH.
Qed.

Lemma bytes_EqualFold_refl s : bytes_EqualFold s s = true.
Proof. apply runes_eq_fold_refl. Qed.

End Unicode.

(** strings.HasPrefix. *)
Definition HasPrefix (s p : string) : bool := String.prefix p s.

(** encoding/hex.EncodeToString. *)
Definition hex_digit (n : N) : byte :=
  byte_of_N (if n <? 10 then n + 48 else n + 87).
Definition hex_encode (bs : bytes) : string :=
  string_of_bytes (concat ((fun b : byte =>
    [hex_digit (Byte.to_N b / 16); hex_digit (Byte.to_N b mod 16)]) <$> bs)).

Lemma hex_digit_inj a b : a < 16 -> b < 16 -> hex_digit a = hex_digit b -> a = b.
Proof.
  unfold hex_digit. intros Ha Hb E. apply (f_equal Byte.to_N) in E.
  rewrite !to_N_byte_of_N in E.
  destruct (N.ltb_spec a 10), (N.ltb_spec b 10);
    rewrite !N.mod_small in E by lia; lia.
Qed.

(** Checksums are told apart by their hex form. *)
Lemma hex_encode_inj a b : hex_encode a = hex_encode b -> a = b.
Proof.
  unfold hex_encode. intros E.
  apply (f_equal bytes_of_string) in E.
  rewrite !bytes_of_string_of_bytes in E. revert b E.
  induction a as [|x a IH]; intros [|y b]; simpl; try done.
  intros [= E1 E2 E]. f_equal; [|by apply IH].
  pose proof (to_N_bound x). pose proof (to_N_bound y).
  apply hex_digit_inj in E1; [|by apply N.Div0.div_lt_upper_bound; lia..].
  apply hex_digit_inj in E2; [|by apply N.mod_upper_bound..].
  apply to_N_inj.
  rewrite (N.div_mod (Byte.to_N x) 16), (N.div_mod (Byte.to_N y) 16) by done.
  congruence.
Qed.

End GoStrings.
