(* ===== verification/Json.v ===== *)
(** Go's encoding/json as the module uses it: json.Valid on a contract
    message and json.Unmarshal into an interface{}, of which the module looks
    at the top-level object keys. *)
From S2P Require Import Prelude GoStrings.
Import GoStrings.
Open Scope wasm_scope.

Module Json.
Local Open Scope N_scope.

(** The document json.Unmarshal builds; an object keeps every member, the Go
    map keeps the last one of each key. Numbers keep their literal. *)
Inductive json :=
| JNull
| JBool (b : bool)
| JNumber (literal : bytes)
| JString (s : bytes)
| JArray (elements : list json)
| JObject (members : list (bytes * json)).

(** ** Lexical level *)

Definition is_ws (b : byte) : bool :=
  bool_decide (b ∈ [Byte.x20; Byte.x09; Byte.x0d; Byte.x0a]).
Fixpoint skip_ws (bs : bytes) : bytes :=
  match bs with
  | b :: bs' => if is_ws b then skip_ws bs' else bs
  | [] => []
  end.

(** Consume a given byte or a given literal. *)
Definition eat (b : byte) (bs : bytes) : option bytes :=
  match bs with
  | b' :: bs' => if Byte.eqb b' b then Some bs' else None
  | [] => None
  end.

Definition is_digit (b : byte) : bool := in_range 48 57 (Byte.to_N b).
Fixpoint span_digits (bs : bytes) : bytes * bytes :=
  match bs with
  | b :: bs' =>
      if is_digit b then let '(d, r) := span_digits bs' in (b :: d, r) else ([], bs)
  | [] => ([], [])
  end.

(** An optional minus sign, then 0 or a number without leading zero. *)
Definition scan_int (bs : bytes) : option (bytes * bytes) :=
  let '(sign, bs) := match eat Byte.x2d bs with
                     | Some r => ([Byte.x2d], r)
                     | None => ([], bs)
                     end in
  match eat Byte.x30 bs with
  | Some r => Some (sign ++ [Byte.x30], r)
  | None => let '(d, r) := span_digits bs in
            if bool_decide (d = []) then None else Some (sign ++ d, r)
  end.

Definition scan_frac (bs : bytes) : option (bytes * bytes) :=
  match eat Byte.x2e bs with
  | Some bs' => let '(d, r) := span_digits bs' in
                if bool_decide (d = []) then None else Some (Byte.x2e :: d, r)
  | None => Some ([], bs)
  end.

Definition eat_first (cs : list byte) (bs : bytes) : option (byte * bytes) :=
  match bs with
  | b :: bs' => if bool_decide (b ∈ cs) then Some (b, bs') else None
  | [] => None
  end.

Definition scan_exp (bs : bytes) : option (bytes * bytes) :=
  match eat_first [Byte.x65; Byte.x45] bs with
  | Some (e, bs') =>
      let '(sign, bs'') := match eat_first [Byte.x2b; Byte.x2d] bs' with
                           | Some (c, r) => ([c], r)
                           | None => ([], bs')
                           end in
      let '(d, r) := span_digits bs'' in
      if bool_decide (d = []) then None else Some (e :: sign ++ d, r)
  | None => Some ([], bs)
  end.

Definition scan_number (bs : bytes) : option (bytes * bytes) :=
  '(i, r) ← scan_int bs; '(f, r) ← scan_frac r; '(e, r) ← scan_exp r;
  Some (i ++ f ++ e, r).

Definition hex_value (b : byte) : option N :=
  let n := Byte.to_N b in
  if in_range 48 57 n then Some (n - 48)
  else if in_range 97 102 n then Some (n - 87)
  else if in_range 65 70 n then Some (n - 55)
  else None.

Definition escapes : list byte :=
  [Byte.x62; Byte.x66; Byte.x6e; Byte.x72; Byte.x74; Byte.x5c; Byte.x2f; Byte.x22].

(** States of the string scanner: in the text, after a backslash, inside a
    \uXXXX escape with digits left. *)
Inductive str_state := InString | InEsc | InHex (left : nat).

(** The raw text of a string up to its closing quote. *)
Fixpoint scan_string (st : str_state) (bs : bytes) : option (bytes * bytes) :=
  match bs with
  | [] => None
  | b :: r =>
      let continue st := '(s, r') ← scan_string st r; Some (b :: s, r') in
      match st with
      | InString =>
          if Byte.eqb b Byte.x22 then Some ([], r)
          else if Byte.eqb b Byte.x5c then continue InEsc
          else if Byte.to_N b <? 32 then None
          else continue InString
      | InEsc =>
          if Byte.eqb b Byte.x75 then continue (InHex 3)
          else if bool_decide (b ∈ escapes) then continue InString
          else None
      | InHex n =>
          _ ← hex_value b;
          continue (match n with O => InString | S n => InHex n end)
      end
  end.

(** utf8.EncodeRune; surrogates and values above 0x10FFFF become U+FFFD. *)
Definition EncodeRune (r : N) : bytes :=
  let enc3 r := [byte_of_N (N.lor 0xE0 (N.shiftr r 12));
                 byte_of_N (N.lor 0x80 (N.land (N.shiftr r 6) 0x3F));
                 byte_of_N (N.lor 0x80 (N.land r 0x3F))] in
  if r <? 0x80 then [byte_of_N r]
  else if r <? 0x800 then
    [byte_of_N (N.lor 0xC0 (N.shiftr r 6)); byte_of_N (N.lor 0x80 (N.land r 0x3F))]
  else if in_range 0xD800 0xDFFF r || (0x10FFFF <? r) then enc3 RuneError
  else if r <? 0x10000 then enc3 r
  else [byte_of_N (N.lor 0xF0 (N.shiftr r 18));
        byte_of_N (N.lor 0x80 (N.land (N.shiftr r 12) 0x3F));
        byte_of_N (N.lor 0x80 (N.land (N.shiftr r 6) 0x3F));
        byte_of_N (N.lor 0x80 (N.land r 0x3F))].

(** getu4: a \uXXXX escape at the head of the input. *)
Definition getu4 (bs : bytes) : option N :=
  match bs with
  | s :: u :: a :: b :: c :: d :: _ =>
      if negb (Byte.eqb s Byte.x5c && Byte.eqb u Byte.x75) then None else
      a ← hex_value a; b ← hex_value b; c ← hex_value c; d ← hex_value d;
      Some (((a * 16 + b) * 16 + c) * 16 + d)
  | _ => None
  end.

(** utf16.DecodeRune. *)
Definition utf16_pair (r1 r2 : N) : option N :=
  if in_range 0xD800 0xDBFF r1 && in_range 0xDC00 0xDFFF r2
  then Some (N.lor (N.shiftl (r1 - 0xD800) 10) (r2 - 0xDC00) + 0x10000)
  else None.

Definition simple_escape (e : byte) : byte :=
  match e with
  | Byte.x62 => Byte.x08 | Byte.x66 => Byte.x0c | Byte.x6e => Byte.x0a
  | Byte.x72 => Byte.x0d | Byte.x74 => Byte.x09 | _ => e
  end.

(** unquoteBytes on the raw text of a scanned string: one round per input
    byte at most. *)
Fixpoint unquote_fuel (fuel : nat) (bs : bytes) : bytes :=
  match fuel, bs with
  | S fuel, b :: bs1 =>
      if Byte.eqb b Byte.x5c then
        match eat Byte.x75 bs1, bs1 with
        | Some _, _ =>
            match getu4 bs with
            | None => []
            | Some rr =>
                let bs' := drop 6 bs in
                if in_range 0xD800 0xDFFF rr then
                  match getu4 bs' ≫= utf16_pair rr with
                  | Some dec => EncodeRune dec ++ unquote_fuel fuel (drop 6 bs')
                  | None => EncodeRune RuneError ++ unquote_fuel fuel bs'
                  end
                else EncodeRune rr ++ unquote_fuel fuel bs'
            end
        | None, e :: r => simple_escape e :: unquote_fuel fuel r
        | None, [] => []
        end
      else
        let '(r, w) := DecodeRune bs in EncodeRune r ++ unquote_fuel fuel (drop w bs)
  | _, _ => []
  end.
Definition unquote (bs : bytes) : bytes := unquote_fuel (length bs) bs.

(** ** Documents *)

Definition maxNestingDepth : N := 10000.
Definition tag_bytes (s : string) : bytes := bytes_of_string s.

Definition scan_scalar (bs : bytes) : option (json * bytes) :=
  match strip_prefix (tag_bytes "true") bs with
  | Some r => Some (JBool true, r)
  | None =>
  match strip_prefix (tag_bytes "false") bs with
  | Some r => Some (JBool false, r)
  | None =>
  match strip_prefix (tag_bytes "null") bs with
  | Some r => Some (JNull, r)
  | None => '(n, r) ← scan_number bs; Some (JNumber n, r)
  end end end.

(** The scanner and decoder on a value, on the elements of an array after the
    first comma or bracket, on the members of an object. [depth] counts the
    open brackets. *)
Fixpoint p_value (fuel : nat) (depth : N) (bs : bytes) : option (json * bytes) :=
  match fuel with
  | O => None
  | S fuel =>
      let bs := skip_ws bs in
      match eat Byte.x7b bs, eat Byte.x5b bs, eat Byte.x22 bs with
      | Some r, _, _ =>
          if maxNestingDepth <=? depth then None
          else match eat Byte.x7d (skip_ws r) with
               | Some r => Some (JObject [], r)
               | None => '(ms, r) ← p_members fuel (depth + 1) r; Some (JObject ms, r)
               end
      | _, Some r, _ =>
          if maxNestingDepth <=? depth then None
          else match eat Byte.x5d (skip_ws r) with
               | Some r => Some (JArray [], r)
               | None => '(es, r) ← p_elements fuel (depth + 1) r; Some (JArray es, r)
               end
      | _, _, Some r => '(s, r) ← scan_string InString r; Some (JString (unquote s), r)
      | None, None, None => scan_scalar bs
      end
  end
with p_elements (fuel : nat) (depth : N) (bs : bytes) : option (list json * bytes) :=
  match fuel with
  | O => None
  | S fuel =>
      '(v, r) ← p_value fuel depth bs;
      match eat Byte.x2c (skip_ws r) with
      | Some r => '(vs, r) ← p_elements fuel depth r; Some (v :: vs, r)
      | None => r ← eat Byte.x5d (skip_ws r); Some ([v], r)
      end
  end
with p_members (fuel : nat) (depth : N) (bs : bytes)
    : option (list (bytes * json) * bytes) :=
  match fuel with
  | O => None
  | S fuel =>
      r ← eat Byte.x22 (skip_ws bs);
      '(k, r) ← scan_string InString r;
      r ← eat Byte.x3a (skip_ws r);
      '(v, r) ← p_value fuel depth r;
      match eat Byte.x2c (skip_ws r) with
      | Some r => '(ms, r) ← p_members fuel depth r; Some ((unquote k, v) :: ms, r)
      | None => r ← eat Byte.x7d (skip_ws r); Some ([(unquote k, v)], r)
      end
  end.

(** Two rounds per byte are enough: see [p_fuel_enough]. *)
Definition json_fuel (bs : bytes) : nat := 2 * length bs + 2.

Definition parse (bs : bytes) : option json :=
  '(v, r) ← p_value (json_fuel bs) 0 bs;
  match skip_ws r with [] => Some v | _ => None end.

(** ** json.Unmarshal into an interface{} *)

Definition digits_value (ds : bytes) : N :=
  foldl (fun acc d => acc * 10 + (Byte.to_N d - 48)) 0 ds.

(** The exponent as strconv.readFloat reads it: further digits are skipped
    once the value has reached 10000. *)
Definition exp_value (ds : bytes) : N :=
  foldl (fun e d => if e <? 10000 then e * 10 + (Byte.to_N d - 48) else e) 0 ds.

(** Mantissa and decimal exponent of a number literal. *)
Definition number_value (lit : bytes) : N * Z :=
  let lit := default lit (eat Byte.x2d lit) in
  let '(ip, r) := span_digits lit in
  let '(fp, r) := match eat Byte.x2e r with
                  | Some r => span_digits r | None => ([], r) end in
  let e := match eat_first [Byte.x65; Byte.x45] r with
           | Some (_, r) =>
               match eat Byte.x2d r with
               | Some r => Z.opp (Z.of_N (exp_value r))
               | None => Z.of_N (exp_value (default r (eat Byte.x2b r)))
               end
           | None => 0%Z
           end in
  (digits_value (ip ++ fp), (e - Z.of_nat (length fp))%Z).

(** strconv.ParseFloat reports ErrRange for a literal that rounds to infinity:
    from the midpoint between the largest float64 and 2^1024 on. *)
Definition float64_limit : N := 2 ^ 1024 - 2 ^ 970.
Definition number_overflows (lit : bytes) : bool :=
  let '(m, e) := number_value lit in
  if (e <? 0)%Z then float64_limit * 10 ^ Z.to_N (- e) <=? m
  else float64_limit <=? m * 10 ^ Z.to_N e.

(** The number literals of a document in decoding order. *)
Fixpoint numbers (v : json) : list bytes :=
  match v with
  | JNumber l => [l]
  | JArray vs => concat (map numbers vs)
  | JObject ms => concat (map (fun m => numbers m.2) ms)
  | _ => []
  end.

(** Decoding goes on after a number out of range and reports the first one. *)
Definition json_Unmarshal (bs : bytes) : json + string :=
  match parse bs with
  | None => inr "invalid JSON"
  | Some v =>
      match filter (fun l => number_overflows l = true) (numbers v) with
      | [] => inl v
      | l :: _ =>
          inr (String.append "json: cannot unmarshal number "
                 (String.append (string_of_bytes l)
                    " into Go value of type float64"))
      end
  end.

(** The keys of the map an object decodes to. *)
Definition map_keys (ms : list (bytes * json)) : list bytes := remove_dups ms.*1.

(** json.Valid *)
Definition json_Valid (bs : bytes) : bool := bool_decide (is_Some (parse bs)).

(** ** The recursion bound is enough *)

Lemma eat_shorter b bs r : eat b bs = Some r -> length bs = S (length r).
Proof. destruct bs; simpl; [done|]. case_match; naive_solver. Qed.

Lemma eat_first_shorter cs bs b r :
  eat_first cs bs = Some (b, r) -> length bs = S (length r).
Proof. destruct bs; simpl; [done|]. case_match; naive_solver. Qed.

Lemma skip_ws_le bs : (length (skip_ws bs) <= length bs)%nat.
Proof. induction bs; simpl; [lia|]. case_match; simpl; lia. Qed.

Lemma span_digits_length bs d r :
  span_digits bs = (d, r) -> length bs = (length d + length r)%nat.
Proof.
  revert d r. induction bs as [|b bs IH]; simpl; intros d r E; [naive_solver|].
  destruct (is_digit b); [|naive_solver].
  destruct (span_digits bs) as [d' r'] eqn:E'. injection E as <- <-.
  simpl. by rewrite (IH _ _ eq_refl).
Qed.

Lemma scan_string_shorter st bs s r :
  scan_string st bs = Some (s, r) -> (length r < length bs)%nat.
Proof.
  revert st s r. induction bs as [|b bs IH]; intros st s r E; [done|].
  cbn [scan_string] in E. simpl.
  assert (forall st', ('(s, r') ← scan_string st' bs; Some (b :: s, r')) = Some (s, r) ->
          (length r < S (length bs))%nat) as Hc.
  { intros st' E'. apply bind_Some in E' as ([s' r'] & E1 & [= <- <-]).
    apply IH in E1. lia. }
  destruct st as [| |n]; cbv zeta in E.
  - destruct (Byte.eqb b Byte.x22); [simplify_eq; lia|].
    destruct (Byte.eqb b Byte.x5c); [eauto|].
    destruct (Byte.to_N b <? 32); [done|eauto].
  - destruct (Byte.eqb b Byte.x75); [eauto|].
    destruct (bool_decide (b ∈ escapes)); [eauto|done].
  - apply bind_Some in E as (? & _ & E). eauto.
Qed.

Lemma nonempty_digits (d : bytes) : d <> [] -> (0 < length d)%nat.
Proof. destruct d; [done|simpl; lia]. Qed.

Lemma scan_number_shorter bs n r :
  scan_number bs = Some (n, r) -> (length r < length bs)%nat.
Proof.
  unfold scan_number. intros E.
  apply bind_Some in E as ([i r1] & E1 & E). apply bind_Some in E as ([f r2] & E2 & E).
  apply bind_Some in E as ([e r3] & E3 & [= <- <-]).
  assert (length r1 < length bs)%nat; [|assert (length r2 <= length r1)%nat;
    [|assert (length r3 <= length r2)%nat; [|lia]]].
  - unfold scan_int in E1. clear -E1.
    destruct (eat Byte.x2d bs) as [bs'|] eqn:Hm; [apply eat_shorter in Hm|];
      (destruct (eat Byte.x30 _) eqn:Hz; [apply eat_shorter in Hz; simplify_eq; lia|]);
      destruct (span_digits _) as [d r'] eqn:Hd; apply span_digits_length in Hd;
      case_bool_decide as Hne; simplify_eq; apply nonempty_digits in Hne; lia.
  - unfold scan_frac in E2. clear -E2.
    destruct (eat Byte.x2e r1) eqn:Hm; [apply eat_shorter in Hm|simplify_eq; lia].
    destruct (span_digits _) as [d r'] eqn:Hd. apply span_digits_length in Hd.
    case_bool_decide; simplify_eq; lia.
  - unfold scan_exp in E3. clear -E3.
    destruct (eat_first _ r2) as [[c r']|] eqn:Hm; [apply eat_first_shorter in Hm|simplify_eq; lia].
    destruct (eat_first _ r') as [[c' r'']|] eqn:Hs; [apply eat_first_shorter in Hs|];
      (destruct (span_digits _) as [d rr] eqn:Hd; apply span_digits_length in Hd;
       case_bool_decide; simplify_eq; lia).
Qed.

Lemma scan_scalar_shorter bs v r :
  scan_scalar bs = Some (v, r) -> (length r < length bs)%nat.
Proof.
  unfold scan_scalar. intros E.
  destruct (strip_prefix (tag_bytes "true") bs) eqn:T.
  { apply strip_prefix_Some in T as ->. simplify_eq. rewrite length_app. simpl. lia. }
  destruct (strip_prefix (tag_bytes "false") bs) eqn:F.
  { apply strip_prefix_Some in F as ->. simplify_eq. rewrite length_app. simpl. lia. }
  destruct (strip_prefix (tag_bytes "null") bs) eqn:U.
  { apply strip_prefix_Some in U as ->. simplify_eq. rewrite length_app. simpl. lia. }
  apply bind_Some in E as ([n r'] & E & [= <- <-]). by apply scan_number_shorter in E.
Qed.

Definition shorter_at {A} (p : N -> bytes -> option (A * bytes)) : Prop :=
  forall depth bs v r, p depth bs = Some (v, r) -> (length r < length bs)%nat.

Lemma p_shorter fuel :
  shorter_at (p_value fuel) /\ shorter_at (p_elements fuel)
  /\ shorter_at (p_members fuel).
Proof.
  induction fuel as [|fuel (IHv & IHe & IHm)]; [by split_and!; intros ????|].
  split_and!; intros depth bs v r E.
  - cbn [p_value] in E. pose proof (skip_ws_le bs) as Hws.
    destruct (eat Byte.x7b (skip_ws bs)) as [r1|] eqn:H1;
      [|destruct (eat Byte.x5b (skip_ws bs)) as [r1|] eqn:H2;
        [|destruct (eat Byte.x22 (skip_ws bs)) as [r1|] eqn:H3]].
    + apply eat_shorter in H1. destruct (_ <=? _)%N; [done|].
      destruct (eat Byte.x7d (skip_ws r1)) eqn:H4.
      { apply eat_shorter in H4. pose proof (skip_ws_le r1). simplify_eq. lia. }
      apply bind_Some in E as ([? ?] & E & [= <- <-]). apply IHm in E. lia.
    + apply eat_shorter in H2. destruct (_ <=? _)%N; [done|].
      destruct (eat Byte.x5d (skip_ws r1)) eqn:H4.
      { apply eat_shorter in H4. pose proof (skip_ws_le r1). simplify_eq. lia. }
      apply bind_Some in E as ([? ?] & E & [= <- <-]). apply IHe in E. lia.
    + apply eat_shorter in H3. apply bind_Some in E as ([? ?] & E & [= <- <-]).
      apply scan_string_shorter in E. lia.
    + apply scan_scalar_shorter in E. lia.
  - cbn [p_elements] in E. apply bind_Some in E as ([v1 r1] & E1 & E).
    apply IHv in E1. pose proof (skip_ws_le r1).
    destruct (eat Byte.x2c (skip_ws r1)) eqn:H4.
    + apply eat_shorter in H4. apply bind_Some in E as ([? ?] & E & [= <- <-]).
      apply IHe in E. lia.
    + apply bind_Some in E as (? & E & [= <- <-]). apply eat_shorter in E. lia.
  - cbn [p_members] in E. apply bind_Some in E as (r1 & E1 & E).
    apply bind_Some in E as ([k r2] & E2 & E). apply bind_Some in E as (r3 & E3 & E).
    apply bind_Some in E as ([v1 r4] & E4 & E).
    apply eat_shorter in E1, E3. apply scan_string_shorter in E2. apply IHv in E4.
    pose proof (skip_ws_le bs). pose proof (skip_ws_le r2). pose proof (skip_ws_le r4).
    destruct (eat Byte.x2c (skip_ws r4)) eqn:H4.
    + apply eat_shorter in H4. apply bind_Some in E as ([? ?] & E & [= <- <-]).
      apply IHm in E. lia.
    + apply bind_Some in E as (? & E & [= <- <-]). apply eat_shorter in E. lia.
Qed.

Lemma option_bind_ext {A B} (o1 o2 : option A) (f g : A -> option B) :
  o1 = o2 -> (forall x, o1 = Some x -> f x = g x) -> o1 ≫= f = o2 ≫= g.
Proof. intros <- Hf. destruct o1; simpl; auto. Qed.

Lemma p_fuel_enough f1 :
  forall f2 depth bs, (f1 <= f2)%nat ->
  ((2 * length bs + 1 <= f1)%nat -> p_value f1 depth bs = p_value f2 depth bs)
  /\ ((2 * length bs + 2 <= f1)%nat -> p_elements f1 depth bs = p_elements f2 depth bs)
  /\ ((2 * length bs + 1 <= f1)%nat -> p_members f1 depth bs = p_members f2 depth bs).
Proof.
  induction f1 as [|f1 IH]; intros f2 depth bs Hle; [split_and!; lia|].
  destruct f2 as [|f2]; [lia|]. apply le_S_n in Hle.
  pose proof (p_shorter f1) as (Sv & _ & _).
  split_and!; intros Hf.
  - cbn [p_value]. pose proof (skip_ws_le bs) as Hws.
    destruct (eat Byte.x7b (skip_ws bs)) as [r1|] eqn:H1;
      [|destruct (eat Byte.x5b (skip_ws bs)) as [r1|] eqn:H2; [|done]].
    + apply eat_shorter in H1. repeat case_match; try done.
      apply option_bind_ext; [|done]. apply IH; lia.
    + apply eat_shorter in H2. repeat case_match; try done.
      apply option_bind_ext; [|done]. apply IH; lia.
  - cbn [p_elements]. apply option_bind_ext; [apply IH; lia|].
    intros [v r] E. apply Sv in E. pose proof (skip_ws_le r).
    destruct (eat Byte.x2c (skip_ws r)) eqn:H4; [|done]. apply eat_shorter in H4.
    apply option_bind_ext; [|done]. apply IH; lia.
  - cbn [p_members]. pose proof (skip_ws_le bs).
    apply option_bind_ext; [done|]. intros r1 E1. apply eat_shorter in E1.
    apply option_bind_ext; [done|]. intros [k r2] E2. apply scan_string_shorter in E2.
    pose proof (skip_ws_le r2).
    apply option_bind_ext; [done|]. intros r3 E3. apply eat_shorter in E3.
    apply option_bind_ext; [apply IH; lia|]. intros [v r4] E4. apply Sv in E4.
    pose proof (skip_ws_le r4).
    destruct (eat Byte.x2c (skip_ws r4)) eqn:H4; [|done]. apply eat_shorter in H4.
    apply option_bind_ext; [|done]. apply IH; lia.
Qed.

Lemma parse_fuel bs fuel :
  (json_fuel bs <= fuel)%nat ->
  parse bs = '(v, r) ← p_value fuel 0 bs;
             match skip_ws r with [] => Some v | _ => None end.
Proof.
  intros Hf. unfold parse. apply option_bind_ext; [|done].
  apply p_fuel_enough; unfold json_fuel in *; lia.
Qed.

Lemma unquote_fuel_enough f1 :
  forall f2 bs, (f1 <= f2)%nat -> (length bs <= f1)%nat ->
  unquote_fuel f1 bs = unquote_fuel f2 bs.
Proof.
  induction f1 as [|f1 IH]; intros f2 bs Hle Hl.
  { destruct bs; [|simpl in Hl; lia]. by destruct f2. }
  destruct f2 as [|f2]; [lia|]. apply le_S_n in Hle.
  destruct bs as [|b bs]; [done|]. cbn [unquote_fuel]. cbn [length] in Hl.
  assert (forall n, (0 < n)%nat -> unquote_fuel f1 (drop n (b :: bs))
                          = unquote_fuel f2 (drop n (b :: bs))) as Hd.
  { intros n Hn. apply IH; [done|]. rewrite length_drop. simpl. lia. }
  destruct (Byte.eqb b Byte.x5c).
  - destruct (eat Byte.x75 bs).
    + rewrite !drop_drop. rewrite !(Hd 6%nat), !(Hd (6 + 6)%nat) by lia. done.
    + destruct bs; [done|]. f_equal. apply IH; simpl in *; lia.
  - pose proof (DecodeRune_width (b :: bs) ltac:(done)) as W.
    destruct (DecodeRune (b :: bs)) as [r w]. simpl in W. by rewrite Hd by lia.
Qed.

(** Unmarshal fails on everything that is not valid, and yields the parsed
    document otherwise. *)
Lemma json_Unmarshal_valid bs v : json_Unmarshal bs = inl v -> json_Valid bs = true.
Proof.
  unfold json_Unmarshal, json_Valid. destruct (parse bs); [|done].
  intros _. by apply bool_decide_true.
Qed.

(** Text with every apostrophe standing for a double quote. *)
Definition jtext (s : string) : bytes :=
  (fun b => if Byte.eqb b Byte.x27 then Byte.x22 else b) <$> bytes_of_string s.

Example json_Unmarshal_example :
  json_Unmarshal (jtext " { 'rele\u0061se' : {'to':['b\n', -1.5e3, null]} } ")
  = inl (JObject [(tag_bytes "release",
      JObject [(tag_bytes "to",
        JArray [JString [Byte.x62; Byte.x0a]; JNumber (tag_bytes "-1.5e3"); JNull])])]).
Proof. by vm_compute. Qed.

Example json_number_range :
  json_Valid (tag_bytes "[1, 1e400]") = true
  /\ json_Unmarshal (tag_bytes "[1, 1e400]")
     = inr "json: cannot unmarshal number 1e400 into Go value of type float64"%string
  /\ json_Valid (tag_bytes "[1, 01]") = false.
Proof. by vm_compute. Qed.

(** ** json.Marshal *)

Definition hex4 (r : N) : bytes :=
  [Byte.x5c; Byte.x75; hex_digit (N.shiftr r 12); hex_digit (N.land (N.shiftr r 8) 15);
   hex_digit (N.land (N.shiftr r 4) 15); hex_digit (N.land r 15)].

(** appendString with HTML escaping, on one rune: the quotation mark, the
    backslash and control characters, the HTML characters, U+2028 and U+2029
    are escaped, an invalid byte becomes the escape of U+FFFD. *)
Definition quote_rune (rb : N * bytes) : bytes :=
  let '(r, raw) := rb in
  if r <? RuneSelf then
    if (r =? 0x22) || (r =? 0x5C) then Byte.x5c :: raw
    else if r =? 0x08 then [Byte.x5c; Byte.x62]
    else if r =? 0x0C then [Byte.x5c; Byte.x66]
    else if r =? 0x0A then [Byte.x5c; Byte.x6e]
    else if r =? 0x0D then [Byte.x5c; Byte.x72]
    else if r =? 0x09 then [Byte.x5c; Byte.x74]
    else if (r <? 0x20) || (r =? 0x3C) || (r =? 0x3E) || (r =? 0x26) then hex4 r
    else raw
  else if (r =? RuneError) && Nat.eqb (length raw) 1 then hex4 RuneError
  else if (r =? 0x2028) || (r =? 0x2029) then hex4 r
  else raw.
Definition quote (s : bytes) : bytes :=
  Byte.x22 :: concat (quote_rune <$> runes s) ++ [Byte.x22].

(** Elements separated by commas. *)
Fixpoint commas (l : list bytes) : bytes :=
  match l with
  | [] => []
  | [x] => x
  | x :: l' => x ++ Byte.x2c :: commas l'
  end.
Fixpoint Marshal (v : json) : bytes :=
  match v with
  | JNull => tag_bytes "null"
  | JBool b => tag_bytes (if b then "true" else "false")
  | JNumber lit => lit
  | JString s => quote s
  | JArray vs => Byte.x5b :: commas (Marshal <$> vs) ++ [Byte.x5d]
  | JObject ms =>
      Byte.x7b :: commas ((fun m => quote m.1 ++ Byte.x3a :: Marshal m.2) <$> ms)
      ++ [Byte.x7d]
  end.

(** encoding/base64.StdEncoding: how json.Marshal renders a []byte. *)
Definition base64_digit (n : N) : byte :=
  byte_of_N (if n <? 26 then n + 65 else if n <? 52 then n + 71
             else if n <? 62 then n - 4 else if n =? 62 then 43 else 47).
Fixpoint base64 (bs : bytes) : bytes :=
  match bs with
  | [] => []
  | [a] =>
      let n := Byte.to_N a * 16 in
      [base64_digit (n / 64); base64_digit (n mod 64); Byte.x3d; Byte.x3d]
  | [a; b] =>
      let n := (Byte.to_N a * 256 + Byte.to_N b) * 4 in
      [base64_digit (n / 4096); base64_digit (n / 64 mod 64); base64_digit (n mod 64);
       Byte.x3d]
  | a :: b :: c :: bs' =>
      let n := (Byte.to_N a * 256 + Byte.to_N b) * 256 + Byte.to_N c in
      base64_digit (n / 262144) :: base64_digit (n / 4096 mod 64)
      :: base64_digit (n / 64 mod 64) :: base64_digit (n mod 64) :: base64 bs'
  end.

Definition jstring (s : string) : json := JString (bytes_of_string s).
Definition jnumber (n : N) : json := JNumber (bytes_of_string (pretty n)).
Definition jbytes (bs : bytes) : json := JString (base64 bs).
Definition jfield (name : string) (v : json) : bytes * json := (tag_bytes name, v).
(** A string field with the omitempty tag. *)
Definition jomitempty (name v : string) : list (bytes * json) :=
  if bool_decide (v = EmptyString) then [] else [jfield name (jstring v)].

Example Marshal_example :
  Marshal (JObject [jfield "a" (JArray [jnumber 12; JNull]);
                    jfield "b" (JString (Byte.x3c :: Byte.x22 :: Byte.xff :: tag_bytes "x"));
                    jfield "c" (jbytes (tag_bytes "light w"))])
  = jtext "{'a':[12,null],'b':'\u003c\'\ufffdx','c':'bGlnaHQgdw=='}".
Proof. by vm_compute. Qed.

End Json.
