(* ===== verification/Types.v ===== *)
(** * Core data types of x/wasm/types

    The protobuf messages of types.pb.go as records, access control
    (types.go, params.go), the validations of validation.go, the block
    position of a transaction and the per-transaction contract set. *)

From S2P Require Import Prelude Errors GoStrings Json.
Export Errors.Errors.
Import GoStrings Json.Json.
Local Open Scope wasm_scope.

(** ** The address library, a parameter of the model *)

(** cosmos-sdk/types: bech32 account addresses. *)
Class Bech32 := {
  AccAddress_String : bytes -> string;
  AccAddressFromBech32 : string -> bytes + error;
  VerifyAddressFormat : bytes -> option error
}.

Class Bech32Laws `{Bech32} : Prop := {
  bech32_roundtrip a :
    VerifyAddressFormat a = None ->
    AccAddressFromBech32 (AccAddress_String a) = inl a;
  bech32_valid s a :
    AccAddressFromBech32 s = inl a -> VerifyAddressFormat a = None;
  bech32_empty : AccAddress_String [] = "";
  bech32_from_empty : exists e, AccAddressFromBech32 "" = inr e;
  verify_length a : VerifyAddressFormat a = None -> 0 < length a <= 255
}.

(** sdk.AccAddress where nil is told apart: [None] is nil. *)
Abbreviation AccAddress := (option bytes).

(** AccAddress.String on a possibly nil address. *)
Definition acc_string `{Bech32} (a : AccAddress) : string :=
  match a with Some b => AccAddress_String b | None => AccAddress_String [] end.

(** AccAddress.Equals: nil and empty are equal, otherwise the bytes. *)
Definition acc_equals (a b : AccAddress) : bool :=
  bool_decide (default [] a = default [] b).

Definition bech32_err `{Bech32} (s : string) : option error :=
  match AccAddressFromBech32 s with inl _ => None | inr e => Some e end.

Lemma bech32_err_None `{Bech32} s :
  bech32_err s = None <-> exists a, AccAddressFromBech32 s = inl a.
Proof. unfold bech32_err. case_match; naive_solver. Qed.

Lemma bech32_String_inj `{Bech32Laws} a b :
  VerifyAddressFormat a = None -> VerifyAddressFormat b = None ->
  AccAddress_String a = AccAddress_String b -> a = b.
Proof.
  intros Ha Hb E. apply bech32_roundtrip in Ha, Hb. congruence.
Qed.

(** ** Access control *)

(** An open protobuf enum: [AccessTypeOther] is any value the code does not
    name. *)
Inductive AccessType :=
| AccessTypeUnspecified
| AccessTypeNobody
| AccessTypeEverybody
| AccessTypeAnyOfAddresses
| AccessTypeOther (v : Z).

#[global] Instance AccessType_eq_dec : EqDecision AccessType.
Proof. solve_decision. Defined.

Record AccessConfig := mkAccessConfig {
  Permission : AccessType;
  Addresses : list string
}.

#[global] Instance AccessConfig_eq_dec : EqDecision AccessConfig.
Proof. solve_decision. Defined.

Definition AllAccessTypes : list AccessType :=
  [AccessTypeNobody; AccessTypeAnyOfAddresses; AccessTypeEverybody].

Definition AllowEverybody := mkAccessConfig AccessTypeEverybody [].
Definition AllowNobody := mkAccessConfig AccessTypeNobody [].

Definition AccessType_String (a : AccessType) : string :=
  match a with
  | AccessTypeNobody => "Nobody"
  | AccessTypeEverybody => "Everybody"
  | AccessTypeAnyOfAddresses => "AnyOfAddresses"
  | _ => "Unspecified"
  end.

(** AccessType.UnmarshalText: the first type with that name. *)
Definition AccessType_UnmarshalText (text : string) : AccessType :=
  match List.find (fun v => bool_decide (AccessType_String v = text))
          AllAccessTypes with
  | Some v => v
  | None => AccessTypeUnspecified
  end.

(** AccessType.IsSubset. *)
Definition AccessType_IsSubset (a superSet : AccessType) : bool :=
  match superSet with
  | AccessTypeEverybody => negb (bool_decide (a = AccessTypeUnspecified))
  | AccessTypeNobody => bool_decide (a = AccessTypeNobody)
  | AccessTypeAnyOfAddresses =>
      bool_decide (a = AccessTypeNobody)
      || bool_decide (a = AccessTypeAnyOfAddresses)
  | _ => false
  end.

(** isSubset: counts the elements of [sub] that [super] has. *)
Definition isSubset (super sub : list string) : bool :=
  match sub with
  | [] => true
  | _ =>
      Nat.eqb
        (foldl (fun matches o => if contains super o then S matches else matches)
           0 sub)
        (length sub)
  end.

(** AccessConfig.IsSubset. *)
Definition IsSubset (a superSet : AccessConfig) : bool :=
  match Permission superSet with
  | AccessTypeAnyOfAddresses =>
      bool_decide (Permission a = AccessTypeNobody)
      || (bool_decide (Permission a = AccessTypeAnyOfAddresses)
          && isSubset (Addresses superSet) (Addresses a))
  | AccessTypeUnspecified => false
  | _ => AccessType_IsSubset (Permission a) (Permission superSet)
  end.

(** AccessConfig.Allowed. *)
Definition Allowed `{Bech32} (a : AccessConfig) (actor : AccAddress)
    : outcome bool :=
  match Permission a with
  | AccessTypeNobody => Ret false
  | AccessTypeEverybody => Ret true
  | AccessTypeAnyOfAddresses =>
      Ret (existsb (fun v => bool_decide (v = acc_string actor)) (Addresses a))
  | _ => Panic (PText "unknown type")
  end.

Definition AllAuthorizedAddresses (a : AccessConfig) : list string :=
  if decide (Permission a = AccessTypeAnyOfAddresses) then Addresses a else [].

(** ** Validation (validation.go, params.go) *)

Definition MaxSaltSize : N := 64.
Definition MaxLabelSize : N := 128.
Definition MaxWasmSize : N := 800 * 1024.
Definition MaxProposalWasmSize : N := 3 * 1024 * 1024.
Definition MaxAddressCount : nat := 50.

Definition validateWasmCode (s : bytes) (maxSize : N) : option error :=
  errIf (blen s =? 0)%N (Wrap ErrEmpty "is required")
  >>? errIf (maxSize <? blen s)%N
        (Wrap ErrLimit "cannot be longer than %d bytes").

Definition ValidateLabel `{UnicodeTables} (label : string) : option error :=
  errIf (bool_decide (label = "")) (Wrap ErrEmpty "is required")
  >>? errIf (MaxLabelSize <? slen label)%N
        (Wrap ErrLimit "cannot be longer than %d characters")
  >>? errIf (negb (bool_decide (label = TrimSpace label)))
        (Wrap ErrInvalid "label must not start/end with whitespaces")
  >>? errIf (negb (bool_decide (label = keep_printable label)))
        (Wrap ErrInvalid "label must have printable characters only").

Definition ValidateSalt (salt : bytes) : option error :=
  errIf (blen salt =? 0)%N (Wrap ErrEmpty "is required")
  >>? errIf (MaxSaltSize <? blen salt)%N
        (Wrap ErrLimit "cannot be longer than %d characters").

(** The loop of validateBech32Addresses over the addresses and the index of
    normalised ones. *)
Fixpoint validate_addresses_loop `{Bech32} (addresses : list string)
    (index : gset string) : option error :=
  match addresses with
  | [] => None
  | addr :: rest =>
      WrapOpt (bech32_err addr) "address: %s"
      >>? (if decide (ToUpper addr ∈ index)
           then Some (Wrap ErrDuplicate "duplicate addresses")
           else validate_addresses_loop rest ({[ToUpper addr]} ∪ index))
  end.

Definition validateBech32Addresses `{Bech32} (addresses : list string)
    : option error :=
  errIf (Nat.eqb (length addresses) 0) (Wrap ErrEmpty "addresses")
  >>? errIf (Nat.ltb MaxAddressCount (length addresses))
        (Wrap ErrInvalidRequest "total number of addresses is greater than %d")
  >>? validate_addresses_loop addresses ∅.

(** AccessConfig.ValidateBasic. *)
Definition AccessConfig_ValidateBasic `{Bech32} (a : AccessConfig)
    : option error :=
  match Permission a with
  | AccessTypeUnspecified => Some (Wrap ErrEmpty "type")
  | AccessTypeNobody | AccessTypeEverybody => None
  | AccessTypeAnyOfAddresses =>
      WrapOpt (validateBech32Addresses (Addresses a)) "addresses"
  | AccessTypeOther _ => Some (Wrap ErrInvalid "unknown type: %q")
  end.

Definition validateAccessType (a : AccessType) : option error :=
  if decide (a = AccessTypeUnspecified) then Some (Wrap ErrEmpty "type")
  else if contains AllAccessTypes a then None
  else Some (Wrap ErrInvalid "unknown type: %q").

(** AccessType.With: the access config that admits the given addresses. *)
Definition With `{Bech32} (a : AccessType) (addrs : list AccAddress)
    : outcome AccessConfig :=
  match a with
  | AccessTypeNobody => Ret AllowNobody
  | AccessTypeEverybody => Ret AllowEverybody
  | AccessTypeAnyOfAddresses =>
      let bech32Addrs := acc_string <$> addrs in
      match validateBech32Addresses bech32Addrs with
      | Some err => Panic (PError (Wrap err "addresses"))
      | None => Ret (mkAccessConfig AccessTypeAnyOfAddresses bech32Addrs)
      end
  | _ => Panic (PText "unsupported access type")
  end.

Record Params := mkParams {
  CodeUploadAccess : AccessConfig;
  InstantiateDefaultPermission : AccessType
}.

Definition DefaultParams : Params :=
  mkParams AllowEverybody AccessTypeEverybody.

Definition Params_ValidateBasic `{Bech32} (p : Params) : option error :=
  WrapOpt (validateAccessType (InstantiateDefaultPermission p))
    "instantiate default permission"
  >>? WrapOpt (AccessConfig_ValidateBasic (CodeUploadAccess p)) "upload access".

(** RawContractMessage.ValidateBasic on a non-nil pointer. *)
Definition RawContractMessage_ValidateBasic (r : bytes)
    : option error :=
  errIf (negb (json_Valid r)) ErrInvalid.

(** ** Stored records (types.pb.go) *)

Record AbsoluteTxPosition := mkAbsoluteTxPosition {
  BlockHeight : N;
  TxIndex : N
}.

#[global] Instance AbsoluteTxPosition_eq_dec : EqDecision AbsoluteTxPosition.
Proof. solve_decision. Defined.

Record CodeInfo := mkCodeInfo {
  CodeHash : bytes;
  CodeCreator : string;
  InstantiateConfig : AccessConfig
}.

#[global] Instance CodeInfo_eq_dec : EqDecision CodeInfo.
Proof. solve_decision. Defined.

(** A packed protobuf Any: type URL and value. *)
Record AnyMsg := mkAny { TypeUrl : string; AnyValue : bytes }.

#[global] Instance AnyMsg_eq_dec : EqDecision AnyMsg.
Proof. solve_decision. Defined.

Record ContractInfo := mkContractInfo {
  CodeID : N;
  Creator : string;
  Admin : string;
  Label : string;
  Created : option AbsoluteTxPosition;
  IBCPortID : string;
  Extension : option AnyMsg
}.

#[global] Instance ContractInfo_eq_dec : EqDecision ContractInfo.
Proof. solve_decision. Defined.

Inductive ContractCodeHistoryOperationType :=
| ContractCodeHistoryOperationTypeUnspecified
| ContractCodeHistoryOperationTypeInit
| ContractCodeHistoryOperationTypeMigrate
| ContractCodeHistoryOperationTypeGenesis
| ContractCodeHistoryOperationTypeOther (v : Z).

#[global] Instance OperationType_eq_dec :
  EqDecision ContractCodeHistoryOperationType.
Proof. solve_decision. Defined.

Record ContractCodeHistoryEntry := mkHistoryEntry {
  Operation : ContractCodeHistoryOperationType;
  HistCodeID : N;
  Updated : option AbsoluteTxPosition;
  HistMsg : bytes
}.

#[global] Instance HistoryEntry_eq_dec : EqDecision ContractCodeHistoryEntry.
Proof. solve_decision. Defined.

Record Model := mkModel { ModelKey : bytes; ModelValue : bytes }.

Definition AllCodeHistoryTypes : list ContractCodeHistoryOperationType :=
  [ContractCodeHistoryOperationTypeGenesis;
   ContractCodeHistoryOperationTypeInit;
   ContractCodeHistoryOperationTypeMigrate].

Definition ContractAddrLen : nat := 32.
Definition SDKAddrLen : nat := 20.

(** VerifyAddressLen. *)
Definition VerifyAddressLen (addr : bytes) : option error :=
  errIf (negb (Nat.eqb (length addr) ContractAddrLen)
         && negb (Nat.eqb (length addr) SDKAddrLen)) ErrInvalidAddress.

(** ** Block positions *)

Definition AbsoluteTxPositionLen : nat := 16.

(** AbsoluteTxPosition.LessThan on possibly nil positions. *)
Definition LessThan (a b : option AbsoluteTxPosition) : bool :=
  match a, b with
  | None, _ => true
  | Some _, None => false
  | Some a, Some b =>
      (BlockHeight a <? BlockHeight b)%N
      || ((BlockHeight a =? BlockHeight b)%N && (TxIndex a <? TxIndex b)%N)
  end.

(** AbsoluteTxPosition.Bytes. *)
Definition Position_Bytes (a : AbsoluteTxPosition) : bytes :=
  Uint64ToBigEndian (BlockHeight a) ++ Uint64ToBigEndian (TxIndex a).

(** A position as the chain produces it: both fields are uint64. *)
Definition wf_position (a : AbsoluteTxPosition) : Prop :=
  is_u64 (BlockHeight a) /\ is_u64 (TxIndex a).

Lemma length_Position_Bytes a : length (Position_Bytes a) = AbsoluteTxPositionLen.
Proof. reflexivity. Qed.

Lemma Position_Bytes_inj a b :
  wf_position a -> wf_position b -> Position_Bytes a = Position_Bytes b -> a = b.
Proof.
  destruct a, b. intros [] [] E. apply app_same_prefix in E as [E1 E2]; [|done].
  apply Uint64ToBigEndian_inj in E1, E2; simpl in *; congruence.
Qed.

(** ** Constructors and methods of CodeInfo and ContractInfo (types.go) *)

Definition NewCodeInfo `{Bech32} (codeHash : bytes) (creator : AccAddress)
    (instantiatePermission : AccessConfig) : CodeInfo :=
  mkCodeInfo codeHash (acc_string creator) instantiatePermission.

(** AccAddress.Empty. *)
Definition acc_empty (a : AccAddress) : bool := bool_decide (default [] a = []).

Definition NewContractInfo `{Bech32} (codeID : N) (creator admin : AccAddress)
    (label : string) (createdAt : AbsoluteTxPosition) : ContractInfo :=
  mkContractInfo codeID (acc_string creator)
    (if acc_empty admin then "" else acc_string admin)
    label (Some createdAt) "" None.

Definition InitialHistory (c : ContractInfo) (initMsg : bytes)
    : ContractCodeHistoryEntry :=
  mkHistoryEntry ContractCodeHistoryOperationTypeInit (CodeID c) (Created c)
    initMsg.

(** Field updates of a ContractInfo. *)
Definition set_CodeID (id : N) (c : ContractInfo) : ContractInfo :=
  mkContractInfo id (Creator c) (Admin c) (Label c) (Created c) (IBCPortID c)
    (Extension c).
Definition set_Admin (a : string) (c : ContractInfo) : ContractInfo :=
  mkContractInfo (CodeID c) (Creator c) a (Label c) (Created c) (IBCPortID c)
    (Extension c).
Definition set_Label (l : string) (c : ContractInfo) : ContractInfo :=
  mkContractInfo (CodeID c) (Creator c) (Admin c) l (Created c) (IBCPortID c)
    (Extension c).
Definition set_IBCPortID (p : string) (c : ContractInfo) : ContractInfo :=
  mkContractInfo (CodeID c) (Creator c) (Admin c) (Label c) (Created c) p
    (Extension c).
Definition set_Extension (e : option AnyMsg) (c : ContractInfo) : ContractInfo :=
  mkContractInfo (CodeID c) (Creator c) (Admin c) (Label c) (Created c)
    (IBCPortID c) e.

(** ContractInfo.AddMigration: the history entry and the info with the new
    code id, at the position of the running transaction. *)
Definition AddMigration (pos : AbsoluteTxPosition) (codeID : N) (msg : bytes)
    (c : ContractInfo) : ContractCodeHistoryEntry * ContractInfo :=
  (mkHistoryEntry ContractCodeHistoryOperationTypeMigrate codeID (Some pos) msg,
   set_CodeID codeID c).

(** ContractInfo.AdminAddr. *)
Definition AdminAddr `{Bech32, ErrorsMod} (c : ContractInfo) : outcome AccAddress :=
  if decide (Admin c = "") then Ret None
  else match AccAddressFromBech32 (Admin c) with
       | inl a => Ret (Some a)
       | inr err => Panic (PText (error_string err))
       end.

Definition Model_ValidateBasic (m : Model) : option error :=
  errIf (Nat.eqb (length (ModelKey m)) 0) (Wrap ErrEmpty "key").

Definition CodeInfo_ValidateBasic `{Bech32} (c : CodeInfo) : option error :=
  errIf (Nat.eqb (length (CodeHash c)) 0) (Wrap ErrEmpty "code hash")
  >>? WrapOpt (bech32_err (CodeCreator c)) "creator"
  >>? WrapOpt (AccessConfig_ValidateBasic (InstantiateConfig c))
        "instantiate config".

(** ContractInfo.ValidateBasic; [ext_validate] is the ValidateBasic method of
    the extension registered by the chain, where it has one. *)
Definition ContractInfo_ValidateBasic `{Bech32, UnicodeTables}
    (ext_validate : AnyMsg -> option error) (c : ContractInfo) : option error :=
  errIf (CodeID c =? 0)%N (Wrap ErrEmpty "code id")
  >>? WrapOpt (bech32_err (Creator c)) "creator"
  >>? (if decide (Admin c = "") then None
       else WrapOpt (bech32_err (Admin c)) "admin")
  >>? WrapOpt (ValidateLabel (Label c)) "label"
  >>? match Extension c with
      | None => None
      | Some e => WrapOpt (ext_validate e) "extension"
      end.

Definition HistoryEntry_ValidateBasic (c : ContractCodeHistoryEntry)
    : option error :=
  errIf (negb (contains AllCodeHistoryTypes (Operation c)))
    (Wrap ErrInvalid "operation")
  >>? errIf (HistCodeID c =? 0)%N (Wrap ErrEmpty "code id")
  >>? errIf (bool_decide (Updated c = None)) (Wrap ErrEmpty "updated")
  >>? WrapOpt (RawContractMessage_ValidateBasic (HistMsg c)) "msg".

(** ** The contracts already executed in a transaction *)

(** TxContracts: the set of hex checksums; a nil map is [None]. *)
Abbreviation TxContracts := (gset string).

Definition NewTxContracts : TxContracts := ∅.
Definition AddContract (checksum : bytes) (tc : TxContracts) : TxContracts :=
  if Nat.eqb (length checksum) 0 then tc else {[hex_encode checksum]} ∪ tc.
Definition TxContracts_Exists (checksum : bytes) (tc : TxContracts) : bool :=
  bool_decide (hex_encode checksum ∈ tc).

(** ** Properties *)

Lemma isSubset_loop (super sub : list string) n :
  foldl (fun m o => if contains super o then S m else m) n sub
  <= n + length sub.
Proof.
  revert n. induction sub as [|o sub IH]; intros n; simpl; [lia|].
  specialize (IH (if contains super o then S n else n)). case_match; lia.
Qed.

Lemma isSubset_loop_full (super sub : list string) n :
  foldl (fun m o => if contains super o then S m else m) n sub
  = n + length sub <-> (forall o, o ∈ sub -> o ∈ super).
Proof.
  revert n. induction sub as [|o sub IH]; intros n; simpl.
  { split; [intros _ o Ho; by inversion Ho|lia]. }
  destruct (contains super o) eqn:C.
  - replace (n + S (length sub)) with (S n + length sub) by lia.
    rewrite IH. apply contains_spec in C. set_solver.
  - split.
    + intros E. pose proof (isSubset_loop super sub n). lia.
    + intros Ho. exfalso. apply not_true_iff_false in C. apply C.
      apply contains_spec, Ho. set_solver.
Qed.

(** The counting loop decides inclusion. *)
Lemma isSubset_spec super sub :
  isSubset super sub = true <-> (forall o, o ∈ sub -> o ∈ super).
Proof.
  unfold isSubset. destruct sub as [|o sub].
  { split; [intros _ o Ho; by inversion Ho|done]. }
  rewrite Nat.eqb_eq.
  change (length (o :: sub)) with (0 + length (o :: sub)).
  apply isSubset_loop_full.
Qed.

Lemma existsb_bool_decide {A} `{EqDecision A} (l : list A) (x : A) :
  existsb (fun v => bool_decide (v = x)) l = true <-> x ∈ l.
Proof. apply (contains_spec l x). Qed.

(** Whoever a config admits is admitted by every config it is a subset
    of, so a creator cannot widen the instantiate permission of the chain by
    choosing a narrower-looking one. *)
Theorem IsSubset_sound `{Bech32} (a superSet : AccessConfig) (x : AccAddress) :
  IsSubset a superSet = true -> Allowed a x = Ret true ->
  Allowed superSet x = Ret true.
Proof.
  unfold IsSubset, Allowed, AccessType_IsSubset. intros Hs Ha.
  destruct (Permission superSet), (Permission a); try done.
  simpl in Hs. injection Ha as Ha. f_equal.
  rewrite existsb_bool_decide in *. by apply (proj1 (isSubset_spec _ _) Hs).
Qed.

(** IsSubset is transitive, and reflexive on every config that validates. *)
Theorem IsSubset_trans a b c :
  IsSubset a b = true -> IsSubset b c = true -> IsSubset a c = true.
Proof.
  unfold IsSubset, AccessType_IsSubset. intros H1 H2.
  destruct (Permission c), (Permission b), (Permission a); try done.
  simpl in *. rewrite isSubset_spec in *. auto.
Qed.

Lemma IsSubset_refl `{Bech32} a :
  AccessConfig_ValidateBasic a = None -> IsSubset a a = true.
Proof.
  unfold AccessConfig_ValidateBasic, IsSubset, AccessType_IsSubset.
  destruct (Permission a); try done. intros _. simpl.
  by apply isSubset_spec.
Qed.

Lemma validate_addresses_loop_None `{Bech32} addrs index :
  validate_addresses_loop addrs index = None <->
  (forall a, a ∈ addrs -> bech32_err a = None)
  /\ NoDup (ToUpper <$> addrs)
  /\ (forall a, a ∈ addrs -> ToUpper a ∉ index).
Proof.
  revert index. induction addrs as [|x addrs IH]; intros index; simpl.
  { split; [intros _|done]. split_and!; [|constructor|]; set_solver. }
  breflect. case_decide as D.
  { split; [naive_solver|]. intros (_ & _ & H2). exfalso.
    eapply H2; [|done]. set_solver. }
  rewrite IH, NoDup_cons. split.
  - intros (Hx & Hv & Hn & Hd). split_and!; [set_solver| |done|].
    + intros (y & Ey & Hy)%list_elem_of_fmap. specialize (Hd y Hy). set_solver.
    + set_solver.
  - intros (Hv & [Hnx Hn] & Hd). split_and!; [|set_solver|done|].
    + apply Hv. set_solver.
    + intros a Ha. apply not_elem_of_union. split; [|set_solver].
      intros E%elem_of_singleton. apply Hnx. rewrite <- E.
      by apply list_elem_of_fmap_2.
Qed.

(** ValidateBech32Addresses accepts a list exactly when it has 1 to 50
    entries, each a valid bech32 address, no two of them the same up to
    letter case. *)
Theorem validateBech32Addresses_spec `{Bech32} (addrs : list string) :
  validateBech32Addresses addrs = None <->
  0 < length addrs <= MaxAddressCount
  /\ (forall a, a ∈ addrs -> exists bz, AccAddressFromBech32 a = inl bz)
  /\ NoDup (ToUpper <$> addrs).
Proof.
  unfold validateBech32Addresses.
  rewrite !first_error_None, !errIf_None, validate_addresses_loop_None.
  rewrite Nat.eqb_neq, Nat.ltb_ge. setoid_rewrite bech32_err_None.
  split.
  - intros (? & ? & ? & ? & ?). split_and!; auto; lia.
  - intros ([] & ? & ?). split_and!; auto; [lia|set_solver].
Qed.

(** The default instantiate config built for a creator validates, and
    under AnyOfAddresses it admits that creator; With panics only on an
    unsupported type or an invalid address. *)
Theorem With_creator `{Bech32} (a : AccessType) (creator : AccAddress) cfg :
  With a [creator] = Ret cfg ->
  AccessConfig_ValidateBasic cfg = None
  /\ Permission cfg = a
  /\ (a <> AccessTypeNobody -> Allowed cfg creator = Ret true).
Proof.
  destruct a; simpl; try done.
  1,2: by intros [= <-].
  destruct (validateBech32Addresses _) eqn:V; [done|intros [= <-]].
  unfold AccessConfig_ValidateBasic, Allowed; simpl. rewrite V.
  split_and!; [done..|]. intros _. by rewrite bool_decide_true.
Qed.

Lemma Position_Bytes_value p :
  wf_position p ->
  be_decode (Position_Bytes p) = (BlockHeight p * two64 + TxIndex p)%N.
Proof.
  intros [H1 H2]. unfold Position_Bytes, Uint64ToBigEndian.
  rewrite be_decode_app, length_be_encode, pow_256_8.
  by rewrite !be_decode_encode by (rewrite pow_256_8; done).
Qed.

(** LessThan is the order of the encoded positions: secondary index keys
    sort by block height, then by index in the block. *)
Theorem LessThan_Bytes a b :
  wf_position a -> wf_position b ->
  LessThan (Some a) (Some b) = true <->
  bytes_le (Position_Bytes a) (Position_Bytes b) /\ a <> b.
Proof.
  intros Wa Wb. destruct Wa as [Ha1 Ha2], Wb as [Hb1 Hb2].
  rewrite bytes_le_decode by (unfold Position_Bytes; by rewrite !length_app, !length_Uint64ToBigEndian).
  rewrite !Position_Bytes_value by (split; done).
  unfold LessThan. destruct a as [ha ta], b as [hb tb]; cbn [BlockHeight TxIndex] in *.
  unfold is_u64 in *. revert Ha1 Ha2 Hb1 Hb2. generalize two64. intros T ????.
  rewrite orb_true_iff, andb_true_iff, !N.ltb_lt, N.eqb_eq. split.
  - intros Hlt. split; [nia|]. intros [= -> ->]. lia.
  - intros [Hle Hne].
    destruct (N.lt_trichotomy ha hb) as [|[->|]]; [auto| |nia].
    right. split; [done|]. assert (ta <> tb) by congruence. lia.
Qed.
