(* ===== verification/Proto.v ===== *)
(** The protobuf encoding of the module's stored records
    (x/wasm/types/types.pb.go, generated code): Marshal, Size and Unmarshal of
    AccessConfig, Params, CodeInfo, AbsoluteTxPosition, ContractInfo,
    ContractCodeHistoryEntry and Model, and the responses of ibc.pb.go. The
    generated methods of all messages have one shape, which is the wire level
    of this file. *)
From S2P Require Import Prelude Errors GoStrings Json Types.
Open Scope wasm_scope.

Module Proto.

(** ** Wire level *)

Definition ErrIntOverflowTypes : error := EText "proto: integer overflow".
Definition ErrInvalidLengthTypes : error :=
  EText "proto: negative length found during unmarshaling".
Definition ErrUnexpectedEndOfGroupTypes : error := EText "proto: unexpected end of group".
Definition ErrUnexpectedEOF : error := EText "unexpected EOF".

(** encodeVarintTypes; ten groups of seven bits hold a uint64. *)
Fixpoint varint_groups (n : nat) (v : N) : bytes :=
  match n with
  | O => []
  | S n' =>
      if (v <? 128)%N then [byte_of_N v]
      else byte_of_N (N.lor (N.land v 127) 128) :: varint_groups n' (N.shiftr v 7)
  end.
Definition varint (v : N) : bytes := varint_groups 10 v.
(** sovTypes: (bits.Len64(x|1) + 6) / 7 *)
Definition sov (x : N) : N := ((N.size (N.lor x 1) + 6) / 7)%N.

(** The loop that reads a varint: the shift runs through 0, 7, ..., 63. *)
Fixpoint get_groups (n : nat) (shift acc : N) (bs : bytes) : (N * bytes) + error :=
  match n with
  | O => inr ErrIntOverflowTypes
  | S n' =>
      match bs with
      | [] => inr ErrUnexpectedEOF
      | b :: bs' =>
          let acc := N.lor acc (wrap64 (N.shiftl (N.land (Byte.to_N b) 127) shift)) in
          if (Byte.to_N b <? 128)%N then inl (acc, bs') else get_groups n' (shift + 7) acc bs'
      end
  end.
Definition get_varint (bs : bytes) : (N * bytes) + error := get_groups 10 0 0 bs.

Definition two63 : N := 9223372036854775808.

(** A length-delimited field: [total] is the length of the whole input, so
    that [total - length bs] is the index. *)
Definition get_delimited (total : N) (bs : bytes) : (bytes * bytes) + error :=
  match get_varint bs with
  | inr e => inr e
  | inl (len, rest) =>
      let postIndex := (total - blen rest + len)%N in
      if (two63 <=? len)%N || (two63 <=? postIndex)%N then inr ErrInvalidLengthTypes
      else if (total <? postIndex)%N then inr ErrUnexpectedEOF
      else inl (take (N.to_nat len) rest, drop (N.to_nat len) rest)
  end.

(** Skipping a varint. *)
Fixpoint skip_groups (n : nat) (bs : bytes) : bytes + error :=
  match n with
  | O => inr ErrIntOverflowTypes
  | S n' =>
      match bs with
      | [] => inr ErrUnexpectedEOF
      | b :: bs' => if (Byte.to_N b <? 128)%N then inl bs' else skip_groups n' bs'
      end
  end.

(** skipTypes: the index after one field, groups included, which may lie
    beyond the input of length [total]. *)
Fixpoint skip_field (fuel depth : nat) (total : N) (bs : bytes) : N + error :=
  match fuel with
  | O => inr ErrUnexpectedEOF
  | S fuel' =>
      match bs with
      | [] => inr ErrUnexpectedEOF
      | _ :: _ =>
          match get_varint bs with
          | inr e => inr e
          | inl (wire, rest) =>
              let advance (depth' : nat) (rest' : bytes) (len : N) : N + error :=
                let iNdEx := (total - blen rest' + len)%N in
                if (two63 <=? iNdEx)%N then inr ErrInvalidLengthTypes
                else match depth' with
                     | O => inl iNdEx
                     | S _ => skip_field fuel' depth' total (drop (N.to_nat len) rest')
                     end in
              let wireType := N.land wire 7 in
              if (wireType =? 0)%N then
                match skip_groups 10 rest with
                | inr e => inr e
                | inl rest' => advance depth rest' 0%N
                end
              else if (wireType =? 1)%N then advance depth rest 8%N
              else if (wireType =? 2)%N then
                match get_varint rest with
                | inr e => inr e
                | inl (len, rest') =>
                    if (two63 <=? len)%N then inr ErrInvalidLengthTypes
                    else advance depth rest' len
                end
              else if (wireType =? 3)%N then advance (S depth) rest 0%N
              else if (wireType =? 4)%N then
                match depth with
                | O => inr ErrUnexpectedEndOfGroupTypes
                | S depth' => advance depth' rest 0%N
                end
              else if (wireType =? 5)%N then advance depth rest 4%N
              else inr (EText "proto: illegal wireType %d")
          end
      end
  end.

(** int32(v): the low 32 bits as a signed number. *)
Definition to_int32 (v : N) : Z :=
  let w := Z.of_N (v mod two32) in
  if (w <? 2147483648)%Z then w else (w - 4294967296)%Z.

(** The loop of every Unmarshal method. [field fieldNum wireType rest m] reads
    a field the message has; [None] is the default case of the switch. *)
Definition FieldReader (A : Type) : Type :=
  Z -> N -> N -> bytes -> A -> option ((A * bytes) + error).
Fixpoint unmarshal_loop {A} (field : FieldReader A) (fuel : nat) (total : N) (bs : bytes)
    (m : A) : A + error :=
  match bs with
  | [] => inl m
  | _ :: _ =>
      match fuel with
      | O => inr ErrUnexpectedEOF
      | S fuel' =>
          match get_varint bs with
          | inr e => inr e
          | inl (wire, rest) =>
              let fieldNum := to_int32 (N.shiftr wire 3) in
              let wireType := N.land wire 7 in
              if (wireType =? 4)%N then inr (EText "proto: wiretype end group for non-group")
              else if (fieldNum <=? 0)%Z then inr (EText "proto: illegal tag %d (wire type %d)")
              else match field fieldNum wireType total rest m with
                   | Some (inl (m', rest')) => unmarshal_loop field fuel' total rest' m'
                   | Some (inr e) => inr e
                   | None =>
                       match skip_field (length bs) 0 (blen bs) bs with
                       | inr e => inr e
                       | inl skippy =>
                           let iNdEx := (total - blen bs + skippy)%N in
                           if (two63 <=? iNdEx)%N then inr ErrInvalidLengthTypes
                           else if (total <? iNdEx)%N then inr ErrUnexpectedEOF
                           else unmarshal_loop field fuel' total (drop (N.to_nat skippy) bs) m
                       end
                   end
          end
      end
  end.
Definition unmarshal_with {A} (field : FieldReader A) (m : A) (dAtA : bytes) : A + error :=
  unmarshal_loop field (length dAtA) (blen dAtA) dAtA m.

(** Reading one field: a varint or a delimited one, checked for its wire
    type. *)
Definition wrong_wire {A} : option ((A * bytes) + error) :=
  Some (inr (EText "proto: wrong wireType = %d for field")).
Definition read_uint {A} (wireType : N) (bs : bytes) (set : N -> A) : option ((A * bytes) + error) :=
  if (wireType =? 0)%N then
    match get_varint bs with
    | inl (v, rest) => Some (inl (set v, rest))
    | inr e => Some (inr e)
    end
  else wrong_wire.
Definition read_delimited {A} (wireType total : N) (bs : bytes) (set : bytes -> A + error)
    : option ((A * bytes) + error) :=
  if (wireType =? 2)%N then
    match get_delimited total bs with
    | inl (v, rest) =>
        match set v with inl m => Some (inl (m, rest)) | inr e => Some (inr e) end
    | inr e => Some (inr e)
    end
  else wrong_wire.

(** Writing a field: nothing for the zero value, except for an embedded
    message. *)
Definition put_uint (tag : byte) (v : N) : bytes :=
  if (v =? 0)%N then [] else tag :: varint v.
Definition put_msg (tag : byte) (bs : bytes) : bytes := tag :: varint (blen bs) ++ bs.
Definition put_bytes (tag : byte) (bs : bytes) : bytes :=
  if (blen bs =? 0)%N then [] else put_msg tag bs.
Definition put_string (tag : byte) (s : string) : bytes := put_bytes tag (bytes_of_string s).

Definition size_uint (v : N) : N := if (v =? 0)%N then 0%N else (1 + sov v)%N.
Definition size_msg (l : N) : N := (1 + l + sov l)%N.
Definition size_bytes (l : N) : N := if (l =? 0)%N then 0%N else size_msg l.

(** ** Round trips at the wire level *)

Lemma varint_groups_ne n v : (0 < n)%nat -> varint_groups n v <> [].
Proof. destruct n; [lia|]. simpl. by case_match. Qed.

Lemma low7_split v : N.lor (N.land v 127) (N.shiftl (N.shiftr v 7) 7) = v.
Proof.
  apply N.bits_inj. intros i. rewrite N.lor_spec, N.land_spec.
  change 127%N with (N.ones 7). destruct (N.ltb_spec i 7).
  - rewrite N.ones_spec_low, N.shiftl_spec_low by done. by rewrite andb_true_r, orb_false_r.
  - rewrite N.ones_spec_high, N.shiftl_spec_high, N.shiftr_spec by lia.
    rewrite andb_false_r. simpl. f_equal. lia.
Qed.

Lemma land127_bound v : (N.land v 127 < 128)%N.
Proof. change 127%N with (N.ones 7). rewrite N.land_ones. by apply N.mod_upper_bound. Qed.

Lemma get_groups_varint n shift acc v rest :
  (v < 2 ^ (7 * N.of_nat n))%N -> (N.shiftl v shift < two64)%N -> (0 < n)%nat ->
  get_groups n shift acc (varint_groups n v ++ rest) = inl (N.lor acc (N.shiftl v shift), rest).
Proof.
  revert shift acc v. induction n as [|n IH]; intros shift acc v Hv Hs Hn; [lia|].
  cbn [varint_groups]. destruct (N.ltb_spec v 128) as [Hlt|Hge].
  - cbn [app get_groups]. rewrite to_N_byte_of_N, N.mod_small by lia.
    rewrite (proj2 (N.ltb_lt _ _) Hlt). change 127%N with (N.ones 7).
    rewrite N.land_ones, N.mod_small by done. by rewrite wrap64_small.
  - cbn [app get_groups]. pose proof (land127_bound v) as H7.
    assert (N.lor (N.land v 127) 128 = N.land v 127 + 128)%N as ->.
    { rewrite <- N.lxor_lor, N.add_nocarry_lxor; [done|..];
        apply N.bits_inj; intros i; rewrite !N.land_spec; change 127%N with (N.ones 7);
        change 128%N with (2 ^ 7)%N; rewrite N.pow2_bits_eqb, N.bits_0;
        destruct (N.eqb_spec 7 i) as [<-|]; rewrite ?andb_false_r; try done;
        by rewrite N.ones_spec_high, andb_false_r by lia. }
    rewrite to_N_byte_of_N, N.mod_small by lia.
    rewrite (proj2 (N.ltb_ge (N.land v 127 + 128) 128)) by lia.
    assert (N.land (N.land v 127 + 128) 127 = N.land v 127) as ->.
    { change 127%N with (N.ones 7). rewrite !N.land_ones. change (2 ^ 7)%N with 128%N.
      rewrite <- N.Div0.add_mod_idemp_r, N.Div0.mod_same, N.add_0_r. by apply N.Div0.mod_mod. }
    assert (N.shiftl (N.land v 127) shift <= N.shiftl v shift)%N as Hle.
    { rewrite !N.shiftl_mul_pow2. apply N.mul_le_mono_r.
      change 127%N with (N.ones 7). rewrite N.land_ones. apply N.Div0.mod_le. }
    rewrite wrap64_small by (unfold is_u64; lia).
    rewrite IH.
    + f_equal. f_equal. rewrite <- N.lor_assoc. f_equal.
      rewrite (N.add_comm shift 7), <- N.shiftl_shiftl, <- N.shiftl_lor. f_equal. apply low7_split.
    + rewrite N.shiftr_div_pow2. apply N.Div0.div_lt_upper_bound.
      rewrite <- N.pow_add_r. replace (7 + 7 * N.of_nat n)%N with (7 * N.of_nat (S n))%N by lia.
      done.
    + eapply N.le_lt_trans; [|exact Hs].
      rewrite !N.shiftl_mul_pow2, N.shiftr_div_pow2, (N.add_comm shift), N.pow_add_r, N.mul_assoc.
      apply N.mul_le_mono_r. rewrite N.mul_comm. apply N.Div0.mul_div_le.
    + destruct n; [|lia]. change (2 ^ (7 * N.of_nat 1))%N with 128%N in Hv. lia.
Qed.

Lemma get_varint_varint v rest : is_u64 v -> get_varint (varint v ++ rest) = inl (v, rest).
Proof.
  intros Hv. unfold get_varint, varint. rewrite get_groups_varint.
  - by rewrite N.shiftl_0_r.
  - unfold is_u64, two64 in Hv. change (2 ^ (7 * N.of_nat 10))%N with 1180591620717411303424%N. lia.
  - by rewrite N.shiftl_0_r.
  - lia.
Qed.

(** ** The length of an encoding is what Size computes *)

Lemma size_odd x : N.size (N.lor x 1) = (N.log2 x + 1)%N.
Proof.
  rewrite N.size_log2.
  - rewrite N.log2_lor. change (N.log2 1) with 0%N. rewrite N.max_0_r. lia.
  - intros E. apply N.lor_eq_0_iff in E as [_ E]. done.
Qed.
Lemma length_varint_groups n v :
  (v < 2 ^ (7 * N.of_nat n))%N -> (0 < n)%nat -> blen (varint_groups n v) = sov v.
Proof.
  unfold blen, sov. rewrite size_odd.
  revert v. induction n as [|n IH]; intros v Hv Hn; [lia|]. cbn [varint_groups].
  destruct (N.ltb_spec v 128) as [Hlt|Hge].
  - assert (N.log2 v < 7)%N.
    { destruct (N.eq_dec v 0) as [->|]; [done|]. apply N.log2_lt_pow2; [lia|done]. }
    simpl. assert (N.log2 v + 1 + 6 = 7 + N.log2 v)%N as -> by lia.
    replace (7 + N.log2 v)%N with (N.log2 v + 1 * 7)%N by lia.
    rewrite N.div_add by done. by rewrite N.div_small by lia.
  - assert (7 <= N.log2 v)%N by (apply N.log2_le_pow2; lia).
    cbn [length]. rewrite Nat2N.inj_succ, IH.
    + rewrite N.log2_shiftr.
      replace (N.log2 v + 1 + 6)%N with ((N.log2 v - 7 + 1 + 6) + 1 * 7)%N by lia.
      rewrite N.div_add by done. lia.
    + rewrite N.shiftr_div_pow2. apply N.Div0.div_lt_upper_bound.
      rewrite <- N.pow_add_r. replace (7 + 7 * N.of_nat n)%N with (7 * N.of_nat (S n))%N by lia.
      done.
    + destruct n; [|lia]. change (2 ^ (7 * N.of_nat 1))%N with 128%N in Hv. lia.
Qed.
Lemma length_varint v : is_u64 v -> blen (varint v) = sov v.
Proof.
  intros Hv. apply length_varint_groups; [|lia].
  unfold is_u64, two64 in Hv. change (2 ^ (7 * N.of_nat 10))%N with 1180591620717411303424%N. lia.
Qed.
Lemma blen_app a b : blen (a ++ b) = (blen a + blen b)%N.
Proof. unfold blen. rewrite length_app. lia. Qed.
Lemma blen_cons x a : blen (x :: a) = (1 + blen a)%N.
Proof. unfold blen. simpl length. lia. Qed.
Lemma length_put_uint tag v : is_u64 v -> blen (put_uint tag v) = size_uint v.
Proof.
  intros Hv. unfold put_uint, size_uint. case_match; [done|].
  by rewrite blen_cons, length_varint.
Qed.
Lemma length_put_msg tag bs : is_u64 (blen bs) -> blen (put_msg tag bs) = size_msg (blen bs).
Proof.
  intros Hv. unfold put_msg, size_msg. rewrite blen_cons, blen_app, length_varint by done. lia.
Qed.
Lemma length_put_bytes tag bs : is_u64 (blen bs) -> blen (put_bytes tag bs) = size_bytes (blen bs).
Proof.
  intros Hv. unfold put_bytes, size_bytes. case_match; [done|]. by apply length_put_msg.
Qed.

(** ** The recursion bounds are enough

    Every round of the loops reads a tag, so the length of the input bounds
    their number. *)

Lemma get_groups_shorter n shift acc bs v rest :
  get_groups n shift acc bs = inl (v, rest) -> (length rest < length bs)%nat.
Proof.
  revert shift acc bs. induction n as [|n IH]; intros shift acc [|b bs]; cbn [get_groups]; [done..|].
  case_match; [intros [= _ <-]; cbn; lia|]. intros Hr%IH. cbn. lia.
Qed.
Lemma get_varint_shorter bs v rest : get_varint bs = inl (v, rest) -> (length rest < length bs)%nat.
Proof. apply get_groups_shorter. Qed.
Lemma skip_groups_shorter n bs rest : skip_groups n bs = inl rest -> (length rest < length bs)%nat.
Proof.
  revert bs. induction n as [|n IH]; intros [|b bs]; cbn [skip_groups]; [done..|].
  case_match; [intros [= <-]; cbn; lia|]. intros Hr%IH. cbn. lia.
Qed.
(** What is left after a varint is no longer than the input. *)
Ltac taken :=
  repeat match goal with
  | H : skip_groups _ _ = inl _ |- _ => apply skip_groups_shorter in H
  | H : get_varint _ = inl _ |- _ => apply get_varint_shorter in H
  end; lia.
Lemma skip_field_enough f1 f2 depth total bs :
  (length bs <= f1)%nat -> (length bs <= f2)%nat ->
  skip_field f1 depth total bs = skip_field f2 depth total bs.
Proof.
  revert f2 depth bs. induction f1 as [|f1 IH]; intros [|f2] depth [|b bs] L1 L2; cbn [length] in *; try done || lia.
  cbn [skip_field]. destruct (get_varint (b :: bs)) as [[wire rest]|] eqn:Hv; [|done].
  apply get_varint_shorter in Hv. cbn [length] in Hv.
  assert (forall n d r, (length r <= length rest)%nat ->
    skip_field f1 d total (drop n r) = skip_field f2 d total (drop n r)) as Hd.
  { intros n d r Hr. apply IH; rewrite length_drop; lia. }
  repeat first [solve [done]|solve [apply Hd; taken]|case_match].
Qed.
(** A skipped field is not empty. *)
Lemma skip_field_positive fuel depth total bs n :
  (blen bs <= total)%N -> skip_field fuel depth total bs = inl n -> (total - blen bs < n)%N.
Proof.
  revert depth bs. induction fuel as [|fuel IH]; intros depth [|b bs] Ht; cbn [skip_field]; [done..|].
  destruct (get_varint (b :: bs)) as [[wire rest]|] eqn:Hv; [|done]. apply get_varint_shorter in Hv.
  assert (forall d r len, (length r <= length rest)%nat ->
    (if (two63 <=? total - blen r + len)%N then inr ErrInvalidLengthTypes
     else match d with O => inl (total - blen r + len)%N | S _ => skip_field fuel d total (drop (N.to_nat len) r) end)
    = inl n -> (total - blen (b :: bs) < n)%N) as Hd.
  { unfold blen in *. intros d r len Hr. case_match; [done|]. destruct d; [intros [= <-]; lia|].
    intros Hn%IH; unfold blen in *; rewrite length_drop in *; lia. }
  repeat first [solve [done]|solve [apply Hd; taken]|solve [apply (Hd (S depth)); taken]|case_match].
Qed.

(** A field that is read is taken off the input. *)
Definition consumes {A} (field : FieldReader A) : Prop :=
  forall num wire total bs m m' rest,
    field num wire total bs m = Some (inl (m', rest)) -> (length rest <= length bs)%nat.
Lemma unmarshal_enough {A} (field : FieldReader A) f1 f2 total bs m :
  consumes field -> (length bs <= f1)%nat -> (length bs <= f2)%nat ->
  unmarshal_loop field f1 total bs m = unmarshal_loop field f2 total bs m.
Proof.
  intros Hc. revert f2 bs m. induction f1 as [|f1 IH]; intros [|f2] [|b bs] m L1 L2; cbn [length] in *; try done || lia.
  cbn [unmarshal_loop]. destruct (get_varint (b :: bs)) as [[wire rest]|] eqn:Hv; [|done].
  apply get_varint_shorter in Hv. cbn [length] in Hv. do 2 (case_match; [done|]).
  destruct (field _ _ _ _ _) as [[[m' rest']|]|] eqn:Hf; [apply Hc in Hf; apply IH; lia|done|].
  destruct (skip_field _ _ _ _) as [n|] eqn:Hs; [|done]. do 2 (case_match; [done|]).
  apply skip_field_positive in Hs; [|done]. apply IH; rewrite length_drop; cbn [length]; lia.
Qed.
Lemma read_uint_consumes {A} wire bs (set : N -> A) m rest :
  read_uint wire bs set = Some (inl (m, rest)) -> (length rest <= length bs)%nat.
Proof.
  unfold read_uint, wrong_wire. case_match; [|done].
  destruct (get_varint bs) as [[]|] eqn:Hv; [|done]. intros [= _ <-]. apply get_varint_shorter in Hv. lia.
Qed.
Lemma read_delimited_consumes {A} wire total bs (set : bytes -> A + error) m rest :
  read_delimited wire total bs set = Some (inl (m, rest)) -> (length rest <= length bs)%nat.
Proof.
  unfold read_delimited, get_delimited, wrong_wire. case_match; [|done].
  destruct (get_varint bs) as [[len r]|] eqn:Hv; [|done]. apply get_varint_shorter in Hv.
  destruct (_ || _); [done|]. destruct (_ <? _)%N; [done|]. destruct (set _); [|done].
  intros [= _ <-]. rewrite length_drop. lia.
Qed.
Ltac consumed :=
  intros num wire total bs m m' rest;
  match goal with |- ?f _ _ _ _ _ = _ -> _ => let g := eval red in f in change f with g end; cbv beta;
  repeat case_match; try done; first [apply read_uint_consumes|apply read_delimited_consumes].

(** ** Reading back what was written *)

(** With enough of the recursion bound left, the loop reads [bs] off the
    front of its input and goes from [m] to [m']. *)
Definition reads {A} (field : FieldReader A) (m : A) (bs : bytes) (m' : A) : Prop :=
  forall fuel total rest,
    (length (bs ++ rest) <= fuel)%nat -> (blen (bs ++ rest) <= total)%N -> (total < two63)%N ->
    exists fuel', (length rest <= fuel')%nat
    /\ unmarshal_loop field fuel total (bs ++ rest) m = unmarshal_loop field fuel' total rest m'.

Lemma reads_nil {A} (field : FieldReader A) m : reads field m [] m.
Proof. intros fuel total rest Hf _ _. by exists fuel. Qed.
Lemma reads_app {A} (field : FieldReader A) m1 m2 m3 a b :
  reads field m1 a m2 -> reads field m2 b m3 -> reads field m1 (a ++ b) m3.
Proof.
  intros Ha Hb fuel total rest Hf Ht Hm. rewrite <- app_assoc in *.
  destruct (Ha fuel total (b ++ rest) Hf Ht Hm) as (f1 & Hf1 & ->).
  apply Hb; [done| |done]. rewrite blen_app in Ht. lia.
Qed.
Lemma reads_all {A} (field : FieldReader A) m bs m' :
  reads field m bs m' -> (blen bs < two63)%N -> unmarshal_with field m bs = inl m'.
Proof.
  intros Hr Hb. unfold unmarshal_with.
  destruct (Hr (length bs) (blen bs) []) as (f & _ & E); rewrite ?app_nil_r in *; try done.
  rewrite E. by destruct f.
Qed.

(** A tag of one byte with its field number and wire type. *)
Definition is_tag (tag : byte) (fieldNum : Z) (wireType : N) : Prop :=
  (Byte.to_N tag < 128)%N /\ to_int32 (N.shiftr (Byte.to_N tag) 3) = fieldNum
  /\ N.land (Byte.to_N tag) 7 = wireType /\ wireType <> 4%N /\ (0 < fieldNum)%Z.

Lemma get_varint_tag tag rest :
  (Byte.to_N tag < 128)%N -> get_varint (tag :: rest) = inl (Byte.to_N tag, rest).
Proof.
  intros Ht. unfold get_varint. cbn [get_groups].
  rewrite (proj2 (N.ltb_lt _ _) Ht). rewrite N.shiftl_0_r. change 127%N with (N.ones 7).
  rewrite N.land_ones, N.mod_small by done.
  rewrite wrap64_small by (unfold is_u64, two64; lia). by rewrite N.lor_0_l.
Qed.

Lemma reads_field {A} (field : FieldReader A) tag fieldNum wireType body m m' :
  is_tag tag fieldNum wireType ->
  (forall total rest, (blen (body ++ rest) < total)%N -> (total < two63)%N ->
     field fieldNum wireType total (body ++ rest) m = Some (inl (m', rest))) ->
  reads field m (tag :: body) m'.
Proof.
  intros (Ht & Hn & Hw & H4 & Hp) Hf fuel total rest Hl Hb Hm.
  destruct fuel as [|fuel]; [simpl in Hl; lia|]. exists fuel. split.
  { simpl in Hl. rewrite length_app in Hl. lia. }
  cbn [app unmarshal_loop]. rewrite get_varint_tag by done. rewrite Hn, Hw.
  rewrite (proj2 (N.eqb_neq _ _) H4), (proj2 (Z.leb_gt _ _) Hp).
  rewrite Hf; [done| |done]. simpl app in Hb. rewrite blen_cons in Hb. lia.
Qed.

Lemma reads_put_uint {A} (field : FieldReader A) tag fieldNum v (set : N -> A) m :
  is_tag tag fieldNum 0%N ->
  (forall total bs, field fieldNum 0%N total bs m = read_uint 0%N bs set) ->
  is_u64 v -> set 0%N = m -> reads field m (put_uint tag v) (set v).
Proof.
  intros Ht Hf Hv H0. unfold put_uint. destruct (N.eqb_spec v 0) as [->|].
  { rewrite H0. apply reads_nil. }
  eapply reads_field; [done|]. intros total rest _ _.
  rewrite Hf. unfold read_uint. simpl. by rewrite get_varint_varint.
Qed.

Lemma get_delimited_put total bs rest :
  (blen (varint (blen bs) ++ bs ++ rest) < total)%N -> (total < two63)%N ->
  get_delimited total (varint (blen bs) ++ bs ++ rest) = inl (bs, rest).
Proof.
  intros Ht Hm. rewrite !blen_app in Ht. unfold get_delimited.
  rewrite get_varint_varint by (unfold is_u64, two63, two64 in *; lia).
  rewrite blen_app.
  rewrite !(proj2 (N.leb_gt _ _)), (proj2 (N.ltb_ge _ _)) by (unfold two63 in *; lia). simpl.
  unfold blen. rewrite Nat2N.id, take_app_length, drop_app_length. done.
Qed.

Lemma reads_put_msg {A} (field : FieldReader A) tag fieldNum bs (set : bytes -> A + error) m m' :
  is_tag tag fieldNum 2%N ->
  (forall total bs, field fieldNum 2%N total bs m = read_delimited 2%N total bs set) ->
  set bs = inl m' -> reads field m (put_msg tag bs) m'.
Proof.
  intros Ht Hf Hs. unfold put_msg. eapply reads_field; [done|]. intros total rest Hb Hm.
  rewrite <- app_assoc in *. rewrite Hf. unfold read_delimited. simpl.
  by rewrite get_delimited_put, Hs.
Qed.
Lemma reads_put_bytes {A} (field : FieldReader A) tag fieldNum bs (set : bytes -> A) m :
  is_tag tag fieldNum 2%N ->
  (forall total bs, field fieldNum 2%N total bs m
     = read_delimited 2%N total bs (fun x => inl (set x))) ->
  set [] = m -> reads field m (put_bytes tag bs) (set bs).
Proof.
  intros Ht Hf H0. unfold put_bytes. destruct (N.eqb_spec (blen bs) 0) as [E|_].
  - destruct bs; [rewrite H0; apply reads_nil|done].
  - by eapply reads_put_msg.
Qed.

(** ** The messages *)

(** int32 enums: written as a sign-extended uint64, read from the low 32
    bits. *)
Definition enum_bits (v : Z) : N := Z.to_N (v mod Z.of_N two64).
Definition is_int32 (v : Z) : Prop := (-2147483648 <= v < 2147483648)%Z.

Definition AccessType_value (a : AccessType) : Z :=
  match a with
  | AccessTypeUnspecified => 0
  | AccessTypeNobody => 1
  | AccessTypeEverybody => 3
  | AccessTypeAnyOfAddresses => 4
  | AccessTypeOther v => v
  end%Z.
Definition AccessType_of (v : Z) : AccessType :=
  if (v =? 0)%Z then AccessTypeUnspecified
  else if (v =? 1)%Z then AccessTypeNobody
  else if (v =? 3)%Z then AccessTypeEverybody
  else if (v =? 4)%Z then AccessTypeAnyOfAddresses
  else AccessTypeOther v.
Definition OperationType_value (o : ContractCodeHistoryOperationType) : Z :=
  match o with
  | ContractCodeHistoryOperationTypeUnspecified => 0
  | ContractCodeHistoryOperationTypeInit => 1
  | ContractCodeHistoryOperationTypeMigrate => 2
  | ContractCodeHistoryOperationTypeGenesis => 3
  | ContractCodeHistoryOperationTypeOther v => v
  end%Z.
Definition OperationType_of (v : Z) : ContractCodeHistoryOperationType :=
  if (v =? 0)%Z then ContractCodeHistoryOperationTypeUnspecified
  else if (v =? 1)%Z then ContractCodeHistoryOperationTypeInit
  else if (v =? 2)%Z then ContractCodeHistoryOperationTypeMigrate
  else if (v =? 3)%Z then ContractCodeHistoryOperationTypeGenesis
  else ContractCodeHistoryOperationTypeOther v.

(** The values of Go's int32 enums, each in one way. *)
Definition wf_access (a : AccessType) : Prop :=
  is_int32 (AccessType_value a) /\ AccessType_of (AccessType_value a) = a.
Definition wf_operation (o : ContractCodeHistoryOperationType) : Prop :=
  is_int32 (OperationType_value o) /\ OperationType_of (OperationType_value o) = o.

Definition AccessConfig_Marshal (m : AccessConfig) : bytes :=
  put_uint Byte.x08 (enum_bits (AccessType_value (Permission m)))
  ++ concat ((fun a => put_msg Byte.x1a (bytes_of_string a)) <$> Addresses m).
Definition AccessConfig_Size (m : AccessConfig) : N :=
  (size_uint (enum_bits (AccessType_value (Permission m)))
   + foldr (fun a n => size_msg (slen a) + n) 0 (Addresses m))%N.
Definition AccessConfig_field : FieldReader AccessConfig := fun num wire total bs m =>
  if (num =? 1)%Z then
    read_uint wire bs (fun v => mkAccessConfig (AccessType_of (to_int32 v)) (Addresses m))
  else if (num =? 3)%Z then
    read_delimited wire total bs (fun v =>
      inl (mkAccessConfig (Permission m) (Addresses m ++ [string_of_bytes v])))
  else None.
Definition AccessConfig_zero : AccessConfig := mkAccessConfig AccessTypeUnspecified [].
Definition AccessConfig_Unmarshal : AccessConfig -> bytes -> AccessConfig + error :=
  unmarshal_with AccessConfig_field.

Definition AbsoluteTxPosition_Marshal (m : AbsoluteTxPosition) : bytes :=
  put_uint Byte.x08 (BlockHeight m) ++ put_uint Byte.x10 (TxIndex m).
Definition AbsoluteTxPosition_Size (m : AbsoluteTxPosition) : N :=
  (size_uint (BlockHeight m) + size_uint (TxIndex m))%N.
Definition AbsoluteTxPosition_field : FieldReader AbsoluteTxPosition := fun num wire total bs m =>
  if (num =? 1)%Z then read_uint wire bs (fun v => mkAbsoluteTxPosition v (TxIndex m))
  else if (num =? 2)%Z then read_uint wire bs (fun v => mkAbsoluteTxPosition (BlockHeight m) v)
  else None.
Definition AbsoluteTxPosition_zero : AbsoluteTxPosition := mkAbsoluteTxPosition 0 0.
Definition AbsoluteTxPosition_Unmarshal : AbsoluteTxPosition -> bytes -> AbsoluteTxPosition + error :=
  unmarshal_with AbsoluteTxPosition_field.

(** Result of an embedded Unmarshal, put back into its message. *)
Definition embed {A B} (r : A + error) (put : A -> B) : B + error :=
  match r with inl a => inl (put a) | inr e => inr e end.

Definition Params_Marshal (m : Params) : bytes :=
  put_msg Byte.x0a (AccessConfig_Marshal (CodeUploadAccess m))
  ++ put_uint Byte.x10 (enum_bits (AccessType_value (InstantiateDefaultPermission m))).
Definition Params_Size (m : Params) : N :=
  (size_msg (AccessConfig_Size (CodeUploadAccess m))
   + size_uint (enum_bits (AccessType_value (InstantiateDefaultPermission m))))%N.
Definition Params_field : FieldReader Params := fun num wire total bs m =>
  if (num =? 1)%Z then
    read_delimited wire total bs (fun v =>
      embed (AccessConfig_Unmarshal (CodeUploadAccess m) v)
        (fun a => mkParams a (InstantiateDefaultPermission m)))
  else if (num =? 2)%Z then
    read_uint wire bs (fun v => mkParams (CodeUploadAccess m) (AccessType_of (to_int32 v)))
  else None.
Definition Params_zero : Params := mkParams AccessConfig_zero AccessTypeUnspecified.
Definition Params_Unmarshal : Params -> bytes -> Params + error := unmarshal_with Params_field.

Definition CodeInfo_Marshal (m : CodeInfo) : bytes :=
  put_bytes Byte.x0a (CodeHash m) ++ put_string Byte.x12 (CodeCreator m)
  ++ put_msg Byte.x2a (AccessConfig_Marshal (InstantiateConfig m)).
Definition CodeInfo_Size (m : CodeInfo) : N :=
  (size_bytes (blen (CodeHash m)) + size_bytes (slen (CodeCreator m))
   + size_msg (AccessConfig_Size (InstantiateConfig m)))%N.
Definition CodeInfo_field : FieldReader CodeInfo := fun num wire total bs m =>
  if (num =? 1)%Z then
    read_delimited wire total bs (fun v =>
      inl (mkCodeInfo v (CodeCreator m) (InstantiateConfig m)))
  else if (num =? 2)%Z then
    read_delimited wire total bs (fun v =>
      inl (mkCodeInfo (CodeHash m) (string_of_bytes v) (InstantiateConfig m)))
  else if (num =? 5)%Z then
    read_delimited wire total bs (fun v =>
      embed (AccessConfig_Unmarshal (InstantiateConfig m) v)
        (fun a => mkCodeInfo (CodeHash m) (CodeCreator m) a))
  else None.
Definition CodeInfo_zero : CodeInfo := mkCodeInfo [] "" AccessConfig_zero.
Definition CodeInfo_Unmarshal : CodeInfo -> bytes -> CodeInfo + error :=
  unmarshal_with CodeInfo_field.

Definition put_position (tag : byte) (p : option AbsoluteTxPosition) : bytes :=
  match p with None => [] | Some p => put_msg tag (AbsoluteTxPosition_Marshal p) end.
Definition size_position (p : option AbsoluteTxPosition) : N :=
  match p with None => 0%N | Some p => size_msg (AbsoluteTxPosition_Size p) end.

Definition ContractCodeHistoryEntry_Marshal (m : ContractCodeHistoryEntry) : bytes :=
  put_uint Byte.x08 (enum_bits (OperationType_value (Operation m)))
  ++ put_uint Byte.x10 (HistCodeID m) ++ put_position Byte.x1a (Updated m)
  ++ put_bytes Byte.x22 (HistMsg m).
Definition ContractCodeHistoryEntry_Size (m : ContractCodeHistoryEntry) : N :=
  (size_uint (enum_bits (OperationType_value (Operation m))) + size_uint (HistCodeID m)
   + size_position (Updated m) + size_bytes (blen (HistMsg m)))%N.
Definition ContractCodeHistoryEntry_field : FieldReader ContractCodeHistoryEntry :=
  fun num wire total bs m =>
  if (num =? 1)%Z then
    read_uint wire bs (fun v =>
      mkHistoryEntry (OperationType_of (to_int32 v)) (HistCodeID m) (Updated m) (HistMsg m))
  else if (num =? 2)%Z then
    read_uint wire bs (fun v => mkHistoryEntry (Operation m) v (Updated m) (HistMsg m))
  else if (num =? 3)%Z then
    read_delimited wire total bs (fun v =>
      embed (AbsoluteTxPosition_Unmarshal (default AbsoluteTxPosition_zero (Updated m)) v)
        (fun p => mkHistoryEntry (Operation m) (HistCodeID m) (Some p) (HistMsg m)))
  else if (num =? 4)%Z then
    read_delimited wire total bs (fun v =>
      inl (mkHistoryEntry (Operation m) (HistCodeID m) (Updated m) v))
  else None.
Definition ContractCodeHistoryEntry_zero : ContractCodeHistoryEntry :=
  mkHistoryEntry ContractCodeHistoryOperationTypeUnspecified 0 None [].
Definition ContractCodeHistoryEntry_Unmarshal
    : ContractCodeHistoryEntry -> bytes -> ContractCodeHistoryEntry + error :=
  unmarshal_with ContractCodeHistoryEntry_field.

Definition Model_Marshal (m : Model) : bytes :=
  put_bytes Byte.x0a (ModelKey m) ++ put_bytes Byte.x12 (ModelValue m).
Definition Model_Size (m : Model) : N :=
  (size_bytes (blen (ModelKey m)) + size_bytes (blen (ModelValue m)))%N.
Definition Model_field : FieldReader Model := fun num wire total bs m =>
  if (num =? 1)%Z then read_delimited wire total bs (fun v => inl (mkModel v (ModelValue m)))
  else if (num =? 2)%Z then read_delimited wire total bs (fun v => inl (mkModel (ModelKey m) v))
  else None.
Definition Model_Unmarshal : Model -> bytes -> Model + error := unmarshal_with Model_field.

(** google.protobuf.Any, whose generated code is the SDK's. *)
Class AnyCodec := {
  Any_Marshal : Types.AnyMsg -> bytes;
  (** Unmarshal into a message *)
  Any_Unmarshal : Types.AnyMsg -> bytes -> Types.AnyMsg + error;
}.
Definition Any_zero : Types.AnyMsg := mkAny "" [].
Class AnyCodecLaws `{AnyCodec} : Prop := {
  Any_roundtrip a :
    (blen (Any_Marshal a) < two63)%N -> Any_Unmarshal Any_zero (Any_Marshal a) = inl a;
}.

Section ContractInfo.
Context `{AnyCodec}.

Definition put_any (tag : byte) (a : option Types.AnyMsg) : bytes :=
  match a with None => [] | Some a => put_msg tag (Any_Marshal a) end.
Definition ContractInfo_Marshal (m : ContractInfo) : bytes :=
  put_uint Byte.x08 (CodeID m) ++ put_string Byte.x12 (Creator m)
  ++ put_string Byte.x1a (Admin m) ++ put_string Byte.x22 (Label m)
  ++ put_position Byte.x2a (Created m) ++ put_string Byte.x32 (IBCPortID m)
  ++ put_any Byte.x3a (Extension m).
Definition ContractInfo_Size (m : ContractInfo) : N :=
  (size_uint (CodeID m) + size_bytes (slen (Creator m)) + size_bytes (slen (Admin m))
   + size_bytes (slen (Label m)) + size_position (Created m) + size_bytes (slen (IBCPortID m))
   + match Extension m with None => 0 | Some a => size_msg (blen (Any_Marshal a)) end)%N.
Definition set_Creator (v : string) (m : ContractInfo) : ContractInfo :=
  mkContractInfo (CodeID m) v (Admin m) (Label m) (Created m) (IBCPortID m) (Extension m).
Definition set_Created (v : option AbsoluteTxPosition) (m : ContractInfo) : ContractInfo :=
  mkContractInfo (CodeID m) (Creator m) (Admin m) (Label m) v (IBCPortID m) (Extension m).
Definition ContractInfo_field : FieldReader ContractInfo := fun num wire total bs m =>
  if (num =? 1)%Z then read_uint wire bs (fun v => set_CodeID v m)
  else if (num =? 2)%Z then
    read_delimited wire total bs (fun v => inl (set_Creator (string_of_bytes v) m))
  else if (num =? 3)%Z then
    read_delimited wire total bs (fun v => inl (set_Admin (string_of_bytes v) m))
  else if (num =? 4)%Z then
    read_delimited wire total bs (fun v => inl (set_Label (string_of_bytes v) m))
  else if (num =? 5)%Z then
    read_delimited wire total bs (fun v =>
      embed (AbsoluteTxPosition_Unmarshal (default AbsoluteTxPosition_zero (Created m)) v)
        (fun p => set_Created (Some p) m))
  else if (num =? 6)%Z then
    read_delimited wire total bs (fun v => inl (set_IBCPortID (string_of_bytes v) m))
  else if (num =? 7)%Z then
    read_delimited wire total bs (fun v =>
      embed (Any_Unmarshal (default Any_zero (Extension m)) v)
        (fun a => set_Extension (Some a) m))
  else None.
Definition ContractInfo_zero : ContractInfo := mkContractInfo 0 "" "" "" None "" None.
Definition ContractInfo_Unmarshal : ContractInfo -> bytes -> ContractInfo + error :=
  unmarshal_with ContractInfo_field.

End ContractInfo.

(** So the bound of [unmarshal_with] is never what ends the loop. *)
Lemma readers_consume `{AnyCodec} :
  consumes AccessConfig_field /\ consumes AbsoluteTxPosition_field /\ consumes Params_field
  /\ consumes CodeInfo_field /\ consumes ContractCodeHistoryEntry_field /\ consumes Model_field
  /\ consumes ContractInfo_field.
Proof. split_and!; consumed. Qed.

(** ** Round trips of the messages *)

Lemma enum_bits_u64 v : is_u64 (enum_bits v).
Proof.
  unfold is_u64, enum_bits.
  pose proof (Z.mod_pos_bound v (Z.of_N two64) ltac:(done)). lia.
Qed.
Lemma to_int32_enum_bits v : is_int32 v -> to_int32 (enum_bits v) = v.
Proof.
  unfold is_int32, to_int32, enum_bits. intros Hv.
  pose proof (Z.mod_pos_bound v (Z.of_N two64) ltac:(done)) as Hb.
  rewrite N2Z.inj_mod, Z2N.id by lia.
  assert (v mod Z.of_N two64 mod Z.of_N two32 = v mod Z.of_N two32)%Z as ->.
  { symmetry. apply Znumtheory.Zmod_div_mod; [done..|]. by exists (Z.of_N two32). }
  change (Z.of_N two32) with 4294967296%Z.
  destruct (Z.ltb_spec (v mod 4294967296) 2147483648) as [Hlt|Hge]; clear Hb;
    pose proof (Z.div_mod v 4294967296 ltac:(done));
    pose proof (Z.mod_pos_bound v 4294967296 ltac:(done)).
  - assert (v / 4294967296 = 0 \/ v / 4294967296 = -1)%Z by lia. lia.
  - assert (v / 4294967296 = 0 \/ v / 4294967296 = -1)%Z by lia. lia.
Qed.
Lemma read_access a : wf_access a -> AccessType_of (to_int32 (enum_bits (AccessType_value a))) = a.
Proof. intros [Hi Hc]. by rewrite to_int32_enum_bits. Qed.
Lemma read_operation o :
  wf_operation o -> OperationType_of (to_int32 (enum_bits (OperationType_value o))) = o.
Proof. intros [Hi Hc]. by rewrite to_int32_enum_bits. Qed.

Lemma blen_put_msg tag bs : (blen bs <= blen (put_msg tag bs))%N.
Proof. unfold put_msg. rewrite blen_cons, blen_app. lia. Qed.
Lemma blen_position tag p :
  (blen (AbsoluteTxPosition_Marshal p) <= blen (put_position tag (Some p)))%N.
Proof. apply blen_put_msg. Qed.

(** The field of a tag, by computation; what a field leaves unset. *)
Ltac field :=
  lazymatch goal with
  | |- is_tag _ _ _ => split_and!; vm_compute; done
  | |- forall _ _, _ = _ => by intros
  | |- _ => assumption || reflexivity
  end.

Lemma reads_put_string {A} (field : FieldReader A) tag fieldNum s (set : string -> A) m :
  is_tag tag fieldNum 2%N ->
  (forall total bs, field fieldNum 2%N total bs m
     = read_delimited 2%N total bs (fun x => inl (set (string_of_bytes x)))) ->
  set EmptyString = m -> reads field m (put_string tag s) (set s).
Proof.
  intros Ht Hf H0. unfold put_string.
  rewrite <- (string_of_bytes_of_string s) at 2.
  by apply (reads_put_bytes field tag fieldNum _ (fun x => set (string_of_bytes x))).
Qed.
Lemma reads_put_access {A} (field : FieldReader A) tag fieldNum a (set : AccessType -> A) m :
  is_tag tag fieldNum 0%N ->
  (forall total bs, field fieldNum 0%N total bs m
     = read_uint 0%N bs (fun v => set (AccessType_of (to_int32 v)))) ->
  wf_access a -> set AccessTypeUnspecified = m ->
  reads field m (put_uint tag (enum_bits (AccessType_value a))) (set a).
Proof.
  intros Ht Hf Ha H0. rewrite <- (read_access a Ha) at 2.
  apply (reads_put_uint field tag fieldNum _ (fun v => set (AccessType_of (to_int32 v))));
    auto using enum_bits_u64.
Qed.
Lemma reads_put_embedded {A B} (field : FieldReader A) tag fieldNum bs
    (dec : bytes -> B + error) (set : B -> A) m b :
  is_tag tag fieldNum 2%N ->
  (forall total bs, field fieldNum 2%N total bs m
     = read_delimited 2%N total bs (fun v => embed (dec v) set)) ->
  dec bs = inl b -> reads field m (put_msg tag bs) (set b).
Proof.
  intros Ht Hf Hd. eapply reads_put_msg; [done|apply Hf|]. simpl. by rewrite Hd.
Qed.

Lemma AccessConfig_reads_addresses p l l' :
  reads AccessConfig_field (mkAccessConfig p l)
    (concat ((fun a => put_msg Byte.x1a (bytes_of_string a)) <$> l'))
    (mkAccessConfig p (l ++ l')).
Proof.
  revert l. induction l' as [|a l' IH]; intros l.
  { rewrite app_nil_r. apply reads_nil. }
  rewrite fmap_cons, concat_cons.
  eapply reads_app; [eapply (reads_put_msg _ _ 3%Z); [field|by intros|]|].
  - simpl. by rewrite string_of_bytes_of_string.
  - replace (l ++ a :: l') with ((l ++ [a]) ++ l') by by rewrite <- app_assoc. apply IH.
Qed.

Lemma AccessConfig_roundtrip m :
  wf_access (Permission m) -> (blen (AccessConfig_Marshal m) < two63)%N ->
  AccessConfig_Unmarshal AccessConfig_zero (AccessConfig_Marshal m) = inl m.
Proof.
  intros Hp Hl. apply reads_all; [|done]. destruct m as [p l]. simpl in Hp.
  eapply reads_app; [|apply (AccessConfig_reads_addresses p [] l)].
  by apply (reads_put_access _ _ 1%Z p (fun a => mkAccessConfig a [])); try field.
Qed.

Lemma AbsoluteTxPosition_roundtrip m :
  wf_position m -> (blen (AbsoluteTxPosition_Marshal m) < two63)%N ->
  AbsoluteTxPosition_Unmarshal AbsoluteTxPosition_zero (AbsoluteTxPosition_Marshal m) = inl m.
Proof.
  intros [Hh Ht] Hl. destruct m as [h t]. simpl in *. apply reads_all; [|done].
  eapply reads_app.
  - by apply (reads_put_uint _ _ 1%Z h (fun v => mkAbsoluteTxPosition v 0)); try field.
  - by apply (reads_put_uint _ _ 2%Z t (fun v => mkAbsoluteTxPosition h v)); try field.
Qed.

Lemma Params_reads m :
  wf_access (Permission (CodeUploadAccess m)) -> wf_access (InstantiateDefaultPermission m) ->
  (blen (Params_Marshal m) < two63)%N -> Params_Unmarshal Params_zero (Params_Marshal m) = inl m.
Proof.
  intros Hc Hd Hl. destruct m as [c d]. simpl in *. apply reads_all; [|done].
  unfold Params_Marshal in Hl. rewrite blen_app in Hl. simpl in Hl.
  pose proof (blen_put_msg Byte.x0a (AccessConfig_Marshal c)).
  eapply reads_app.
  - eapply (reads_put_embedded _ _ 1%Z _ _ (fun a => mkParams a AccessTypeUnspecified));
      [field|by intros|]. apply AccessConfig_roundtrip; [done|simpl; lia].
  - by apply (reads_put_access _ _ 2%Z d (fun a => mkParams c a)); try field.
Qed.

Lemma CodeInfo_reads m :
  wf_access (Permission (InstantiateConfig m)) -> (blen (CodeInfo_Marshal m) < two63)%N ->
  CodeInfo_Unmarshal CodeInfo_zero (CodeInfo_Marshal m) = inl m.
Proof.
  intros Hc Hl. destruct m as [h c a]. simpl in *. apply reads_all; [|done].
  unfold CodeInfo_Marshal in Hl. rewrite !blen_app in Hl. simpl in Hl.
  pose proof (blen_put_msg Byte.x2a (AccessConfig_Marshal a)).
  eapply reads_app; [|eapply reads_app].
  - by apply (reads_put_bytes _ _ 1%Z h (fun v => mkCodeInfo v "" AccessConfig_zero)); try field.
  - by apply (reads_put_string _ _ 2%Z c (fun v => mkCodeInfo h v AccessConfig_zero)); try field.
  - eapply (reads_put_embedded _ _ 5%Z _ _ (fun a => mkCodeInfo h c a)); [field|by intros|].
    apply AccessConfig_roundtrip; [done|simpl; lia].
Qed.

Lemma Model_roundtrip m :
  (blen (Model_Marshal m) < two63)%N -> Model_Unmarshal (mkModel [] []) (Model_Marshal m) = inl m.
Proof.
  intros Hl. destruct m as [k v]. apply reads_all; [|done]. eapply reads_app.
  - by apply (reads_put_bytes _ _ 1%Z k (fun x => mkModel x [])); try field.
  - by apply (reads_put_bytes _ _ 2%Z v (fun x => mkModel k x)); try field.
Qed.

Lemma reads_put_position {A} (field : FieldReader A) tag fieldNum p
    (set : option AbsoluteTxPosition -> A) m :
  is_tag tag fieldNum 2%N ->
  (forall total bs, field fieldNum 2%N total bs m = read_delimited 2%N total bs (fun v =>
     embed (AbsoluteTxPosition_Unmarshal AbsoluteTxPosition_zero v) (fun x => set (Some x)))) ->
  (forall x, p = Some x -> wf_position x) -> (blen (put_position tag p) < two63)%N ->
  set None = m -> reads field m (put_position tag p) (set p).
Proof.
  intros Ht Hf Hp Hl H0. destruct p as [p|]; simpl in *; [|subst; apply reads_nil].
  eapply (reads_put_embedded _ _ _ _ _ (fun x => set (Some x))); [done|apply Hf|].
  pose proof (blen_put_msg tag (AbsoluteTxPosition_Marshal p)).
  apply AbsoluteTxPosition_roundtrip; [auto|lia].
Qed.

Definition wf_history (m : ContractCodeHistoryEntry) : Prop :=
  wf_operation (Operation m) /\ is_u64 (HistCodeID m)
  /\ (forall p, Updated m = Some p -> wf_position p).

Lemma History_reads m :
  wf_history m -> (blen (ContractCodeHistoryEntry_Marshal m) < two63)%N ->
  ContractCodeHistoryEntry_Unmarshal ContractCodeHistoryEntry_zero
    (ContractCodeHistoryEntry_Marshal m) = inl m.
Proof.
  intros (Ho & Hc & Hu) Hl. destruct m as [o c u b]. simpl in *. apply reads_all; [|done].
  unfold ContractCodeHistoryEntry_Marshal in Hl. rewrite !blen_app in Hl. simpl in Hl.
  eapply reads_app; [|eapply reads_app; [|eapply reads_app]].
  - pose proof (reads_put_uint ContractCodeHistoryEntry_field Byte.x08 1%Z
      (enum_bits (OperationType_value o))
      (fun v => mkHistoryEntry (OperationType_of (to_int32 v)) 0 None [])
      ContractCodeHistoryEntry_zero) as Hr.
    cbv beta in Hr. rewrite (read_operation o Ho) in Hr.
    apply Hr; [field|by intros|apply enum_bits_u64|done].
  - by apply (reads_put_uint _ _ 2%Z c (fun v => mkHistoryEntry o v None [])); try field.
  - apply (reads_put_position _ _ 3%Z u (fun v => mkHistoryEntry o c v [])); try field.
    simpl. lia.
  - by apply (reads_put_bytes _ _ 4%Z b (fun v => mkHistoryEntry o c u v)); try field.
Qed.

Section ContractInfoRoundtrip.
Context `{AnyCodecLaws}.

Lemma reads_put_any {A} (field : FieldReader A) tag fieldNum a (set : option Types.AnyMsg -> A) m :
  is_tag tag fieldNum 2%N ->
  (forall total bs, field fieldNum 2%N total bs m = read_delimited 2%N total bs (fun v =>
     embed (Any_Unmarshal Any_zero v) (fun x => set (Some x)))) ->
  (blen (put_any tag a) < two63)%N -> set None = m -> reads field m (put_any tag a) (set a).
Proof.
  intros Ht Hf Hl H0'. destruct a as [a|]; simpl in *; [|subst; apply reads_nil].
  eapply (reads_put_embedded _ _ _ _ _ (fun x => set (Some x))); [done|apply Hf|].
  pose proof (blen_put_msg tag (Any_Marshal a)). apply Any_roundtrip. lia.
Qed.

Lemma ContractInfo_reads m :
  is_u64 (CodeID m) -> (forall p, Created m = Some p -> wf_position p) ->
  (blen (ContractInfo_Marshal m) < two63)%N ->
  ContractInfo_Unmarshal ContractInfo_zero (ContractInfo_Marshal m) = inl m.
Proof.
  intros Hc Hp Hl. destruct m as [i c a l p b e]. simpl in *. apply reads_all; [|done].
  unfold ContractInfo_Marshal in Hl. rewrite !blen_app in Hl. simpl in Hl.
  repeat eapply reads_app.
  - by apply (reads_put_uint _ _ 1%Z i (fun v => mkContractInfo v "" "" "" None "" None)); try field.
  - by apply (reads_put_string _ _ 2%Z c (fun v => mkContractInfo i v "" "" None "" None)); try field.
  - by apply (reads_put_string _ _ 3%Z a (fun v => mkContractInfo i c v "" None "" None)); try field.
  - by apply (reads_put_string _ _ 4%Z l (fun v => mkContractInfo i c a v None "" None)); try field.
  - apply (reads_put_position _ _ 5%Z p (fun v => mkContractInfo i c a l v "" None)); try field.
    simpl. lia.
  - by apply (reads_put_string _ _ 6%Z b (fun v => mkContractInfo i c a l p v None)); try field.
  - apply (reads_put_any _ _ 7%Z e (fun v => mkContractInfo i c a l p b v)); try field.
    simpl. lia.
Qed.
End ContractInfoRoundtrip.

(** ** Sizes *)

Lemma blen_put_bytes tag bs : (blen bs <= blen (put_bytes tag bs))%N.
Proof.
  unfold put_bytes. case_match; [|apply blen_put_msg].
  by apply N.eqb_eq in H as ->.
Qed.

(** A buffer shorter than 2^64: so is each of its parts. *)
Ltac sizes :=
  unfold put_string in *; rewrite ?blen_app in *;
  repeat match goal with
  | H : context [blen (put_msg ?t ?b)] |- _ =>
      lazymatch goal with
      | _ : (blen b <= blen (put_msg t b))%N |- _ => fail
      | _ => pose proof (blen_put_msg t b)
      end
  | H : context [blen (put_bytes ?t ?b)] |- _ =>
      lazymatch goal with
      | _ : (blen b <= blen (put_bytes t b))%N |- _ => fail
      | _ => pose proof (blen_put_bytes t b)
      end
  end;
  rewrite ?length_put_uint, ?length_put_msg, ?length_put_bytes, ?blen_bytes_of_string
    by (auto using enum_bits_u64; unfold is_u64, two64 in *; lia).
Lemma AccessConfig_Size_spec m :
  is_u64 (blen (AccessConfig_Marshal m)) -> AccessConfig_Size m = blen (AccessConfig_Marshal m).
Proof.
  unfold AccessConfig_Marshal, AccessConfig_Size. rewrite blen_app. intros Hl.
  rewrite length_put_uint by apply enum_bits_u64. f_equal.
  assert (is_u64 (blen (concat ((fun a => put_msg Byte.x1a (bytes_of_string a)) <$> Addresses m))))
    as Ha by (unfold is_u64 in *; lia). clear Hl.
  induction (Addresses m) as [|a l IH]; [done|]. rewrite fmap_cons, concat_cons in *.
  cbn [foldr]. rewrite blen_app in *.
  rewrite IH by (unfold is_u64 in *; lia). sizes. done.
Qed.
Lemma AbsoluteTxPosition_Size_spec m :
  wf_position m -> AbsoluteTxPosition_Size m = blen (AbsoluteTxPosition_Marshal m).
Proof.
  intros [Hh Ht]. unfold AbsoluteTxPosition_Marshal. by rewrite blen_app, !length_put_uint.
Qed.
Lemma size_position_spec tag p :
  (forall x, p = Some x -> wf_position x) -> is_u64 (blen (put_position tag p)) ->
  size_position p = blen (put_position tag p).
Proof.
  intros Hp Hl. destruct p as [p|]; [|done]. simpl in *.
  rewrite AbsoluteTxPosition_Size_spec by auto. sizes. done.
Qed.

(** Size is the exact length Marshal allocates for the parameters and the
    code info, so that the backwards writes of MarshalToSizedBuffer never
    leave the buffer. *)
Theorem Params_CodeInfo_Size :
  (forall m, is_u64 (blen (Params_Marshal m)) -> Params_Size m = blen (Params_Marshal m))
  /\ (forall m, is_u64 (blen (CodeInfo_Marshal m)) -> CodeInfo_Size m = blen (CodeInfo_Marshal m)).
Proof.
  split; intros m Hl.
  - unfold Params_Size, Params_Marshal in *. sizes.
    rewrite AccessConfig_Size_spec; [done|unfold is_u64 in *; lia].
  - unfold CodeInfo_Size, CodeInfo_Marshal in *. sizes.
    rewrite AccessConfig_Size_spec by (unfold is_u64 in *; lia). lia.
Qed.
Lemma ContractCodeHistoryEntry_Size_spec m :
  wf_history m -> is_u64 (blen (ContractCodeHistoryEntry_Marshal m)) ->
  ContractCodeHistoryEntry_Size m = blen (ContractCodeHistoryEntry_Marshal m).
Proof.
  intros (_ & Hc & Hu) Hl.
  unfold ContractCodeHistoryEntry_Size, ContractCodeHistoryEntry_Marshal in *. sizes.
  rewrite (size_position_spec Byte.x1a) by (auto; unfold is_u64 in *; lia). lia.
Qed.
Lemma ContractInfo_Size_spec `{AnyCodec} m :
  is_u64 (CodeID m) -> (forall p, Created m = Some p -> wf_position p) ->
  is_u64 (blen (ContractInfo_Marshal m)) -> ContractInfo_Size m = blen (ContractInfo_Marshal m).
Proof.
  intros Hc Hp Hl. unfold ContractInfo_Size, ContractInfo_Marshal, put_any in *.
  destruct (Extension m); sizes;
    rewrite (size_position_spec Byte.x2a) by (auto; unfold is_u64 in *; lia);
    change (blen []) with 0%N; lia.
Qed.

(** C35: round trip of the stored records. What the generated Marshal writes for
    parameters, a code info, a history entry and a contract info, the
    generated Unmarshal reads back unchanged, field by field, when the enums
    and numbers are those of Go's types and the buffer is one Go can
    allocate. *)
Theorem records_roundtrip `{AnyCodecLaws} :
  (forall m : Params, wf_access (Permission (CodeUploadAccess m)) ->
     wf_access (InstantiateDefaultPermission m) -> (blen (Params_Marshal m) < two63)%N ->
     Params_Unmarshal Params_zero (Params_Marshal m) = inl m)
  /\ (forall m : CodeInfo, wf_access (Permission (InstantiateConfig m)) ->
     (blen (CodeInfo_Marshal m) < two63)%N ->
     CodeInfo_Unmarshal CodeInfo_zero (CodeInfo_Marshal m) = inl m)
  /\ (forall m : ContractCodeHistoryEntry, wf_history m ->
     (blen (ContractCodeHistoryEntry_Marshal m) < two63)%N ->
     ContractCodeHistoryEntry_Unmarshal ContractCodeHistoryEntry_zero
       (ContractCodeHistoryEntry_Marshal m) = inl m)
  /\ (forall m : ContractInfo, is_u64 (CodeID m) ->
     (forall p, Created m = Some p -> wf_position p) ->
     (blen (ContractInfo_Marshal m) < two63)%N ->
     ContractInfo_Unmarshal ContractInfo_zero (ContractInfo_Marshal m) = inl m).
Proof.
  split_and!; intros;
    [by apply Params_reads|by apply CodeInfo_reads|by apply History_reads|by apply ContractInfo_reads].
Qed.
End Proto.
