(* ===== verification/Keys.v ===== *)
(** Keys of the wasm store (x/wasm/types/keys.go) and their algebra: the
    constructors, the classification of every key the keeper writes, and the
    proof that no two different entries share a key. *)
From S2P Require Import Prelude Errors GoStrings Types.
Open Scope wasm_scope.

(** cosmos-sdk/types/address, a third-party package: MustLengthPrefix puts
    the length of the address, as one byte, in front of it and panics when
    the length does not fit a byte; Module derives a module's sub-account
    address from the module name and a derivation key. *)
Class AddressPkg := {
  MustLengthPrefix : bytes -> outcome bytes;
  address_Module : string -> bytes -> bytes;
}.
Class AddressPkgLaws `{AddressPkg} : Prop := {
  MustLengthPrefix_spec bz :
    0 < length bz <= 255 ->
    MustLengthPrefix bz = Ret (byte_of_N (blen bz) :: bz);
  (** sub-account addresses are 32-byte hashes *)
  address_Module_length m k : length (address_Module m k) = 32;
}.

Module Keys.

Definition ModuleName : string := "wasm".

Definition CodeKeyPrefix : bytes := [Byte.x01].
Definition ContractKeyPrefix : bytes := [Byte.x02].
Definition ContractStorePrefix : bytes := [Byte.x03].
Definition SequenceKeyPrefix : bytes := [Byte.x04].
Definition ContractCodeHistoryElementPrefix : bytes := [Byte.x05].
Definition ContractByCodeIDAndCreatedSecondaryIndexPrefix : bytes := [Byte.x06].
Definition PinnedCodeIndexPrefix : bytes := [Byte.x07].
Definition TXCounterPrefix : bytes := [Byte.x08].
Definition ContractsByCreatorPrefix : bytes := [Byte.x09].
Definition ParamsKey : bytes := [Byte.x10].
Definition AsyncAckKeyPrefix : bytes := [Byte.x11].

Definition KeySequenceCodeID : bytes :=
  SequenceKeyPrefix ++ bytes_of_string "lastCodeId".
Definition KeySequenceInstanceID : bytes :=
  SequenceKeyPrefix ++ bytes_of_string "lastContractId".

(** [copy(r[i:i+n], src)] into a fresh zeroed slice of [n] bytes. *)
Definition fit (n : nat) (src : bytes) : bytes :=
  take n (src ++ replicate n Byte.x00).

(** sdk.BigEndianToUint64: 0 for the empty slice, else
    binary.BigEndian.Uint64, which reads eight bytes and panics on fewer. *)
Definition BigEndianToUint64 (bz : bytes) : outcome N :=
  if Nat.eqb (length bz) 0 then Ret 0%N
  else if Nat.ltb (length bz) 8 then Panic (PRuntime "index out of range")
  else Ret (be_decode (take 8 bz)).

(** AbsoluteTxPosition.Bytes with its pointer receiver. *)
Definition Position_Bytes_ptr (a : option AbsoluteTxPosition) : outcome bytes :=
  match a with
  | None => Panic (PText "object must not be nil")
  | Some p => Ret (Position_Bytes p)
  end.

Definition GetCodeKey (codeID : N) : bytes :=
  CodeKeyPrefix ++ Uint64ToBigEndian codeID.
Definition GetContractAddressKey (addr : bytes) : bytes :=
  ContractKeyPrefix ++ addr.
Definition GetContractsByCreatorPrefix `{AddressPkg} (addr : bytes) : outcome bytes :=
  obind (MustLengthPrefix addr) (fun bz => Ret (ContractsByCreatorPrefix ++ bz)).
Definition GetContractStorePrefix (addr : bytes) : bytes :=
  ContractStorePrefix ++ addr.

Definition GetAsyncPacketKey (destChannel : string) (sequence : N) : bytes :=
  let channel := bytes_of_string destChannel in
  (be_encode 4 (wrap32 (blen channel)) ++ channel) ++ be_encode 8 sequence.
Definition GetAsyncAckStorePrefix (portID : string) : bytes :=
  AsyncAckKeyPrefix ++ bytes_of_string portID.

Definition GetContractByCodeIDSecondaryIndexPrefix (codeID : N) : bytes :=
  ContractByCodeIDAndCreatedSecondaryIndexPrefix ++ Uint64ToBigEndian codeID.
Definition GetContractByCreatedSecondaryIndexKey (contractAddr : bytes)
    (c : ContractCodeHistoryEntry) : outcome bytes :=
  obind (Position_Bytes_ptr (Updated c)) (fun position =>
  Ret (GetContractByCodeIDSecondaryIndexPrefix (HistCodeID c)
       ++ fit AbsoluteTxPositionLen position ++ contractAddr)).
Definition GetContractByCreatorSecondaryIndexKey `{AddressPkg}
    (bz position contractAddr : bytes) : outcome bytes :=
  obind (GetContractsByCreatorPrefix bz) (fun prefixBytes =>
  Ret (prefixBytes ++ fit AbsoluteTxPositionLen position ++ contractAddr)).

Definition GetContractCodeHistoryElementPrefix (contractAddr : bytes) : bytes :=
  ContractCodeHistoryElementPrefix ++ contractAddr.
Definition GetContractCodeHistoryElementKey (contractAddr : bytes) (pos : N) : bytes :=
  GetContractCodeHistoryElementPrefix contractAddr ++ Uint64ToBigEndian pos.
Definition GetPinnedCodeIndexPrefix (codeID : N) : bytes :=
  PinnedCodeIndexPrefix ++ Uint64ToBigEndian codeID.
Definition ParsePinnedCodeIndex (s : bytes) : outcome N := BigEndianToUint64 s.

(** ** What a key of the store stands for *)

Inductive Entry :=
| KCode (codeID : N)
| KContract (addr : bytes)
| KStore (addr key : bytes)
| KSequenceCodeID
| KSequenceInstanceID
| KHistory (addr : bytes) (pos : N)
| KByCodeID (codeID : N) (position : AbsoluteTxPosition) (addr : bytes)
| KPinned (codeID : N)
| KTXCounter
| KByCreator (creator : bytes) (position : AbsoluteTxPosition) (addr : bytes)
| KParams
| KAsyncAck (portID destChannel : string) (sequence : N).

#[global] Instance Entry_eq_dec : EqDecision Entry.
Proof. solve_decision. Defined.

Definition entry_key (e : Entry) : bytes :=
  match e with
  | KCode id => GetCodeKey id
  | KContract a => GetContractAddressKey a
  | KStore a k => GetContractStorePrefix a ++ k
  | KSequenceCodeID => KeySequenceCodeID
  | KSequenceInstanceID => KeySequenceInstanceID
  | KHistory a p => GetContractCodeHistoryElementKey a p
  | KByCodeID id p a =>
      GetContractByCodeIDSecondaryIndexPrefix id ++ Position_Bytes p ++ a
  | KPinned id => GetPinnedCodeIndexPrefix id
  | KTXCounter => TXCounterPrefix
  | KByCreator c p a =>
      ContractsByCreatorPrefix ++ (byte_of_N (blen c) :: c) ++ Position_Bytes p ++ a
  | KParams => ParamsKey
  | KAsyncAck p c s => GetAsyncAckStorePrefix p ++ GetAsyncPacketKey c s
  end.

(** Numbers are uint64, contract addresses are 32 bytes long, creators have
    an address the length prefix can hold; IBC port and channel identifiers
    are alphanumeric, so a port has no NUL byte, and short. *)
Definition wf_entry (e : Entry) : Prop :=
  match e with
  | KCode id | KPinned id => is_u64 id
  | KStore a _ => length a = ContractAddrLen
  | KHistory _ p => is_u64 p
  | KByCodeID id p _ => is_u64 id /\ wf_position p
  | KByCreator c p _ => 0 < length c <= 255 /\ wf_position p
  | KAsyncAck p c s =>
      Byte.x00 ∉ bytes_of_string p /\ (slen c < 2 ^ 24)%N /\ is_u64 s
  | _ => True
  end.

(** ** Splitting a key back into its fields *)

Lemma app_inj_len_l (a b c d : bytes) :
  length a = length b -> a ++ c = b ++ d -> a = b /\ c = d.
Proof. intros Hl. by apply app_inj_1. Qed.

Lemma app_inj_len_r (a b c d : bytes) :
  length c = length d -> a ++ c = b ++ d -> a = b /\ c = d.
Proof. intros Hl. by apply app_inj_2. Qed.

Lemma be_tail_inj (a b : bytes) m n :
  is_u64 m -> is_u64 n ->
  a ++ Uint64ToBigEndian m = b ++ Uint64ToBigEndian n -> a = b /\ m = n.
Proof.
  intros Hm Hn E. apply app_inj_len_r in E as [-> E]; [|by autorewrite with wasm_simpl].
  by apply Uint64ToBigEndian_inj in E.
Qed.

Lemma be_head_inj (a b : bytes) m n :
  is_u64 m -> is_u64 n ->
  Uint64ToBigEndian m ++ a = Uint64ToBigEndian n ++ b -> m = n /\ a = b.
Proof.
  intros Hm Hn E. apply app_inj_len_l in E as [E ->]; [|by autorewrite with wasm_simpl].
  by apply Uint64ToBigEndian_inj in E.
Qed.

Lemma position_head_inj (a b : bytes) p q :
  wf_position p -> wf_position q ->
  Position_Bytes p ++ a = Position_Bytes q ++ b -> p = q /\ a = b.
Proof.
  intros Hp Hq E.
  apply app_inj_len_l in E as [E ->]; [|by rewrite !length_Position_Bytes].
  by apply Position_Bytes_inj in E.
Qed.

Lemma length_prefixed_inj (a b c d : bytes) :
  length a <= 255 -> length b <= 255 ->
  (byte_of_N (blen a) :: a) ++ c = (byte_of_N (blen b) :: b) ++ d -> a = b /\ c = d.
Proof.
  intros Ha Hb E. simpl in E. injection E as E1 E2.
  apply app_inj_len_l; [|done]. unfold blen in *.
  apply (f_equal Byte.to_N) in E1. rewrite !to_N_byte_of_N in E1.
  rewrite !N.mod_small in E1 by lia. lia.
Qed.

Lemma nul_split_inj (p q r t : bytes) :
  Byte.x00 ∉ p -> Byte.x00 ∉ q ->
  p ++ Byte.x00 :: r = q ++ Byte.x00 :: t -> p = q /\ r = t.
Proof.
  revert q. induction p as [|x p IH]; intros [|y q] Hp Hq E; simpl in *.
  - by injection E.
  - injection E as <- _. set_solver.
  - injection E as -> _. set_solver.
  - injection E as -> E. rewrite not_elem_of_cons in Hp, Hq.
    destruct (IH q) as [-> ->]; naive_solver.
Qed.

Lemma be_encode_4_small n :
  (n < 2 ^ 24)%N -> be_encode 4 n = Byte.x00 :: be_encode 3 n.
Proof.
  intros Hn. change (be_encode 4 n) with
    (byte_of_N (n / 256 ^ N.of_nat 3) :: be_encode 3 n).
  by rewrite N.div_small.
Qed.

Lemma GetAsyncPacketKey_small c s :
  (slen c < 2 ^ 24)%N ->
  GetAsyncPacketKey c s
  = Byte.x00 :: be_encode 3 (slen c) ++ bytes_of_string c ++ Uint64ToBigEndian s.
Proof.
  intros Hc. unfold GetAsyncPacketKey.
  rewrite blen_bytes_of_string. unfold wrap32. rewrite N.mod_small by (unfold two32; lia).
  by rewrite be_encode_4_small, <- app_assoc.
Qed.

Lemma async_key_inj p1 c1 s1 p2 c2 s2 :
  wf_entry (KAsyncAck p1 c1 s1) -> wf_entry (KAsyncAck p2 c2 s2) ->
  bytes_of_string p1 ++ GetAsyncPacketKey c1 s1
  = bytes_of_string p2 ++ GetAsyncPacketKey c2 s2 ->
  p1 = p2 /\ c1 = c2 /\ s1 = s2.
Proof.
  intros (Hp1 & Hc1 & Hs1) (Hp2 & Hc2 & Hs2) E.
  rewrite !GetAsyncPacketKey_small in E by done.
  apply nul_split_inj in E as [Ep E]; [|done..].
  apply app_inj_len_l in E as [_ E]; [|by rewrite !length_be_encode].
  apply be_tail_inj in E as [Ec ->]; [|done..].
  by apply (inj bytes_of_string) in Ep as ->, Ec as ->.
Qed.

#[local] Ltac open_key E :=
  unfold GetCodeKey, GetContractAddressKey, GetContractStorePrefix,
    GetContractCodeHistoryElementKey, GetContractCodeHistoryElementPrefix,
    GetContractByCodeIDSecondaryIndexPrefix, GetPinnedCodeIndexPrefix,
    GetAsyncAckStorePrefix in E;
  rewrite <- ?(app_assoc (A := byte)) in E; apply app_inv_head in E.

(** The layout of the store is unambiguous: two entries of the store with
    the same key are the same entry, whatever their kinds. *)
Lemma entry_key_inj e1 e2 :
  wf_entry e1 -> wf_entry e2 -> entry_key e1 = entry_key e2 -> e1 = e2.
Proof.
  intros W1 W2 E. destruct e1, e2; try discriminate E; try done;
    simpl in W1, W2; cbn [entry_key] in E; open_key E.
  - apply Uint64ToBigEndian_inj in E; naive_solver.
  - by subst.
  - apply app_inj_len_l in E as [-> ->]; congruence.
  - apply be_tail_inj in E as [-> ->]; done.
  - destruct W1, W2. apply be_head_inj in E as [-> E]; [|done..].
    by apply position_head_inj in E as [-> ->].
  - apply Uint64ToBigEndian_inj in E; naive_solver.
  - destruct W1, W2. apply (length_prefixed_inj _ _ _ _) in E as [-> E]; [|lia..].
    by apply position_head_inj in E as [-> ->].
  - apply async_key_inj in E as (-> & -> & ->); done.
Qed.

(** C34: the layout of the store is unambiguous. Two entries of the store with
    the same key are the same entry, whatever their kinds, and a key below the
    storage prefix of a contract, whose address has 32 bytes, belongs to that
    contract's storage: no record of the module and no other contract's data
    can be read or written through it. *)
Theorem store_layout :
  (forall e1 e2, wf_entry e1 -> wf_entry e2 -> entry_key e1 = entry_key e2 -> e1 = e2)
  /\ (forall e addr r, wf_entry e -> length addr = ContractAddrLen ->
        entry_key e = GetContractStorePrefix addr ++ r -> e = KStore addr r).
Proof.
  split; [exact entry_key_inj|]. intros e addr r We Ha E.
  apply entry_key_inj; [done|done|by rewrite E].
Qed.

(** ** The constructors build the entries' keys *)

Lemma fit_exact n src : length src = n -> fit n src = src.
Proof. intros <-. unfold fit. by rewrite take_app_length. Qed.

Lemma GetContractByCreatedSecondaryIndexKey_entry a c p :
  Updated c = Some p ->
  GetContractByCreatedSecondaryIndexKey a c
  = Ret (entry_key (KByCodeID (HistCodeID c) p a)).
Proof.
  intros U. unfold GetContractByCreatedSecondaryIndexKey. rewrite U.
  cbn [obind Position_Bytes_ptr].
  by rewrite fit_exact by apply length_Position_Bytes.
Qed.

Lemma GetContractByCreatorSecondaryIndexKey_entry `{AddressPkgLaws} c p a :
  0 < length c <= 255 ->
  GetContractByCreatorSecondaryIndexKey c (Position_Bytes p) a
  = Ret (entry_key (KByCreator c p a)).
Proof.
  intros Hc. unfold GetContractByCreatorSecondaryIndexKey, GetContractsByCreatorPrefix.
  rewrite MustLengthPrefix_spec by done. cbn [obind].
  by rewrite fit_exact by apply length_Position_Bytes.
Qed.

Lemma BigEndian_roundtrip n :
  is_u64 n -> BigEndianToUint64 (Uint64ToBigEndian n) = Ret n.
Proof.
  intros. unfold BigEndianToUint64, Uint64ToBigEndian.
  rewrite length_be_encode. simpl Nat.eqb. simpl Nat.ltb. cbv iota. f_equal.
  rewrite take_ge by (rewrite length_be_encode; lia).
  by apply be_decode_encode.
Qed.

(** The code id in a pinned-index key is recovered from the bytes after
    the prefix, as the pin iterator reads them. *)
Lemma ParsePinnedCodeIndex_roundtrip id :
  is_u64 id ->
  exists k, strip_prefix PinnedCodeIndexPrefix (GetPinnedCodeIndexPrefix id) = Some k
            /\ ParsePinnedCodeIndex k = Ret id.
Proof.
  intros. eexists. unfold GetPinnedCodeIndexPrefix. rewrite strip_prefix_app.
  split; [done|]. by apply BigEndian_roundtrip.
Qed.

End Keys.
