(* ===== verification/VMTypes.v ===== *)
(** The message, response and environment types a contract exchanges with the
    chain (wasmvm/types: msg.go, submessages.go, ibc.go, env.go, types.go). *)
From S2P Require Import Prelude Errors.

Module VM.

(** ** types.go, env.go *)

Record Coin := mkCoin { Denom : string; Amount : string }.
#[global] Instance Coin_eq_dec : EqDecision Coin.
Proof. solve_decision. Defined.

Record BlockInfo := mkBlockInfo {
  Block_Height : N; Block_Time : N; Block_ChainID : string }.
Record TransactionInfo := mkTransactionInfo { Tx_Index : N }.
Record Env := mkEnv {
  Env_Block : BlockInfo;
  Env_Transaction : option TransactionInfo;
  Env_Contract : string;            (* ContractInfo.Address *)
}.
Record MessageInfo := mkMessageInfo {
  Info_Sender : string; Info_Funds : list Coin }.
Record MigrateInfo := mkMigrateInfo {
  Migrate_Sender : string; OldMigrateVersion : option N }.
Record GasReport := mkGasReport {
  Gas_Limit : N; Gas_Remaining : N; UsedExternally : N; UsedInternally : N }.
Definition EmptyGasReport (limit : N) : GasReport := mkGasReport limit limit 0 0.
Record AnalysisReport := mkAnalysisReport {
  HasIBCEntryPoints : bool;
  RequiredCapabilities : string;
  Entrypoints : list string;
  ContractMigrateVersion : option N;
}.

(** ** Events *)

Record EventAttribute := mkAttr { Key : string; Value : string }.
#[global] Instance EventAttribute_eq_dec : EqDecision EventAttribute.
Proof. solve_decision. Defined.
Record Event := mkEvent { EType : string; EAttributes : list EventAttribute }.
#[global] Instance Event_eq_dec : EqDecision Event.
Proof. solve_decision. Defined.

(** ** ibc.go *)

Record IBCEndpoint := mkEndpoint { EP_PortID : string; EP_ChannelID : string }.
Record IBCChannel := mkIBCChannel {
  Ch_Endpoint : IBCEndpoint;
  Ch_Counterparty : IBCEndpoint;
  Ch_Order : string;
  Ch_Version : string;
  Ch_ConnectionID : string;
}.
Definition Unordered : string := "ORDER_UNORDERED".
Definition Ordered : string := "ORDER_ORDERED".
Record IBCTimeoutBlock := mkTimeoutBlock { TB_Revision : N; TB_Height : N }.
Definition IBCTimeoutBlock_IsZero (t : IBCTimeoutBlock) : bool :=
  (TB_Revision t =? 0)%N && (TB_Height t =? 0)%N.
Record IBCTimeout := mkTimeout {
  TO_Block : option IBCTimeoutBlock; TO_Timestamp : N }.
Record IBCAcknowledgement := mkAck { Ack_Data : bytes }.
Record IBCPacket := mkIBCPacket {
  Pk_Data : bytes;
  Pk_Src : IBCEndpoint;
  Pk_Dest : IBCEndpoint;
  Pk_Sequence : N;
  Pk_Timeout : IBCTimeout;
}.

(** ** msg.go *)

Inductive voteOption :=
| UnsetVoteOption | Yes | No | Abstain | NoWithVeto.

Record WeightedVoteOption := mkWeighted { WOption : voteOption; Weight : string }.
Record IBCFee := mkIBCFee {
  AckFee : list Coin; ReceiveFee : list Coin; TimeoutFee : list Coin }.

Record SendMsg := mkSend { Send_To : string; Send_Amount : list Coin }.
Record BankMsg := mkBankMsg { Send : option SendMsg; Burn : option (list Coin) }.

Record TransferMsg := mkTransfer {
  Tr_ChannelID : string; Tr_To : string; Tr_Amount : Coin;
  Tr_Timeout : IBCTimeout; Tr_Memo : string }.
Record SendPacketMsg := mkSendPacket {
  SP_ChannelID : string; SP_Data : bytes; SP_Timeout : IBCTimeout }.
Record WriteAcknowledgementMsg := mkWriteAck {
  WA_Ack : IBCAcknowledgement; WA_ChannelID : string; WA_Sequence : N }.
Record PayPacketFeeMsg := mkPayFee {
  PF_ChannelID : string; PF_Fee : IBCFee; PF_PortID : string;
  PF_Relayers : list string }.
Record PayPacketFeeAsyncMsg := mkPayFeeAsync {
  PA_ChannelID : string; PA_Fee : IBCFee; PA_PortID : string;
  PA_Relayers : list string; PA_Sequence : N }.
Record IBCMsg := mkIBCMsg {
  Transfer : option TransferMsg;
  SendPacket : option SendPacketMsg;
  WriteAcknowledgement : option WriteAcknowledgementMsg;
  CloseChannel : option string;
  PayPacketFee : option PayPacketFeeMsg;
  PayPacketFeeAsync : option PayPacketFeeAsyncMsg;
}.

Record GovMsg := mkGovMsg {
  Vote : option (N * voteOption);
  VoteWeighted : option (N * list WeightedVoteOption);
}.

Record StakingMsg := mkStakingMsg {
  Delegate : option (string * Coin);
  Undelegate : option (string * Coin);
  Redelegate : option (string * string * Coin);
}.

Record DistributionMsg := mkDistributionMsg {
  SetWithdrawAddress : option string;
  WithdrawDelegatorReward : option string;
  FundCommunityPool : option (list Coin);
}.

Record AnyMsg := mkAnyMsg { Any_TypeURL : string; Any_Value : bytes }.

Record ExecuteMsg := mkExecuteMsg {
  Exec_ContractAddr : string; Exec_Msg : bytes; Exec_Funds : list Coin }.
Record InstantiateMsg := mkInstantiateMsg {
  Inst_CodeID : N; Inst_Msg : bytes; Inst_Funds : list Coin;
  Inst_Label : string; Inst_Admin : string }.
Record Instantiate2Msg := mkInstantiate2Msg {
  Inst2_CodeID : N; Inst2_Msg : bytes; Inst2_Funds : list Coin;
  Inst2_Label : string; Inst2_Admin : string; Inst2_Salt : bytes }.
Record MigrateMsg := mkMigrateMsg {
  Mig_ContractAddr : string; Mig_NewCodeID : N; Mig_Msg : bytes }.
Record UpdateAdminMsg := mkUpdateAdminMsg {
  UA_ContractAddr : string; UA_Admin : string }.
Record WasmMsg := mkWasmMsg {
  Execute : option ExecuteMsg;
  Instantiate : option InstantiateMsg;
  Instantiate2 : option Instantiate2Msg;
  Migrate : option MigrateMsg;
  UpdateAdmin : option UpdateAdminMsg;
  ClearAdmin : option string;
}.

Record CosmosMsg := mkCosmosMsg {
  Bank : option BankMsg;
  Custom : option bytes;
  Distribution : option DistributionMsg;
  Gov : option GovMsg;
  IBC : option IBCMsg;
  Staking : option StakingMsg;
  Any : option AnyMsg;
  Wasm : option WasmMsg;
}.

(** ** submessages.go *)

Inductive replyOn :=
| UnsetReplyOn | ReplyAlways | ReplySuccess | ReplyError | ReplyNever
| ReplyOther (n : Z).

Record SubMsg := mkSubMsg {
  ID : N;
  Msg : CosmosMsg;
  Payload : bytes;
  GasLimit : option N;
  ReplyOn : replyOn;
}.

Record MsgResponse := mkMsgResponse { MR_TypeURL : string; MR_Value : bytes }.
Record SubMsgResponse := mkSubMsgResponse {
  SM_Events : list Event;
  SM_Data : option bytes;
  SM_MsgResponses : list MsgResponse;
}.
Record SubMsgResult := mkSubMsgResult {
  SR_Ok : option SubMsgResponse; SR_Err : string }.
Record Reply := mkReply {
  Reply_GasUsed : N;
  Reply_ID : N;
  Reply_Result : SubMsgResult;
  Reply_Payload : bytes;
}.

(** ** Responses *)

Record Response := mkResponse {
  Messages : list SubMsg;
  Data : option bytes;
  Attributes : list EventAttribute;
  Events : list Event;
}.
Record ContractResult := mkContractResult {
  CR_Ok : option Response; CR_Err : string }.
Definition ContractResult_SubMessages (r : ContractResult) : list SubMsg :=
  match CR_Ok r with Some res => Messages res | None => [] end.

(** ** queries.go *)

Record PageRequest := mkPageRequest {
  Page_Key : bytes; Page_Limit : N; Page_Reverse : bool }.
Record BankQuery := mkBankQuery {
  Supply : option string;                       (* denom *)
  Balance : option (string * string);           (* address, denom *)
  AllBalances : option string;                  (* address *)
  QDenomMetadata : option string;               (* denom *)
  AllDenomMetadata : option (option PageRequest);
}.
Record IBCQuery := mkIBCQuery {
  QPortID : option unit;
  ListChannels : option string;                 (* port id *)
  QChannel : option (string * string);          (* port id, channel id *)
  FeeEnabledChannel : option (string * string); (* channel id, port id *)
}.
Record StakingQuery := mkStakingQuery {
  AllValidators : option unit;
  QValidator : option string;
  AllDelegations : option string;
  QDelegation : option (string * string);       (* delegator, validator *)
  BondedDenom : option unit;
}.
Record DistributionQuery := mkDistributionQuery {
  DelegatorWithdrawAddress : option string;
  DelegationRewards : option (string * string); (* delegator, validator *)
  DelegationTotalRewards : option string;
  DelegatorValidators : option string;
}.
(** StargateQuery and GrpcQuery: data and path *)
Record PathQuery := mkPathQuery { PQ_Data : bytes; PQ_Path : string }.
Record WasmQuery := mkWasmQuery {
  Smart : option (string * bytes);              (* contract, msg *)
  Raw : option (string * option bytes);         (* contract, key *)
  QContractInfo : option string;
  QCodeInfo : option N;
}.
Record QueryRequest := mkQueryRequest {
  QBank : option BankQuery;
  QCustom : option bytes;
  QIBC : option IBCQuery;
  QStaking : option StakingQuery;
  QDistribution : option DistributionQuery;
  QStargate : option PathQuery;
  QGrpc : option PathQuery;
  QWasm : option WasmQuery;
}.
Record ContractInfoResponse := mkContractInfoResponse {
  CIR_CodeID : N; CIR_Creator : string; CIR_Admin : string; CIR_Pinned : bool;
  CIR_IBCPort : string }.
Record CodeInfoResponse := mkCodeInfoResponse {
  CoIR_CodeID : N; CoIR_Creator : string; CoIR_Checksum : bytes }.

End VM.
