(* ===== verification/Policy.v ===== *)
(** Authorization policies (x/wasm/types/authz_policy.go,
    x/wasm/keeper/authz_policy.go): who may upload code, instantiate, modify
    a contract or a code's access config, and which policy a contract's own
    messages run under. *)
From S2P Require Import Prelude Errors GoStrings Types.
Open Scope wasm_scope.

Module Policy.

Record ChainAccessConfigs := mkChainAccessConfigs {
  Upload : AccessConfig;
  ChainInstantiate : AccessConfig;
}.

(** AuthorizationPolicyAction is a uint64 enumeration starting at 1. *)
Definition AuthZActionInstantiate : N := 1.
Definition AuthZActionMigrateContract : N := 2.

(** The implementations of the AuthorizationPolicy interface. *)
Inductive AuthorizationPolicy :=
| DefaultAuthorizationPolicy
| GovAuthorizationPolicy (propagate : gset N)
| PartialGovAuthorizationPolicy (action : N) (defaultPolicy : AuthorizationPolicy).

Definition NewGovAuthorizationPolicy (actions : list N) : AuthorizationPolicy :=
  GovAuthorizationPolicy (list_to_set actions).

Section Checks.
Context `{Bech32}.

Fixpoint CanCreateCode (p : AuthorizationPolicy) (chainConfigs : ChainAccessConfigs)
    (actor : AccAddress) (contractConfig : AccessConfig) : outcome bool :=
  match p with
  | DefaultAuthorizationPolicy =>
      obind (Allowed (Upload chainConfigs) actor) (fun ok =>
      Ret (ok && IsSubset contractConfig (ChainInstantiate chainConfigs)))
  | GovAuthorizationPolicy _ => Ret true
  | PartialGovAuthorizationPolicy _ d =>
      CanCreateCode d chainConfigs actor contractConfig
  end.

Fixpoint CanInstantiateContract (p : AuthorizationPolicy) (c : AccessConfig)
    (actor : AccAddress) : outcome bool :=
  match p with
  | DefaultAuthorizationPolicy => Allowed c actor
  | GovAuthorizationPolicy _ => Ret true
  | PartialGovAuthorizationPolicy action d =>
      if (action =? AuthZActionInstantiate)%N then Ret true
      else CanInstantiateContract d c actor
  end.

Fixpoint CanModifyContract (p : AuthorizationPolicy) (admin actor : AccAddress)
    : bool :=
  match p with
  | DefaultAuthorizationPolicy =>
      bool_decide (admin <> None) && acc_equals admin actor
  | GovAuthorizationPolicy _ => true
  | PartialGovAuthorizationPolicy action d =>
      if (action =? AuthZActionMigrateContract)%N then true
      else CanModifyContract d admin actor
  end.

Fixpoint CanModifyCodeAccessConfig (p : AuthorizationPolicy)
    (creator actor : AccAddress) (isSubset : bool) : bool :=
  match p with
  | DefaultAuthorizationPolicy =>
      bool_decide (creator <> None) && acc_equals creator actor && isSubset
  | GovAuthorizationPolicy _ => true
  | PartialGovAuthorizationPolicy _ d =>
      CanModifyCodeAccessConfig d creator actor isSubset
  end.

Definition SubMessageAuthorizationPolicy (p : AuthorizationPolicy) (action : N)
    : AuthorizationPolicy :=
  match p with
  | DefaultAuthorizationPolicy => p
  | GovAuthorizationPolicy propagate =>
      if negb (Nat.eqb (size propagate) 0) && bool_decide (action ∈ propagate)
      then PartialGovAuthorizationPolicy action DefaultAuthorizationPolicy
      else DefaultAuthorizationPolicy
  | PartialGovAuthorizationPolicy _ _ => p
  end.

(** The policy a chain of nested messages ends up with: each contract call
    on the way hands its sub-message policy to the next. *)
Definition nested_policy (p : AuthorizationPolicy) (actions : list N)
    : AuthorizationPolicy :=
  foldl SubMessageAuthorizationPolicy p actions.

Lemma sub_default action :
  SubMessageAuthorizationPolicy DefaultAuthorizationPolicy action
  = DefaultAuthorizationPolicy.
Proof. done. Qed.

Lemma nested_fixpoint p actions :
  (forall a, SubMessageAuthorizationPolicy p a = p) -> nested_policy p actions = p.
Proof.
  intros Hp. unfold nested_policy.
  induction actions as [|a l IH]; simpl; [done|]. by rewrite Hp.
Qed.

Lemma sub_idempotent p a b :
  SubMessageAuthorizationPolicy (SubMessageAuthorizationPolicy p a) b
  = SubMessageAuthorizationPolicy p a.
Proof. destruct p; simpl; repeat case_match; done. Qed.

(** Nested messages never gain privilege. Below the entry message every
    policy is the one fixed by the first action: the policy of the entry
    point itself when that is not a gov policy, and otherwise the default
    policy, or the default policy plus the one entry action that the gov
    policy propagates. *)
Theorem nested_policy_fixed p a rest :
  nested_policy p (a :: rest)
  = match p with
    | GovAuthorizationPolicy propagate =>
        if decide (a ∈ propagate)
        then PartialGovAuthorizationPolicy a DefaultAuthorizationPolicy
        else DefaultAuthorizationPolicy
    | _ => p
    end.
Proof.
  unfold nested_policy. simpl.
  rewrite nested_fixpoint by (intros; apply sub_idempotent).
  destruct p as [|propagate|]; simpl; [done| |done].
  destruct (decide (a ∈ propagate)) as [Ha|Ha].
  - rewrite (bool_decide_true _ Ha).
    destruct (Nat.eqb_spec (size propagate) 0) as [E|E]; [|done].
    apply size_empty_iff in E. set_solver.
  - by rewrite (bool_decide_false _ Ha), andb_false_r.
Qed.

(** A contract called by a gov message can do, on behalf of gov, only what
    that message's own action allows: code upload and access config changes
    stay with the default policy, modification of contracts is free only
    below a migration, instantiation only below an instantiation. *)
Theorem gov_nested_checks propagate a rest cfgs actor cfg admin sub :
  let p := nested_policy (GovAuthorizationPolicy propagate) (a :: rest) in
  CanCreateCode p cfgs actor cfg
  = CanCreateCode DefaultAuthorizationPolicy cfgs actor cfg
  /\ CanModifyCodeAccessConfig p admin actor sub
     = CanModifyCodeAccessConfig DefaultAuthorizationPolicy admin actor sub
  /\ (a <> AuthZActionInstantiate ->
      CanInstantiateContract p cfg actor
      = CanInstantiateContract DefaultAuthorizationPolicy cfg actor)
  /\ (a <> AuthZActionMigrateContract ->
      CanModifyContract p admin actor
      = CanModifyContract DefaultAuthorizationPolicy admin actor).
Proof.
  intros p. subst p. unfold nested_policy. cbn [foldl].
  set (q := SubMessageAuthorizationPolicy _ a).
  assert (foldl SubMessageAuthorizationPolicy q rest = q) as ->.
  { apply nested_fixpoint. intros. apply sub_idempotent. }
  subst q. simpl. case_match; simpl; [|done].
  split_and!; [done..| |]; intros Hne.
  - by rewrite (proj2 (N.eqb_neq _ _) Hne).
  - by rewrite (proj2 (N.eqb_neq _ _) Hne).
Qed.

Lemma default_modify_none actor :
  CanModifyContract DefaultAuthorizationPolicy None actor = false.
Proof. done. Qed.

Lemma default_modify_some admin actor :
  CanModifyContract DefaultAuthorizationPolicy (Some admin) (Some actor) = true
  <-> admin = actor.
Proof. unfold CanModifyContract, acc_equals. simpl. by rewrite bool_decide_eq_true. Qed.

End Checks.

End Policy.
