(* ===== verification/GasRegister.v ===== *)
(** Gas costs of contract calls (x/wasm/types/gas_register.go,
    wasmvm/types/fraction.go). Gas amounts are uint64 and every sum and
    product wraps where the Go code's does. *)
From S2P Require Import Prelude Errors GoStrings Types VMTypes.
Import VM.
Open Scope wasm_scope.

Module GasRegister.

(** ** Integer fractions *)

Record UFraction := mkUFraction { Numerator : N; Denominator : N }.
Definition UFraction_Mul (f : UFraction) (m : N) : UFraction :=
  mkUFraction (mul64 (Numerator f) m) (Denominator f).
Definition UFraction_Floor (f : UFraction) : outcome N :=
  if (Denominator f =? 0)%N then Panic (PRuntime "integer divide by zero")
  else Ret (Numerator f / Denominator f)%N.

(** ** Configuration *)

Definition DefaultGasMultiplier : N := 140000.
Definition DefaultInstanceCost : N := 60000.
Definition DefaultInstanceCostDiscount : N := 2000.
Definition DefaultCompileCost : N := 3.
Definition DefaultEventAttributeDataCost : N := 1.
Definition DefaultContractMessageDataCost : N := 0.
Definition DefaultPerAttributeCost : N := 10.
Definition DefaultPerCustomEventCost : N := 20.
Definition DefaultEventAttributeDataFreeTier : N := 100.
Definition DefaultPerByteUncompressCost : UFraction := mkUFraction 15 100.

Record WasmGasRegisterConfig := mkGasConfig {
  InstanceCost : N;
  InstanceCostDiscount : N;
  CompileCost : N;
  UncompressCost : UFraction;
  GasMultiplier : N;
  EventPerAttributeCost : N;
  EventAttributeDataCost : N;
  EventAttributeDataFreeTier : N;
  ContractMessageDataCost : N;
  CustomEventCost : N;
}.

Definition DefaultGasRegisterConfig : WasmGasRegisterConfig := {|
  InstanceCost := DefaultInstanceCost;
  InstanceCostDiscount := DefaultInstanceCostDiscount;
  CompileCost := DefaultCompileCost;
  GasMultiplier := DefaultGasMultiplier;
  EventPerAttributeCost := DefaultPerAttributeCost;
  CustomEventCost := DefaultPerCustomEventCost;
  EventAttributeDataCost := DefaultEventAttributeDataCost;
  EventAttributeDataFreeTier := DefaultEventAttributeDataFreeTier;
  ContractMessageDataCost := DefaultContractMessageDataCost;
  UncompressCost := DefaultPerByteUncompressCost;
|}.

Definition ErrLogic : error := ESdk "sdk" 35 "internal logic error".

(** The register is its configuration; the constructor refuses a zero
    multiplier. *)
Definition NewWasmGasRegister (c : WasmGasRegisterConfig)
    : outcome WasmGasRegisterConfig :=
  if (GasMultiplier c =? 0)%N
  then Panic (PError (Wrap ErrLogic "GasMultiplier can not be 0"))
  else Ret c.

(** ** Costs *)

Section Costs.
Context (g : WasmGasRegisterConfig).

Definition negative_length : panic := PError (Wrap ErrInvalid "negative length").

Definition UncompressCosts (byteLength : Z) : outcome N :=
  if (byteLength <? 0)%Z then Panic negative_length
  else UFraction_Floor (UFraction_Mul (UncompressCost g) (Z.to_N byteLength)).

Definition SetupContractCost (discount : bool) (msgLen : Z) : outcome N :=
  if (msgLen <? 0)%Z then Panic negative_length
  else
    let dataCost := mul64 (Z.to_N msgLen) (ContractMessageDataCost g) in
    Ret (if discount then add64 (InstanceCostDiscount g) dataCost
         else add64 (InstanceCost g) dataCost).

Definition calcWithFreeTier (storedBytes freeTier : N) : N * N :=
  if (storedBytes <=? freeTier)%N then (0%N, sub64 freeTier storedBytes)
  else (sub64 storedBytes freeTier, 0%N).

(** The loop over the attributes: [storedBytes += len(Key) + len(Value)]. *)
Definition stored_bytes (attrs : list EventAttribute) : N :=
  foldl (fun acc l => add64 acc (add64 (slen (Key l)) (slen (Value l)))) 0%N attrs.

(** The total is computed on sdkmath.Int, without wrap-around. *)
Definition eventAttributeCosts (attrs : list EventAttribute) (freeTier : N)
    : outcome (N * N) :=
  if Nat.eqb (length attrs) 0 then Ret (0%N, freeTier)
  else
    let '(storedBytes, freeTier) := calcWithFreeTier (stored_bytes attrs) freeTier in
    let r := (EventAttributeDataCost g * storedBytes
              + EventPerAttributeCost g * wrap64 (N.of_nat (length attrs)))%N in
    if (two64 <=? r)%N then Panic (POutOfGas "overflow") else Ret (r, freeTier).

Fixpoint eventCosts_loop (events : list Event) (gas remainingFreeTier : N)
    : outcome N :=
  match events with
  | [] => Ret gas
  | e :: events' =>
      let gas := add64 gas (CustomEventCost g) in
      let gas := add64 gas (mul64 (slen (EType e)) (EventAttributeDataCost g)) in
      obind (eventAttributeCosts (EAttributes e) remainingFreeTier)
        (fun '(attrCost, remainingFreeTier) =>
           eventCosts_loop events' (add64 gas attrCost) remainingFreeTier)
  end.

Definition EventCosts (attrs : list EventAttribute) (events : list Event)
    : outcome N :=
  obind (eventAttributeCosts attrs (EventAttributeDataFreeTier g))
    (fun '(gas, remainingFreeTier) => eventCosts_loop events gas remainingFreeTier).

Definition ReplyCosts (discount : bool) (reply : Reply) : outcome N :=
  let res := Reply_Result reply in
  obind
    (match SR_Ok res with
     | None => Ret (0%N, Z.of_N (slen (SR_Err res)))
     | Some ok =>
         let msgLen := (Z.of_N (slen (SR_Err res))
                        + Z.of_N (blen (default [] (SM_Data ok))))%Z in
         let typeGas :=
           foldl (fun acc e => add64 acc (mul64 (slen (EType e)) (EventAttributeDataCost g)))
             0%N (SM_Events ok) in
         let attrs := concat (EAttributes <$> SM_Events ok) in
         obind (EventCosts attrs []) (fun c => Ret (add64 typeGas c, msgLen))
     end)
    (fun '(eventGas, msgLen) =>
       obind (SetupContractCost discount msgLen) (fun c => Ret (add64 eventGas c))).

Definition ToWasmVMGas (source : N) : outcome N :=
  let x := mul64 source (GasMultiplier g) in
  if (x <? source)%N then Panic (POutOfGas "overflow") else Ret x.

Definition FromWasmVMGas (source : N) : outcome N :=
  if (GasMultiplier g =? 0)%N then Panic (PRuntime "integer divide by zero")
  else Ret (source / GasMultiplier g)%N.

End Costs.

(** ** Gas conversion *)

(** Below the overflow limit the conversion to wasmvm gas multiplies
    exactly and converting back loses nothing, so gas reported by the VM as
    unused is returned to the caller in full. *)
Theorem ToWasmVMGas_roundtrip g source :
  (0 < GasMultiplier g)%N -> (source * GasMultiplier g < two64)%N ->
  ToWasmVMGas g source = Ret (source * GasMultiplier g)%N
  /\ FromWasmVMGas g (source * GasMultiplier g) = Ret source.
Proof.
  intros Hm Hs. unfold ToWasmVMGas, FromWasmVMGas, mul64.
  rewrite wrap64_small by done.
  destruct (N.ltb_spec (source * GasMultiplier g) source); [nia|].
  destruct (N.eqb_spec (GasMultiplier g) 0); [lia|].
  rewrite N.div_mul by lia. done.
Qed.

Lemma ToWasmVMGas_roundtrip_witness :
  ToWasmVMGas DefaultGasRegisterConfig 1000000 = Ret 140000000000%N
  /\ FromWasmVMGas DefaultGasRegisterConfig 140000000000 = Ret 1000000%N.
Proof.
  apply (ToWasmVMGas_roundtrip DefaultGasRegisterConfig 1000000);
    vm_compute; reflexivity.
Defined.

(** The overflow check of ToWasmVMGas is incomplete. With the default
    multiplier, 2^48 SDK gas overflows the product and yet no panic is
    raised: the VM gets a limit that is not 140000 times the remaining gas. *)
Theorem ToWasmVMGas_overflow_undetected :
  exists source x,
    is_u64 source
    /\ ToWasmVMGas DefaultGasRegisterConfig source = Ret x
    /\ (two64 <= source * GasMultiplier DefaultGasRegisterConfig)%N
    /\ x <> (source * GasMultiplier DefaultGasRegisterConfig)%N.
Proof.
  exists (2 ^ 48)%N, (8928 * 2 ^ 48)%N. by vm_compute.
Qed.

(** Whatever the check misses, the limit handed to the VM never converts
    back to more SDK gas than the caller has left. *)
Theorem ToWasmVMGas_never_more g source x back :
  (0 < GasMultiplier g)%N ->
  ToWasmVMGas g source = Ret x -> FromWasmVMGas g x = Ret back ->
  (back <= source)%N.
Proof.
  intros Hm. unfold ToWasmVMGas, FromWasmVMGas, mul64.
  destruct (N.ltb_spec (wrap64 (source * GasMultiplier g)) source); [done|].
  intros [= <-]. destruct (N.eqb_spec (GasMultiplier g) 0); [done|].
  intros [= <-]. apply N.Div0.div_le_upper_bound. unfold wrap64.
  etrans; [apply N.Div0.mod_le|lia].
Qed.

Lemma ToWasmVMGas_never_more_witness :
  (2 ^ 48 * 8928 / 140000 <= 2 ^ 48)%N.
Proof.
  apply (ToWasmVMGas_never_more DefaultGasRegisterConfig (2 ^ 48)%N (8928 * 2 ^ 48)%N);
    vm_compute; reflexivity.
Defined.

(** ** Event costs against a reference without wrap-around *)

Definition attr_bytes (attrs : list EventAttribute) : N :=
  foldr (fun l acc => slen (Key l) + slen (Value l) + acc)%N 0%N attrs.

Definition type_bytes (events : list Event) : N :=
  foldr (fun e acc => slen (EType e) + acc)%N 0%N events.

Definition all_attrs (events : list Event) : list EventAttribute :=
  concat (EAttributes <$> events).

(** The documented price: every event costs CustomEventCost, every attribute
    EventPerAttributeCost, every byte of an event type, and every byte of
    attribute data beyond one free tier for the whole response,
    EventAttributeDataCost. *)
Definition event_price (g : WasmGasRegisterConfig) (free : N)
    (attrs : list EventAttribute) (events : list Event) : N :=
  (EventAttributeDataCost g * (attr_bytes (attrs ++ all_attrs events) - free)
   + EventPerAttributeCost g * N.of_nat (length (attrs ++ all_attrs events))
   + EventAttributeDataCost g * type_bytes events
   + CustomEventCost g * N.of_nat (length events))%N.

Lemma attr_bytes_app a b : attr_bytes (a ++ b) = (attr_bytes a + attr_bytes b)%N.
Proof. induction a as [|x a IH]; simpl; [done|]. rewrite IH. lia. Qed.

Lemma all_attrs_cons e events :
  all_attrs (e :: events) = EAttributes e ++ all_attrs events.
Proof. done. Qed.

Lemma stored_bytes_exact attrs acc :
  (acc + attr_bytes attrs < two64)%N ->
  foldl (fun acc l => add64 acc (add64 (slen (Key l)) (slen (Value l)))) acc attrs
  = (acc + attr_bytes attrs)%N.
Proof.
  revert acc. induction attrs as [|x l IH]; intros acc Hb; simpl in *; [lia|].
  rewrite (add64_exact (slen _)) by lia. rewrite add64_exact by lia.
  rewrite IH; lia.
Qed.

Lemma calcWithFreeTier_spec b f :
  is_u64 b -> is_u64 f -> calcWithFreeTier b f = ((b - f)%N, (f - b)%N).
Proof.
  intros Hb Hf. unfold calcWithFreeTier, is_u64 in *.
  destruct (N.leb_spec b f); rewrite sub64_exact by (unfold is_u64; lia); f_equal; lia.
Qed.
Lemma eventAttributeCosts_exact g attrs free :
  is_u64 (attr_bytes attrs) -> is_u64 free ->
  is_u64 (EventAttributeDataCost g * (attr_bytes attrs - free)
          + EventPerAttributeCost g * N.of_nat (length attrs)) ->
  is_u64 (N.of_nat (length attrs)) ->
  eventAttributeCosts g attrs free
  = Ret ((EventAttributeDataCost g * (attr_bytes attrs - free)
          + EventPerAttributeCost g * N.of_nat (length attrs))%N,
         (free - attr_bytes attrs)%N).
Proof.
  intros Hb Hf Hr Hl. unfold eventAttributeCosts.
  destruct (Nat.eqb_spec (length attrs) 0) as [E|_].
  { destruct attrs; [|done]. simpl. do 2 f_equal; lia. }
  unfold stored_bytes. rewrite stored_bytes_exact by done.
  rewrite calcWithFreeTier_spec, (wrap64_small (N.of_nat _)) by done.
  destruct (N.leb_spec two64 (EventAttributeDataCost g * (0 + attr_bytes attrs - free)
    + EventPerAttributeCost g * N.of_nat (length attrs))); [|done].
  unfold is_u64 in Hr. rewrite N.add_0_l in *. lia.
Qed.

Lemma eventCosts_loop_exact g events gas free :
  is_u64 (attr_bytes (all_attrs events)) -> is_u64 free ->
  is_u64 (N.of_nat (length (all_attrs events))) ->
  is_u64 (gas + event_price g free [] events) ->
  eventCosts_loop g events gas free = Ret (gas + event_price g free [] events)%N.
Proof.
  revert gas free. induction events as [|e events IH]; intros gas free Hb Hf Hl Hp.
  { unfold event_price; simpl. f_equal. lia. }
  unfold event_price, is_u64 in *. cbn [app] in *.
  rewrite all_attrs_cons, attr_bytes_app, length_app, Nat2N.inj_add in *.
  cbn [eventCosts_loop type_bytes foldr length] in *.
  fold (type_bytes events) in *. rewrite Nat2N.inj_succ in *.
  set (b1 := attr_bytes (EAttributes e)) in *. set (b2 := attr_bytes (all_attrs events)) in *.
  set (n1 := N.of_nat (length (EAttributes e))) in *.
  set (n2 := N.of_nat (length (all_attrs events))) in *.
  assert (b1 + b2 - free = (b1 - free) + (b2 - (free - b1)))%N as Hsplit by lia.
  rewrite Hsplit in *.
  rewrite (add64_exact gas), mul64_exact, add64_exact by nia.
  rewrite eventAttributeCosts_exact by (unfold is_u64; fold b1 n1; nia).
  cbn [obind]. fold b1 n1. rewrite add64_exact by nia.
  rewrite IH by nia. f_equal. nia.
Qed.

(** EventCosts charges the documented price, with the free tier applied
    once to the attribute data of the whole response, whenever that price and
    the sizes fit 64 bits. *)
Theorem EventCosts_exact g attrs events :
  is_u64 (EventAttributeDataFreeTier g) ->
  is_u64 (attr_bytes (attrs ++ all_attrs events)) ->
  is_u64 (N.of_nat (length (attrs ++ all_attrs events))) ->
  is_u64 (event_price g (EventAttributeDataFreeTier g) attrs events) ->
  EventCosts g attrs events
  = Ret (event_price g (EventAttributeDataFreeTier g) attrs events).
Proof.
  intros Hf Hb Hl Hp. unfold EventCosts, event_price, is_u64 in *.
  rewrite attr_bytes_app, length_app, Nat2N.inj_add in *.
  set (f := EventAttributeDataFreeTier g) in *. set (b1 := attr_bytes attrs) in *.
  set (b2 := attr_bytes (all_attrs events)) in *.
  assert (b1 + b2 - f = (b1 - f) + (b2 - (f - b1)))%N as Hsplit by lia.
  rewrite Hsplit in *.
  rewrite eventAttributeCosts_exact by (unfold is_u64; fold b1; nia).
  cbn [obind]. rewrite eventCosts_loop_exact; unfold is_u64, event_price; cbn [app];
    fold b1 b2; try nia. f_equal. nia.
Qed.

Lemma EventCosts_exact_witness :
  EventCosts DefaultGasRegisterConfig [mkAttr "sender" "alice"]
    [mkEvent "transfer" [mkAttr "amount" "12"; mkAttr "to" "bob"]] = Ret 58%N.
Proof.
  apply (EventCosts_exact DefaultGasRegisterConfig [mkAttr "sender" "alice"]
    [mkEvent "transfer" [mkAttr "amount" "12"; mkAttr "to" "bob"]]);
    vm_compute; reflexivity.
Defined.

(** ** Replies *)

(** The data a reply carries: the sizes its price depends on. *)
Definition reply_events (r : Reply) : list Event :=
  match SR_Ok (Reply_Result r) with Some ok => SM_Events ok | None => [] end.
Definition reply_msg_len (r : Reply) : N :=
  slen (SR_Err (Reply_Result r))
  + match SR_Ok (Reply_Result r) with
    | Some ok => blen (default [] (SM_Data ok)) | None => 0 end.

Definition instance_cost (g : WasmGasRegisterConfig) (discount : bool) : N :=
  if discount then InstanceCostDiscount g else InstanceCost g.

Definition reply_price (g : WasmGasRegisterConfig) (discount : bool) (r : Reply) : N :=
  (EventAttributeDataCost g
     * (attr_bytes (all_attrs (reply_events r)) - EventAttributeDataFreeTier g)
   + EventPerAttributeCost g * N.of_nat (length (all_attrs (reply_events r)))
   + EventAttributeDataCost g * type_bytes (reply_events r)
   + (instance_cost g discount + reply_msg_len r * ContractMessageDataCost g))%N.

Lemma type_gas_exact g events acc :
  is_u64 (acc + EventAttributeDataCost g * type_bytes events) ->
  foldl (fun acc e => add64 acc (mul64 (slen (EType e)) (EventAttributeDataCost g)))
    acc events
  = (acc + EventAttributeDataCost g * type_bytes events)%N.
Proof.
  unfold is_u64. revert acc.
  induction events as [|e events IH]; intros acc Hb; simpl in *; [lia|].
  rewrite mul64_exact, add64_exact by nia. rewrite IH; nia.
Qed.

Lemma SetupContractCost_exact g discount (len : N) :
  is_u64 (instance_cost g discount + len * ContractMessageDataCost g) ->
  SetupContractCost g discount (Z.of_N len)
  = Ret (instance_cost g discount + len * ContractMessageDataCost g)%N.
Proof.
  unfold is_u64, SetupContractCost, instance_cost. intros Hb.
  destruct (Z.ltb_spec (Z.of_N len) 0); [lia|]. rewrite N2Z.id.
  rewrite mul64_exact by nia. destruct discount; by rewrite add64_exact.
Qed.

(** A reply is charged the price of its data plus the instance cost; so
    unless the sizes overflow 64 bits a reply is never free. *)
Theorem ReplyCosts_exact g discount r :
  is_u64 (EventAttributeDataFreeTier g) ->
  is_u64 (attr_bytes (all_attrs (reply_events r))) ->
  is_u64 (N.of_nat (length (all_attrs (reply_events r)))) ->
  is_u64 (reply_price g discount r) ->
  ReplyCosts g discount r = Ret (reply_price g discount r).
Proof.
  intros Hf Hb Hl Hp. unfold ReplyCosts, reply_price, reply_events, reply_msg_len,
    EventCosts, is_u64 in *.
  destruct (SR_Ok (Reply_Result r)) as [ok|].
  - fold (all_attrs (SM_Events ok)) in *.
    rewrite type_gas_exact by (unfold is_u64; nia).
    rewrite eventAttributeCosts_exact by (unfold is_u64; nia). cbn [obind eventCosts_loop].
    rewrite <- N2Z.inj_add. rewrite SetupContractCost_exact by (unfold is_u64; nia).
    cbn [obind]. rewrite (add64_exact (0 + _)) by nia.
    rewrite add64_exact by nia. f_equal. nia.
  - cbn [obind]. rewrite N.add_0_r in *.
    rewrite SetupContractCost_exact by (unfold is_u64; nia). cbn [obind].
    cbn [all_attrs concat fmap list_fmap attr_bytes type_bytes foldr length] in *.
    rewrite add64_exact by nia. f_equal. nia.
Qed.

Lemma ReplyCosts_exact_witness :
  ReplyCosts DefaultGasRegisterConfig true
    (mkReply 5 1 (mkSubMsgResult (Some (mkSubMsgResponse
       [mkEvent "transfer" [mkAttr "to" "bob"]] (Some []) [])) "") [])
  = Ret 2018%N.
Proof.
  apply (ReplyCosts_exact DefaultGasRegisterConfig true
    (mkReply 5 1 (mkSubMsgResult (Some (mkSubMsgResponse
       [mkEvent "transfer" [mkAttr "to" "bob"]] (Some []) [])) "") []));
    vm_compute; reflexivity.
Defined.

End GasRegister.
