(* ===== verification/Chain.v ===== *)
(** The chain the keeper runs in: block context, state, gas, events, the
    key-value store, other modules, and the monad the Go code is written in.
    The cosmos-sdk is a third-party library, so the gas meter, the price of a
    store access and the other modules' keepers are parameters; what they may
    do to the wasm module's own state is fixed by their types. *)
From S2P Require Import Prelude Errors GoStrings Types Keys VMTypes Policy GasRegister.
Open Scope wasm_scope.
Export VM.

(** ** storetypes.GasMeter *)

Class GasMeters := {
  Meter : Type;
  NewGasMeter : N -> Meter;
  NewInfiniteGasMeter : Meter;
  Limit : Meter -> N;
  GasConsumed : Meter -> N;
  GasConsumedToLimit : Meter -> N;
  IsOutOfGas : Meter -> bool;
  (** the meter after the charge, and the panic if it raises one *)
  ConsumeGas : Meter -> N -> string -> Meter * option panic;
}.

(** The documented behaviour of a gas meter: consumption only grows, the limit
    is fixed, a charge beyond the limit panics with ErrorOutOfGas and one that
    overflows 64 bits with ErrorGasOverflow. *)
Class GasMetersLaws `{GasMeters} : Prop := {
  meter_new_limit l : is_u64 l -> Limit (NewGasMeter l) = l;
  meter_new_consumed l : GasConsumed (NewGasMeter l) = 0%N;
  meter_infinite_limit : Limit NewInfiniteGasMeter = MaxUint64;
  meter_u64 m : is_u64 (GasConsumed m) /\ is_u64 (Limit m);
  meter_to_limit m : GasConsumedToLimit m = N.min (GasConsumed m) (Limit m);
  meter_out_of_gas m :
    IsOutOfGas m = true -> (Limit m <= GasConsumed m)%N;
  meter_not_out_of_gas m :
    IsOutOfGas m = false -> (GasConsumed m < Limit m)%N \/ Limit m = MaxUint64;
  meter_consume_ok m a d m' :
    ConsumeGas m a d = (m', None) ->
    Limit m' = Limit m /\ GasConsumed m' = (GasConsumed m + a)%N
    /\ (GasConsumed m' <= Limit m')%N;
  meter_consume_panic m a d m' p :
    ConsumeGas m a d = (m', Some p) ->
    Limit m' = Limit m /\ (GasConsumed m <= GasConsumed m')%N
    /\ (p = POutOfGas d /\ (Limit m' < GasConsumed m')%N \/ p = PGasOverflow d);
}.

(** ** Store accesses *)

Inductive KVOp :=
| OpGet (k : bytes) (v : option bytes)
| OpHas (k : bytes)
| OpSet (k v : bytes)
| OpDelete (k : bytes)
| OpSeek (current : option (bytes * bytes)).   (* iterator creation and Next *)

(** What a store access costs, and whether it fails before it takes effect
    (an error of the store service, a panic on an invalid key). *)
Class KVStorePkg := {
  kv_charges : KVOp -> list (N * string);
  kv_fault : KVOp -> option (error + panic);
}.

(** The state of the other modules and of the VM's code cache. *)
Class Modules := { ExtState : Type; VMState : Type }.

(** ** sdk.Context: the values fixed for the duration of a call *)

Record Context := mkContext {
  ctx_BlockHeight : Z;
  ctx_BlockTime : Z;                    (* UnixNano *)
  ctx_ChainID : string;
  ctx_BlockGas : option N;              (* BlockGasMeter().GasConsumed() *)
  ctx_TXCounter : option N;
  ctx_QueryStackSize : option N;
  ctx_CallDepth : option N;
  ctx_SubMsgPolicy : option Policy.AuthorizationPolicy;
  ctx_GasRegister : option GasRegister.WasmGasRegisterConfig;
}.

Definition WithTXCounter (c : Context) (n : N) : Context :=
  mkContext (ctx_BlockHeight c) (ctx_BlockTime c) (ctx_ChainID c) (ctx_BlockGas c)
    (Some n) (ctx_QueryStackSize c) (ctx_CallDepth c) (ctx_SubMsgPolicy c)
    (ctx_GasRegister c).
Definition WithQueryStackSize (c : Context) (n : N) : Context :=
  mkContext (ctx_BlockHeight c) (ctx_BlockTime c) (ctx_ChainID c) (ctx_BlockGas c)
    (ctx_TXCounter c) (Some n) (ctx_CallDepth c) (ctx_SubMsgPolicy c)
    (ctx_GasRegister c).
Definition WithCallDepth (c : Context) (n : N) : Context :=
  mkContext (ctx_BlockHeight c) (ctx_BlockTime c) (ctx_ChainID c) (ctx_BlockGas c)
    (ctx_TXCounter c) (ctx_QueryStackSize c) (Some n) (ctx_SubMsgPolicy c)
    (ctx_GasRegister c).
(** The Go function panics on a nil policy; a policy here is never nil. *)
Definition WithSubMsgAuthzPolicy (c : Context) (p : Policy.AuthorizationPolicy)
    : Context :=
  mkContext (ctx_BlockHeight c) (ctx_BlockTime c) (ctx_ChainID c) (ctx_BlockGas c)
    (ctx_TXCounter c) (ctx_QueryStackSize c) (ctx_CallDepth c) (Some p)
    (ctx_GasRegister c).
Definition WithGasRegister (c : Context) (g : GasRegister.WasmGasRegisterConfig)
    : Context :=
  mkContext (ctx_BlockHeight c) (ctx_BlockTime c) (ctx_ChainID c) (ctx_BlockGas c)
    (ctx_TXCounter c) (ctx_QueryStackSize c) (ctx_CallDepth c) (ctx_SubMsgPolicy c)
    (Some g).

Definition NewAbsoluteTxPosition (ctx : Context) : outcome AbsoluteTxPosition :=
  let index := default 0%N (ctx_BlockGas ctx) in
  if (ctx_BlockHeight ctx <? 0)%Z
  then Panic (PText (String.append "unsupported height: " (pretty (ctx_BlockHeight ctx))))
  else Ret (mkAbsoluteTxPosition (Z.to_N (ctx_BlockHeight ctx)) index).

Definition NewEnv `{Bech32} (ctx : Context) (contractAddr : bytes) : outcome Env :=
  if (ctx_BlockHeight ctx <? 0)%Z
  then Panic (PText "Block height must never be negative")
  else if (ctx_BlockTime ctx <? 1)%Z
  then Panic (PText "Block (unix) time must never be empty or negative ")
  else Ret (mkEnv
    (mkBlockInfo (Z.to_N (ctx_BlockHeight ctx)) (Z.to_N (ctx_BlockTime ctx))
       (ctx_ChainID ctx))
    (mkTransactionInfo <$> ctx_TXCounter ctx)
    (AccAddress_String contractAddr)).

(** ** sdk.Coins *)

(** sdk.Coin{Denom, Amount}: a plain struct; the operations on coin sets are
    the library's. *)
Record sdkCoin := mkSdkCoin { coin_Denom : string; coin_Amount : Z }.
Abbreviation Coins := (list sdkCoin).

Class CoinsPkg := {
  AmountOf : Coins -> string -> Z;
  Coins_IsZero : Coins -> bool;
  Coins_IsAllLTE : Coins -> Coins -> bool;
  (** panics when a result is negative *)
  Coins_Sub : Coins -> Coins -> outcome Coins;
  Coins_Validate : Coins -> option error;
  (** sanitizes; panics on an invalid set *)
  NewCoins : list sdkCoin -> outcome Coins;
}.

Definition Coins_Empty (c : Coins) : bool := Nat.eqb (length c) 0.

Definition NewWasmCoins (cosmosCoins : Coins) : list VM.Coin :=
  (fun c => VM.mkCoin (coin_Denom c) (pretty (coin_Amount c))) <$> cosmosCoins.

Definition NewInfo `{Bech32} (creator : AccAddress) (deposit : Coins) : MessageInfo :=
  mkMessageInfo (acc_string creator) (NewWasmCoins deposit).

(** ** State and the monad of keeper code *)

Section Monad.
Context `{GasMeters, Modules, KVStorePkg}.

(** The part of the state that CacheContext branches is [kv] and [ext]; the
    gas meter and the set of contracts loaded in the transaction are Go
    pointers shared by every context of the transaction, and the VM's cache
    lives outside of the store. *)
Record State := mkState {
  kv : gmap bytes bytes;
  ext : ExtState;
  vm : VMState;
  meter : Meter;
  events : list Event;
  txc : option (gset string);
}.

Definition set_kv (f : gmap bytes bytes -> gmap bytes bytes) (s : State) : State :=
  mkState (f (kv s)) (ext s) (vm s) (meter s) (events s) (txc s).
Definition set_ext (x : ExtState) (s : State) : State :=
  mkState (kv s) x (vm s) (meter s) (events s) (txc s).
Definition set_vm (v : VMState) (s : State) : State :=
  mkState (kv s) (ext s) v (meter s) (events s) (txc s).
Definition set_meter (m : Meter) (s : State) : State :=
  mkState (kv s) (ext s) (vm s) m (events s) (txc s).
Definition set_events (e : list Event) (s : State) : State :=
  mkState (kv s) (ext s) (vm s) (meter s) e (txc s).
Definition set_txc (t : option (gset string)) (s : State) : State :=
  mkState (kv s) (ext s) (vm s) (meter s) (events s) t.

(** A Go function: it changes the state and then returns, returns an error or
    panics. A returned error does not undo anything. *)
Definition M (A : Type) : Type := State -> outcome A * State.

#[global] Instance M_ret : MRet M := fun A a s => (Ret a, s).
#[global] Instance M_bind : MBind M := fun A B f m s =>
  match m s with
  | (Ret a, s') => f a s'
  | (Fail e, s') => (Fail e, s')
  | (Panic p, s') => (Panic p, s')
  end.

Definition fail {A} (e : error) : M A := fun s => (Fail e, s).
Definition throw {A} (p : panic) : M A := fun s => (Panic p, s).
Definition lift {A} (o : outcome A) : M A := fun s => (o, s).
Definition gets {A} (f : State -> A) : M A := fun s => (Ret (f s), s).
Definition modify (f : State -> State) : M unit := fun s => (Ret tt, f s).

(** [if err != nil { return err }] on an error value. *)
Definition check (e : option error) : M unit :=
  match e with None => mret tt | Some e => fail e end.
(** [if cond { return err }] *)
Definition guard_err (cond : bool) (e : error) : M unit :=
  if cond then fail e else mret tt.

(** Run and hand the outcome, panics included, to the caller: [recover]. *)
Definition reify {A} (m : M A) : M (outcome A) := fun s =>
  let '(o, s') := m s in (Ret o, s').
(** Hand the returned error to the caller; panics go on. *)
Definition catch {A} (m : M A) : M (A + error) := fun s =>
  match m s with
  | (Ret a, s') => (Ret (inl a), s')
  | (Fail e, s') => (Ret (inr e), s')
  | (Panic p, s') => (Panic p, s')
  end.
(** [errorsmod.Wrap(err, msg)] and the like on the returned error. *)
Definition map_err {A} (f : error -> error) (m : M A) : M A := fun s =>
  match m s with
  | (Fail e, s') => (Fail (f e), s')
  | r => r
  end.
Definition wrap_err {A} (msg : string) (m : M A) : M A := map_err (fun e => Wrap e msg) m.
(** [if err != nil { panic(err) }] *)
Definition must {A} (m : M A) : M A := fun s =>
  match m s with
  | (Fail e, s') => (Panic (PError e), s')
  | r => r
  end.

(** ** Gas and events *)

Definition consume (amount : N) (descriptor : string) : M unit := fun s =>
  let '(m, p) := ConsumeGas (meter s) amount descriptor in
  (match p with None => Ret tt | Some p => Panic p end, set_meter m s).

Fixpoint consume_all (cs : list (N * string)) : M unit :=
  match cs with
  | [] => mret tt
  | (a, d) :: cs' => _ ← consume a d; consume_all cs'
  end.

Definition emit (evs : list Event) : M unit :=
  modify (fun s => set_events (events s ++ evs) s).
Definition newEvent (ty : string) (attrs : list (string * string)) : Event :=
  mkEvent ty ((fun a => mkAttr a.1 a.2) <$> attrs).
Definition emit_event (ty : string) (attrs : list (string * string)) : M unit :=
  emit [newEvent ty attrs].

(** Run under a fresh event manager; its events are returned. *)
Definition with_events {A} (m : M A) : M (outcome A * list Event) := fun s =>
  let '(o, s') := m (set_events [] s) in
  (Ret (o, events s'), set_events (events s) s').

(** Run under another gas meter, which is returned as it ends. *)
Definition with_meter {A} (mt : Meter) (m : M A) : M (outcome A * Meter) := fun s =>
  let '(o, s') := m (set_meter mt s) in
  (Ret (o, meter s'), set_meter (meter s) s').

(** ctx.CacheContext() with the commit on success: the branch is written back
    only when the call returns without error. *)
Definition rollback (s s' : State) : State :=
  mkState (kv s) (ext s) (vm s') (meter s') (events s') (txc s').
Definition cached {A} (m : M A) : M A := fun s =>
  match m s with
  | (Ret a, s') => (Ret a, s')
  | (o, s') => (o, rollback s s')
  end.
(** A branch that is never written back; its events are dropped with it. *)
Definition discarded {A} (m : M A) : M A := fun s =>
  let '(o, s') := m s in (o, set_events (events s) (rollback s s')).

(** ** The wasm store *)

Definition kv_access (op : KVOp) : M unit :=
  _ ← consume_all (kv_charges op);
  match kv_fault op with
  | None => mret tt
  | Some (inl e) => fail e
  | Some (inr p) => throw p
  end.

Definition kv_get (k : bytes) : M (option bytes) :=
  v ← gets (fun s => kv s !! k); _ ← kv_access (OpGet k v); mret v.
Definition kv_has (k : bytes) : M bool :=
  _ ← kv_access (OpHas k); gets (fun s => bool_decide (is_Some (kv s !! k))).
Definition kv_set (k v : bytes) : M unit :=
  _ ← kv_access (OpSet k v); modify (set_kv <[k := v]>).
Definition kv_delete (k : bytes) : M unit :=
  _ ← kv_access (OpDelete k); modify (set_kv (delete k)).

Definition kv_entry_le (a b : bytes * bytes) : Prop := bytes_le a.1 b.1.
#[global] Instance kv_entry_le_dec : RelDecision kv_entry_le.
Proof. intros a b. unfold kv_entry_le, bytes_le. apply _. Defined.

(** The entries under a prefix in key order, keys without the prefix: the
    contents of a prefix store. *)
Definition strip_entry (p : bytes) (e : bytes * bytes) : option (bytes * bytes) :=
  match strip_prefix p e.1 with Some k => Some (k, e.2) | None => None end.
Definition kv_prefixed (m : gmap bytes bytes) (p : bytes) : list (bytes * bytes) :=
  merge_sort kv_entry_le (omap (strip_entry p) (map_to_list m)).

(** Iterator(start, end) of a prefix store; a nil bound is open. *)
Definition in_bounds (start stop : option bytes) (k : bytes) : bool :=
  match start with Some b => bytes_leb b k | None => true end
  && match stop with Some b => negb (bytes_leb b k) | None => true end.
Definition kv_iterator (p : bytes) (start stop : option bytes) (reverse : bool)
    (m : gmap bytes bytes) : list (bytes * bytes) :=
  let l := filter (fun e => in_bounds start stop e.1 = true) (kv_prefixed m p) in
  if reverse then rev l else l.

(** [for ; iter.Valid(); iter.Next() { ... }]: the body returns whether to
    break; advancing is charged. *)
Fixpoint iter_loop {A} (l : list (bytes * bytes))
    (body : bytes -> bytes -> A -> M (A * bool)) (acc : A) : M A :=
  match l with
  | [] => mret acc
  | (k, v) :: l' =>
      '(acc, stop) ← body k v acc;
      if (stop : bool) then mret acc
      else _ ← must (kv_access (OpSeek (Some (k, v)))); iter_loop l' body acc
  end.
Definition iterate {A} (p : bytes) (start stop : option bytes) (reverse : bool)
    (body : bytes -> bytes -> A -> M (A * bool)) (acc : A) : M A :=
  l ← gets (fun s => kv_iterator p start stop reverse (kv s));
  _ ← must (kv_access (OpSeek (head l)));
  iter_loop l body acc.

(** ** Other modules *)

(** A call into another module's keeper: it reads and changes that module's
    state, charges gas, emits events, and ends with an outcome. It has no
    access to the wasm store. *)
Inductive ExtTrace (A : Type) :=
| EDone (o : outcome A) (x : ExtState)
| ECharge (amount : N) (descriptor : string) (x : ExtState) (rest : ExtTrace A)
| EEmit (evs : list Event) (rest : ExtTrace A).

Definition Ext (A : Type) : Type := Context -> ExtState -> ExtTrace A.

End Monad.
Arguments EDone {_ _} _ _.
Arguments ECharge {_ _} _ _ _ _.
Arguments EEmit {_ _} _ _.

Section Ext.
Context `{GasMeters, Modules, KVStorePkg}.

Fixpoint run_trace {A} (t : ExtTrace A) : M A :=
  match t with
  | EDone o x => fun s => (o, set_ext x s)
  | ECharge a d x rest => _ ← modify (set_ext x); _ ← consume a d; run_trace rest
  | EEmit evs rest => _ ← emit evs; run_trace rest
  end.
Definition call_ext {A} (ctx : Context) (op : Ext A) : M A :=
  x ← gets ext; run_trace (op ctx x).

End Ext.
