(* ===== verification/Logic.v ===== *)
(** Reasoning about keeper code: relations between the state before and after
    a call that every primitive respects ([preserves]), calls that end within
    their gas limit ([kept]), and calls that agree ([agree]). *)
From S2P Require Import Prelude Errors GoStrings Types Keys VMTypes Policy GasRegister Chain.
Open Scope wasm_scope.

Create HintDb frame.

Section Preserves.
Context `{GasMeters, Modules, KVStorePkg}.

(** Whatever the outcome, the state after is related to the state before. *)
Definition preserves {A} (R : State -> State -> Prop) (m : M A) : Prop :=
  forall s, R s (m s).2.

(** Relations that gas charges, events, other modules and rollbacks respect. *)
Class StateFrame (R : State -> State -> Prop) : Prop := {
  sf_preorder :: PreOrder R;
  sf_consume s a d : R s (set_meter (ConsumeGas (meter s) a d).1 s);
  sf_events s e : R s (set_events e s);
  sf_ext s x : R s (set_ext x s);
  sf_vm s v : R s (set_vm v s);
  sf_txc s t : R s (set_txc t s);
  sf_meter s mt s' : R (set_meter mt s) s' -> R s (set_meter (meter s) s');
  sf_rollback s s' : R s s' -> R s (rollback s s');
}.

(** [R] allows writes to the key [k]. *)
Definition touch (R : State -> State -> Prop) (k : bytes) : Prop :=
  (forall s v, R s (set_kv <[k := v]> s)) /\ (forall s, R s (set_kv (delete k) s)).

(** What the code of messages writes, packets that wait for an acknowledgement
    apart: it leaves the transaction counter to the ante handler, and it never
    removes the record of a code or a contract or an entry of a history. *)
Definition settable (k : bytes) : Prop :=
  match k with [] => False | b :: _ => b <> Byte.x11 /\ b <> Byte.x08 end.
Definition removable (k : bytes) : Prop :=
  match k with
  | [] => False
  | b :: _ => b <> Byte.x01 /\ b <> Byte.x02 /\ b <> Byte.x05 /\ b <> Byte.x08
  end.
Class WriteFrame (R : State -> State -> Prop) : Prop := {
  write_set k v s : settable k -> R s (set_kv <[k := v]> s);
  write_delete k s : removable k -> R s (set_kv (delete k) s);
}.

(** Keys that satisfy [P] stay in use. *)
Definition kv_grows (P : bytes -> Prop) (s s' : State) : Prop :=
  forall k, P k -> is_Some (kv s !! k) -> is_Some (kv s' !! k).

(** Only keys that satisfy [P] change in the wasm store. *)
Definition kv_frame (P : bytes -> Prop) (s s' : State) : Prop :=
  forall k, ~ P k -> kv s' !! k = kv s !! k.

(** The gas limit stays and the gas consumed does not shrink. *)
Definition gas_mono (s s' : State) : Prop :=
  Limit (meter s') = Limit (meter s)
  /\ (GasConsumed (meter s) <= GasConsumed (meter s'))%N.

#[global] Instance kv_frame_frame P : StateFrame (kv_frame P).
Proof.
  split; try (intros; intros k Hk; reflexivity).
  - split; [by intros ???|]. intros a b c Hab Hbc k Hk. by rewrite Hbc, Hab.
  - intros s mt s' R k Hk. apply (R k Hk).
Qed.

#[global] Instance gas_mono_frame `{!GasMetersLaws} : StateFrame gas_mono.
Proof.
  split; try (intros; split; [done|simpl; lia]).
  - split; [by intros ?; split; [|lia]|].
    intros a b c [L1 C1] [L2 C2]. split; [congruence|lia].
  - intros s a d. unfold gas_mono. simpl.
    destruct (ConsumeGas (meter s) a d) as [m' [p|]] eqn:E.
    + apply meter_consume_panic in E as (? & ? & _). done.
    + apply meter_consume_ok in E as (? & ? & _). simpl. split; [done|lia].
  - intros s s' [? ?]. done.
Qed.

Lemma touch_kv_frame (P : bytes -> Prop) k : P k -> touch (kv_frame P) k.
Proof.
  intros HP. split; intros; intros k' Hk'; simpl; assert (k <> k') by (intros ->; done).
  - by rewrite lookup_insert_ne.
  - by rewrite lookup_delete_ne.
Qed.

Lemma touch_gas_mono k : touch gas_mono k.
Proof. split; intros; split; simpl; done || lia. Qed.
#[global] Instance gas_mono_writes : WriteFrame gas_mono.
Proof. split; intros; apply touch_gas_mono. Qed.

#[global] Instance kv_grows_frame P : StateFrame (kv_grows P).
Proof.
  split; try (intros; intros k Hk; by simpl).
  - split; [by intros ? ?|]. intros a b c Hab Hbc k Hk Hs. auto.
  - intros s mt s' R k Hk. apply (R k Hk).
Qed.
(** Codes, contracts and history entries stay in use. *)
Definition permanent (k : bytes) : Prop := ~ removable k /\ k <> [].
#[global] Instance kv_grows_writes : WriteFrame (kv_grows permanent).
Proof.
  split; [intros k v s _ k' _ Hs|intros k s Hw k' [Hp _] Hs]; simpl.
  - destruct (decide (k' = k)) as [->|]; [rewrite lookup_insert_eq; by eexists|].
    by rewrite lookup_insert_ne.
  - rewrite lookup_delete_ne; [done|]. by intros ->.
Qed.

Lemma kv_frame_weaken (P Q : bytes -> Prop) s s' :
  (forall k, P k -> Q k) -> kv_frame P s s' -> kv_frame Q s s'.
Proof. intros HPQ HF k Hk. apply HF. eauto. Qed.

Section Closure.
Context (R : State -> State -> Prop) `{!StateFrame R}.

Lemma preserves_ret {A} (a : A) : preserves R (mret a : M A).
Proof. intros s. reflexivity. Qed.

Lemma preserves_fail {A} e : preserves R (fail e : M A).
Proof. intros s. reflexivity. Qed.

Lemma preserves_throw {A} p : preserves R (throw p : M A).
Proof. intros s. reflexivity. Qed.

Lemma preserves_lift {A} (o : outcome A) : preserves R (lift o).
Proof. intros s. reflexivity. Qed.

Lemma preserves_gets {A} (f : State -> A) : preserves R (gets f).
Proof. intros s. reflexivity. Qed.

Lemma preserves_check e : preserves R (check e).
Proof. destruct e; intros s; reflexivity. Qed.

Lemma preserves_guard_err b e : preserves R (guard_err b e).
Proof. destruct b; intros s; reflexivity. Qed.

Lemma preserves_bind {A B} (m : M A) (f : A -> M B) :
  preserves R m -> (forall a, preserves R (f a)) -> preserves R (m ≫= f).
Proof.
  intros Hm Hf s. unfold mbind, M_bind. specialize (Hm s).
  destruct (m s) as [[a|e|p] s']; simpl in *; [|done..].
  etrans; [exact Hm|]. apply Hf.
Qed.

Lemma preserves_modify f : (forall s, R s (f s)) -> preserves R (modify f).
Proof. intros Hf s. apply Hf. Qed.

Lemma preserves_reify {A} (m : M A) : preserves R m -> preserves R (reify m).
Proof. intros Hm s. specialize (Hm s). unfold reify. by destruct (m s). Qed.

Lemma preserves_catch {A} (m : M A) : preserves R m -> preserves R (catch m).
Proof. intros Hm s. specialize (Hm s). unfold catch. by destruct (m s) as [[] ?]. Qed.

Lemma preserves_map_err {A} f (m : M A) : preserves R m -> preserves R (map_err f m).
Proof. intros Hm s. specialize (Hm s). unfold map_err. by destruct (m s) as [[] ?]. Qed.

Lemma preserves_must {A} (m : M A) : preserves R m -> preserves R (must m).
Proof. intros Hm s. specialize (Hm s). unfold must. by destruct (m s) as [[] ?]. Qed.

Lemma preserves_consume a d : preserves R (consume a d).
Proof.
  intros s. unfold consume. pose proof (sf_consume s a d).
  by destruct (ConsumeGas _ _ _) as [? []].
Qed.

Lemma preserves_consume_all cs : preserves R (consume_all cs).
Proof.
  induction cs as [|[a d] cs IH]; simpl; [apply preserves_ret|].
  apply preserves_bind; [apply preserves_consume|done].
Qed.

Lemma preserves_emit evs : preserves R (emit evs).
Proof. apply preserves_modify. intros s. apply sf_events. Qed.

Lemma preserves_with_events {A} (m : M A) :
  preserves R m -> preserves R (with_events m).
Proof.
  intros Hm s. unfold with_events. specialize (Hm (set_events [] s)).
  destruct (m (set_events [] s)) as [o s']. simpl in *.
  etrans; [apply (sf_events s [])|]. etrans; [exact Hm|]. apply sf_events.
Qed.

Lemma preserves_with_meter {A} mt (m : M A) :
  preserves R m -> preserves R (with_meter mt m).
Proof.
  intros Hm s. unfold with_meter. specialize (Hm (set_meter mt s)).
  destruct (m (set_meter mt s)) as [o s']. by apply sf_meter in Hm.
Qed.

Lemma preserves_cached {A} (m : M A) : preserves R m -> preserves R (cached m).
Proof.
  intros Hm s. specialize (Hm s). unfold cached.
  destruct (m s) as [[] s']; simpl in *; [done|by apply sf_rollback..].
Qed.

Lemma preserves_discarded {A} (m : M A) : preserves R m -> preserves R (discarded m).
Proof.
  intros Hm s. specialize (Hm s). unfold discarded.
  destruct (m s) as [o s']; simpl in *. etrans; [by apply sf_rollback|apply sf_events].
Qed.

Lemma preserves_kv_access op : preserves R (kv_access op).
Proof.
  apply preserves_bind; [apply preserves_consume_all|]. intros _.
  destruct (kv_fault op) as [[e|p]|].
  - apply preserves_fail.
  - apply preserves_throw.
  - apply preserves_ret.
Qed.

Lemma preserves_kv_get k : preserves R (kv_get k).
Proof.
  apply preserves_bind; [apply preserves_gets|]. intros v.
  apply preserves_bind; [apply preserves_kv_access|]. intros _. apply preserves_ret.
Qed.

Lemma preserves_kv_has k : preserves R (kv_has k).
Proof.
  apply preserves_bind; [apply preserves_kv_access|]. intros _. apply preserves_gets.
Qed.

Lemma preserves_kv_set k v : touch R k -> preserves R (kv_set k v).
Proof.
  intros [Hi _]. apply preserves_bind; [apply preserves_kv_access|]. intros _.
  apply preserves_modify. intros s. apply Hi.
Qed.

Lemma preserves_kv_delete k : touch R k -> preserves R (kv_delete k).
Proof.
  intros [_ Hd]. apply preserves_bind; [apply preserves_kv_access|]. intros _.
  apply preserves_modify. intros s. apply Hd.
Qed.

Lemma preserves_kv_write `{!WriteFrame R} k v : settable k -> preserves R (kv_set k v).
Proof.
  intros Hk. apply preserves_bind; [apply preserves_kv_access|]. intros _.
  apply preserves_modify. intros s. by apply write_set.
Qed.
Lemma preserves_kv_remove `{!WriteFrame R} k : removable k -> preserves R (kv_delete k).
Proof.
  intros Hk. apply preserves_bind; [apply preserves_kv_access|]. intros _.
  apply preserves_modify. intros s. by apply write_delete.
Qed.
(** A key that the code computes. *)
Lemma preserves_bind_lift {A B} (o : outcome A) (f : A -> M B) :
  (forall a, o = Ret a -> preserves R (f a)) -> preserves R (lift o ≫= f).
Proof. intros Hf s. unfold mbind, M_bind, lift. destruct o; [by apply Hf|reflexivity..]. Qed.

Lemma preserves_iter_loop {A} l (body : bytes -> bytes -> A -> M (A * bool)) acc :
  (forall k v a, preserves R (body k v a)) -> preserves R (iter_loop l body acc).
Proof.
  intros Hb. revert acc. induction l as [|[k v] l IH]; intros acc; simpl;
    [apply preserves_ret|].
  apply preserves_bind; [apply Hb|]. intros [a []]; [apply preserves_ret|].
  apply preserves_bind; [|done]. apply preserves_must, preserves_kv_access.
Qed.

Lemma preserves_iterate {A} p start stop reverse
    (body : bytes -> bytes -> A -> M (A * bool)) acc :
  (forall k v a, preserves R (body k v a)) ->
  preserves R (iterate p start stop reverse body acc).
Proof.
  intros Hb. apply preserves_bind; [apply preserves_gets|]. intros l.
  apply preserves_bind; [apply preserves_must, preserves_kv_access|]. intros _.
  by apply preserves_iter_loop.
Qed.

Lemma preserves_run_trace {A} (t : ExtTrace A) : preserves R (run_trace t).
Proof.
  induction t as [o x|a d x t IH|evs t IH]; simpl.
  - intros s. apply sf_ext.
  - apply preserves_bind; [apply preserves_modify; intros; apply sf_ext|]. intros _.
    apply preserves_bind; [apply preserves_consume|done].
  - apply preserves_bind; [apply preserves_emit|done].
Qed.

Lemma preserves_call_ext {A} ctx (op : Ext A) : preserves R (call_ext ctx op).
Proof.
  apply preserves_bind; [apply preserves_gets|]. intros x. apply preserves_run_trace.
Qed.

End Closure.

(** A branch that is thrown away changes nothing in the store, whatever runs
    in it. *)
Lemma preserves_discarded_kv {A} P (m : M A) : preserves (kv_frame P) (discarded m).
Proof. intros s k Hk. unfold discarded. by destruct (m s). Qed.

End Preserves.

#[export] Hint Resolve preserves_ret preserves_fail preserves_throw preserves_lift
  preserves_gets preserves_check preserves_guard_err preserves_reify
  preserves_catch preserves_map_err preserves_must preserves_consume
  preserves_consume_all preserves_emit preserves_with_events
  preserves_with_meter preserves_cached preserves_discarded
  preserves_kv_access preserves_kv_get preserves_kv_has preserves_kv_set
  preserves_kv_delete preserves_iterate preserves_iter_loop
  preserves_call_ext touch_kv_frame touch_gas_mono preserves_discarded_kv : frame.
#[export] Hint Extern 0 (StateFrame _) => apply _ : frame.
#[export] Hint Extern 0 (WriteFrame _) => apply _ : frame.
(** The first byte of a key is a constant. *)
Ltac first_byte := hnf; repeat split; discriminate.
#[export] Hint Extern 1 (settable _) => first_byte : frame.
#[export] Hint Extern 1 (removable _) => first_byte : frame.
#[export] Hint Resolve preserves_kv_write preserves_kv_remove : frame.

(** Walk through a computation: binds, matches, then the lemmas above. *)
Ltac frame :=
  repeat
    (cbv zeta; cbv beta;
     lazymatch goal with
     | |- forall _, _ => intro
     | |- StateFrame _ => apply _
     | |- preserves ?R (mbind _ _) => refine (preserves_bind R _ _ _ _)
     | |- preserves _ (match ?x with _ => _ end) => destruct x
     | |- preserves _ (reify _) => apply preserves_reify
     | |- preserves _ (catch _) => apply preserves_catch
     | |- preserves _ (map_err _ _) => apply preserves_map_err
     | |- preserves _ (wrap_err _ _) => apply preserves_map_err
     | |- preserves _ (must _) => apply preserves_must
     | |- preserves _ (with_events _) => apply preserves_with_events
     | |- preserves _ (with_meter _ _) => apply preserves_with_meter
     | |- preserves _ (cached _) => apply preserves_cached
     | |- preserves _ (iterate _ _ _ _ _ _) => apply preserves_iterate
     | |- preserves _ (iter_loop _ _ _) => apply preserves_iter_loop
     | |- preserves _ (emit_event _ _) => apply preserves_emit
     | |- preserves _ _ => solve [eauto with frame]
     end).

(** ** Staying within the gas limit *)

Create HintDb kept.

Definition within_gas `{GasMeters} (m : Meter) : Prop := (GasConsumed m <= Limit m)%N.

Section Kept.
Context `{GasMeters, Modules, KVStorePkg}.

(** A call that ends without panic leaves its meter within the limit:
    [settles] from any state, [kept] when it started within the limit. *)
Definition ends_within {A} (r : outcome A * State) : Prop :=
  match r.1 with Panic _ => True | _ => within_gas (meter r.2) end.
Definition settles {A} (m : M A) : Prop := forall s, ends_within (m s).
Definition kept {A} (m : M A) : Prop :=
  forall s, within_gas (meter s) -> ends_within (m s).
(** A call that returns or panics, but never returns an error. *)
Definition no_fail {A} (m : M A) : Prop :=
  forall s, match (m s).1 with Fail _ => False | _ => True end.

Lemma settles_kept {A} (m : M A) : settles m -> kept m.
Proof. intros Hm s _. apply Hm. Qed.

Lemma kept_bind {A B} (m : M A) (f : A -> M B) :
  kept m -> (forall a, kept (f a)) -> kept (m ≫= f).
Proof.
  intros Hm Hf s Hs. specialize (Hm s Hs). unfold ends_within, mbind, M_bind in *.
  destruct (m s) as [[a|e|p] s']; simpl in *; [by apply Hf|done..].
Qed.

Lemma settles_bind {A B} (m : M A) (f : A -> M B) :
  settles m -> (forall a, kept (f a)) -> settles (m ≫= f).
Proof.
  intros Hm Hf s. specialize (Hm s). unfold ends_within, mbind, M_bind in *.
  destruct (m s) as [[a|e|p] s']; simpl in *; [by apply Hf|done..].
Qed.

(** A call that may overrun its meter, followed by one that settles. *)
Lemma kept_bind_settles {A B} (m : M A) (f : A -> M B) :
  no_fail m -> (forall a, settles (f a)) -> kept (m ≫= f).
Proof.
  intros Hm Hf s _. specialize (Hm s). unfold ends_within, mbind, M_bind in *.
  destruct (m s) as [[a|e|p] s']; simpl in *; [by apply Hf|done..].
Qed.

Lemma kept_ret {A} (a : A) : kept (mret a : M A).
Proof. by intros s Hs. Qed.
Lemma kept_fail {A} e : kept (fail e : M A).
Proof. by intros s Hs. Qed.
Lemma kept_throw {A} p : kept (throw p : M A).
Proof. by intros s Hs. Qed.
Lemma kept_lift {A} (o : outcome A) : kept (lift o).
Proof. intros s Hs. by destruct o. Qed.
Lemma kept_gets {A} (f : State -> A) : kept (gets f).
Proof. by intros s Hs. Qed.
Lemma kept_modify f : (forall s, meter (f s) = meter s) -> kept (modify f).
Proof. intros Hf s Hs. unfold ends_within. simpl. by rewrite Hf. Qed.
Lemma kept_check e : kept (check e).
Proof. intros s Hs. by destruct e. Qed.
Lemma kept_guard_err b e : kept (guard_err b e).
Proof. intros s Hs. by destruct b. Qed.
Lemma kept_emit evs : kept (emit evs).
Proof. by apply kept_modify. Qed.

Lemma kept_catch {A} (m : M A) : kept m -> kept (catch m).
Proof.
  intros Hm s Hs. specialize (Hm s Hs). unfold ends_within, catch in *.
  by destruct (m s) as [[] ?].
Qed.
Lemma kept_map_err {A} f (m : M A) : kept m -> kept (map_err f m).
Proof.
  intros Hm s Hs. specialize (Hm s Hs). unfold ends_within, map_err in *.
  by destruct (m s) as [[] ?].
Qed.
Lemma kept_must {A} (m : M A) : kept m -> kept (must m).
Proof.
  intros Hm s Hs. specialize (Hm s Hs). unfold ends_within, must in *.
  by destruct (m s) as [[] ?].
Qed.
Lemma kept_cached {A} (m : M A) : kept m -> kept (cached m).
Proof.
  intros Hm s Hs. specialize (Hm s Hs). unfold ends_within, cached in *.
  by destruct (m s) as [[] ?].
Qed.
Lemma kept_discarded {A} (m : M A) : kept m -> kept (discarded m).
Proof.
  intros Hm s Hs. specialize (Hm s Hs). unfold ends_within, discarded in *.
  by destruct (m s) as [[] ?].
Qed.
(** Under another meter a call does not touch the meter outside. *)
Lemma kept_with_meter {A} mt (m : M A) : kept (with_meter mt m).
Proof. intros s Hs. unfold ends_within, with_meter. by destruct (m _). Qed.

(** [with_events] hands on the outcome as a value, so the continuation decides
    what happens to a panic: it has to rethrow it. *)
Lemma kept_bind_with_events {A B} (m : M A) (f : outcome A * list Event -> M B) :
  kept m ->
  (forall a em, kept (f (Ret a, em))) -> (forall e em, kept (f (Fail e, em))) ->
  (forall p em, f (Panic p, em) = throw p) ->
  kept (with_events m ≫= f).
Proof.
  intros Hm Hr He Hp s Hs. specialize (Hm (set_events [] s) Hs).
  unfold ends_within, with_events, mbind, M_bind in *.
  destruct (m (set_events [] s)) as [[a|e|p] s']; simpl in *.
  - by apply Hr.
  - by apply He.
  - by rewrite Hp.
Qed.

Section Laws.
Context `{!GasMetersLaws}.

Lemma consume_cases a d s :
  (exists m', consume a d s = (Ret tt, set_meter m' s)
     /\ Limit m' = Limit (meter s) /\ GasConsumed m' = (GasConsumed (meter s) + a)%N
     /\ (GasConsumed m' <= Limit m')%N)
  \/ (exists m' p, consume a d s = (Panic p, set_meter m' s)
     /\ Limit m' = Limit (meter s) /\ (GasConsumed (meter s) <= GasConsumed m')%N
     /\ (p = POutOfGas d /\ (Limit m' < GasConsumed m')%N \/ p = PGasOverflow d)).
Proof.
  unfold consume. destruct (ConsumeGas (meter s) a d) as [m' [p|]] eqn:E.
  - right. apply meter_consume_panic in E. eauto.
  - left. apply meter_consume_ok in E. eauto.
Qed.

Lemma settles_consume a d : settles (consume a d).
Proof.
  intros s. unfold ends_within.
  by destruct (consume_cases a d s) as [(m' & -> & _ & _ & ?)|(m' & p & -> & _)].
Qed.
Lemma kept_consume a d : kept (consume a d).
Proof. apply settles_kept, settles_consume. Qed.

Lemma kept_consume_all cs : kept (consume_all cs).
Proof.
  induction cs as [|[a d] cs IH]; simpl; [apply kept_ret|].
  apply kept_bind; [apply kept_consume|done].
Qed.
Lemma kept_kv_access op : kept (kv_access op).
Proof.
  apply kept_bind; [apply kept_consume_all|]. intros _.
  destruct (kv_fault op) as [[e|p]|]; [apply kept_fail|apply kept_throw|apply kept_ret].
Qed.
Lemma kept_kv_get k : kept (kv_get k).
Proof.
  apply kept_bind; [apply kept_gets|]. intros v.
  apply kept_bind; [apply kept_kv_access|]. intros _. apply kept_ret.
Qed.
Lemma kept_kv_has k : kept (kv_has k).
Proof. apply kept_bind; [apply kept_kv_access|]. intros _. apply kept_gets. Qed.
Lemma kept_kv_set k v : kept (kv_set k v).
Proof. apply kept_bind; [apply kept_kv_access|]. intros _. by apply kept_modify. Qed.
Lemma kept_kv_delete k : kept (kv_delete k).
Proof. apply kept_bind; [apply kept_kv_access|]. intros _. by apply kept_modify. Qed.

Lemma kept_iter_loop {A} l (body : bytes -> bytes -> A -> M (A * bool)) acc :
  (forall k v a, kept (body k v a)) -> kept (iter_loop l body acc).
Proof.
  intros Hb. revert acc. induction l as [|[k v] l IH]; intros acc; simpl; [apply kept_ret|].
  apply kept_bind; [apply Hb|]. intros [a []]; [apply kept_ret|].
  apply kept_bind; [apply kept_must, kept_kv_access|done].
Qed.
Lemma kept_iterate {A} p start stop reverse (body : bytes -> bytes -> A -> M (A * bool)) acc :
  (forall k v a, kept (body k v a)) -> kept (iterate p start stop reverse body acc).
Proof.
  intros Hb. apply kept_bind; [apply kept_gets|]. intros l.
  apply kept_bind; [apply kept_must, kept_kv_access|]. intros _. by apply kept_iter_loop.
Qed.
Lemma kept_run_trace {A} (t : ExtTrace A) : kept (run_trace t).
Proof.
  induction t as [o x|a d x t IH|evs t IH]; simpl.
  - intros s Hs. by destruct o.
  - apply kept_bind; [by apply kept_modify|]. intros _.
    apply kept_bind; [apply kept_consume|done].
  - apply kept_bind; [apply kept_emit|done].
Qed.
Lemma kept_call_ext {A} ctx (op : Ext A) : kept (call_ext ctx op).
Proof. apply kept_bind; [apply kept_gets|]. intros x. apply kept_run_trace. Qed.

End Laws.
End Kept.

#[export] Hint Resolve kept_ret kept_fail kept_throw kept_lift kept_gets kept_check
  kept_guard_err kept_emit kept_with_meter kept_consume kept_consume_all kept_kv_access
  kept_kv_get kept_kv_has kept_kv_set kept_kv_delete kept_call_ext settles_consume : kept.

(** The counterpart of [frame] for [kept] and [settles]. *)
Ltac kept :=
  repeat
    (cbv zeta; cbv beta;
     lazymatch goal with
     | |- forall _, _ => intro
     | |- GasMetersLaws => assumption
     | |- kept (match ?x with _ => _ end) => destruct x
     | |- settles (match ?x with _ => _ end) => destruct x
     | |- kept (with_events _ ≫= _) => apply kept_bind_with_events
     | |- kept (mbind _ _) =>
         first [ solve [eauto 3 with kept nocore]
               | apply kept_bind_settles; [solve [eauto 3 with kept nocore]|]
               | apply kept_bind ]
     | |- settles (mbind _ _) => apply settles_bind
     | |- kept (modify _) => apply kept_modify; reflexivity
     | |- kept (catch _) => apply kept_catch
     | |- kept (map_err _ _) => apply kept_map_err
     | |- kept (wrap_err _ _) => apply kept_map_err
     | |- kept (must _) => apply kept_must
     | |- kept (cached _) => apply kept_cached
     | |- kept (discarded _) => apply kept_discarded
     | |- kept (iterate _ _ _ _ _ _) => apply kept_iterate
     | |- kept (iter_loop _ _ _) => apply kept_iter_loop
     | |- kept (emit_event _ _) => apply kept_emit
     | |- kept _ => solve [eauto with kept]
     | |- settles _ => solve [eauto with kept]
     end).

(** ** Computations that agree *)

Section Agree.
Context `{GasMeters, Modules, KVStorePkg}.

(** The same outcome and the same state from every state that satisfies [P]. *)
Definition agree {A} (P : State -> Prop) (m1 m2 : M A) : Prop :=
  forall s, P s -> m1 s = m2 s.

(** [R] takes states that satisfy [P] to states that satisfy [P]. *)
Class Stable (P : State -> Prop) (R : State -> State -> Prop) : Prop := {
  stable_frame :: StateFrame R;
  stable s s' : R s s' -> P s -> P s';
}.

(** The relation of all states, for agreement everywhere. *)
Definition any_state (s s' : State) : Prop := True.
#[global] Instance any_state_frame : StateFrame any_state.
Proof. split; done. Qed.
#[global] Instance everywhere_stable : Stable (fun _ => True) any_state.
Proof. split; [apply _|done]. Qed.

Lemma agree_refl {A} P (m : M A) : agree P m m.
Proof. by intros s _. Qed.
Lemma agree_weaken {A} (P Q : State -> Prop) (m1 m2 : M A) :
  (forall s, P s -> Q s) -> agree Q m1 m2 -> agree P m1 m2.
Proof. intros HPQ Ha s Hs. by apply Ha, HPQ. Qed.

Lemma agree_bind {A B} P R `{!Stable P R} (m1 m2 : M A) (f1 f2 : A -> M B) :
  agree P m1 m2 -> preserves R m1 -> (forall a, agree P (f1 a) (f2 a)) ->
  agree P (m1 ≫= f1) (m2 ≫= f2).
Proof.
  intros Hm Hp Hf s Hs. unfold mbind, M_bind. rewrite <- (Hm s Hs).
  specialize (Hp s). destruct (m1 s) as [[a|e|p] s']; [|done..].
  apply Hf. by eapply stable.
Qed.

Lemma agree_map_err {A} P f (m1 m2 : M A) :
  agree P m1 m2 -> agree P (map_err f m1) (map_err f m2).
Proof. intros Hm s Hs. unfold map_err. by rewrite (Hm s Hs). Qed.
Lemma agree_catch {A} P (m1 m2 : M A) : agree P m1 m2 -> agree P (catch m1) (catch m2).
Proof. intros Hm s Hs. unfold catch. by rewrite (Hm s Hs). Qed.
Lemma agree_reify {A} P (m1 m2 : M A) : agree P m1 m2 -> agree P (reify m1) (reify m2).
Proof. intros Hm s Hs. unfold reify. by rewrite (Hm s Hs). Qed.
Lemma agree_cached {A} P (m1 m2 : M A) : agree P m1 m2 -> agree P (cached m1) (cached m2).
Proof. intros Hm s Hs. unfold cached. by rewrite (Hm s Hs). Qed.
Lemma agree_discarded {A} P (m1 m2 : M A) :
  agree P m1 m2 -> agree P (discarded m1) (discarded m2).
Proof. intros Hm s Hs. unfold discarded. by rewrite (Hm s Hs). Qed.
Lemma agree_with_events {A} P R `{!Stable P R} (m1 m2 : M A) :
  agree P m1 m2 -> agree P (with_events m1) (with_events m2).
Proof.
  intros Hm s Hs. unfold with_events. rewrite (Hm (set_events [] s)); [done|].
  exact (stable _ _ (sf_events s []) Hs).
Qed.
Lemma agree_with_meter {A} (P Q : State -> Prop) mt (m1 m2 : M A) :
  (forall s, P s -> Q (set_meter mt s)) -> agree Q m1 m2 ->
  agree P (with_meter mt m1) (with_meter mt m2).
Proof. intros HQ Hm s Hs. unfold with_meter. by rewrite (Hm _ (HQ s Hs)). Qed.

End Agree.

(** Walk through two computations in step. *)
Ltac agree :=
  repeat
    (cbv zeta; cbv beta;
     lazymatch goal with
     | |- forall _, _ => intro
     | |- agree _ ?m ?m => apply agree_refl
     | |- agree _ (match ?x with _ => _ end) _ => destruct x
     | |- agree ?P (mbind _ _) (mbind _ _) =>
         eapply (agree_bind P); [typeclasses eauto| |solve [frame; eauto with frame]|]
     | |- agree _ (map_err _ _) _ => apply agree_map_err
     | |- agree _ (wrap_err _ _) _ => apply agree_map_err
     | |- agree _ (catch _) _ => apply agree_catch
     | |- agree _ (reify _) _ => apply agree_reify
     | |- agree _ (cached _) _ => apply agree_cached
     | |- agree _ (discarded _) _ => apply agree_discarded
     | |- agree _ (with_events _) _ => eapply agree_with_events; [typeclasses eauto|]
     | |- agree _ _ _ => solve [eauto]
     end).
