(* ===== verification/Wp.v ===== *)
(** What holds of the wasm store when keeper code returns: weakest
    preconditions over the contents of the store. Failures and panics need no
    postcondition, because a failed message is rolled back. *)
From S2P Require Import Prelude Errors GoStrings Types Keys VMTypes Policy GasRegister Chain Logic.
Open Scope wasm_scope.

Abbreviation kvs := (@gmap bytes list_eq_dec list_countable bytes).

(** Keys that hold no metadata of codes and contracts: the contracts' own
    storage, the transaction counter and the packets to be acknowledged. *)
Definition foreign (k : bytes) : Prop :=
  exists r, k = Byte.x03 :: r \/ k = Byte.x08 :: r \/ k = Byte.x11 :: r.
Definition same_meta (σ σ' : kvs) : Prop := forall k, ~ foreign k -> σ' !! k = σ !! k.

#[global] Instance same_meta_equiv : PreOrder same_meta.
Proof. split; [by intros σ k|]. intros σ1 σ2 σ3 H1 H2 k Hk. rewrite H2, H1; done. Qed.

Section Wp.
Context `{GasMeters, Modules, KVStorePkg}.

(** If [m] returns on a store [σ], then with a value and a store in [Q]. *)
Definition wp {A} (m : M A) (Q : A -> kvs -> Prop) (σ : kvs) : Prop :=
  forall s a s', kv s = σ -> m s = (Ret a, s') -> Q a (kv s').

Definition quiet {A} (m : M A) : Prop := preserves (kv_frame (fun _ => False)) m.
Definition tidy {A} (m : M A) : Prop := preserves (kv_frame foreign) m.

Definition grows {A} (m : M A) : Prop := preserves (kv_grows permanent) m.

Lemma wp_mono {A} (m : M A) (Q Q' : A -> kvs -> Prop) σ :
  wp m Q σ -> (forall a σ', Q a σ' -> Q' a σ') -> wp m Q' σ.
Proof. intros Hm HQ s a s' Hs E. eauto. Qed.

Lemma wp_ret {A} (a : A) (Q : A -> kvs -> Prop) σ : Q a σ -> wp (mret a) Q σ.
Proof. intros HQ s a' s' <- [= <- <-]. done. Qed.
Lemma wp_fail {A} (err : error) (Q : A -> kvs -> Prop) σ : wp (fail err) Q σ.
Proof. by intros s a s' _ [=]. Qed.
Lemma wp_throw {A} (p : panic) (Q : A -> kvs -> Prop) σ : wp (throw p) Q σ.
Proof. by intros s a s' _ [=]. Qed.
Lemma wp_bind {A B} (m : M A) (f : A -> M B) Q σ :
  wp m (fun a => wp (f a) Q) σ -> wp (m ≫= f) Q σ.
Proof.
  intros Hm s b s' Hs E. unfold mbind, M_bind in E.
  destruct (m s) as [[a|e|p] s1] eqn:Em; [|done..]. eapply (Hm s a s1); eauto.
Qed.
Lemma wp_lift {A} (o : outcome A) (Q : A -> kvs -> Prop) σ :
  (forall a, o = Ret a -> Q a σ) -> wp (lift o) Q σ.
Proof. intros HQ s a s' <- [= -> <-]. auto. Qed.
Lemma wp_lift_ret {A} (a : A) (Q : A -> kvs -> Prop) σ : Q a σ -> wp (lift (Ret a)) Q σ.
Proof. apply wp_ret. Qed.
Lemma wp_guard (b : bool) (err : error) (Q : unit -> kvs -> Prop) σ :
  (b = false -> Q tt σ) -> wp (guard_err b err) Q σ.
Proof. intros HQ. destruct b; [apply wp_fail|]. by apply wp_ret, HQ. Qed.
Lemma wp_check (err : option error) (Q : unit -> kvs -> Prop) σ :
  (err = None -> Q tt σ) -> wp (check err) Q σ.
Proof. intros HQ. destruct err; [apply wp_fail|]. by apply wp_ret, HQ. Qed.
Lemma wp_map_err {A} f (m : M A) Q σ : wp m Q σ -> wp (map_err f m) Q σ.
Proof.
  intros Hm s a s' Hs E. unfold map_err in E.
  destruct (m s) as [[] ?] eqn:Em; [|done..]. eapply Hm; eauto. congruence.
Qed.
Lemma wp_wrap_err {A} t (m : M A) Q σ : wp m Q σ -> wp (wrap_err t m) Q σ.
Proof. apply wp_map_err. Qed.
Lemma wp_must {A} (m : M A) Q σ : wp m Q σ -> wp (must m) Q σ.
Proof.
  intros Hm s a s' Hs E. unfold must in E.
  destruct (m s) as [[] ?] eqn:Em; [|done..]. eapply Hm; eauto. congruence.
Qed.

(** *** Code that leaves the store, or its metadata, alone *)

Lemma wp_tidy {A} (m : M A) Q σ :
  tidy m -> (forall a σ', same_meta σ σ' -> Q a σ') -> wp m Q σ.
Proof.
  intros Hm HQ s a s' <- E. apply HQ. intros k Hk. specialize (Hm s k Hk). by rewrite E in Hm.
Qed.
Lemma quiet_kv {A} (m : M A) s : quiet m -> kv (m s).2 = kv s.
Proof. intros Hm. apply map_eq. intros k. by apply (Hm s k); intros []. Qed.
Lemma wp_quiet {A} (m : M A) (Q : A -> kvs -> Prop) σ :
  quiet m -> (forall a, Q a σ) -> wp m Q σ.
Proof.
  intros Hm HQ s a s' <- E. pose proof (quiet_kv m s Hm) as Hk. rewrite E in Hk. simpl in Hk.
  by rewrite Hk.
Qed.
Lemma quiet_tidy {A} (m : M A) : quiet m -> tidy m.
Proof. intros Hm s k Hk. by apply (Hm s k); intros []. Qed.

Lemma quiet_kv_access op : quiet (kv_access op).
Proof. apply preserves_kv_access, _. Qed.

(** *** The store *)

Lemma wp_kv_get (k : bytes) (Q : option bytes -> kvs -> Prop) σ : Q (σ !! k) σ -> wp (kv_get k) Q σ.
Proof.
  intros HQ. apply wp_bind. intros s v s' Hs [= <- <-]. rewrite Hs.
  apply wp_bind, wp_quiet; [apply quiet_kv_access|]. intros _. by apply wp_ret.
Qed.
Lemma wp_gets_kv {A} (g : kvs -> A) (Q : A -> kvs -> Prop) σ :
  Q (g σ) σ -> wp (gets (fun s => g (kv s))) Q σ.
Proof. intros HQ s a s' <- [= <- <-]. done. Qed.
Lemma wp_kv_has (k : bytes) (Q : bool -> kvs -> Prop) σ :
  Q (bool_decide (is_Some (σ !! k))) σ -> wp (kv_has k) Q σ.
Proof.
  intros HQ. apply wp_bind, wp_quiet; [apply quiet_kv_access|]. intros _ s b s' Hs [= <- <-].
  by rewrite Hs.
Qed.
Lemma wp_kv_set (k v : bytes) (Q : unit -> kvs -> Prop) σ : Q tt (<[k := v]> σ) -> wp (kv_set k v) Q σ.
Proof.
  intros HQ. apply wp_bind, wp_quiet; [apply quiet_kv_access|]. intros _ s b s' Hs [= <- <-].
  simpl. by rewrite Hs.
Qed.
Lemma wp_kv_delete (k : bytes) (Q : unit -> kvs -> Prop) σ : Q tt (delete k σ) -> wp (kv_delete k) Q σ.
Proof.
  intros HQ. apply wp_bind, wp_quiet; [apply quiet_kv_access|]. intros _ s b s' Hs [= <- <-].
  simpl. by rewrite Hs.
Qed.

(** A loop that stops at the first key that satisfies [p]. *)
Lemma wp_iter_find {A B} (l : list (bytes * bytes)) (p : bytes -> bool)
    (f : bytes -> bytes -> M B) (g : B -> A) (acc : A) (Q : A -> kvs -> Prop) σ :
  match List.find (fun e => p e.1) l with
  | Some (k, v) => wp (f k v) (fun x => Q (g x)) σ
  | None => Q acc σ
  end ->
  wp (iter_loop l
        (fun k v acc => if p k then x ← f k v; mret (g x, true) else mret (acc, false)) acc) Q σ.
Proof.
  induction l as [|[k v] l IH]; simpl; [apply wp_ret|]. intros HQ. apply wp_bind.
  destruct (p k).
  - apply wp_bind. eapply wp_mono; [exact HQ|]. intros a σ' Ha. by do 2 apply wp_ret.
  - apply wp_ret, wp_bind, wp_must, wp_quiet; [apply quiet_kv_access|]. intros _. auto.
Qed.

(** *** Events and caches *)

Lemma wp_with_events_cached {A} (m : M A) (Q : outcome A * list Event -> kvs -> Prop) σ :
  wp m (fun a σ' => forall em, Q (Ret a, em) σ') σ ->
  (forall o em, (forall a, o <> Ret a) -> Q (o, em) σ) ->
  wp (with_events (cached m)) Q σ.
Proof.
  intros Hm HQ s [o em] s' Hs E. unfold with_events, cached in E.
  destruct (m (set_events [] s)) as [[a|e|p] s1] eqn:Em; simplify_eq/=.
  - by apply (Hm _ _ _ (eq_refl : kv (set_events [] s) = kv s) Em).
  - by apply HQ.
  - by apply HQ.
Qed.
Lemma wp_with_events {A} (m : M A) (Q : outcome A * list Event -> kvs -> Prop) σ :
  wp m (fun a σ' => forall em, Q (Ret a, em) σ') σ ->
  (forall o em σ', (forall a, o <> Ret a) -> Q (o, em) σ') ->
  wp (with_events m) Q σ.
Proof.
  intros Hm HQ s [o em] s' Hs E. unfold with_events in E.
  destruct (m (set_events [] s)) as [[a|e|p] s1] eqn:Em; simplify_eq/=; [|by apply HQ..].
  by apply (Hm _ _ _ (eq_refl : kv (set_events [] s) = kv s) Em).
Qed.
Lemma wp_with_meter {A} mt (m : M A) (Q : outcome A * Meter -> kvs -> Prop) σ :
  wp m (fun a σ' => forall mt', Q (Ret a, mt') σ') σ ->
  (forall o mt' σ', (forall a, o <> Ret a) -> Q (o, mt') σ') ->
  wp (with_meter mt m) Q σ.
Proof.
  intros Hm HQ s [o mt'] s' Hs E. unfold with_meter in E.
  destruct (m (set_meter mt s)) as [[a|e|p] s1] eqn:Em; simplify_eq/=; [|by apply HQ..].
  by apply (Hm _ _ _ (eq_refl : kv (set_meter mt s) = kv s) Em).
Qed.
Lemma wp_reify {A} (m : M A) (Q : outcome A -> kvs -> Prop) σ :
  wp m (fun a => Q (Ret a)) σ -> (forall o σ', (forall a, o <> Ret a) -> Q o σ') ->
  wp (reify m) Q σ.
Proof.
  intros Hm HQ s o s' Hs E. unfold reify in E.
  destruct (m s) as [[a|e|p] s1] eqn:Em; simplify_eq/=; [by eapply Hm|by apply HQ..].
Qed.
(** An outcome that is not a value has no continuation. *)
Lemma wp_lift_other {A} (o : outcome A) (Q : A -> kvs -> Prop) σ :
  (forall a, o <> Ret a) -> wp (lift o) Q σ.
Proof. intros Ho. apply wp_lift. intros a E. by apply Ho in E. Qed.

End Wp.

(** ** The contents of a prefix store *)

#[global] Instance kv_entry_le_total : Total kv_entry_le.
Proof. intros a b. apply (total bytes_le). Qed.
#[global] Instance kv_entry_le_trans : Transitive kv_entry_le.
Proof. intros a b c. apply (transitivity (R := bytes_le)). Qed.

Lemma elem_of_kv_prefixed (σ : kvs) (p k v : bytes) :
  (k, v) ∈ kv_prefixed σ p <-> σ !! (p ++ k) = Some v.
Proof.
  unfold kv_prefixed. rewrite merge_sort_Permutation, list_elem_of_omap. split.
  - intros ([k' v'] & Hin & Hs). apply elem_of_map_to_list in Hin. unfold strip_entry in Hs.
    simpl in Hs. destruct (strip_prefix p k') as [r|] eqn:E; simplify_eq.
    by apply strip_prefix_Some in E as ->.
  - intros Hl. exists (p ++ k, v). split; [by apply elem_of_map_to_list|].
    unfold strip_entry. simpl. by rewrite strip_prefix_app.
Qed.
Lemma kv_iterator_all (σ : kvs) (p : bytes) (reverse : bool) :
  kv_iterator p None None reverse σ
  = if reverse then rev (kv_prefixed σ p) else kv_prefixed σ p.
Proof.
  unfold kv_iterator. assert (forall l : list (bytes * bytes),
    filter (fun e => in_bounds None None e.1 = true) l = l) as ->; [|done].
  intros l. induction l as [|e l IH]; [done|]. by rewrite filter_cons_True, IH.
Qed.

Lemma find_app {A} (P : A -> bool) l1 l2 :
  List.find P (l1 ++ l2) = match List.find P l1 with Some x => Some x | None => List.find P l2 end.
Proof. induction l1 as [|x l1 IH]; simpl; [done|]. by destruct (P x). Qed.
(** The first match in a list that is sorted downwards is the greatest. *)
Lemma find_rev_greatest {A} (R : relation A) `{!Transitive R} (P : A -> bool) l x :
  StronglySorted R l -> List.find P (rev l) = Some x ->
  x ∈ l /\ P x = true /\ forall y, y ∈ l -> P y = true -> y = x \/ R y x.
Proof.
  intros Hs Hf. pose proof (find_some _ _ Hf) as [Hin HP].
  rewrite <- In_rev in Hin. apply list_elem_of_In in Hin. split_and!; [done..|].
  clear Hin HP. induction Hs as [|z l Hs IH Hz]; [done|]. simpl in Hf.
  intros y Hy HPy. rewrite find_app in Hf.
  destruct (List.find P (rev l)) as [w|] eqn:E.
  - simplify_eq. apply elem_of_cons in Hy as [->|Hy]; [|auto]. right.
    apply find_some in E as [E _]. rewrite <- In_rev in E. rewrite Forall_forall in Hz.
    apply Hz. by apply list_elem_of_In.
  - apply elem_of_cons in Hy as [->|Hy].
    + simpl in Hf. rewrite HPy in Hf. left. congruence.
    + apply list_elem_of_In, in_rev in Hy. by rewrite (find_none _ _ E _ Hy) in HPy.
Qed.

(** Searching the entries under a prefix from the end: the match with the
    greatest key. *)
Lemma find_last_entry (σ : kvs) (p : bytes) (P : bytes -> bool) :
  match List.find (fun e => P e.1) (kv_iterator p None None true σ) with
  | Some (k, v) =>
      σ !! (p ++ k) = Some v /\ P k = true
      /\ forall k' v', σ !! (p ++ k') = Some v' -> P k' = true -> bytes_le k' k
  | None => forall k v, σ !! (p ++ k) = Some v -> P k = false
  end.
Proof.
  rewrite kv_iterator_all. destruct (List.find _ _) as [[k v]|] eqn:E.
  - apply (find_rev_greatest kv_entry_le) in E as (Hin & HP & Hmax);
      [|apply (StronglySorted_merge_sort _)].
    split_and!; [by apply elem_of_kv_prefixed|done|]. intros k' v' Hl HP'.
    apply elem_of_kv_prefixed in Hl. destruct (Hmax _ Hl HP') as [[= -> ->]|]; done.
  - intros k v Hl. apply elem_of_kv_prefixed, list_elem_of_In, in_rev in Hl.
    by apply (find_none _ _ E) in Hl.
Qed.

Create HintDb wp.
#[export] Hint Resolve quiet_kv_access : wp.

(** One step of a symbolic execution; [quiet] and [tidy] parts are left to the
    hint databases. *)
Ltac wp_step :=
  cbv zeta; cbv beta;
  lazymatch goal with
  | |- wp (mbind _ _) _ _ => apply wp_bind
  | |- wp (mret _) _ _ => apply wp_ret
  | |- wp (fail _) _ _ => apply wp_fail
  | |- wp (throw _) _ _ => apply wp_throw
  | |- wp (lift _) _ _ => apply wp_lift; intros ? ?
  | |- wp (guard_err _ _) _ _ => apply wp_guard; intros ?
  | |- wp (check _) _ _ => apply wp_check; intros ?
  | |- wp (must _) _ _ => apply wp_must
  | |- wp (map_err _ _) _ _ => apply wp_map_err
  | |- wp (wrap_err _ _) _ _ => apply wp_wrap_err
  | |- wp (emit _) _ _ => apply wp_quiet; [unfold quiet; frame|intros _]
  | |- wp (emit_event _ _) _ _ => apply wp_quiet; [unfold quiet; frame|intros _]
  | |- wp (consume _ _) _ _ => apply wp_quiet; [unfold quiet; frame|intros _]
  | |- wp (call_ext _ _) _ _ => apply wp_quiet; [unfold quiet; frame|intros ?]
  | |- wp (gets _) _ _ => apply wp_quiet; [unfold quiet; frame|intros ?]
  end.
