(* ===== verification/Engine.v ===== *)
(** The Go side of the virtual machine (wasmvm): iterator frames
    (internal/api/iterator.go), the callbacks a running contract makes into Go
    (internal/api/callbacks.go), the calls of lib_libwasmvm.go, the address
    functions of x/wasm/keeper/api.go and the query handler of
    x/wasm/keeper/query_plugins.go. A call into libwasmvm is an arbitrary
    program over the callbacks here; Bindings.v and RustVM.v model the
    library. *)
From S2P Require Import Prelude Errors GoStrings Types Keys VMTypes Policy GasRegister Chain Logic.
Import GoStrings.
Open Scope wasm_scope.

(** ** Iterator frames *)

Module Iterators.

Definition MaxInt32 : N := 2147483647.
Definition frameLenLimit : N := 32768.

(** An iterator is what is left of it. *)
Abbreviation Iterator := (list (bytes * bytes)).
Abbreviation frame := (list Iterator).
Abbreviation frames := (gmap N frame).

Definition iteratorIdToIndex (id : N) : option nat :=
  if (id <? 1)%N || (MaxInt32 <? id)%N then None else Some (N.to_nat id - 1).
Definition indexToIteratorID (index : nat) : option N :=
  if (MaxInt32 <? N.of_nat index)%N then None else Some (N.of_nat index + 1)%N.

Definition frame_of (fs : frames) (callID : N) : frame := default [] (fs !! callID).

(** startCall: the next call id from the global counter. *)
Definition startCall (latestCallID : N) : N := add64 latestCallID 1.
Definition removeFrame (fs : frames) (callID : N) : frame * frames :=
  (frame_of fs callID, delete callID fs).
Definition endCall (fs : frames) (callID : N) : frames := (removeFrame fs callID).2.

Definition storeIterator (fs : frames) (callID : N) (it : Iterator) (limit : N)
    : (N + string) * frames :=
  let new_index := length (frame_of fs callID) in
  if (limit <=? N.of_nat new_index)%N
  then (inr (String.append "Reached iterator limit ("
               (String.append (pretty limit) ")")), fs)
  else
    let fs := <[callID := frame_of fs callID ++ [it]]> fs in
    match indexToIteratorID new_index with
    | Some iterator_id => (inl iterator_id, fs)
    | None => (inr "could not convert index to iterator ID", fs)
    end.

Definition retrieveIterator (fs : frames) (callID iteratorID : N) : option Iterator :=
  index ← iteratorIdToIndex iteratorID; frame_of fs callID !! index.

(** Advancing an iterator object, which the frame holds a reference to. *)
Definition advance (fs : frames) (callID iteratorID : N) : frames :=
  match iteratorIdToIndex iteratorID with
  | Some i => <[callID := alter tail i (frame_of fs callID)]> fs
  | None => fs
  end.

Lemma frame_of_insert fs c f : frame_of (<[c := f]> fs) c = f.
Proof. unfold frame_of. by rewrite lookup_insert_eq. Qed.

Lemma frame_of_insert_ne fs c c' f : c <> c' -> frame_of (<[c := f]> fs) c' = frame_of fs c'.
Proof. intros. unfold frame_of. by rewrite lookup_insert_ne. Qed.

(** Within the frame limit a stored iterator is found again under the id
    returned for it, and storing it disturbs no iterator stored before, of
    this call or of another one. *)
Theorem storeIterator_retrieve fs c it id fs' :
  storeIterator fs c it frameLenLimit = (inl id, fs') ->
  retrieveIterator fs' c id = Some it
  /\ (forall id' it', retrieveIterator fs c id' = Some it' ->
        retrieveIterator fs' c id' = Some it')
  /\ (forall c' id', c' <> c ->
        retrieveIterator fs' c' id' = retrieveIterator fs c' id').
Proof.
  unfold storeIterator.
  destruct (N.leb_spec frameLenLimit (N.of_nat (length (frame_of fs c)))) as [|Hlt]; [done|].
  unfold indexToIteratorID.
  destruct (N.ltb_spec MaxInt32 (N.of_nat (length (frame_of fs c)))) as [|Hm]; [done|].
  intros [= <- <-]. unfold retrieveIterator. split_and!.
  - unfold iteratorIdToIndex.
    assert (N.of_nat (length (frame_of fs c)) < MaxInt32)%N
      by (unfold frameLenLimit, MaxInt32 in *; lia).
    destruct (N.ltb_spec (N.of_nat (length (frame_of fs c)) + 1) 1); [lia|].
    destruct (N.ltb_spec MaxInt32 (N.of_nat (length (frame_of fs c)) + 1)); [lia|].
    simpl. rewrite frame_of_insert.
    replace (_ - 1) with (length (frame_of fs c)) by lia.
    by rewrite lookup_app_r, Nat.sub_diag.
  - intros id' it'. destruct (iteratorIdToIndex id') as [i|]; [simpl|done].
    rewrite frame_of_insert. apply lookup_app_l_Some.
  - intros c' id' Hc. by rewrite frame_of_insert_ne.
Qed.

Lemma storeIterator_retrieve_witness :
  retrieveIterator (<[7%N := [[]; [([], [])]]]> ∅) 7 2 = Some [([], [])].
Proof.
  exact (proj1 (storeIterator_retrieve {[7%N := [[]]]} 7 [([], [])] 2
    (<[7%N := [[]; [([], [])]]]> {[7%N := [[]]]}) eq_refl)).
Defined.

(** Ending a call removes every iterator of that call and of no other. *)
Theorem endCall_scope fs c c' id :
  retrieveIterator (endCall fs c) c' id
  = if decide (c' = c) then None else retrieveIterator fs c' id.
Proof.
  unfold retrieveIterator, endCall, removeFrame, frame_of. simpl.
  destruct (iteratorIdToIndex id); simpl; [|by destruct (decide _)].
  destruct (decide (c' = c)) as [->|].
  - by rewrite lookup_delete_eq.
  - by rewrite lookup_delete_ne.
Qed.

(** The two conversions disagree at one point: an index of MaxInt32 gets an
    id that is not accepted back. The frame limit keeps it out of reach. *)
Lemma iterator_id_limit :
  indexToIteratorID (N.to_nat MaxInt32) = Some 2147483648%N
  /\ iteratorIdToIndex 2147483648 = None.
Proof. split; [|done]. unfold indexToIteratorID. by rewrite N2Nat.id. Qed.

End Iterators.

(** ** Queries as the VM sees them (wasmvm/types/queries.go) *)

Record QueryResult := mkQueryResult { QR_Ok : bytes; QR_Err : string }.
Record QuerierResult := mkQuerierResult {
  Querier_Ok : option QueryResult; Querier_Err : option SystemError }.

Definition ToQuerierResult `{ErrorsMod} (r : bytes + error) : QuerierResult :=
  match r with
  | inl response => mkQuerierResult (Some (mkQueryResult response "")) None
  | inr err =>
      match ToSystemError err with
      | Some syserr => mkQuerierResult None (Some syserr)
      | None => mkQuerierResult (Some (mkQueryResult [] (error_string err))) None
      end
  end.

(** ** The callbacks and the programs that use them *)

Inductive GoError :=
| GoError_None | GoError_Panic | GoError_BadArgument | GoError_OutOfGas
| GoError_CannotSerialize | GoError_User.

(** What libwasmvm does while it executes an entry point: callbacks, each
    answered with a status, the gas it used, its result and, where the Go code
    may set one, an error message, and in the end its result with the gas
    report. *)
Inductive Prog (R : Type) :=
| VDone (res : R) (report : GasReport)
| VGet (k : bytes) (c : GoError -> N -> option bytes -> Prog R)
| VSet (k v : bytes) (c : GoError -> N -> Prog R)
| VDelete (k : bytes) (c : GoError -> N -> Prog R)
| VScan (start stop : option bytes) (order : Z) (c : GoError -> N -> N -> option bytes -> Prog R)
| VNext (id : N) (c : GoError -> N -> option (bytes * bytes) -> Prog R)
| VNextKey (id : N) (c : GoError -> N -> option bytes -> Prog R)
| VNextValue (id : N) (c : GoError -> N -> option bytes -> Prog R)
| VHumanize (canon : bytes) (c : GoError -> N -> option bytes -> option bytes -> Prog R)
| VCanonicalize (human : string) (c : GoError -> N -> option bytes -> option bytes -> Prog R)
| VValidate (human : string) (c : GoError -> N -> option bytes -> Prog R)
| VQuery (req : bytes) (gasLimit : N) (c : GoError -> N -> option QuerierResult -> Prog R).
Arguments VDone {_}.
Arguments VGet {_}.
Arguments VSet {_}.
Arguments VDelete {_}.
Arguments VScan {_}.
Arguments VNext {_}.
Arguments VNextKey {_}.
Arguments VNextValue {_}.
Arguments VHumanize {_}.
Arguments VCanonicalize {_}.
Arguments VValidate {_}.
Arguments VQuery {_}.
(** As the VM sees it, the result is the serialized response or an error
    text. *)
Abbreviation VMProg := (Prog (bytes + string)).

(** *** Address functions (x/wasm/keeper/api.go) *)

Definition DefaultGasCostHumanAddress : N := 5.
Definition DefaultGasCostCanonicalAddress : N := 4.
Definition DefaultGasCostValidateAddress : N :=
  DefaultGasCostHumanAddress + DefaultGasCostCanonicalAddress.
Definition costHumanize : N := DefaultGasCostHumanAddress * GasRegister.DefaultGasMultiplier.
Definition costCanonical : N :=
  DefaultGasCostCanonicalAddress * GasRegister.DefaultGasMultiplier.
Definition costValidate : N :=
  DefaultGasCostValidateAddress * GasRegister.DefaultGasMultiplier.
Definition costJSONDeserialization : GasRegister.UFraction :=
  GasRegister.mkUFraction (1 * GasRegister.DefaultGasMultiplier) 1.

Definition humanizeAddress `{Bech32} (canon : bytes) : (string + error) * N :=
  match VerifyAddressFormat canon with
  | Some err => (inr err, costHumanize)
  | None => (inl (AccAddress_String canon), costHumanize)
  end.
Definition canonicalizeAddress `{Bech32} (human : string) : (bytes + error) * N :=
  (AccAddressFromBech32 human, costCanonical).
Definition validateAddress `{Bech32} (human : string) : option error * N :=
  match AccAddressFromBech32 human with
  | inr err => (Some err, costValidate)
  | inl canonicalized =>
      if decide (AccAddress_String canonicalized = human) then (None, costValidate)
      else (Some (EText "address not normalized"), costValidate)
  end.

(** An address a contract has validated converts to canonical form and
    back to itself. *)
Theorem validateAddress_roundtrip `{Bech32Laws} human gas :
  validateAddress human = (None, gas) ->
  exists canon, canonicalizeAddress human = (inl canon, costCanonical)
  /\ humanizeAddress canon = (inl human, costHumanize).
Proof.
  unfold validateAddress, canonicalizeAddress, humanizeAddress.
  destruct (AccAddressFromBech32 human) as [canon|] eqn:E; [|done].
  destruct (decide _) as [Hn|]; [|done]. intros _. exists canon. split; [done|].
  by rewrite (bech32_valid _ _ E), Hn.
Qed.

(** The meters of a call. The keeper hands the VM a wasmvm.GasMeter for the
    store callbacks, which is its MultipliedGasMeter or the context's meter as
    it is; the query handler has the keeper's gas register for its own. *)
Inductive VMGasMeter :=
| MultipliedGasMeter (gr : GasRegister.WasmGasRegisterConfig)
| ContextGasMeter.
Record CallMeters := mkCallMeters {
  gas_meter : VMGasMeter;
  querier_register : GasRegister.WasmGasRegisterConfig;
}.

Section Callbacks.
Context `{GasMeters, Modules, KVStorePkg, Bech32, ErrorsMod}.
Context (gm : CallMeters).
(** the contract's prefix store and its querier (types.RustQuery) *)
Context (prefix : bytes) (rust_query : bytes -> N -> M QuerierResult).

(** recoverPanic on a callback body; running out of the model's recursion
    bound is not a Go panic and is passed on. *)
Definition recoverPanic {A} (body : M A) : M (GoError * option A) :=
  o ← reify body;
  match o with
  | Ret a => mret (GoError_None, Some a)
  | Panic PFuel => throw PFuel
  | Panic (POutOfGas _) => mret (GoError_OutOfGas, None)
  | Panic _ | Fail _ => mret (GoError_Panic, None)
  end.

(** GasConsumed of the meter; that of QueryHandler multiplies too. *)
Definition gm_GasConsumed (g : VMGasMeter) : M N :=
  m ← gets meter;
  match g with
  | MultipliedGasMeter gr => lift (GasRegister.ToWasmVMGas gr (GasConsumed m))
  | ContextGasMeter => mret (GasConsumed m)
  end.

(** [gasBefore ...; gasAfter ...; *usedGas = gasAfter - gasBefore] *)
Definition measured {A} (g : VMGasMeter) (body : M A) : M (N * A) :=
  gasBefore ← gm_GasConsumed g;
  a ← body;
  gasAfter ← gm_GasConsumed g;
  mret (sub64 gasAfter gasBefore, a).
Definition metered {A} (body : M A) : M (N * A) := measured (gas_meter gm) body.

Definition cGet (k : bytes) : M (N * option bytes) :=
  metered (must (kv_get (prefix ++ k))).
Definition cSet (k v : bytes) : M (N * unit) :=
  metered (must (kv_set (prefix ++ k) v)).
Definition cDelete (k : bytes) : M (N * unit) :=
  metered (must (kv_delete (prefix ++ k))).

Definition open_iterator (start stop : option bytes) (reverse : bool)
    : M (list (bytes * bytes)) :=
  l ← gets (fun s => kv_iterator prefix start stop reverse (kv s));
  _ ← must (kv_access (OpSeek (head l)));
  mret l.

(** The status comes first: an unknown order is GoError_BadArgument, a full
    frame GoError_User with a message. *)
Definition cScan (fr : Iterators.frames) (callID : N) (start stop : option bytes)
    (order : Z) : M (GoError * N * N * option bytes * Iterators.frames) :=
  if (order =? 1)%Z || (order =? 2)%Z then
    '(used, it) ← metered (open_iterator start stop (order =? 2)%Z);
    match Iterators.storeIterator fr callID it Iterators.frameLenLimit with
    | (inl id, fr') => mret (GoError_None, used, id, None, fr')
    | (inr err, fr') => mret (GoError_User, used, 0%N, Some (bytes_of_string err), fr')
    end
  else mret (GoError_BadArgument, 0%N, 0%N, None, fr).

(** cNext and nextPart: the current entry, then iter.Next(). *)
Definition next_entry (fr : Iterators.frames) (callID id : N)
    : M (N * option (bytes * bytes) * Iterators.frames) :=
  match Iterators.retrieveIterator fr callID id with
  | None => throw (PText "Unable to retrieve iterator.")
  | Some [] => mret (0%N, None, fr)
  | Some (e :: _) =>
      '(used, _) ← metered (must (kv_access (OpSeek (Some e))));
      mret (used, Some e, Iterators.advance fr callID id)
  end.

Definition cQueryExternal (req : bytes) (gasLimit : N) : M (N * QuerierResult) :=
  measured (MultipliedGasMeter (querier_register gm)) (rust_query req gasLimit).

(** cHumanizeAddress, cCanonicalizeAddress, cValidateAddress: the status, the
    gas, the destination where there is one, and the error message. The panic
    on an empty result comes after the gas was reported. *)
Definition error_text (err : error) : option bytes := Some (bytes_of_string (error_string err)).
Definition cHumanizeAddress (canon : bytes) : M (GoError * N * option bytes * option bytes) :=
  match humanizeAddress canon with
  | (inl h, cost) =>
      if decide (h = ""%string) then mret (GoError_Panic, cost, None, None)
      else mret (GoError_None, cost, Some (bytes_of_string h), None)
  | (inr err, cost) => mret (GoError_User, cost, None, error_text err)
  end.
Definition cCanonicalizeAddress (human : string) : M (GoError * N * option bytes * option bytes) :=
  match canonicalizeAddress human with
  | (inl c, cost) =>
      if decide (c = []) then mret (GoError_Panic, cost, None, None)
      else mret (GoError_None, cost, Some c, None)
  | (inr err, cost) => mret (GoError_User, cost, None, error_text err)
  end.
Definition cValidateAddress (human : string) : M (GoError * N * option bytes) :=
  match validateAddress human with
  | (None, cost) => mret (GoError_None, cost, None)
  | (Some err, cost) => mret (GoError_User, cost, error_text err)
  end.

(** Executing a program: every callback runs under recoverPanic, and a
    callback that panics reports no gas and no result. *)
Fixpoint run_prog {R} (fr : Iterators.frames) (callID : N) (p : Prog R)
    : M (R * GasReport) :=
  match p with
  | VDone res report => mret (res, report)
  | VGet k c =>
      '(e, r) ← recoverPanic (cGet k);
      match r with
      | Some (used, v) => run_prog fr callID (c e used v)
      | None => run_prog fr callID (c e 0%N None)
      end
  | VSet k v c =>
      '(e, r) ← recoverPanic (cSet k v);
      run_prog fr callID (c e (match r with Some (used, _) => used | None => 0%N end))
  | VDelete k c =>
      '(e, r) ← recoverPanic (cDelete k);
      run_prog fr callID (c e (match r with Some (used, _) => used | None => 0%N end))
  | VScan start stop order c =>
      '(e, r) ← recoverPanic (cScan fr callID start stop order);
      match r with
      | Some (e', used, id, err, fr') => run_prog fr' callID (c e' used id err)
      | None => run_prog fr callID (c e 0%N 0%N None)
      end
  | VNext id c =>
      '(e, r) ← recoverPanic (next_entry fr callID id);
      match r with
      | Some (used, kv, fr') => run_prog fr' callID (c e used kv)
      | None => run_prog fr callID (c e 0%N None)
      end
  | VNextKey id c =>
      '(e, r) ← recoverPanic (next_entry fr callID id);
      match r with
      | Some (used, kv, fr') => run_prog fr' callID (c e used (fst <$> kv))
      | None => run_prog fr callID (c e 0%N None)
      end
  | VNextValue id c =>
      '(e, r) ← recoverPanic (next_entry fr callID id);
      match r with
      | Some (used, kv, fr') => run_prog fr' callID (c e used (snd <$> kv))
      | None => run_prog fr callID (c e 0%N None)
      end
  | VHumanize canon c =>
      '(e, r) ← recoverPanic (cHumanizeAddress canon);
      match r with
      | Some (e', used, h, err) => run_prog fr callID (c e' used h err)
      | None => run_prog fr callID (c e 0%N None None)
      end
  | VCanonicalize human c =>
      '(e, r) ← recoverPanic (cCanonicalizeAddress human);
      match r with
      | Some (e', used, b, err) => run_prog fr callID (c e' used b err)
      | None => run_prog fr callID (c e 0%N None None)
      end
  | VValidate human c =>
      '(e, r) ← recoverPanic (cValidateAddress human);
      match r with
      | Some (e', used, err) => run_prog fr callID (c e' used err)
      | None => run_prog fr callID (c e 0%N None)
      end
  | VQuery req gasLimit c =>
      '(e, r) ← recoverPanic (cQueryExternal req gasLimit);
      match r with
      | Some (used, res) => run_prog fr callID (c e used (Some res))
      | None => run_prog fr callID (c e 0%N None)
      end
  end.

(** A call into the VM: it gets a fresh frame for its iterators. *)
Definition vm_call {R} (p : Prog R) : M (R * GasReport) :=
  run_prog ∅ 1 p.

End Callbacks.

(** ** The calls of lib_libwasmvm.go *)

(** libwasmvm: code storage with its cache and the entry points, each an
    arbitrary program over the callbacks, and the decoding of the JSON
    responses into the Go types. *)
Class WasmEngine `{Modules} := {
  api_StoreCode : VMState -> bytes -> (bytes + string) * VMState;
  api_StoreCodeUnchecked : VMState -> bytes -> (bytes + string) * VMState;
  api_GetCode : VMState -> bytes -> bytes + string;
  api_AnalyzeCode : VMState -> bytes -> AnalysisReport + string;
  api_Pin : VMState -> bytes -> option string * VMState;
  api_Unpin : VMState -> bytes -> option string * VMState;
  api_Instantiate : VMState -> bytes -> Env -> MessageInfo -> bytes -> N -> VMProg;
  api_Execute : VMState -> bytes -> Env -> MessageInfo -> bytes -> N -> VMProg;
  api_MigrateWithInfo : VMState -> bytes -> Env -> bytes -> MigrateInfo -> N -> VMProg;
  api_Sudo : VMState -> bytes -> Env -> bytes -> N -> VMProg;
  api_Reply : VMState -> bytes -> Env -> Reply -> N -> VMProg;
  api_Query : VMState -> bytes -> Env -> bytes -> N -> VMProg;
  json_ContractResult : bytes -> ContractResult + string;
  json_QueryResult : bytes -> QueryResult + string;
}.

Definition CostPerByte : N := 3 * 140000.
Definition compileCost (code : bytes) : N := mul64 CostPerByte (blen code).

Definition ReplyPayloadMaxBytes : N := 128 * 1024.

Definition payload_error (i : nat) (len : N) : string :=
  String.append "reply contains submessage at index "
    (String.append (pretty (N.of_nat i))
      (String.append " with payload larger than "
        (String.append (pretty ReplyPayloadMaxBytes)
          (String.append " bytes: " (String.append (pretty len) " bytes"))))).
Fixpoint check_payloads (i : nat) (msgs : list SubMsg) : option string :=
  match msgs with
  | [] => None
  | m :: msgs' =>
      if (ReplyPayloadMaxBytes <? blen (Payload m))%N
      then Some (payload_error i (blen (Payload m)))
      else check_payloads (S i) msgs'
  end.

(** DeserializeResponse: the decoded response or the error text, and the gas
    used internally, which grows by the cost of decoding unless the limit
    forbids it. *)
Definition DeserializeResponse {A} (gasLimit : N) (deserCost : GasRegister.UFraction)
    (gasReport : GasReport) (data : bytes) (decode : bytes -> A + string)
    (subMessages : A -> list SubMsg) : outcome ((A + string) * N) :=
  obind (GasRegister.UFraction_Floor (GasRegister.UFraction_Mul deserCost (blen data)))
    (fun gasForDeserialization =>
  if (gasLimit <? add64 gasForDeserialization (UsedInternally gasReport))%N
  then Ret (inr (String.append
         "Insufficient gas left to deserialize contract execution result ("
         (String.append (pretty (blen data)) " bytes)")), UsedInternally gasReport)
  else
    let used := add64 (UsedInternally gasReport) gasForDeserialization in
    match decode data with
    | inr err => Ret (inr err, used)
    | inl response =>
        match check_payloads 0 (subMessages response) with
        | Some err => Ret (inr err, used)
        | None => Ret (inl response, used)
        end
    end).

Section VMCalls.
Context `{GasMeters, Modules, KVStorePkg, Bech32, ErrorsMod}.
Context `{!WasmEngine}.
Context (gm : CallMeters).
Context (rust_query : bytes -> N -> M QuerierResult).

(** VM.StoreCode *)
Definition VM_StoreCode (code : bytes) (gasLimit : N) : M ((bytes + string) * N) :=
  let gasCost := compileCost code in
  if (gasLimit <? gasCost)%N then mret (inr "Out of gas"%string, gasCost)
  else
    v ← gets vm;
    let '(r, v') := api_StoreCode v code in
    _ ← modify (set_vm v'); mret (r, gasCost).
Definition VM_StoreCodeUnchecked (code : bytes) : M (bytes + string) :=
  v ← gets vm;
  let '(r, v') := api_StoreCodeUnchecked v code in
  _ ← modify (set_vm v'); mret r.
Definition VM_GetCode (checksum : bytes) : M (bytes + string) :=
  v ← gets vm; mret (api_GetCode v checksum).
Definition VM_AnalyzeCode (checksum : bytes) : M (AnalysisReport + string) :=
  v ← gets vm; mret (api_AnalyzeCode v checksum).
Definition VM_Pin (checksum : bytes) : M (option string) :=
  v ← gets vm;
  let '(r, v') := api_Pin v checksum in _ ← modify (set_vm v'); mret r.
Definition VM_Unpin (checksum : bytes) : M (option string) :=
  v ← gets vm;
  let '(r, v') := api_Unpin v checksum in _ ← modify (set_vm v'); mret r.

(** The common part of VM.Instantiate, Execute, MigrateWithInfo, Sudo, Reply
    and Query: run the program against the store with the given prefix, then
    deserialize. *)
Definition vm_entry {A} (prefix : bytes) (prog : VMState -> VMProg) (gasLimit : N)
    (decode : bytes -> A + string) (subMessages : A -> list SubMsg)
    : M ((A + string) * N) :=
  v ← gets vm;
  '(res, report) ← vm_call gm prefix rust_query (prog v);
  match res with
  | inr err => mret (inr err, UsedInternally report)
  | inl data =>
      lift (DeserializeResponse gasLimit costJSONDeserialization report data
              decode subMessages)
  end.

Definition VM_Instantiate prefix checksum env info msg gasLimit :=
  vm_entry prefix (fun v => api_Instantiate v checksum env info msg gasLimit) gasLimit
    json_ContractResult ContractResult_SubMessages.
Definition VM_Execute prefix checksum env info msg gasLimit :=
  vm_entry prefix (fun v => api_Execute v checksum env info msg gasLimit) gasLimit
    json_ContractResult ContractResult_SubMessages.
Definition VM_MigrateWithInfo prefix checksum env msg info gasLimit :=
  vm_entry prefix (fun v => api_MigrateWithInfo v checksum env msg info gasLimit) gasLimit
    json_ContractResult ContractResult_SubMessages.
Definition VM_Sudo prefix checksum env msg gasLimit :=
  vm_entry prefix (fun v => api_Sudo v checksum env msg gasLimit) gasLimit
    json_ContractResult ContractResult_SubMessages.
Definition VM_Reply prefix checksum env reply gasLimit :=
  vm_entry prefix (fun v => api_Reply v checksum env reply gasLimit) gasLimit
    json_ContractResult ContractResult_SubMessages.
Definition VM_Query prefix checksum env msg gasLimit :=
  vm_entry prefix (fun v => api_Query v checksum env msg gasLimit) gasLimit
    json_QueryResult (fun _ => []).

End VMCalls.

(** ** The query handler (x/wasm/keeper/query_plugins.go) *)

Section QueryHandler.
Context `{GasMeters, Modules, KVStorePkg, Bech32, ErrorsMod}.
Context (gr : GasRegister.WasmGasRegisterConfig).
(** decoding of the JSON request, and the plugins *)
Context (json_QueryRequest : bytes -> QueryRequest + string).
Context (HandleQuery : Context -> bytes -> QueryRequest -> M bytes).

(** errors.As(err, &wasmvmErr), then the redaction. *)
Definition query_error (err : error) : error :=
  redactError (match asWasmVMError err with Some err' => err' | None => err end).

(** QueryHandler.Query: the query runs on a branch of the state that is thrown
    away, under a gas meter of its own, and what it consumed is charged to the
    caller even when it panics. *)
Definition Query (ctx : Context) (caller : bytes) (request : QueryRequest)
    (gasLimit : N) : M (bytes + error) :=
  sdkGas ← lift (GasRegister.FromWasmVMGas gr gasLimit);
  '(o, sub) ← with_meter (NewGasMeter sdkGas)
                (discarded (HandleQuery ctx caller request));
  match o with
  | Panic PFuel => throw PFuel
  | _ =>
      _ ← consume (GasConsumed sub) "contract sub-query";
      match o with
      | Ret res => mret (inl res)
      | Fail err => mret (inr (query_error err))
      | Panic p => throw p
      end
  end.

(** types.RustQuery *)
Definition RustQuery (ctx : Context) (caller : bytes) (binRequest : bytes)
    (gasLimit : N) : M QuerierResult :=
  match json_QueryRequest binRequest with
  | inr err =>
      mret (mkQuerierResult None
        (ToSystemError (EVariant (InvalidRequest err binRequest))))
  | inl request => r ← Query ctx caller request gasLimit; mret (ToQuerierResult r)
  end.

End QueryHandler.

(** ** What a contract call can do to the store *)

Section Frames.
Context `{GasMeters, Modules, KVStorePkg, Bech32, ErrorsMod}.
Context (gm : CallMeters).
Context (R : State -> State -> Prop) `{!StateFrame R}.

Lemma preserves_recoverPanic {A} (body : M A) :
  preserves R body -> preserves R (recoverPanic body).
Proof. unfold recoverPanic. intros. frame. Qed.

Lemma preserves_measured {A} g (body : M A) :
  preserves R body -> preserves R (measured g body).
Proof. unfold measured, gm_GasConsumed. intros. frame. Qed.
Lemma preserves_metered {A} (body : M A) :
  preserves R body -> preserves R (metered gm body).
Proof. apply preserves_measured. Qed.

Section Prog.
Context (prefix : bytes) (rust_query : bytes -> N -> M QuerierResult).
Hypothesis prefix_touch : forall k, touch R (prefix ++ k).
Hypothesis query_preserves : forall req g, preserves R (rust_query req g).

Lemma preserves_next_entry fr c id : preserves R (next_entry gm fr c id).
Proof.
  unfold next_entry. frame. apply preserves_metered. frame.
Qed.

Lemma preserves_cScan fr c start stop order :
  preserves R (cScan gm prefix fr c start stop order).
Proof.
  unfold cScan, open_iterator. frame. apply preserves_metered. frame.
Qed.

Lemma preserves_run_prog {T} (p : Prog T) fr c : preserves R (run_prog gm prefix rust_query fr c p).
Proof.
  revert fr. induction p; intros fr; cbn [run_prog]; [frame|..];
    (refine (preserves_bind R _ _ _ _); [apply preserves_recoverPanic|
       intros [e r]; frame; auto]).
  all: try (unfold cGet, cSet, cDelete; apply preserves_metered; frame; auto).
  all: try (unfold cQueryExternal; apply preserves_measured; auto).
  all: try (unfold cHumanizeAddress, cCanonicalizeAddress, cValidateAddress; frame).
  - apply preserves_cScan.
  - apply preserves_next_entry.
  - apply preserves_next_entry.
  - apply preserves_next_entry.
Qed.

Lemma preserves_vm_entry {A} prog gasLimit decode subMessages :
  preserves R (vm_entry (A := A) gm rust_query prefix prog gasLimit decode subMessages).
Proof. unfold vm_entry, vm_call. frame. apply preserves_run_prog. Qed.

End Prog.
End Frames.

Section Isolation.
Context `{GasMeters, Modules, KVStorePkg, Bech32, ErrorsMod}.
Context (gr : GasRegister.WasmGasRegisterConfig).
Context (json_QueryRequest : bytes -> QueryRequest + string).
Context (HandleQuery : Context -> bytes -> QueryRequest -> M bytes).

(** A query leaves the store as it is, even when the plugin that answers it
    writes to the store. *)
Lemma RustQuery_kv P ctx caller req gasLimit :
  preserves (kv_frame P) (RustQuery gr json_QueryRequest HandleQuery ctx caller req gasLimit).
Proof.
  unfold RustQuery, Query. destruct (json_QueryRequest req) as [r|]; [|frame].
  frame.
Qed.

Lemma RustQuery_preserves R `{!StateFrame R} ctx caller req gasLimit :
  (forall ctx caller r, preserves R (HandleQuery ctx caller r)) ->
  preserves R (RustQuery gr json_QueryRequest HandleQuery ctx caller req gasLimit).
Proof.
  intros HQ. unfold RustQuery, Query. destruct (json_QueryRequest req) as [r|]; [|frame].
  frame.
Qed.

(** C30: whatever code a contract runs, and whatever the query plugins do, a
    call into the VM changes the wasm store only under the contract's own
    prefix. *)
Theorem vm_entry_isolated {A} gm ctx caller prefix prog gasLimit decode subMessages s k :
  (forall r, k <> prefix ++ r) ->
  kv (vm_entry (A := A) gm (RustQuery gr json_QueryRequest HandleQuery ctx caller)
        prefix prog gasLimit decode subMessages s).2 !! k = kv s !! k.
Proof.
  intros Hk.
  apply (preserves_vm_entry gm (kv_frame (fun k => exists r, k = prefix ++ r)) prefix);
    [intros; apply touch_kv_frame; eauto|intros; apply RustQuery_kv|naive_solver].
Qed.

End Isolation.
