(* ===== verification/Store.v ===== *)
(** The keeper's own records in the wasm store (x/wasm/keeper/keeper.go):
    params, code and contract infos, contract history, secondary indexes,
    pinned codes, sequences, packets with an outstanding acknowledgement. *)
From S2P Require Import Prelude Errors GoStrings Types Proto Keys VMTypes Policy GasRegister Chain Logic.
Import GoStrings Keys.
Open Scope wasm_scope.

(** codec.Codec on a protobuf message. Marshal allocates a slice of the size of
    the message, an int, which panics when it does not fit. *)
Class Codec (A : Type) := {
  marshal : A -> bytes;
  unmarshal : bytes -> A + error;
  codec_wf : A -> Prop;
}.
Arguments codec_wf {_ _} _.
Class CodecLaws (A : Type) `{Codec A} : Prop := {
  codec_roundtrip (a : A) :
    codec_wf a -> (blen (marshal a) < Proto.two63)%N -> unmarshal (marshal a) = inl a;
}.

(** ibc-go's channeltypes.Packet. *)
Record Packet := mkPacket {
  P_Sequence : N;
  P_SourcePort : string;
  P_SourceChannel : string;
  P_DestinationPort : string;
  P_DestinationChannel : string;
  P_Data : bytes;
  P_TimeoutHeight : N * N;       (* revision number and height *)
  P_TimeoutTimestamp : N;
}.

(** What the keeper's codec uses of other packages: the generated code of
    Any and Packet, and the interface registry that unpacks the extension of
    a contract info (ContractInfo.UnpackInterfaces), which gives an error. *)
Class Codecs := {
  codec_any :: Proto.AnyCodec;
  unpack_extension : option Types.AnyMsg -> option error;
  codec_packet :: Codec Packet;
}.
Class CodecsLaws `{Codecs} : Prop := {
  codec_any_laws :: Proto.AnyCodecLaws;
  unpack_nil : unpack_extension None = None;
  codec_packet_laws :: CodecLaws Packet;
}.

(** ProtoCodec over the generated code: Unmarshal into a fresh message, then
    UnpackInterfaces. *)
#[global] Instance codec_code : Codec CodeInfo := {|
  marshal := Proto.CodeInfo_Marshal;
  unmarshal := Proto.CodeInfo_Unmarshal Proto.CodeInfo_zero;
  codec_wf c := Proto.wf_access (Permission (InstantiateConfig c));
|}.
#[global] Instance codec_history : Codec ContractCodeHistoryEntry := {|
  marshal := Proto.ContractCodeHistoryEntry_Marshal;
  unmarshal := Proto.ContractCodeHistoryEntry_Unmarshal Proto.ContractCodeHistoryEntry_zero;
  codec_wf := Proto.wf_history;
|}.
#[global] Instance codec_params : Codec Params := {|
  marshal := Proto.Params_Marshal;
  unmarshal := Proto.Params_Unmarshal Proto.Params_zero;
  codec_wf p := Proto.wf_access (Permission (CodeUploadAccess p))
    /\ Proto.wf_access (InstantiateDefaultPermission p);
|}.
#[global] Instance codec_contract `{Codecs} : Codec ContractInfo := {|
  marshal := Proto.ContractInfo_Marshal;
  unmarshal bz :=
    match Proto.ContractInfo_Unmarshal Proto.ContractInfo_zero bz with
    | inl c =>
        match unpack_extension (Extension c) with None => inl c | Some err => inr err end
    | inr err => inr err
    end;
  codec_wf c := is_u64 (CodeID c)
    /\ (forall p, Created c = Some p -> wf_position p)
    /\ unpack_extension (Extension c) = None;
|}.

#[global] Instance codec_code_laws : CodecLaws CodeInfo.
Proof. split. intros c Hp Hl. by apply Proto.CodeInfo_reads. Qed.
#[global] Instance codec_history_laws : CodecLaws ContractCodeHistoryEntry.
Proof. split. intros e He Hl. by apply Proto.History_reads. Qed.
#[global] Instance codec_params_laws : CodecLaws Params.
Proof. split. intros p [Hu Hi] Hl. by apply Proto.Params_reads. Qed.
#[global] Instance codec_contract_laws `{CodecsLaws} : CodecLaws ContractInfo.
Proof.
  split. intros c (Hi & Hp & Hu) Hl. simpl in *. by rewrite Proto.ContractInfo_reads, Hu.
Qed.

Module Store.

Section Store.
Context `{GasMeters, Modules, KVStorePkg, Bech32, ErrorsMod, AddressPkg, Codecs}.

Definition MustMarshal {A} `{Codec A} (a : A) : M bytes :=
  if (blen (marshal a) <? Proto.two63)%N then mret (marshal a)
  else throw (PRuntime "makeslice: len out of range").
Definition MustUnmarshal {A} `{Codec A} (bz : bytes) : M A :=
  match unmarshal bz with inl a => mret a | inr e => throw (PError e) end.

(** binary.BigEndian.Uint64 *)
Definition binary_Uint64 (bz : bytes) : outcome N :=
  if Nat.ltb (length bz) 8 then Panic (PRuntime "index out of range")
  else Ret (be_decode (take 8 bz)).

(** ** Params: collections.Item *)

Definition ErrCollectionsNotFound : error := EText "collections: not found".

Definition params_Get : M Params :=
  bz ← kv_get ParamsKey;
  match bz with
  | None => fail ErrCollectionsNotFound
  | Some bz => match unmarshal bz with inl p => mret p | inr e => fail e end
  end.
Definition GetParams : M Params := must params_Get.
Definition SetParams (ps : Params) : M unit :=
  bz ← MustMarshal ps; kv_set ParamsKey bz.
Definition getUploadAccessConfig : M AccessConfig :=
  p ← GetParams; mret (CodeUploadAccess p).
Definition getInstantiateAccessConfig : M AccessType :=
  p ← GetParams; mret (InstantiateDefaultPermission p).

(** ** Codes *)

Definition mustStoreCodeInfo (codeID : N) (codeInfo : CodeInfo) : M unit :=
  bz ← MustMarshal codeInfo; must (kv_set (GetCodeKey codeID) bz).
Definition GetCodeInfo (codeID : N) : M (option CodeInfo) :=
  bz ← must (kv_get (GetCodeKey codeID));
  match bz with
  | None => mret None
  | Some bz => c ← MustUnmarshal bz; mret (Some c)
  end.
Definition containsCodeInfo (codeID : N) : M bool := must (kv_has (GetCodeKey codeID)).

(** The callback stops the iteration by returning true. *)
Definition IterateCodeInfos {S} (cb : N -> CodeInfo -> S -> M (S * bool)) (acc : S) : M S :=
  iterate CodeKeyPrefix None None false
    (fun k v acc =>
       c ← MustUnmarshal v; id ← lift (binary_Uint64 k); cb id c acc) acc.

(** ** Contracts *)

Definition GetContractInfo (contractAddress : bytes) : M (option ContractInfo) :=
  bz ← must (kv_get (GetContractAddressKey contractAddress));
  match bz with
  | None => mret None
  | Some bz => c ← MustUnmarshal bz; mret (Some c)
  end.
Definition HasContractInfo (contractAddress : bytes) : M bool :=
  must (kv_has (GetContractAddressKey contractAddress)).
Definition mustStoreContractInfo (contractAddress : bytes) (contract : ContractInfo)
    : M unit :=
  bz ← MustMarshal contract; must (kv_set (GetContractAddressKey contractAddress) bz).
Definition IterateContractInfo {S} (cb : bytes -> ContractInfo -> S -> M (S * bool))
    (acc : S) : M S :=
  iterate ContractKeyPrefix None None false
    (fun k v acc => c ← MustUnmarshal v; cb k c acc) acc.
Definition IterateContractState {S} (contractAddress : bytes)
    (cb : bytes -> bytes -> S -> M (S * bool)) (acc : S) : M S :=
  iterate (GetContractStorePrefix contractAddress) None None false cb acc.

(** contractInstance: the contract, its code, and the prefix of its store. *)
Definition contractInstance (contractAddress : bytes)
    : M (ContractInfo * CodeInfo * bytes) :=
  bz ← kv_get (GetContractAddressKey contractAddress);
  match bz with
  | None =>
      fail (Wrap (ErrNoSuchContractFn (AccAddress_String contractAddress))
              (String.append "address " (AccAddress_String contractAddress)))
  | Some bz =>
      contractInfo ← MustUnmarshal bz;
      codeBz ← kv_get (GetCodeKey (CodeID contractInfo));
      match codeBz with
      | None => fail (Wrap (ErrNoSuchCodeFn (CodeID contractInfo))
                        (String.append "code id " (pretty (CodeID contractInfo))))
      | Some codeBz =>
          codeInfo ← MustUnmarshal codeBz;
          mret (contractInfo, codeInfo, GetContractStorePrefix contractAddress)
      end
  end.

(** A nil key is [None]. *)
Definition QueryRaw (contractAddress : bytes) (key : option bytes) : M (option bytes) :=
  match key with
  | None => mret None
  | Some key => must (kv_get (GetContractStorePrefix contractAddress ++ key))
  end.

(** Models with the nil value replaced by the empty one. *)
Fixpoint importContractState (contractAddress : bytes) (models : list Model) : M unit :=
  match models with
  | [] => mret tt
  | model :: models' =>
      let key := GetContractStorePrefix contractAddress ++ ModelKey model in
      ok ← must (kv_has key);
      _ ← guard_err ok (Wrap ErrDuplicate
             (String.append "duplicate key: " (hex_encode (ModelKey model))));
      _ ← must (kv_set key (ModelValue model));
      importContractState contractAddress models'
  end.

(** ** Secondary indexes *)

Definition addToContractCodeSecondaryIndex (contractAddress : bytes)
    (entry : ContractCodeHistoryEntry) : M unit :=
  k ← lift (GetContractByCreatedSecondaryIndexKey contractAddress entry); kv_set k [].
Definition removeFromContractCodeSecondaryIndex (contractAddress : bytes)
    (entry : ContractCodeHistoryEntry) : M unit :=
  k ← lift (GetContractByCreatedSecondaryIndexKey contractAddress entry); kv_delete k.
Definition addToContractCreatorSecondaryIndex (creatorAddress : bytes)
    (position : option AbsoluteTxPosition) (contractAddress : bytes) : M unit :=
  pos ← lift (Position_Bytes_ptr position);
  k ← lift (GetContractByCreatorSecondaryIndexKey creatorAddress pos contractAddress);
  kv_set k [].

(** [key[AbsoluteTxPositionLen:]] panics on a shorter key. *)
Definition index_address (key : bytes) : outcome bytes :=
  if Nat.ltb (length key) AbsoluteTxPositionLen
  then Panic (PRuntime "slice bounds out of range")
  else Ret (drop AbsoluteTxPositionLen key).
Definition IterateContractsByCreator {S} (creator : bytes)
    (cb : bytes -> S -> M (S * bool)) (acc : S) : M S :=
  p ← lift (GetContractsByCreatorPrefix creator);
  iterate p None None false
    (fun k _ acc => a ← lift (index_address k); cb a acc) acc.
Definition IterateContractsByCode {S} (codeID : N) (cb : bytes -> S -> M (S * bool))
    (acc : S) : M S :=
  iterate (GetContractByCodeIDSecondaryIndexPrefix codeID) None None false
    (fun k _ acc => a ← lift (index_address k); cb a acc) acc.

(** ** Contract history *)

(** The last position in use: the first eight-byte key from the end. *)
Definition last_history_position (contractAddr : bytes) : M N :=
  iterate (GetContractCodeHistoryElementPrefix contractAddr) None None true
    (fun k _ pos =>
       if Nat.eqb (length k) 8
       then p ← lift (BigEndianToUint64 k); mret (p, true)
       else mret (pos, false)) 0%N.
Fixpoint store_history (contractAddr : bytes) (pos : N)
    (newEntries : list ContractCodeHistoryEntry) : M unit :=
  match newEntries with
  | [] => mret tt
  | e :: newEntries' =>
      let pos := add64 pos 1 in
      bz ← MustMarshal e;
      _ ← kv_set (GetContractCodeHistoryElementKey contractAddr pos) bz;
      store_history contractAddr pos newEntries'
  end.
Definition appendToContractHistory (contractAddr : bytes)
    (newEntries : list ContractCodeHistoryEntry) : M unit :=
  pos ← last_history_position contractAddr;
  store_history contractAddr pos newEntries.

Definition GetContractHistory (contractAddr : bytes)
    : M (list ContractCodeHistoryEntry) :=
  iterate (GetContractCodeHistoryElementPrefix contractAddr) None None false
    (fun k v r =>
       if negb (Nat.eqb (length k) 8) then mret (r, false)
       else e ← MustUnmarshal v; mret (r ++ [e], false)) [].

Definition mustGetLastContractHistoryEntry (contractAddr : bytes)
    : M ContractCodeHistoryEntry :=
  r ← iterate (GetContractCodeHistoryElementPrefix contractAddr) None None true
        (fun k v r =>
           if Nat.eqb (length k) 8
           then e ← MustUnmarshal v; mret (Some e, true)
           else mret (r, false)) None;
  match r with
  | Some e => mret e
  | None => throw (PText (String.append "no history for " (AccAddress_String contractAddr)))
  end.

(** ** Pinned codes *)

Definition IsPinnedCode (codeID : N) : M bool :=
  must (kv_has (GetPinnedCodeIndexPrefix codeID)).

(** ** Sequences *)

Definition mustAutoIncrementID (sequenceKey : bytes) : M N :=
  bz ← must (kv_get sequenceKey);
  id ← match bz with
       | None => mret 1%N
       | Some bz => lift (binary_Uint64 bz)
       end;
  _ ← must (kv_set sequenceKey (Uint64ToBigEndian (add64 id 1)));
  mret id.
Definition PeekAutoIncrementID (sequenceKey : bytes) : M N :=
  bz ← wrap_err "sequence key" (kv_get sequenceKey);
  match bz with
  | None => mret 1%N
  | Some bz => lift (binary_Uint64 bz)
  end.
Definition importAutoIncrementID (sequenceKey : bytes) (val : N) : M unit :=
  ok ← wrap_err "sequence key" (kv_has sequenceKey);
  _ ← guard_err ok (Wrap ErrDuplicate
         (String.append "autoincrement id: " (string_of_bytes sequenceKey)));
  kv_set sequenceKey (Uint64ToBigEndian val).

(** ** Packets to be acknowledged asynchronously *)

Definition getAsyncAckStoreAndKey (portID channelID : string) (sequence : N) : bytes :=
  GetAsyncAckStorePrefix portID ++ GetAsyncPacketKey channelID sequence.
Definition LoadAsyncAckPacket (portID channelID : string) (sequence : N) : M Packet :=
  bz ← must (kv_get (getAsyncAckStoreAndKey portID channelID sequence));
  if Nat.eqb (length (default [] bz)) 0 then fail (Wrap ErrNotFound "packet")
  else match unmarshal (default [] bz) with inl p => mret p | inr e => fail e end.
Definition StoreAsyncAckPacket (packet : Packet) : M unit :=
  bz ← MustMarshal packet;
  must (kv_set (getAsyncAckStoreAndKey (P_DestinationPort packet)
                  (P_DestinationChannel packet) (P_Sequence packet)) bz).
Definition DeleteAsyncAckPacket (portID channelID : string) (sequence : N) : M unit :=
  must (kv_delete (getAsyncAckStoreAndKey portID channelID sequence)).

(** ** Discount for contracts that are in memory already *)

Definition checkDiscountEligibility (checksum : bytes) (isPinned : bool) : M bool :=
  if isPinned then mret true
  else
    t ← gets txc;
    match t with
    | None => mret false
    | Some txContracts =>
        if TxContracts_Exists checksum txContracts then mret true
        else
          _ ← modify (set_txc (Some (AddContract checksum txContracts)));
          mret false
    end.

(** ** Import of a contract from genesis *)

Definition importContract (contractAddr : bytes) (c : ContractInfo)
    (state : list Model) (historyEntries : list ContractCodeHistoryEntry) : M unit :=
  hasCode ← containsCodeInfo (CodeID c);
  _ ← guard_err (negb hasCode) (Wrap (ErrNoSuchCodeFn (CodeID c))
         (String.append "code id " (pretty (CodeID c))));
  hasContract ← HasContractInfo contractAddr;
  _ ← guard_err hasContract (Wrap ErrDuplicate
         (String.append "contract: " (AccAddress_String contractAddr)));
  match historyEntries with
  | [] => fail (Wrap ErrEmpty "contract history")
  | first :: _ =>
      match AccAddressFromBech32 (Creator c) with
      | inr err => fail err
      | inl creatorAddress =>
          _ ← appendToContractHistory contractAddr historyEntries;
          _ ← mustStoreContractInfo contractAddr c;
          _ ← addToContractCodeSecondaryIndex contractAddr (List.last historyEntries first);
          _ ← addToContractCreatorSecondaryIndex creatorAddress (Updated first) contractAddr;
          importContractState contractAddr state
      end
  end.

End Store.
End Store.
