(* ===== verification/Registry.v ===== *)
(** The abstract state of the module: codes, contracts with their history,
    pinned codes, parameters and sequences, without keys and encodings; how a
    store represents it; and the steps that change it, each with the
    permission it needs. *)
From S2P Require Import Prelude Errors GoStrings Types Proto Keys VMTypes Policy GasRegister Chain Logic Wp Engine Store.
Import GoStrings Keys.
Open Scope wasm_scope.

Module Registry.

Record Registry := mkRegistry {
  codes : gmap N CodeInfo;
  contracts : gmap bytes ContractInfo;
  history : gmap bytes (list ContractCodeHistoryEntry);
  pinned : gset N;
  params : option Params;
  next_code : option N;        (* None before the first use *)
  next_instance : option N;
}.

Definition history_of (a : Registry) (addr : bytes) : list ContractCodeHistoryEntry :=
  default [] (history a !! addr).
Definition code_seq (a : Registry) : N := default 1%N (next_code a).
Definition instance_seq (a : Registry) : N := default 1%N (next_instance a).

(** ** Updates *)

Definition put_code (id : N) (c : CodeInfo) (a : Registry) : Registry :=
  mkRegistry (<[id := c]> (codes a)) (contracts a) (history a) (pinned a) (params a)
    (next_code a) (next_instance a).
Definition put_contract (addr : bytes) (i : ContractInfo) (a : Registry) : Registry :=
  mkRegistry (codes a) (<[addr := i]> (contracts a)) (history a) (pinned a) (params a)
    (next_code a) (next_instance a).
Definition push_history (addr : bytes) (e : ContractCodeHistoryEntry) (a : Registry) : Registry :=
  mkRegistry (codes a) (contracts a) (<[addr := history_of a addr ++ [e]]> (history a))
    (pinned a) (params a) (next_code a) (next_instance a).
Definition put_pinned (ids : gset N) (a : Registry) : Registry :=
  mkRegistry (codes a) (contracts a) (history a) ids (params a) (next_code a) (next_instance a).
Definition put_params (ps : Params) (a : Registry) : Registry :=
  mkRegistry (codes a) (contracts a) (history a) (pinned a) (Some ps)
    (next_code a) (next_instance a).
Definition put_next_code (n : N) (a : Registry) : Registry :=
  mkRegistry (codes a) (contracts a) (history a) (pinned a) (params a) (Some n) (next_instance a).
Definition put_next_instance (n : N) (a : Registry) : Registry :=
  mkRegistry (codes a) (contracts a) (history a) (pinned a) (params a) (next_code a) (Some n).

(** ** Representation *)

Section Repr.
Context `{Bech32, Codecs}.

Definition flag (b : bool) (v : bytes) : option bytes := if b then Some v else None.

(** What the store holds at an entry. The index by code id has one entry per
    contract, for the last entry of its history; the index by creator one for
    its creation. *)
Definition encode (a : Registry) (e : Entry) : option bytes :=
  match e with
  | KCode id => marshal <$> codes a !! id
  | KContract addr => marshal <$> contracts a !! addr
  | KSequenceCodeID => Uint64ToBigEndian <$> next_code a
  | KSequenceInstanceID => Uint64ToBigEndian <$> next_instance a
  | KHistory addr pos =>
      if (pos =? 0)%N then None
      else marshal <$> history_of a addr !! N.to_nat (pos - 1)
  | KByCodeID id p addr =>
      flag (match last (history_of a addr) with
            | Some e => bool_decide (HistCodeID e = id /\ Updated e = Some p)
            | None => false
            end) []
  | KPinned id => flag (bool_decide (id ∈ pinned a)) [Byte.x01]
  | KByCreator c p addr =>
      flag (match contracts a !! addr with
            | Some i => bool_decide (Creator i = AccAddress_String c /\ Created i = Some p)
            | None => false
            end) []
  | KParams => marshal <$> params a
  | KStore _ _ | KTXCounter | KAsyncAck _ _ _ => None
  end.

(** The entries the registry accounts for. *)
Definition reg_entry (e : Entry) : Prop :=
  wf_entry e
  /\ match e with
     | KStore _ _ | KTXCounter | KAsyncAck _ _ _ => False
     | KByCreator c _ _ => VerifyAddressFormat c = None
     | _ => True
     end.

Definition reads (σ : kvs) (f : Entry -> option bytes) : Prop :=
  forall e, reg_entry e -> σ !! entry_key e = f e.
Definition repr (σ : kvs) (a : Registry) : Prop := reads σ (encode a).

Definition upd (f : Entry -> option bytes) (e : Entry) (v : option bytes) (e' : Entry)
    : option bytes :=
  if decide (e' = e) then v else f e'.

Lemma reads_ext σ f g :
  reads σ f -> (forall e, reg_entry e -> f e = g e) -> reads σ g.
Proof. intros Hr Hfg e He. rewrite Hr by done. auto. Qed.
Lemma reads_insert σ f e v :
  reads σ f -> reg_entry e -> reads (<[entry_key e := v]> σ) (upd f e (Some v)).
Proof.
  intros Hr He e' He'. unfold upd. destruct (decide (e' = e)) as [->|Hne].
  - apply lookup_insert_eq.
  - rewrite lookup_insert_ne; [by apply Hr|]. intros E.
    apply Hne. symmetry. apply entry_key_inj; [apply He|apply He'|done].
Qed.
Lemma reads_delete σ f e :
  reads σ f -> reg_entry e -> reads (delete (entry_key e) σ) (upd f e None).
Proof.
  intros Hr He e' He'. unfold upd. destruct (decide (e' = e)) as [->|Hne].
  - apply lookup_delete_eq.
  - rewrite lookup_delete_ne; [by apply Hr|]. intros E.
    apply Hne. symmetry. apply entry_key_inj; [apply He|apply He'|done].
Qed.
Lemma reads_same_meta σ σ' f : reads σ f -> same_meta σ σ' -> reads σ' f.
Proof.
  intros Hr Hm e He. rewrite Hm; [by apply Hr|]. intros (r & Hf).
  destruct e, He as [_ He]; try done; simpl in Hf; naive_solver.
Qed.

(** ** Well-formedness *)

(** A contract runs a code of the registry, its history ends with that code,
    and it was created at a position by a valid address. *)
Record coherent_contract (a : Registry) (addr : bytes) (i : ContractInfo) : Prop := {
  contract_code : is_Some (codes a !! CodeID i);
  contract_last : exists e p, last (history_of a addr) = Some e
    /\ HistCodeID e = CodeID i /\ Updated e = Some p;
  contract_created : exists c p, VerifyAddressFormat c = None
    /\ Creator i = AccAddress_String c /\ Created i = Some p;
}.
Record coherent (a : Registry) : Prop := {
  coh_codes id : is_Some (codes a !! id) -> (id < code_seq a)%N;
  coh_contracts addr i : contracts a !! addr = Some i -> coherent_contract a addr i;
  coh_history addr h : history a !! addr = Some h ->
    is_Some (contracts a !! addr) /\ (N.of_nat (length h) <= MaxUint64)%N;
  coh_pinned id : id ∈ pinned a -> is_Some (codes a !! id);
  coh_code_seq : (code_seq a <= MaxUint64)%N;
  coh_instance_seq : (instance_seq a <= MaxUint64)%N;
}.

(** Every record can be written and read back. *)
Definition stored {A} `{Codec A} (x : A) : Prop :=
  codec_wf x /\ (blen (marshal x) < Proto.two63)%N.
Record storable (a : Registry) : Prop := {
  sto_codes id c : codes a !! id = Some c -> stored c;
  sto_contracts addr i : contracts a !! addr = Some i -> stored i;
  sto_history addr e : e ∈ history_of a addr -> stored e;
  sto_params ps : params a = Some ps -> stored ps;
}.

(** The last code id, or the last position in some history, is in use. After
    that a 64-bit counter starts again at zero and records are overwritten. *)
Definition full (σ : kvs) : Prop :=
  is_Some (σ !! GetCodeKey MaxUint64)
  \/ exists addr, is_Some (σ !! GetContractCodeHistoryElementKey addr MaxUint64).

End Repr.

(** ** Steps *)

Section Steps.
Context `{Bech32, ErrorsMod, AddressPkg, Codecs}.
(** The address that governs the module, the actions it propagates, the
    policies messages of contracts run under, and the senders of messages
    that are not contracts. *)
Context (authority : string) (propagate : gset N).
Context (Sub : Policy.AuthorizationPolicy -> Prop) (sender : bytes -> Prop).

Definition present (a : Registry) (actor : bytes) : Prop :=
  sender actor \/ is_Some (contracts a !! actor).
Definition governs (actor : bytes) : Prop := AccAddressFromBech32 authority = inl actor.
(** [actor] sends a message that is checked against policy [p]. *)
Definition acts (a : Registry) (p : Policy.AuthorizationPolicy) (actor : bytes) : Prop :=
  present a actor /\ VerifyAddressFormat actor = None
  /\ (Sub p \/ governs actor /\ p = Policy.GovAuthorizationPolicy propagate).

(** Addresses of contracts are derived by the address package. *)
Definition derived (addr : bytes) : Prop :=
  exists key, addr = take ContractAddrLen (address_Module ModuleName key).

Definition can_create (a : Registry) (p : Policy.AuthorizationPolicy) (actor : bytes)
    (access : AccessConfig) : Prop :=
  exists ps dflt, params a = Some ps
  /\ With (InstantiateDefaultPermission ps) [Some actor] = Ret dflt
  /\ Policy.CanCreateCode p (Policy.mkChainAccessConfigs (CodeUploadAccess ps) dflt)
       (Some actor) access = Ret true.
Definition can_use (p : Policy.AuthorizationPolicy) (actor : bytes) (c : CodeInfo) : Prop :=
  Policy.CanInstantiateContract p (InstantiateConfig c) (Some actor) = Ret true.
Definition can_modify (p : Policy.AuthorizationPolicy) (actor : bytes) (i : ContractInfo) : Prop :=
  exists admin, AdminAddr i = Ret admin
  /\ Policy.CanModifyContract p admin (Some actor) = true.
Definition can_configure (a : Registry) (p : Policy.AuthorizationPolicy) (actor : bytes)
    (c : CodeInfo) (cfg : AccessConfig) : Prop :=
  exists ps creator, params a = Some ps
  /\ AccAddressFromBech32 (CodeCreator c) = inl creator
  /\ Policy.CanModifyCodeAccessConfig p (Some creator) (Some actor)
       (AccessType_IsSubset (Permission cfg) (InstantiateDefaultPermission ps)) = true.

Inductive step (a : Registry) : Registry -> Prop :=
| step_create p actor hash access :
    acts a p actor -> can_create a p actor access -> (code_seq a < MaxUint64)%N ->
    step a (put_code (code_seq a) (NewCodeInfo hash (Some actor) access)
              (put_next_code (code_seq a + 1) a))
| step_instance :
    step a (put_next_instance (add64 (instance_seq a) 1) a)
| step_instantiate p actor addr id code admin label pos port msg :
    acts a p actor -> codes a !! id = Some code -> can_use p actor code ->
    contracts a !! addr = None -> derived addr ->
    let i := set_IBCPortID port (NewContractInfo id (Some actor) admin label pos) in
    step a (put_contract addr i (push_history addr (InitialHistory i msg) a))
| step_migrate p actor addr i id code pos port msg :
    acts a p actor -> contracts a !! addr = Some i -> can_modify p actor i ->
    codes a !! id = Some code -> can_use p actor code ->
    (N.of_nat (length (history_of a addr)) < MaxUint64)%N ->
    let '(e, i') := AddMigration pos id msg (set_IBCPortID port i) in
    step a (put_contract addr i' (push_history addr e a))
| step_admin p actor addr i admin :
    acts a p actor -> contracts a !! addr = Some i -> can_modify p actor i ->
    step a (put_contract addr (set_Admin admin i) a)
| step_label p actor addr i label :
    acts a p actor -> contracts a !! addr = Some i -> can_modify p actor i ->
    step a (put_contract addr (set_Label label i) a)
| step_configure p actor id c cfg :
    acts a p actor -> codes a !! id = Some c -> can_configure a p actor c cfg ->
    step a (put_code id (mkCodeInfo (CodeHash c) (CodeCreator c) cfg) a)
| step_params actor ps :
    present a actor -> governs actor -> step a (put_params ps a)
| step_pin actor id c :
    present a actor -> governs actor -> codes a !! id = Some c ->
    step a (put_pinned ({[id]} ∪ pinned a) a)
| step_unpin actor id :
    present a actor -> governs actor -> step a (put_pinned (pinned a ∖ {[id]}) a).

Definition steps : Registry -> Registry -> Prop := rtc step.

(** ** Invariants by rule induction *)

Lemma history_of_insert a addr e addr' :
  history_of (push_history addr e a) addr'
  = if decide (addr' = addr) then history_of a addr ++ [e] else history_of a addr'.
Proof.
  unfold history_of at 1. simpl. destruct (decide (addr' = addr)) as [->|].
  - by rewrite lookup_insert_eq.
  - by rewrite lookup_insert_ne.
Qed.

(** Contracts keep their coherence when codes are added or changed and their
    own history is left alone. *)
Lemma coherent_contract_mono a a' addr i :
  (forall id, is_Some (codes a !! id) -> is_Some (codes a' !! id)) ->
  history_of a' addr = history_of a addr ->
  coherent_contract a addr i -> coherent_contract a' addr i.
Proof. intros Hc Hh [? ? ?]. split; rewrite ?Hh; auto. Qed.
Lemma put_code_some id c a id' :
  is_Some (codes a !! id') -> is_Some (codes (put_code id c a) !! id').
Proof. intros. simpl. destruct (decide (id' = id)) as [->|]; by simplify_map_eq. Qed.

(** Replacing a contract by one with the same code, creator and creation. *)
Lemma coherent_put_contract a addr i i' :
  coherent a -> contracts a !! addr = Some i ->
  CodeID i' = CodeID i -> Creator i' = Creator i -> Created i' = Created i ->
  coherent (put_contract addr i' a).
Proof.
  intros C Hi Hid Hcr Hc. destruct (coh_contracts _ C _ _ Hi) as [? Hl Hcre].
  destruct C as [C1 C2 C3 C4 C5 C6]. split; try done; simpl.
  - intros addr' i''. destruct (decide (addr' = addr)) as [->|].
    + rewrite lookup_insert_eq. intros [= <-]. split; [by rewrite Hid|by rewrite Hid|].
      by rewrite Hcr, Hc.
    + rewrite lookup_insert_ne by done. intros Hi''.
      apply (coherent_contract_mono a); auto.
  - intros addr' h Hh. destruct (C3 _ _ Hh). split; [|done].
    destruct (decide (addr' = addr)) as [->|].
    + by rewrite lookup_insert_eq.
    + by rewrite lookup_insert_ne.
Qed.

(** A contract with a new last entry in its history. *)
Lemma coherent_push a addr e i pos :
  coherent a -> (N.of_nat (length (history_of a addr)) < MaxUint64)%N ->
  HistCodeID e = CodeID i -> Updated e = Some pos -> is_Some (codes a !! CodeID i) ->
  (exists c p, VerifyAddressFormat c = None /\ Creator i = AccAddress_String c
     /\ Created i = Some p) ->
  coherent (put_contract addr i (push_history addr e a)).
Proof.
  intros [C1 C2 C3 C4 C5 C6] Hl Hid Hu Hcode Hcre. split; try done; simpl.
  - intros addr' i'. destruct (decide (addr' = addr)) as [->|Hne].
    + rewrite lookup_insert_eq. intros [= <-]. split; [done| |done].
      exists e, pos. change (history_of (put_contract addr i (push_history addr e a)) addr)
        with (history_of (push_history addr e a) addr).
      rewrite history_of_insert, decide_True by done. by rewrite last_snoc.
    + rewrite lookup_insert_ne by done. intros Hi'.
      apply (coherent_contract_mono a); [done| |by apply C2].
      change (history_of (push_history addr e a) addr' = history_of a addr').
      by rewrite history_of_insert, decide_False.
  - intros addr' h. destruct (decide (addr' = addr)) as [->|Hne].
    + rewrite !lookup_insert_eq. intros [= <-]. split; [done|]. rewrite length_app. simpl. lia.
    + rewrite !lookup_insert_ne by done. apply C3.
Qed.

Lemma no_history a addr : coherent a -> contracts a !! addr = None -> history_of a addr = [].
Proof.
  intros C Hn. unfold history_of. destruct (history a !! addr) as [h|] eqn:E; [|done].
  destruct (coh_history _ C _ _ E) as [[? E'] _]. congruence.
Qed.

Lemma coherent_create a c :
  coherent a -> (code_seq a < MaxUint64)%N ->
  coherent (put_code (code_seq a) c (put_next_code (code_seq a + 1) a)).
Proof.
  intros [C1 C2 C3 C4 C5 C6] Hs.
  set (a' := put_code _ _ _). assert (code_seq a' = code_seq a + 1)%N as Hn by done.
  split; try done; rewrite ?Hn; [| | |lia].
  - intros id. simpl. destruct (decide (id = code_seq a)) as [->|]; [lia|].
    rewrite lookup_insert_ne by done. intros Hid. specialize (C1 _ Hid). lia.
  - intros addr i Hi. apply (coherent_contract_mono a); [|done|by apply C2].
    intros id. apply (put_code_some (code_seq a) c a id).
  - intros id Hid. by apply (put_code_some (code_seq a) c a), C4.
Qed.
Lemma coherent_put_code a id c c' :
  coherent a -> codes a !! id = Some c -> coherent (put_code id c' a).
Proof.
  intros [C1 C2 C3 C4 C5 C6] Hid. split; try done; simpl.
  - intros id' Hs. apply C1. destruct (decide (id' = id)) as [->|]; by simplify_map_eq.
  - intros addr i Hi. apply (coherent_contract_mono a); [|done|by apply C2].
    apply put_code_some.
  - intros id' Hs. by apply put_code_some, C4.
Qed.

Lemma step_coherent a a' : coherent a -> step a a' -> coherent a'.
Proof.
  intros C S. destruct S as
    [p actor hash access _ _ Hs| |p actor addr id code admin label pos port msg (_ & Hv & _) Hc _ Hn _ i
    |p actor addr i id code pos port msg _ Hi _ Hc _ Hl
    |p actor addr i admin _ Hi _|p actor addr i label _ Hi _|p actor id c cfg _ Hc _|actor ps _ _
    |actor id c _ _ Hc|actor id _ _].
  - by apply coherent_create.
  - destruct C as [C1 C2 C3 C4 C5 C6]. split; try done.
    { intros addr i Hi. by apply (coherent_contract_mono a), C2. }
    unfold instance_seq at 1. simpl.
    pose proof (N.mod_lt (instance_seq a + 1) two64 ltac:(done)) as Hm.
    unfold add64, wrap64. change MaxUint64 with (two64 - 1)%N. lia.
  - eapply coherent_push; try done.
    + by rewrite (no_history a addr).
    + exists actor, pos. done.
  - simpl. eapply coherent_push; try done.
    by apply (contract_created a addr i), coh_contracts.
  - by eapply coherent_put_contract.
  - by eapply coherent_put_contract.
  - by eapply coherent_put_code.
  - destruct C as [C1 C2 C3 C4 C5 C6]. split; try done.
    intros addr i Hi. by apply (coherent_contract_mono a), C2.
  - destruct C as [C1 C2 C3 C4 C5 C6]. split; try done.
    + intros addr i Hi. by apply (coherent_contract_mono a), C2.
    + intros id' [->%elem_of_singleton|Hid']%elem_of_union; [by eexists|auto].
  - destruct C as [C1 C2 C3 C4 C5 C6]. split; try done.
    + intros addr i Hi. by apply (coherent_contract_mono a), C2.
    + intros id' [Hid' _]%elem_of_difference. auto.
Qed.
Lemma steps_coherent a a' : coherent a -> steps a a' -> coherent a'.
Proof. intros C S. induction S; [done|]. eauto using step_coherent. Qed.

(** *** What never changes *)

(** A code keeps its checksum and its creator. *)
Definition code_kept (c c' : CodeInfo) : Prop :=
  CodeHash c' = CodeHash c /\ CodeCreator c' = CodeCreator c.
Lemma step_code_kept a a' id c :
  coherent a -> step a a' -> codes a !! id = Some c ->
  exists c', codes a' !! id = Some c' /\ code_kept c c'.
Proof.
  intros C S Hid. destruct S; try (by exists c); simpl.
  - exists c. rewrite lookup_insert_ne; [done|]. intros E.
    assert (id < code_seq a)%N; [|lia]. apply (coh_codes a C). by exists c.
  - destruct (decide (id = id0)) as [->|].
    + eexists. rewrite lookup_insert_eq. split; [done|]. by simplify_eq.
    + exists c. by rewrite lookup_insert_ne.
Qed.
Theorem steps_code_kept a a' id c :
  coherent a -> steps a a' -> codes a !! id = Some c ->
  exists c', codes a' !! id = Some c' /\ code_kept c c'.
Proof.
  intros C S. revert c. induction S as [a|a1 a2 a3 S1 _ IH]; intros c Hid; [by exists c|].
  destruct (step_code_kept a1 a2 id c C S1 Hid) as (c2 & Hid2 & ? & ?).
  destruct (IH (step_coherent _ _ C S1) c2 Hid2) as (c3 & ? & ? & ?).
  exists c3. split; [done|]. split; congruence.
Qed.

(** A contract keeps its creator and its creation, and its history only
    grows. *)
Definition contract_kept (a a' : Registry) (addr : bytes) : Prop :=
  (forall i, contracts a !! addr = Some i -> exists i', contracts a' !! addr = Some i'
     /\ Creator i' = Creator i /\ Created i' = Created i /\ Extension i' = Extension i)
  /\ history_of a addr `prefix_of` history_of a' addr.
Lemma contract_kept_put a addr addr' i i' :
  contracts a !! addr = Some i -> Creator i' = Creator i -> Created i' = Created i ->
  Extension i' = Extension i -> contract_kept a (put_contract addr i' a) addr'.
Proof.
  intros Hi Hc Hp He. split; [|done]. intros j Hj. simpl.
  destruct (decide (addr' = addr)) as [->|]; [|exists j; by rewrite lookup_insert_ne].
  exists i'. rewrite lookup_insert_eq. by simplify_eq.
Qed.
Lemma contract_kept_push a addr e addr' i :
  contract_kept (push_history addr e a) (put_contract addr i (push_history addr e a)) addr' ->
  contract_kept a (put_contract addr i (push_history addr e a)) addr'.
Proof.
  intros [Hi Hh]. split; [exact Hi|]. etrans; [|exact Hh].
  rewrite history_of_insert. destruct (decide _) as [->|]; [|done]. by apply prefix_app_r.
Qed.
Lemma step_contract_kept a a' addr : step a a' -> contract_kept a a' addr.
Proof.
  intros S. destruct S; try (by split; [eauto|]).
  - apply contract_kept_push. split; [|done]. intros j Hj. simpl in *.
    assert (addr0 <> addr) by congruence. exists j. by rewrite lookup_insert_ne.
  - apply contract_kept_push. by eapply contract_kept_put.
  - by eapply contract_kept_put.
  - by eapply contract_kept_put.
Qed.
Theorem steps_contract_kept a a' addr : steps a a' -> contract_kept a a' addr.
Proof.
  intros S. induction S as [a|a1 a2 a3 S1 _ [IHi IHh]]; [by split; [eauto|]|].
  destruct (step_contract_kept a1 a2 addr S1) as [Hi Hh]. split; [|by etrans].
  intros i (i2 & Hi2 & ? & ? & ?)%Hi. destruct (IHi _ Hi2) as (i3 & ? & ? & ? & ?).
  exists i3. split_and!; congruence.
Qed.

Lemma step_present a a' x : step a a' -> present a x -> present a' x.
Proof.
  intros S [Hs|[i Hi]]; [by left|right].
  destruct (step_contract_kept a a' x S) as [Hk _]. destruct (Hk i Hi) as (i' & ? & _). by exists i'.
Qed.
Lemma steps_present a a' x : steps a a' -> present a x -> present a' x.
Proof. intros S. induction S; [done|]. eauto using step_present. Qed.

(** ** Messages that do not come from the authority *)

Section Ordinary.
Hypothesis default_policy : forall p, Sub p -> p = Policy.DefaultAuthorizationPolicy.
Hypothesis sender_not_gov : forall x, governs x -> ~ sender x /\ ~ derived x.

Definition gov_absent (a : Registry) : Prop := forall x, governs x -> contracts a !! x = None.

Lemma not_gov_present a x : gov_absent a -> governs x -> ~ present a x.
Proof.
  intros Ha Hx [Hs|[i Hi]]; [by apply sender_not_gov in Hx as [? _]|].
  rewrite (Ha x Hx) in Hi. done.
Qed.
Lemma acts_default a p actor : gov_absent a -> acts a p actor -> p = Policy.DefaultAuthorizationPolicy.
Proof.
  intros Ha (Hp & _ & [Hs|[Hg _]]); [auto|]. by destruct (not_gov_present a actor).
Qed.
Lemma default_modifies actor i admin :
  can_modify Policy.DefaultAuthorizationPolicy actor i -> AdminAddr i = Ret admin ->
  admin = Some actor.
Proof.
  intros (ad & Ead & Hm) E. rewrite E in Ead. injection Ead as <-.
  destruct admin as [x|]; [|done]. by apply Policy.default_modify_some in Hm as ->.
Qed.

Lemma step_gov_absent a a' : gov_absent a -> step a a' -> gov_absent a'.
Proof.
  intros Ha S x Hx. specialize (Ha x Hx). destruct S; try done; simpl;
    rewrite lookup_insert_ne; try done; intros ->; try congruence.
  by apply sender_not_gov in Hx as [_ ?].
Qed.

(** One step of someone other than its admin leaves a contract alone. *)
Lemma step_admin_needed a a' addr i admin :
  gov_absent a -> step a a' -> contracts a !! addr = Some i -> AdminAddr i = Ret admin ->
  (forall x, admin = Some x -> ~ present a x) -> contracts a' !! addr = Some i.
Proof.
  intros Ha S Hi Had Hx. destruct S as [| |? ? addr'|? ? addr' ? ? ? ? ? ? Hacts Hi' Hm
    |? ? addr' ? ? Hacts Hi' Hm|? ? addr' ? ? Hacts Hi' Hm| | | |]; try done; simpl.
  { rewrite lookup_insert_ne; [done|congruence]. }
  all: destruct (decide (addr = addr')) as [<-|]; [|by rewrite lookup_insert_ne]; exfalso;
    simplify_eq; pose proof (acts_default _ _ _ Ha Hacts) as ->;
    eapply Hx; [by eapply default_modifies|apply Hacts].
Qed.

(** Without its admin among the senders and the contracts, a contract stays
    as it is; in particular a contract without an admin. *)
Theorem admin_needed a a' addr i admin :
  gov_absent a -> steps a a' -> contracts a !! addr = Some i -> AdminAddr i = Ret admin ->
  (forall x, admin = Some x -> ~ present a' x) -> contracts a' !! addr = Some i.
Proof.
  intros Ha S. induction S as [|a1 a2 a3 S1 S2 IH]; intros Hi Had Hx; [done|].
  assert (forall x, present a1 x -> present a3 x) as Hmono.
  { intros x. apply steps_present. by econstructor. }
  apply IH; [by eapply step_gov_absent| |done|done].
  eapply step_admin_needed; eauto. intros x -> Hp. eapply Hx; eauto.
Qed.

(** Parameters and pins are governed, and a code's access config belongs to
    its creator. *)
Lemma step_governed a a' :
  gov_absent a -> step a a' -> params a' = params a /\ pinned a' = pinned a.
Proof.
  intros Ha S. destruct S as [| | | | | | |? ? Hp Hg|? ? ? Hp Hg|? ? Hp Hg]; try done;
    exfalso; eapply not_gov_present; eauto.
Qed.
Theorem steps_governed a a' :
  gov_absent a -> steps a a' -> params a' = params a /\ pinned a' = pinned a.
Proof.
  intros Ha S. induction S as [|a1 a2 a3 S1 _ IH]; [done|].
  destruct (step_governed _ _ Ha S1) as [<- <-]. apply IH. by eapply step_gov_absent.
Qed.
Lemma step_creator_needed a a' id c creator :
  coherent a -> gov_absent a -> step a a' -> codes a !! id = Some c ->
  AccAddressFromBech32 (CodeCreator c) = inl creator -> ~ present a creator ->
  codes a' !! id = Some c.
Proof.
  intros C Ha S Hid Hc Hp. destruct S as [| | | | | |? actor id' c' cfg Hacts Hid' Hcfg| | |];
    try done; simpl.
  - rewrite lookup_insert_ne; [done|]. intros E. assert (id < code_seq a)%N; [|lia].
    apply (coh_codes a C). by exists c.
  - destruct (decide (id = id')) as [<-|]; [|by rewrite lookup_insert_ne]. exfalso.
    rewrite Hid in Hid'. injection Hid' as <-.
    pose proof (acts_default _ _ _ Ha Hacts) as ->.
    destruct Hcfg as (ps & cr & _ & Hcr & Hm). rewrite Hc in Hcr. injection Hcr as <-.
    apply andb_prop in Hm as [Hm _]. 
    apply andb_prop in Hm as [_ Hm]. apply bool_decide_eq_true in Hm. simpl in Hm. subst.
    apply Hp, Hacts.
Qed.

End Ordinary.

End Steps.
End Registry.
