(* ===== verification/Events.v ===== *)
(** Events of contracts (x/wasm/keeper/events.go, types/events.go) and the
    event handling of the message dispatcher: validation and prefixing of what
    a contract emits, the filter for SDK message events, the order of
    attributes handed to a reply. *)
From S2P Require Import Prelude Errors GoStrings Types VMTypes Chain.
Import GoStrings.
Open Scope wasm_scope.

Module Events.

Definition WasmModuleEventType : string := "wasm".
Definition CustomContractEventPrefix : string := "wasm-".
Definition EventTypeStoreCode : string := "store_code".
Definition EventTypeInstantiate : string := "instantiate".
Definition EventTypeExecute : string := "execute".
Definition EventTypeMigrate : string := "migrate".
Definition EventTypePinCode : string := "pin_code".
Definition EventTypeUnpinCode : string := "unpin_code".
Definition EventTypeSudo : string := "sudo".
Definition EventTypeReply : string := "reply".
Definition EventTypeGovContractResult : string := "gov_contract_result".
Definition EventTypeUpdateContractAdmin : string := "update_contract_admin".
Definition EventTypeUpdateContractLabel : string := "update_contract_label".
Definition EventTypeUpdateCodeAccessConfig : string := "update_code_access_config".
Definition EventTypePacketRecv : string := "ibc_packet_received".

Definition AttributeReservedPrefix : string := "_".
Definition AttributeKeyContractAddr : string := "_contract_address".
Definition AttributeKeyCodeID : string := "code_id".
Definition AttributeKeyChecksum : string := "code_checksum".
Definition AttributeKeyResultDataHex : string := "result".
Definition AttributeKeyRequiredCapability : string := "required_capability".
Definition AttributeKeyNewAdmin : string := "new_admin_address".
Definition AttributeKeyNewLabel : string := "new_label".
Definition AttributeKeyCodePermission : string := "code_permission".
Definition AttributeKeyAuthorizedAddresses : string := "authorized_addresses".
Definition AttributeKeyAckSuccess : string := "success".
Definition AttributeKeyAckError : string := "error".
(** sdk.EventTypeMessage, sdk.AttributeKeyModule *)
Definition EventTypeMessage : string := "message".

Definition eventTypeMinLength : N := 2.

(** ** Contract events *)

Fixpoint contract_attributes (customAttributes : list EventAttribute)
    : list EventAttribute + error :=
  match customAttributes with
  | [] => inl []
  | l :: rest =>
      let key := TrimSpace (Key l) in
      if (slen key =? 0)%N
      then inr (Wrap ErrInvalidEvent
                  (String.append "Empty attribute key. Value: " (Value l)))
      else
        let value := TrimSpace (Value l) in
        if HasPrefix key AttributeReservedPrefix
        then inr (Wrap ErrInvalidEvent
               (String.append "Attribute key starts with reserved prefix "
                 (String.append AttributeReservedPrefix
                   (String.append ": '" (String.append key "'")))))
        else match contract_attributes rest with
             | inl attrs => inl (mkAttr key value :: attrs)
             | inr e => inr e
             end
  end.

Definition contractSDKEventAttributes `{Bech32} (customAttributes : list EventAttribute)
    (contractAddr : bytes) : list EventAttribute + error :=
  match contract_attributes customAttributes with
  | inl attrs =>
      inl (mkAttr AttributeKeyContractAddr (AccAddress_String contractAddr) :: attrs)
  | inr e => inr e
  end.

Definition newWasmModuleEvent `{Bech32} (customAttributes : list EventAttribute)
    (contractAddr : bytes) : list Event + error :=
  match contractSDKEventAttributes customAttributes contractAddr with
  | inl attrs => inl [mkEvent WasmModuleEventType attrs]
  | inr e => inr e
  end.

Fixpoint newCustomEvents `{Bech32} (evts : list Event) (contractAddr : bytes)
    : list Event + error :=
  match evts with
  | [] => inl []
  | e :: evts' =>
      let typ := TrimSpace (EType e) in
      if (slen typ <=? eventTypeMinLength)%N
      then inr (Wrap ErrInvalidEvent
             (String.append "Event type too short: '" (String.append typ "'")))
      else match contractSDKEventAttributes (EAttributes e) contractAddr with
           | inr err => inr err
           | inl attributes =>
               match newCustomEvents evts' contractAddr with
               | inl events =>
                   inl (mkEvent (String.append CustomContractEventPrefix typ) attributes
                        :: events)
               | inr err => inr err
               end
           end
  end.

(** ** Event handling of the dispatcher (msg_dispatcher.go) *)

Definition filterEvents (events : list Event) : list Event :=
  filter (fun ev => EType ev <> "message") events.

(** sort.SliceStable with strings.Compare on the keys *)
Definition attr_le (a b : EventAttribute) : bool :=
  bytes_leb (bytes_of_string (Key a)) (bytes_of_string (Key b)).
Fixpoint insert_attr (a : EventAttribute) (l : list EventAttribute)
    : list EventAttribute :=
  match l with
  | [] => [a]
  | b :: l' => if attr_le a b then a :: l else b :: insert_attr a l'
  end.
Definition sort_attrs (l : list EventAttribute) : list EventAttribute :=
  foldr insert_attr [] l.
Definition sort_event (e : Event) : Event := mkEvent (EType e) (sort_attrs (EAttributes e)).

Definition sdkAttributesToWasmVMAttributes (attrs : list EventAttribute)
    : list EventAttribute := (fun a => mkAttr (Key a) (Value a)) <$> attrs.
Definition sdkEventsToWasmVMEvents (events : list Event) : list Event :=
  (fun ev => mkEvent (EType ev) (sdkAttributesToWasmVMAttributes (EAttributes ev)))
    <$> events.

(** ** Properties *)

(** A key a contract may use. *)
Definition contract_key (k : string) : Prop :=
  k <> "" /\ HasPrefix k AttributeReservedPrefix = false.

Lemma contract_attributes_keys l attrs :
  contract_attributes l = inl attrs -> Forall (fun a => contract_key (Key a)) attrs.
Proof.
  revert attrs. induction l as [|a l IH]; simpl; intros attrs E.
  { injection E as <-. constructor. }
  destruct (N.eqb_spec (slen (TrimSpace (Key a))) 0) as [|Hn]; [done|].
  destruct (HasPrefix _ _) eqn:Hp; [done|].
  destruct (contract_attributes l) as [attrs'|]; [|done]. injection E as <-.
  constructor; [|by apply IH]. split; [|done]. simpl. intros Hk. by rewrite Hk in Hn.
Qed.

(** What an event made for a contract looks like: it starts with the address
    of that contract, and no other attribute uses the reserved prefix. *)
Definition attributed `{Bech32} (addr : bytes) (attrs : list EventAttribute) : Prop :=
  exists rest, attrs = mkAttr AttributeKeyContractAddr (AccAddress_String addr) :: rest
    /\ Forall (fun a => contract_key (Key a)) rest.

Lemma contractSDKEventAttributes_attributed `{Bech32} l addr attrs :
  contractSDKEventAttributes l addr = inl attrs -> attributed addr attrs.
Proof.
  unfold contractSDKEventAttributes. destruct (contract_attributes l) as [rest|] eqn:E; [|done].
  intros [= <-]. exists rest. split; [done|]. by eapply contract_attributes_keys.
Qed.

Definition custom_event `{Bech32} (addr : bytes) (e : Event) : Prop :=
  (exists typ, EType e = String.append CustomContractEventPrefix typ
     /\ (eventTypeMinLength < slen typ)%N)
  /\ attributed addr (EAttributes e).

(** A contract cannot forge an event: each of its custom events has a type
    starting with "wasm-" and carries the contract's own address under
    "_contract_address" first, with no second attribute of a reserved name. *)
Theorem newCustomEvents_authentic `{Bech32} evts addr events :
  newCustomEvents evts addr = inl events ->
  length events = length evts /\ Forall (custom_event addr) events.
Proof.
  revert events. induction evts as [|e evts IH]; simpl; intros events E.
  { injection E as <-. by split; [|constructor]. }
  destruct (N.leb_spec (slen (TrimSpace (EType e))) eventTypeMinLength); [done|].
  destruct (contractSDKEventAttributes _ _) as [attrs|] eqn:Ea; [|done].
  destruct (newCustomEvents evts addr) as [events'|]; [|done]. injection E as <-.
  destruct (IH _ eq_refl) as [Hl HF]. split; [simpl; by rewrite Hl|].
  constructor; [|done]. split; [by eexists|].
  by apply contractSDKEventAttributes_attributed in Ea.
Qed.

Lemma filterEvents_app a b : filterEvents (a ++ b) = filterEvents a ++ filterEvents b.
Proof. apply filter_app. Qed.

Lemma insert_attr_perm a l : insert_attr a l ≡ₚ a :: l.
Proof.
  induction l as [|b l IH]; simpl; [done|]. case_match; [done|].
  rewrite IH. apply Permutation_swap.
Qed.

Lemma attr_le_total a b : attr_le a b = false -> attr_le b a = true.
Proof.
  unfold attr_le. intros E.
  destruct (total bytes_le (bytes_of_string (Key a)) (bytes_of_string (Key b)))
    as [Hle|Hle]; unfold bytes_le in Hle; congruence.
Qed.

Lemma attr_le_trans a b c : attr_le a b = true -> attr_le b c = true -> attr_le a c = true.
Proof. apply (transitivity (R := bytes_le)). Qed.

Lemma insert_attr_sorted a l :
  StronglySorted (fun x y => attr_le x y = true) l ->
  StronglySorted (fun x y => attr_le x y = true) (insert_attr a l).
Proof.
  induction 1 as [|b l HS IH HF]; simpl; [by repeat constructor|].
  destruct (attr_le a b) eqn:E.
  - constructor; [by constructor|]. constructor; [done|].
    eapply Forall_impl; [exact HF|]. intros x Hx. by eapply attr_le_trans.
  - constructor; [done|]. rewrite insert_attr_perm. constructor; [|done].
    by apply attr_le_total.
Qed.

Lemma insert_attr_filter k a l :
  filter (fun x => Key x = k) (insert_attr a l)
  = filter (fun x => Key x = k) (a :: l).
Proof.
  induction l as [|b l IH]; simpl insert_attr; [done|].
  destruct (attr_le a b) eqn:E; [done|].
  rewrite filter_cons, IH, !filter_cons.
  destruct (decide (Key b = k)) as [Hb|]; destruct (decide (Key a = k)) as [Ha|]; try done.
  exfalso. unfold attr_le in E. rewrite Ha, Hb in E.
  by rewrite (reflexivity (R := bytes_le)) in E.
Qed.

(** The attributes handed to a reply are the emitted ones in ascending key
    order, and attributes with equal keys keep their order, so every node
    presents the same list to the contract. *)
Theorem sort_attrs_spec l :
  sort_attrs l ≡ₚ l
  /\ StronglySorted (fun x y => attr_le x y = true) (sort_attrs l)
  /\ forall k, filter (fun x => Key x = k) (sort_attrs l)
             = filter (fun x => Key x = k) l.
Proof.
  unfold sort_attrs. induction l as [|a l (IHp & IHs & IHf)]; simpl.
  { split_and!; [done|constructor|done]. }
  split_and!.
  - rewrite insert_attr_perm. by f_equiv.
  - by apply insert_attr_sorted.
  - intros k. rewrite insert_attr_filter, !filter_cons. by rewrite IHf.
Qed.

End Events.
