(* ===== verification/Keeper.v ===== *)
(** The keeper (x/wasm/keeper/keeper.go, addresses.go, ibc.go): uploading,
    instantiating, executing, migrating, sudo and reply, administration, and
    the handling of a contract's response. The response handler that
    dispatches a contract's messages and the query plugins are parameters of
    this file; they are tied to the keeper in the files that follow. *)
From S2P Require Import Prelude Errors GoStrings Json Types Keys VMTypes Policy GasRegister Chain Logic Engine Store Events.
Import GoStrings Keys Store.Store Events.Events.
Open Scope wasm_scope.

(** ** Other modules' keepers (x/wasm/types/expected_keepers.go) *)

(** sdk.AccountI as the module looks at it: [acc_vesting] is the original
    vesting of an account type that implements VestingAccount. *)
Record AccountI := mkAccount {
  acc_Address : bytes;
  acc_Sequence : N;
  acc_PubKey : option bytes;
  acc_Type : string;
  acc_vesting : option Coins;
}.

Class Keepers `{Modules} := {
  GetAccount : bytes -> Ext (option AccountI);
  NewAccountWithAddress : bytes -> Ext AccountI;
  SetAccount : AccountI -> Ext unit;
  IsSendEnabledCoins : Coins -> Ext unit;
  BlockedAddr : bytes -> bool;
  SendCoins : AccAddress -> bytes -> Coins -> Ext unit;
  GetBalance : bytes -> string -> Ext sdkCoin;
  SendCoinsFromAccountToModule : bytes -> string -> Coins -> Ext unit;
  BurnCoins : string -> Coins -> Ext unit;
  Capability : Type;
  BindPort : string -> Ext Capability;
  GetCapability : string -> Ext (option Capability);
  ClaimCapability : Capability -> string -> Ext unit;
  (** ibc-go's host.PortPath *)
  PortPath : string -> string;
}.

(** compress/gzip: the error of NewReader, or what reading to the end yields:
    the content, the error at its end if any, and whether the end is reported
    together with the last bytes. *)
Class Gzip := { gzip_read : bytes -> (bytes * option error * bool) + error }.

(** ** x/wasm/ioutils *)

Definition gzipIdent : bytes := [Byte.x1f; Byte.x8b; Byte.x08].
Definition IsGzip (input : bytes) : bool :=
  Nat.leb 3 (length input) && bool_decide (gzipIdent = take 3 input).

Definition errLimit : error := EText "exceeds limit".
Definition limit_error (limit : N) : error :=
  Wrap errLimit (String.append "max " (String.append (pretty limit) " bytes")).

(** Uncompress through LimitReader: a read after [limit] bytes fails, so
    content of exactly that size is accepted only when its end came with the
    last bytes. *)
Definition Uncompress `{Gzip} (gzipSrc : bytes) (limit : N) : bytes + error :=
  if (limit <? blen gzipSrc)%N then inr (limit_error limit)
  else match gzip_read gzipSrc with
       | inr err => inr err
       | inl (content, endErr, endWithData) =>
           if (limit <? blen content)%N
              || ((blen content =? limit)%N && (negb endWithData || (limit =? 0)%N))
           then inr (limit_error limit)
           else match endErr with None => inl content | Some err => inr err end
       end.

(** ** Configuration of the keeper *)

Record KeeperConfig := mkKeeperConfig {
  gasRegister : GasRegister.WasmGasRegisterConfig;
  maxQueryStackSize : N;
  maxCallDepth : N;
  acceptedAccountTypes : list string;
  propagateGovAuthorization : gset N;
  authority : string;
  queryGasLimit : N;
}.

Module Keeper.

Section Keeper.
Context `{GasMeters, Modules, KVStorePkg, Bech32, ErrorsMod, UnicodeTables,
  AddressPkg, CoinsPkg, Codecs, Gzip}.
Context `{!WasmEngine, !Keepers}.
Context (k : KeeperConfig).
Context (json_QueryRequest : bytes -> QueryRequest + string).
Context (HandleQuery : Context -> bytes -> QueryRequest -> M bytes).
(** WasmVMResponseHandler.Handle *)
Context (wasmVMResponseHandler : Context -> bytes -> string -> list SubMsg ->
  option bytes -> M (option bytes)).

(** ** Gas *)

Definition runtimeGasForContract : M N :=
  m ← gets meter;
  if IsOutOfGas m then mret 0%N
  else if (Limit m =? MaxUint64)%N then mret MaxUint64
  else lift (GasRegister.ToWasmVMGas (gasRegister k)
               (sub64 (Limit m) (GasConsumedToLimit m))).
Definition consumeRuntimeGas (gas : N) : M unit :=
  consumed ← lift (GasRegister.FromWasmVMGas (gasRegister k) gas);
  _ ← consume consumed "wasm contract";
  m ← gets meter;
  if IsOutOfGas m then throw (POutOfGas "Wasm engine function execution") else mret tt.

(** k.gasMeter(ctx) for the VM, and the gas register of the query handler. *)
Definition gasMeter : CallMeters :=
  mkCallMeters (MultipliedGasMeter (gasRegister k)) (gasRegister k).

Definition querier (ctx : Context) (contractAddress : bytes)
    : bytes -> N -> M QuerierResult :=
  RustQuery (gasRegister k) json_QueryRequest HandleQuery ctx contractAddress.

(** Setup cost of a call to the code with this checksum. *)
Definition charge_setup (codeID : N) (checksum msg : bytes) (descriptor : string)
    : M unit :=
  isPinned ← IsPinnedCode codeID;
  discount ← checkDiscountEligibility checksum isPinned;
  setupCost ← lift (GasRegister.SetupContractCost (gasRegister k) discount
                      (Z.of_N (blen msg)));
  consume setupCost descriptor.

(** What follows a call into the VM: the gas is charged, a VM error and an
    error of the contract are returned as errors of their own kinds. *)
Definition finish_call (r : (ContractResult + string) * N) (contractErr : error)
    : M (option Response) :=
  let '(res, gasUsed) := r in
  _ ← consumeRuntimeGas gasUsed;
  match res with
  | inr err => fail (Wrap ErrVMError err)
  | inl res =>
      if decide (CR_Err res = "") then mret (CR_Ok res)
      else fail (MarkErrorDeterministic (Wrap contractErr (CR_Err res)))
  end.

(** Access to a field of [res.Ok]. *)
Definition deref {A} (p : option A) : M A :=
  match p with
  | Some a => mret a
  | None => throw (PRuntime "invalid memory address or nil pointer dereference")
  end.

(** ** Funds *)

Definition TransferCoins (ctx : Context) (fromAddr : AccAddress) (toAddr : bytes)
    (amount : Coins) : M unit :=
  '(o, em) ← with_events
    (_ ← call_ext ctx (IsSendEnabledCoins amount);
     _ ← guard_err (BlockedAddr toAddr) (Wrap ErrUnauthorized
            (String.append (AccAddress_String toAddr) " is not allowed to receive funds"));
     call_ext ctx (SendCoins fromAddr toAddr amount));
  match o with
  | Ret _ => emit (filter (fun e => EType e <> EventTypeMessage) em)
  | Fail e => fail e
  | Panic p => throw p
  end.

(** VestingCoinBurner.CleanupExistingAccount *)
Fixpoint balances_of (ctx : Context) (addr : bytes) (orig : Coins) : M Coins :=
  match orig with
  | [] => mret []
  | c :: orig' =>
      b ← call_ext ctx (GetBalance addr (coin_Denom c));
      bs ← balances_of ctx addr orig'; mret (b :: bs)
  end.
Definition CleanupExistingAccount (ctx : Context) (existingAcc : AccountI) : M bool :=
  match acc_vesting existingAcc with
  | None => mret false
  | Some originalVesting =>
      '(o, _) ← with_meter NewInfiniteGasMeter
        (coinsToBurn ← balances_of ctx (acc_Address existingAcc) originalVesting;
         _ ← wrap_err "prune account balance"
               (call_ext ctx (SendCoinsFromAccountToModule (acc_Address existingAcc)
                                ModuleName coinsToBurn));
         _ ← wrap_err "burn account balance" (call_ext ctx (BurnCoins ModuleName coinsToBurn));
         mret true);
      lift o
  end.

(** ** IBC ports (ibc.go) *)

Definition portIDPrefix : string := "wasm.".
Definition PortIDForContract (addr : bytes) : string :=
  String.append portIDPrefix (AccAddress_String addr).
Definition ContractFromPortID (portID : string) : bytes + error :=
  if negb (HasPrefix portID portIDPrefix) then inr (Wrap ErrInvalid "without prefix")
  else AccAddressFromBech32
         (string_of_bytes (drop (String.length portIDPrefix) (bytes_of_string portID))).
Definition bindIbcPort (ctx : Context) (portID : string) : M unit :=
  portCap ← call_ext ctx (BindPort portID);
  call_ext ctx (ClaimCapability portCap (PortPath portID)).
Definition ensureIbcPort (ctx : Context) (contractAddr : bytes) : M string :=
  let portID := PortIDForContract contractAddr in
  c ← call_ext ctx (GetCapability (PortPath portID));
  match c with
  | Some _ => mret portID
  | None => _ ← bindIbcPort ctx portID; mret portID
  end.

(** ** Contract addresses (addresses.go) *)

Abbreviation AddressGenerator := (Context -> N -> bytes -> M bytes).

(** [addr[:ContractAddrLen]] *)
Definition contract_address (addr : bytes) : outcome bytes :=
  if Nat.ltb (length addr) ContractAddrLen
  then Panic (PRuntime "slice bounds out of range")
  else Ret (take ContractAddrLen addr).
Definition BuildContractAddressClassic (codeID instanceID : N) : outcome bytes :=
  contract_address (address_Module ModuleName
    (Uint64ToBigEndian codeID ++ Uint64ToBigEndian instanceID)).
Definition ClassicAddressGenerator : AddressGenerator := fun _ codeID _ =>
  instanceID ← mustAutoIncrementID KeySequenceInstanceID;
  lift (BuildContractAddressClassic codeID instanceID).

Definition UInt64LengthPrefix (bz : bytes) : bytes := Uint64ToBigEndian (blen bz) ++ bz.
(** The key the address is derived from. *)
Definition predictable_key (checksum creator salt initMsg : bytes) : bytes :=
  UInt64LengthPrefix checksum ++ UInt64LengthPrefix creator
  ++ UInt64LengthPrefix salt ++ UInt64LengthPrefix initMsg.
Definition BuildContractAddressPredictable (checksum : bytes) (creator : AccAddress)
    (salt initMsg : bytes) : outcome bytes :=
  let creator := default [] creator in
  if negb (Nat.eqb (length checksum) 32) then Panic (PText "invalid checksum")
  else match VerifyAddressFormat creator with
  | Some err => Panic (PText (String.append "creator: " (error_string err)))
  | None =>
  match ValidateSalt salt with
  | Some err => Panic (PText (String.append "salt: " (error_string err)))
  | None =>
  match (if Nat.eqb (length initMsg) 0 then None
         else RawContractMessage_ValidateBasic initMsg) with
  | Some err => Panic (PText (String.append "initMsg: " (error_string err)))
  | None =>
      contract_address (address_Module ModuleName
        (predictable_key checksum creator salt initMsg))
  end end end.
Definition PredictableAddressGenerator (creator : AccAddress) (salt msg : bytes)
    (fixMsg : bool) : AddressGenerator := fun _ _ checksum =>
  lift (BuildContractAddressPredictable checksum creator salt (if fixMsg then msg else [])).

(** ** Events and messages of a response *)

Definition handleContractResponse (ctx : Context) (contractAddr : bytes)
    (ibcPort : string) (r : Response) : M (option bytes) :=
  attributeGasCost ← lift (GasRegister.EventCosts (gasRegister k) (Attributes r) (VM.Events r));
  _ ← consume attributeGasCost "Custom contract event attributes";
  _ ← (if Nat.eqb (length (Attributes r)) 0 then mret tt
       else match newWasmModuleEvent (Attributes r) contractAddr with
            | inl wasmEvents => emit wasmEvents
            | inr err => fail err
            end);
  _ ← (if Nat.eqb (length (VM.Events r)) 0 then mret tt
       else match newCustomEvents (VM.Events r) contractAddr with
            | inl customEvents => emit customEvents
            | inr err => fail err
            end);
  wasmVMResponseHandler ctx contractAddr ibcPort (Messages r) (Data r).

(** ** Upload *)

Definition format_id (n : N) : string := pretty n.

(** strings.Split(s, ",") *)
Fixpoint split_comma (s : bytes) (cur : bytes) : list bytes :=
  match s with
  | [] => [cur]
  | b :: s' => if Byte.eqb b Byte.x2c then cur :: split_comma s' []
               else split_comma s' (cur ++ [b])
  end.

Definition uncompress_code (wasmCode : bytes) (limit : N) : M bytes :=
  match Uncompress wasmCode limit with
  | inl code => mret code
  | inr err => fail (Wrap ErrCreateFailed (error_string (Wrap err "uncompress wasm archive")))
  end.

Definition create (ctx : Context) (creator : AccAddress) (wasmCode : bytes)
    (instantiateAccess : option AccessConfig) (authZ : Policy.AuthorizationPolicy)
    : M (N * bytes) :=
  _ ← guard_err (bool_decide (creator = None)) (Wrap ErrInvalidAddress "cannot be nil");
  defaultType ← getInstantiateAccessConfig;
  defaultAccessConfig ← lift (With defaultType [creator]);
  let instantiateAccess := default defaultAccessConfig instantiateAccess in
  upload ← getUploadAccessConfig;
  let chainConfigs := Policy.mkChainAccessConfigs upload defaultAccessConfig in
  ok ← lift (Policy.CanCreateCode authZ chainConfigs creator instantiateAccess);
  _ ← guard_err (negb ok) (Wrap ErrUnauthorized "can not create code");
  wasmCode ← (if IsGzip wasmCode then
                c ← lift (GasRegister.UncompressCosts (gasRegister k)
                            (Z.of_N (blen wasmCode)));
                _ ← consume c "Uncompress gzip bytecode";
                uncompress_code wasmCode MaxWasmSize
              else mret wasmCode);
  gasLeft ← runtimeGasForContract;
  '(stored, gasUsed) ← VM_StoreCode wasmCode gasLeft;
  _ ← consumeRuntimeGas gasUsed;
  match stored with
  | inr err => fail (Wrap ErrCreateFailed err)
  | inl checksum =>
      report ← VM_AnalyzeCode checksum;
      match report with
      | inr err => fail (Wrap ErrCreateFailed err)
      | inl report =>
          codeID ← mustAutoIncrementID KeySequenceCodeID;
          _ ← mustStoreCodeInfo codeID (NewCodeInfo checksum creator instantiateAccess);
          _ ← emit_event EventTypeStoreCode
                ([(AttributeKeyChecksum, hex_encode checksum);
                  (AttributeKeyCodeID, format_id codeID)]
                 ++ ((fun f => (AttributeKeyRequiredCapability,
                                TrimSpace (string_of_bytes f)))
                     <$> split_comma (bytes_of_string (RequiredCapabilities report)) []));
          mret (codeID, checksum)
      end
  end.

Definition MaxInt64 : N := 9223372036854775807.
Definition importCode (codeID : N) (codeInfo : CodeInfo) (wasmCode : bytes) : M unit :=
  wasmCode ← (if IsGzip wasmCode then uncompress_code wasmCode MaxInt64 else mret wasmCode);
  stored ← VM_StoreCodeUnchecked wasmCode;
  match stored with
  | inr err => fail (Wrap ErrCreateFailed err)
  | inl newCodeHash =>
      _ ← guard_err (negb (bool_decide (CodeHash codeInfo = newCodeHash)))
            (Wrap ErrInvalid "code hashes not same");
      ok ← wrap_err "has code-id key" (kv_has (GetCodeKey codeID));
      _ ← guard_err ok (Wrap ErrDuplicate
             (String.append "duplicate code: " (format_id codeID)));
      bz ← MustMarshal codeInfo;
      kv_set (GetCodeKey codeID) bz
  end.

Definition GetByteCode (codeID : N) : M (option bytes) :=
  bz ← kv_get (GetCodeKey codeID);
  match bz with
  | None => mret None
  | Some bz =>
      codeInfo ← MustUnmarshal bz;
      r ← VM_GetCode (CodeHash (codeInfo : CodeInfo));
      match r with inl code => mret (Some code) | inr err => fail (EText err) end
  end.

(** ** Instantiate *)

Definition errAccountClaimed : error :=
  Wrap ErrAccountExists "address is claimed by external account".

(** The contract's account: a fresh one, an existing one of an accepted type,
    or one that is pruned. *)
Definition prepare_account (ctx : Context) (contractAddress : bytes) : M unit :=
  existingAcct ← call_ext ctx (GetAccount contractAddress);
  match existingAcct with
  | Some acct =>
      _ ← guard_err (negb (acc_Sequence acct =? 0)%N || bool_decide (acc_PubKey acct <> None))
            errAccountClaimed;
      if bool_decide (acc_Type acct ∈ acceptedAccountTypes k) then mret tt
      else
        contractAccount ← call_ext ctx (NewAccountWithAddress contractAddress);
        _ ← call_ext ctx (SetAccount contractAccount);
        handled ← wrap_err "prune balance" (CleanupExistingAccount ctx acct);
        guard_err (negb handled) errAccountClaimed
  | None =>
      contractAccount ← call_ext ctx (NewAccountWithAddress contractAddress);
      call_ext ctx (SetAccount contractAccount)
  end.

Definition errNoSuchCode (codeID : N) : error :=
  Wrap (ErrNoSuchCodeFn codeID) (String.append "code id " (format_id codeID)).

(** Storing the new instance: the two index entries, the history, the info. *)
Definition persist_instance (contractAddress : bytes) (creator : AccAddress)
    (contractInfo : ContractInfo) (initMsg : bytes) : M unit :=
  let historyEntry := InitialHistory contractInfo initMsg in
  _ ← addToContractCodeSecondaryIndex contractAddress historyEntry;
  _ ← addToContractCreatorSecondaryIndex (default [] creator) (Updated historyEntry)
        contractAddress;
  _ ← appendToContractHistory contractAddress [historyEntry];
  mustStoreContractInfo contractAddress contractInfo.

Definition instantiate (ctx : Context) (codeID : N) (creator admin : AccAddress)
    (initMsg : bytes) (label : string) (deposit : Coins)
    (addressGenerator : AddressGenerator) (authPolicy : Policy.AuthorizationPolicy)
    : M (bytes * option bytes) :=
  _ ← guard_err (bool_decide (creator = None)) (Wrap ErrEmpty "creator");
  ci ← GetCodeInfo codeID;
  match ci with
  | None => fail (errNoSuchCode codeID)
  | Some codeInfo =>
  _ ← charge_setup codeID (CodeHash codeInfo) initMsg "Loading CosmWasm module: instantiate";
  ok ← lift (Policy.CanInstantiateContract authPolicy (InstantiateConfig codeInfo) creator);
  _ ← guard_err (negb ok) (Wrap ErrUnauthorized "can not instantiate");
  contractAddress ← addressGenerator ctx codeID (CodeHash codeInfo);
  exists_ ← HasContractInfo contractAddress;
  _ ← guard_err exists_ (Wrap ErrDuplicate
         "contract address already exists, try a different combination of creator, checksum and salt");
  _ ← prepare_account ctx contractAddress;
  _ ← (if Coins_IsZero deposit then mret tt
       else TransferCoins ctx creator contractAddress deposit);
  env ← lift (NewEnv ctx contractAddress);
  let info := NewInfo creator deposit in
  gasLeft ← runtimeGasForContract;
  r ← VM_Instantiate gasMeter (querier ctx contractAddress)
        (GetContractStorePrefix contractAddress) (CodeHash codeInfo) env info initMsg gasLeft;
  res ← finish_call r ErrInstantiateFailed;
  createdAt ← lift (NewAbsoluteTxPosition ctx);
  let contractInfo := NewContractInfo codeID creator admin label createdAt in
  report ← VM_AnalyzeCode (CodeHash codeInfo);
  match report with
  | inr err => fail (Wrap ErrVMError err)
  | inl report =>
  contractInfo ← (if HasIBCEntryPoints report then
                    ibcPort ← ensureIbcPort ctx contractAddress;
                    mret (set_IBCPortID ibcPort contractInfo)
                  else mret contractInfo);
  _ ← persist_instance contractAddress creator contractInfo initMsg;
  _ ← emit_event EventTypeInstantiate
        [(AttributeKeyContractAddr, AccAddress_String contractAddress);
         (AttributeKeyCodeID, format_id codeID)];
  let ctx := WithSubMsgAuthzPolicy ctx
        (Policy.SubMessageAuthorizationPolicy authPolicy Policy.AuthZActionInstantiate) in
  res ← deref res;
  data ← wrap_err "dispatch"
           (handleContractResponse ctx contractAddress (IBCPortID contractInfo) res);
  mret (contractAddress, data)
  end end.

(** ** Execute, sudo, reply *)

(** The part shared by execute, Sudo and reply after the VM returned. *)
Definition conclude (ctx : Context) (contractAddress : bytes) (contractInfo : ContractInfo)
    (eventType : string) (res : option Response) : M (option bytes) :=
  _ ← emit_event eventType
        [(AttributeKeyContractAddr, AccAddress_String contractAddress)];
  res ← deref res;
  handleContractResponse ctx contractAddress (IBCPortID contractInfo) res.

Definition execute (ctx : Context) (contractAddress : bytes) (caller : AccAddress)
    (msg : bytes) (coins : Coins) : M (option bytes) :=
  '(contractInfo, codeInfo, prefixStore) ← contractInstance contractAddress;
  _ ← charge_setup (CodeID contractInfo) (CodeHash codeInfo) msg
        "Loading CosmWasm module: execute";
  _ ← (if Coins_IsZero coins then mret tt
       else TransferCoins ctx caller contractAddress coins);
  env ← lift (NewEnv ctx contractAddress);
  let info := NewInfo caller coins in
  gasLeft ← runtimeGasForContract;
  r ← VM_Execute gasMeter (querier ctx contractAddress) prefixStore
        (CodeHash codeInfo) env info msg gasLeft;
  res ← finish_call r ErrExecuteFailed;
  conclude ctx contractAddress contractInfo EventTypeExecute res.

Definition Sudo (ctx : Context) (contractAddress msg : bytes) : M (option bytes) :=
  '(contractInfo, codeInfo, prefixStore) ← contractInstance contractAddress;
  _ ← charge_setup (CodeID contractInfo) (CodeHash codeInfo) msg
        "Loading CosmWasm module: sudo";
  env ← lift (NewEnv ctx contractAddress);
  gasLeft ← runtimeGasForContract;
  r ← VM_Sudo gasMeter (querier ctx contractAddress) prefixStore
        (CodeHash codeInfo) env msg gasLeft;
  res ← finish_call r ErrExecuteFailed;
  wrap_err "dispatch" (conclude ctx contractAddress contractInfo EventTypeSudo res).

Definition reply (ctx : Context) (contractAddress : bytes) (rep : Reply) : M (option bytes) :=
  '(contractInfo, codeInfo, prefixStore) ← contractInstance contractAddress;
  replyCosts ← lift (GasRegister.ReplyCosts (gasRegister k) true rep);
  _ ← consume replyCosts "Loading CosmWasm module: reply";
  env ← lift (NewEnv ctx contractAddress);
  gasLeft ← runtimeGasForContract;
  r ← VM_Reply gasMeter (querier ctx contractAddress) prefixStore
        (CodeHash codeInfo) env rep gasLeft;
  res ← finish_call r ErrExecuteFailed;
  wrap_err "dispatch" (conclude ctx contractAddress contractInfo EventTypeReply res).

(** ** Migrate *)

Definition callMigrateEntrypoint (ctx : Context) (contractAddress newChecksum msg : bytes)
    (newCodeID : N) (senderAddress : AccAddress) (oldMigrateVersion : option N)
    : M (option Response) :=
  _ ← charge_setup newCodeID newChecksum msg "Loading CosmWasm module: migrate";
  env ← lift (NewEnv ctx contractAddress);
  gasLeft ← runtimeGasForContract;
  let migrateInfo := mkMigrateInfo (acc_string senderAddress) oldMigrateVersion in
  r ← VM_MigrateWithInfo gasMeter (querier ctx contractAddress)
        (GetContractStorePrefix contractAddress) newChecksum env msg migrateInfo gasLeft;
  finish_call r ErrMigrationFailed.

(** The IBC port of the contract after the migration. *)
Definition migrate_port (ctx : Context) (contractAddress : bytes)
    (contractInfo : ContractInfo) (report : AnalysisReport) : M ContractInfo :=
  let noPort := bool_decide (IBCPortID contractInfo = "") in
  if negb (HasIBCEntryPoints report) && negb noPort
  then fail (Wrap ErrMigrationFailed "requires ibc callbacks")
  else if HasIBCEntryPoints report && noPort
  then ibcPort ← ensureIbcPort ctx contractAddress;
       mret (set_IBCPortID ibcPort contractInfo)
  else mret contractInfo.

(** Both migrate versions are set and equal. *)
Definition same_migrate_version (new old : option N) : bool :=
  match new, old with Some n, Some o => (n =? o)%N | _, _ => false end.

(** The index entry of the old code goes, the history entry, the index entry
    of the new code and the updated info come. *)
Definition persist_migration (ctx : Context) (contractAddress : bytes)
    (contractInfo : ContractInfo) (newCodeID : N) (msg : bytes) : M ContractInfo :=
  lastEntry ← mustGetLastContractHistoryEntry contractAddress;
  _ ← removeFromContractCodeSecondaryIndex contractAddress lastEntry;
  pos ← lift (NewAbsoluteTxPosition ctx);
  let '(historyEntry, contractInfo) := AddMigration pos newCodeID msg contractInfo in
  _ ← appendToContractHistory contractAddress [historyEntry];
  _ ← addToContractCodeSecondaryIndex contractAddress historyEntry;
  _ ← mustStoreContractInfo contractAddress contractInfo;
  mret contractInfo.

Definition migrate (ctx : Context) (contractAddress : bytes) (caller : AccAddress)
    (newCodeID : N) (msg : bytes) (authZ : Policy.AuthorizationPolicy)
    : M (option bytes) :=
  c ← GetContractInfo contractAddress;
  match c with
  | None => fail (Wrap ErrInvalidRequest "unknown contract")
  | Some contractInfo =>
  admin ← lift (AdminAddr contractInfo);
  _ ← guard_err (negb (Policy.CanModifyContract authZ admin caller))
        (Wrap ErrUnauthorized "can not migrate");
  n ← GetCodeInfo newCodeID;
  match n with
  | None => fail (Wrap ErrInvalidRequest "unknown code")
  | Some newCodeInfo =>
  ok ← lift (Policy.CanInstantiateContract authZ (InstantiateConfig newCodeInfo) caller);
  _ ← guard_err (negb ok) (Wrap ErrUnauthorized "to use new code");
  rep ← VM_AnalyzeCode (CodeHash newCodeInfo);
  match rep with
  | inr err => fail (Wrap ErrVMError err)
  | inl report =>
  contractInfo ← migrate_port ctx contractAddress contractInfo report;
  o ← GetCodeInfo (CodeID contractInfo);
  oldCodeInfo ← deref o;
  oldRep ← VM_AnalyzeCode (CodeHash oldCodeInfo);
  match oldRep with
  | inr err => fail (Wrap ErrVMError err)
  | inl oldReport =>
  response ← (if same_migrate_version (ContractMigrateVersion report)
                   (ContractMigrateVersion oldReport)
              then mret None
              else callMigrateEntrypoint ctx contractAddress (CodeHash newCodeInfo) msg
                     newCodeID caller (ContractMigrateVersion oldReport));
  contractInfo ← persist_migration ctx contractAddress contractInfo newCodeID msg;
  _ ← emit_event EventTypeMigrate
        [(AttributeKeyCodeID, format_id newCodeID);
         (AttributeKeyContractAddr, AccAddress_String contractAddress)];
  match response with
  | None => mret None
  | Some response =>
      let ctx := WithSubMsgAuthzPolicy ctx
        (Policy.SubMessageAuthorizationPolicy authZ Policy.AuthZActionMigrateContract) in
      wrap_err "dispatch"
        (handleContractResponse ctx contractAddress (IBCPortID contractInfo) response)
  end end end end end.

(** ** Administration *)

(** The check common to setContractAdmin and setContractLabel. *)
Definition modifiable_contract (contractAddress : bytes) (caller : AccAddress)
    (authZ : Policy.AuthorizationPolicy) : M ContractInfo :=
  c ← GetContractInfo contractAddress;
  match c with
  | None => fail (Wrap ErrInvalidRequest "unknown contract")
  | Some contractInfo =>
      admin ← lift (AdminAddr contractInfo);
      _ ← guard_err (negb (Policy.CanModifyContract authZ admin caller))
            (Wrap ErrUnauthorized "can not modify contract");
      mret contractInfo
  end.

Definition setContractAdmin (contractAddress : bytes) (caller newAdmin : AccAddress)
    (authZ : Policy.AuthorizationPolicy) : M unit :=
  contractInfo ← modifiable_contract contractAddress caller authZ;
  let newAdminStr := acc_string newAdmin in
  _ ← mustStoreContractInfo contractAddress (set_Admin newAdminStr contractInfo);
  emit_event EventTypeUpdateContractAdmin
    [(AttributeKeyContractAddr, AccAddress_String contractAddress);
     (AttributeKeyNewAdmin, newAdminStr)].

Definition setContractLabel (contractAddress : bytes) (caller : AccAddress)
    (newLabel : string) (authZ : Policy.AuthorizationPolicy) : M unit :=
  contractInfo ← modifiable_contract contractAddress caller authZ;
  _ ← mustStoreContractInfo contractAddress (set_Label newLabel contractInfo);
  emit_event EventTypeUpdateContractLabel
    [(AttributeKeyContractAddr, AccAddress_String contractAddress);
     (AttributeKeyNewLabel, newLabel)].

(** strings.Join(addrs, ",") *)
Definition join_comma (l : list string) : string := String.concat "," l.

Definition setAccessConfig (codeID : N) (caller : AccAddress) (newConfig : AccessConfig)
    (authz : Policy.AuthorizationPolicy) : M unit :=
  i ← GetCodeInfo codeID;
  match i with
  | None => fail (errNoSuchCode codeID)
  | Some info =>
      chainDefault ← getInstantiateAccessConfig;
      let isSubset := AccessType_IsSubset (Permission newConfig) chainDefault in
      creator ← (match AccAddressFromBech32 (CodeCreator info) with
                 | inl a => mret a
                 | inr err => throw (PError err)
                 end);
      _ ← guard_err (negb (Policy.CanModifyCodeAccessConfig authz (Some creator) caller isSubset))
            (Wrap ErrUnauthorized "can not modify code access config");
      _ ← mustStoreCodeInfo codeID
            (mkCodeInfo (CodeHash info) (CodeCreator info) newConfig);
      let addrs := AllAuthorizedAddresses newConfig in
      emit_event EventTypeUpdateCodeAccessConfig
        ([(AttributeKeyCodePermission, AccessType_String (Permission newConfig));
          (AttributeKeyCodeID, format_id codeID)]
         ++ (if Nat.eqb (length addrs) 0 then []
             else [(AttributeKeyAuthorizedAddresses, join_comma addrs)]))
  end.

(** [ext] is the extension packed into an Any with the ValidateBasic error of
    its type, if it has one and fails, and the error of the packing. *)
Definition setContractInfoExtension (contractAddr : bytes)
    (ext : option (option error * (Types.AnyMsg + string))) : M unit :=
  i ← GetContractInfo contractAddr;
  match i with
  | None =>
      fail (Wrap (ErrNoSuchContractFn (AccAddress_String contractAddr))
              (String.append "address " (AccAddress_String contractAddr)))
  | Some info =>
      packed ← (match ext with
                | None => mret None
                | Some (invalid, packed) =>
                    _ ← check invalid;
                    match packed with
                    | inl a => mret (Some a)
                    | inr err => fail (Wrap ErrPackAny err)
                    end
                end);
      mustStoreContractInfo contractAddr (set_Extension packed info)
  end.

(** ** Pinning *)

Definition pinCode (codeID : N) : M unit :=
  i ← GetCodeInfo codeID;
  match i with
  | None => fail (errNoSuchCode codeID)
  | Some codeInfo =>
      e ← VM_Pin (CodeHash codeInfo);
      match e with
      | Some err => fail (Wrap ErrPinContractFailed err)
      | None =>
          _ ← kv_set (GetPinnedCodeIndexPrefix codeID) [Byte.x01];
          emit_event EventTypePinCode [(AttributeKeyCodeID, format_id codeID)]
      end
  end.

Definition unpinCode (codeID : N) : M unit :=
  i ← GetCodeInfo codeID;
  match i with
  | None => fail (errNoSuchCode codeID)
  | Some codeInfo =>
      e ← VM_Unpin (CodeHash codeInfo);
      match e with
      | Some err => fail (Wrap ErrUnpinContractFailed err)
      | None =>
          _ ← kv_delete (GetPinnedCodeIndexPrefix codeID);
          emit_event EventTypeUnpinCode [(AttributeKeyCodeID, format_id codeID)]
      end
  end.

Definition InitializePinnedCodes : M unit :=
  iterate PinnedCodeIndexPrefix None None false
    (fun key _ _ =>
       codeID ← lift (ParsePinnedCodeIndex key);
       i ← GetCodeInfo codeID;
       match i with
       | None => fail (errNoSuchCode codeID)
       | Some codeInfo =>
           e ← VM_Pin (CodeHash codeInfo);
           match e with
           | Some err => fail (Wrap ErrPinContractFailed err)
           | None => mret (tt, false)
           end
       end) tt.

(** ** Call depth and queries *)

(** [counter++] on uint32 *)
Definition inc32 (n : N) : N := wrap32 (n + 1).

Definition checkAndIncreaseQueryStackSize (ctx : Context) (maxQueryStackSize : N)
    : Context + error :=
  let queryStackSize := inc32 (default 0%N (ctx_QueryStackSize ctx)) in
  if (maxQueryStackSize <? queryStackSize)%N then inr ErrExceedMaxQueryStackSize
  else inl (WithQueryStackSize ctx queryStackSize).

Definition checkAndIncreaseCallDepth (ctx : Context) (maxCallDepth : N) : Context + error :=
  let callDepth := inc32 (default 0%N (ctx_CallDepth ctx)) in
  if (maxCallDepth <? callDepth)%N then inr ErrExceedMaxCallDepth
  else inl (WithCallDepth ctx callDepth).

Definition QuerySmart (ctx : Context) (contractAddr req : bytes) : M bytes :=
  match checkAndIncreaseQueryStackSize ctx (maxQueryStackSize k) with
  | inr err => fail err
  | inl ctx =>
      '(contractInfo, codeInfo, prefixStore) ← contractInstance contractAddr;
      _ ← charge_setup (CodeID contractInfo) (CodeHash codeInfo) req
            "Loading CosmWasm module: query";
      env ← lift (NewEnv ctx contractAddr);
      gasLeft ← runtimeGasForContract;
      '(queryResult, gasUsed) ← VM_Query gasMeter (querier ctx contractAddr)
          prefixStore (CodeHash codeInfo) env req gasLeft;
      _ ← consumeRuntimeGas gasUsed;
      match queryResult with
      | inr qErr => fail (Wrap ErrVMError qErr)
      | inl r =>
          if decide (QR_Err r = "") then mret (QR_Ok r)
          else fail (MarkErrorDeterministic (Wrap ErrQueryFailed (QR_Err r)))
      end
  end.


(** ** Predictable addresses *)

Lemma UInt64LengthPrefix_inj x y rx ry :
  is_u64 (blen x) -> is_u64 (blen y) ->
  UInt64LengthPrefix x ++ rx = UInt64LengthPrefix y ++ ry -> x = y /\ rx = ry.
Proof.
  intros Hx Hy. unfold UInt64LengthPrefix. rewrite <- !(assoc_L (++)). intros E.
  apply app_inj_1 in E as [El E];
    [|unfold Uint64ToBigEndian; by rewrite !length_be_encode].
  apply Uint64ToBigEndian_inj in El; [|done..]. unfold blen in El.
  apply app_inj_1 in E; [done|lia].
Qed.

Lemma BuildContractAddressPredictable_key checksum creator salt msg addr :
  BuildContractAddressPredictable checksum (Some creator) salt msg = Ret addr ->
  length checksum = 32
  /\ contract_address (address_Module ModuleName (predictable_key checksum creator salt msg))
     = Ret addr.
Proof.
  unfold BuildContractAddressPredictable. simpl.
  destruct (Nat.eqb_spec (length checksum) 32); [|done]. simpl.
  destruct (VerifyAddressFormat creator), (ValidateSalt salt); try done.
  destruct (if Nat.eqb (length msg) 0 then _ else _); done.
Qed.

(** C36: instantiate2 addresses. The address is derived from a key that
    determines the checksum, the creator, the salt and the message: two calls
    that return get the same key only for the same four inputs, so that,
    hashing apart, nobody else can claim the address. *)
Theorem predictable_address_unique checksum1 creator1 salt1 msg1 addr1
    checksum2 creator2 salt2 msg2 addr2 :
  is_u64 (blen salt1) -> is_u64 (blen salt2) -> is_u64 (blen msg1) -> is_u64 (blen msg2) ->
  is_u64 (blen creator1) -> is_u64 (blen creator2) ->
  BuildContractAddressPredictable checksum1 (Some creator1) salt1 msg1 = Ret addr1 ->
  BuildContractAddressPredictable checksum2 (Some creator2) salt2 msg2 = Ret addr2 ->
  let key1 := predictable_key checksum1 creator1 salt1 msg1 in
  let key2 := predictable_key checksum2 creator2 salt2 msg2 in
  contract_address (address_Module ModuleName key1) = Ret addr1
  /\ contract_address (address_Module ModuleName key2) = Ret addr2
  /\ (key1 = key2 <-> checksum1 = checksum2 /\ creator1 = creator2 /\ salt1 = salt2 /\ msg1 = msg2).
Proof.
  intros Hs1 Hs2 Hm1 Hm2 Hc1 Hc2 E1 E2.
  apply BuildContractAddressPredictable_key in E1 as [L1 E1], E2 as [L2 E2].
  intros key1 key2. split_and!; [exact E1|exact E2|]. unfold key1, key2.
  split; [|by intros (-> & -> & -> & ->)]. unfold predictable_key. intros E.
  assert (is_u64 (blen checksum1)) by (unfold blen; by rewrite L1).
  assert (is_u64 (blen checksum2)) by (unfold blen; by rewrite L2).
  apply UInt64LengthPrefix_inj in E as [-> E]; [|done..].
  apply UInt64LengthPrefix_inj in E as [-> E]; [|done..].
  apply UInt64LengthPrefix_inj in E as [-> E]; [|done..].
  apply (f_equal (fun z => z ++ [])) in E.
  apply UInt64LengthPrefix_inj in E as [-> _]; done.
Qed.

End Keeper.
End Keeper.
