(* ===== verification/Dispatcher.v ===== *)
(** The message dispatcher (x/wasm/keeper/msg_dispatcher.go) and the default
    response handler of keeper.go: submessages run on a branch of the state
    that is committed on success and thrown away on failure, and the contract
    that sent them gets a reply as it asked for. *)
From S2P Require Import Prelude Errors GoStrings Types Keys VMTypes Policy GasRegister Chain Logic Events.
Import GoStrings Events.Events.
Open Scope wasm_scope.

(** What Messenger.DispatchMsg returns besides the error; a nil data slice is
    [None]. *)
Record DispatchResult := mkDispatchResult {
  D_events : list Event;
  D_data : list (option bytes);
  D_msgResponses : list (list Types.AnyMsg);
}.

Module Dispatcher.

Section Dispatcher.
Context `{GasMeters, Modules, KVStorePkg, ErrorsMod}.
Context (DispatchMsg : Context -> bytes -> string -> CosmosMsg -> M DispatchResult).
Context (reply : Context -> bytes -> Reply -> M (option bytes)).

Fixpoint DispatchMessages (ctx : Context) (contractAddr : bytes) (ibcPort : string)
    (msgs : list CosmosMsg) : M unit :=
  match msgs with
  | [] => mret tt
  | msg :: msgs' =>
      r ← DispatchMsg ctx contractAddr ibcPort msg;
      _ ← emit (D_events r);
      DispatchMessages ctx contractAddr ibcPort msgs'
  end.

(** The message under its own gas meter, then the charge to the parent. *)
Definition dispatch_and_charge (ctx : Context) (contractAddr : bytes)
    (ibcPort : string) (msg : CosmosMsg) (gasLimit : N) : M DispatchResult :=
  '(o, limitedMeter) ← with_meter (NewGasMeter gasLimit)
                         (DispatchMsg ctx contractAddr ibcPort msg);
  match o with
  | Panic p => throw p
  | _ => _ ← consume (GasConsumed limitedMeter) "From limited Sub-Message"; lift o
  end.

(** The deferred recover turns running out of gas, and only that, into an
    error and charges the whole limit. *)
Definition dispatchMsgWithGasLimit (ctx : Context) (contractAddr : bytes)
    (ibcPort : string) (msg : CosmosMsg) (gasLimit : N) : M DispatchResult :=
  o ← reify (dispatch_and_charge ctx contractAddr ibcPort msg gasLimit);
  match o with
  | Panic (POutOfGas _) =>
      _ ← consume gasLimit "Sub-Message OutOfGas panic";
      fail (Wrap ErrOutOfGas "SubMsg hit gas limit")
  | _ => lift o
  end.

Definition valid_replyOn (r : replyOn) : bool :=
  match r with
  | ReplySuccess | ReplyError | ReplyAlways | ReplyNever => true
  | _ => false
  end.

(** [limitGas]: a limit is set and below what is left. The difference is
    computed on uint64. *)
Definition effective_limit (m : Meter) (msg : SubMsg) : option N :=
  let gasRemaining := sub64 (Limit m) (GasConsumed m) in
  match GasLimit msg with
  | Some l => if (l <? gasRemaining)%N then Some l else None
  | None => None
  end.

Definition run_submessage (ctx : Context) (contractAddr : bytes) (ibcPort : string)
    (msg : SubMsg) (limit : option N) : M DispatchResult :=
  match limit with
  | Some l => dispatchMsgWithGasLimit ctx contractAddr ibcPort (Msg msg) l
  | None => DispatchMsg ctx contractAddr ibcPort (Msg msg)
  end.

Definition is_wasm (msg : SubMsg) : bool :=
  match Wasm (Msg msg) with Some _ => true | None => false end.

(** What is emitted on success and what of it the reply shows. The attributes
    are sorted in place, in the slices that were emitted. *)
Definition emitted_events (msg : SubMsg) (filtered : list Event) : list Event :=
  if is_wasm msg then sort_event <$> filtered else filtered.
Definition reply_events (msg : SubMsg) (filtered : list Event) : list Event :=
  if is_wasm msg then sort_event <$> filtered else [].

Definition success_result (msg : SubMsg) (filtered : list Event) (r : DispatchResult)
    : SubMsgResult :=
  mkSubMsgResult
    (Some (mkSubMsgResponse (sdkEventsToWasmVMEvents (reply_events msg filtered))
       (match D_data r with d :: _ => d | [] => None end)
       ((fun a => mkMsgResponse (TypeUrl a) (AnyValue a)) <$> concat (D_msgResponses r)))) "".
Definition error_result (e : error) : SubMsgResult :=
  mkSubMsgResult None (error_string (redactError e)).

Definition call_reply (ctx : Context) (contractAddr : bytes) (msg : SubMsg)
    (result : SubMsgResult) (rsp : option bytes) : M (option bytes) :=
  rspData ← wrap_err "reply"
    (reply ctx contractAddr (mkReply 0 (ID msg) result (Payload msg)));
  mret (match rspData with Some d => Some d | None => rsp end).

(** One round of the loop: the response data so far to the response data
    after it. *)
Definition dispatch_submessage (ctx : Context) (contractAddr : bytes)
    (ibcPort : string) (msg : SubMsg) (rsp : option bytes) : M (option bytes) :=
  _ ← guard_err (negb (valid_replyOn (ReplyOn msg))) (Wrap ErrInvalid "replyOn value");
  m ← gets meter;
  '(o, em) ← with_events
     (cached (run_submessage ctx contractAddr ibcPort msg (effective_limit m msg)));
  match o with
  | Panic p => throw p
  | Ret r =>
      let filtered := filterEvents (em ++ D_events r) in
      _ ← emit (emitted_events msg filtered);
      match ReplyOn msg with
      | ReplyNever | ReplyError => mret rsp
      | _ => call_reply ctx contractAddr msg (success_result msg filtered r) rsp
      end
  | Fail e =>
      match ReplyOn msg with
      | ReplySuccess | ReplyNever => fail e
      | _ => call_reply ctx contractAddr msg (error_result e) rsp
      end
  end.

Fixpoint dispatch_loop (ctx : Context) (contractAddr : bytes) (ibcPort : string)
    (msgs : list SubMsg) (rsp : option bytes) : M (option bytes) :=
  match msgs with
  | [] => mret rsp
  | msg :: msgs' =>
      rsp ← dispatch_submessage ctx contractAddr ibcPort msg rsp;
      dispatch_loop ctx contractAddr ibcPort msgs' rsp
  end.

Definition DispatchSubmessages (ctx : Context) (contractAddr : bytes)
    (ibcPort : string) (msgs : list SubMsg) : M (option bytes) :=
  dispatch_loop ctx contractAddr ibcPort msgs None.

(** DefaultWasmVMContractResponseHandler.Handle *)
Definition Handle (ctx : Context) (contractAddr : bytes) (ibcPort : string)
    (messages : list SubMsg) (origRspData : option bytes) : M (option bytes) :=
  rsp ← DispatchSubmessages ctx contractAddr ibcPort messages;
  mret (match rsp with Some d => Some d | None => origRspData end).

(** ** One submessage *)

(** The state in which a failed submessage leaves its sender: the store, the
    other modules and the events are those from before the submessage; gas
    consumption, the VM's cache and the set of loaded contracts are kept. *)
Definition rolled_back (s s1 : State) : State := set_events (events s) (rollback s s1).

(** The state in which a successful submessage leaves its sender: everything
    is committed, and the filtered events are added to the sender's. *)
Definition committed (msg : SubMsg) (s s1 : State) (r : DispatchResult) : State :=
  set_events (events s ++ emitted_events msg (filterEvents (events s1 ++ D_events r))) s1.

(** The submessage as it runs: under a fresh event manager. *)
Definition runs (ctx : Context) (contractAddr : bytes) (ibcPort : string) (msg : SubMsg)
    (s : State) : outcome DispatchResult * State :=
  run_submessage ctx contractAddr ibcPort msg (effective_limit (meter s) msg)
    (set_events [] s).

Lemma with_events_cached {A} (m : M A) s :
  with_events (cached m) s
  = match m (set_events [] s) with
    | (Ret a, s1) => (Ret (Ret a, events s1), set_events (events s) s1)
    | (o, s1) => (Ret (o, events s1), rolled_back s s1)
    end.
Proof. unfold with_events, cached. by destruct (m _) as [[] s1]. Qed.

(** C8: A submessage that fails has no effect on the store, on other modules
    or on the events, whatever it did before it failed; the error goes to the
    contract's reply entry point under ReplyError and ReplyAlways, and aborts
    the sender under ReplySuccess and ReplyNever. *)
Theorem submessage_failure ctx addr port msg rsp s e s1 :
  valid_replyOn (ReplyOn msg) = true ->
  runs ctx addr port msg s = (Fail e, s1) ->
  kv (rolled_back s s1) = kv s /\ ext (rolled_back s s1) = ext s
  /\ events (rolled_back s s1) = events s
  /\ dispatch_submessage ctx addr port msg rsp s
     = match ReplyOn msg with
       | ReplySuccess | ReplyNever => (Fail e, rolled_back s s1)
       | _ => call_reply ctx addr msg (error_result e) rsp (rolled_back s s1)
       end.
Proof.
  intros Hv Hr. split_and!; [done..|]. unfold dispatch_submessage.
  rewrite Hv. unfold mbind, M_bind. simpl. rewrite with_events_cached.
  unfold runs in Hr. rewrite Hr. by destruct (ReplyOn msg).
Qed.

(** C9: A submessage that succeeds is committed with its events, minus the
    SDK's "message" events, and the contract gets its result under
    ReplySuccess and ReplyAlways only. *)
Theorem submessage_success ctx addr port msg rsp s r s1 :
  valid_replyOn (ReplyOn msg) = true ->
  runs ctx addr port msg s = (Ret r, s1) ->
  kv (committed msg s s1 r) = kv s1 /\ ext (committed msg s s1 r) = ext s1
  /\ dispatch_submessage ctx addr port msg rsp s
     = match ReplyOn msg with
       | ReplyError | ReplyNever => (Ret rsp, committed msg s s1 r)
       | _ => call_reply ctx addr msg
                (success_result msg (filterEvents (events s1 ++ D_events r)) r) rsp
                (committed msg s s1 r)
       end.
Proof.
  intros Hv Hr. split_and!; [done..|]. unfold dispatch_submessage.
  rewrite Hv. unfold mbind, M_bind. simpl. rewrite with_events_cached.
  unfold runs in Hr. rewrite Hr. by destruct (ReplyOn msg).
Qed.

(** A panic in a submessage other than running out of its own gas limit
    is not caught and commits nothing. *)
Theorem submessage_panic ctx addr port msg rsp s p s1 :
  valid_replyOn (ReplyOn msg) = true ->
  runs ctx addr port msg s = (Panic p, s1) ->
  dispatch_submessage ctx addr port msg rsp s = (Panic p, rolled_back s s1).
Proof.
  intros Hv Hr. unfold dispatch_submessage.
  rewrite Hv. unfold mbind, M_bind. simpl. rewrite with_events_cached.
  unfold runs in Hr. by rewrite Hr.
Qed.

(** Submessages run in order, and the response data is that of the last
    reply that returned any. *)
Theorem DispatchSubmessages_app ctx addr port msgs1 msgs2 :
  forall s, dispatch_loop ctx addr port (msgs1 ++ msgs2) None s
  = (rsp ← DispatchSubmessages ctx addr port msgs1;
     dispatch_loop ctx addr port msgs2 rsp) s.
Proof.
  unfold DispatchSubmessages. generalize (None : option bytes) as rsp.
  induction msgs1 as [|m l IH]; intros rsp s; [done|]. simpl.
  unfold mbind, M_bind in *. destruct (dispatch_submessage _ _ _ _ _ _) as [[] ?]; [|done..].
  by rewrite IH.
Qed.

(** ** Gas limits *)

Section GasLimit.
Context `{!GasMetersLaws}.

(** A handler that returns, with or without error, has kept to its meter: its
    limit is unchanged and not exceeded. *)
Definition keeps_to_meter {A} (m : M A) : Prop := preserves gas_mono m /\ kept m.

Lemma keeps_to_meter_ends {A} (m : M A) s o s' :
  keeps_to_meter m -> within_gas (meter s) -> m s = (o, s') ->
  match o with
  | Panic _ => True
  | _ => Limit (meter s') = Limit (meter s) /\ within_gas (meter s')
  end.
Proof.
  intros [Hg Hk] Hs E. specialize (Hk s Hs). specialize (Hg s). unfold ends_within in Hk.
  rewrite E in *. destruct Hg as [? _]. by destruct o.
Qed.

(** A submessage with a gas limit costs its sender at most that limit, when
    it returns and when it fails, out of gas included. *)
Lemma gas_limit_respected ctx addr port msg l s o s' :
  (forall ctx' addr' port' msg', keeps_to_meter (DispatchMsg ctx' addr' port' msg')) ->
  is_u64 l ->
  dispatchMsgWithGasLimit ctx addr port msg l s = (o, s') ->
  match o with
  | Panic _ => True
  | _ => (GasConsumed (meter s') <= GasConsumed (meter s) + l)%N
  end.
Proof.
  intros Hk Hl. unfold dispatchMsgWithGasLimit, dispatch_and_charge, with_meter, reify,
    mbind, M_bind.
  assert (within_gas (meter (set_meter (NewGasMeter l) s))) as Hw.
  { unfold within_gas. simpl. rewrite meter_new_consumed. lia. }
  destruct (DispatchMsg ctx addr port msg (set_meter (NewGasMeter l) s)) as [o1 s1] eqn:ED.
  pose proof (keeps_to_meter_ends _ _ _ _ (Hk _ _ _ _) Hw ED) as Hkm.
  set (s2 := set_meter (meter s) s1).
  assert (forall r, o1 = r -> (forall p, r <> Panic p) ->
          (GasConsumed (meter s1) <= l)%N) as Hspent.
  { intros r <- Hnp. destruct o1 as [|?|p]; [..|by destruct (Hnp p)];
      destruct Hkm as [HL HW]; unfold within_gas in HW; simpl in HL;
      rewrite HL, meter_new_limit in HW by done; done. }
  assert (forall d' e' o' s'',
    match consume l d' s'' with
    | (Ret _, s3) => fail (A := DispatchResult) e' s3
    | (Fail e, s3) => (Fail e, s3) | (Panic p, s3) => (Panic p, s3) end = (o', s') ->
    match o' with Panic _ => True
    | _ => (GasConsumed (meter s') = GasConsumed (meter s'') + l)%N
           /\ (GasConsumed (meter s') <= Limit (meter s'))%N
           /\ Limit (meter s') = Limit (meter s'') end) as Hcl.
  { intros d' e' o' s'' E.
    destruct (consume_cases l d' s'') as [(m' & Hc & ? & ? & ?)|(m' & p & Hc & _)];
      rewrite Hc in E; injection E as <- <-; simpl; auto. }
  destruct o1 as [r|e|p]; simpl.
  3: { destruct p; simpl; try (by intros [= <- <-]).
       intros E. apply Hcl in E. destruct o; [|simpl in *; lia|done]. simpl in *. lia. }
  all: fold s2; destruct (consume_cases (GasConsumed (meter s1)) "From limited Sub-Message" s2)
    as [(m' & -> & ? & Hg & ?)|(m' & p & -> & HL & Hm & Hp)]; simpl.
  1,3: intros [= <- <-]; simpl in *; specialize (Hspent _ eq_refl ltac:(done)); lia.
  all: destruct Hp as [[-> Hover]| ->]; simpl; [|by intros [= <- <-]];
    intros E; apply Hcl in E; destruct o; simpl in *; lia || done.
Qed.

End GasLimit.

End Dispatcher.
End Dispatcher.
