(* ===== verification/Msgs.v ===== *)
(** The transaction messages (x/wasm/types/tx.pb.go) and their stateless
    validation (tx.go, ValidateVerificationInfo of validation.go). *)
From S2P Require Import Prelude Errors GoStrings Json Types Chain.
Import GoStrings.
Open Scope wasm_scope.

(** net/url.ParseRequestURI and distribution/reference.ParseDockerRef, of
    which only the error is looked at. *)
Class VerificationPkg := {
  url_ParseRequestURI : string -> option error;
  ParseDockerRef : string -> option error;
}.

Module Msgs.

(** ** Messages *)

Record MsgStoreCode := mkMsgStoreCode {
  SC_Sender : string;
  SC_WASMByteCode : bytes;
  SC_InstantiatePermission : option AccessConfig;
}.

Record MsgInstantiateContract := mkMsgInstantiateContract {
  I_Sender : string;
  I_Admin : string;
  I_CodeID : N;
  I_Label : string;
  I_Msg : bytes;
  I_Funds : Coins;
}.

Record MsgInstantiateContract2 := mkMsgInstantiateContract2 {
  I2_Sender : string;
  I2_Admin : string;
  I2_CodeID : N;
  I2_Label : string;
  I2_Msg : bytes;
  I2_Funds : Coins;
  I2_Salt : bytes;
  I2_FixMsg : bool;
}.

Record MsgExecuteContract := mkMsgExecuteContract {
  E_Sender : string;
  E_Contract : string;
  E_Msg : bytes;
  E_Funds : Coins;
}.

Record MsgMigrateContract := mkMsgMigrateContract {
  Mi_Sender : string;
  Mi_Contract : string;
  Mi_CodeID : N;
  Mi_Msg : bytes;
}.

Record MsgUpdateAdmin := mkMsgUpdateAdmin {
  UA_Sender : string;
  UA_NewAdmin : string;
  UA_Contract : string;
}.

Record MsgClearAdmin := mkMsgClearAdmin {
  CA_Sender : string;
  CA_Contract : string;
}.

Record MsgUpdateInstantiateConfig := mkMsgUpdateInstantiateConfig {
  UI_Sender : string;
  UI_CodeID : N;
  UI_NewInstantiatePermission : option AccessConfig;
}.

Record MsgUpdateParams := mkMsgUpdateParams {
  UP_Authority : string;
  UP_Params : Params;
}.

Record MsgPinCodes := mkMsgPinCodes {
  PC_Authority : string;
  PC_CodeIDs : list N;
}.

Record MsgUnpinCodes := mkMsgUnpinCodes {
  UC_Authority : string;
  UC_CodeIDs : list N;
}.

Record MsgSudoContract := mkMsgSudoContract {
  Su_Authority : string;
  Su_Contract : string;
  Su_Msg : bytes;
}.

Record MsgStoreAndInstantiateContract := mkMsgStoreAndInstantiateContract {
  SI_Authority : string;
  SI_WASMByteCode : bytes;
  SI_InstantiatePermission : option AccessConfig;
  SI_UnpinCode : bool;
  SI_Admin : string;
  SI_Label : string;
  SI_Msg : bytes;
  SI_Funds : Coins;
  SI_Source : string;
  SI_Builder : string;
  SI_CodeHash : option bytes;    (* a nil slice is [None] *)
}.

Record MsgAddCodeUploadParamsAddresses := mkMsgAddCodeUploadParamsAddresses {
  AC_Authority : string;
  AC_Addresses : list string;
}.

Record MsgRemoveCodeUploadParamsAddresses := mkMsgRemoveCodeUploadParamsAddresses {
  RC_Authority : string;
  RC_Addresses : list string;
}.

Record MsgStoreAndMigrateContract := mkMsgStoreAndMigrateContract {
  SM_Authority : string;
  SM_WASMByteCode : bytes;
  SM_InstantiatePermission : option AccessConfig;
  SM_Contract : string;
  SM_Msg : bytes;
}.

Record MsgUpdateContractLabel := mkMsgUpdateContractLabel {
  UL_Sender : string;
  UL_NewLabel : string;
  UL_Contract : string;
}.

(** ** ValidateBasic *)

Section Validate.
Context `{Bech32, UnicodeTables, CoinsPkg, ErrorsMod, VerificationPkg}.

(** The checks the messages share; [what] is the text the error is wrapped
    with. *)
Definition valid_address (what addr : string) : option error :=
  WrapOpt (bech32_err addr) what.
Definition valid_admin (admin : string) : option error :=
  if bool_decide (admin = "") then None else valid_address "admin" admin.
Definition valid_code_id (codeID : N) : option error :=
  errIf (codeID =? 0)%N (Wrap ErrInvalidRequest "code id is required").
Definition valid_label (label : string) : option error :=
  WrapOpt (ValidateLabel label) "label".
Definition valid_funds (funds : Coins) : option error :=
  WrapOpt (Coins_Validate funds) "funds".
Definition valid_payload (msg : bytes) : option error :=
  WrapOpt (RawContractMessage_ValidateBasic msg) "payload msg".
Definition valid_code (code : bytes) : option error :=
  match validateWasmCode code MaxWasmSize with
  | None => None
  | Some err => Some (Wrap ErrInvalidRequest (String.append "code bytes " (error_string err)))
  end.
Definition valid_permission (p : option AccessConfig) : option error :=
  match p with
  | None => None
  | Some p => WrapOpt (AccessConfig_ValidateBasic p) "instantiate permission"
  end.

Definition MsgStoreCode_ValidateBasic (msg : MsgStoreCode) : option error :=
  bech32_err (SC_Sender msg)
  >>? valid_code (SC_WASMByteCode msg)
  >>? valid_permission (SC_InstantiatePermission msg).

Definition MsgInstantiateContract_ValidateBasic (msg : MsgInstantiateContract)
    : option error :=
  valid_address "sender" (I_Sender msg)
  >>? valid_code_id (I_CodeID msg)
  >>? valid_label (I_Label msg)
  >>? valid_funds (I_Funds msg)
  >>? valid_admin (I_Admin msg)
  >>? valid_payload (I_Msg msg).

Definition MsgInstantiateContract2_ValidateBasic (msg : MsgInstantiateContract2)
    : option error :=
  valid_address "sender" (I2_Sender msg)
  >>? valid_code_id (I2_CodeID msg)
  >>? valid_label (I2_Label msg)
  >>? valid_funds (I2_Funds msg)
  >>? valid_admin (I2_Admin msg)
  >>? valid_payload (I2_Msg msg)
  >>? WrapOpt (ValidateSalt (I2_Salt msg)) "salt".

Definition MsgExecuteContract_ValidateBasic (msg : MsgExecuteContract) : option error :=
  valid_address "sender" (E_Sender msg)
  >>? valid_address "contract" (E_Contract msg)
  >>? valid_funds (E_Funds msg)
  >>? valid_payload (E_Msg msg).

Definition MsgMigrateContract_ValidateBasic (msg : MsgMigrateContract) : option error :=
  valid_code_id (Mi_CodeID msg)
  >>? valid_address "sender" (Mi_Sender msg)
  >>? valid_address "contract" (Mi_Contract msg)
  >>? valid_payload (Mi_Msg msg).

Definition MsgUpdateAdmin_ValidateBasic (msg : MsgUpdateAdmin) : option error :=
  valid_address "sender" (UA_Sender msg)
  >>? valid_address "contract" (UA_Contract msg)
  >>? valid_address "new admin" (UA_NewAdmin msg)
  >>? errIf (EqualFold (UA_Sender msg) (UA_NewAdmin msg))
        (Wrap ErrInvalid "new admin is the same as the old").

Definition MsgClearAdmin_ValidateBasic (msg : MsgClearAdmin) : option error :=
  valid_address "sender" (CA_Sender msg)
  >>? valid_address "contract" (CA_Contract msg).

Definition MsgUpdateInstantiateConfig_ValidateBasic (msg : MsgUpdateInstantiateConfig)
    : option error :=
  valid_address "sender" (UI_Sender msg)
  >>? valid_code_id (UI_CodeID msg)
  >>? errIf (bool_decide (UI_NewInstantiatePermission msg = None))
        (Wrap ErrInvalidRequest "instantiate permission is required")
  >>? valid_permission (UI_NewInstantiatePermission msg).

Definition MsgUpdateParams_ValidateBasic (msg : MsgUpdateParams) : option error :=
  valid_address "authority" (UP_Authority msg)
  >>? Params_ValidateBasic (UP_Params msg).

(** hasDuplicates: a map of the values seen so far. *)
Fixpoint has_duplicates_loop (s : list N) (index : gset N) : bool :=
  match s with
  | [] => false
  | v :: s' => bool_decide (v ∈ index) || has_duplicates_loop s' ({[v]} ∪ index)
  end.
Definition hasDuplicates (s : list N) : bool := has_duplicates_loop s ∅.

Definition maxCodeIDCount : nat := 50.
Definition validateCodeIDs (codeIDs : list N) : option error :=
  errIf (Nat.eqb (length codeIDs) 0) (Wrap ErrInvalidRequest "empty code ids")
  >>? errIf (Nat.ltb maxCodeIDCount (length codeIDs))
        (Wrap ErrInvalidRequest "total number of code ids is greater than %d")
  >>? errIf (hasDuplicates codeIDs) (Wrap ErrInvalidRequest "duplicate code ids").

Definition MsgPinCodes_ValidateBasic (msg : MsgPinCodes) : option error :=
  valid_address "authority" (PC_Authority msg) >>? validateCodeIDs (PC_CodeIDs msg).
Definition MsgUnpinCodes_ValidateBasic (msg : MsgUnpinCodes) : option error :=
  valid_address "authority" (UC_Authority msg) >>? validateCodeIDs (UC_CodeIDs msg).

Definition MsgSudoContract_ValidateBasic (msg : MsgSudoContract) : option error :=
  valid_address "authority" (Su_Authority msg)
  >>? valid_address "contract" (Su_Contract msg)
  >>? valid_payload (Su_Msg msg).

Definition ValidateVerificationInfo (source builder : string) (codeHash : option bytes)
    : option error :=
  if negb (bool_decide (source = "")) || negb (bool_decide (builder = ""))
     || negb (Nat.eqb (length (default [] codeHash)) 0)
  then
    errIf (bool_decide (source = "")) (EText "source is required")
    >>? match url_ParseRequestURI source with
        | Some err => Some (EText (String.append "source: " (error_string err)))
        | None => None
        end
    >>? errIf (bool_decide (builder = "")) (EText "builder is required")
    >>? match ParseDockerRef builder with
        | Some err => Some (EText (String.append "builder: " (error_string err)))
        | None => None
        end
    >>? errIf (bool_decide (codeHash = None)) (EText "code hash is required")
  else None.

Definition MsgStoreAndInstantiateContract_ValidateBasic
    (msg : MsgStoreAndInstantiateContract) : option error :=
  valid_address "authority" (SI_Authority msg)
  >>? valid_label (SI_Label msg)
  >>? valid_funds (SI_Funds msg)
  >>? valid_admin (SI_Admin msg)
  >>? WrapOpt (ValidateVerificationInfo (SI_Source msg) (SI_Builder msg) (SI_CodeHash msg))
        "code verification info"
  >>? valid_payload (SI_Msg msg)
  >>? valid_code (SI_WASMByteCode msg)
  >>? valid_permission (SI_InstantiatePermission msg).

Definition MsgAddCodeUploadParamsAddresses_ValidateBasic
    (msg : MsgAddCodeUploadParamsAddresses) : option error :=
  valid_address "authority" (AC_Authority msg)
  >>? validateBech32Addresses (AC_Addresses msg).
Definition MsgRemoveCodeUploadParamsAddresses_ValidateBasic
    (msg : MsgRemoveCodeUploadParamsAddresses) : option error :=
  valid_address "authority" (RC_Authority msg)
  >>? validateBech32Addresses (RC_Addresses msg).

Definition MsgStoreAndMigrateContract_ValidateBasic
    (msg : MsgStoreAndMigrateContract) : option error :=
  valid_address "authority" (SM_Authority msg)
  >>? valid_address "contract" (SM_Contract msg)
  >>? valid_payload (SM_Msg msg)
  >>? valid_code (SM_WASMByteCode msg)
  >>? valid_permission (SM_InstantiatePermission msg).

Definition MsgUpdateContractLabel_ValidateBasic (msg : MsgUpdateContractLabel)
    : option error :=
  valid_address "sender" (UL_Sender msg)
  >>? valid_label (UL_NewLabel msg)
  >>? valid_address "contract" (UL_Contract msg).

(** ** Properties *)

Lemma has_duplicates_loop_spec s index :
  has_duplicates_loop s index = false <-> NoDup s /\ (forall v, v ∈ s -> v ∉ index).
Proof.
  revert index. induction s as [|v s IH]; intros index; simpl.
  { split; [intros _|done]. split; [constructor|set_solver]. }
  rewrite orb_false_iff, bool_decide_eq_false, IH, NoDup_cons. set_solver.
Qed.

Lemma valid_address_None what s :
  valid_address what s = None <-> exists a, AccAddressFromBech32 s = inl a.
Proof. unfold valid_address. by rewrite WrapOpt_None, bech32_err_None. Qed.

(** ValidateCodeIDs accepts a list exactly when it holds 1 to 50 code ids,
    no two of them equal. *)
Theorem validateCodeIDs_spec codeIDs :
  validateCodeIDs codeIDs = None <->
  0 < length codeIDs <= maxCodeIDCount /\ NoDup codeIDs.
Proof.
  unfold validateCodeIDs, hasDuplicates.
  rewrite !first_error_None, !errIf_None, has_duplicates_loop_spec.
  rewrite Nat.eqb_neq, Nat.ltb_ge. split.
  - intros (? & ? & ? & _). split; [lia|done].
  - intros ([] & ?). split_and!; [lia|done|done|set_solver].
Qed.

End Validate.
End Msgs.
