(* ===== verification/MsgServer.v ===== *)
(** The message server (x/wasm/keeper/msg_server.go): one handler per
    transaction message. Each validates its message, decodes the addresses,
    selects the authorization policy and calls the keeper. *)
From S2P Require Import Prelude Errors GoStrings Json Types Keys VMTypes Policy GasRegister Chain Logic Engine Store Events Keeper Msgs.
Import GoStrings Store.Store Msgs.Msgs.
Open Scope wasm_scope.

Module MsgServer.

(** The messages of the wasm module and what their handlers return. A nil
    data slice is [None]. *)
Inductive WasmMsg :=
| WStoreCode (msg : MsgStoreCode)
| WInstantiateContract (msg : MsgInstantiateContract)
| WInstantiateContract2 (msg : MsgInstantiateContract2)
| WExecuteContract (msg : MsgExecuteContract)
| WMigrateContract (msg : MsgMigrateContract)
| WUpdateAdmin (msg : MsgUpdateAdmin)
| WClearAdmin (msg : MsgClearAdmin)
| WUpdateInstantiateConfig (msg : MsgUpdateInstantiateConfig)
| WUpdateParams (msg : MsgUpdateParams)
| WPinCodes (msg : MsgPinCodes)
| WUnpinCodes (msg : MsgUnpinCodes)
| WSudoContract (msg : MsgSudoContract)
| WStoreAndInstantiateContract (msg : MsgStoreAndInstantiateContract)
| WAddCodeUploadParamsAddresses (msg : MsgAddCodeUploadParamsAddresses)
| WRemoveCodeUploadParamsAddresses (msg : MsgRemoveCodeUploadParamsAddresses)
| WStoreAndMigrateContract (msg : MsgStoreAndMigrateContract)
| WUpdateContractLabel (msg : MsgUpdateContractLabel).

Inductive WasmMsgResponse :=
| MsgStoreCodeResponse (codeID : N) (checksum : bytes)
| MsgInstantiateContractResponse (address : string) (data : option bytes)
| MsgInstantiateContract2Response (address : string) (data : option bytes)
| MsgExecuteContractResponse (data : option bytes)
| MsgMigrateContractResponse (data : option bytes)
| MsgUpdateAdminResponse
| MsgClearAdminResponse
| MsgUpdateInstantiateConfigResponse
| MsgUpdateParamsResponse
| MsgPinCodesResponse
| MsgUnpinCodesResponse
| MsgSudoContractResponse (data : option bytes)
| MsgStoreAndInstantiateContractResponse (address : string) (data : option bytes)
| MsgAddCodeUploadParamsAddressesResponse
| MsgRemoveCodeUploadParamsAddressesResponse
| MsgStoreAndMigrateContractResponse (codeID : N) (checksum : bytes) (data : option bytes)
| MsgUpdateContractLabelResponse.

(** The field that holds the signer (cosmos.msg.v1.signer of tx.proto). *)
Definition msg_signer (msg : WasmMsg) : string :=
  match msg with
  | WStoreCode m => SC_Sender m
  | WInstantiateContract m => I_Sender m
  | WInstantiateContract2 m => I2_Sender m
  | WExecuteContract m => E_Sender m
  | WMigrateContract m => Mi_Sender m
  | WUpdateAdmin m => UA_Sender m
  | WClearAdmin m => CA_Sender m
  | WUpdateInstantiateConfig m => UI_Sender m
  | WUpdateParams m => UP_Authority m
  | WPinCodes m => PC_Authority m
  | WUnpinCodes m => UC_Authority m
  | WSudoContract m => Su_Authority m
  | WStoreAndInstantiateContract m => SI_Authority m
  | WAddCodeUploadParamsAddresses m => AC_Authority m
  | WRemoveCodeUploadParamsAddresses m => RC_Authority m
  | WStoreAndMigrateContract m => SM_Authority m
  | WUpdateContractLabel m => UL_Sender m
  end.

Section MsgServer.
Context `{GasMeters, Modules, KVStorePkg, Bech32, ErrorsMod, UnicodeTables,
  AddressPkg, CoinsPkg, Codecs, Gzip, VerificationPkg}.
Context `{!WasmEngine, !Keepers}.
Context (k : KeeperConfig).
Context (json_QueryRequest : bytes -> QueryRequest + string).
Context (HandleQuery : Context -> bytes -> QueryRequest -> M bytes).
Context (wasmVMResponseHandler : Context -> bytes -> string -> list SubMsg ->
  option bytes -> M (option bytes)).

Local Notation create := (Keeper.create k).
Local Notation instantiate :=
  (Keeper.instantiate k json_QueryRequest HandleQuery wasmVMResponseHandler).
Local Notation execute :=
  (Keeper.execute k json_QueryRequest HandleQuery wasmVMResponseHandler).
Local Notation migrate :=
  (Keeper.migrate k json_QueryRequest HandleQuery wasmVMResponseHandler).
Local Notation Sudo :=
  (Keeper.Sudo k json_QueryRequest HandleQuery wasmVMResponseHandler).

(** [sdk.AccAddressFromBech32] with the error wrapped. *)
Definition parse_address (what addr : string) : M bytes :=
  match AccAddressFromBech32 addr with
  | inl a => mret a
  | inr err => fail (Wrap err what)
  end.
(** An optional admin; an empty one stays nil. *)
Definition parse_admin (admin : string) : M AccAddress :=
  if bool_decide (admin = "") then mret None
  else a ← parse_address "admin" admin; mret (Some a).

Definition selectAuthorizationPolicy (ctx : Context) (actor : string)
    : Policy.AuthorizationPolicy :=
  if bool_decide (actor = authority k)
  then Policy.GovAuthorizationPolicy (propagateGovAuthorization k)
  else default Policy.DefaultAuthorizationPolicy (ctx_SubMsgPolicy ctx).

(** The check of the handlers reserved to the authority. *)
Definition require_authority (reqAuthority : string) : M unit :=
  guard_err (negb (bool_decide (authority k = reqAuthority)))
    (Wrap ErrInvalid "invalid authority; expected %s, got %s").

Definition StoreCode (ctx : Context) (msg : MsgStoreCode) : M WasmMsgResponse :=
  _ ← check (MsgStoreCode_ValidateBasic msg);
  senderAddr ← parse_address "sender" (SC_Sender msg);
  let policy := selectAuthorizationPolicy ctx (SC_Sender msg) in
  '(codeID, checksum) ← create ctx (Some senderAddr) (SC_WASMByteCode msg)
                          (SC_InstantiatePermission msg) policy;
  mret (MsgStoreCodeResponse codeID checksum).

Definition InstantiateContract (ctx : Context) (msg : MsgInstantiateContract)
    : M WasmMsgResponse :=
  _ ← check (MsgInstantiateContract_ValidateBasic msg);
  senderAddr ← parse_address "sender" (I_Sender msg);
  adminAddr ← parse_admin (I_Admin msg);
  let policy := selectAuthorizationPolicy ctx (I_Sender msg) in
  '(contractAddr, data) ← instantiate ctx (I_CodeID msg) (Some senderAddr) adminAddr
      (I_Msg msg) (I_Label msg) (I_Funds msg) Keeper.ClassicAddressGenerator policy;
  mret (MsgInstantiateContractResponse (AccAddress_String contractAddr) data).

Definition InstantiateContract2 (ctx : Context) (msg : MsgInstantiateContract2)
    : M WasmMsgResponse :=
  _ ← check (MsgInstantiateContract2_ValidateBasic msg);
  senderAddr ← parse_address "sender" (I2_Sender msg);
  adminAddr ← parse_admin (I2_Admin msg);
  let policy := selectAuthorizationPolicy ctx (I2_Sender msg) in
  let addrGenerator := Keeper.PredictableAddressGenerator (Some senderAddr) (I2_Salt msg)
                         (I2_Msg msg) (I2_FixMsg msg) in
  '(contractAddr, data) ← instantiate ctx (I2_CodeID msg) (Some senderAddr) adminAddr
      (I2_Msg msg) (I2_Label msg) (I2_Funds msg) addrGenerator policy;
  mret (MsgInstantiateContract2Response (AccAddress_String contractAddr) data).

Definition ExecuteContract (ctx : Context) (msg : MsgExecuteContract) : M WasmMsgResponse :=
  _ ← check (MsgExecuteContract_ValidateBasic msg);
  senderAddr ← parse_address "sender" (E_Sender msg);
  contractAddr ← parse_address "contract" (E_Contract msg);
  data ← execute ctx contractAddr (Some senderAddr) (E_Msg msg) (E_Funds msg);
  mret (MsgExecuteContractResponse data).

Definition MigrateContract (ctx : Context) (msg : MsgMigrateContract) : M WasmMsgResponse :=
  _ ← check (MsgMigrateContract_ValidateBasic msg);
  senderAddr ← parse_address "sender" (Mi_Sender msg);
  contractAddr ← parse_address "contract" (Mi_Contract msg);
  let policy := selectAuthorizationPolicy ctx (Mi_Sender msg) in
  data ← migrate ctx contractAddr (Some senderAddr) (Mi_CodeID msg) (Mi_Msg msg) policy;
  mret (MsgMigrateContractResponse data).

Definition UpdateAdmin (ctx : Context) (msg : MsgUpdateAdmin) : M WasmMsgResponse :=
  _ ← check (MsgUpdateAdmin_ValidateBasic msg);
  senderAddr ← parse_address "sender" (UA_Sender msg);
  contractAddr ← parse_address "contract" (UA_Contract msg);
  newAdminAddr ← parse_address "new admin" (UA_NewAdmin msg);
  let policy := selectAuthorizationPolicy ctx (UA_Sender msg) in
  _ ← Keeper.setContractAdmin contractAddr (Some senderAddr) (Some newAdminAddr) policy;
  mret MsgUpdateAdminResponse.

Definition ClearAdmin (ctx : Context) (msg : MsgClearAdmin) : M WasmMsgResponse :=
  _ ← check (MsgClearAdmin_ValidateBasic msg);
  senderAddr ← parse_address "sender" (CA_Sender msg);
  contractAddr ← parse_address "contract" (CA_Contract msg);
  let policy := selectAuthorizationPolicy ctx (CA_Sender msg) in
  _ ← Keeper.setContractAdmin contractAddr (Some senderAddr) None policy;
  mret MsgClearAdminResponse.

Definition UpdateInstantiateConfig (ctx : Context) (msg : MsgUpdateInstantiateConfig)
    : M WasmMsgResponse :=
  _ ← check (MsgUpdateInstantiateConfig_ValidateBasic msg);
  senderAddr ← parse_address "sender" (UI_Sender msg);
  let policy := selectAuthorizationPolicy ctx (UI_Sender msg) in
  newConfig ← Keeper.deref (UI_NewInstantiatePermission msg);
  _ ← Keeper.setAccessConfig (UI_CodeID msg) (Some senderAddr) newConfig policy;
  mret MsgUpdateInstantiateConfigResponse.

Definition UpdateParams (req : MsgUpdateParams) : M WasmMsgResponse :=
  _ ← check (MsgUpdateParams_ValidateBasic req);
  _ ← require_authority (UP_Authority req);
  _ ← SetParams (UP_Params req);
  mret MsgUpdateParamsResponse.

Fixpoint for_each {A} (f : A -> M unit) (l : list A) : M unit :=
  match l with
  | [] => mret tt
  | x :: l' => _ ← f x; for_each f l'
  end.

Definition PinCodes (req : MsgPinCodes) : M WasmMsgResponse :=
  _ ← check (MsgPinCodes_ValidateBasic req);
  _ ← require_authority (PC_Authority req);
  _ ← for_each Keeper.pinCode (PC_CodeIDs req);
  mret MsgPinCodesResponse.

Definition UnpinCodes (req : MsgUnpinCodes) : M WasmMsgResponse :=
  _ ← check (MsgUnpinCodes_ValidateBasic req);
  _ ← require_authority (UC_Authority req);
  _ ← for_each Keeper.unpinCode (UC_CodeIDs req);
  mret MsgUnpinCodesResponse.

Definition SudoContract (ctx : Context) (req : MsgSudoContract) : M WasmMsgResponse :=
  _ ← check (MsgSudoContract_ValidateBasic req);
  _ ← require_authority (Su_Authority req);
  contractAddr ← parse_address "contract" (Su_Contract req);
  data ← Sudo ctx contractAddr (Su_Msg req);
  mret (MsgSudoContractResponse data).

Definition StoreAndInstantiateContract (ctx : Context)
    (req : MsgStoreAndInstantiateContract) : M WasmMsgResponse :=
  _ ← check (MsgStoreAndInstantiateContract_ValidateBasic req);
  authorityAddr ← parse_address "authority" (SI_Authority req);
  adminAddr ← parse_admin (SI_Admin req);
  let policy := selectAuthorizationPolicy ctx (SI_Authority req) in
  '(codeID, _) ← create ctx (Some authorityAddr) (SI_WASMByteCode req)
                   (SI_InstantiatePermission req) policy;
  '(contractAddr, data) ← instantiate ctx codeID (Some authorityAddr) adminAddr
      (SI_Msg req) (SI_Label req) (SI_Funds req) Keeper.ClassicAddressGenerator policy;
  mret (MsgStoreAndInstantiateContractResponse (AccAddress_String contractAddr) data).

(** [if !contains(addresses, newAddr) { append }] for each new address. *)
Definition add_addresses (addresses newAddrs : list string) : list string :=
  foldl (fun addresses newAddr =>
           if contains addresses newAddr then addresses else addresses ++ [newAddr])
    addresses newAddrs.
(** The addresses that are not in the request, in order. *)
Definition remove_addresses (addresses removed : list string) : list string :=
  filter (fun addr => contains removed addr = false) addresses.

(** The read-modify-write of the upload address list. *)
Definition update_upload_addresses (f : list string -> list string) : M unit :=
  params ← GetParams;
  let access := CodeUploadAccess params in
  _ ← guard_err (negb (bool_decide (Permission access = AccessTypeAnyOfAddresses)))
        (Wrap ErrInvalid "permission");
  SetParams (mkParams (mkAccessConfig (Permission access) (f (Addresses access)))
               (InstantiateDefaultPermission params)).

Definition AddCodeUploadParamsAddresses (req : MsgAddCodeUploadParamsAddresses)
    : M WasmMsgResponse :=
  _ ← check (MsgAddCodeUploadParamsAddresses_ValidateBasic req);
  _ ← require_authority (AC_Authority req);
  _ ← update_upload_addresses (fun addresses => add_addresses addresses (AC_Addresses req));
  mret MsgAddCodeUploadParamsAddressesResponse.

Definition RemoveCodeUploadParamsAddresses (req : MsgRemoveCodeUploadParamsAddresses)
    : M WasmMsgResponse :=
  _ ← check (MsgRemoveCodeUploadParamsAddresses_ValidateBasic req);
  _ ← require_authority (RC_Authority req);
  _ ← update_upload_addresses (fun addresses => remove_addresses addresses (RC_Addresses req));
  mret MsgRemoveCodeUploadParamsAddressesResponse.

Definition StoreAndMigrateContract (ctx : Context) (req : MsgStoreAndMigrateContract)
    : M WasmMsgResponse :=
  authorityAddr ← parse_address "authority" (SM_Authority req);
  _ ← check (MsgStoreAndMigrateContract_ValidateBasic req);
  let policy := selectAuthorizationPolicy ctx (SM_Authority req) in
  '(codeID, checksum) ← create ctx (Some authorityAddr) (SM_WASMByteCode req)
                          (SM_InstantiatePermission req) policy;
  contractAddr ← parse_address "contract" (SM_Contract req);
  data ← migrate ctx contractAddr (Some authorityAddr) codeID (SM_Msg req) policy;
  mret (MsgStoreAndMigrateContractResponse codeID checksum data).

Definition UpdateContractLabel (ctx : Context) (msg : MsgUpdateContractLabel)
    : M WasmMsgResponse :=
  _ ← check (MsgUpdateContractLabel_ValidateBasic msg);
  senderAddr ← parse_address "sender" (UL_Sender msg);
  contractAddr ← parse_address "contract" (UL_Contract msg);
  let policy := selectAuthorizationPolicy ctx (UL_Sender msg) in
  _ ← Keeper.setContractLabel contractAddr (Some senderAddr) (UL_NewLabel msg) policy;
  mret MsgUpdateContractLabelResponse.

(** The service as it is registered with the message router. *)
Definition serve (ctx : Context) (msg : WasmMsg) : M WasmMsgResponse :=
  match msg with
  | WStoreCode m => StoreCode ctx m
  | WInstantiateContract m => InstantiateContract ctx m
  | WInstantiateContract2 m => InstantiateContract2 ctx m
  | WExecuteContract m => ExecuteContract ctx m
  | WMigrateContract m => MigrateContract ctx m
  | WUpdateAdmin m => UpdateAdmin ctx m
  | WClearAdmin m => ClearAdmin ctx m
  | WUpdateInstantiateConfig m => UpdateInstantiateConfig ctx m
  | WUpdateParams m => UpdateParams m
  | WPinCodes m => PinCodes m
  | WUnpinCodes m => UnpinCodes m
  | WSudoContract m => SudoContract ctx m
  | WStoreAndInstantiateContract m => StoreAndInstantiateContract ctx m
  | WAddCodeUploadParamsAddresses m => AddCodeUploadParamsAddresses m
  | WRemoveCodeUploadParamsAddresses m => RemoveCodeUploadParamsAddresses m
  | WStoreAndMigrateContract m => StoreAndMigrateContract ctx m
  | WUpdateContractLabel m => UpdateContractLabel ctx m
  end.

End MsgServer.
End MsgServer.
