(* ===== verification/KeeperFrame.v ===== *)
(** What every keeper operation leaves alone: for each operation of Store.v,
    Keeper.v and MsgServer.v, that it respects any relation on states that
    gas charges, events, other modules and writes to the wasm store respect
    (with gas consumption growing as the instance that matters), and that it
    ends within its gas limit unless it panics. *)
From S2P Require Import Prelude Errors GoStrings Json Types Keys VMTypes Policy GasRegister Chain Logic Engine Store Events Keeper Msgs MsgServer.
Import GoStrings Keys Store.Store Events.Events.
Open Scope wasm_scope.

(** ** Respecting a relation *)

Section Frames.
Context `{GasMeters, Modules, KVStorePkg, Bech32, ErrorsMod, UnicodeTables,
  AddressPkg, CoinsPkg, Codecs, Gzip, VerificationPkg}.
Context `{!WasmEngine, !Keepers}.
Context (k : KeeperConfig).
Context (json_QueryRequest : bytes -> QueryRequest + string).
Context (HandleQuery : Context -> bytes -> QueryRequest -> M bytes).
Context (handler : Context -> bytes -> string -> list SubMsg -> option bytes -> M (option bytes)).
Context (R : State -> State -> Prop) `{!StateFrame R, !WriteFrame R}.
Hypothesis query_preserves : forall ctx caller r, preserves R (HandleQuery ctx caller r).
Hypothesis handler_preserves : forall ctx addr port msgs data,
  preserves R (handler ctx addr port msgs data).

Ltac kframe := frame; try solve [auto].

Lemma fr_MustMarshal {A} `{Codec A} (a : A) : preserves R (MustMarshal a).
Proof. unfold MustMarshal. kframe. Qed.
Lemma fr_MustUnmarshal {A} `{Codec A} bz : preserves R (MustUnmarshal (A := A) bz).
Proof. unfold MustUnmarshal. kframe. Qed.
Hint Resolve fr_MustMarshal fr_MustUnmarshal : frame.

Lemma fr_GetParams : preserves R GetParams.
Proof. unfold GetParams, params_Get. kframe. Qed.
Lemma fr_SetParams p : preserves R (SetParams p).
Proof. unfold SetParams. kframe. Qed.
Lemma fr_GetCodeInfo id : preserves R (GetCodeInfo id).
Proof. unfold GetCodeInfo. kframe. Qed.
Lemma fr_GetContractInfo a : preserves R (GetContractInfo a).
Proof. unfold GetContractInfo. kframe. Qed.
Lemma fr_mustStoreCodeInfo id c : preserves R (mustStoreCodeInfo id c).
Proof. unfold mustStoreCodeInfo. kframe. Qed.
Lemma fr_mustStoreContractInfo a c : preserves R (mustStoreContractInfo a c).
Proof. unfold mustStoreContractInfo. kframe. Qed.
Lemma fr_HasContractInfo a : preserves R (HasContractInfo a).
Proof. unfold HasContractInfo. kframe. Qed.
Lemma fr_IsPinnedCode id : preserves R (IsPinnedCode id).
Proof. unfold IsPinnedCode. kframe. Qed.
Lemma fr_contractInstance a : preserves R (contractInstance a).
Proof. unfold contractInstance. kframe. Qed.
Lemma fr_QueryRaw a key : preserves R (QueryRaw a key).
Proof. unfold QueryRaw. kframe. Qed.
Lemma fr_mustAutoIncrementID key : settable key -> preserves R (mustAutoIncrementID key).
Proof. intros. unfold mustAutoIncrementID. kframe. Qed.
Lemma fr_checkDiscountEligibility c p : preserves R (checkDiscountEligibility c p).
Proof.
  unfold checkDiscountEligibility. kframe. apply preserves_modify. intros. apply sf_txc.
Qed.
Lemma fr_store_history a pos l : preserves R (store_history a pos l).
Proof. revert pos. induction l as [|e l IH]; intros pos; simpl; kframe. Qed.
Lemma fr_last_history_position a : preserves R (last_history_position a).
Proof. unfold last_history_position. kframe. Qed.
Lemma fr_appendToContractHistory a l : preserves R (appendToContractHistory a l).
Proof.
  unfold appendToContractHistory. frame; [apply fr_last_history_position|apply fr_store_history].
Qed.
Lemma fr_mustGetLast a : preserves R (mustGetLastContractHistoryEntry a).
Proof. unfold mustGetLastContractHistoryEntry. kframe. Qed.
Lemma index_key_first a e key :
  GetContractByCreatedSecondaryIndexKey a e = Ret key -> exists r, key = Byte.x06 :: r.
Proof.
  unfold GetContractByCreatedSecondaryIndexKey, obind. intros E. repeat case_match; simplify_eq.
  by eexists.
Qed.
Lemma creator_key_first c p a key :
  GetContractByCreatorSecondaryIndexKey c p a = Ret key -> exists r, key = Byte.x09 :: r.
Proof.
  unfold GetContractByCreatorSecondaryIndexKey, GetContractsByCreatorPrefix, obind.
  intros E. repeat case_match; simplify_eq. by eexists.
Qed.
Lemma fr_addCodeIndex a e : preserves R (addToContractCodeSecondaryIndex a e).
Proof.
  apply preserves_bind_lift; [apply _|]. intros key E. apply preserves_kv_write; [apply _..|].
  by destruct (index_key_first a e key E) as [r ->].
Qed.
Lemma fr_removeCodeIndex a e : preserves R (removeFromContractCodeSecondaryIndex a e).
Proof.
  apply preserves_bind_lift; [apply _|]. intros key E. apply preserves_kv_remove; [apply _..|].
  by destruct (index_key_first a e key E) as [r ->].
Qed.
Lemma fr_addCreatorIndex c p a : preserves R (addToContractCreatorSecondaryIndex c p a).
Proof.
  apply preserves_bind; [apply _|frame|]. intros pos. apply preserves_bind_lift; [apply _|].
  intros key E. apply preserves_kv_write; [apply _..|]. by destruct (creator_key_first c pos a key E) as [r ->].
Qed.
Lemma fr_modify_vm v : preserves R (modify (set_vm v)).
Proof. apply preserves_modify. intros. apply sf_vm. Qed.
Hint Resolve fr_GetParams fr_SetParams fr_GetCodeInfo fr_GetContractInfo fr_mustStoreCodeInfo
  fr_mustStoreContractInfo fr_HasContractInfo fr_IsPinnedCode fr_contractInstance fr_QueryRaw
  fr_mustAutoIncrementID fr_checkDiscountEligibility fr_appendToContractHistory fr_mustGetLast
  fr_addCodeIndex fr_removeCodeIndex fr_addCreatorIndex fr_modify_vm : frame.

Lemma fr_runtimeGas : preserves R (Keeper.runtimeGasForContract k).
Proof. unfold Keeper.runtimeGasForContract. kframe. Qed.
Lemma fr_consumeRuntimeGas g : preserves R (Keeper.consumeRuntimeGas k g).
Proof. unfold Keeper.consumeRuntimeGas. kframe. Qed.
Lemma fr_deref {A} (p : option A) : preserves R (Keeper.deref p).
Proof. destruct p; simpl; kframe. Qed.
Hint Resolve fr_runtimeGas fr_consumeRuntimeGas fr_deref : frame.
Lemma fr_charge_setup id c m d : preserves R (Keeper.charge_setup k id c m d).
Proof. unfold Keeper.charge_setup. kframe. Qed.
Lemma fr_finish_call r e : preserves R (Keeper.finish_call k r e).
Proof. unfold Keeper.finish_call. destruct r as [[res|] g]; kframe. Qed.
Lemma fr_TransferCoins ctx f t a : preserves R (Keeper.TransferCoins ctx f t a).
Proof. unfold Keeper.TransferCoins. kframe. Qed.
Lemma fr_balances_of ctx a l : preserves R (Keeper.balances_of ctx a l).
Proof. induction l; simpl; kframe. Qed.
Lemma fr_Cleanup ctx acc : preserves R (Keeper.CleanupExistingAccount ctx acc).
Proof. unfold Keeper.CleanupExistingAccount. frame; auto. apply fr_balances_of. Qed.
Lemma fr_ensureIbcPort ctx a : preserves R (Keeper.ensureIbcPort ctx a).
Proof. unfold Keeper.ensureIbcPort, Keeper.bindIbcPort. kframe. Qed.
Lemma fr_handleContractResponse ctx a p r :
  preserves R (Keeper.handleContractResponse k handler ctx a p r).
Proof. unfold Keeper.handleContractResponse. kframe. Qed.
Lemma fr_StoreCode code g : preserves R (VM_StoreCode code g).
Proof. unfold VM_StoreCode. kframe. Qed.
Lemma fr_AnalyzeCode c : preserves R (VM_AnalyzeCode c).
Proof. unfold VM_AnalyzeCode. kframe. Qed.
(** A contract writes under its own prefix. *)
Lemma fr_vm_entry {A} gm ctx addr a prog g decode sub :
  preserves R (vm_entry (A := A) gm (Keeper.querier k json_QueryRequest HandleQuery ctx addr)
    (GetContractStorePrefix a) prog g decode sub).
Proof.
  apply (preserves_vm_entry gm R (GetContractStorePrefix a)).
  - split; intros; [apply write_set|apply write_delete]; first_byte.
  - intros. apply RustQuery_preserves; auto.
Qed.
Lemma instance_prefix a s i c p s' :
  contractInstance a s = (Ret (i, c, p), s') -> p = GetContractStorePrefix a.
Proof.
  unfold contractInstance, mbind, M_bind. intros E.
  destruct (kv_get _ s) as [[[bz|]| |] s1]; try done.
  destruct (MustUnmarshal bz s1) as [[ci| |] s2]; try done.
  destruct (kv_get _ s2) as [[[cbz|]| |] s3]; try done.
  destruct (MustUnmarshal cbz s3) as [[co| |] s4]; try done. by injection E.
Qed.
Lemma fr_in_instance {B} a (f : ContractInfo * CodeInfo * bytes -> M B) :
  (forall i c, preserves R (f (i, c, GetContractStorePrefix a))) ->
  preserves R (contractInstance a ≫= f).
Proof.
  intros Hf s. pose proof (fr_contractInstance a s) as Hs. unfold mbind, M_bind.
  destruct (contractInstance a s) as [[[[i c] p]|e|q] s'] eqn:E; [|done..].
  rewrite (instance_prefix a s i c p s' E). etrans; [exact Hs|apply Hf].
Qed.
Lemma fr_ClassicAddressGenerator ctx id c : preserves R (Keeper.ClassicAddressGenerator ctx id c).
Proof. unfold Keeper.ClassicAddressGenerator. kframe. Qed.
Lemma fr_PredictableAddressGenerator cr sa m fx ctx id c :
  preserves R (Keeper.PredictableAddressGenerator cr sa m fx ctx id c).
Proof. unfold Keeper.PredictableAddressGenerator. kframe. Qed.
Hint Resolve fr_charge_setup fr_finish_call fr_TransferCoins fr_Cleanup fr_ensureIbcPort
  fr_handleContractResponse fr_StoreCode fr_AnalyzeCode fr_vm_entry fr_ClassicAddressGenerator
  fr_PredictableAddressGenerator : frame.

Lemma fr_create ctx c code acc p : preserves R (Keeper.create k ctx c code acc p).
Proof. unfold Keeper.create, Keeper.uncompress_code, getInstantiateAccessConfig, getUploadAccessConfig. kframe. Qed.
Lemma fr_prepare_account ctx a : preserves R (Keeper.prepare_account k ctx a).
Proof. unfold Keeper.prepare_account. kframe. Qed.
Lemma fr_persist_instance a c i m : preserves R (Keeper.persist_instance a c i m).
Proof. unfold Keeper.persist_instance. kframe. Qed.
Hint Resolve fr_create fr_prepare_account fr_persist_instance : frame.
Lemma fr_instantiate ctx id c ad m l d gen p :
  (forall ctx id ck, preserves R (gen ctx id ck)) ->
  preserves R (Keeper.instantiate k json_QueryRequest HandleQuery handler ctx id c ad m l d gen p).
Proof. intros Hgen. unfold Keeper.instantiate, VM_Instantiate. kframe. Qed.
Lemma fr_conclude ctx a i t r : preserves R (Keeper.conclude k handler ctx a i t r).
Proof. unfold Keeper.conclude. kframe. Qed.
Hint Resolve fr_conclude : frame.
Lemma fr_execute ctx a c m f :
  preserves R (Keeper.execute k json_QueryRequest HandleQuery handler ctx a c m f).
Proof. unfold Keeper.execute, VM_Execute. apply fr_in_instance. kframe. Qed.
Lemma fr_Sudo ctx a m : preserves R (Keeper.Sudo k json_QueryRequest HandleQuery handler ctx a m).
Proof. unfold Keeper.Sudo, VM_Sudo. apply fr_in_instance. kframe. Qed.
Lemma fr_reply ctx a r : preserves R (Keeper.reply k json_QueryRequest HandleQuery handler ctx a r).
Proof. unfold Keeper.reply, VM_Reply. apply fr_in_instance. kframe. Qed.
Lemma fr_callMigrate ctx a ck m id c v :
  preserves R (Keeper.callMigrateEntrypoint k json_QueryRequest HandleQuery ctx a ck m id c v).
Proof. unfold Keeper.callMigrateEntrypoint, VM_MigrateWithInfo. kframe. Qed.
Lemma fr_migrate_port ctx a i r : preserves R (Keeper.migrate_port ctx a i r).
Proof. unfold Keeper.migrate_port. kframe. Qed.
Lemma fr_persist_migration ctx a i id m : preserves R (Keeper.persist_migration ctx a i id m).
Proof. unfold Keeper.persist_migration. kframe. Qed.
Hint Resolve fr_callMigrate fr_migrate_port fr_persist_migration : frame.
Lemma fr_migrate ctx a c id m p :
  preserves R (Keeper.migrate k json_QueryRequest HandleQuery handler ctx a c id m p).
Proof. unfold Keeper.migrate. kframe. Qed.
Lemma fr_modifiable a c p : preserves R (Keeper.modifiable_contract a c p).
Proof. unfold Keeper.modifiable_contract. kframe. Qed.
Hint Resolve fr_execute fr_Sudo fr_reply fr_migrate fr_modifiable fr_instantiate : frame.
Lemma fr_setContractAdmin a c n p : preserves R (Keeper.setContractAdmin a c n p).
Proof. unfold Keeper.setContractAdmin. kframe. Qed.
Lemma fr_setContractLabel a c n p : preserves R (Keeper.setContractLabel a c n p).
Proof. unfold Keeper.setContractLabel. kframe. Qed.
Lemma fr_setAccessConfig id c n p : preserves R (Keeper.setAccessConfig id c n p).
Proof. unfold Keeper.setAccessConfig, getInstantiateAccessConfig. kframe. Qed.
Lemma fr_pinCode id : preserves R (Keeper.pinCode id).
Proof. unfold Keeper.pinCode, VM_Pin. kframe. Qed.
Lemma fr_unpinCode id : preserves R (Keeper.unpinCode id).
Proof. unfold Keeper.unpinCode, VM_Unpin. kframe. Qed.
Lemma fr_QuerySmart ctx a req :
  preserves R (Keeper.QuerySmart k json_QueryRequest HandleQuery ctx a req).
Proof.
  unfold Keeper.QuerySmart, VM_Query. case_match; [|kframe]. apply fr_in_instance. kframe.
Qed.
Lemma fr_parse_address w a : preserves R (MsgServer.parse_address w a).
Proof. unfold MsgServer.parse_address. kframe. Qed.
Lemma fr_for_each {A} (f : A -> M unit) l :
  (forall x, preserves R (f x)) -> preserves R (MsgServer.for_each f l).
Proof. intros Hf. induction l; simpl; kframe. Qed.
Hint Resolve fr_setContractAdmin fr_setContractLabel fr_setAccessConfig fr_pinCode fr_unpinCode
  fr_parse_address fr_for_each : frame.
Lemma fr_parse_admin a : preserves R (MsgServer.parse_admin a).
Proof. unfold MsgServer.parse_admin. kframe. Qed.
Lemma fr_require_authority a : preserves R (MsgServer.require_authority k a).
Proof. unfold MsgServer.require_authority. kframe. Qed.
Lemma fr_update_upload f : preserves R (MsgServer.update_upload_addresses f).
Proof. unfold MsgServer.update_upload_addresses. kframe. Qed.
Hint Resolve fr_parse_admin fr_require_authority fr_update_upload : frame.

Lemma fr_serve ctx msg :
  preserves R (MsgServer.serve k json_QueryRequest HandleQuery handler ctx msg).
Proof.
  destruct msg; unfold MsgServer.serve, MsgServer.StoreCode, MsgServer.InstantiateContract,
    MsgServer.InstantiateContract2, MsgServer.ExecuteContract, MsgServer.MigrateContract,
    MsgServer.UpdateAdmin, MsgServer.ClearAdmin, MsgServer.UpdateInstantiateConfig,
    MsgServer.UpdateParams, MsgServer.PinCodes, MsgServer.UnpinCodes, MsgServer.SudoContract,
    MsgServer.StoreAndInstantiateContract, MsgServer.AddCodeUploadParamsAddresses,
    MsgServer.RemoveCodeUploadParamsAddresses, MsgServer.StoreAndMigrateContract,
    MsgServer.UpdateContractLabel; kframe.
Qed.

End Frames.

(** ** Ending within the gas limit *)

Section Kept.
Context `{GasMeters, Modules, KVStorePkg, Bech32, ErrorsMod, UnicodeTables,
  AddressPkg, CoinsPkg, Codecs, Gzip, VerificationPkg}.
Context `{!WasmEngine, !Keepers, !GasMetersLaws}.
Context (k : KeeperConfig).
Context (json_QueryRequest : bytes -> QueryRequest + string).
Context (HandleQuery : Context -> bytes -> QueryRequest -> M bytes).
Context (handler : Context -> bytes -> string -> list SubMsg -> option bytes -> M (option bytes)).
Hypothesis handler_kept : forall ctx addr port msgs data,
  kept (handler ctx addr port msgs data).

Ltac kkept := kept; try solve [auto].

Lemma kp_MustMarshal {A} `{Codec A} (a : A) : kept (MustMarshal a).
Proof. unfold MustMarshal. kkept. Qed.
Lemma kp_MustUnmarshal {A} `{Codec A} bz : kept (MustUnmarshal (A := A) bz).
Proof. unfold MustUnmarshal. kkept. Qed.
Hint Resolve kp_MustMarshal kp_MustUnmarshal : kept.

Lemma kp_GetParams : kept GetParams.
Proof. unfold GetParams, params_Get. kkept. Qed.
Lemma kp_SetParams p : kept (SetParams p).
Proof. unfold SetParams. kkept. Qed.
Lemma kp_GetCodeInfo id : kept (GetCodeInfo id).
Proof. unfold GetCodeInfo. kkept. Qed.
Lemma kp_GetContractInfo a : kept (GetContractInfo a).
Proof. unfold GetContractInfo. kkept. Qed.
Lemma kp_mustStoreCodeInfo id c : kept (mustStoreCodeInfo id c).
Proof. unfold mustStoreCodeInfo. kkept. Qed.
Lemma kp_mustStoreContractInfo a c : kept (mustStoreContractInfo a c).
Proof. unfold mustStoreContractInfo. kkept. Qed.
Lemma kp_HasContractInfo a : kept (HasContractInfo a).
Proof. unfold HasContractInfo. kkept. Qed.
Lemma kp_IsPinnedCode id : kept (IsPinnedCode id).
Proof. unfold IsPinnedCode. kkept. Qed.
Lemma kp_contractInstance a : kept (contractInstance a).
Proof. unfold contractInstance. kkept. Qed.
Lemma kp_mustAutoIncrementID key : kept (mustAutoIncrementID key).
Proof. unfold mustAutoIncrementID. kkept. Qed.
Lemma kp_checkDiscountEligibility c p : kept (checkDiscountEligibility c p).
Proof. unfold checkDiscountEligibility. kkept. Qed.
Lemma kp_store_history a pos l : kept (store_history a pos l).
Proof. revert pos. induction l as [|e l IH]; intros pos; simpl; kkept. Qed.
Lemma kp_appendToContractHistory a l : kept (appendToContractHistory a l).
Proof.
  unfold appendToContractHistory, last_history_position. kept. apply kp_store_history.
Qed.
Lemma kp_mustGetLast a : kept (mustGetLastContractHistoryEntry a).
Proof. unfold mustGetLastContractHistoryEntry. kkept. Qed.
Lemma kp_addCodeIndex a e : kept (addToContractCodeSecondaryIndex a e).
Proof. unfold addToContractCodeSecondaryIndex. kkept. Qed.
Lemma kp_removeCodeIndex a e : kept (removeFromContractCodeSecondaryIndex a e).
Proof. unfold removeFromContractCodeSecondaryIndex. kkept. Qed.
Lemma kp_addCreatorIndex c p a : kept (addToContractCreatorSecondaryIndex c p a).
Proof. unfold addToContractCreatorSecondaryIndex. kkept. Qed.
Hint Resolve kp_GetParams kp_SetParams kp_GetCodeInfo kp_GetContractInfo kp_mustStoreCodeInfo
  kp_mustStoreContractInfo kp_HasContractInfo kp_IsPinnedCode kp_contractInstance
  kp_mustAutoIncrementID kp_checkDiscountEligibility kp_appendToContractHistory kp_mustGetLast
  kp_addCodeIndex kp_removeCodeIndex kp_addCreatorIndex : kept.

(** A call into the VM may overrun the meter in its callbacks; the charge that
    follows it does not let that pass. *)
Lemma no_fail_recoverPanic {A B} (body : M A) (f : GoError * option A -> M B) :
  (forall r, no_fail (f r)) -> no_fail (recoverPanic body ≫= f).
Proof.
  intros Hf s. unfold recoverPanic, reify, mbind, M_bind. simpl.
  destruct (body s) as [[a|e|[]] s']; simpl; try done; apply Hf.
Qed.
Lemma run_prog_no_fail {T} gm prefix rq (p : Prog T) fr c : no_fail (run_prog gm prefix rq fr c p).
Proof.
  revert fr. induction p; intros fr; cbn [run_prog]; [done|..];
    apply no_fail_recoverPanic; intros [e r]; repeat case_match; eauto.
Qed.
Lemma vm_entry_no_fail {A} gm rq prefix prog g decode sub :
  no_fail (vm_entry (A := A) gm rq prefix prog g decode sub).
Proof.
  intros s. unfold vm_entry, vm_call, mbind, M_bind. simpl.
  pose proof (run_prog_no_fail gm prefix rq (prog (vm s)) ∅ 1 s) as Hr.
  destruct (run_prog _ _ _ _ _ _ s) as [[[[data|] rep]|e|p] s']; try done.
  unfold lift, DeserializeResponse, GasRegister.UFraction_Floor. simpl.
  repeat case_match; simplify_eq/=; done.
Qed.
Lemma settles_consumeRuntimeGas g : settles (Keeper.consumeRuntimeGas k g).
Proof.
  unfold Keeper.consumeRuntimeGas, GasRegister.FromWasmVMGas.
  destruct (GasRegister.GasMultiplier _ =? 0)%N; [done|].
  assert (settles (consume (g / GasRegister.GasMultiplier (gasRegister k))%N "wasm contract")) as Hc
    by apply settles_consume.
  intros s. apply (settles_bind _ _ Hc). kkept.
Qed.
Lemma settles_finish_call r e : settles (Keeper.finish_call k r e).
Proof.
  unfold Keeper.finish_call. destruct r as [[res|err] g];
    (apply settles_bind; [apply settles_consumeRuntimeGas|kkept]).
Qed.
Lemma kp_consumeRuntimeGas g : kept (Keeper.consumeRuntimeGas k g).
Proof. apply settles_kept, settles_consumeRuntimeGas. Qed.
Lemma kp_runtimeGas : kept (Keeper.runtimeGasForContract k).
Proof. unfold Keeper.runtimeGasForContract. kkept. Qed.
Lemma kp_deref {A} (p : option A) : kept (Keeper.deref p).
Proof. destruct p; simpl; kkept. Qed.
Hint Resolve vm_entry_no_fail settles_consumeRuntimeGas settles_finish_call
  kp_consumeRuntimeGas kp_runtimeGas kp_deref : kept.

Lemma kp_charge_setup id c m d : kept (Keeper.charge_setup k id c m d).
Proof. unfold Keeper.charge_setup. kkept. Qed.
Lemma kp_TransferCoins ctx f t a : kept (Keeper.TransferCoins ctx f t a).
Proof. unfold Keeper.TransferCoins. kkept. Qed.
Lemma kp_Cleanup ctx acc : kept (Keeper.CleanupExistingAccount ctx acc).
Proof. unfold Keeper.CleanupExistingAccount. kkept. Qed.
Lemma kp_ensureIbcPort ctx a : kept (Keeper.ensureIbcPort ctx a).
Proof. unfold Keeper.ensureIbcPort, Keeper.bindIbcPort. kkept. Qed.
Lemma kp_handleContractResponse ctx a p r :
  kept (Keeper.handleContractResponse k handler ctx a p r).
Proof. unfold Keeper.handleContractResponse. kkept. Qed.
Lemma kp_StoreCode code g : kept (VM_StoreCode code g).
Proof. unfold VM_StoreCode. kkept. Qed.
Lemma kp_AnalyzeCode c : kept (VM_AnalyzeCode c).
Proof. unfold VM_AnalyzeCode. kkept. Qed.
Lemma kp_ClassicAddressGenerator ctx id c : kept (Keeper.ClassicAddressGenerator ctx id c).
Proof. unfold Keeper.ClassicAddressGenerator. kkept. Qed.
Lemma kp_PredictableAddressGenerator cr sa m fx ctx id c :
  kept (Keeper.PredictableAddressGenerator cr sa m fx ctx id c).
Proof. unfold Keeper.PredictableAddressGenerator. kkept. Qed.
Hint Resolve kp_charge_setup kp_TransferCoins kp_Cleanup kp_ensureIbcPort
  kp_handleContractResponse kp_StoreCode kp_AnalyzeCode kp_ClassicAddressGenerator
  kp_PredictableAddressGenerator : kept.

Lemma kp_create ctx c code acc p : kept (Keeper.create k ctx c code acc p).
Proof.
  unfold Keeper.create, Keeper.uncompress_code, getInstantiateAccessConfig,
    getUploadAccessConfig. kkept.
Qed.
Lemma kp_prepare_account ctx a : kept (Keeper.prepare_account k ctx a).
Proof. unfold Keeper.prepare_account. kkept. Qed.
Lemma kp_persist_instance a c i m : kept (Keeper.persist_instance a c i m).
Proof. unfold Keeper.persist_instance. kkept. Qed.
Lemma kp_conclude ctx a i t r : kept (Keeper.conclude k handler ctx a i t r).
Proof. unfold Keeper.conclude. kkept. Qed.
Hint Resolve kp_create kp_prepare_account kp_persist_instance kp_conclude : kept.
Lemma kp_instantiate ctx id c ad m l d gen p :
  (forall ctx id ck, kept (gen ctx id ck)) ->
  kept (Keeper.instantiate k json_QueryRequest HandleQuery handler ctx id c ad m l d gen p).
Proof. intros Hgen. unfold Keeper.instantiate, VM_Instantiate. kkept. Qed.
Lemma kp_execute ctx a c m f :
  kept (Keeper.execute k json_QueryRequest HandleQuery handler ctx a c m f).
Proof. unfold Keeper.execute, VM_Execute. kkept. Qed.
Lemma kp_Sudo ctx a m : kept (Keeper.Sudo k json_QueryRequest HandleQuery handler ctx a m).
Proof. unfold Keeper.Sudo, VM_Sudo. kkept. Qed.
Lemma kp_reply ctx a r : kept (Keeper.reply k json_QueryRequest HandleQuery handler ctx a r).
Proof. unfold Keeper.reply, VM_Reply. kkept. Qed.
Lemma kp_callMigrate ctx a ck m id c v :
  kept (Keeper.callMigrateEntrypoint k json_QueryRequest HandleQuery ctx a ck m id c v).
Proof.
  unfold Keeper.callMigrateEntrypoint, VM_MigrateWithInfo. kept.
Qed.
Lemma kp_migrate_port ctx a i r : kept (Keeper.migrate_port ctx a i r).
Proof. unfold Keeper.migrate_port. kkept. Qed.
Lemma kp_persist_migration ctx a i id m : kept (Keeper.persist_migration ctx a i id m).
Proof. unfold Keeper.persist_migration. kkept. Qed.
Hint Resolve kp_callMigrate kp_migrate_port kp_persist_migration : kept.
Lemma kp_migrate ctx a c id m p :
  kept (Keeper.migrate k json_QueryRequest HandleQuery handler ctx a c id m p).
Proof. unfold Keeper.migrate. kkept. Qed.
Lemma kp_modifiable a c p : kept (Keeper.modifiable_contract a c p).
Proof. unfold Keeper.modifiable_contract. kkept. Qed.
Hint Resolve kp_execute kp_Sudo kp_reply kp_migrate kp_modifiable kp_instantiate : kept.
Lemma kp_setContractAdmin a c n p : kept (Keeper.setContractAdmin a c n p).
Proof. unfold Keeper.setContractAdmin. kkept. Qed.
Lemma kp_setContractLabel a c n p : kept (Keeper.setContractLabel a c n p).
Proof. unfold Keeper.setContractLabel. kkept. Qed.
Lemma kp_setAccessConfig id c n p : kept (Keeper.setAccessConfig id c n p).
Proof. unfold Keeper.setAccessConfig, getInstantiateAccessConfig. kkept. Qed.
Lemma kp_pinCode id : kept (Keeper.pinCode id).
Proof. unfold Keeper.pinCode, VM_Pin. kkept. Qed.
Lemma kp_unpinCode id : kept (Keeper.unpinCode id).
Proof. unfold Keeper.unpinCode, VM_Unpin. kkept. Qed.
Lemma kp_parse_address w a : kept (MsgServer.parse_address w a).
Proof. unfold MsgServer.parse_address. kkept. Qed.
Lemma kp_for_each {A} (f : A -> M unit) l :
  (forall x, kept (f x)) -> kept (MsgServer.for_each f l).
Proof. intros Hf. induction l; simpl; kkept. Qed.
Hint Resolve kp_setContractAdmin kp_setContractLabel kp_setAccessConfig kp_pinCode kp_unpinCode
  kp_parse_address kp_for_each : kept.
Lemma kp_parse_admin a : kept (MsgServer.parse_admin a).
Proof. unfold MsgServer.parse_admin. kkept. Qed.
Lemma kp_require_authority a : kept (MsgServer.require_authority k a).
Proof. unfold MsgServer.require_authority. kkept. Qed.
Lemma kp_update_upload f : kept (MsgServer.update_upload_addresses f).
Proof. unfold MsgServer.update_upload_addresses. kkept. Qed.
Hint Resolve kp_parse_admin kp_require_authority kp_update_upload : kept.

Lemma kp_serve ctx msg : kept (MsgServer.serve k json_QueryRequest HandleQuery handler ctx msg).
Proof.
  destruct msg; unfold MsgServer.serve, MsgServer.StoreCode, MsgServer.InstantiateContract,
    MsgServer.InstantiateContract2, MsgServer.ExecuteContract, MsgServer.MigrateContract,
    MsgServer.UpdateAdmin, MsgServer.ClearAdmin, MsgServer.UpdateInstantiateConfig,
    MsgServer.UpdateParams, MsgServer.PinCodes, MsgServer.UnpinCodes, MsgServer.SudoContract,
    MsgServer.StoreAndInstantiateContract, MsgServer.AddCodeUploadParamsAddresses,
    MsgServer.RemoveCodeUploadParamsAddresses, MsgServer.StoreAndMigrateContract,
    MsgServer.UpdateContractLabel; kkept.
Qed.

End Kept.
