(* ===== verification/Encoders.v ===== *)
(** The translation of a contract's messages into messages of the SDK's
    modules (x/wasm/keeper/handler_plugin_encoders.go). *)
From S2P Require Import Prelude Errors GoStrings Types Keys VMTypes Policy GasRegister Chain Logic Engine Store Events Keeper Msgs MsgServer.
Import GoStrings Msgs.Msgs.
Open Scope wasm_scope.

(** cosmossdk.io/math and sdk.Coins as the conversions use them. *)
Class CoinConversion := {
  NewIntFromString : string -> option Z;
  Coin_Validate : sdkCoin -> option error;
  (** panics on overflow *)
  Coins_Add : Coins -> sdkCoin -> outcome Coins;
  Coins_Sort : Coins -> Coins;
  (** LegacyNewDecFromStr, then String *)
  LegacyDec_text : string -> string + error;
}.

(** ibc-go's ICS20 port source: the port of the transfer module. *)
Class TransferPort `{Modules} := { GetPort : Ext string }.

Module Encoders.

(** ** SDK messages *)

(** v1.VoteOption of the gov module *)
Inductive VoteOption := OptionEmpty | OptionYes | OptionAbstain | OptionNo | OptionNoWithVeto.

(** ibcfeetypes.Fee *)
Record Fee := mkFee { Fee_Recv : Coins; Fee_Ack : Coins; Fee_Timeout : Coins }.

(** The messages the encoders build, and any other registered message
    ([SOther]) an Any can unpack to. *)
Inductive SdkMsg :=
| SWasm (msg : MsgServer.WasmMsg)
| SBankSend (fromAddress toAddress : string) (amount : Coins)
| SSetWithdrawAddress (delegator withdrawAddress : string)
| SWithdrawDelegatorReward (delegator validator : string)
| SFundCommunityPool (depositor : string) (amount : Coins)
| SDelegate (delegator validator : string) (amount : sdkCoin)
| SBeginRedelegate (delegator srcValidator dstValidator : string) (amount : sdkCoin)
| SUndelegate (delegator validator : string) (amount : sdkCoin)
| SChannelCloseInit (portID channelID signer : string)
| STransfer (sourcePort sourceChannel : string) (token : sdkCoin) (sender receiver : string)
    (timeoutHeight : N * N) (timeoutTimestamp : N) (memo : string)
| SPayPacketFee (fee : Fee) (sourcePort sourceChannel signer : string)
    (relayers : list string)
| SPayPacketFeeAsync (portID channelID : string) (sequence : N) (fee : Fee)
    (refundAddress : string) (relayers : list string)
| SVote (voter : string) (proposalID : N) (option : VoteOption) (metadata : string)
| SVoteWeighted (voter : string) (proposalID : N) (options : list (VoteOption * string))
    (metadata : string)
| SOther (typeURL : string) (value : bytes).

(** codec.AnyUnpacker: UnpackAny followed by UnpackInterfaces on the result;
    each with its error. *)
Class AnyUnpacker := {
  UnpackAny : string -> bytes -> SdkMsg + error;
  UnpackInterfaces : SdkMsg -> option error;
}.

Section Encoders.
Context `{GasMeters, Modules, KVStorePkg, Bech32, ErrorsMod}.
Context `{!CoinConversion, !TransferPort, !AnyUnpacker}.

(** ** Conversions *)

Definition ConvertWasmIBCTimeoutHeightToCosmosHeight (b : option IBCTimeoutBlock) : N * N :=
  match b with
  | None => (0%N, 0%N)
  | Some b => (TB_Revision b, TB_Height b)
  end.

(** The error of Validate is returned together with the coin; every caller
    looks at the error first. *)
Definition ConvertWasmCoinToSdkCoin (coin : VM.Coin) : outcome sdkCoin :=
  match NewIntFromString (Amount coin) with
  | None => Fail (Wrap ErrInvalidCoins (String.append (Amount coin) (Denom coin)))
  | Some amount =>
      let r := mkSdkCoin (Denom coin) amount in
      match Coin_Validate r with Some err => Fail err | None => Ret r end
  end.

Fixpoint convert_coins_loop (coins : list VM.Coin) (toSend : Coins) : outcome Coins :=
  match coins with
  | [] => Ret (Coins_Sort toSend)
  | coin :: coins' =>
      obind (ConvertWasmCoinToSdkCoin coin) (fun c =>
      obind (Coins_Add toSend c) (fun toSend =>
      convert_coins_loop coins' toSend))
  end.
Definition ConvertWasmCoinsToSdkCoins (coins : list VM.Coin) : outcome Coins :=
  convert_coins_loop coins [].

Definition ConvertIBCFee (fee : IBCFee) : outcome Fee :=
  obind (ConvertWasmCoinsToSdkCoins (AckFee fee)) (fun ackFee =>
  obind (ConvertWasmCoinsToSdkCoins (ReceiveFee fee)) (fun recvFee =>
  obind (ConvertWasmCoinsToSdkCoins (TimeoutFee fee)) (fun timeoutFee =>
  Ret (mkFee recvFee ackFee timeoutFee)))).

Definition convertVoteOption (s : voteOption) : outcome VoteOption :=
  match s with
  | Yes => Ret OptionYes
  | No => Ret OptionNo
  | NoWithVeto => Ret OptionNoWithVeto
  | Abstain => Ret OptionAbstain
  | UnsetVoteOption => Fail ErrInvalid
  end.

(** errorsmod.Wrap on the error of an outcome. *)
Definition owrap {A} (msg : string) (o : outcome A) : outcome A :=
  match o with Fail e => Fail (Wrap e msg) | _ => o end.

(** ** Encoders *)

Definition EncodeBankMsg (sender : bytes) (msg : BankMsg) : outcome (list SdkMsg) :=
  match Send msg with
  | None => Fail (Wrap ErrUnknownMsg "unknown variant of Bank")
  | Some send =>
      if Nat.eqb (length (Send_Amount send)) 0 then Ret []
      else obind (ConvertWasmCoinsToSdkCoins (Send_Amount send)) (fun toSend =>
           Ret [SBankSend (AccAddress_String sender) (Send_To send) toSend])
  end.

Definition NoCustomMsg (_ : bytes) (_ : bytes) : outcome (list SdkMsg) :=
  Fail (Wrap ErrUnknownMsg "custom variant not supported").

Definition EncodeDistributionMsg (sender : bytes) (msg : DistributionMsg)
    : outcome (list SdkMsg) :=
  match SetWithdrawAddress msg, WithdrawDelegatorReward msg, FundCommunityPool msg with
  | Some address, _, _ => Ret [SSetWithdrawAddress (AccAddress_String sender) address]
  | _, Some validator, _ => Ret [SWithdrawDelegatorReward (AccAddress_String sender) validator]
  | _, _, Some amount =>
      obind (ConvertWasmCoinsToSdkCoins amount) (fun amt =>
      Ret [SFundCommunityPool (AccAddress_String sender) amt])
  | None, None, None => Fail (Wrap ErrUnknownMsg "unknown variant of Distribution")
  end.

Definition EncodeStakingMsg (sender : bytes) (msg : StakingMsg) : outcome (list SdkMsg) :=
  match Delegate msg, Redelegate msg, Undelegate msg with
  | Some (validator, amount), _, _ =>
      obind (ConvertWasmCoinToSdkCoin amount) (fun coin =>
      Ret [SDelegate (AccAddress_String sender) validator coin])
  | _, Some (src, dst, amount), _ =>
      obind (ConvertWasmCoinToSdkCoin amount) (fun coin =>
      Ret [SBeginRedelegate (AccAddress_String sender) src dst coin])
  | _, _, Some (validator, amount) =>
      obind (ConvertWasmCoinToSdkCoin amount) (fun coin =>
      Ret [SUndelegate (AccAddress_String sender) validator coin])
  | None, None, None => Fail (Wrap ErrUnknownMsg "unknown variant of Staking")
  end.

Definition EncodeAnyMsg (_ : bytes) (msg : VM.AnyMsg) : outcome (list SdkMsg) :=
  match UnpackAny (Any_TypeURL msg) (Any_Value msg) with
  | inr _ => Fail (Wrap ErrInvalidMsg
      (String.append "Cannot unpack proto message with type URL: " (Any_TypeURL msg)))
  | inl sdkMsg =>
      match UnpackInterfaces sdkMsg with
      | Some err => Fail (Wrap ErrInvalidMsg
          (String.append "UnpackInterfaces inside msg: " (error_string err)))
      | None => Ret [sdkMsg]
      end
  end.

(** The variants of a WasmMsg in the order the switch looks at them. *)
Definition EncodeWasmMsg (sender : bytes) (msg : VM.WasmMsg) : outcome (list SdkMsg) :=
  let sender := AccAddress_String sender in
  match Execute msg with
  | Some m =>
      obind (ConvertWasmCoinsToSdkCoins (Exec_Funds m)) (fun coins =>
      Ret [SWasm (MsgServer.WExecuteContract
             (mkMsgExecuteContract sender (Exec_ContractAddr m) (Exec_Msg m) coins))])
  | None =>
  match Instantiate msg with
  | Some m =>
      obind (ConvertWasmCoinsToSdkCoins (Inst_Funds m)) (fun coins =>
      Ret [SWasm (MsgServer.WInstantiateContract
             (mkMsgInstantiateContract sender (Inst_Admin m) (Inst_CodeID m) (Inst_Label m)
                (Inst_Msg m) coins))])
  | None =>
  match Instantiate2 msg with
  | Some m =>
      obind (ConvertWasmCoinsToSdkCoins (Inst2_Funds m)) (fun coins =>
      Ret [SWasm (MsgServer.WInstantiateContract2
             (mkMsgInstantiateContract2 sender (Inst2_Admin m) (Inst2_CodeID m)
                (Inst2_Label m) (Inst2_Msg m) coins (Inst2_Salt m) false))])
  | None =>
  match Migrate msg with
  | Some m =>
      Ret [SWasm (MsgServer.WMigrateContract
             (mkMsgMigrateContract sender (Mig_ContractAddr m) (Mig_NewCodeID m) (Mig_Msg m)))]
  | None =>
  match ClearAdmin msg with
  | Some contractAddr =>
      Ret [SWasm (MsgServer.WClearAdmin (mkMsgClearAdmin sender contractAddr))]
  | None =>
  match UpdateAdmin msg with
  | Some m =>
      Ret [SWasm (MsgServer.WUpdateAdmin
             (mkMsgUpdateAdmin sender (VM.UA_Admin m) (UA_ContractAddr m)))]
  | None => Fail (Wrap ErrUnknownMsg "unknown variant of Wasm")
  end end end end end end.

Definition EncodeIBCMsg (ctx : Context) (sender : bytes) (contractIBCPortID : string)
    (msg : IBCMsg) : M (list SdkMsg) :=
  match CloseChannel msg, Transfer msg, PayPacketFee msg, PayPacketFeeAsync msg with
  | Some channelID, _, _, _ =>
      mret [SChannelCloseInit (Keeper.PortIDForContract sender) channelID
              (AccAddress_String sender)]
  | _, Some t, _, _ =>
      amount ← lift (owrap "amount" (ConvertWasmCoinToSdkCoin (Tr_Amount t)));
      port ← call_ext ctx GetPort;
      mret [STransfer port (Tr_ChannelID t) amount (AccAddress_String sender) (Tr_To t)
              (ConvertWasmIBCTimeoutHeightToCosmosHeight (TO_Block (Tr_Timeout t)))
              (TO_Timestamp (Tr_Timeout t)) (Tr_Memo t)]
  | _, _, Some p, _ =>
      fee ← lift (owrap "fee" (ConvertIBCFee (PF_Fee p)));
      mret [SPayPacketFee fee (PF_PortID p) (PF_ChannelID p) (AccAddress_String sender)
              (PF_Relayers p)]
  | _, _, _, Some p =>
      fee ← lift (owrap "fee" (ConvertIBCFee (PA_Fee p)));
      mret [SPayPacketFeeAsync (PA_PortID p) (PA_ChannelID p) (PA_Sequence p) fee
              (AccAddress_String sender) (PA_Relayers p)]
  | None, None, None, None => fail (Wrap ErrUnknownMsg "unknown variant of IBC")
  end.

(** The options of a weighted vote; the index in the error message counts
    from one. *)
Fixpoint convert_weighted (opts : list VM.WeightedVoteOption)
    : outcome (list (VoteOption * string)) :=
  match opts with
  | [] => Ret []
  | v :: opts' =>
      match LegacyDec_text (Weight v) with
      | inr err => Fail (Wrap err "weight for vote %d")
      | inl weight =>
          obind (owrap "vote option" (convertVoteOption (WOption v))) (fun o =>
          obind (convert_weighted opts') (fun rest => Ret ((o, weight) :: rest)))
      end
  end.

Definition EncodeGovMsg (sender : bytes) (msg : GovMsg) : outcome (list SdkMsg) :=
  match Vote msg, VoteWeighted msg with
  | Some (proposalID, option), _ =>
      obind (owrap "vote option" (convertVoteOption option)) (fun voteOption =>
      Ret [SVote (AccAddress_String sender) proposalID voteOption ""])
  | None, Some (proposalID, options) =>
      obind (convert_weighted options) (fun opts =>
      Ret [SVoteWeighted (AccAddress_String sender) proposalID opts ""])
  | None, None => Fail (Wrap ErrUnknownMsg "unknown variant of gov")
  end.

(** ** The encoders of a chain *)

(** MessageEncoders: function fields, nil where a customisation leaves the
    default in place. *)
Record MessageEncoders := mkEncoders {
  Enc_Bank : option (bytes -> BankMsg -> outcome (list SdkMsg));
  Enc_Custom : option (bytes -> bytes -> outcome (list SdkMsg));
  Enc_Distribution : option (bytes -> DistributionMsg -> outcome (list SdkMsg));
  Enc_IBC : option (Context -> bytes -> string -> IBCMsg -> M (list SdkMsg));
  Enc_Staking : option (bytes -> StakingMsg -> outcome (list SdkMsg));
  Enc_Any : option (bytes -> VM.AnyMsg -> outcome (list SdkMsg));
  Enc_Wasm : option (bytes -> VM.WasmMsg -> outcome (list SdkMsg));
  Enc_Gov : option (bytes -> GovMsg -> outcome (list SdkMsg));
}.

Definition DefaultEncoders : MessageEncoders :=
  mkEncoders (Some EncodeBankMsg) (Some NoCustomMsg) (Some EncodeDistributionMsg)
    (Some EncodeIBCMsg) (Some EncodeStakingMsg) (Some EncodeAnyMsg) (Some EncodeWasmMsg)
    (Some EncodeGovMsg).

(** The second if it is set. *)
Definition override {A} (e o : option A) : option A :=
  match o with Some f => Some f | None => e end.
Definition Merge (e : MessageEncoders) (o : option MessageEncoders) : MessageEncoders :=
  match o with
  | None => e
  | Some o =>
      mkEncoders (override (Enc_Bank e) (Enc_Bank o)) (override (Enc_Custom e) (Enc_Custom o))
        (override (Enc_Distribution e) (Enc_Distribution o)) (override (Enc_IBC e) (Enc_IBC o))
        (override (Enc_Staking e) (Enc_Staking o)) (override (Enc_Any e) (Enc_Any o))
        (override (Enc_Wasm e) (Enc_Wasm o)) (override (Enc_Gov e) (Enc_Gov o))
  end.

(** A call through a function field. *)
Definition call_encoder {A B} (f : option (A -> B -> outcome (list SdkMsg))) (a : A) (b : B)
    : M (list SdkMsg) :=
  f ← Keeper.deref f; lift (f a b).

Definition Encode (e : MessageEncoders) (ctx : Context) (contractAddr : bytes)
    (contractIBCPortID : string) (msg : CosmosMsg) : M (list SdkMsg) :=
  match Bank msg with Some m => call_encoder (Enc_Bank e) contractAddr m | None =>
  match Custom msg with Some m => call_encoder (Enc_Custom e) contractAddr m | None =>
  match Distribution msg with
  | Some m => call_encoder (Enc_Distribution e) contractAddr m | None =>
  match IBC msg with
  | Some m => f ← Keeper.deref (Enc_IBC e); f ctx contractAddr contractIBCPortID m | None =>
  match Staking msg with Some m => call_encoder (Enc_Staking e) contractAddr m | None =>
  match Any msg with Some m => call_encoder (Enc_Any e) contractAddr m | None =>
  match Wasm msg with Some m => call_encoder (Enc_Wasm e) contractAddr m | None =>
  match Gov msg with Some m => lift (EncodeGovMsg contractAddr m) | None =>
  fail (Wrap ErrUnknownMsg "unknown variant of Wasm")
  end end end end end end end end.


(** A contract's wasm messages are sent in its own name. Whatever a contract
    asks for, the default encoder produces one message whose signer field is
    the contract's address. *)
Theorem EncodeWasmMsg_sender sender msg msgs :
  EncodeWasmMsg sender msg = Ret msgs ->
  exists m, msgs = [SWasm m] /\ MsgServer.msg_signer m = AccAddress_String sender.
Proof.
  unfold EncodeWasmMsg, obind. intros E.
  repeat case_match; simplify_eq; by eexists.
Qed.

(** A custom encoder for governance messages has no effect. Encode calls the
    default EncodeGovMsg instead of the Gov field, so merging an encoder for
    them changes nothing, for any message. *)
Theorem custom_gov_encoder_ignored e gov ctx contractAddr port msg :
  Encode (Merge e (Some (mkEncoders None None None None None None None (Some gov))))
    ctx contractAddr port msg
  = Encode e ctx contractAddr port msg.
Proof. done. Qed.

End Encoders.
End Encoders.
