(* ===== verification/Messenger.v ===== *)
(** The message handlers behind the dispatcher (x/wasm/keeper/
    handler_plugin.go): encoding and routing of SDK messages with the check of
    their signers, raw IBC packets, burning coins, the chain of handlers and
    the bound on nested calls. *)
From S2P Require Import Prelude Errors GoStrings Types Proto Keys VMTypes Policy GasRegister Chain Logic Engine Store Events Keeper Dispatcher Msgs MsgServer Encoders.
Import GoStrings Keys Store.Store Msgs.Msgs Encoders.Encoders.
Open Scope wasm_scope.

(** ibc-go's ICS4 wrapper and 24-host paths. *)
Class ICS4 `{Keepers} := {
  ChannelCapabilityPath : string -> string -> string;
  ics4_SendPacket : Capability -> string -> string -> N * N -> N -> bytes -> Ext N;
  ics4_WriteAcknowledgement : Capability -> Packet -> bytes -> Ext unit;
  ErrChannelCapabilityNotFound : error;
}.

(** sdk.Result as the handler looks at it. *)
Record SdkResult := mkSdkResult {
  R_Data : option bytes;
  R_Events : list Event;
  R_MsgResponses : list Types.AnyMsg;
}.

(** codec.Codec.GetMsgV1Signers, and the ValidateBasic of the messages of
    other modules, where they have one. *)
Class MsgCodec := {
  GetMsgV1Signers : SdkMsg -> list bytes + error;
  ext_ValidateBasic : SdkMsg -> option error;
}.

Module Messenger.

Abbreviation MessengerFn := (Context -> bytes -> string -> CosmosMsg -> M DispatchResult).

Section Messenger.
Context `{GasMeters, Modules, KVStorePkg, Bech32, ErrorsMod, UnicodeTables,
  AddressPkg, CoinsPkg, Codecs, VerificationPkg}.
Context `{!Keepers, !ICS4, !CoinConversion, !TransferPort, !AnyUnpacker, !MsgCodec}.
(** MessageRouter.Handler *)
Context (Handler : SdkMsg -> option (Context -> SdkMsg -> M SdkResult)).

Definition noResult : DispatchResult := mkDispatchResult [] [] [].

(** ** SDKMessageHandler *)

Definition WasmMsg_ValidateBasic (msg : MsgServer.WasmMsg) : option error :=
  match msg with
  | MsgServer.WStoreCode m => MsgStoreCode_ValidateBasic m
  | MsgServer.WInstantiateContract m => MsgInstantiateContract_ValidateBasic m
  | MsgServer.WInstantiateContract2 m => MsgInstantiateContract2_ValidateBasic m
  | MsgServer.WExecuteContract m => MsgExecuteContract_ValidateBasic m
  | MsgServer.WMigrateContract m => MsgMigrateContract_ValidateBasic m
  | MsgServer.WUpdateAdmin m => MsgUpdateAdmin_ValidateBasic m
  | MsgServer.WClearAdmin m => MsgClearAdmin_ValidateBasic m
  | MsgServer.WUpdateInstantiateConfig m => MsgUpdateInstantiateConfig_ValidateBasic m
  | MsgServer.WUpdateParams m => MsgUpdateParams_ValidateBasic m
  | MsgServer.WPinCodes m => MsgPinCodes_ValidateBasic m
  | MsgServer.WUnpinCodes m => MsgUnpinCodes_ValidateBasic m
  | MsgServer.WSudoContract m => MsgSudoContract_ValidateBasic m
  | MsgServer.WStoreAndInstantiateContract m => MsgStoreAndInstantiateContract_ValidateBasic m
  | MsgServer.WAddCodeUploadParamsAddresses m =>
      MsgAddCodeUploadParamsAddresses_ValidateBasic m
  | MsgServer.WRemoveCodeUploadParamsAddresses m =>
      MsgRemoveCodeUploadParamsAddresses_ValidateBasic m
  | MsgServer.WStoreAndMigrateContract m => MsgStoreAndMigrateContract_ValidateBasic m
  | MsgServer.WUpdateContractLabel m => MsgUpdateContractLabel_ValidateBasic m
  end.
Definition SdkMsg_ValidateBasic (msg : SdkMsg) : option error :=
  match msg with
  | SWasm m => WasmMsg_ValidateBasic m
  | _ => ext_ValidateBasic msg
  end.

Definition handleSdkMessage (ctx : Context) (contractAddr : bytes) (msg : SdkMsg)
    : M SdkResult :=
  _ ← check (SdkMsg_ValidateBasic msg);
  match GetMsgV1Signers msg with
  | inr err => fail err
  | inl signers =>
      _ ← guard_err (negb (forallb (fun acct => acc_equals (Some contractAddr) (Some acct))
                             signers))
            (Wrap ErrUnauthorized "contract doesn't have permission");
      match Handler msg with
      | Some handler => handler ctx msg
      | None => fail (Wrap ErrUnknownRequest "can't route message %+v")
      end
  end.

Fixpoint handle_all (ctx : Context) (contractAddr : bytes) (sdkMsgs : list SdkMsg)
    (acc : DispatchResult) : M DispatchResult :=
  match sdkMsgs with
  | [] => mret acc
  | sdkMsg :: sdkMsgs' =>
      res ← handleSdkMessage ctx contractAddr sdkMsg;
      handle_all ctx contractAddr sdkMsgs'
        (mkDispatchResult (D_events acc ++ R_Events res) (D_data acc ++ [R_Data res])
           (D_msgResponses acc ++ [R_MsgResponses res]))
  end.

Definition SDKMessageHandler_DispatchMsg (encoders : MessageEncoders) : MessengerFn :=
  fun ctx contractAddr contractIBCPortID msg =>
  sdkMsgs ← Encode encoders ctx contractAddr contractIBCPortID msg;
  handle_all ctx contractAddr sdkMsgs noResult.

(** ** callDepthMessageHandler *)

Definition callDepthMessageHandler_DispatchMsg (MaxCallDepth : N) (messenger : MessengerFn)
    : MessengerFn :=
  fun ctx contractAddr contractIBCPortID msg =>
  match Keeper.checkAndIncreaseCallDepth ctx MaxCallDepth with
  | inr err => fail (Wrap err "dispatch")
  | inl ctx => messenger ctx contractAddr contractIBCPortID msg
  end.

(** ** MessageHandlerChain *)

Fixpoint MessageHandlerChain_DispatchMsg (handlers : list MessengerFn) : MessengerFn :=
  fun ctx contractAddr contractIBCPortID msg =>
  match handlers with
  | [] => fail (Wrap ErrUnknownMsg "no handler found")
  | h :: handlers' =>
      r ← catch (h ctx contractAddr contractIBCPortID msg);
      match r with
      | inl res => mret res
      | inr err =>
          if errorsIs err ErrUnknownMsg
          then MessageHandlerChain_DispatchMsg handlers' ctx contractAddr contractIBCPortID msg
          else fail err
      end
  end.

(** ** IBCRawPacketHandler *)

Definition MsgIBCSendResponse_Marshal (sequence : N) : bytes :=
  Proto.put_uint Byte.x08 sequence.
(** The response as data and packed into an Any. *)
Definition ibc_response (typeURL : string) (val : bytes) : DispatchResult :=
  mkDispatchResult [] [Some val] [[mkAny typeURL val]].

(** The channel of the message on the contract's port, with its capability. *)
Definition own_channel (ctx : Context) (contractIBCPortID contractIBCChannelID : string)
    : M Capability :=
  _ ← guard_err (bool_decide (contractIBCPortID = ""))
        (Wrap ErrUnsupportedForContract "ibc not supported");
  _ ← guard_err (bool_decide (contractIBCChannelID = "")) (Wrap ErrEmpty "ibc channel");
  c ← call_ext ctx (GetCapability
        (ChannelCapabilityPath contractIBCPortID contractIBCChannelID));
  match c with
  | Some channelCap => mret channelCap
  | None => fail (Wrap ErrChannelCapabilityNotFound "module does not own channel capability")
  end.

Definition dispatch_SendPacket (ctx : Context) (contractIBCPortID : string)
    (m : SendPacketMsg) : M DispatchResult :=
  channelCap ← own_channel ctx contractIBCPortID (SP_ChannelID m);
  seq ← wrap_err "channel" (call_ext ctx (ics4_SendPacket channelCap contractIBCPortID
          (SP_ChannelID m)
          (ConvertWasmIBCTimeoutHeightToCosmosHeight (TO_Block (SP_Timeout m)))
          (TO_Timestamp (SP_Timeout m)) (SP_Data m)));
  mret (ibc_response "/cosmwasm.wasm.v1.MsgIBCSendResponse" (MsgIBCSendResponse_Marshal seq)).

Definition dispatch_WriteAcknowledgement (ctx : Context) (contractIBCPortID : string)
    (m : WriteAcknowledgementMsg) : M DispatchResult :=
  channelCap ← own_channel ctx contractIBCPortID (WA_ChannelID m);
  packet ← map_err (fun _ => Wrap ErrInvalid "packet")
             (LoadAsyncAckPacket contractIBCPortID (WA_ChannelID m) (WA_Sequence m));
  _ ← wrap_err "acknowledgement" (call_ext ctx
        (ics4_WriteAcknowledgement channelCap packet (Ack_Data (WA_Ack m))));
  _ ← DeleteAsyncAckPacket contractIBCPortID (WA_ChannelID m) (WA_Sequence m);
  mret (ibc_response "/cosmwasm.wasm.v1.MsgIBCWriteAcknowledgementResponse" []).

Definition IBCRawPacketHandler_DispatchMsg : MessengerFn :=
  fun ctx _ contractIBCPortID msg =>
  match IBC msg with
  | None => fail ErrUnknownMsg
  | Some m =>
      match SendPacket m, WriteAcknowledgement m with
      | Some p, _ => dispatch_SendPacket ctx contractIBCPortID p
      | None, Some w => dispatch_WriteAcknowledgement ctx contractIBCPortID w
      | None, None => fail ErrUnknownMsg
      end
  end.

(** ** Burning coins *)

Definition BurnCoinMessageHandler : MessengerFn :=
  fun ctx contractAddr _ msg =>
  match Bank msg ≫= Burn with
  | None => fail ErrUnknownMsg
  | Some amount =>
      coins ← lift (ConvertWasmCoinsToSdkCoins amount);
      _ ← guard_err (Coins_IsZero coins) (Wrap ErrEmpty "amount");
      _ ← wrap_err "transfer to module"
            (call_ext ctx (SendCoinsFromAccountToModule contractAddr ModuleName coins));
      _ ← wrap_err "burn coins" (call_ext ctx (BurnCoins ModuleName coins));
      mret noResult
  end.

(** ** The messenger of the keeper *)

(** NewDefaultMessageHandler, with the chain's customisation of the encoders. *)
Definition NewDefaultMessageHandler (customEncoders : list (option MessageEncoders))
    : MessengerFn :=
  MessageHandlerChain_DispatchMsg
    [SDKMessageHandler_DispatchMsg (foldl Merge DefaultEncoders customEncoders);
     IBCRawPacketHandler_DispatchMsg;
     BurnCoinMessageHandler].

(** NewKeeper wraps the messenger last, so that it runs first. *)
Definition keeper_messenger (maxCallDepth : N)
    (customEncoders : list (option MessageEncoders)) : MessengerFn :=
  callDepthMessageHandler_DispatchMsg maxCallDepth (NewDefaultMessageHandler customEncoders).


(** C33: a contract acts for itself only. If handling an SDK message of a
    contract returns a result, or fails after a change of the state, then the
    message is valid and the contract is its only signer. *)
Theorem handleSdkMessage_authorized ctx contractAddr msg s o s' :
  handleSdkMessage ctx contractAddr msg s = (o, s') ->
  s' <> s \/ (exists res, o = Ret res) ->
  SdkMsg_ValidateBasic msg = None
  /\ exists signers, GetMsgV1Signers msg = inl signers
     /\ Forall (fun signer => signer = contractAddr) signers.
Proof.
  unfold handleSdkMessage, check, guard_err, mbind, M_bind. intros E Ho.
  destruct (SdkMsg_ValidateBasic msg); [injection E as <- <-; naive_solver|]. split; [done|].
  simpl in E. destruct (GetMsgV1Signers msg) as [signers|];
    [|injection E as <- <-; naive_solver]. exists signers. split; [done|].
  destruct (forallb _ signers) eqn:Hf; [|injection E as <- <-; naive_solver].
  apply Forall_forall. intros x Hx. rewrite forallb_forall in Hf.
  specialize (Hf x ltac:(by apply list_elem_of_In)). apply bool_decide_eq_true in Hf. by simpl in Hf.
Qed.

End Messenger.
End Messenger.
