(* ===== verification/QueryPlugins.v ===== *)
(** The query plugins (x/wasm/keeper/query_plugins.go): what a contract can
    ask the chain, the answers as the JSON documents of wasmvm/types/
    queries.go. The smart query, which calls another contract, is a parameter
    of this file. *)
From S2P Require Import Prelude Errors GoStrings Json Types Keys VMTypes Policy GasRegister Chain Logic Engine Store Keeper.
Import GoStrings Json.Json Store.Store.
Open Scope wasm_scope.

(** ** Records of other modules *)

Record DenomUnit := mkDenomUnit {
  DU_Denom : string; DU_Exponent : N; DU_Aliases : option (list string) }.
Record Metadata := mkMetadata {
  MD_Description : string; MD_DenomUnits : list DenomUnit; MD_Base : string;
  MD_Display : string; MD_Name : string; MD_Symbol : string; MD_URI : string;
  MD_URIHash : string }.
(** channeltypes.Channel with the port and channel it is stored under. *)
Record IdentifiedChannel := mkIdentifiedChannel {
  IC_Open : bool;                      (* State == OPEN *)
  IC_Ordering : string;
  IC_Counterparty : IBCEndpoint;
  IC_ConnectionHops : list string;
  IC_Version : string;
  IC_PortId : string;
  IC_ChannelId : string }.
(** stakingtypes.Validator: operator address and the three commission rates
    as text. *)
Record Validator := mkValidator {
  V_OperatorAddress : string; V_Rate : string; V_MaxRate : string; V_MaxChangeRate : string }.
Record Delegation := mkDelegation {
  De_DelegatorAddress : string; De_ValidatorAddress : string; De_Shares : Z }.
(** sdk.DecCoin: denomination, the amount as text, its integer part. *)
Record DecCoin := mkDecCoin { DC_Denom : string; DC_Text : string; DC_Truncated : Z }.

Class QueryKeepers `{Modules} := {
  GetAllBalances : bytes -> Ext Coins;
  view_GetBalance : bytes -> string -> Ext sdkCoin;
  GetSupply : string -> Ext sdkCoin;
  GetDenomMetaData : string -> Ext (option Metadata);
  (** key, limit and direction of the page; the answer's next key is [None]
      when it has no pagination part *)
  DenomsMetadata : option (bytes * N * bool) -> Ext (list Metadata * option bytes);
  GetAllChannelsWithPortPrefix : string -> Ext (list IdentifiedChannel);
  GetChannel : string -> string -> Ext (option IdentifiedChannel);
  BondDenom : Ext string;
  GetBondedValidatorsByPower : Ext (list Validator);
  GetValidator : bytes -> Ext Validator;
  GetAllDelegatorDelegations : bytes -> Ext (list Delegation);
  GetDelegation : bytes -> bytes -> Ext Delegation;
  HasReceivingRedelegation : bytes -> bytes -> Ext bool;
  (** val.TokensFromShares(shares).TruncateInt() *)
  TokensFromShares : Validator -> Z -> Z;
  DelegationRewards_ : string -> string -> Ext (list DecCoin);
  DelegatorWithdrawAddress_ : string -> Ext string;
  DelegationTotalRewards_ : string -> Ext (list (list DecCoin * string) * list DecCoin);
  DelegatorValidators_ : string -> Ext (option (list string));
  ErrNoValidatorFound : error;
  ErrNoDelegation : error;
  ValAddressFromBech32 : string -> bytes + error;
  ValAddress_String : bytes -> string;
  (** sdk.NewCoin: panics on an invalid coin *)
  NewCoin : string -> Z -> outcome sdkCoin;
}.

Module QueryPlugins.

(** ** JSON of the answers *)

Definition json_Coin (c : VM.Coin) : json :=
  JObject [jfield "denom" (jstring (Denom c)); jfield "amount" (jstring (Amount c))].
Definition json_DecCoin (c : DecCoin) : json :=
  JObject [jfield "amount" (jstring (DC_Text c)); jfield "denom" (jstring (DC_Denom c))].
(** A nil slice is null. *)
Definition json_strings (l : option (list string)) : json :=
  match l with None => JNull | Some l => JArray (jstring <$> l) end.
Definition json_DenomUnit (u : DenomUnit) : json :=
  JObject [jfield "denom" (jstring (DU_Denom u)); jfield "exponent" (jnumber (DU_Exponent u));
           jfield "aliases" (json_strings (DU_Aliases u))].
Definition json_Metadata (m : Metadata) : json :=
  JObject [jfield "description" (jstring (MD_Description m));
           jfield "denom_units" (JArray (json_DenomUnit <$> MD_DenomUnits m));
           jfield "base" (jstring (MD_Base m)); jfield "display" (jstring (MD_Display m));
           jfield "name" (jstring (MD_Name m)); jfield "symbol" (jstring (MD_Symbol m));
           jfield "uri" (jstring (MD_URI m)); jfield "uri_hash" (jstring (MD_URIHash m))].
Definition json_Endpoint (e : IBCEndpoint) : json :=
  JObject [jfield "port_id" (jstring (EP_PortID e));
           jfield "channel_id" (jstring (EP_ChannelID e))].
Definition json_Channel (c : IBCChannel) : json :=
  JObject [jfield "endpoint" (json_Endpoint (Ch_Endpoint c));
           jfield "counterparty_endpoint" (json_Endpoint (Ch_Counterparty c));
           jfield "order" (jstring (Ch_Order c)); jfield "version" (jstring (Ch_Version c));
           jfield "connection_id" (jstring (Ch_ConnectionID c))].
Definition json_Validator (v : Validator) : json :=
  JObject [jfield "address" (jstring (V_OperatorAddress v));
           jfield "commission" (jstring (V_Rate v));
           jfield "max_commission" (jstring (V_MaxRate v));
           jfield "max_change_rate" (jstring (V_MaxChangeRate v))].
Definition json_ContractInfoResponse (r : ContractInfoResponse) : json :=
  JObject ([jfield "code_id" (jnumber (CIR_CodeID r));
            jfield "creator" (jstring (CIR_Creator r))]
           ++ jomitempty "admin" (CIR_Admin r)
           ++ [jfield "pinned" (JBool (CIR_Pinned r))]
           ++ jomitempty "ibc_port" (CIR_IBCPort r)).
Definition json_CodeInfoResponse (r : CodeInfoResponse) : json :=
  JObject [jfield "code_id" (jnumber (CoIR_CodeID r));
           jfield "creator" (jstring (CoIR_Creator r));
           jfield "checksum" (jstring (hex_encode (CoIR_Checksum r)))].

(** json.Marshal(res) as the answer of a querier. *)
Definition answer (members : list (bytes * json)) : bytes := Marshal (JObject members).

(** ** Conversions *)

Definition ConvertSdkCoinToWasmCoin (coin : sdkCoin) : VM.Coin :=
  VM.mkCoin (coin_Denom coin) (pretty (coin_Amount coin)).
Definition ConvertSdkCoinsToWasmCoins (coins : list sdkCoin) : list VM.Coin :=
  ConvertSdkCoinToWasmCoin <$> coins.
Definition ConvertSDKDecCoinsToWasmDecCoins (src : list DecCoin) : list json :=
  json_DecCoin <$> src.
Definition ConvertSDKDelegatorRewardsToWasmRewards (rewards : list (list DecCoin * string))
    : list json :=
  (fun v => JObject [jfield "reward" (JArray (ConvertSDKDecCoinsToWasmDecCoins v.1));
                     jfield "validator_address" (jstring v.2)]) <$> rewards.
(** The page request, its limit widened to 64 bits. *)
Definition ConvertToDenomsMetadataRequest (p : option PageRequest) : option (bytes * N * bool) :=
  (fun p => (Page_Key p, Page_Limit p, Page_Reverse p)) <$> p.

Section QueryPlugins.
Context `{GasMeters, Modules, KVStorePkg, Bech32, ErrorsMod, AddressPkg, Codecs}.
Context `{!QueryKeepers}.
Context (QuerySmart : Context -> bytes -> bytes -> M bytes).

Definition unsupported {A} (kind : string) : M A := fail (EVariant (UnsupportedRequest kind)).

(** An address in a request. *)
Definition query_address (addr : string) : M bytes :=
  match AccAddressFromBech32 addr with
  | inl a => mret a
  | inr _ => fail (Wrap ErrInvalidAddress addr)
  end.

(** ** Bank *)

Definition BankQuerier (ctx : Context) (request : BankQuery) : M bytes :=
  match AllBalances request with
  | Some address =>
      addr ← query_address address;
      coins ← call_ext ctx (GetAllBalances addr);
      mret (answer [jfield "amount" (JArray (json_Coin <$> ConvertSdkCoinsToWasmCoins coins))])
  | None =>
  match Balance request with
  | Some (address, denom) =>
      addr ← query_address address;
      coin ← call_ext ctx (view_GetBalance addr denom);
      mret (answer [jfield "amount" (json_Coin (ConvertSdkCoinToWasmCoin coin))])
  | None =>
  match Supply request with
  | Some denom =>
      coin ← call_ext ctx (GetSupply denom);
      mret (answer [jfield "amount" (json_Coin (ConvertSdkCoinToWasmCoin coin))])
  | None =>
  match QDenomMetadata request with
  | Some denom =>
      m ← call_ext ctx (GetDenomMetaData denom);
      match m with
      | None => fail (Wrap ErrSdkNotFound denom)
      | Some m => mret (answer [jfield "metadata" (json_Metadata m)])
      end
  | None =>
  match AllDenomMetadata request with
  | Some pagination =>
      '(metadatas, nextKey) ← map_err (fun _ => ErrInvalidRequest)
         (call_ext ctx (DenomsMetadata (ConvertToDenomsMetadataRequest pagination)));
      nextKey ← Keeper.deref nextKey;
      mret (answer ([jfield "metadata" (JArray (json_Metadata <$> metadatas))]
                    ++ (if Nat.eqb (length nextKey) 0 then []
                        else [jfield "next_key" (jbytes nextKey)])))
  | None => unsupported "unknown BankQuery variant"
  end end end end end.

Definition NoCustomQuerier (_ : Context) (_ : bytes) : M bytes := unsupported "custom".

(** ** IBC *)

(** wasm.GetContractInfo(ctx, caller).IBCPortID: a field of a possibly nil
    pointer. *)
Definition caller_port (caller : bytes) : M string :=
  i ← GetContractInfo caller; info ← Keeper.deref i; mret (IBCPortID info).

(** [ch.ConnectionHops[0]] *)
Definition first_hop (c : IdentifiedChannel) : M string :=
  match IC_ConnectionHops c with
  | hop :: _ => mret hop
  | [] => throw (PRuntime "index out of range")
  end.
Fixpoint open_channels (chs : list IdentifiedChannel) : M (list IBCChannel) :=
  match chs with
  | [] => mret []
  | ch :: chs' =>
      if negb (IC_Open ch) then open_channels chs'
      else
        hop ← first_hop ch;
        rest ← open_channels chs';
        mret (mkIBCChannel (mkEndpoint (IC_PortId ch) (IC_ChannelId ch)) (IC_Counterparty ch)
                (IC_Ordering ch) (IC_Version ch) hop :: rest)
  end.

Definition IBCQuerier (ctx : Context) (caller : bytes) (request : IBCQuery) : M bytes :=
  match QPortID request, ListChannels request, QChannel request with
  | Some _, _, _ =>
      portID ← caller_port caller;
      mret (answer [jfield "port_id" (jstring portID)])
  | None, Some portID, _ =>
      portID ← (if bool_decide (portID = "") then caller_port caller else mret portID);
      channels ← (if bool_decide (portID = "") then mret []
                  else got ← call_ext ctx (GetAllChannelsWithPortPrefix portID);
                       open_channels got);
      mret (answer [jfield "channels" (JArray (json_Channel <$> channels))])
  | None, None, Some (portID, channelID) =>
      portID ← (if bool_decide (portID = "") then caller_port caller else mret portID);
      got ← call_ext ctx (GetChannel portID channelID);
      match got with
      | Some ch =>
          if IC_Open ch then
            hop ← first_hop ch;
            mret (answer [jfield "channel" (json_Channel
              (mkIBCChannel (mkEndpoint portID channelID) (IC_Counterparty ch)
                 (IC_Ordering ch) (IC_Version ch) hop))])
          else mret (answer [])
      | None => mret (answer [])
      end
  | None, None, None => unsupported "unknown IBCQuery variant"
  end.

(** ** Staking *)

Definition val_address (what addr : string) : M bytes :=
  match ValAddressFromBech32 addr with
  | inl a => mret a
  | inr err => fail (Wrap err what)
  end.
Definition delegator_address (addr : string) : M bytes :=
  match AccAddressFromBech32 addr with
  | inl a => mret a
  | inr err => fail (Wrap err "delegator address")
  end.

(** The addresses and the amount of a delegation. *)
Definition delegated_amount (ctx : Context) (bondDenom : string) (valAddr : bytes) (shares : Z)
    : M VM.Coin :=
  val ← wrap_err "can't load validator for delegation" (call_ext ctx (GetValidator valAddr));
  amount ← lift (NewCoin bondDenom (TokensFromShares val shares));
  mret (ConvertSdkCoinToWasmCoin amount).

Fixpoint delegations_loop (ctx : Context) (bondDenom : string) (delegations : list Delegation)
    : M (list json) :=
  match delegations with
  | [] => mret []
  | d :: delegations' =>
      delAddr ← delegator_address (De_DelegatorAddress d);
      valAddr ← val_address "validator address" (De_ValidatorAddress d);
      amount ← delegated_amount ctx bondDenom valAddr (De_Shares d);
      rest ← delegations_loop ctx bondDenom delegations';
      mret (JObject [jfield "delegator" (jstring (AccAddress_String delAddr));
                     jfield "validator" (jstring (ValAddress_String valAddr));
                     jfield "amount" (json_Coin amount)] :: rest)
  end.
Definition sdkToDelegations (ctx : Context) (delegations : list Delegation) : M (list json) :=
  bondDenom ← wrap_err "bond denom" (call_ext ctx BondDenom);
  delegations_loop ctx bondDenom delegations.

(** The rewards are computed on a branch of the state that is dropped. *)
Definition getAccumulatedRewards (ctx : Context) (delegation : Delegation) : M (list VM.Coin) :=
  rewards ← discarded (call_ext ctx (DelegationRewards_ (De_DelegatorAddress delegation)
                                       (De_ValidatorAddress delegation)));
  mret ((fun r => VM.mkCoin (DC_Denom r) (pretty (DC_Truncated r))) <$> rewards).

Definition sdkToFullDelegation (ctx : Context) (delegation : Delegation) : M json :=
  delAddr ← delegator_address (De_DelegatorAddress delegation);
  valAddr ← val_address "validator address" (De_ValidatorAddress delegation);
  val ← wrap_err "can't load validator for delegation" (call_ext ctx (GetValidator valAddr));
  bondDenom ← wrap_err "bond denom" (call_ext ctx BondDenom);
  amount ← lift (NewCoin bondDenom (TokensFromShares val (De_Shares delegation)));
  let delegationCoins := ConvertSdkCoinToWasmCoin amount in
  found ← call_ext ctx (HasReceivingRedelegation delAddr valAddr);
  let redelegateCoins := if found : bool then VM.mkCoin bondDenom "0" else delegationCoins in
  accRewards ← getAccumulatedRewards ctx delegation;
  mret (JObject [jfield "delegator" (jstring (AccAddress_String delAddr));
                 jfield "validator" (jstring (ValAddress_String valAddr));
                 jfield "amount" (json_Coin delegationCoins);
                 jfield "accumulated_rewards" (JArray (json_Coin <$> accRewards));
                 jfield "can_redelegate" (json_Coin redelegateCoins)]).

Definition StakingQuerier (ctx : Context) (request : StakingQuery) : M bytes :=
  match BondedDenom request with
  | Some _ =>
      denom ← wrap_err "bond denom" (call_ext ctx BondDenom);
      mret (answer [jfield "denom" (jstring denom)])
  | None =>
  match AllValidators request with
  | Some _ =>
      validators ← call_ext ctx GetBondedValidatorsByPower;
      mret (answer [jfield "validators" (JArray (json_Validator <$> validators))])
  | None =>
  match QValidator request with
  | Some address =>
      match ValAddressFromBech32 address with
      | inr err => fail err
      | inl valAddr =>
          r ← catch (call_ext ctx (GetValidator valAddr));
          match r with
          | inl v => mret (answer [jfield "validator" (json_Validator v)])
          | inr err => if errorsIs err ErrNoValidatorFound
                       then mret (answer [jfield "validator" JNull])
                       else fail err
          end
      end
  | None =>
  match AllDelegations request with
  | Some delegator =>
      delegator ← query_address delegator;
      sdkDels ← call_ext ctx (GetAllDelegatorDelegations delegator);
      delegations ← sdkToDelegations ctx sdkDels;
      mret (answer [jfield "delegations" (JArray delegations)])
  | None =>
  match QDelegation request with
  | Some (delegator, validator) =>
      delegator ← query_address delegator;
      validator ← (match ValAddressFromBech32 validator with
                   | inl a => mret a
                   | inr _ => fail (Wrap ErrInvalidAddress validator)
                   end);
      r ← catch (call_ext ctx (GetDelegation delegator validator));
      match r with
      | inl d => full ← sdkToFullDelegation ctx d; mret (answer [jfield "delegation" full])
      | inr err => if errorsIs err ErrNoDelegation then mret (answer []) else fail err
      end
  | None => unsupported "unknown Staking variant"
  end end end end end.

(** ** Distribution *)

Definition DistributionQuerier (ctx : Context) (req : DistributionQuery) : M bytes :=
  match DelegatorWithdrawAddress req, DelegationRewards req, DelegationTotalRewards req,
        DelegatorValidators req with
  | Some delegator, _, _, _ =>
      got ← call_ext ctx (DelegatorWithdrawAddress_ delegator);
      mret (answer [jfield "withdraw_address" (jstring got)])
  | None, Some (delegator, validator), _, _ =>
      got ← call_ext ctx (DelegationRewards_ delegator validator);
      mret (answer [jfield "rewards" (JArray (ConvertSDKDecCoinsToWasmDecCoins got))])
  | None, None, Some delegator, _ =>
      '(rewards, total) ← call_ext ctx (DelegationTotalRewards_ delegator);
      mret (answer [jfield "rewards" (JArray (ConvertSDKDelegatorRewardsToWasmRewards rewards));
                    jfield "total" (JArray (ConvertSDKDecCoinsToWasmDecCoins total))])
  | None, None, None, Some delegator =>
      got ← call_ext ctx (DelegatorValidators_ delegator);
      mret (answer [jfield "validators" (json_strings got)])
  | None, None, None, None => unsupported "unknown distribution query"
  end.

(** ** Wasm *)

Definition WasmQuerier (ctx : Context) (request : WasmQuery) : M bytes :=
  match Smart request, Raw request, QContractInfo request, QCodeInfo request with
  | Some (contractAddr, msg), _, _, _ =>
      addr ← query_address contractAddr;
      _ ← check (WrapOpt (RawContractMessage_ValidateBasic msg) "json msg");
      QuerySmart ctx addr msg
  | None, Some (contractAddr, key), _, _ =>
      addr ← query_address contractAddr;
      value ← QueryRaw addr key;
      mret (default [] value)
  | None, None, Some contractAddr, _ =>
      addr ← query_address contractAddr;
      i ← GetContractInfo addr;
      match i with
      | None => fail (Wrap (ErrNoSuchContractFn contractAddr)
                        (String.append "address " contractAddr))
      | Some info =>
          pinned ← IsPinnedCode (CodeID info);
          mret (Marshal (json_ContractInfoResponse
            (mkContractInfoResponse (CodeID info) (Creator info) (Admin info) pinned
               (IBCPortID info))))
      end
  | None, None, None, Some codeID =>
      _ ← guard_err (codeID =? 0)%N (Wrap ErrEmpty "code id");
      i ← GetCodeInfo codeID;
      match i with
      | None => fail (Keeper.errNoSuchCode codeID)
      | Some info =>
          mret (Marshal (json_CodeInfoResponse
            (mkCodeInfoResponse codeID (CodeCreator info) (CodeHash info))))
      end
  | None, None, None, None => unsupported "unknown WasmQuery variant"
  end.

(** ** Stargate and gRPC *)

Definition RejectStargateQuerier (_ : Context) (_ : PathQuery) : M bytes :=
  unsupported "Stargate queries are disabled".
Definition RejectGrpcQuerier {P} (_ : Context) (_ : PathQuery) : M P :=
  unsupported "gRPC queries are disabled".

Definition path_error (before path after : string) : string :=
  String.append before (String.append path after).

(** The lookup of the path in the accept list and in the query router that
    the two accept-list queriers share: [accept path] is the response type,
    [route path] the handler. *)
Definition route_accepted {P} (accept : string -> option P)
    (route : string -> option (bytes -> string -> Ext bytes)) (ctx : Context)
    (request : PathQuery) : M (P * bytes) :=
  match accept (PQ_Path request) with
  | None => unsupported (path_error "'" (PQ_Path request) "' path is not allowed from the contract")
  | Some protoResponse =>
      match route (PQ_Path request) with
      | None => unsupported (path_error "No route to query '" (PQ_Path request) "'")
      | Some handler =>
          value ← call_ext ctx (handler (PQ_Data request) (PQ_Path request));
          mret (protoResponse, value)
      end
  end.
(** [decode] is codec.Unmarshal into the response type. *)
Definition AcceptListGrpcQuerier {P} (accept : string -> option P)
    (route : string -> option (bytes -> string -> Ext bytes)) (decode : P -> bytes -> P + error)
    (ctx : Context) (request : PathQuery) : M P :=
  '(protoResponse, value) ← route_accepted accept route ctx request;
  match decode protoResponse value with inl p => mret p | inr err => fail err end.
(** [to_json] is ConvertProtoToJSONMarshal. *)
Definition AcceptListStargateQuerier {P} (accept : string -> option P)
    (route : string -> option (bytes -> string -> Ext bytes)) (to_json : P -> bytes -> bytes + error)
    (ctx : Context) (request : PathQuery) : M bytes :=
  '(protoResponse, value) ← route_accepted accept route ctx request;
  match to_json protoResponse value with inl bz => mret bz | inr err => fail err end.

(** ** QueryPlugins *)

(** The function fields; nil where a customisation leaves the default. A
    protobuf message of a gRPC answer is of type [P]. *)
Record QueryPlugins (P : Type) := mkPlugins {
  Pl_Bank : option (Context -> BankQuery -> M bytes);
  Pl_Custom : option (Context -> bytes -> M bytes);
  Pl_IBC : option (Context -> bytes -> IBCQuery -> M bytes);
  Pl_Staking : option (Context -> StakingQuery -> M bytes);
  Pl_Stargate : option (Context -> PathQuery -> M bytes);
  Pl_Grpc : option (Context -> PathQuery -> M P);
  Pl_Wasm : option (Context -> WasmQuery -> M bytes);
  Pl_Distribution : option (Context -> DistributionQuery -> M bytes);
}.
Arguments mkPlugins {_}.
Arguments Pl_Bank {_}.
Arguments Pl_Custom {_}.
Arguments Pl_IBC {_}.
Arguments Pl_Staking {_}.
Arguments Pl_Stargate {_}.
Arguments Pl_Grpc {_}.
Arguments Pl_Wasm {_}.
Arguments Pl_Distribution {_}.

Definition DefaultQueryPlugins {P} : QueryPlugins P :=
  mkPlugins (Some BankQuerier) (Some NoCustomQuerier) (Some IBCQuerier) (Some StakingQuerier)
    (Some RejectStargateQuerier) (Some RejectGrpcQuerier) (Some WasmQuerier)
    (Some DistributionQuerier).

Definition override {A} (e o : option A) : option A :=
  match o with Some f => Some f | None => e end.
Definition Merge {P} (e : QueryPlugins P) (o : option (QueryPlugins P)) : QueryPlugins P :=
  match o with
  | None => e
  | Some o =>
      mkPlugins (override (Pl_Bank e) (Pl_Bank o)) (override (Pl_Custom e) (Pl_Custom o))
        (override (Pl_IBC e) (Pl_IBC o)) (override (Pl_Staking e) (Pl_Staking o))
        (override (Pl_Stargate e) (Pl_Stargate o)) (override (Pl_Grpc e) (Pl_Grpc o))
        (override (Pl_Wasm e) (Pl_Wasm o)) (override (Pl_Distribution e) (Pl_Distribution o))
  end.

Definition HandleQuery {P} (proto_Marshal : P -> bytes + error) (e : QueryPlugins P)
    (ctx : Context) (caller : bytes) (req : QueryRequest) : M bytes :=
  match QBank req with Some r => f ← Keeper.deref (Pl_Bank e); f ctx r | None =>
  match QCustom req with Some r => f ← Keeper.deref (Pl_Custom e); f ctx r | None =>
  match QIBC req with Some r => f ← Keeper.deref (Pl_IBC e); f ctx caller r | None =>
  match QStaking req with Some r => f ← Keeper.deref (Pl_Staking e); f ctx r | None =>
  match QStargate req with Some r => f ← Keeper.deref (Pl_Stargate e); f ctx r | None =>
  match QGrpc req with
  | Some r =>
      f ← Keeper.deref (Pl_Grpc e);
      resp ← f ctx r;
      match proto_Marshal resp with inl bz => mret bz | inr err => fail err end
  | None =>
  match QWasm req with Some r => f ← Keeper.deref (Pl_Wasm e); f ctx r | None =>
  match QDistribution req with Some r => f ← Keeper.deref (Pl_Distribution e); f ctx r | None =>
  fail (EVariant Unknown)
  end end end end end end end end.

End QueryPlugins.
End QueryPlugins.
