(* ===== verification/Relay.v ===== *)
(** IBC: the entry points of the VM for IBC-enabled contracts
    (wasmvm/lib_libwasmvm.go, wasmvm/types/ibc.go), the keeper's handlers
    (x/wasm/keeper/relay.go) and the IBC module that ibc-go calls
    (x/wasm/ibc.go). *)
From S2P Require Import Prelude Errors GoStrings Json Types Proto Keys VMTypes Policy GasRegister Chain Logic Engine Store Events Keeper Dispatcher Msgs MsgServer Encoders Messenger QueryPlugins.
Import GoStrings Keys Store.Store Events.Events Keeper.Keeper.
Open Scope wasm_scope.

(** ** Messages and results (wasmvm/types/ibc.go) *)

Record IBCChannelOpenMsg := mkChannelOpenMsg {
  OpenInit : option IBCChannel;
  OpenTry : option (IBCChannel * string);   (* channel, counterparty version *)
}.
Record IBCChannelConnectMsg := mkChannelConnectMsg {
  OpenAck : option (IBCChannel * string);
  OpenConfirm : option IBCChannel;
}.
Record IBCChannelCloseMsg := mkChannelCloseMsg {
  CloseInit : option IBCChannel;
  CloseConfirm : option IBCChannel;
}.
Record IBCPacketReceiveMsg := mkPacketReceiveMsg {
  PR_Packet : IBCPacket; PR_Relayer : string }.
Record IBCPacketAckMsg := mkPacketAckMsg {
  PAck_Acknowledgement : IBCAcknowledgement;
  PAck_OriginalPacket : IBCPacket;
  PAck_Relayer : string;
}.
Record IBCPacketTimeoutMsg := mkPacketTimeoutMsg {
  PT_Packet : IBCPacket; PT_Relayer : string }.
Record IBCSourceCallbackMsg := mkSourceCallbackMsg {
  SCb_Acknowledgement : option IBCPacketAckMsg;      (* IBCAckCallbackMsg *)
  SCb_Timeout : option IBCPacketTimeoutMsg;          (* IBCTimeoutCallbackMsg *)
}.
Record IBCDestinationCallbackMsg := mkDestinationCallbackMsg {
  DCb_Ack : IBCAcknowledgement; DCb_Packet : IBCPacket }.

(** Ok is a pointer; of IBC3ChannelOpenResponse it has the version. *)
Record IBCChannelOpenResult := mkChannelOpenResult {
  COR_Ok : option string; COR_Err : string }.
Record IBCBasicResponse := mkIBCBasicResponse {
  IBR_Messages : list SubMsg;
  IBR_Attributes : list EventAttribute;
  IBR_Events : list Event;
}.
Record IBCBasicResult := mkIBCBasicResult {
  IBR_Ok : option IBCBasicResponse; IBR_Err : string }.
Record IBCReceiveResponse := mkIBCReceiveResponse {
  IRR_Acknowledgement : option bytes;                (* may be nil *)
  IRR_Messages : list SubMsg;
  IRR_Attributes : list EventAttribute;
  IRR_Events : list Event;
}.
Record IBCReceiveResult := mkIBCReceiveResult {
  IRR_Ok : option IBCReceiveResponse; IRR_Err : string }.

Definition IBCBasicResult_SubMessages (r : IBCBasicResult) : list SubMsg :=
  match IBR_Ok r with Some ok => IBR_Messages ok | None => [] end.
Definition IBCReceiveResult_SubMessages (r : IBCReceiveResult) : list SubMsg :=
  match IRR_Ok r with Some ok => IRR_Messages ok | None => [] end.

(** GetChannel and GetCounterVersion of the handshake messages; the second
    pointer is dereferenced when the first is nil. *)
Definition nil_dereference : panic :=
  PRuntime "invalid memory address or nil pointer dereference".
Definition channel_of (first second : option IBCChannel) : outcome IBCChannel :=
  match first, second with
  | Some c, _ | None, Some c => Ret c
  | None, None => Panic nil_dereference
  end.
Definition IBCChannelOpenMsg_GetChannel (m : IBCChannelOpenMsg) : outcome IBCChannel :=
  channel_of (OpenInit m) (fst <$> OpenTry m).
Definition IBCChannelOpenMsg_GetCounterVersion (m : IBCChannelOpenMsg) : option string :=
  snd <$> OpenTry m.
Definition IBCChannelConnectMsg_GetChannel (m : IBCChannelConnectMsg) : outcome IBCChannel :=
  channel_of (fst <$> OpenAck m) (OpenConfirm m).
Definition IBCChannelConnectMsg_GetCounterVersion (m : IBCChannelConnectMsg) : option string :=
  snd <$> OpenAck m.
Definition IBCChannelCloseMsg_GetChannel (m : IBCChannelCloseMsg) : outcome IBCChannel :=
  channel_of (CloseInit m) (CloseConfirm m).

(** ** libwasmvm's IBC entry points, a parameter as in [WasmEngine] *)

Class IBCEngine `{Modules} := {
  api_IBCChannelOpen : VMState -> bytes -> Env -> IBCChannelOpenMsg -> N -> VMProg;
  api_IBCChannelConnect : VMState -> bytes -> Env -> IBCChannelConnectMsg -> N -> VMProg;
  api_IBCChannelClose : VMState -> bytes -> Env -> IBCChannelCloseMsg -> N -> VMProg;
  api_IBCPacketReceive : VMState -> bytes -> Env -> IBCPacketReceiveMsg -> N -> VMProg;
  api_IBCPacketAck : VMState -> bytes -> Env -> IBCPacketAckMsg -> N -> VMProg;
  api_IBCPacketTimeout : VMState -> bytes -> Env -> IBCPacketTimeoutMsg -> N -> VMProg;
  api_IBCSourceCallback : VMState -> bytes -> Env -> IBCSourceCallbackMsg -> N -> VMProg;
  api_IBCDestinationCallback : VMState -> bytes -> Env -> IBCDestinationCallbackMsg -> N -> VMProg;
  json_IBCChannelOpenResult : bytes -> IBCChannelOpenResult + string;
  json_IBCBasicResult : bytes -> IBCBasicResult + string;
  json_IBCReceiveResult : bytes -> IBCReceiveResult + string;
}.

(** ibc-go: channel identifiers, the text of its error acknowledgements, the
    bytes of an acknowledgement, capabilities and the versions of channels
    behind middlewares. *)
Class IBCCore `{Keepers} := {
  ParseChannelSequence : string -> N + error;
  ErrorAcknowledgementText : error -> string;     (* NewErrorAcknowledgementWithCodespace *)
  error_ack_bytes : string -> bytes;              (* Acknowledgement_Error as JSON *)
  AuthenticateCapability : Capability -> string -> Ext bool;
  GetAppVersion : string -> string -> Ext (option string);
  ErrChannelNotFound : error;
  ErrInvalidChannelVersion : error;
}.

(** ibcexported.Acknowledgement: the ack of a contract, or ibc-go's error. *)
Inductive Acknowledgement :=
| ContractConfirmStateAck (data : bytes)
| Acknowledgement_Error (text : string).
Definition ack_Success (a : Acknowledgement) : bool :=
  match a with ContractConfirmStateAck _ => true | Acknowledgement_Error _ => false end.

Module Relay.

Section Calls.
Context `{Keepers}.

(** What ibc-go and its callbacks middleware call on the module. *)
Inductive IBCCall :=
| ChanOpenInit (order : string) (hops : list string) (portID channelID : string)
    (chanCap : Capability) (counterParty : IBCEndpoint) (version : string)
| ChanOpenTry (order : string) (hops : list string) (portID channelID : string)
    (chanCap : Capability) (counterParty : IBCEndpoint) (version : string)
| ChanOpenAck (portID channelID counterpartyChannelID counterpartyVersion : string)
| ChanOpenConfirm (portID channelID : string)
| ChanCloseInit (portID channelID : string)
| ChanCloseConfirm (portID channelID : string)
| RecvPacket (packet : Packet) (relayer : AccAddress)
| AcknowledgementPacket (packet : Packet) (ack : bytes) (relayer : AccAddress)
| TimeoutPacket (packet : Packet) (relayer : AccAddress)
| SendPacketCallback (contract sender : string)
| AckCallback (packet : Packet) (ack : bytes) (relayer : AccAddress) (contract sender : string)
| TimeoutCallback (packet : Packet) (relayer : AccAddress) (contract sender : string)
| ReceiveCallback (packet : Packet) (ack : Acknowledgement) (contract : string).


(** What a call returns to ibc-go. *)
Inductive IBCAnswer :=
| Done
| Version (version : string)
| Acked (ack : option Acknowledgement).
(** ibc-go keeps the changes of a call that returns, a receipt that is
    acknowledged with an error apart. *)
Definition committed (a : IBCAnswer) : bool :=
  match a with Acked (Some ack) => ack_Success ack | _ => true end.

End Calls.

Section Relay.
Context `{GasMeters, Modules, KVStorePkg, Bech32, ErrorsMod, UnicodeTables,
  AddressPkg, CoinsPkg, Codecs, Gzip}.
Context `{!WasmEngine, !Keepers, !ICS4, !QueryKeepers, !IBCEngine, !IBCCore}.
Context (k : KeeperConfig).
Context (json_QueryRequest : bytes -> QueryRequest + string).
Context (HandleQuery : Context -> bytes -> QueryRequest -> M bytes).
Context (wasmVMResponseHandler : Context -> bytes -> string -> list SubMsg ->
  option bytes -> M (option bytes)).

(** ** VM calls *)

Section VM.
Context (rust_query : bytes -> N -> M QuerierResult).
(** relay.go passes ctx.GasMeter(), not the keeper's multiplied meter. *)
Definition ibc_meters : CallMeters := mkCallMeters ContextGasMeter (gasRegister k).
Local Abbreviation entry := (vm_entry ibc_meters rust_query).

Definition VM_IBCChannelOpen prefix checksum env msg gasLimit :=
  entry prefix (fun v => api_IBCChannelOpen v checksum env msg gasLimit) gasLimit
    json_IBCChannelOpenResult (fun _ => []).
Definition VM_IBCChannelConnect prefix checksum env msg gasLimit :=
  entry prefix (fun v => api_IBCChannelConnect v checksum env msg gasLimit) gasLimit
    json_IBCBasicResult IBCBasicResult_SubMessages.
Definition VM_IBCChannelClose prefix checksum env msg gasLimit :=
  entry prefix (fun v => api_IBCChannelClose v checksum env msg gasLimit) gasLimit
    json_IBCBasicResult IBCBasicResult_SubMessages.
Definition VM_IBCPacketReceive prefix checksum env msg gasLimit :=
  entry prefix (fun v => api_IBCPacketReceive v checksum env msg gasLimit) gasLimit
    json_IBCReceiveResult IBCReceiveResult_SubMessages.
Definition VM_IBCPacketAck prefix checksum env msg gasLimit :=
  entry prefix (fun v => api_IBCPacketAck v checksum env msg gasLimit) gasLimit
    json_IBCBasicResult IBCBasicResult_SubMessages.
Definition VM_IBCPacketTimeout prefix checksum env msg gasLimit :=
  entry prefix (fun v => api_IBCPacketTimeout v checksum env msg gasLimit) gasLimit
    json_IBCBasicResult IBCBasicResult_SubMessages.
Definition VM_IBCSourceCallback prefix checksum env msg gasLimit :=
  entry prefix (fun v => api_IBCSourceCallback v checksum env msg gasLimit) gasLimit
    json_IBCBasicResult IBCBasicResult_SubMessages.
Definition VM_IBCDestinationCallback prefix checksum env msg gasLimit :=
  entry prefix (fun v => api_IBCDestinationCallback v checksum env msg gasLimit) gasLimit
    json_IBCBasicResult IBCBasicResult_SubMessages.

End VM.

(** ** The keeper (relay.go) *)

(** The steps every handler starts with: the contract, its environment and
    querier, the call with the gas that is left, the charge for it. *)
Definition ibc_call {A} (ctx : Context) (contractAddr : bytes)
    (call : (bytes -> N -> M QuerierResult) -> bytes -> bytes -> Env -> N
            -> M ((A + string) * N)) : M (ContractInfo * (A + string)) :=
  '(contractInfo, codeInfo, prefixStore) ← contractInstance contractAddr;
  env ← lift (NewEnv ctx contractAddr);
  gasLeft ← runtimeGasForContract k;
  '(res, gasUsed) ← call (querier k json_QueryRequest HandleQuery ctx contractAddr)
                      prefixStore (CodeHash codeInfo) env gasLeft;
  _ ← consumeRuntimeGas k gasUsed;
  mret (contractInfo, res).

Definition OnOpenChannel (ctx : Context) (contractAddr : bytes) (msg : IBCChannelOpenMsg)
    : M string :=
  '(_, res) ← ibc_call ctx contractAddr
     (fun q prefix checksum env gas => VM_IBCChannelOpen q prefix checksum env msg gas);
  match res with
  | inr execErr => fail (Wrap ErrExecuteFailed execErr)
  | inl res => match COR_Ok res with Some version => mret version | None => mret "" end
  end.

Definition handleIBCBasicContractResponse (ctx : Context) (addr : bytes) (id : string)
    (res : option IBCBasicResponse) : M unit :=
  res ← deref res;
  _ ← handleContractResponse k wasmVMResponseHandler ctx addr id
        (mkResponse (IBR_Messages res) None (IBR_Attributes res) (IBR_Events res));
  mret tt.

(** What the handlers with a basic result do with it. *)
Definition finish_basic (ctx : Context) (contractAddr : bytes)
    (r : ContractInfo * (IBCBasicResult + string)) : M unit :=
  let '(contractInfo, res) := r in
  match res with
  | inr execErr => fail (Wrap ErrExecuteFailed execErr)
  | inl res =>
      if decide (IBR_Err res = "")
      then handleIBCBasicContractResponse ctx contractAddr (IBCPortID contractInfo) (IBR_Ok res)
      else fail (MarkErrorDeterministic (Wrap ErrExecuteFailed (IBR_Err res)))
  end.

Definition OnConnectChannel (ctx : Context) (contractAddr : bytes)
    (msg : IBCChannelConnectMsg) : M unit :=
  r ← ibc_call ctx contractAddr
    (fun q prefix checksum env gas => VM_IBCChannelConnect q prefix checksum env msg gas);
  finish_basic ctx contractAddr r.
Definition OnCloseChannel (ctx : Context) (contractAddr : bytes)
    (msg : IBCChannelCloseMsg) : M unit :=
  r ← ibc_call ctx contractAddr
    (fun q prefix checksum env gas => VM_IBCChannelClose q prefix checksum env msg gas);
  finish_basic ctx contractAddr r.
Definition OnAckPacket (ctx : Context) (contractAddr : bytes)
    (msg : IBCPacketAckMsg) : M unit :=
  r ← ibc_call ctx contractAddr
    (fun q prefix checksum env gas => VM_IBCPacketAck q prefix checksum env msg gas);
  finish_basic ctx contractAddr r.
Definition OnTimeoutPacket (ctx : Context) (contractAddr : bytes)
    (msg : IBCPacketTimeoutMsg) : M unit :=
  r ← ibc_call ctx contractAddr
    (fun q prefix checksum env gas => VM_IBCPacketTimeout q prefix checksum env msg gas);
  finish_basic ctx contractAddr r.
Definition IBCSourceCallback (ctx : Context) (contractAddr : bytes)
    (msg : IBCSourceCallbackMsg) : M unit :=
  r ← ibc_call ctx contractAddr
    (fun q prefix checksum env gas => VM_IBCSourceCallback q prefix checksum env msg gas);
  finish_basic ctx contractAddr r.
Definition IBCDestinationCallback (ctx : Context) (contractAddr : bytes)
    (msg : IBCDestinationCallbackMsg) : M unit :=
  r ← ibc_call ctx contractAddr
    (fun q prefix checksum env gas => VM_IBCDestinationCallback q prefix checksum env msg gas);
  finish_basic ctx contractAddr r.

Definition convertPacket (packet : IBCPacket) : Packet :=
  mkPacket (Pk_Sequence packet) (EP_PortID (Pk_Src packet)) (EP_ChannelID (Pk_Src packet))
    (EP_PortID (Pk_Dest packet)) (EP_ChannelID (Pk_Dest packet)) (Pk_Data packet)
    (match TO_Block (Pk_Timeout packet) with
     | Some b => (TB_Revision b, TB_Height b)
     | None => (0%N, 0%N)
     end) (TO_Timestamp (Pk_Timeout packet)).

(** An error of the VM is a panic, an error of the contract an error
    acknowledgement; no acknowledgement ([None]) keeps the packet. *)
Definition OnRecvPacket (ctx : Context) (contractAddr : bytes)
    (msg : IBCPacketReceiveMsg) : M (option Acknowledgement) :=
  '(contractInfo, res) ← ibc_call ctx contractAddr
     (fun q prefix checksum env gas => VM_IBCPacketReceive q prefix checksum env msg gas);
  match res with
  | inr execErr => throw (PError (EText execErr))
  | inl res =>
      if decide (IRR_Err res = "") then
        ok ← deref (IRR_Ok res);
        data ← handleContractResponse k wasmVMResponseHandler ctx contractAddr
          (IBCPortID contractInfo)
          (mkResponse (IRR_Messages ok) (IRR_Acknowledgement ok) (IRR_Attributes ok)
             (IRR_Events ok));
        match data with
        | None => _ ← StoreAsyncAckPacket (convertPacket (PR_Packet msg)); mret None
        | Some data => mret (Some (ContractConfirmStateAck data))
        end
      else mret (Some (Acknowledgement_Error (IRR_Err res)))
  end.

(** ** The IBC module (x/wasm/ibc.go) *)

Definition DefaultMaxIBCCallbackGas : N := 1000000.

Definition ValidateChannelParams (channelID : string) : option error :=
  match ParseChannelSequence channelID with
  | inr err => Some err
  | inl channelSequence =>
      errIf (4294967295 <? channelSequence)%N
        (Wrap ErrMaxIBCChannels
           "channel sequence %d is greater than max allowed transfer channels %d")
  end.

(** [connectionHops[0]] *)
Definition hop0 (connectionHops : list string) : M string :=
  match connectionHops with
  | hop :: _ => mret hop
  | [] => throw (PRuntime "index out of range")
  end.

(** The contract behind a port. *)
Definition port_contract (portID : string) : M bytes :=
  match ContractFromPortID portID with
  | inl contractAddr => mret contractAddr
  | inr err => fail (Wrap err "contract port id")
  end.

Definition OnChanOpenInit (ctx : Context) (order : string) (connectionHops : list string)
    (portID channelID : string) (chanCap : Capability) (counterParty : IBCEndpoint)
    (version : string) : M string :=
  _ ← check (ValidateChannelParams channelID);
  contractAddr ← port_contract portID;
  hop ← hop0 connectionHops;
  let msg := mkChannelOpenMsg
    (Some (mkIBCChannel (mkEndpoint portID channelID) counterParty order version hop)) None in
  acceptedVersion ← OnOpenChannel ctx contractAddr msg;
  acceptedVersion ← (if decide (acceptedVersion = "") then
                       _ ← guard_err (bool_decide (version = "")) (Wrap ErrEmpty "version");
                       mret version
                     else mret acceptedVersion);
  _ ← wrap_err "claim capability"
        (call_ext ctx (ClaimCapability chanCap (ChannelCapabilityPath portID channelID)));
  mret acceptedVersion.

Definition OnChanOpenTry (ctx : Context) (order : string) (connectionHops : list string)
    (portID channelID : string) (chanCap : Capability) (counterParty : IBCEndpoint)
    (counterpartyVersion : string) : M string :=
  _ ← check (ValidateChannelParams channelID);
  contractAddr ← port_contract portID;
  hop ← hop0 connectionHops;
  let msg := mkChannelOpenMsg None
    (Some (mkIBCChannel (mkEndpoint portID channelID) counterParty order
             counterpartyVersion hop, counterpartyVersion)) in
  version ← OnOpenChannel ctx contractAddr msg;
  let version := if decide (version = "") then counterpartyVersion else version in
  owned ← call_ext ctx (AuthenticateCapability chanCap (ChannelCapabilityPath portID channelID));
  _ ← (if (owned : bool) then mret tt
       else wrap_err "claim capability"
              (call_ext ctx (ClaimCapability chanCap (ChannelCapabilityPath portID channelID))));
  mret version.

Definition toWasmVMChannel (portID channelID : string) (channelInfo : IdentifiedChannel)
    (appVersion : string) : M IBCChannel :=
  hop ← hop0 (IC_ConnectionHops channelInfo);
  mret (mkIBCChannel (mkEndpoint portID channelID) (IC_Counterparty channelInfo)
          (IC_Ordering channelInfo) appVersion hop).

(** Loading the channel and the application's version of it. *)
Definition load_channel (ctx : Context) (portID channelID : string)
    : M (IdentifiedChannel * string) :=
  channelInfo ← call_ext ctx (GetChannel portID channelID);
  match channelInfo with
  | None => fail (Wrap ErrChannelNotFound "port ID (%s) channel ID (%s)")
  | Some channelInfo =>
      appVersion ← call_ext ctx (GetAppVersion portID channelID);
      match appVersion with
      | None => fail (Wrap ErrInvalidChannelVersion "port ID (%s) channel ID (%s)")
      | Some appVersion => mret (channelInfo, appVersion)
      end
  end.

Definition set_counterparty_channel (c : IdentifiedChannel) (channelID : string)
    : IdentifiedChannel :=
  mkIdentifiedChannel (IC_Open c) (IC_Ordering c)
    (mkEndpoint (EP_PortID (IC_Counterparty c)) channelID) (IC_ConnectionHops c)
    (IC_Version c) (IC_PortId c) (IC_ChannelId c).

Definition OnChanOpenAck (ctx : Context) (portID channelID counterpartyChannelID
    counterpartyVersion : string) : M unit :=
  contractAddr ← port_contract portID;
  '(channelInfo, appVersion) ← load_channel ctx portID channelID;
  channel ← toWasmVMChannel portID channelID
              (set_counterparty_channel channelInfo counterpartyChannelID) appVersion;
  OnConnectChannel ctx contractAddr
    (mkChannelConnectMsg (Some (channel, counterpartyVersion)) None).

Definition OnChanOpenConfirm (ctx : Context) (portID channelID : string) : M unit :=
  contractAddr ← port_contract portID;
  '(channelInfo, appVersion) ← load_channel ctx portID channelID;
  channel ← toWasmVMChannel portID channelID channelInfo appVersion;
  OnConnectChannel ctx contractAddr (mkChannelConnectMsg None (Some channel)).

Definition OnChanCloseInit (ctx : Context) (portID channelID : string) : M unit :=
  contractAddr ← port_contract portID;
  '(channelInfo, appVersion) ← load_channel ctx portID channelID;
  channel ← toWasmVMChannel portID channelID channelInfo appVersion;
  OnCloseChannel ctx contractAddr (mkChannelCloseMsg (Some channel) None).

Definition OnChanCloseConfirm (ctx : Context) (portID channelID : string) : M unit :=
  contractAddr ← port_contract portID;
  '(channelInfo, appVersion) ← load_channel ctx portID channelID;
  channel ← toWasmVMChannel portID channelID channelInfo appVersion;
  OnCloseChannel ctx contractAddr (mkChannelCloseMsg None (Some channel)).

Definition newIBCPacket (packet : Packet) : IBCPacket :=
  let '(revision, height) := P_TimeoutHeight packet in
  mkIBCPacket (P_Data packet)
    (mkEndpoint (P_SourcePort packet) (P_SourceChannel packet))
    (mkEndpoint (P_DestinationPort packet) (P_DestinationChannel packet))
    (P_Sequence packet)
    (mkTimeout (if (revision =? 0)%N && (height =? 0)%N then None
                else Some (mkTimeoutBlock revision height)) (P_TimeoutTimestamp packet)).

Definition CreateErrorAcknowledgement (err : error) : Acknowledgement :=
  Acknowledgement_Error (ErrorAcknowledgementText err).

(** types.EmitAcknowledgementEvent (events.go) *)
Definition EmitAcknowledgementEvent (contractAddr : bytes) (ack : option Acknowledgement)
    (err : option error) : M unit :=
  let success := match err with
                 | Some _ => false
                 | None => match ack with None => true | Some a => ack_Success a end
                 end in
  emit_event EventTypePacketRecv
    ([("module", ModuleName); (AttributeKeyContractAddr, AccAddress_String contractAddr);
      (AttributeKeyAckSuccess, if success then "true" else "false")]
     ++ match err with
        | Some err => [(AttributeKeyAckError, error_string err)]
        | None => []
        end).

(** The contract's events are kept only when the state is. *)
Definition IBC_OnRecvPacket (ctx : Context) (packet : Packet) (relayer : AccAddress)
    : M (option Acknowledgement) :=
  match ContractFromPortID (P_DestinationPort packet) with
  | inr err => throw (PError (Wrap err "contract port id"))
  | inl contractAddr =>
      let msg := mkPacketReceiveMsg (newIBCPacket packet) (acc_string relayer) in
      '(o, em) ← with_events (OnRecvPacket ctx contractAddr msg);
      match o with
      | Panic p => throw p
      | Fail err =>
          let ack := Some (CreateErrorAcknowledgement err) in
          _ ← EmitAcknowledgementEvent contractAddr ack (Some err); mret ack
      | Ret ack =>
          _ ← (if match ack with None => true | Some a => ack_Success a end
               then emit em else mret tt);
          _ ← EmitAcknowledgementEvent contractAddr ack None; mret ack
      end
  end.

Definition OnAcknowledgementPacket (ctx : Context) (packet : Packet)
    (acknowledgement : bytes) (relayer : AccAddress) : M unit :=
  contractAddr ← port_contract (P_SourcePort packet);
  wrap_err "on ack" (OnAckPacket ctx contractAddr
    (mkPacketAckMsg (mkAck acknowledgement) (newIBCPacket packet) (acc_string relayer))).

Definition IBC_OnTimeoutPacket (ctx : Context) (packet : Packet) (relayer : AccAddress)
    : M unit :=
  contractAddr ← port_contract (P_SourcePort packet);
  wrap_err "on timeout" (OnTimeoutPacket ctx contractAddr
    (mkPacketTimeoutMsg (newIBCPacket packet) (acc_string relayer))).

(** *** Callbacks middleware *)

Definition validateSender (contractAddr senderAddr : string) : bytes + error :=
  match AccAddressFromBech32 contractAddr with
  | inr err => inr (Wrap err "contract address")
  | inl contractAddress =>
      match AccAddressFromBech32 senderAddr with
      | inr err => inr (Wrap err "packet sender address")
      | inl senderAddress =>
          if bool_decide (contractAddress = senderAddress) then inl contractAddress
          else inr (Wrap ErrExecuteFailed "contract address %s does not match packet sender %s")
      end
  end.
Definition callback_contract (contractAddress packetSenderAddress : string) : M bytes :=
  match validateSender contractAddress packetSenderAddress with
  | inl contractAddr => mret contractAddr
  | inr err => fail err
  end.

Definition IBCSendPacketCallback (contractAddress packetSenderAddress : string) : M unit :=
  _ ← callback_contract contractAddress packetSenderAddress; mret tt.
Definition IBCOnAcknowledgementPacketCallback (cachedCtx : Context) (packet : Packet)
    (acknowledgement : bytes) (relayer : AccAddress)
    (contractAddress packetSenderAddress : string) : M unit :=
  contractAddr ← callback_contract contractAddress packetSenderAddress;
  wrap_err "on source chain callback ack" (IBCSourceCallback cachedCtx contractAddr
    (mkSourceCallbackMsg
       (Some (mkPacketAckMsg (mkAck acknowledgement) (newIBCPacket packet)
                (acc_string relayer))) None)).
Definition IBCOnTimeoutPacketCallback (cachedCtx : Context) (packet : Packet)
    (relayer : AccAddress) (contractAddress packetSenderAddress : string) : M unit :=
  contractAddr ← callback_contract contractAddress packetSenderAddress;
  wrap_err "on source chain callback timeout" (IBCSourceCallback cachedCtx contractAddr
    (mkSourceCallbackMsg None
       (Some (mkPacketTimeoutMsg (newIBCPacket packet) (acc_string relayer))))).

Definition ack_Acknowledgement (a : Acknowledgement) : bytes :=
  match a with
  | ContractConfirmStateAck data => data
  | Acknowledgement_Error text => error_ack_bytes text
  end.
Definition IBCReceivePacketCallback (cachedCtx : Context) (packet : Packet)
    (ack : Acknowledgement) (contractAddress : string) : M unit :=
  match AccAddressFromBech32 contractAddress with
  | inr err => fail err
  | inl contractAddr =>
      wrap_err "on destination chain callback" (IBCDestinationCallback cachedCtx contractAddr
        (mkDestinationCallbackMsg (mkAck (ack_Acknowledgement ack)) (newIBCPacket packet)))
  end.

(** *** The module as ibc-go calls it *)

Definition deliver (ctx : Context) (c : IBCCall) : M IBCAnswer :=
  let done (m : M unit) : M IBCAnswer := _ ← m; mret Done in
  let versioned (m : M string) : M IBCAnswer := v ← m; mret (Version v) in
  match c with
  | ChanOpenInit order hops p ch cap cp v =>
      versioned (OnChanOpenInit ctx order hops p ch cap cp v)
  | ChanOpenTry order hops p ch cap cp v =>
      versioned (OnChanOpenTry ctx order hops p ch cap cp v)
  | ChanOpenAck p ch cch cv => done (OnChanOpenAck ctx p ch cch cv)
  | ChanOpenConfirm p ch => done (OnChanOpenConfirm ctx p ch)
  | ChanCloseInit p ch => done (OnChanCloseInit ctx p ch)
  | ChanCloseConfirm p ch => done (OnChanCloseConfirm ctx p ch)
  | RecvPacket packet relayer =>
      ack ← IBC_OnRecvPacket ctx packet relayer; mret (Acked ack)
  | AcknowledgementPacket packet ack relayer =>
      done (OnAcknowledgementPacket ctx packet ack relayer)
  | TimeoutPacket packet relayer => done (IBC_OnTimeoutPacket ctx packet relayer)
  | SendPacketCallback contract snd => done (IBCSendPacketCallback contract snd)
  | AckCallback packet ack relayer contract snd =>
      done (IBCOnAcknowledgementPacketCallback ctx packet ack relayer contract snd)
  | TimeoutCallback packet relayer contract snd =>
      done (IBCOnTimeoutPacketCallback ctx packet relayer contract snd)
  | ReceiveCallback packet ack contract =>
      done (IBCReceivePacketCallback ctx packet ack contract)
  end.

(** ** Packets survive the translation to the contract's type and back *)

Lemma convertPacket_newIBCPacket p : convertPacket (newIBCPacket p) = p.
Proof.
  destruct p as [seq sp sc dp dc data [rev height] ts]. unfold newIBCPacket, convertPacket. simpl.
  destruct (N.eqb_spec rev 0), (N.eqb_spec height 0); simpl; congruence.
Qed.

(** ** The handshake *)

(** The answer of a contract to a new channel. An error of the contract,
    its means to refuse the channel, is not looked at: the handler returns
    the empty version as if the contract had had no opinion, and the
    handshake goes on with the version that was proposed. *)
Theorem channel_refusal_ignored ctx order hop hops portID channelID chanCap counterParty version
    contractAddr s i res s1 s2 :
  ValidateChannelParams channelID = None ->
  ContractFromPortID portID = inl contractAddr ->
  version <> "" ->
  ibc_call ctx contractAddr (fun q prefix checksum env gas =>
    VM_IBCChannelOpen q prefix checksum env
      (mkChannelOpenMsg (Some (mkIBCChannel (mkEndpoint portID channelID) counterParty order
                                 version hop)) None) gas) s = (Ret (i, inl res), s1) ->
  COR_Ok res = None -> COR_Err res <> "" ->
  call_ext ctx (ClaimCapability chanCap (ChannelCapabilityPath portID channelID)) s1
    = (Ret tt, s2) ->
  OnChanOpenInit ctx order (hop :: hops) portID channelID chanCap counterParty version s
    = (Ret version, s2).
Proof.
  intros Hp Hc Hv E Hok _ Ecap. unfold OnChanOpenInit, port_contract, OnOpenChannel.
  rewrite Hp, Hc. unfold mbind, M_bind, check, hop0, mret, M_ret.
  rewrite E, Hok. cbn [decide]. destruct (decide ("" = ""%string)); [|done].
  unfold guard_err. rewrite bool_decide_false by done. unfold mret, M_ret, wrap_err, map_err.
  by rewrite Ecap.
Qed.

(** ** Callbacks of the middleware go to the sender of the packet only *)

Lemma validateSender_inl c snd addr :
  validateSender c snd = inl addr ->
  AccAddressFromBech32 c = inl addr /\ AccAddressFromBech32 snd = inl addr.
Proof.
  unfold validateSender. destruct (AccAddressFromBech32 c), (AccAddressFromBech32 snd); try done.
  case_bool_decide; naive_solver.
Qed.

(** A source callback that does anything at all, even consume gas, is for
    a contract that is itself the sender of the packet. *)
Theorem source_callback_own ctx packet ack relayer contractAddress sender s :
  (forall addr, ~ (AccAddressFromBech32 contractAddress = inl addr
                   /\ AccAddressFromBech32 sender = inl addr)) ->
  (exists err, IBCOnAcknowledgementPacketCallback ctx packet ack relayer contractAddress sender s
               = (Fail err, s))
  /\ (exists err, IBCOnTimeoutPacketCallback ctx packet relayer contractAddress sender s
                  = (Fail err, s))
  /\ (exists err, IBCSendPacketCallback contractAddress sender s = (Fail err, s)).
Proof.
  intros Hn. unfold IBCOnAcknowledgementPacketCallback, IBCOnTimeoutPacketCallback,
    IBCSendPacketCallback, callback_contract.
  destruct (validateSender contractAddress sender) as [addr|err] eqn:E.
  - apply validateSender_inl in E. by destruct (Hn addr).
  - by split_and!; exists err.
Qed.

End Relay.
End Relay.

