(* ===== verification/System.v ===== *)
(** The assembled module: the message server, the messenger behind the
    dispatcher, the query plugins and the keeper call each other through
    contracts, so the assembly is recursive. It is written with a bound on the
    nesting; the theorems of Termination.v show that the bounds on nested queries
    and calls and the gas limit make that bound unnecessary. *)
From S2P Require Import Prelude Errors GoStrings Json Types Keys VMTypes Policy GasRegister Chain Logic Engine Store Events Keeper Dispatcher Msgs MsgServer KeeperFrame Encoders Messenger QueryPlugins Relay.
Import GoStrings Keys Store.Store Encoders.Encoders Messenger.Messenger.
Open Scope wasm_scope.

(** ** Handlers of other modules' messages *)

(** What the handler of another module's message does, in a state of the
    modules: it changes that state, charges gas, emits events, and it may call
    back into the wasm module. The application gives x/authz and x/group its
    message router (app/app.go), so that MsgExec and the execution of a
    group's proposal send messages in the name of others; a relayer's message
    makes ibc-go and its callbacks middleware call the IBC module; and
    contracts can send such messages themselves.

    A call that fails is not half done: a module either passes the error on,
    and then its caller undoes the message, or runs the call on a branch of
    the store and drops it. [RBranch] is such a branch around a part of the
    handler, and [RLimited] one with a gas meter of its own, as the callbacks
    middleware has it, which survives a panic. *)
Abbreviation RouteResult := (option bytes * list Types.AnyMsg)%type.

Section Routed.
Context `{Keepers}.

Inductive Routed :=
| RDone (o : outcome RouteResult) (x : ExtState)
| RCharge (amount : N) (descriptor : string) (x : ExtState) (rest : Routed)
| REmit (evs : list Event) (rest : Routed)
| RWasm (x : ExtState) (msg : MsgServer.WasmMsg)
    (rest : SdkResult + error -> ExtState -> Routed)
| RIBC (x : ExtState) (call : Relay.IBCCall)
    (rest : Relay.IBCAnswer * list Event + error -> ExtState -> Routed)
| RBranch (x : ExtState) (body : Routed) (rest : RouteResult + error -> ExtState -> Routed)
| RLimited (limit : N) (x : ExtState) (body : Routed)
    (rest : outcome RouteResult -> ExtState -> Routed).

(** Every call into the wasm module, whatever the calls before it returned. *)
Fixpoint all_calls (Pw : MsgServer.WasmMsg -> Prop) (Pi : Relay.IBCCall -> Prop) (t : Routed)
    : Prop :=
  match t with
  | RDone _ _ => True
  | RCharge _ _ _ rest | REmit _ rest => all_calls Pw Pi rest
  | RWasm _ msg rest => Pw msg /\ forall r x, all_calls Pw Pi (rest r x)
  | RIBC _ call rest => Pi call /\ forall r x, all_calls Pw Pi (rest r x)
  | RBranch _ body rest => all_calls Pw Pi body /\ forall r x, all_calls Pw Pi (rest r x)
  | RLimited _ _ body rest => all_calls Pw Pi body /\ forall r x, all_calls Pw Pi (rest r x)
  end.

End Routed.

(** baseapp's message router for the other modules' messages, and the response
    of a wasm handler as data and packed responses (sdk.WrapServiceResult). *)
Class AppRouter `{Keepers} := {
  route_other : SdkMsg -> option (Context -> ExtState -> Routed);
  WrapServiceResult : MsgServer.WasmMsgResponse -> RouteResult;
}.

Module System.

Section System.
Context `{GasMeters, Modules, KVStorePkg, Bech32, ErrorsMod, UnicodeTables,
  AddressPkg, CoinsPkg, Codecs, Gzip, VerificationPkg}.
Context `{!WasmEngine, !Keepers, !ICS4, !CoinConversion, !TransferPort, !AnyUnpacker,
  !MsgCodec, !QueryKeepers, !IBCEngine, !IBCCore, !AppRouter}.
Context (k : KeeperConfig).
Context (json_QueryRequest : bytes -> QueryRequest + string).

(** ** Queries *)

(** The default plugins reject gRPC queries, so the type of their answers
    does not matter. *)
Definition handle_query (QuerySmart : Context -> bytes -> bytes -> M bytes)
    : Context -> bytes -> QueryRequest -> M bytes :=
  QueryPlugins.HandleQuery (fun bz : bytes => inl bz)
    (QueryPlugins.DefaultQueryPlugins QuerySmart).

Fixpoint query_smart (depth : nat) (ctx : Context) (contractAddr req : bytes) : M bytes :=
  match depth with
  | O => throw PFuel
  | S depth' =>
      Keeper.QuerySmart k json_QueryRequest (handle_query (query_smart depth'))
        ctx contractAddr req
  end.

(** The nesting that the limit on the query stack allows, and one. *)
Definition query_depth : nat := S (N.to_nat (maxQueryStackSize k)).
Definition QuerySmart : Context -> bytes -> bytes -> M bytes := query_smart query_depth.
Definition HandleQuery : Context -> bytes -> QueryRequest -> M bytes := handle_query QuerySmart.

(** ** Messages *)

Abbreviation ResponseHandler := (Context -> bytes -> string -> list SubMsg ->
  option bytes -> M (option bytes)).

(** A service handler runs under an event manager of its own, whose events
    are part of the result. *)
Definition service (m : M (option bytes * list Types.AnyMsg)) : M SdkResult :=
  '(o, em) ← with_events m;
  match o with
  | Ret (data, responses) => mret (mkSdkResult data em responses)
  | Fail e => fail e
  | Panic p => throw p
  end.
(** The handler of a wasm message, and the calls of ibc-go. *)
Definition wasm_handler (h : ResponseHandler) (ctx : Context) (m : MsgServer.WasmMsg)
    : M SdkResult :=
  service (r ← MsgServer.serve k json_QueryRequest HandleQuery h ctx m;
           mret (WrapServiceResult r)).
Definition ibc_module (h : ResponseHandler) : Context -> Relay.IBCCall -> M Relay.IBCAnswer :=
  Relay.deliver k json_QueryRequest HandleQuery h.
(** A branch that is written back when the answer commits. *)
Definition ibc_branch (m : M Relay.IBCAnswer) : M Relay.IBCAnswer := fun s =>
  match m s with
  | (Ret a, s') => (Ret a, if Relay.committed a then s' else rollback s s')
  | (o, s') => (o, rollback s s')
  end.
Definition gas_remaining (m : Meter) : N := (Limit m - GasConsumed m)%N.

Section Routed.
Context (wasm : Context -> MsgServer.WasmMsg -> M SdkResult).
Context (ibc : Context -> Relay.IBCCall -> M Relay.IBCAnswer).

Fixpoint run_routed (ctx : Context) (t : Routed) : M RouteResult :=
  match t with
  | RDone o x => fun s => (o, set_ext x s)
  | RCharge a d x rest => _ ← modify (set_ext x); _ ← consume a d; run_routed ctx rest
  | REmit evs rest => _ ← emit evs; run_routed ctx rest
  | RWasm x msg rest =>
      _ ← modify (set_ext x);
      r ← catch (cached (wasm ctx msg));
      x' ← gets ext; run_routed ctx (rest r x')
  | RIBC x call rest =>
      _ ← modify (set_ext x);
      '(o, em) ← with_events (ibc_branch (ibc ctx call));
      x' ← gets ext;
      match o with
      | Ret a => run_routed ctx (rest (inl (a, em)) x')
      | Fail e => run_routed ctx (rest (inr e) x')
      | Panic p => throw p
      end
  | RBranch x body rest =>
      _ ← modify (set_ext x);
      '(o, em) ← with_events (cached (run_routed ctx body));
      x' ← gets ext;
      match o with
      | Ret a => _ ← emit em; run_routed ctx (rest (inl a) x')
      | Fail e => run_routed ctx (rest (inr e) x')
      | Panic p => throw p
      end
  | RLimited limit x body rest =>
      _ ← modify (set_ext x);
      m ← gets meter;
      '(o, mt) ← with_meter (NewGasMeter (N.min limit (gas_remaining m)))
                   ('(o, em) ← with_events (cached (run_routed ctx body));
                    _ ← match o with Ret _ => emit em | _ => mret tt end; lift o);
      match o with
      | Panic PFuel => throw PFuel
      | _ =>
          _ ← consume (GasConsumedToLimit mt) "ibc callback";
          x' ← gets ext; run_routed ctx (rest o x')
      end
  end.
End Routed.

Definition Handler (h : ResponseHandler) (msg : SdkMsg)
    : option (Context -> SdkMsg -> M SdkResult) :=
  match msg with
  | SWasm m => Some (fun ctx _ => wasm_handler h ctx m)
  | _ => (fun op ctx _ => service
            (x ← gets ext; run_routed (wasm_handler h) (ibc_module h) ctx (op ctx x)))
         <$> route_other msg
  end.

Definition messenger (h : ResponseHandler) : MessengerFn :=
  keeper_messenger (Handler h) (maxCallDepth k) [].

(** The response handler of the keeper, with at most [depth] contract
    responses nested in one another. *)
Fixpoint response_handler (depth : nat) : ResponseHandler :=
  match depth with
  | O => fun _ _ _ _ _ => throw PFuel
  | S depth' =>
      let h := response_handler depth' in
      Dispatcher.Handle (messenger h) (Keeper.reply k json_QueryRequest HandleQuery h)
  end.

(** The message service and the messenger of the keeper. *)
Definition Serve (depth : nat) (ctx : Context) (msg : MsgServer.WasmMsg)
    : M MsgServer.WasmMsgResponse :=
  MsgServer.serve k json_QueryRequest HandleQuery (response_handler depth) ctx msg.
Definition DispatchMsg (depth : nat) : MessengerFn := messenger (response_handler depth).
(** baseapp runs a message of a transaction, of any module. *)
Definition Route (depth : nat) (ctx : Context) (msg : SdkMsg) : M SdkResult :=
  match Handler (response_handler depth) msg with
  | Some handler => handler ctx msg
  | None => fail (Wrap ErrUnknownRequest "no message handler found")
  end.
(** ibc-go calls the module outside of a message of a contract. *)
Definition Deliver (depth : nat) : Context -> Relay.IBCCall -> M Relay.IBCAnswer :=
  ibc_module (response_handler depth).

End System.
End System.
