(* ===== verification/SystemFrame.v ===== *)
(** The counterpart of KeeperFrame.v for the dispatcher, the messenger, the
    query plugins and the assembled module: they respect every relation that
    the keeper operations respect, and they end within their gas limit. *)
From S2P Require Import Prelude Errors GoStrings Json Types Keys VMTypes Policy GasRegister Chain Logic Engine Store Events Keeper Dispatcher Msgs MsgServer KeeperFrame Encoders Messenger QueryPlugins Relay System.
Import GoStrings Keys Store.Store Encoders.Encoders Messenger.Messenger.
Open Scope wasm_scope.

(** ** Packets that wait for an acknowledgement *)

Section Receive.
Context `{GasMeters, Modules, KVStorePkg, Bech32, ErrorsMod, Codecs, !Keepers, !AppRouter}.

Definition packet_key (p : Packet) : bytes :=
  getAsyncAckStoreAndKey (P_DestinationPort p) (P_DestinationChannel p) (P_Sequence p).
Definition receives (P : Packet -> Prop) (c : Relay.IBCCall) : Prop :=
  match c with Relay.RecvPacket p _ => P p | _ => True end.
(** [R] allows the receipt of these packets, and other modules have the module
    receive no other ones. *)
Class ReceiveFrame (R : State -> State -> Prop) := {
  receivable : Packet -> Prop;
  receive_set p s : receivable p -> R s (set_kv <[packet_key p := marshal p]> s);
  receive_router msg op ctx x :
    route_other msg = Some op -> all_calls (fun _ => True) (receives receivable) (op ctx x);
}.

Lemma all_calls_weaken (Pw Qw : MsgServer.WasmMsg -> Prop) (Pi Qi : Relay.IBCCall -> Prop) t :
  (forall m, Pw m -> Qw m) -> (forall c, Pi c -> Qi c) -> all_calls Pw Pi t -> all_calls Qw Qi t.
Proof. intros Hw Hi. induction t; simpl; naive_solver. Qed.
Lemma all_calls_any (Pi : Relay.IBCCall -> Prop) t :
  (forall c, Pi c) -> all_calls (fun _ => True) Pi t.
Proof. intros Hi. induction t; simpl; auto. Qed.
Lemma receives_any c : receives (fun _ => True) c.
Proof. by destruct c. Qed.

#[global] Instance gas_mono_receives `{!GasMetersLaws} : ReceiveFrame gas_mono.
Proof.
  exists (fun _ => True); [intros; apply touch_gas_mono|].
  intros. apply all_calls_any, receives_any.
Defined.
#[global] Instance kv_grows_receives : ReceiveFrame (kv_grows permanent).
Proof.
  exists (fun _ => True); [|intros; apply all_calls_any, receives_any].
  intros p s _ key _ Hs. simpl. destruct (decide (key = packet_key p)) as [->|].
  - rewrite lookup_insert_eq. by eexists.
  - by rewrite lookup_insert_ne.
Defined.
End Receive.

Section Frames.
Context `{GasMeters, Modules, KVStorePkg, Bech32, ErrorsMod, UnicodeTables,
  AddressPkg, CoinsPkg, Codecs, Gzip, VerificationPkg}.
Context `{!WasmEngine, !Keepers, !ICS4, !CoinConversion, !TransferPort, !AnyUnpacker,
  !MsgCodec, !QueryKeepers, !IBCEngine, !IBCCore, !AppRouter}.
Context (k : KeeperConfig).
Context (json_QueryRequest : bytes -> QueryRequest + string).
Context (R : State -> State -> Prop) `{!StateFrame R, !WriteFrame R}.


Ltac sframe := frame; try solve [auto].

(** ** Queries *)

Lemma fr_query_address a : preserves R (QueryPlugins.query_address a).
Proof. unfold QueryPlugins.query_address. sframe. Qed.
Lemma fr_unsupported {A} kind : preserves R (QueryPlugins.unsupported (A := A) kind).
Proof. unfold QueryPlugins.unsupported. sframe. Qed.
Lemma mret_bind {A B} (a : A) (f : A -> M B) : mret a ≫= f = f a.
Proof. reflexivity. Qed.
Lemma fr_deref' {A} (p : option A) : preserves R (Keeper.deref p).
Proof. apply fr_deref; auto. Qed.
Lemma fr_caller_port a : preserves R (QueryPlugins.caller_port a).
Proof. unfold QueryPlugins.caller_port. frame; [by apply fr_GetContractInfo|apply fr_deref']. Qed.
Lemma fr_first_hop c : preserves R (QueryPlugins.first_hop c).
Proof. unfold QueryPlugins.first_hop. sframe. Qed.
Hint Resolve fr_query_address fr_unsupported fr_deref' fr_caller_port fr_first_hop : frame.
Lemma fr_open_channels chs : preserves R (QueryPlugins.open_channels chs).
Proof. induction chs; simpl; sframe. Qed.
Lemma fr_delegated_amount ctx b v sh : preserves R (QueryPlugins.delegated_amount ctx b v sh).
Proof. unfold QueryPlugins.delegated_amount. sframe. Qed.
Hint Resolve fr_open_channels fr_delegated_amount : frame.
Lemma fr_delegations_loop ctx b ds : preserves R (QueryPlugins.delegations_loop ctx b ds).
Proof.
  induction ds; simpl; [sframe|].
  unfold QueryPlugins.delegator_address, QueryPlugins.val_address. sframe.
Qed.
Hint Resolve fr_delegations_loop : frame.
Lemma fr_StakingQuerier ctx r : preserves R (QueryPlugins.StakingQuerier ctx r).
Proof.
  unfold QueryPlugins.StakingQuerier, QueryPlugins.sdkToDelegations,
    QueryPlugins.sdkToFullDelegation, QueryPlugins.delegator_address,
    QueryPlugins.val_address, QueryPlugins.getAccumulatedRewards. sframe.
Qed.
Lemma fr_WasmQuerier QS ctx r :
  (forall ctx a req, preserves R (QS ctx a req)) -> preserves R (QueryPlugins.WasmQuerier QS ctx r).
Proof.
  intros HQ. unfold QueryPlugins.WasmQuerier.
  frame; auto using fr_QueryRaw, fr_GetContractInfo, fr_IsPinnedCode, fr_GetCodeInfo.
Qed.
Lemma fr_handle_query QS ctx caller r :
  (forall ctx a req, preserves R (QS ctx a req)) ->
  preserves R (System.handle_query QS ctx caller r).
Proof.
  intros HQ. unfold System.handle_query, QueryPlugins.HandleQuery, QueryPlugins.DefaultQueryPlugins.
  simpl. repeat case_match; rewrite ?mret_bind;
    auto using fr_StakingQuerier, fr_WasmQuerier; try solve [frame].
  all: unfold QueryPlugins.BankQuerier, QueryPlugins.NoCustomQuerier, QueryPlugins.IBCQuerier,
    QueryPlugins.RejectStargateQuerier, QueryPlugins.RejectGrpcQuerier,
    QueryPlugins.DistributionQuerier; sframe.
Qed.

(** ** Messages *)

Lemma fr_Encode ctx a port msg : preserves R (Encode DefaultEncoders ctx a port msg).
Proof.
  unfold Encode, call_encoder, DefaultEncoders. simpl.
  repeat case_match; rewrite ?mret_bind; try solve [frame].
  unfold EncodeIBCMsg. sframe.
Qed.

Section Handler.
Context (Handler : SdkMsg -> option (Context -> SdkMsg -> M SdkResult)).
Hypothesis Handler_preserves : forall msg h ctx,
  Handler msg = Some h -> preserves R (h ctx msg).

Lemma fr_handleSdkMessage ctx a msg : preserves R (handleSdkMessage Handler ctx a msg).
Proof.
  unfold handleSdkMessage. destruct (Handler msg) eqn:E; frame.
Qed.
Lemma fr_handle_all ctx a msgs acc : preserves R (handle_all Handler ctx a msgs acc).
Proof.
  revert acc. induction msgs; intros acc; simpl; frame; auto using fr_handleSdkMessage.
Qed.
Lemma fr_IBCRawPacketHandler ctx a port msg :
  preserves R (IBCRawPacketHandler_DispatchMsg ctx a port msg).
Proof.
  unfold IBCRawPacketHandler_DispatchMsg, dispatch_SendPacket, dispatch_WriteAcknowledgement,
    own_channel, LoadAsyncAckPacket, DeleteAsyncAckPacket.
  sframe.
Qed.
Lemma fr_BurnCoin ctx a port msg : preserves R (BurnCoinMessageHandler ctx a port msg).
Proof. unfold BurnCoinMessageHandler. sframe. Qed.
Lemma fr_keeper_messenger d ctx a port msg :
  preserves R (keeper_messenger Handler d [] ctx a port msg).
Proof.
  unfold keeper_messenger, callDepthMessageHandler_DispatchMsg, NewDefaultMessageHandler. simpl.
  frame; auto using fr_BurnCoin, fr_IBCRawPacketHandler.
  unfold SDKMessageHandler_DispatchMsg. frame; auto using fr_Encode, fr_handle_all.
Qed.
End Handler.

Section Dispatcher.
Context (DispatchMsg : Context -> bytes -> string -> CosmosMsg -> M DispatchResult).
Context (reply : Context -> bytes -> Reply -> M (option bytes)).
Hypothesis DispatchMsg_preserves : forall ctx a port msg, preserves R (DispatchMsg ctx a port msg).
Hypothesis reply_preserves : forall ctx a r, preserves R (reply ctx a r).

Lemma fr_dispatch_submessage ctx a port msg rsp :
  preserves R (Dispatcher.dispatch_submessage DispatchMsg reply ctx a port msg rsp).
Proof.
  unfold Dispatcher.dispatch_submessage, Dispatcher.run_submessage,
    Dispatcher.dispatchMsgWithGasLimit, Dispatcher.dispatch_and_charge, Dispatcher.call_reply.
  sframe.
Qed.
Lemma fr_Handle ctx a port msgs data :
  preserves R (Dispatcher.Handle DispatchMsg reply ctx a port msgs data).
Proof.
  unfold Dispatcher.Handle, Dispatcher.DispatchSubmessages. frame.
  generalize (None : option bytes) as rsp. induction msgs; intros rsp; simpl; frame;
    auto using fr_dispatch_submessage.
Qed.
End Dispatcher.

Lemma fr_query_smart depth ctx a req :
  preserves R (System.query_smart k json_QueryRequest depth ctx a req).
Proof.
  revert ctx a req. induction depth; intros; simpl; [frame|].
  apply fr_QuerySmart; auto using fr_handle_query.
Qed.
Lemma fr_HandleQuery ctx caller r :
  preserves R (System.HandleQuery k json_QueryRequest ctx caller r).
Proof. apply fr_handle_query. intros. apply fr_query_smart. Qed.

(** ** IBC *)

Section Deliver.
Context `{!ReceiveFrame R}.
Context (HandleQuery : Context -> bytes -> QueryRequest -> M bytes).
Context (h : Context -> bytes -> string -> list SubMsg -> option bytes -> M (option bytes)).
Hypothesis query_preserves : forall ctx caller r, preserves R (HandleQuery ctx caller r).
Hypothesis h_preserves : forall ctx addr port msgs data, preserves R (h ctx addr port msgs data).

Lemma fr_StoreAsyncAckPacket p : receivable p -> preserves R (StoreAsyncAckPacket p).
Proof.
  intros Hp. unfold StoreAsyncAckPacket, MustMarshal.
  destruct (_ <? _)%N; [rewrite mret_bind|intros s; reflexivity].
  apply preserves_must, preserves_bind; [apply _|frame|]. intros _.
  apply preserves_modify. intros s. by apply receive_set.
Qed.
Lemma fr_ibc_call {A} ctx a (prog : VMState -> bytes -> Env -> N -> VMProg)
    (decode : bytes -> A + string) sub :
  preserves R (Relay.ibc_call k json_QueryRequest HandleQuery ctx a
    (fun q prefix checksum env gas => vm_entry (Relay.ibc_meters k) q prefix
       (fun v => prog v checksum env gas) gas decode sub)).
Proof.
  unfold Relay.ibc_call. apply fr_in_instance; [apply _..|]. intros i c.
  frame; auto using fr_runtimeGas, fr_consumeRuntimeGas. apply fr_vm_entry; auto.
Qed.
Lemma fr_finish_basic ctx a r : preserves R (Relay.finish_basic k h ctx a r).
Proof.
  unfold Relay.finish_basic, Relay.handleIBCBasicContractResponse.
  frame; auto using fr_deref, fr_handleContractResponse.
Qed.
Lemma fr_basic ctx a (prog : VMState -> bytes -> Env -> N -> VMProg) :
  preserves R (r ← Relay.ibc_call k json_QueryRequest HandleQuery ctx a
    (fun q prefix checksum env gas => vm_entry (Relay.ibc_meters k) q prefix
       (fun v => prog v checksum env gas) gas json_IBCBasicResult IBCBasicResult_SubMessages);
    Relay.finish_basic k h ctx a r).
Proof. frame; [apply fr_ibc_call|apply fr_finish_basic]. Qed.
Lemma fr_OnOpenChannel ctx a msg :
  preserves R (Relay.OnOpenChannel k json_QueryRequest HandleQuery ctx a msg).
Proof. unfold Relay.OnOpenChannel, Relay.VM_IBCChannelOpen. frame. apply fr_ibc_call. Qed.
Lemma fr_IBC_OnRecvPacket ctx packet relayer :
  receivable packet ->
  preserves R (Relay.IBC_OnRecvPacket k json_QueryRequest HandleQuery h ctx packet relayer).
Proof.
  intros Hp. unfold Relay.IBC_OnRecvPacket, Relay.EmitAcknowledgementEvent, Relay.OnRecvPacket,
    Relay.VM_IBCPacketReceive. cbn [PR_Packet]. rewrite Relay.convertPacket_newIBCPacket.
  frame; auto using fr_deref, fr_handleContractResponse, fr_StoreAsyncAckPacket. apply fr_ibc_call.
Qed.
#[local] Hint Resolve fr_OnOpenChannel fr_IBC_OnRecvPacket : frame.

Lemma fr_deliver ctx c :
  receives receivable c ->
  preserves R (Relay.deliver k json_QueryRequest HandleQuery h ctx c).
Proof.
  intros Hc. destruct c; cbn [Relay.deliver receives] in *;
    unfold Relay.OnChanOpenInit, Relay.OnChanOpenTry, Relay.OnChanOpenAck, Relay.OnChanOpenConfirm,
      Relay.OnChanCloseInit, Relay.OnChanCloseConfirm, Relay.OnAcknowledgementPacket,
      Relay.IBC_OnTimeoutPacket, Relay.IBCSendPacketCallback,
      Relay.IBCOnAcknowledgementPacketCallback, Relay.IBCOnTimeoutPacketCallback,
      Relay.IBCReceivePacketCallback, Relay.port_contract, Relay.load_channel,
      Relay.toWasmVMChannel, Relay.hop0, Relay.callback_contract; frame; try apply fr_basic.
Qed.
End Deliver.

(** ** Other modules' handlers *)

Lemma fr_ibc_branch m : preserves R m -> preserves R (System.ibc_branch m).
Proof.
  intros Hm s. specialize (Hm s). unfold System.ibc_branch.
  destruct (m s) as [[a|e|p] s']; simpl in *; [|by apply sf_rollback..].
  destruct (Relay.committed a); [done|by apply sf_rollback].
Qed.
Lemma fr_set_ext x : preserves R (modify (set_ext x)).
Proof. apply preserves_modify. intros. apply sf_ext. Qed.
Lemma fr_run_routed wasm ibc ctx (P : Relay.IBCCall -> Prop) t :
  (forall m, preserves R (wasm ctx m)) -> (forall c, P c -> preserves R (ibc ctx c)) ->
  all_calls (fun _ => True) P t -> preserves R (System.run_routed wasm ibc ctx t).
Proof.
  intros Hw Hi. induction t; cbn [System.run_routed all_calls]; intros Ht.
  { intros s. apply sf_ext. }
  all: apply preserves_bind; [apply _| |intros _]; auto using fr_set_ext, preserves_emit.
  all: try destruct Ht as [Hc Ht]; frame; auto using fr_ibc_branch.
Qed.


Section Assembled.
Context `{!ReceiveFrame R}.

Lemma fr_service m : preserves R m -> preserves R (System.service m).
Proof. intros. unfold System.service. frame. Qed.
Lemma fr_wasm_handler h ctx m :
  (forall ctx addr port msgs data, preserves R (h ctx addr port msgs data)) ->
  preserves R (System.wasm_handler k json_QueryRequest h ctx m).
Proof. intros. apply fr_service. frame. apply fr_serve; auto using fr_HandleQuery. Qed.
Lemma fr_Handler h m hd ctx :
  (forall ctx addr port msgs data, preserves R (h ctx addr port msgs data)) ->
  System.Handler k json_QueryRequest h m = Some hd -> preserves R (hd ctx m).
Proof.
  intros Hh E. unfold System.Handler in E.
  destruct m; simplify_eq/=; try (by apply fr_wasm_handler);
    apply fmap_Some in E as (op & Ho & ->); apply fr_service; frame;
    (eapply fr_run_routed; [intros; by apply fr_wasm_handler| |by eapply receive_router];
     intros; apply fr_deliver; auto using fr_HandleQuery).
Qed.
Lemma fr_messenger h ctx a port msg :
  (forall ctx addr port msgs data, preserves R (h ctx addr port msgs data)) ->
  preserves R (System.messenger k json_QueryRequest h ctx a port msg).
Proof.
  intros Hh. apply fr_keeper_messenger. intros m hd c. by apply fr_Handler.
Qed.
Lemma fr_response_handler depth ctx a port msgs data :
  preserves R (System.response_handler k json_QueryRequest depth ctx a port msgs data).
Proof.
  revert ctx a port msgs data. induction depth; intros; simpl; [frame|].
  apply fr_Handle; intros; [by apply fr_messenger|apply fr_reply; auto using fr_HandleQuery].
Qed.
Lemma fr_DispatchMsg depth ctx a port msg :
  preserves R (System.DispatchMsg k json_QueryRequest depth ctx a port msg).
Proof. apply fr_messenger. intros. apply fr_response_handler. Qed.
Lemma fr_Serve depth ctx msg : preserves R (System.Serve k json_QueryRequest depth ctx msg).
Proof. apply fr_serve; auto using fr_HandleQuery, fr_response_handler. Qed.
Lemma fr_Route depth ctx msg : preserves R (System.Route k json_QueryRequest depth ctx msg).
Proof.
  unfold System.Route. destruct (System.Handler _ _ _ _) eqn:E; [|frame].
  eapply fr_Handler; [intros; apply fr_response_handler|done].
Qed.
Lemma fr_Deliver depth ctx c :
  receives receivable c -> preserves R (System.Deliver k json_QueryRequest depth ctx c).
Proof. intros. apply fr_deliver; auto using fr_HandleQuery, fr_response_handler. Qed.
End Assembled.

End Frames.

(** ** Ending within the gas limit *)

Section Kept.
Context `{GasMeters, Modules, KVStorePkg, Bech32, ErrorsMod, UnicodeTables,
  AddressPkg, CoinsPkg, Codecs, Gzip, VerificationPkg}.
Context `{!WasmEngine, !Keepers, !ICS4, !CoinConversion, !TransferPort, !AnyUnpacker,
  !MsgCodec, !QueryKeepers, !IBCEngine, !IBCCore, !AppRouter, !GasMetersLaws}.
Context (k : KeeperConfig).
Context (json_QueryRequest : bytes -> QueryRequest + string).

Lemma kp_Encode ctx a port msg : kept (Encode DefaultEncoders ctx a port msg).
Proof.
  unfold Encode, call_encoder, DefaultEncoders. simpl.
  repeat case_match; rewrite ?mret_bind; try solve [kept].
  unfold EncodeIBCMsg. kept.
Qed.

Lemma kp_keeper_messenger Handler d ctx a port msg :
  (forall msg h ctx, Handler msg = Some h -> kept (h ctx msg)) ->
  kept (keeper_messenger Handler d [] ctx a port msg).
Proof.
  intros HH.
  unfold keeper_messenger, callDepthMessageHandler_DispatchMsg, NewDefaultMessageHandler. simpl.
  kept.
  - unfold SDKMessageHandler_DispatchMsg. apply kept_bind; [apply kp_Encode|].
    intros msgs. generalize noResult as acc. clear msg.
    induction msgs as [|m l IH]; intros acc; simpl; kept.
    unfold handleSdkMessage. destruct (Handler m) eqn:E; kept.
  - unfold IBCRawPacketHandler_DispatchMsg, dispatch_SendPacket, dispatch_WriteAcknowledgement,
      own_channel, LoadAsyncAckPacket, DeleteAsyncAckPacket. kept.
  - unfold BurnCoinMessageHandler. kept.
Qed.

Section Dispatcher.
Context (DispatchMsg : Context -> bytes -> string -> CosmosMsg -> M DispatchResult).
Context (reply : Context -> bytes -> Reply -> M (option bytes)).
Hypothesis DispatchMsg_kept : forall ctx a port msg, kept (DispatchMsg ctx a port msg).
Hypothesis reply_kept : forall ctx a r, kept (reply ctx a r).

Lemma kp_dispatchMsgWithGasLimit ctx a port msg l :
  kept (Dispatcher.dispatchMsgWithGasLimit DispatchMsg ctx a port msg l).
Proof.
  intros s Hs. unfold Dispatcher.dispatchMsgWithGasLimit, Dispatcher.dispatch_and_charge,
    ends_within, reify, with_meter, mbind, M_bind.
  destruct (DispatchMsg ctx a port msg _) as [o s1]; simpl.
  assert (forall d (r : M DispatchResult) s2, kept r ->
    match (match consume l d s2 with (Ret _, s') => r s' | (Fail e, s') => (Fail e, s')
           | (Panic p, s') => (Panic p, s') end).1 with
    | Panic _ => True
    | _ => within_gas (meter (match consume l d s2 with (Ret _, s') => r s'
        | (Fail e, s') => (Fail e, s') | (Panic p, s') => (Panic p, s') end).2) end) as Hc.
  { intros d r s2 Hr. apply (settles_bind (consume l d) (fun _ => r)); [apply settles_consume|done]. }
  destruct o as [r|e|p]; simpl.
  3: { destruct p; try done. apply Hc, kept_fail. }
  all: destruct (consume_cases (GasConsumed (meter s1)) "From limited Sub-Message"
    (set_meter (meter s) s1)) as [(m' & -> & _ & _ & ?)|(m' & p & -> & _)]; simpl; try done;
    destruct p; try done; apply Hc, kept_fail.
Qed.
Lemma kp_dispatch_submessage ctx a port msg rsp :
  kept (Dispatcher.dispatch_submessage DispatchMsg reply ctx a port msg rsp).
Proof.
  unfold Dispatcher.dispatch_submessage, Dispatcher.run_submessage, Dispatcher.call_reply.
  kept; auto using kp_dispatchMsgWithGasLimit.
Qed.
Lemma kp_Handle ctx a port msgs data :
  kept (Dispatcher.Handle DispatchMsg reply ctx a port msgs data).
Proof.
  unfold Dispatcher.Handle, Dispatcher.DispatchSubmessages. kept.
  generalize (None : option bytes) as rsp. induction msgs; intros rsp; simpl; kept;
    auto using kp_dispatch_submessage.
Qed.
End Dispatcher.

(** *** IBC and other modules *)

Section Deliver.
Context (HandleQuery : Context -> bytes -> QueryRequest -> M bytes).
Context (h : Context -> bytes -> string -> list SubMsg -> option bytes -> M (option bytes)).
Hypothesis h_kept : forall ctx addr port msgs data, kept (h ctx addr port msgs data).

#[local] Hint Resolve kp_contractInstance kp_runtimeGas vm_entry_no_fail
  settles_consumeRuntimeGas kp_deref kp_handleContractResponse kp_MustMarshal : kept.
Lemma kp_ibc_call {A} ctx a (prog : VMState -> bytes -> Env -> N -> VMProg)
    (decode : bytes -> A + string) sub :
  kept (Relay.ibc_call k json_QueryRequest HandleQuery ctx a
    (fun q prefix checksum env gas => vm_entry (Relay.ibc_meters k) q prefix
       (fun v => prog v checksum env gas) gas decode sub)).
Proof. unfold Relay.ibc_call. kept. Qed.
Lemma kp_finish_basic ctx a r : kept (Relay.finish_basic k h ctx a r).
Proof. unfold Relay.finish_basic, Relay.handleIBCBasicContractResponse. kept. Qed.
Lemma kp_basic ctx a (prog : VMState -> bytes -> Env -> N -> VMProg) :
  kept (r ← Relay.ibc_call k json_QueryRequest HandleQuery ctx a
    (fun q prefix checksum env gas => vm_entry (Relay.ibc_meters k) q prefix
       (fun v => prog v checksum env gas) gas json_IBCBasicResult IBCBasicResult_SubMessages);
    Relay.finish_basic k h ctx a r).
Proof. apply kept_bind; [apply kp_ibc_call|intros; apply kp_finish_basic]. Qed.
Lemma kp_OnOpenChannel ctx a msg :
  kept (Relay.OnOpenChannel k json_QueryRequest HandleQuery ctx a msg).
Proof.
  unfold Relay.OnOpenChannel, Relay.VM_IBCChannelOpen. apply kept_bind; [apply kp_ibc_call|kept].
Qed.
Lemma kp_OnRecvPacket ctx a msg :
  kept (Relay.OnRecvPacket k json_QueryRequest HandleQuery h ctx a msg).
Proof.
  unfold Relay.OnRecvPacket, Relay.VM_IBCPacketReceive. apply kept_bind; [apply kp_ibc_call|].
  unfold StoreAsyncAckPacket. kept.
Qed.
#[local] Hint Resolve kp_OnOpenChannel kp_OnRecvPacket : kept.

Lemma kp_deliver ctx c : kept (Relay.deliver k json_QueryRequest HandleQuery h ctx c).
Proof.
  destruct c; cbn [Relay.deliver];
    unfold Relay.OnChanOpenInit, Relay.OnChanOpenTry, Relay.OnChanOpenAck, Relay.OnChanOpenConfirm,
      Relay.OnChanCloseInit, Relay.OnChanCloseConfirm, Relay.OnAcknowledgementPacket,
      Relay.IBC_OnTimeoutPacket, Relay.IBCSendPacketCallback,
      Relay.IBCOnAcknowledgementPacketCallback, Relay.IBCOnTimeoutPacketCallback,
      Relay.IBCReceivePacketCallback, Relay.IBC_OnRecvPacket, Relay.EmitAcknowledgementEvent,
      Relay.port_contract, Relay.load_channel,
      Relay.toWasmVMChannel, Relay.hop0, Relay.callback_contract; kept; try apply kp_basic; done.
Qed.
End Deliver.

Lemma kp_ibc_branch m : kept m -> kept (System.ibc_branch m).
Proof.
  intros Hm s Hs. specialize (Hm s Hs). unfold ends_within, System.ibc_branch in *.
  destruct (m s) as [[a|e|p] s']; simpl in *; [|done..]. by destruct (Relay.committed a).
Qed.
Lemma kp_run_routed wasm ibc ctx t :
  (forall m, kept (wasm ctx m)) -> (forall c, kept (ibc ctx c)) ->
  kept (System.run_routed wasm ibc ctx t).
Proof.
  intros Hw Hi. induction t; cbn [System.run_routed].
  { by intros s Hs; destruct o. }
  all: apply kept_bind; [kept|intros _].
  - by apply kept_bind; [kept|].
  - done.
  - apply kept_bind; [kept; auto|]. intros. apply kept_bind; [kept|auto].
  - apply kept_bind_with_events; [by apply kp_ibc_branch|kept; auto..|done].
  - apply kept_bind_with_events; [by apply kept_cached|kept; auto..|done].
  - apply kept_bind; [kept|]. intros m. apply kept_bind; [apply kept_with_meter|].
    intros [o mt]. kept; auto.
Qed.
Lemma kp_service m : kept m -> kept (System.service m).
Proof. intros Hm. unfold System.service. kept; done. Qed.
Lemma kp_wasm_handler h ctx m :
  (forall ctx addr port msgs data, kept (h ctx addr port msgs data)) ->
  kept (System.wasm_handler k json_QueryRequest h ctx m).
Proof. intros. apply kp_service. kept. by apply kp_serve. Qed.
Lemma kp_messenger h ctx a port msg :
  (forall ctx addr port msgs data, kept (h ctx addr port msgs data)) ->
  kept (System.messenger k json_QueryRequest h ctx a port msg).
Proof.
  intros Hh. apply kp_keeper_messenger. intros m hd c E. unfold System.Handler in E.
  destruct m; simplify_eq/=; try (by apply kp_wasm_handler);
    apply fmap_Some in E as (op & _ & ->); apply kp_service; kept;
    (apply kp_run_routed; intros; [by apply kp_wasm_handler|by apply kp_deliver]).
Qed.
Lemma kp_response_handler depth ctx a port msgs data :
  kept (System.response_handler k json_QueryRequest depth ctx a port msgs data).
Proof.
  revert ctx a port msgs data. induction depth; intros; simpl; [kept|].
  apply kp_Handle; intros; [by apply kp_messenger|by apply kp_reply].
Qed.

End Kept.
