(* ===== verification/Refinement.v ===== *)
(** The keeper's records and the registry: what reading and writing the
    records of codes, contracts, histories and indexes does to the registry
    the store represents, up to the writes of an instantiation and of a
    migration as a whole. *)
From S2P Require Import Prelude Errors GoStrings Json Types Proto Keys VMTypes Policy GasRegister Chain Logic Wp Engine Store Registry Events Keeper Dispatcher Msgs MsgServer KeeperFrame Encoders Messenger QueryPlugins System SystemFrame.
Import GoStrings Keys Store.Store Events.Events Registry.Registry.
Open Scope wasm_scope.

Module Refinement.

(** ** The keeper's records *)

Section Records.
Context `{GasMeters, Modules, KVStorePkg, Bech32, ErrorsMod, AddressPkg, Codecs}.
Context `{!Bech32Laws, !AddressPkgLaws, !CodecsLaws}.

Lemma wp_MustMarshal {A} `{Codec A} (x : A) (Q : bytes -> kvs -> Prop) σ :
  ((blen (marshal x) < Proto.two63)%N -> Q (marshal x) σ) -> wp (MustMarshal x) Q σ.
Proof.
  intros HQ. unfold MustMarshal. destruct (N.ltb_spec (blen (marshal x)) Proto.two63).
  - by apply wp_ret, HQ.
  - apply wp_throw.
Qed.
Lemma wp_MustUnmarshal {A} `{CodecLaws A} (x : A) (Q : A -> kvs -> Prop) σ :
  stored x -> Q x σ -> wp (MustUnmarshal (marshal x)) Q σ.
Proof. intros [? ?] HQ. unfold MustUnmarshal. rewrite codec_roundtrip by done. by apply wp_ret. Qed.

(** A record that is read through [MustUnmarshal] when it is there. *)
Lemma wp_read {A} `{CodecLaws A} (o : option A) (Q : option A -> kvs -> Prop) σ :
  (forall x, o = Some x -> stored x) -> Q o σ ->
  wp (match marshal <$> o with
      | None => mret None
      | Some bz => c ← MustUnmarshal bz; mret (Some c)
      end) Q σ.
Proof.
  intros Hs HQ. destruct o as [x|]; simpl; [|by apply wp_ret].
  apply wp_bind, wp_MustUnmarshal; [auto|]. by apply wp_ret.
Qed.

Section Reads.
Context (σ : kvs) (f : Entry -> option bytes).
Hypothesis Hr : reads σ f.

Lemma wp_GetCodeInfo id o (Q : option CodeInfo -> kvs -> Prop) :
  is_u64 id -> f (KCode id) = marshal <$> o -> (forall c, o = Some c -> stored c) -> Q o σ ->
  wp (GetCodeInfo id) Q σ.
Proof.
  intros Hid Ho Hs HQ. unfold GetCodeInfo. apply wp_bind, wp_must, wp_kv_get.
  change (GetCodeKey id) with (entry_key (KCode id)). rewrite (Hr (KCode id)), Ho by done.
  by apply wp_read.
Qed.
Lemma wp_GetContractInfo addr o (Q : option ContractInfo -> kvs -> Prop) :
  f (KContract addr) = marshal <$> o -> (forall i, o = Some i -> stored i) -> Q o σ ->
  wp (GetContractInfo addr) Q σ.
Proof.
  intros Ho Hs HQ. unfold GetContractInfo. apply wp_bind, wp_must, wp_kv_get.
  change (GetContractAddressKey addr) with (entry_key (KContract addr)).
  rewrite (Hr (KContract addr)), Ho by done. by apply wp_read.
Qed.
Lemma wp_HasContractInfo addr (o : option ContractInfo) (Q : bool -> kvs -> Prop) :
  f (KContract addr) = marshal <$> o -> Q (bool_decide (is_Some o)) σ ->
  wp (HasContractInfo addr) Q σ.
Proof.
  intros Ho HQ. unfold HasContractInfo. apply wp_must, wp_kv_has.
  change (GetContractAddressKey addr) with (entry_key (KContract addr)).
  rewrite (Hr (KContract addr)), Ho by done.
  by replace (bool_decide (is_Some (marshal <$> o))) with (bool_decide (is_Some o))
    by (apply bool_decide_ext; by rewrite fmap_is_Some).
Qed.
Lemma wp_GetParams o (Q : Params -> kvs -> Prop) :
  f KParams = marshal <$> o -> (forall ps, o = Some ps -> stored ps) ->
  (forall ps, o = Some ps -> Q ps σ) -> wp GetParams Q σ.
Proof.
  intros Ho Hs HQ. unfold GetParams, params_Get. apply wp_must, wp_bind, wp_kv_get.
  change ParamsKey with (entry_key KParams). rewrite (Hr KParams), Ho by done.
  destruct o as [ps|]; [|apply wp_fail]. destruct (Hs ps eq_refl).
  change (marshal <$> Some ps) with (Some (marshal ps)). cbv beta iota.
  rewrite codec_roundtrip by done. by apply wp_ret, HQ.
Qed.

(** *** Writing *)

Lemma wp_write e v (Q : unit -> kvs -> Prop) :
  reg_entry e -> (forall σ', reads σ' (upd f e (Some v)) -> Q tt σ') ->
  wp (kv_set (entry_key e) v) Q σ.
Proof. intros He HQ. apply wp_kv_set, HQ. by apply reads_insert. Qed.
Lemma wp_erase e (Q : unit -> kvs -> Prop) :
  reg_entry e -> (forall σ', reads σ' (upd f e None) -> Q tt σ') ->
  wp (kv_delete (entry_key e)) Q σ.
Proof. intros He HQ. apply wp_kv_delete, HQ. by apply reads_delete. Qed.
Lemma wp_record {A} `{Codec A} e (x : A) (Q : unit -> kvs -> Prop) :
  reg_entry e ->
  ((blen (marshal x) < Proto.two63)%N ->
   forall σ', reads σ' (upd f e (Some (marshal x))) -> Q tt σ') ->
  wp (bz ← MustMarshal x; kv_set (entry_key e) bz) Q σ.
Proof. intros He HQ. apply wp_bind, wp_MustMarshal. intros Hl. apply wp_write; auto. Qed.

Lemma wp_addCodeIndex addr e p (Q : unit -> kvs -> Prop) :
  Updated e = Some p -> reg_entry (KByCodeID (HistCodeID e) p addr) ->
  (forall σ', reads σ' (upd f (KByCodeID (HistCodeID e) p addr) (Some [])) -> Q tt σ') ->
  wp (addToContractCodeSecondaryIndex addr e) Q σ.
Proof.
  intros Hu He HQ. unfold addToContractCodeSecondaryIndex.
  rewrite (GetContractByCreatedSecondaryIndexKey_entry _ _ p) by done.
  apply wp_bind, wp_lift_ret. by apply wp_write.
Qed.
Lemma wp_removeCodeIndex addr e p (Q : unit -> kvs -> Prop) :
  Updated e = Some p -> reg_entry (KByCodeID (HistCodeID e) p addr) ->
  (forall σ', reads σ' (upd f (KByCodeID (HistCodeID e) p addr) None) -> Q tt σ') ->
  wp (removeFromContractCodeSecondaryIndex addr e) Q σ.
Proof.
  intros Hu He HQ. unfold removeFromContractCodeSecondaryIndex.
  rewrite (GetContractByCreatedSecondaryIndexKey_entry _ _ p) by done.
  apply wp_bind, wp_lift_ret. by apply wp_erase.
Qed.
Lemma wp_addCreatorIndex c p addr (Q : unit -> kvs -> Prop) :
  VerifyAddressFormat c = None -> wf_position p ->
  (forall σ', reads σ' (upd f (KByCreator c p addr) (Some [])) -> Q tt σ') ->
  wp (addToContractCreatorSecondaryIndex c (Some p) addr) Q σ.
Proof.
  intros Hv Hp HQ. pose proof (verify_length c Hv) as Hl.
  unfold addToContractCreatorSecondaryIndex, Position_Bytes_ptr.
  apply wp_bind, wp_lift_ret.
  rewrite GetContractByCreatorSecondaryIndexKey_entry by lia.
  apply wp_bind, wp_lift_ret. by apply wp_write.
Qed.

(** *** History *)

Definition hist (addr : bytes) (h : list ContractCodeHistoryEntry) : Prop :=
  forall p, is_u64 p -> f (KHistory addr p)
  = if (p =? 0)%N then None else marshal <$> h !! N.to_nat (p - 1).

(** The search both history functions make: the last entry. *)
Lemma find_history addr h :
  hist addr h -> (N.of_nat (length h) <= MaxUint64)%N ->
  List.find (fun e => Nat.eqb (length e.1) 8)
    (kv_iterator (GetContractCodeHistoryElementPrefix addr) None None true σ)
  = (fun e => (Uint64ToBigEndian (N.of_nat (length h)), marshal e)) <$> last h.
Proof.
  intros Hh Hl. pose proof (find_last_entry σ (GetContractCodeHistoryElementPrefix addr)
    (fun k => Nat.eqb (length k) 8)) as Hf. cbv beta in Hf.
  assert (forall p, is_u64 p -> σ !! (GetContractCodeHistoryElementPrefix addr ++ Uint64ToBigEndian p)
    = f (KHistory addr p)) as Hk by (intros p Hp; by apply (Hr (KHistory addr p))).
  assert (forall i e, h !! i = Some e ->
    σ !! (GetContractCodeHistoryElementPrefix addr ++ Uint64ToBigEndian (N.of_nat i + 1))
    = Some (marshal e)) as Hi.
  { intros i e He. pose proof (lookup_lt_Some _ _ _ He) as Hlt.
    rewrite Hk, Hh by (unfold is_u64, MaxUint64, two64 in *; lia).
    rewrite (proj2 (N.eqb_neq _ _)) by lia.
    by replace (N.to_nat (N.of_nat i + 1 - 1)) with i by lia; rewrite He. }
  destruct (List.find _ _) as [[k v]|].
  - destruct Hf as (Hv & Hl8 & Hmax). apply Nat.eqb_eq in Hl8.
    destruct (be_of_length8 k Hl8) as (n & Hn & ->).
    rewrite Hk, Hh in Hv by done. destruct (N.eqb_spec n 0) as [|Hn0]; [done|].
    destruct (h !! N.to_nat (n - 1)) as [e|] eqn:He; simplify_eq/=.
    assert (n = N.of_nat (length h)) as ->.
    { pose proof (lookup_lt_Some _ _ _ He) as Hlt.
      destruct (h !! pred (length h)) as [e'|] eqn:He'; [|apply lookup_ge_None in He'; lia].
      specialize (Hmax _ _ (Hi _ _ He') eq_refl). apply bytes_le_be_encode in Hmax;
        unfold is_u64, MaxUint64, two64 in *; lia. }
    rewrite last_lookup. replace (pred (length h)) with (N.to_nat (N.of_nat (length h) - 1)) by lia.
    by rewrite He.
  - destruct (last h) as [e|] eqn:He; [|done]. rewrite last_lookup in He.
    by specialize (Hf _ _ (Hi _ _ He)).
Qed.

Lemma wp_last_history_position addr h (Q : N -> kvs -> Prop) :
  hist addr h -> (N.of_nat (length h) <= MaxUint64)%N -> Q (N.of_nat (length h)) σ ->
  wp (last_history_position addr) Q σ.
Proof.
  intros Hh Hl HQ. unfold last_history_position, iterate.
  apply wp_bind, (wp_gets_kv (kv_iterator _ _ _ _)).
  apply wp_bind, wp_must, wp_quiet; [apply quiet_kv_access|]. intros _.
  apply (wp_iter_find _ (fun k => Nat.eqb (length k) 8) (fun k _ => lift (BigEndianToUint64 k))
    (fun p => p)).
  cbv beta. rewrite (find_history addr h) by done.
  destruct (last h) as [e|] eqn:He; simpl.
  - rewrite BigEndian_roundtrip by (unfold is_u64, MaxUint64, two64 in *; lia).
    by apply wp_lift_ret.
  - apply last_None in He as ->. done.
Qed.
Lemma wp_mustGetLast addr h e (Q : ContractCodeHistoryEntry -> kvs -> Prop) :
  hist addr h -> (N.of_nat (length h) <= MaxUint64)%N -> last h = Some e -> stored e -> Q e σ ->
  wp (mustGetLastContractHistoryEntry addr) Q σ.
Proof.
  intros Hh Hl He Hs HQ. unfold mustGetLastContractHistoryEntry, iterate.
  apply wp_bind, wp_bind, (wp_gets_kv (kv_iterator _ _ _ _)).
  apply wp_bind, wp_must, wp_quiet; [apply quiet_kv_access|]. intros _.
  apply (wp_iter_find _ (fun k => Nat.eqb (length k) 8) (fun _ v => MustUnmarshal v) Some).
  cbv beta. rewrite (find_history addr h), He by done.
  apply wp_MustUnmarshal; [done|]. by apply wp_ret.
Qed.
Lemma wp_append addr h e (Q : unit -> kvs -> Prop) :
  hist addr h -> (N.of_nat (length h) < MaxUint64)%N ->
  ((blen (marshal e) < Proto.two63)%N -> forall σ',
     reads σ' (upd f (KHistory addr (N.of_nat (length h) + 1)) (Some (marshal e))) -> Q tt σ') ->
  wp (appendToContractHistory addr [e]) Q σ.
Proof.
  intros Hh Hl HQ. unfold appendToContractHistory.
  apply wp_bind, (wp_last_history_position addr h); [done|lia|]. cbn [store_history].
  rewrite add64_exact by (unfold MaxUint64, two64 in *; lia).
  apply wp_bind, wp_MustMarshal. intros Hs. apply wp_bind.
  apply (wp_write (KHistory addr (N.of_nat (length h) + 1))).
  - split; [|done]. simpl. unfold is_u64, MaxUint64, two64 in *. lia.
  - intros σ' Hσ'. apply wp_ret. auto.
Qed.
End Reads.

(** ** Instantiation and migration, written out *)

Lemma encode_hist a addr : hist (encode a) addr (history_of a addr).
Proof. intros p _. done. Qed.
Lemma AccAddress_String_inj c c' :
  VerifyAddressFormat c = None -> VerifyAddressFormat c' = None ->
  AccAddress_String c = AccAddress_String c' -> c = c'.
Proof.
  intros Hc Hc' E. apply bech32_roundtrip in Hc, Hc'. rewrite E in Hc. congruence.
Qed.
Lemma flag_iff (b b' : bool) v : (b = true <-> b' = true) -> flag b v = flag b' v.
Proof. destruct b, b'; intros [H1' H2']; try done; [by rewrite H1'|by rewrite H2']. Qed.

(** Pinning and unpinning a code. *)
Lemma repr_put_pinned σ σ' a id (b : bool) :
  repr σ a -> reads σ' (upd (encode a) (KPinned id) (flag b [Byte.x01])) ->
  repr σ' (put_pinned (if b then {[id]} ∪ pinned a else pinned a ∖ {[id]}) a).
Proof.
  intros Hr Hσ'. eapply reads_ext; [exact Hσ'|]. intros e _. unfold upd.
  destruct (decide (e = KPinned id)) as [->|Hne].
  - cbn [encode put_pinned pinned]. destruct b; simpl; unfold flag;
      [rewrite bool_decide_true|rewrite bool_decide_false]; set_solver.
  - destruct e as [| | | | | | |id'| | | |]; try done. cbn [encode put_pinned pinned].
    apply flag_iff. rewrite !bool_decide_eq_true. assert (id' <> id) by congruence.
    destruct b; set_solver.
Qed.

(** The history after an entry is added, position by position. *)
Lemma push_encode a addr e addr' p :
  encode (push_history addr e a) (KHistory addr' p)
  = upd (encode a) (KHistory addr (N.of_nat (length (history_of a addr)) + 1)) (Some (marshal e))
      (KHistory addr' p).
Proof.
  unfold upd. cbn [encode]. rewrite history_of_insert.
  destruct (decide (KHistory addr' p = _)) as [E|E].
  - injection E as -> ->. rewrite (proj2 (N.eqb_neq _ _)), decide_True by (done || lia).
    replace (N.to_nat _) with (length (history_of a addr)) by lia.
    by rewrite lookup_app_r, Nat.sub_diag.
  - destruct (decide (addr' = addr)) as [->|]; [|done]. destruct (N.eqb_spec p 0); [done|].
    destruct (decide (N.to_nat (p - 1) < length (history_of a addr))) as [Hlt|Hge].
    + by rewrite lookup_app_l.
    + rewrite (lookup_ge_None_2 (history_of a addr)) by lia.
      rewrite lookup_ge_None_2; [done|]. rewrite length_app. simpl.
      assert (p <> N.of_nat (length (history_of a addr)) + 1)%N by congruence. lia.
Qed.

(** The index by code id after an entry is added: the entry of the last code,
    if any, is gone and the new one there. *)
Lemma push_index a addr e pos id p addr' f :
  Updated e = Some pos ->
  (forall id p, f (KByCodeID id p addr) = None) ->
  (forall id p addr', addr' <> addr ->
     f (KByCodeID id p addr') = encode a (KByCodeID id p addr')) ->
  upd f (KByCodeID (HistCodeID e) pos addr) (Some []) (KByCodeID id p addr')
  = encode (push_history addr e a) (KByCodeID id p addr').
Proof.
  intros Hu Hf Hf'. unfold upd. cbn [encode]. rewrite history_of_insert.
  destruct (decide (addr' = addr)) as [->|Hne].
  - rewrite last_snoc. case_decide as E; simplify_eq.
    + by rewrite bool_decide_true.
    + rewrite Hf, bool_decide_false; [done|]. intros [<- E']. rewrite Hu in E'. congruence.
  - rewrite decide_False by congruence. by apply Hf'.
Qed.
(** The index by creator after a contract is stored. *)
Lemma put_creator a addr i c pos c' p addr' f :
  VerifyAddressFormat c = None -> Creator i = AccAddress_String c -> Created i = Some pos ->
  (forall c p, VerifyAddressFormat c = None -> f (KByCreator c p addr) = None) ->
  (forall c p addr', addr' <> addr ->
     f (KByCreator c p addr') = encode a (KByCreator c p addr')) ->
  VerifyAddressFormat c' = None ->
  upd f (KByCreator c pos addr) (Some []) (KByCreator c' p addr')
  = encode (put_contract addr i a) (KByCreator c' p addr').
Proof.
  intros Hv Hc Hp Hf Hf' Hv'. unfold upd. cbn [encode put_contract contracts].
  destruct (decide (addr' = addr)) as [->|Hne].
  - rewrite lookup_insert_eq. case_decide as E; simplify_eq.
    + by rewrite bool_decide_true.
    + rewrite Hf by done. rewrite bool_decide_false; [done|]. intros [E' E'']. apply E.
      rewrite Hc in E'. apply AccAddress_String_inj in E' as ->; [|done..]. congruence.
  - rewrite decide_False, lookup_insert_ne by congruence. by apply Hf'.
Qed.

Lemma wp_persist_instance a σ addr c i msg pos (Q : unit -> kvs -> Prop) :
  repr σ a -> coherent a -> contracts a !! addr = None ->
  VerifyAddressFormat c = None -> Creator i = AccAddress_String c -> Created i = Some pos ->
  wf_position pos -> is_u64 (CodeID i) ->
  (forall σ', repr σ' (put_contract addr i (push_history addr (InitialHistory i msg) a)) ->
     (blen (marshal (InitialHistory i msg)) < Proto.two63)%N ->
     (blen (marshal i) < Proto.two63)%N -> Q tt σ') ->
  wp (Keeper.persist_instance addr (Some c) i msg) Q σ.
Proof.
  intros Hr C Hn Hv Hc Hp Hpos Hid HQ. pose proof (no_history a addr C Hn) as Hh.
  unfold Keeper.persist_instance.
  apply wp_bind, (wp_addCodeIndex σ _ Hr addr _ pos); [done|done|]. intros σ1 H1'.
  change (Updated (InitialHistory i msg)) with (Created i). rewrite Hp.
  apply wp_bind, (wp_addCreatorIndex σ1 _ H1'); [done|done|]. intros σ2 H2'.
  apply wp_bind, (wp_append σ2 _ H2' addr []); [|done|].
  { intros p Hu. unfold upd. rewrite !decide_False by done. cbn [encode]. by rewrite Hh. }
  intros Hs1 σ3 H3'. unfold mustStoreContractInfo.
  apply wp_bind, wp_MustMarshal. intros Hs2. apply wp_must.
  apply (wp_write σ3 _ H3' (KContract addr)); [done|]. intros σ4 H4'.
  apply HQ; [|done..]. eapply reads_ext; [exact H4'|].
  intros e [_ He]. set (a' := push_history _ _ _).
  destruct e as [id|ad|ad k| | |ad p|id p ad|id| |c' p ad| |? ? ?]; try done.
  - unfold upd. cbn [encode put_contract contracts]. case_decide as E; simplify_eq.
    + by rewrite lookup_insert_eq.
    + rewrite !decide_False by done. by rewrite lookup_insert_ne by congruence.
  - change (encode (put_contract addr i a') (KHistory ad p)) with (encode a' (KHistory ad p)).
    unfold a'. rewrite push_encode, Hh. unfold upd. by rewrite decide_False.
  - change (encode (put_contract addr i a') (KByCodeID id p ad)) with (encode a' (KByCodeID id p ad)).
    unfold a'. rewrite <- (push_index a addr (InitialHistory i msg) pos id p ad (encode a)); try done.
    intros. cbn [encode]. by rewrite Hh.
  - rewrite <- (put_creator a' addr i c pos c' p ad (encode a)); try done.
    intros. cbn [encode]. by rewrite Hn.
Qed.

(** A block height is an int64, the block's gas a uint64. *)
Definition wf_ctx (ctx : Context) : Prop :=
  (ctx_BlockHeight ctx < 2 ^ 63)%Z /\ is_u64 (default 0%N (ctx_BlockGas ctx)).
Lemma wf_ctx_position ctx pos :
  wf_ctx ctx -> NewAbsoluteTxPosition ctx = Ret pos -> wf_position pos.
Proof.
  intros [Hh Hg] E. unfold NewAbsoluteTxPosition in E. case_match; [done|]. simplify_eq.
  split; [|done]. unfold is_u64, two64. simpl in *. lia.
Qed.

(** The index by creator is unaffected when a contract keeps its creator. *)
Lemma put_same_creator a addr i0 i c p ad :
  contracts a !! addr = Some i0 -> Creator i = Creator i0 -> Created i = Created i0 ->
  encode (put_contract addr i a) (KByCreator c p ad) = encode a (KByCreator c p ad).
Proof.
  intros Hi0 Hc Hp. cbn [encode put_contract contracts].
  destruct (decide (ad = addr)) as [->|]; [|by rewrite lookup_insert_ne].
  by rewrite lookup_insert_eq, Hi0, Hc, Hp.
Qed.

Lemma wp_persist_migration a σ ctx addr i0 i id msg (Q : ContractInfo -> kvs -> Prop) :
  repr σ a -> coherent a -> storable a -> wf_ctx ctx ->
  contracts a !! addr = Some i0 -> Creator i = Creator i0 -> Created i = Created i0 ->
  is_u64 id -> (N.of_nat (length (history_of a addr)) < MaxUint64)%N ->
  (forall σ' pos, wf_position pos ->
     let '(e, i') := AddMigration pos id msg i in
     repr σ' (put_contract addr i' (push_history addr e a)) ->
     (blen (marshal e) < Proto.two63)%N -> (blen (marshal i') < Proto.two63)%N -> Q i' σ') ->
  wp (Keeper.persist_migration ctx addr i id msg) Q σ.
Proof.
  intros Hr C St Hctx Hi0 Hc Hp Hid Hl HQ.
  destruct (contract_last a addr i0 (coh_contracts a C _ _ Hi0)) as (e0 & p0 & He0 & _ & Hu0).
  assert (stored e0) as Hs0.
  { apply (sto_history a St addr). by apply last_Some_elem_of. }
  unfold Keeper.persist_migration.
  apply wp_bind, (wp_mustGetLast σ _ Hr addr (history_of a addr) e0);
    [apply encode_hist|lia|done|done|].
  apply wp_bind, (wp_removeCodeIndex σ _ Hr addr e0 p0); [done| |].
  { destruct Hs0 as [(_ & ? & Hpos) _]. split; [|done]. split; [done|]. by apply Hpos. }
  intros σ1 H1'. apply wp_bind, wp_lift. intros pos Hpos.
  pose proof (wf_ctx_position _ _ Hctx Hpos) as Hwp. cbn [AddMigration].
  apply wp_bind, (wp_append σ1 _ H1' addr (history_of a addr)); [|done|].
  { intros p Hu. unfold upd. by rewrite decide_False. }
  intros Hs1 σ2 H2'.
  apply wp_bind, (wp_addCodeIndex σ2 _ H2' addr _ pos); [done|done|]. intros σ3 H3'.
  unfold mustStoreContractInfo. apply wp_bind, wp_bind, wp_MustMarshal. intros Hs2.
  apply wp_must, (wp_write σ3 _ H3' (KContract addr)); [done|]. intros σ4 H4'.
  apply wp_ret. apply (HQ σ4 pos Hwp); [|done..]. eapply reads_ext; [exact H4'|].
  intros e [_ He]. set (e' := mkHistoryEntry _ _ _ _). set (a' := push_history _ _ _).
  destruct e as [id'|ad|ad k| | |ad p|id' p ad|id'| |c' p ad| |? ? ?]; try done.
  - unfold upd. cbn [encode put_contract contracts]. case_decide as E; simplify_eq.
    + by rewrite lookup_insert_eq.
    + rewrite !decide_False by done. by rewrite lookup_insert_ne by congruence.
  - change (encode (put_contract addr (set_CodeID id i) a') (KHistory ad p))
      with (encode a' (KHistory ad p)).
    unfold a'. rewrite push_encode. unfold upd. by rewrite !(decide_False (P := KHistory ad p = _ _ _ _)).
  - change (encode (put_contract addr (set_CodeID id i) a') (KByCodeID id' p ad))
      with (encode a' (KByCodeID id' p ad)).
    unfold a'. rewrite <- (push_index a addr e' pos id' p ad
      (upd (encode a) (KByCodeID (HistCodeID e0) p0 addr) None)); try done.
    + intros id2 p2. unfold upd. case_decide as E; [done|]. cbn [encode]. rewrite He0.
      rewrite bool_decide_false; [done|]. intros [<- E']. rewrite Hu0 in E'. congruence.
    + intros id2 p2 ad2 Hne. unfold upd. rewrite decide_False; [done|]. congruence.
  - rewrite (put_same_creator a' addr i0) by done. done.
Qed.
End Records.
End Refinement.
