(* ===== verification/RefineKeeper.v ===== *)
(** The keeper implements the registry: whatever a contract does, an operation
    on a store that represents a registry leaves, when it returns, a store
    that represents a registry reached by steps the actor was permitted. *)
From S2P Require Import Prelude Errors GoStrings Json Types Proto Keys VMTypes Policy GasRegister Chain Logic Wp Engine Store Registry Events Keeper Msgs MsgServer KeeperFrame Refinement.
Import GoStrings Keys Store.Store Events.Events Registry.Registry Refinement.Refinement.
Open Scope wasm_scope.

(** ** Types of the numbers in messages *)

(** The code ids of a contract's messages are uint64; Go's decoder has no
    other values of that type. *)
Definition typed_wasm (m : VM.WasmMsg) : Prop :=
  (forall i, Instantiate m = Some i -> is_u64 (Inst_CodeID i))
  /\ (forall i, Instantiate2 m = Some i -> is_u64 (Inst2_CodeID i))
  /\ (forall i, Migrate m = Some i -> is_u64 (Mig_NewCodeID i)).
Definition typed_msg (m : CosmosMsg) : Prop := forall w, Wasm m = Some w -> typed_wasm w.
Definition typed_result (r : ContractResult) : Prop :=
  Forall (fun m => typed_msg (Msg m)) (ContractResult_SubMessages r).
Class WasmEngineLaws `{WasmEngine} : Prop := {
  json_ContractResult_typed bz r : json_ContractResult bz = inl r -> typed_result r;
}.

Module RefineKeeper.

Section Ops.
Context `{GasMeters, Modules, KVStorePkg, Bech32, ErrorsMod, UnicodeTables,
  AddressPkg, CoinsPkg, Codecs, Gzip}.
Context `{!WasmEngine, !Keepers, !Bech32Laws, !AddressPkgLaws, !CodecsLaws, !WasmEngineLaws}.
Context (k : KeeperConfig).
Context (json_QueryRequest : bytes -> QueryRequest + string).
Context (HandleQuery : Context -> bytes -> QueryRequest -> M bytes).
Context (handler : Context -> bytes -> string -> list SubMsg -> option bytes -> M (option bytes)).
(** [old] are the contracts the registry starts with. The policies of
    contracts' messages include those that an actor's policy hands down. *)
Context (Sub : Policy.AuthorizationPolicy -> Prop) (sender old : bytes -> Prop).
Hypothesis Sub_closed : forall p action, Sub p -> Sub (Policy.SubMessageAuthorizationPolicy p action).
Hypothesis Sub_gov : forall actor action,
  governs (authority k) actor -> sender actor \/ old actor \/ derived actor ->
  Sub (Policy.SubMessageAuthorizationPolicy
         (Policy.GovAuthorizationPolicy (propagateGovAuthorization k)) action).

#[local] Abbreviation step :=
  (step (authority k) (propagateGovAuthorization k) Sub sender).
#[local] Abbreviation steps :=
  (steps (authority k) (propagateGovAuthorization k) Sub sender).
#[local] Abbreviation acts :=
  (acts (authority k) (propagateGovAuthorization k) Sub sender).

Definition known (a : Registry) : Prop :=
  forall x, is_Some (contracts a !! x) -> old x \/ derived x.
Definition models (σ : kvs) (a : Registry) : Prop :=
  repr σ a /\ coherent a /\ storable a /\ known a.
(** The store represents a registry reached from [a], or the store is full.
    A full store stays full, whatever the module does. *)
Definition reach (a : Registry) (σ : kvs) : Prop :=
  (exists a', steps a a' /\ models σ a') \/ full σ.

Lemma reach_refl a σ : models σ a -> reach a σ.
Proof. intros. left. exists a. split; [apply rtc_refl|done]. Qed.
Lemma reach_steps a a' σ : steps a a' -> reach a' σ -> reach a σ.
Proof. intros S [(b & Sb & Hb)|Hf]; [left|by right]. exists b. split; [by etrans|done]. Qed.
Lemma reach_step a a' σ : step a a' -> reach a' σ -> reach a σ.
Proof. intros S. by apply reach_steps, rtc_once. Qed.

Lemma full_grows s s' : kv_grows permanent s s' -> full (kv s) -> full (kv s').
Proof.
  intros Hg [Hc|[addr Hh]]; [left|right; exists addr]; (apply Hg; [|done]);
    (split; [by intros (? & ? & ? & ?)|done]).
Qed.
Lemma wp_full {A} (m : M A) σ : grows m -> full σ -> wp m (fun _ => full) σ.
Proof. intros Hm Hf s x s' <- E. specialize (Hm s). rewrite E in Hm. by eapply full_grows. Qed.
Lemma wp_reach_full {A} (m : M A) a σ : grows m -> full σ -> wp m (fun _ => reach a) σ.
Proof. intros Hm Hf. eapply wp_mono; [by apply wp_full|]. intros. by right. Qed.
(** Continue from the registry a part of the computation has reached. *)
Lemma wp_reach_bind {A B} (m : M A) (f : A -> M B) a σ :
  (forall x, grows (f x)) -> wp m (fun _ => reach a) σ ->
  (forall x a' σ', steps a a' -> models σ' a' -> wp (f x) (fun _ => reach a') σ') ->
  wp (m ≫= f) (fun _ => reach a) σ.
Proof.
  intros Hg Hm Hf. apply wp_bind. eapply wp_mono; [exact Hm|].
  intros x σ' [(a' & S & Hσ')|Hfull].
  - eapply wp_mono; [by apply Hf|]. intros y σ''. by apply reach_steps.
  - by apply wp_reach_full.
Qed.

Lemma models_same_meta σ σ' a : models σ a -> same_meta σ σ' -> models σ' a.
Proof. intros (Hr & ? & ? & ?) Hs. split; [|done]. by eapply reads_same_meta. Qed.

(** *** Reading the registry *)

Lemma wp_code id σ a (Q : option CodeInfo -> kvs -> Prop) :
  models σ a -> is_u64 id -> Q (codes a !! id) σ -> wp (GetCodeInfo id) Q σ.
Proof.
  intros (Hr & _ & St & _) Hid HQ. eapply wp_GetCodeInfo; [exact Hr|done|done| |done].
  intros c Hc. by eapply sto_codes.
Qed.
Lemma wp_contract addr σ a (Q : option ContractInfo -> kvs -> Prop) :
  models σ a -> Q (contracts a !! addr) σ -> wp (GetContractInfo addr) Q σ.
Proof.
  intros (Hr & _ & St & _) HQ. eapply wp_GetContractInfo; [exact Hr|done| |done].
  intros c Hc. by eapply sto_contracts.
Qed.
Lemma wp_params σ a (Q : Params -> kvs -> Prop) :
  models σ a -> (forall ps, params a = Some ps -> Q ps σ) -> wp GetParams Q σ.
Proof.
  intros (Hr & _ & St & _) HQ. eapply wp_GetParams; [exact Hr|done| |done].
  intros ps Hps. by eapply sto_params.
Qed.

Lemma code_u64 σ a id c : models σ a -> codes a !! id = Some c -> is_u64 id.
Proof.
  intros (_ & C & _) Hc. pose proof (coh_codes a C id ltac:(by eexists)).
  pose proof (coh_code_seq a C). unfold is_u64, MaxUint64, two64 in *. lia.
Qed.

(** The contract and its code, as every call loads them. *)
Lemma wp_contractInstance addr σ a (Q : ContractInfo * CodeInfo * bytes -> kvs -> Prop) :
  models σ a ->
  (forall i c, contracts a !! addr = Some i -> codes a !! CodeID i = Some c ->
     Q (i, c, GetContractStorePrefix addr) σ) ->
  wp (contractInstance addr) Q σ.
Proof.
  intros (Hr & C & St & _) HQ. unfold contractInstance. apply wp_bind, wp_kv_get.
  change (GetContractAddressKey addr) with (entry_key (KContract addr)).
  rewrite (Hr (KContract addr)) by done. cbn [encode].
  destruct (contracts a !! addr) as [i|] eqn:Hi; [|apply wp_fail].
  apply wp_bind, wp_MustUnmarshal; [by eapply sto_contracts|].
  destruct (contract_code a addr i (coh_contracts a C _ _ Hi)) as [c Hc].
  apply wp_bind, wp_kv_get. change (GetCodeKey (CodeID i)) with (entry_key (KCode (CodeID i))).
  rewrite (Hr (KCode (CodeID i))) by (split; [apply (sto_contracts a St _ _ Hi)|done]).
  cbn [encode]. rewrite Hc. apply wp_bind, wp_MustUnmarshal; [by eapply sto_codes|].
  by apply wp_ret, HQ.
Qed.

(** *** Calls into the VM *)

Lemma store_prefix_foreign addr r : foreign (GetContractStorePrefix addr ++ r).
Proof. eexists. left. reflexivity. Qed.

Lemma wp_vm_entry {A} gm ctx caller addr prog g (decode : bytes -> A + string) sub σ
    (Q : (A + string) * N -> kvs -> Prop) :
  (forall res used σ', same_meta σ σ' ->
     (forall r, res = inl r -> exists bz, decode bz = inl r) -> Q (res, used) σ') ->
  wp (vm_entry gm (Keeper.querier k json_QueryRequest HandleQuery ctx caller)
        (GetContractStorePrefix addr) prog g decode sub) Q σ.
Proof.
  intros HQ. unfold vm_entry. wp_step. wp_step. wp_step.
  apply wp_tidy.
  { unfold tidy, vm_call. frame. apply preserves_run_prog; [apply _| |].
    - intros r. apply touch_kv_frame, store_prefix_foreign.
    - intros. apply RustQuery_kv. }
  intros [[data|err] rep] σ' Hσ'.
  - apply wp_lift. intros [res used] E. apply HQ; [done|]. intros r ->.
    unfold DeserializeResponse, obind in E. exists data.
    repeat case_match; simplify_eq; done.
  - by apply wp_ret, HQ.
Qed.

(** The contract's response: its messages are typed. *)
Lemma wp_finish_call res used err σ (Q : option Response -> kvs -> Prop) :
  (forall r, res = inl r -> exists bz, json_ContractResult bz = inl r) ->
  (forall resp, (forall x, resp = Some x -> Forall (fun m => typed_msg (Msg m)) (Messages x)) ->
     Q resp σ) ->
  wp (Keeper.finish_call k (res, used) err) Q σ.
Proof.
  intros Hres HQ. unfold Keeper.finish_call.
  apply wp_bind, wp_quiet; [apply fr_consumeRuntimeGas, _|]. intros _.
  destruct res as [r|]; [|apply wp_fail]. case_decide; [|apply wp_fail].
  apply wp_ret, HQ. intros x Hx. destruct (Hres r eq_refl) as [bz Hbz].
  apply json_ContractResult_typed in Hbz. unfold typed_result, ContractResult_SubMessages in Hbz.
  by rewrite Hx in Hbz.
Qed.

(** *** The contract's messages *)

Definition sub_ok (ctx : Context) : Prop :=
  Sub (default Policy.DefaultAuthorizationPolicy (ctx_SubMsgPolicy ctx)).
(** What a response handler promises. *)
Record handles (h : Context -> bytes -> string -> list SubMsg -> option bytes -> M (option bytes))
    : Prop := {
  handles_grows ctx addr port msgs data : grows (h ctx addr port msgs data);
  handles_wp ctx addr port msgs data σ a :
    wf_ctx ctx -> sub_ok ctx -> Forall (fun m => typed_msg (Msg m)) msgs ->
    models σ a -> is_Some (contracts a !! addr) ->
    wp (h ctx addr port msgs data) (fun _ => reach a) σ;
}.
Hypothesis handler_ok : handles handler.
Hypothesis query_grows : forall ctx caller r, grows (HandleQuery ctx caller r).

Lemma wp_handleContractResponse ctx addr port r σ a :
  wf_ctx ctx -> sub_ok ctx -> Forall (fun m => typed_msg (Msg m)) (Messages r) ->
  models σ a -> is_Some (contracts a !! addr) ->
  wp (Keeper.handleContractResponse k handler ctx addr port r) (fun _ => reach a) σ.
Proof.
  intros Hc Hs Ht Hm Ha. unfold Keeper.handleContractResponse.
  wp_step. wp_step. wp_step. wp_step. wp_step.
  { apply wp_quiet; [unfold quiet; frame|]. intros _.
    wp_step. apply wp_quiet; [unfold quiet; frame|]. intros _. by apply handles_wp. }
Qed.
Lemma wp_conclude ctx addr i t resp σ a :
  wf_ctx ctx -> sub_ok ctx ->
  (forall x, resp = Some x -> Forall (fun m => typed_msg (Msg m)) (Messages x)) ->
  models σ a -> is_Some (contracts a !! addr) ->
  wp (Keeper.conclude k handler ctx addr i t resp) (fun _ => reach a) σ.
Proof.
  intros Hc Hs Ht Hm Ha. unfold Keeper.conclude, Keeper.deref.
  wp_step. wp_step. wp_step. destruct resp as [x|]; [|apply wp_throw].
  apply wp_ret. apply wp_handleContractResponse; auto.
Qed.

(** *** Execute, sudo and reply *)

#[local] Hint Resolve fr_charge_setup fr_TransferCoins fr_runtimeGas fr_consumeRuntimeGas
  fr_prepare_account fr_ensureIbcPort fr_StoreCode fr_AnalyzeCode fr_deref fr_migrate_port
  fr_IsPinnedCode fr_checkDiscountEligibility : frame.

Ltac quietly := apply wp_quiet; [unfold quiet; frame|intros ?].

Definition typed_response (resp : option Response) : Prop :=
  forall x, resp = Some x -> Forall (fun m => typed_msg (Msg m)) (Messages x).

(** A call into the VM, charged and checked, then [f]. *)
Lemma wp_call {B} gm ctx addr prog g err (f : option Response -> M B) σ a (Q : B -> kvs -> Prop) :
  models σ a ->
  (forall resp σ', models σ' a -> typed_response resp -> wp (f resp) Q σ') ->
  wp (r ← vm_entry gm (Keeper.querier k json_QueryRequest HandleQuery ctx addr)
        (GetContractStorePrefix addr) prog g json_ContractResult ContractResult_SubMessages;
      res ← Keeper.finish_call k r err; f res) Q σ.
Proof.
  intros Hm Hf. apply wp_bind, wp_vm_entry. intros res used σ' Hσ' Hres.
  apply wp_bind, wp_finish_call; [done|]. intros resp Hresp.
  apply Hf; [by eapply models_same_meta|done].
Qed.

Lemma wp_execute ctx addr caller msg coins σ a :
  wf_ctx ctx -> sub_ok ctx -> models σ a ->
  wp (Keeper.execute k json_QueryRequest HandleQuery handler ctx addr caller msg coins)
    (fun _ => reach a) σ.
Proof.
  intros Hc Hs Hm. unfold Keeper.execute, VM_Execute.
  apply wp_bind, (wp_contractInstance addr σ a); [done|]. intros i c Hi Hcode. cbv beta iota.
  wp_step. quietly. wp_step. quietly. wp_step. wp_step. wp_step. quietly.
  apply (wp_call _ _ _ _ _ _ _ σ a); [done|]. intros. by apply wp_conclude.
Qed.
Lemma wp_Sudo ctx addr msg σ a :
  wf_ctx ctx -> sub_ok ctx -> models σ a ->
  wp (Keeper.Sudo k json_QueryRequest HandleQuery handler ctx addr msg) (fun _ => reach a) σ.
Proof.
  intros Hc Hs Hm. unfold Keeper.Sudo, VM_Sudo.
  apply wp_bind, (wp_contractInstance addr σ a); [done|]. intros i c Hi Hcode. cbv beta iota.
  wp_step. quietly. wp_step. wp_step. wp_step. quietly.
  apply (wp_call _ _ _ _ _ _ _ σ a); [done|]. intros. wp_step. by apply wp_conclude.
Qed.
Lemma wp_reply ctx addr rep σ a :
  wf_ctx ctx -> sub_ok ctx -> models σ a ->
  wp (Keeper.reply k json_QueryRequest HandleQuery handler ctx addr rep) (fun _ => reach a) σ.
Proof.
  intros Hc Hs Hm. unfold Keeper.reply, VM_Reply.
  apply wp_bind, (wp_contractInstance addr σ a); [done|]. intros i c Hi Hcode. cbv beta iota.
  wp_step. wp_step. wp_step. wp_step. wp_step. wp_step. wp_step. quietly.
  apply (wp_call _ _ _ _ _ _ _ σ a); [done|]. intros. wp_step. by apply wp_conclude.
Qed.

(** *** Upload *)

Lemma repr_put_code σ' a id c f :
  reads σ' (upd f (KCode id) (Some (marshal c))) -> (forall e, f e = encode a e) ->
  repr σ' (put_code id c a).
Proof.
  intros Hr Hf. eapply reads_ext; [exact Hr|]. intros e _. unfold upd.
  destruct (decide (e = KCode id)) as [->|Hne].
  - cbn [encode put_code codes]. by rewrite lookup_insert_eq.
  - rewrite Hf. destruct e; try done. cbn [encode put_code codes].
    by rewrite lookup_insert_ne by congruence.
Qed.
Lemma storable_put_code a id c : storable a -> stored c -> storable (put_code id c a).
Proof.
  intros [S1 S2 S3 S4] Hc. split; try done. intros id' c'. simpl.
  destruct (decide (id' = id)) as [->|]; simplify_map_eq; [congruence|eauto].
Qed.

Lemma valid_access_wf access :
  AccessConfig_ValidateBasic access = None -> Proto.wf_access (Permission access).
Proof. unfold AccessConfig_ValidateBasic. by destruct (Permission access). Qed.
Lemma With_wf t addrs cfg : With t addrs = Ret cfg -> Proto.wf_access (Permission cfg).
Proof. unfold With. intros E. repeat case_match; simplify_eq; done. Qed.

Lemma binary_roundtrip n : is_u64 n -> binary_Uint64 (Uint64ToBigEndian n) = Ret n.
Proof.
  intros Hn. pose proof (BigEndian_roundtrip n Hn) as E. unfold BigEndianToUint64 in E.
  unfold binary_Uint64. by rewrite length_Uint64ToBigEndian in *.
Qed.

(** The value of a sequence: 1 before its first use. *)
Lemma wp_sequence (o : option N) σ (Q : N -> kvs -> Prop) :
  (default 1 o <= MaxUint64)%N -> Q (default 1%N o) σ ->
  wp (match Uint64ToBigEndian <$> o with
      | None => mret 1%N | Some bz => lift (binary_Uint64 bz) end) Q σ.
Proof.
  intros Hs HQ. destruct o as [n|]; [|by apply wp_ret].
  change (Uint64ToBigEndian <$> Some n) with (Some (Uint64ToBigEndian n)). cbv beta iota.
  simpl in Hs. rewrite binary_roundtrip by (unfold is_u64, MaxUint64, two64 in *; lia).
  by apply wp_lift_ret.
Qed.

(** mustAutoIncrementID on the code sequence: the id, and the next one. *)
Lemma wp_next_code σ a (Q : N -> kvs -> Prop) :
  models σ a -> (code_seq a < MaxUint64)%N ->
  (forall σ', repr σ' (put_next_code (code_seq a + 1) a) -> Q (code_seq a) σ') ->
  wp (mustAutoIncrementID KeySequenceCodeID) Q σ.
Proof.
  intros (Hr & C & St & _) Hs HQ. unfold mustAutoIncrementID. apply wp_bind, wp_must, wp_kv_get.
  change KeySequenceCodeID with (entry_key KSequenceCodeID).
  rewrite (Hr KSequenceCodeID) by done. cbn [encode].
  apply wp_bind, wp_sequence; [unfold code_seq in *; lia|].
  apply wp_bind, wp_must, (wp_write σ _ Hr); [done|]. intros σ' Hσ'.
  apply wp_ret, HQ. fold (code_seq a) in Hσ'. rewrite add64_exact in Hσ' by (unfold MaxUint64, two64 in *; lia).
  eapply reads_ext; [exact Hσ'|]. intros e _. unfold upd.
  by destruct (decide (e = KSequenceCodeID)) as [->|]; [|destruct e].
Qed.
(** The last one. *)
Lemma wp_last_code σ a (Q : N -> kvs -> Prop) :
  models σ a -> code_seq a = MaxUint64 -> (forall σ', Q MaxUint64 σ') ->
  wp (mustAutoIncrementID KeySequenceCodeID) Q σ.
Proof.
  intros (Hr & C & St & _) Hs HQ. unfold mustAutoIncrementID. apply wp_bind, wp_must, wp_kv_get.
  change KeySequenceCodeID with (entry_key KSequenceCodeID).
  rewrite (Hr KSequenceCodeID) by done. cbn [encode].
  apply wp_bind, wp_sequence; [unfold code_seq in *; lia|].
  apply wp_bind, wp_must, wp_kv_set, wp_ret. fold (code_seq a). rewrite Hs. apply HQ.
Qed.
Lemma wp_create ctx actor code access p σ a (Q : N * bytes -> kvs -> Prop) :
  models σ a -> acts a p actor ->
  (forall ac, access = Some ac -> AccessConfig_ValidateBasic ac = None) ->
  (forall id hash σ' a', step a a' -> models σ' a' -> is_u64 id ->
     CodeHash <$> codes a' !! id = Some hash -> Q (id, hash) σ') ->
  (forall x σ', full σ' -> Q x σ') ->
  wp (Keeper.create k ctx (Some actor) code access p) Q σ.
Proof.
  intros Hm Hacts Hacc HQ Hex. unfold Keeper.create, getInstantiateAccessConfig, getUploadAccessConfig.
  wp_step. wp_step. do 2 apply wp_bind. apply (wp_params σ a); [done|]. intros ps Hps.
  apply wp_ret, wp_bind, wp_lift. intros dflt Hdflt. cbv zeta.
  do 2 apply wp_bind. apply (wp_params σ a); [done|]. intros ps' Hps'.
  rewrite Hps in Hps'. injection Hps' as <-.
  apply wp_ret, wp_bind, wp_lift. intros ok Hok. apply wp_bind, wp_guard. intros ->%negb_false_iff.
  apply wp_bind, wp_quiet; [unfold quiet, Keeper.uncompress_code; frame|]. intros code'.
  apply wp_bind. quietly. apply wp_bind. quietly. case_match; subst.
  apply wp_bind. quietly. case_match; subst; [|apply wp_fail].
  apply wp_bind. quietly. case_match; subst; [|apply wp_fail].
  destruct (decide (code_seq a = MaxUint64)) as [Hmax|Hmax].
  { apply wp_bind, (wp_last_code σ a); [done|done|]. intros σ1. apply wp_bind.
    unfold mustStoreCodeInfo. apply wp_bind, wp_MustMarshal. intros _.
    apply wp_must, wp_kv_set. wp_step. wp_step. wp_step. apply Hex. left.
    rewrite lookup_insert_eq. by eexists. }
  assert (code_seq a < MaxUint64)%N as Hlt.
  { pose proof (coh_code_seq a ltac:(apply Hm)). lia. }
  apply wp_bind, (wp_next_code σ a); [done|done|]. intros σ1 Hσ1.
  apply wp_bind. unfold mustStoreCodeInfo. apply wp_bind, wp_MustMarshal. intros Hsize.
  apply wp_must, (wp_write σ1 _ Hσ1 (KCode (code_seq a)));
    [split; [|done]; simpl; unfold is_u64, MaxUint64, two64 in *; lia|].
  intros σ2 Hσ2. wp_step. wp_step. wp_step.
  eapply (HQ _ _ _ (put_code (code_seq a) (NewCodeInfo _ (Some actor) (default dflt access))
           (put_next_code (code_seq a + 1) a))); [apply step_create with p; try done|..].
  - by exists ps, dflt.
  - destruct Hm as (Hr & C & St & Kn). split_and!; [| | |done].
    + by eapply repr_put_code.
    + by apply coherent_create.
    + apply storable_put_code; [by destruct St; split|]. split; [|done]. simpl.
      destruct access as [ac|]; simpl; [by apply valid_access_wf, Hacc|by eapply With_wf].
  - unfold is_u64, MaxUint64, two64 in *. lia.
  - simpl. by rewrite lookup_insert_eq.
Qed.

(** *** Instantiation *)

Lemma acts_present_gov a p actor :
  known a -> acts a p actor -> governs (authority k) actor ->
  sender actor \/ old actor \/ derived actor.
Proof. intros Kn ([Hs|Hc] & _) _; [by left|right]. by apply Kn. Qed.
(** The policy an actor hands to the messages of the contract it calls. *)
Lemma acts_hands_down a p actor action :
  known a -> acts a p actor -> Sub (Policy.SubMessageAuthorizationPolicy p action).
Proof.
  intros Kn Ha. pose proof Ha as (_ & _ & [Hs|[Hg ->]]); [by apply Sub_closed|].
  eapply Sub_gov; [done|]. by eapply acts_present_gov.
Qed.
Lemma acts_same_contracts a a' p actor :
  contracts a' = contracts a -> acts a p actor -> acts a' p actor.
Proof. intros E (Hp & ? & ?). split; [|done]. unfold present in *. by rewrite E. Qed.

Lemma storable_push a addr i e :
  storable a -> stored i -> stored e -> storable (put_contract addr i (push_history addr e a)).
Proof.
  intros [S1 S2 S3 S4] Hi He. split; try done.
  - intros addr' i'. simpl. destruct (decide (addr' = addr)) as [->|]; simplify_map_eq; [congruence|eauto].
  - intros addr' e'. change (history_of _ addr') with (history_of (push_history addr e a) addr').
    rewrite history_of_insert. destruct (decide _) as [->|]; [|eauto].
    rewrite elem_of_app, list_elem_of_singleton. intros [?| ->]; eauto.
Qed.
Lemma known_put a addr i e :
  known a -> derived addr -> known (put_contract addr i (push_history addr e a)).
Proof.
  intros Kn Hd x [j Hj]. simpl in Hj. destruct (decide (x = addr)) as [->|]; [by right|].
  rewrite lookup_insert_ne in Hj by done. apply Kn. by exists j.
Qed.

(** An address generator leaves codes and contracts alone and derives the
    address. *)
Definition gen_ok (gen : Context -> N -> bytes -> M bytes) : Prop :=
  forall ctx id hash σ a (Q : bytes -> kvs -> Prop),
  models σ a ->
  (forall addr σ' a', steps a a' -> models σ' a' -> codes a' = codes a ->
     contracts a' = contracts a -> derived addr -> Q addr σ') ->
  wp (gen ctx id hash) Q σ.
Lemma contract_address_derived key addr :
  Keeper.contract_address (address_Module ModuleName key) = Ret addr -> derived addr.
Proof. unfold Keeper.contract_address. case_match; [done|]. intros [= <-]. by exists key. Qed.
Lemma PredictableAddressGenerator_ok c salt msg fix_ :
  gen_ok (Keeper.PredictableAddressGenerator c salt msg fix_).
Proof.
  intros ctx id hash σ a Q Hm HQ. unfold Keeper.PredictableAddressGenerator.
  apply wp_lift. intros addr E. apply (HQ addr σ a); [apply rtc_refl|done..|].
  unfold Keeper.BuildContractAddressPredictable in E. repeat case_match; try done.
  all: by eapply contract_address_derived.
Qed.

Lemma wp_next_instance σ a (Q : N -> kvs -> Prop) :
  models σ a ->
  (forall σ' n, models σ' (put_next_instance (add64 (instance_seq a) 1) a) -> Q n σ') ->
  wp (mustAutoIncrementID KeySequenceInstanceID) Q σ.
Proof.
  intros (Hr & C & St & Kn) HQ. unfold mustAutoIncrementID. apply wp_bind, wp_must, wp_kv_get.
  change KeySequenceInstanceID with (entry_key KSequenceInstanceID).
  rewrite (Hr KSequenceInstanceID) by done. cbn [encode].
  pose proof (coh_instance_seq a C) as Hs.
  apply wp_bind, wp_sequence; [unfold instance_seq in *; lia|].
  apply wp_bind, wp_must, (wp_write σ _ Hr); [done|]. intros σ' Hσ'.
  apply wp_ret, HQ. split_and!; [| |by destruct St; split|done].
  - eapply reads_ext; [exact Hσ'|]. intros e _. unfold upd.
    by destruct (decide (e = KSequenceInstanceID)) as [->|]; [|destruct e].
  - eapply (step_coherent (authority k) (propagateGovAuthorization k) Sub sender);
      [done|apply step_instance].
Qed.
Lemma ClassicAddressGenerator_ok : gen_ok Keeper.ClassicAddressGenerator.
Proof.
  intros ctx id hash σ a Q Hm HQ. unfold Keeper.ClassicAddressGenerator.
  apply wp_bind, (wp_next_instance σ a); [done|]. intros σ' n Hm'.
  apply wp_lift. intros addr E. eapply HQ; [|exact Hm'|done..|].
  - apply rtc_once, step_instance.
  - by eapply contract_address_derived.
Qed.

Lemma wp_weaken_reach {A} (m : M A) a a' σ :
  steps a a' -> wp m (fun _ => reach a') σ -> wp m (fun _ => reach a) σ.
Proof.
  intros S Hm. eapply wp_mono; [exact Hm|]. intros x σ'. by apply reach_steps.
Qed.

(** The contract of an instantiation: what persist_instance stores. *)
Lemma stored_instance id actor admin label pos port :
  is_u64 id -> wf_position pos ->
  let i := set_IBCPortID port (NewContractInfo id (Some actor) admin label pos) in
  codec_wf i /\ (forall msg, codec_wf (InitialHistory i msg)).
Proof.
  intros Hid Hpos i. split.
  - split; [done|]. split; [by intros p [= <-]|]. apply unpack_nil.
  - intros msg. split_and!; [done..|by intros p [= <-]].
Qed.

Lemma wp_persist_new p actor addr id code admin label pos port msg σ a
    (Q : unit -> kvs -> Prop) :
  let i := set_IBCPortID port (NewContractInfo id (Some actor) admin label pos) in
  models σ a -> acts a p actor -> codes a !! id = Some code -> can_use p actor code ->
  contracts a !! addr = None -> derived addr -> wf_position pos ->
  (forall σ' a', step a a' -> models σ' a' -> is_Some (contracts a' !! addr) -> Q tt σ') ->
  wp (Keeper.persist_instance addr (Some actor) i msg) Q σ.
Proof.
  intros i Hm Hacts Hcode Huse Hn Hd Hpos HQ. pose proof (code_u64 _ _ _ _ Hm Hcode) as Hid.
  destruct Hm as (Hr & C & St & Kn).
  destruct (stored_instance id actor admin label pos port Hid Hpos) as [Wi We].
  apply (wp_persist_instance a σ addr actor i msg pos); try done.
  { apply Hacts. }
  intros σ' Hr' Hs1 Hs2.
  assert (step a (put_contract addr i (push_history addr (InitialHistory i msg) a))) as S
    by by eapply step_instantiate.
  apply (HQ σ' _ S); [|simpl; by rewrite lookup_insert_eq].
  split_and!; [done| | |by apply known_put].
  - by eapply step_coherent.
  - apply storable_push; [done|by split|split; [apply We|done]].
Qed.

Lemma wp_instantiate ctx id actor admin msg label deposit gen p σ a :
  wf_ctx ctx -> models σ a -> acts a p actor -> is_u64 id -> gen_ok gen ->
  wp (Keeper.instantiate k json_QueryRequest HandleQuery handler ctx id (Some actor) admin msg
        label deposit gen p) (fun _ => reach a) σ.
Proof.
  intros Hctx Hm Hacts Hid Hgen. unfold Keeper.instantiate, VM_Instantiate.
  wp_step. wp_step. apply wp_bind, (wp_code id σ a); [done|done|].
  destruct (codes a !! id) as [code|] eqn:Hcode; [|apply wp_fail].
  apply wp_bind. quietly. apply wp_bind, wp_lift. intros ok Hok.
  apply wp_bind, wp_guard. intros ->%negb_false_iff.
  apply wp_bind, (Hgen _ _ _ σ a); [done|]. intros addr σ1 a1 S1 Hm1 Hco Hct Hd.
  eapply wp_weaken_reach; [exact S1|]. clear S1 Hm σ.
  apply (acts_same_contracts a a1) in Hacts; [|done]. rewrite <- Hco in Hcode. clear Hco Hct a.
  apply wp_bind, (wp_HasContractInfo σ1 _ (proj1 Hm1) addr (contracts a1 !! addr)); [done|].
  apply wp_bind, wp_guard. intros Hn%bool_decide_eq_false. apply eq_None_not_Some in Hn.
  apply wp_bind. quietly. apply wp_bind. quietly. apply wp_bind, wp_lift. intros env _. cbv zeta.
  apply wp_bind. quietly. apply (wp_call _ _ _ _ _ _ _ σ1 a1); [done|].
  intros resp σ2 Hm2 Hresp. apply wp_bind, wp_lift. intros pos Hpos.
  apply (wf_ctx_position _ _ Hctx) in Hpos. cbv zeta. apply wp_bind. quietly.
  case_match; subst; [|apply wp_fail].
  set (i0 := NewContractInfo id (Some actor) admin label pos).
  apply wp_bind. eapply (wp_mono _ (fun i σ' => σ' = σ2 /\ exists port, i = set_IBCPortID port i0)).
  { case_match.
    - apply wp_bind. quietly. apply wp_ret. by split; [|eexists].
    - apply wp_ret. split; [done|]. by exists EmptyString. }
  intros i σ' [-> [port ->]]. apply wp_bind.
  eapply (wp_persist_new p actor addr id code); try done. intros σ3 b3 S3 Hm3 Hb3.
  eapply wp_weaken_reach; [by apply rtc_once|].
  wp_step. wp_step. cbv zeta. apply wp_bind. unfold Keeper.deref.
  destruct resp as [resp|]; [|apply wp_throw]. apply wp_ret.
  apply wp_reach_bind; [unfold grows; frame| |intros; apply wp_ret; by apply reach_refl].
  wp_step. apply wp_handleContractResponse; try done; [|by apply Hresp].
  unfold sub_ok. simpl. eapply acts_hands_down; [|exact Hacts]. apply Hm1.
Qed.

(** *** Migration *)

Lemma wp_callMigrateEntrypoint ctx addr hash msg id actor v σ a (Q : option Response -> kvs -> Prop) :
  models σ a -> (forall resp σ', models σ' a -> typed_response resp -> Q resp σ') ->
  wp (Keeper.callMigrateEntrypoint k json_QueryRequest HandleQuery ctx addr hash msg id actor v) Q σ.
Proof.
  intros Hm HQ. unfold Keeper.callMigrateEntrypoint, VM_MigrateWithInfo.
  apply wp_bind. quietly. apply wp_bind, wp_lift. intros env _. apply wp_bind. quietly. cbv zeta.
  apply wp_bind, wp_vm_entry. intros res used σ' Hσ' Hres.
  apply wp_finish_call; [done|]. intros resp Hresp.
  apply HQ; [by eapply models_same_meta|done].
Qed.
Lemma wp_migrate_port ctx addr i report σ (Q : ContractInfo -> kvs -> Prop) :
  (forall port, Q (set_IBCPortID port i) σ) -> wp (Keeper.migrate_port ctx addr i report) Q σ.
Proof.
  intros HQ. unfold Keeper.migrate_port. case_match; [apply wp_fail|]. case_match.
  - apply wp_bind. quietly. apply wp_ret, HQ.
  - apply wp_ret. specialize (HQ (IBCPortID i)). by destruct i.
Qed.

(** The last position of a history is in use. *)
Lemma full_history σ a addr :
  repr σ a -> ~ (N.of_nat (length (history_of a addr)) < MaxUint64)%N -> full σ.
Proof.
  intros Hr Hge. right. exists addr.
  change (GetContractCodeHistoryElementKey addr MaxUint64) with (entry_key (KHistory addr MaxUint64)).
  rewrite (Hr (KHistory addr MaxUint64)) by done. cbn [encode].
  rewrite (proj2 (N.eqb_neq MaxUint64 0)) by done. apply fmap_is_Some, lookup_lt_is_Some.
  assert (0 < MaxUint64)%N as Hpos by done. lia.
Qed.
Lemma wp_persist_migrated ctx p actor addr i id code port msg σ a (Q : ContractInfo -> kvs -> Prop) :
  wf_ctx ctx -> models σ a -> acts a p actor -> contracts a !! addr = Some i ->
  can_modify p actor i -> codes a !! id = Some code -> can_use p actor code ->
  (forall x σ', full σ' -> Q x σ') ->
  (forall x σ' a', step a a' -> models σ' a' -> is_Some (contracts a' !! addr) -> Q x σ') ->
  wp (Keeper.persist_migration ctx addr (set_IBCPortID port i) id msg) Q σ.
Proof.
  intros Hctx Hm Hacts Hi Hmod Hcode Huse Hex HQ.
  pose proof (code_u64 _ _ _ _ Hm Hcode) as Hid. destruct Hm as (Hr & C & St & Kn).
  destruct (decide (N.of_nat (length (history_of a addr)) < MaxUint64)%N) as [Hlt|Hge].
  2: { eapply wp_mono; [apply wp_full|apply Hex]; [apply fr_persist_migration; apply _|].
       by eapply full_history. }
  apply (wp_persist_migration a σ ctx addr i); try done.
  intros σ' pos Hpos. cbn [AddMigration]. intros Hr' Hs1 Hs2.
  assert (step a (put_contract addr (set_CodeID id (set_IBCPortID port i))
    (push_history addr (mkHistoryEntry ContractCodeHistoryOperationTypeMigrate id (Some pos) msg) a)))
    as S by by eapply (step_migrate _ _ _ _ a p actor addr i id code pos port msg).
  apply (HQ _ σ' _ S); [|simpl; by rewrite lookup_insert_eq].
  destruct (sto_contracts a St _ _ Hi) as [(_ & Hp & Hx) _].
  split_and!; [done|by eapply step_coherent| |].
  - apply storable_push; [done| |]; (split; [|done]).
    + by split_and!.
    + split_and!; [done..|by intros p' [= <-]].
  - intros x [j Hj]. simpl in Hj. apply Kn. destruct (decide (x = addr)) as [->|]; [by eexists|].
    rewrite lookup_insert_ne in Hj by done. by eexists.
Qed.

Lemma wp_migrate ctx addr actor id msg p σ a :
  wf_ctx ctx -> models σ a -> acts a p actor -> is_u64 id ->
  wp (Keeper.migrate k json_QueryRequest HandleQuery handler ctx addr (Some actor) id msg p)
    (fun _ => reach a) σ.
Proof.
  intros Hctx Hm Hacts Hid. unfold Keeper.migrate.
  apply wp_bind, (wp_contract addr σ a); [done|].
  destruct (contracts a !! addr) as [i|] eqn:Hi; [|apply wp_fail].
  apply wp_bind, wp_lift. intros admin Hadmin. apply wp_bind, wp_guard.
  intros Hmod%negb_false_iff. assert (can_modify p actor i) as Hcan by by exists admin.
  apply wp_bind, (wp_code id σ a); [done|done|].
  destruct (codes a !! id) as [code|] eqn:Hcode; [|apply wp_fail].
  apply wp_bind, wp_lift. intros ok Hok. apply wp_bind, wp_guard. intros ->%negb_false_iff.
  apply wp_bind. quietly. case_match; subst; [|apply wp_fail].
  apply wp_bind, wp_migrate_port. intros port.
  apply wp_bind, (wp_code _ σ a); [done|by apply (sto_contracts a ltac:(apply Hm) _ _ Hi)|].
  apply wp_bind. quietly. apply wp_bind. quietly. case_match; subst; [|apply wp_fail].
  apply wp_bind. eapply (wp_mono _ (fun resp σ' => models σ' a /\ typed_response resp)).
  { case_match; [by apply wp_ret|]. by eapply wp_callMigrateEntrypoint. }
  intros resp σ' [Hm' Hresp]. apply wp_bind.
  eapply (wp_persist_migrated ctx p actor addr i id code port msg); try done.
  { intros x σ'' Hf. apply wp_reach_full; [|done]. unfold grows. frame.
    apply fr_handleContractResponse; [apply _..|]. apply handler_ok. }
  intros i' σ'' b S Hb Hs. eapply wp_weaken_reach; [by apply rtc_once|].
  wp_step. wp_step. destruct resp as [resp|]; [|apply wp_ret; by apply reach_refl].
  cbv zeta. wp_step. apply wp_handleContractResponse; try done; [|by apply Hresp].
  unfold sub_ok. simpl. eapply acts_hands_down; [|exact Hacts]. apply Hm.
Qed.

(** *** Administration *)

Lemma wp_update_contract addr i i' σ a (Q : unit -> kvs -> Prop) :
  models σ a -> contracts a !! addr = Some i ->
  CodeID i' = CodeID i -> Creator i' = Creator i -> Created i' = Created i ->
  Extension i' = Extension i -> step a (put_contract addr i' a) ->
  (forall σ', models σ' (put_contract addr i' a) -> Q tt σ') ->
  wp (mustStoreContractInfo addr i') Q σ.
Proof.
  intros (Hr & C & St & Kn) Hi Hid Hc Hp Hx S HQ. unfold mustStoreContractInfo.
  apply wp_bind, wp_MustMarshal. intros Hsize. apply wp_must.
  apply (wp_write σ _ Hr (KContract addr)); [done|]. intros σ' Hσ'. apply HQ.
  destruct (sto_contracts a St _ _ Hi) as [(Wid & Wp & Wx) _]. split_and!.
  - eapply reads_ext; [exact Hσ'|]. intros e _. unfold upd.
    destruct (decide (e = KContract addr)) as [->|Hne].
    + cbn [encode put_contract contracts]. by rewrite lookup_insert_eq.
    + destruct e; try done; [|by rewrite (put_same_creator a addr i)].
      cbn [encode put_contract contracts]. by rewrite lookup_insert_ne by congruence.
  - by eapply step_coherent.
  - destruct St as [S1 S2 S3 S4]. split; try done. intros addr' j. simpl.
    destruct (decide (addr' = addr)) as [->|]; simplify_map_eq; [|eauto].
    intros [= <-]. split; [|done]. split_and!; [by rewrite Hid|by rewrite Hp|by rewrite Hx].
  - intros x [j Hj]. simpl in Hj. apply Kn. destruct (decide (x = addr)) as [->|]; [by eexists|].
    rewrite lookup_insert_ne in Hj by done. by eexists.
Qed.
Lemma wp_modifiable addr actor p σ a (Q : ContractInfo -> kvs -> Prop) :
  models σ a ->
  (forall i, contracts a !! addr = Some i -> can_modify p actor i -> Q i σ) ->
  wp (Keeper.modifiable_contract addr (Some actor) p) Q σ.
Proof.
  intros Hm HQ. unfold Keeper.modifiable_contract. apply wp_bind, (wp_contract addr σ a); [done|].
  destruct (contracts a !! addr) as [i|] eqn:Hi; [|apply wp_fail].
  apply wp_bind, wp_lift. intros admin Hadmin. apply wp_bind, wp_guard.
  intros Hmod%negb_false_iff. apply wp_ret, HQ; [done|]. by exists admin.
Qed.
Lemma wp_setContractAdmin addr actor admin p σ a :
  models σ a -> acts a p actor ->
  wp (Keeper.setContractAdmin addr (Some actor) admin p) (fun _ => reach a) σ.
Proof.
  intros Hm Hacts. unfold Keeper.setContractAdmin.
  apply wp_bind, (wp_modifiable addr actor p σ a); [done|]. intros i Hi Hmod. cbv zeta.
  assert (step a (put_contract addr (set_Admin (acc_string admin) i) a)) as S
    by by eapply step_admin.
  apply wp_bind, (wp_update_contract addr i _ σ a); try done. intros σ' Hm'.
  wp_step. eapply reach_step; [exact S|]. by apply reach_refl.
Qed.
Lemma wp_setContractLabel addr actor label p σ a :
  models σ a -> acts a p actor ->
  wp (Keeper.setContractLabel addr (Some actor) label p) (fun _ => reach a) σ.
Proof.
  intros Hm Hacts. unfold Keeper.setContractLabel.
  apply wp_bind, (wp_modifiable addr actor p σ a); [done|]. intros i Hi Hmod.
  assert (step a (put_contract addr (set_Label label i) a)) as S by by eapply step_label.
  apply wp_bind, (wp_update_contract addr i _ σ a); try done. intros σ' Hm'.
  wp_step. eapply reach_step; [exact S|]. by apply reach_refl.
Qed.

Lemma wp_setAccessConfig id actor cfg p σ a :
  models σ a -> acts a p actor -> is_u64 id -> AccessConfig_ValidateBasic cfg = None ->
  wp (Keeper.setAccessConfig id (Some actor) cfg p) (fun _ => reach a) σ.
Proof.
  intros Hm Hacts Hid Hcfg. unfold Keeper.setAccessConfig, getInstantiateAccessConfig.
  apply wp_bind, (wp_code id σ a); [done|done|].
  destruct (codes a !! id) as [c|] eqn:Hc; [|apply wp_fail].
  do 2 apply wp_bind. apply (wp_params σ a); [done|]. intros ps Hps. apply wp_ret. cbv zeta.
  apply wp_bind. destruct (AccAddressFromBech32 (CodeCreator c)) as [creator|] eqn:Hcr;
    [|apply wp_throw]. apply wp_ret, wp_bind, wp_guard. intros Hcan%negb_false_iff.
  assert (step a (put_code id (mkCodeInfo (CodeHash c) (CodeCreator c) cfg) a)) as S.
  { eapply step_configure; [exact Hacts|done|]. by exists ps, creator. }
  destruct Hm as (Hr & C & St & Kn).
  apply wp_bind. unfold mustStoreCodeInfo. apply wp_bind, wp_MustMarshal. intros Hsize.
  apply wp_must, (wp_write σ _ Hr (KCode id)); [done|]. intros σ' Hσ'. wp_step.
  eapply reach_step; [exact S|]. apply reach_refl. split_and!; [| | |done].
  - by eapply repr_put_code.
  - by eapply step_coherent.
  - apply storable_put_code; [done|]. split; [|done]. by apply valid_access_wf.
Qed.

(** *** Parameters and pins *)

Lemma wp_SetParams actor ps σ a :
  models σ a -> present sender a actor -> governs (authority k) actor -> codec_wf ps ->
  wp (SetParams ps) (fun _ => reach a) σ.
Proof.
  intros (Hr & C & St & Kn) Hp Hg Hwf. unfold SetParams.
  apply (wp_record σ _ Hr KParams); [done|]. intros Hsize σ' Hσ'.
  assert (step a (put_params ps a)) as S by by eapply step_params.
  eapply reach_step; [exact S|]. apply reach_refl. split_and!; [| | |done].
  - eapply reads_ext; [exact Hσ'|]. intros e _. unfold upd.
    by destruct (decide (e = KParams)) as [->|]; [|destruct e].
  - by eapply step_coherent.
  - destruct St. split; try done. intros ps' [= <-]. by split.
Qed.

Lemma wp_pinCode actor id σ a :
  models σ a -> present sender a actor -> governs (authority k) actor -> is_u64 id ->
  wp (Keeper.pinCode id) (fun _ => reach a) σ.
Proof.
  intros Hm Hp Hg Hid. unfold Keeper.pinCode, VM_Pin.
  apply wp_bind, (wp_code id σ a); [done|done|].
  destruct (codes a !! id) as [c|] eqn:Hc; [|apply wp_fail].
  apply wp_bind, wp_quiet; [unfold quiet; frame; apply preserves_modify; intros; apply sf_vm|].
  intros [err|]; [apply wp_fail|]. destruct Hm as (Hr & C & St & Kn).
  apply wp_bind, (wp_write σ _ Hr (KPinned id)); [done|]. intros σ' Hσ'. wp_step.
  assert (step a (put_pinned ({[id]} ∪ pinned a) a)) as S by by eapply step_pin.
  eapply reach_step; [exact S|]. apply reach_refl. split_and!; [| |by destruct St; split|done].
  - by apply (repr_put_pinned σ σ' a id true).
  - by eapply step_coherent.
Qed.
Lemma wp_unpinCode actor id σ a :
  models σ a -> present sender a actor -> governs (authority k) actor -> is_u64 id ->
  wp (Keeper.unpinCode id) (fun _ => reach a) σ.
Proof.
  intros Hm Hp Hg Hid. unfold Keeper.unpinCode, VM_Unpin.
  apply wp_bind, (wp_code id σ a); [done|done|].
  destruct (codes a !! id) as [c|] eqn:Hc; [|apply wp_fail].
  apply wp_bind, wp_quiet; [unfold quiet; frame; apply preserves_modify; intros; apply sf_vm|].
  intros [err|]; [apply wp_fail|]. destruct Hm as (Hr & C & St & Kn).
  apply wp_bind, (wp_erase σ _ Hr (KPinned id)); [done|]. intros σ' Hσ'. wp_step.
  assert (step a (put_pinned (pinned a ∖ {[id]}) a)) as S by by eapply step_unpin.
  eapply reach_step; [exact S|]. apply reach_refl. split_and!; [| |by destruct St; split|done].
  - by apply (repr_put_pinned σ σ' a id false).
  - by eapply step_coherent.
Qed.

End Ops.
End RefineKeeper.
