(* ===== verification/RelayRefine.v ===== *)
(** IBC implements the registry: whatever ibc-go and its middlewares deliver to
    the module, a call that is committed takes a store that represents a
    registry to one that represents a registry reached by permitted steps. *)
From S2P Require Import Prelude Errors GoStrings Json Types Proto Keys VMTypes Policy GasRegister Chain Logic Wp Engine Store Registry Events Keeper Dispatcher Msgs MsgServer KeeperFrame Encoders Messenger QueryPlugins Relay System SystemFrame Refinement RefineKeeper.
Import GoStrings Keys Store.Store Events.Events Keeper.Keeper.
Open Scope wasm_scope.

(** The code ids in the messages of IBC responses are uint64. *)
Class IBCEngineLaws `{IBCEngine} : Prop := {
  json_IBCBasicResult_typed bz r : json_IBCBasicResult bz = inl r ->
    Forall (fun m => typed_msg (Msg m)) (IBCBasicResult_SubMessages r);
  json_IBCReceiveResult_typed bz r : json_IBCReceiveResult bz = inl r ->
    Forall (fun m => typed_msg (Msg m)) (IBCReceiveResult_SubMessages r);
}.

Module RelayRefine.
Import Registry.Registry Refinement.Refinement RefineKeeper.RefineKeeper Relay.Relay.

Section Refine.
Context `{GasMeters, Modules, KVStorePkg, Bech32, ErrorsMod, UnicodeTables,
  AddressPkg, CoinsPkg, Codecs, Gzip, VerificationPkg}.
Context `{!WasmEngine, !Keepers, !ICS4, !QueryKeepers, !IBCEngine, !IBCCore}.
Context `{!Bech32Laws, !AddressPkgLaws, !CodecsLaws, !WasmEngineLaws, !IBCEngineLaws}.
Context (k : KeeperConfig).
Context (json_QueryRequest : bytes -> QueryRequest + string).
Context (HandleQuery : Context -> bytes -> QueryRequest -> M bytes).
Context (handler : Context -> bytes -> string -> list SubMsg -> option bytes -> M (option bytes)).
Context (Sub : Policy.AuthorizationPolicy -> Prop) (sender old : bytes -> Prop).
Hypothesis handler_ok : handles k Sub sender old handler.

#[local] Abbreviation models := (models old).
#[local] Abbreviation reach := (reach k Sub sender old).

#[local] Hint Resolve fr_runtimeGas fr_consumeRuntimeGas fr_deref : frame.
Ltac quietly := apply wp_quiet; [unfold quiet; frame|intros ?].

Lemma wp_ibc_call {A} ctx addr (prog : VMState -> bytes -> Env -> N -> VMProg)
    (decode : bytes -> A + string) sub σ a (Q : ContractInfo * (A + string) -> kvs -> Prop) :
  models σ a ->
  (forall i res σ', models σ' a -> is_Some (contracts a !! addr) ->
     (forall r, res = inl r -> exists bz, decode bz = inl r) -> Q (i, res) σ') ->
  wp (ibc_call k json_QueryRequest HandleQuery ctx addr
        (fun q prefix checksum env gas =>
           vm_entry (ibc_meters k) q prefix (fun v => prog v checksum env gas) gas decode sub)) Q σ.
Proof.
  intros Hm HQ. unfold ibc_call.
  apply wp_bind, (wp_contractInstance old addr σ a); [done|]. intros i c Hi Hcode. cbv beta iota.
  wp_step. wp_step. wp_step. quietly. wp_step. apply wp_vm_entry. intros res used σ' Hσ' Hres.
  cbv beta iota. wp_step. quietly. wp_step. apply HQ; [by eapply models_same_meta|by eexists|done].
Qed.

Lemma wp_finish_basic ctx addr i res σ a :
  wf_ctx ctx -> sub_ok Sub ctx -> models σ a -> is_Some (contracts a !! addr) ->
  (forall r, res = inl r -> exists bz, json_IBCBasicResult bz = inl r) ->
  wp (finish_basic k handler ctx addr (i, res)) (fun _ => reach a) σ.
Proof.
  intros Hc Hs Hm Ha Hres. unfold finish_basic.
  destruct res as [r|]; [|apply wp_fail]. case_decide; [|apply wp_fail].
  unfold handleIBCBasicContractResponse, Keeper.deref. wp_step.
  destruct (IBR_Ok r) as [x|] eqn:Ex; [|apply wp_throw]. wp_step.
  destruct (Hres r eq_refl) as [bz Hbz]. apply json_IBCBasicResult_typed in Hbz.
  unfold IBCBasicResult_SubMessages in Hbz. rewrite Ex in Hbz.
  apply wp_reach_bind; [unfold grows; frame|by apply wp_handleContractResponse|].
  intros. apply wp_ret. by apply reach_refl.
Qed.

(** A handler with a basic result. *)
Lemma wp_basic ctx addr (prog : VMState -> bytes -> Env -> N -> VMProg) σ a :
  wf_ctx ctx -> sub_ok Sub ctx -> models σ a ->
  wp (r ← ibc_call k json_QueryRequest HandleQuery ctx addr
        (fun q prefix checksum env gas =>
           vm_entry (ibc_meters k) q prefix (fun v => prog v checksum env gas) gas
             json_IBCBasicResult IBCBasicResult_SubMessages);
      finish_basic k handler ctx addr r) (fun _ => reach a) σ.
Proof.
  intros Hc Hs Hm. wp_step. eapply wp_ibc_call; [exact Hm|]. intros. by apply wp_finish_basic.
Qed.

Lemma tidy_StoreAsyncAckPacket p : tidy (StoreAsyncAckPacket p).
Proof.
  unfold tidy, StoreAsyncAckPacket, MustMarshal. frame.
  apply preserves_kv_set, touch_kv_frame; [apply _|]. eexists. right. right. reflexivity.
Qed.

Lemma grows_StoreAsyncAckPacket p : grows (StoreAsyncAckPacket p).
Proof.
  unfold grows, StoreAsyncAckPacket, MustMarshal. frame. apply preserves_kv_set; [apply _|]. split; intros.
  - intros key _ Hs. simpl. destruct (decide (key = packet_key p)) as [->|];
      [rewrite lookup_insert_eq; by eexists|by rewrite lookup_insert_ne].
  - apply write_delete. first_byte.
Qed.
Lemma wp_OnRecvPacket ctx addr msg σ a :
  wf_ctx ctx -> sub_ok Sub ctx -> models σ a ->
  wp (OnRecvPacket k json_QueryRequest HandleQuery handler ctx addr msg) (fun _ => reach a) σ.
Proof.
  intros Hc Hs Hm. unfold OnRecvPacket, VM_IBCPacketReceive. wp_step.
  eapply wp_ibc_call; [exact Hm|]. intros i res σ' Hm' Ha Hres. cbv beta iota.
  destruct res as [r|]; [|apply wp_throw]. case_decide; [|by apply wp_ret, reach_refl].
  unfold Keeper.deref. wp_step. destruct (IRR_Ok r) as [x|] eqn:Ex; [|apply wp_throw]. wp_step.
  destruct (Hres r eq_refl) as [bz Hbz]. apply json_IBCReceiveResult_typed in Hbz.
  unfold IBCReceiveResult_SubMessages in Hbz. rewrite Ex in Hbz.
  apply wp_reach_bind; [|by apply wp_handleContractResponse|].
  { intros x0. unfold grows. frame. apply grows_StoreAsyncAckPacket. }
  intros data a' σ'' _ Hm''. destruct data; [by apply wp_ret, reach_refl|].
  wp_step. apply wp_tidy; [apply tidy_StoreAsyncAckPacket|]. intros _ σ3 Hσ3.
  apply wp_ret, reach_refl. by eapply models_same_meta.
Qed.

(** *** The IBC module *)

Lemma wp_then_ret {A B} (m : M A) (f : A -> B) a σ :
  wp m (fun _ => reach a) σ -> wp (x ← m; mret (f x)) (fun _ => reach a) σ.
Proof. intros Hm. apply wp_bind. eapply wp_mono; [exact Hm|]. intros. by apply wp_ret. Qed.

Lemma wp_OnOpenChannel ctx addr msg σ a (Q : string -> kvs -> Prop) :
  models σ a -> (forall v σ', models σ' a -> Q v σ') ->
  wp (OnOpenChannel k json_QueryRequest HandleQuery ctx addr msg) Q σ.
Proof.
  intros Hm HQ. unfold OnOpenChannel, VM_IBCChannelOpen. wp_step.
  eapply wp_ibc_call; [exact Hm|]. intros i res σ' Hm' _ _. cbv beta iota.
  destruct res as [r|]; [|apply wp_fail]. destruct (COR_Ok r); by apply wp_ret, HQ.
Qed.

Lemma quiet_hop0 hops : quiet (hop0 hops).
Proof. unfold quiet, hop0. frame. Qed.
Lemma quiet_port_contract p : quiet (port_contract p).
Proof. unfold quiet, port_contract. frame. Qed.
Lemma quiet_load_channel ctx p ch : quiet (load_channel ctx p ch).
Proof. unfold quiet, load_channel. frame. Qed.
Lemma quiet_toWasmVMChannel p ch i v : quiet (toWasmVMChannel p ch i v).
Proof. unfold quiet, toWasmVMChannel, hop0. frame. Qed.
Lemma quiet_callback_contract c s : quiet (callback_contract c s).
Proof. unfold quiet, callback_contract. frame. Qed.
Create HintDb quiet.
#[local] Hint Resolve quiet_hop0 quiet_port_contract quiet_load_channel quiet_toWasmVMChannel
  quiet_callback_contract : quiet.
Ltac hushed := apply wp_quiet; [solve [auto with quiet]|intros ?].

(** The part of a handshake that ends in a basic handler. *)
Lemma wp_channel_event {A} ctx portID channelID (f : IdentifiedChannel -> IdentifiedChannel)
    (g : bytes -> IBCChannel -> M A) σ a :
  models σ a -> (forall addr ch, wp (g addr ch) (fun _ => reach a) σ) ->
  wp (contractAddr ← port_contract portID;
      '(channelInfo, appVersion) ← load_channel ctx portID channelID;
      channel ← toWasmVMChannel portID channelID (f channelInfo) appVersion;
      g contractAddr channel) (fun _ => reach a) σ.
Proof.
  intros Hm Hg. wp_step. hushed. wp_step. hushed. case_match. wp_step. hushed. apply Hg.
Qed.

Lemma wp_acknowledge (b : bool) addr ack err em (Q : option Acknowledgement -> kvs -> Prop) σ :
  Q ack σ ->
  wp (_ ← (if b then emit em else mret tt);
      _ ← EmitAcknowledgementEvent addr ack err; mret ack) Q σ.
Proof.
  intros HQ. wp_step. apply wp_quiet; [unfold quiet; frame|]. intros _.
  unfold EmitAcknowledgementEvent. wp_step. wp_step. by wp_step.
Qed.

Lemma wp_IBC_OnRecvPacket ctx packet relayer σ a :
  wf_ctx ctx -> sub_ok Sub ctx -> models σ a ->
  wp (IBC_OnRecvPacket k json_QueryRequest HandleQuery handler ctx packet relayer)
    (fun ack σ' => committed (Acked ack) = true -> reach a σ') σ.
Proof.
  intros Hc Hs Hm. unfold IBC_OnRecvPacket. destruct (ContractFromPortID _) as [addr|]; [|apply wp_throw].
  cbv zeta. wp_step. apply wp_with_events.
  - eapply wp_mono; [by apply (wp_OnRecvPacket ctx addr _ σ a)|]. intros ack σ' Hr em.
    by apply wp_acknowledge.
  - intros o em σ' Ho. destruct o as [ack|err|p]; cbv beta iota; [by destruct (Ho ack)| |apply wp_throw].
    unfold EmitAcknowledgementEvent. wp_step. wp_step. by wp_step.
Qed.

(** Whatever is delivered. *)
Lemma wp_deliver ctx c σ a :
  wf_ctx ctx -> sub_ok Sub ctx -> models σ a ->
  wp (deliver k json_QueryRequest HandleQuery handler ctx c)
    (fun r σ' => committed r = true -> reach a σ') σ.
Proof.
  intros Hc Hs Hm.
  destruct c; cbn [deliver];
    [..|wp_step; eapply wp_mono; [by apply wp_IBC_OnRecvPacket|]; intros; by wp_step| | | | | |];
    (eapply wp_mono; [apply wp_then_ret|intros ? ? Hr _; exact Hr]).
  - unfold OnChanOpenInit. wp_step. wp_step. wp_step. hushed. wp_step. hushed. wp_step.
    eapply wp_OnOpenChannel; [exact Hm|]. intros v σ' Hm'. wp_step.
    apply wp_quiet; [unfold quiet; frame|]. intros v'. wp_step. wp_step. wp_step. wp_step. by apply reach_refl.
  - unfold OnChanOpenTry. wp_step. wp_step. wp_step. hushed. wp_step. hushed. wp_step.
    eapply wp_OnOpenChannel; [exact Hm|]. intros v σ' Hm'. wp_step. wp_step. wp_step.
    apply wp_quiet; [unfold quiet; frame|]. intros []. wp_step. by apply reach_refl.
  - apply (wp_channel_event ctx portID channelID
             (fun i => set_counterparty_channel i counterpartyChannelID)
             (fun addr ch => OnConnectChannel k _ _ _ ctx addr _)); [done|]. intros. by apply wp_basic.
  - apply (wp_channel_event ctx portID channelID id
             (fun addr ch => OnConnectChannel k _ _ _ ctx addr _)); [done|]. intros. by apply wp_basic.
  - apply (wp_channel_event ctx portID channelID id
             (fun addr ch => OnCloseChannel k _ _ _ ctx addr _)); [done|]. intros. by apply wp_basic.
  - apply (wp_channel_event ctx portID channelID id
             (fun addr ch => OnCloseChannel k _ _ _ ctx addr _)); [done|]. intros. by apply wp_basic.
  - unfold OnAcknowledgementPacket. wp_step. hushed. wp_step. by apply wp_basic.
  - unfold IBC_OnTimeoutPacket. wp_step. hushed. wp_step. by apply wp_basic.
  - unfold IBCSendPacketCallback. wp_step. hushed. wp_step. by apply reach_refl.
  - unfold IBCOnAcknowledgementPacketCallback. wp_step. hushed. wp_step. by apply wp_basic.
  - unfold IBCOnTimeoutPacketCallback. wp_step. hushed. wp_step. by apply wp_basic.
  - unfold IBCReceivePacketCallback. destruct (AccAddressFromBech32 contract); [|apply wp_fail].
    wp_step. by apply wp_basic.
Qed.

End Refine.
End RelayRefine.
