(* ===== verification/RefineSystem.v ===== *)
(** The assembled module implements the registry: the message server, the
    messenger and the dispatcher on top of the keeper, for messages of any
    sender and contracts that do anything, nested in any way. *)
From S2P Require Import Prelude Errors GoStrings Json Types Proto Keys VMTypes Policy GasRegister Chain Logic Wp Engine Store Registry Events Keeper Dispatcher Msgs MsgServer KeeperFrame Encoders Messenger QueryPlugins Relay System SystemFrame Refinement RefineKeeper RelayRefine.
Import GoStrings Keys Store.Store Events.Events Msgs.Msgs Encoders.Encoders Messenger.Messenger.
Import Registry.Registry Refinement.Refinement RefineKeeper.RefineKeeper.
Open Scope wasm_scope.

(** The code ids of a message are uint64. *)
Definition typed_tx (msg : MsgServer.WasmMsg) : Prop :=
  match msg with
  | MsgServer.WInstantiateContract m => is_u64 (I_CodeID m)
  | MsgServer.WInstantiateContract2 m => is_u64 (I2_CodeID m)
  | MsgServer.WMigrateContract m => is_u64 (Mi_CodeID m)
  | MsgServer.WUpdateInstantiateConfig m => is_u64 (UI_CodeID m)
  | MsgServer.WPinCodes m => Forall is_u64 (PC_CodeIDs m)
  | MsgServer.WUnpinCodes m => Forall is_u64 (UC_CodeIDs m)
  | _ => True
  end.

(** The signer of a wasm message is the address in its signer field; an Any
    unpacks to a message of Go's types. *)
Class MsgCodecLaws `{MsgCodec, Bech32} : Prop := {
  signer_of_wasm m signers :
    GetMsgV1Signers (SWasm m) = inl signers ->
    exists actor, AccAddressFromBech32 (MsgServer.msg_signer m) = inl actor /\ signers = [actor];
}.
Class AnyUnpackerLaws `{AnyUnpacker} : Prop := {
  UnpackAny_typed url value m : UnpackAny url value = inl (SWasm m) -> typed_tx m;
}.

Module RefineSystem.

Section Server.
Context `{GasMeters, Modules, KVStorePkg, Bech32, ErrorsMod, UnicodeTables,
  AddressPkg, CoinsPkg, Codecs, Gzip, VerificationPkg}.
Context `{!WasmEngine, !Keepers, !Bech32Laws, !AddressPkgLaws, !CodecsLaws, !WasmEngineLaws}.
Context (k : KeeperConfig).
Context (json_QueryRequest : bytes -> QueryRequest + string).
Context (HandleQuery : Context -> bytes -> QueryRequest -> M bytes).
Context (handler : Context -> bytes -> string -> list SubMsg -> option bytes -> M (option bytes)).
Context (Sub : Policy.AuthorizationPolicy -> Prop) (sender old : bytes -> Prop).
Hypothesis Sub_closed : forall p action, Sub p -> Sub (Policy.SubMessageAuthorizationPolicy p action).
Hypothesis Sub_gov : forall actor action,
  governs (authority k) actor -> sender actor \/ old actor \/ derived actor ->
  Sub (Policy.SubMessageAuthorizationPolicy
         (Policy.GovAuthorizationPolicy (propagateGovAuthorization k)) action).

#[local] Abbreviation models := (models old).
#[local] Abbreviation reach := (reach k Sub sender old).
#[local] Abbreviation acts :=
  (acts (authority k) (propagateGovAuthorization k) Sub sender).

#[local] Abbreviation handles := (handles k Sub sender old).
Hypothesis handler_ok : handles handler.
Hypothesis query_grows : forall ctx caller r, grows (HandleQuery ctx caller r).

(** Continuations that do not shrink the store. *)
Lemma grows_instantiate ctx id c ad m l d gen p :
  (forall ctx id ck, preserves (kv_grows permanent) (gen ctx id ck)) ->
  preserves (kv_grows permanent) (Keeper.instantiate k json_QueryRequest HandleQuery handler ctx id c ad m l d gen p).
Proof. apply fr_instantiate; [apply _..|exact query_grows|apply handler_ok]. Qed.
Lemma grows_migrate ctx a c id m p :
  preserves (kv_grows permanent) (Keeper.migrate k json_QueryRequest HandleQuery handler ctx a c id m p).
Proof. apply fr_migrate; [apply _..|exact query_grows|apply handler_ok]. Qed.
#[local] Hint Resolve grows_instantiate grows_migrate
  fr_ClassicAddressGenerator fr_PredictableAddressGenerator fr_parse_address : frame.
Ltac growing := intros; unfold grows; frame; try solve [eauto with frame].

Lemma signer_acts ctx sndr actor a :
  sub_ok Sub ctx -> present sender a actor -> AccAddressFromBech32 sndr = inl actor ->
  acts a (MsgServer.selectAuthorizationPolicy k ctx sndr) actor.
Proof.
  intros Hs Hp Ha. split_and!; [done|by eapply bech32_valid|].
  unfold MsgServer.selectAuthorizationPolicy. case_bool_decide as E; [right|left; done].
  split; [|done]. unfold governs. by rewrite <- E.
Qed.

Lemma wp_parse_address what addr σ (Q : bytes -> kvs -> Prop) :
  (forall x, AccAddressFromBech32 addr = inl x -> Q x σ) ->
  wp (MsgServer.parse_address what addr) Q σ.
Proof.
  intros HQ. unfold MsgServer.parse_address.
  destruct (AccAddressFromBech32 addr); [by apply wp_ret, HQ|apply wp_fail].
Qed.
Lemma wp_parse_signer what addr actor σ (Q : bytes -> kvs -> Prop) :
  AccAddressFromBech32 addr = inl actor -> Q actor σ -> wp (MsgServer.parse_address what addr) Q σ.
Proof. intros Ha HQ. apply wp_parse_address. intros x Hx. rewrite Ha in Hx. by injection Hx as <-. Qed.
Lemma quiet_parse_admin admin : quiet (MsgServer.parse_admin admin).
Proof. apply fr_parse_admin, _. Qed.
Lemma wp_require_authority req σ (Q : unit -> kvs -> Prop) :
  (req = authority k -> Q tt σ) -> wp (MsgServer.require_authority k req) Q σ.
Proof.
  intros HQ. apply wp_guard. intros E%negb_false_iff%bool_decide_eq_true. by apply HQ.
Qed.
(** The answer of a handler whose work has reached a registry. *)
Lemma wp_answer {A B} (m : M A) (f : A -> B) a σ :
  wp m (fun _ => reach a) σ -> wp (x ← m; mret (f x)) (fun _ => reach a) σ.
Proof. intros Hm. apply wp_bind. eapply wp_mono; [exact Hm|]. intros. by apply wp_ret. Qed.

Lemma valid_permission_access access :
  valid_permission access = None ->
  forall ac, access = Some ac -> AccessConfig_ValidateBasic ac = None.
Proof.
  unfold valid_permission, WrapOpt. intros E ac ->.
  by destruct (AccessConfig_ValidateBasic ac).
Qed.

#[local] Abbreviation serve := (MsgServer.serve k json_QueryRequest HandleQuery handler).

Lemma wp_StoreCode ctx msg actor σ a :
  sub_ok Sub ctx -> models σ a -> present sender a actor ->
  AccAddressFromBech32 (SC_Sender msg) = inl actor ->
  wp (MsgServer.StoreCode k ctx msg) (fun _ => reach a) σ.
Proof.
  intros Hs Hm Hp Ha. unfold MsgServer.StoreCode. apply wp_bind, wp_check. intros Hv.
  apply wp_bind, (wp_parse_signer _ _ actor); [done|]. cbv zeta.
  unfold MsgStoreCode_ValidateBasic in Hv. rewrite !first_error_None in Hv.
  apply wp_bind. eapply (wp_create k Sub sender old); [done|by apply signer_acts| | |].
  - apply valid_permission_access. apply Hv.
  - intros id hash σ' a' S Hm' _ _. apply wp_ret. eapply reach_step; [exact S|].
    by apply reach_refl.
  - intros x σ' Hf. apply wp_reach_full; [growing|done].
Qed.
Lemma wp_InstantiateContract ctx msg actor σ a :
  wf_ctx ctx -> sub_ok Sub ctx -> models σ a -> present sender a actor -> is_u64 (I_CodeID msg) ->
  AccAddressFromBech32 (I_Sender msg) = inl actor ->
  wp (MsgServer.InstantiateContract k json_QueryRequest HandleQuery handler ctx msg)
    (fun _ => reach a) σ.
Proof.
  intros Hc Hs Hm Hp Hid Ha. unfold MsgServer.InstantiateContract. apply wp_bind, wp_check. intros _.
  apply wp_bind, (wp_parse_signer _ _ actor); [done|].
  apply wp_bind, wp_quiet; [apply quiet_parse_admin|]. intros admin. cbv zeta.
  apply wp_reach_bind; [growing| |intros [] ? ? _ ?; apply wp_ret; by apply reach_refl].
  apply wp_instantiate; auto using signer_acts, ClassicAddressGenerator_ok.
Qed.
Lemma wp_InstantiateContract2 ctx msg actor σ a :
  wf_ctx ctx -> sub_ok Sub ctx -> models σ a -> present sender a actor -> is_u64 (I2_CodeID msg) ->
  AccAddressFromBech32 (I2_Sender msg) = inl actor ->
  wp (MsgServer.InstantiateContract2 k json_QueryRequest HandleQuery handler ctx msg)
    (fun _ => reach a) σ.
Proof.
  intros Hc Hs Hm Hp Hid Ha. unfold MsgServer.InstantiateContract2. apply wp_bind, wp_check. intros _.
  apply wp_bind, (wp_parse_signer _ _ actor); [done|].
  apply wp_bind, wp_quiet; [apply quiet_parse_admin|]. intros admin. cbv zeta.
  apply wp_reach_bind; [growing| |intros [] ? ? _ ?; apply wp_ret; by apply reach_refl].
  apply wp_instantiate; auto using signer_acts, PredictableAddressGenerator_ok.
Qed.
Lemma wp_MigrateContract ctx msg actor σ a :
  wf_ctx ctx -> sub_ok Sub ctx -> models σ a -> present sender a actor -> is_u64 (Mi_CodeID msg) ->
  AccAddressFromBech32 (Mi_Sender msg) = inl actor ->
  wp (MsgServer.MigrateContract k json_QueryRequest HandleQuery handler ctx msg)
    (fun _ => reach a) σ.
Proof.
  intros Hc Hs Hm Hp Hid Ha. unfold MsgServer.MigrateContract. apply wp_bind, wp_check. intros _.
  apply wp_bind, (wp_parse_signer _ _ actor); [done|].
  apply wp_bind, wp_parse_address. intros addr _. cbv zeta.
  apply wp_answer. apply wp_migrate; auto using signer_acts.
Qed.

Lemma wp_StoreAndInstantiateContract ctx msg actor σ a :
  wf_ctx ctx -> sub_ok Sub ctx -> models σ a -> present sender a actor ->
  AccAddressFromBech32 (SI_Authority msg) = inl actor ->
  wp (MsgServer.StoreAndInstantiateContract k json_QueryRequest HandleQuery handler ctx msg)
    (fun _ => reach a) σ.
Proof.
  intros Hc Hs Hm Hp Ha. unfold MsgServer.StoreAndInstantiateContract.
  apply wp_bind, wp_check. intros Hv.
  apply wp_bind, (wp_parse_signer _ _ actor); [done|].
  apply wp_bind, wp_quiet; [apply quiet_parse_admin|]. intros admin. cbv zeta.
  unfold MsgStoreAndInstantiateContract_ValidateBasic in Hv. rewrite !first_error_None in Hv.
  apply wp_bind. eapply (wp_create k Sub sender old); [done|by apply signer_acts| | |].
  - apply valid_permission_access. apply Hv.
  - intros id hash σ' a' S Hm' Hid _. eapply wp_weaken_reach; [by apply rtc_once|].
    apply wp_reach_bind; [growing| |intros [] ? ? _ ?; apply wp_ret; by apply reach_refl].
    apply wp_instantiate; auto using ClassicAddressGenerator_ok.
    apply signer_acts; [done| |done].
    eapply step_present; [exact S|done].
  - intros x σ' Hf. apply wp_reach_full; [growing|done].
Qed.
Lemma wp_StoreAndMigrateContract ctx msg actor σ a :
  wf_ctx ctx -> sub_ok Sub ctx -> models σ a -> present sender a actor ->
  AccAddressFromBech32 (SM_Authority msg) = inl actor ->
  wp (MsgServer.StoreAndMigrateContract k json_QueryRequest HandleQuery handler ctx msg)
    (fun _ => reach a) σ.
Proof.
  intros Hc Hs Hm Hp Ha. unfold MsgServer.StoreAndMigrateContract.
  apply wp_bind, (wp_parse_signer _ _ actor); [done|].
  apply wp_bind, wp_check. intros Hv. cbv zeta.
  unfold MsgStoreAndMigrateContract_ValidateBasic in Hv. rewrite !first_error_None in Hv.
  apply wp_bind. eapply (wp_create k Sub sender old); [done|by apply signer_acts| | |].
  - apply valid_permission_access. apply Hv.
  - intros id hash σ' a' S Hm' Hid _. eapply wp_weaken_reach; [by apply rtc_once|].
    apply wp_bind, wp_parse_address. intros addr _. apply wp_answer.
    apply wp_migrate; auto. apply signer_acts; [done| |done]. by eapply step_present.
  - intros x σ' Hf. apply wp_reach_full; [growing|done].
Qed.

Lemma wp_UpdateInstantiateConfig ctx msg actor σ a :
  sub_ok Sub ctx -> models σ a -> present sender a actor -> is_u64 (UI_CodeID msg) ->
  AccAddressFromBech32 (UI_Sender msg) = inl actor ->
  wp (MsgServer.UpdateInstantiateConfig k ctx msg) (fun _ => reach a) σ.
Proof.
  intros Hs Hm Hp Hid Ha. unfold MsgServer.UpdateInstantiateConfig.
  apply wp_bind, wp_check. intros Hv.
  apply wp_bind, (wp_parse_signer _ _ actor); [done|]. cbv zeta.
  unfold MsgUpdateInstantiateConfig_ValidateBasic in Hv. rewrite !first_error_None in Hv.
  destruct Hv as (_ & _ & _ & Hv). apply wp_bind. unfold Keeper.deref.
  destruct (UI_NewInstantiatePermission msg) as [cfg|]; [|apply wp_throw]. apply wp_ret, wp_answer.
  apply wp_setAccessConfig; auto using signer_acts. by eapply valid_permission_access.
Qed.
Lemma Params_valid_wf ps : Params_ValidateBasic ps = None -> codec_wf ps.
Proof.
  unfold Params_ValidateBasic, validateAccessType. rewrite first_error_None, !WrapOpt_None.
  intros [Hi Hu]. split; [by apply valid_access_wf|].
  by destruct (InstantiateDefaultPermission ps).
Qed.
Lemma wp_UpdateParams msg actor σ a :
  models σ a -> present sender a actor -> AccAddressFromBech32 (UP_Authority msg) = inl actor ->
  wp (MsgServer.UpdateParams k msg) (fun _ => reach a) σ.
Proof.
  intros Hm Hp Ha. unfold MsgServer.UpdateParams. apply wp_bind, wp_check. intros Hv.
  unfold MsgUpdateParams_ValidateBasic in Hv. rewrite !first_error_None in Hv.
  apply wp_bind, wp_require_authority. intros E. rewrite E in Ha. apply wp_answer.
  eapply wp_SetParams; [done..|]. apply Params_valid_wf, Hv.
Qed.
Lemma wp_update_upload f actor σ a :
  models σ a -> present sender a actor -> governs (authority k) actor ->
  wp (MsgServer.update_upload_addresses f) (fun _ => reach a) σ.
Proof.
  intros Hm Hp Ha. unfold MsgServer.update_upload_addresses.
  apply wp_bind, (wp_params old σ a); [done|]. intros ps Hps. cbv zeta.
  apply wp_bind, wp_guard. intros E%negb_false_iff%bool_decide_eq_true.
  eapply wp_SetParams; [done..|]. split; simpl; [by rewrite E|].
  by destruct (sto_params a ltac:(apply Hm) _ Hps) as [[_ ?] _].
Qed.
Lemma wp_for_each {A} (f : A -> M unit) (P : A -> Prop) l actor σ a :
  (forall x, grows (f x)) -> (forall x σ a, P x -> models σ a -> present sender a actor -> wp (f x) (fun _ => reach a) σ) ->
  Forall P l -> models σ a -> present sender a actor ->
  wp (MsgServer.for_each f l) (fun _ => reach a) σ.
Proof.
  intros Hg Hf Hl. revert σ a. induction Hl as [|x l Hx Hl IH]; intros σ a Hm Hp; simpl.
  { apply wp_ret. by apply reach_refl. }
  apply wp_reach_bind; [intros _; by apply fr_for_each; [apply _|]|by apply Hf|]. intros _ a' σ' S Hm'. apply IH; [done|].
  by eapply steps_present.
Qed.

(** The message server: a message whose signer is the sender or a
    contract. *)
Lemma wp_serve ctx msg actor σ a :
  wf_ctx ctx -> sub_ok Sub ctx -> models σ a -> present sender a actor -> typed_tx msg ->
  AccAddressFromBech32 (MsgServer.msg_signer msg) = inl actor ->
  wp (serve ctx msg) (fun _ => reach a) σ.
Proof.
  intros Hc Hs Hm Hp Ht Ha. destruct msg as [msg|msg|msg|msg|msg|msg|msg|msg|msg|msg|msg|msg|msg|msg|msg|msg|msg];
    simpl in Ht, Ha; cbn [MsgServer.serve].
  - by eapply wp_StoreCode.
  - by eapply wp_InstantiateContract.
  - by eapply wp_InstantiateContract2.
  - unfold MsgServer.ExecuteContract. apply wp_bind, wp_check. intros _.
    do 2 (apply wp_bind, wp_parse_address; intros ? ?). apply wp_answer. by apply wp_execute.
  - by eapply wp_MigrateContract.
  - unfold MsgServer.UpdateAdmin. apply wp_bind, wp_check. intros _.
    apply wp_bind, (wp_parse_signer _ _ actor); [done|].
    do 2 (apply wp_bind, wp_parse_address; intros ? ?). apply wp_answer.
    apply wp_setContractAdmin; auto using signer_acts.
  - unfold MsgServer.ClearAdmin. apply wp_bind, wp_check. intros _.
    apply wp_bind, (wp_parse_signer _ _ actor); [done|].
    apply wp_bind, wp_parse_address; intros ? ?. apply wp_answer.
    apply wp_setContractAdmin; auto using signer_acts.
  - by eapply wp_UpdateInstantiateConfig.
  - by eapply wp_UpdateParams.
  - unfold MsgServer.PinCodes. apply wp_bind, wp_check. intros _.
    apply wp_bind, wp_require_authority. intros E. rewrite E in Ha. apply wp_answer.
    eapply (wp_for_each _ is_u64); [intros; apply fr_pinCode; apply _| |done..].
    intros. by eapply wp_pinCode.
  - unfold MsgServer.UnpinCodes. apply wp_bind, wp_check. intros _.
    apply wp_bind, wp_require_authority. intros E. rewrite E in Ha. apply wp_answer.
    eapply (wp_for_each _ is_u64); [intros; apply fr_unpinCode; apply _| |done..].
    intros. by eapply wp_unpinCode.
  - unfold MsgServer.SudoContract. apply wp_bind, wp_check. intros _.
    apply wp_bind, wp_require_authority. intros _.
    apply wp_bind, wp_parse_address; intros ? ?. apply wp_answer. by apply wp_Sudo.
  - by eapply wp_StoreAndInstantiateContract.
  - unfold MsgServer.AddCodeUploadParamsAddresses. apply wp_bind, wp_check. intros _.
    apply wp_bind, wp_require_authority. intros E. rewrite E in Ha. apply wp_answer.
    by eapply wp_update_upload.
  - unfold MsgServer.RemoveCodeUploadParamsAddresses. apply wp_bind, wp_check. intros _.
    apply wp_bind, wp_require_authority. intros E. rewrite E in Ha. apply wp_answer.
    by eapply wp_update_upload.
  - by eapply wp_StoreAndMigrateContract.
  - unfold MsgServer.UpdateContractLabel. apply wp_bind, wp_check. intros _.
    apply wp_bind, (wp_parse_signer _ _ actor); [done|].
    apply wp_bind, wp_parse_address; intros ? ?. apply wp_answer.
    apply wp_setContractLabel; auto using signer_acts.
Qed.

(** *** The dispatcher *)

Section Dispatch.
Context (D : MessengerFn) (reply : Context -> bytes -> Reply -> M (option bytes)).
Record dispatches (D : MessengerFn) : Prop := {
  dispatches_grows ctx addr port msg : grows (D ctx addr port msg);
  dispatches_wp ctx addr port msg σ a :
    wf_ctx ctx -> sub_ok Sub ctx -> typed_msg msg -> models σ a -> is_Some (contracts a !! addr) ->
    wp (D ctx addr port msg) (fun _ => reach a) σ;
}.
Hypothesis D_ok : dispatches D.
Hypothesis reply_grows : forall ctx addr rep, grows (reply ctx addr rep).
Hypothesis reply_ok : forall ctx addr rep σ a,
  wf_ctx ctx -> sub_ok Sub ctx -> models σ a ->
  wp (reply ctx addr rep) (fun _ => reach a) σ.

Lemma wp_run_submessage ctx addr port msg limit σ a :
  wf_ctx ctx -> sub_ok Sub ctx -> typed_msg (Msg msg) -> models σ a ->
  is_Some (contracts a !! addr) ->
  wp (Dispatcher.run_submessage D ctx addr port msg limit) (fun _ => reach a) σ.
Proof.
  intros Hc Hs Ht Hm Ha. unfold Dispatcher.run_submessage. destruct limit as [l|]; [|by apply dispatches_wp].
  unfold Dispatcher.dispatchMsgWithGasLimit, Dispatcher.dispatch_and_charge.
  apply wp_bind, wp_reify.
  - apply wp_bind, wp_with_meter.
    + eapply wp_mono; [by apply dispatches_wp|]. intros r σ' Hr mt.
      wp_step. wp_step. by do 2 apply wp_lift_ret.
    + intros o mt σ' Ho. destruct o; [by destruct (Ho a0)| |apply wp_throw].
      wp_step. wp_step. by apply wp_lift_other.
  - intros o σ' Ho. destruct o as [r| |[]]; try by apply wp_lift_other.
    wp_step. wp_step. apply wp_fail.
Qed.

Lemma grows_call_reply ctx addr msg result rsp :
  grows (Dispatcher.call_reply reply ctx addr msg result rsp).
Proof. unfold grows, Dispatcher.call_reply. frame. apply reply_grows. Qed.
Lemma wp_call_reply ctx addr msg result rsp σ a :
  wf_ctx ctx -> sub_ok Sub ctx -> models σ a ->
  wp (Dispatcher.call_reply reply ctx addr msg result rsp) (fun _ => reach a) σ.
Proof.
  intros Hc Hs Hm. unfold Dispatcher.call_reply. apply wp_answer. wp_step. by apply reply_ok.
Qed.

(** A failed submessage is undone; a successful one has reached a registry
    from which the reply goes on. *)
Lemma wp_dispatch_submessage ctx addr port msg rsp σ a :
  wf_ctx ctx -> sub_ok Sub ctx -> typed_msg (Msg msg) -> models σ a ->
  is_Some (contracts a !! addr) ->
  wp (Dispatcher.dispatch_submessage D reply ctx addr port msg rsp) (fun _ => reach a) σ.
Proof.
  intros Hc Hs Ht Hm Ha. unfold Dispatcher.dispatch_submessage. wp_step. wp_step. wp_step. wp_step.
  apply wp_bind, wp_with_events_cached.
  - eapply wp_mono; [by apply wp_run_submessage|].
    intros r σ' [(a' & S & Hm')|Hf] em; cbv beta iota zeta.
    2: { apply wp_reach_full; [|done]. unfold grows. frame; apply grows_call_reply. }
    eapply wp_weaken_reach; [exact S|]. cbv beta iota zeta. wp_step. wp_step.
    case_match; try (by apply wp_call_reply); apply wp_ret; by apply reach_refl.
  - intros o em Ho. destruct o as [r|err|]; [by destruct (Ho r)| |apply wp_throw].
    case_match; try (by apply wp_call_reply); apply wp_fail.
Qed.
Lemma grows_dispatch_loop ctx addr port msgs rsp :
  grows (Dispatcher.dispatch_loop D reply ctx addr port msgs rsp).
Proof.
  revert rsp. induction msgs; intros rsp; simpl; unfold grows; frame; [|apply IHmsgs].
  apply fr_dispatch_submessage; [apply _|apply dispatches_grows, D_ok|apply reply_grows].
Qed.
Lemma Handle_ok : handles (Dispatcher.Handle D reply).
Proof.
  split.
  { intros. apply fr_Handle; [apply _|apply dispatches_grows, D_ok|apply reply_grows]. }
  intros ctx addr port msgs data σ a Hc Hs Ht Hm Ha. unfold Dispatcher.Handle.
  apply wp_answer. unfold Dispatcher.DispatchSubmessages. generalize (None : option bytes) as rsp.
  revert σ a Hm Ha. induction Ht as [|msg msgs Hmsg _ IH]; intros σ a Hm Ha rsp; simpl.
  { apply wp_ret. by apply reach_refl. }
  apply wp_reach_bind; [apply grows_dispatch_loop|by apply wp_dispatch_submessage|]. intros rsp' a' σ' S Hm'.
  apply IH; [done|]. destruct Ha as [i Hi].
  destruct (steps_contract_kept _ _ _ _ a a' addr S) as [Hk _].
  destruct (Hk i Hi) as (i' & ? & _). by exists i'.
Qed.
End Dispatch.

End Server.

(** ** The messenger *)

Definition non_wasm (m : SdkMsg) : Prop := forall w, m <> SWasm w.
Lemma wasm_or_other (m : SdkMsg) : (exists w, m = SWasm w) \/ non_wasm m.
Proof. destruct m; try (by right); left; by eexists. Qed.
Definition typed_sdk (m : SdkMsg) : Prop := forall w, m = SWasm w -> typed_tx w.

Section Encoding.
Context `{GasMeters, Modules, KVStorePkg, Bech32, ErrorsMod}.
Context `{!CoinConversion, !TransferPort, !AnyUnpacker, !AnyUnpackerLaws}.

(** The results of an encoder by cases on its message. *)
Ltac encoded E := unfold obind, owrap in E; repeat case_match; simplify_eq; repeat constructor; done.

Lemma EncodeBankMsg_non_wasm x m l : EncodeBankMsg x m = Ret l -> Forall non_wasm l.
Proof. unfold EncodeBankMsg. intros E. encoded E. Qed.
Lemma EncodeDistributionMsg_non_wasm x m l : EncodeDistributionMsg x m = Ret l -> Forall non_wasm l.
Proof. unfold EncodeDistributionMsg. intros E. encoded E. Qed.
Lemma EncodeStakingMsg_non_wasm x m l : EncodeStakingMsg x m = Ret l -> Forall non_wasm l.
Proof. unfold EncodeStakingMsg. intros E. encoded E. Qed.
Lemma EncodeGovMsg_non_wasm x m l : EncodeGovMsg x m = Ret l -> Forall non_wasm l.
Proof. unfold EncodeGovMsg. intros E. encoded E. Qed.
Lemma EncodeWasmMsg_typed x m l : typed_wasm m -> EncodeWasmMsg x m = Ret l -> Forall typed_sdk l.
Proof.
  intros (T1 & T2 & T3) E. unfold EncodeWasmMsg, obind in E.
  repeat case_match; simplify_eq; (constructor; [|constructor]); intros w [= <-]; simpl; auto.
Qed.
Lemma EncodeAnyMsg_typed x m l : EncodeAnyMsg x m = Ret l -> Forall typed_sdk l.
Proof.
  unfold EncodeAnyMsg. destruct (UnpackAny _ _) as [sdkMsg|] eqn:Hu; [|done].
  case_match; [done|]. intros [= <-]. constructor; [|constructor]. intros w ->.
  by eapply UnpackAny_typed.
Qed.
Lemma non_wasm_typed l : Forall non_wasm l -> Forall typed_sdk l.
Proof. intros Hl. eapply Forall_impl; [exact Hl|]. intros m Hn w ->. by destruct (Hn w). Qed.

Lemma wp_EncodeIBCMsg ctx x port m σ (Q : list SdkMsg -> kvs -> Prop) :
  (forall l, Forall non_wasm l -> Q l σ) -> wp (EncodeIBCMsg ctx x port m) Q σ.
Proof.
  intros HQ. unfold EncodeIBCMsg.
  repeat case_match; repeat wp_step; apply HQ; repeat constructor; done.
Qed.
Lemma wp_encoder {A B} (f : A -> B -> outcome (list SdkMsg)) x y σ (Q : list SdkMsg -> kvs -> Prop) :
  (forall l, f x y = Ret l -> Q l σ) -> wp (call_encoder (Some f) x y) Q σ.
Proof. intros HQ. unfold call_encoder. apply wp_bind, wp_ret. by apply wp_lift. Qed.

(** What the default encoders produce. With a bank or IBC variant set, no wasm
    message comes out, whatever other variants are set. *)
Lemma wp_Encode ctx x port msg σ (Q : list SdkMsg -> kvs -> Prop) :
  typed_msg msg ->
  (forall l, Forall typed_sdk l ->
     (is_Some (Bank msg) \/ is_Some (IBC msg) -> Forall non_wasm l) -> Q l σ) ->
  wp (Encode DefaultEncoders ctx x port msg) Q σ.
Proof.
  intros Ht HQ. unfold Encode.
  assert (forall l, Forall non_wasm l -> Q l σ) as HN by auto using non_wasm_typed.
  destruct (Bank msg) as [b|] eqn:Hb; [apply wp_encoder; eauto using EncodeBankMsg_non_wasm|].
  destruct (Custom msg); [by apply wp_encoder|].
  destruct (Distribution msg) as [d|]; [apply wp_encoder; eauto using EncodeDistributionMsg_non_wasm|].
  destruct (IBC msg) as [i|] eqn:Hi; [apply wp_bind, wp_ret; by apply wp_EncodeIBCMsg|].
  destruct (Staking msg); [apply wp_encoder; eauto using EncodeStakingMsg_non_wasm|].
  assert (forall l, Forall typed_sdk l -> Q l σ) as HT.
  { intros l Hl. apply HQ; [done|]. by intros [[]|[]]. }
  destruct (Any msg); [apply wp_encoder; eauto using EncodeAnyMsg_typed|].
  destruct (Wasm msg) as [w|] eqn:Hw; [apply wp_encoder; eauto using EncodeWasmMsg_typed|].
  destruct (Gov msg); [apply wp_lift; eauto using EncodeGovMsg_non_wasm|apply wp_fail].
Qed.

End Encoding.

(** *** Failing parts *)

Section Catch.
Context `{GasMeters, Modules, KVStorePkg}.

(** What is caught matters only if the code behind it can return. *)
Lemma wp_catch {A B} (m : M A) (f : A + error -> M B) Q σ :
  wp m (fun a => wp (f (inl a)) Q) σ -> (forall err σ', wp (f (inr err)) Q σ') ->
  wp (catch m ≫= f) Q σ.
Proof.
  intros Hm Hf. apply wp_bind. intros s r s' Hs E. unfold catch in E.
  destruct (m s) as [[a|err|p] s1] eqn:Em; simplify_eq/=; [by eapply Hm|apply Hf].
Qed.

(** The store is in [Q] however the call ends, with a panic too. *)
Definition always {A} (m : M A) (Q : kvs -> Prop) (σ : kvs) : Prop :=
  forall s, kv s = σ -> Q (kv (m s).2).

Lemma always_wp {A} (m : M A) (Q : kvs -> Prop) σ : always m Q σ -> wp m (fun _ => Q) σ.
Proof. intros Hm s a s' Hs E. specialize (Hm s Hs). by rewrite E in Hm. Qed.
Lemma always_quiet {A} (m : M A) (Q : kvs -> Prop) σ : quiet m -> Q σ -> always m Q σ.
Proof. intros Hm HQ s <-. by rewrite quiet_kv. Qed.
Lemma always_catch {A} (m : M A) Q σ : always m Q σ -> always (catch m) Q σ.
Proof. intros Hm s Hs. specialize (Hm s Hs). unfold catch. by destruct (m s) as [[] ?]. Qed.
Lemma always_with_events {A} (m : M A) Q σ : always m Q σ -> always (with_events m) Q σ.
Proof.
  intros Hm s Hs. specialize (Hm (set_events [] s) Hs). unfold with_events. by destruct (m _).
Qed.
Lemma always_with_meter {A} mt (m : M A) Q σ : always m Q σ -> always (with_meter mt m) Q σ.
Proof.
  intros Hm s Hs. specialize (Hm (set_meter mt s) Hs). unfold with_meter. by destruct (m _).
Qed.
Lemma always_cached {A} (m : M A) (Q : kvs -> Prop) σ :
  wp m (fun _ => Q) σ -> Q σ -> always (cached m) Q σ.
Proof.
  intros Hm HQ s <-. unfold cached. destruct (m s) as [[a|e|p] s'] eqn:E; [|done..].
  by eapply Hm.
Qed.
Lemma always_ibc_branch m (Q : kvs -> Prop) σ :
  wp m (fun r σ' => Relay.committed r = true -> Q σ') σ -> Q σ -> always (System.ibc_branch m) Q σ.
Proof.
  intros Hm HQ s <-. unfold System.ibc_branch. destruct (m s) as [[r|e|p] s'] eqn:E; [|done..].
  specialize (Hm s r s' eq_refl E). destruct (Relay.committed r) eqn:Er; [by apply Hm|done].
Qed.
End Catch.

(** Other modules' handlers send messages of Go's types, each in the name of
    an address in [sender], in every state of the modules. [ExtState] is a
    parameter: on a chain on which an account has given no grant and is the
    policy of no group, it is the type of the module states in which that is
    so, and [sender] need not have that account. *)
Definition acts_for `{Bech32, AppRouter} (sender : bytes -> Prop) : Prop :=
  forall msg op ctx x, route_other msg = Some op ->
  all_calls (fun m => typed_tx m
               /\ exists actor, AccAddressFromBech32 (MsgServer.msg_signer m) = inl actor
                  /\ sender actor) (fun _ => True) (op ctx x).

Section System.
Context `{GasMeters, Modules, KVStorePkg, Bech32, ErrorsMod, UnicodeTables,
  AddressPkg, CoinsPkg, Codecs, Gzip, VerificationPkg}.
Context `{!WasmEngine, !Keepers, !ICS4, !CoinConversion, !TransferPort, !AnyUnpacker,
  !MsgCodec, !QueryKeepers, !IBCEngine, !IBCCore, !AppRouter}.
Context `{!Bech32Laws, !AddressPkgLaws, !CodecsLaws, !WasmEngineLaws, !IBCEngineLaws,
  !MsgCodecLaws, !AnyUnpackerLaws}.
Context (k : KeeperConfig).
Context (json_QueryRequest : bytes -> QueryRequest + string).
Context (Sub : Policy.AuthorizationPolicy -> Prop) (sender old : bytes -> Prop).
Hypothesis Sub_closed : forall p action, Sub p -> Sub (Policy.SubMessageAuthorizationPolicy p action).
Hypothesis Sub_gov : forall actor action,
  governs (authority k) actor -> sender actor \/ old actor \/ derived actor ->
  Sub (Policy.SubMessageAuthorizationPolicy
         (Policy.GovAuthorizationPolicy (propagateGovAuthorization k)) action).
Hypothesis router_ok : acts_for sender.

#[local] Abbreviation models := (models old).
#[local] Abbreviation reach := (reach k Sub sender old).

#[local] Abbreviation ResponseHandler := (Context -> bytes -> string -> list SubMsg ->
  option bytes -> M (option bytes)).

(** Continue from the registry that a part has reached. *)
Lemma always_bind {A B} (m : M A) (f : A -> M B) a σ :
  (forall x, grows (f x)) -> always m (reach a) σ ->
  (forall x a' σ', steps (authority k) (propagateGovAuthorization k) Sub sender a a' ->
     models σ' a' -> always (f x) (reach a') σ') ->
  always (m ≫= f) (reach a) σ.
Proof.
  intros Hg Hm Hf s Hs. specialize (Hm s Hs). unfold mbind, M_bind.
  destruct (m s) as [[x|e|p] s1]; [|done..]. destruct Hm as [(a' & S & Hm)|Hfull].
  - eapply reach_steps; [exact S|]. by apply (Hf x a' (kv s1)).
  - right. eapply full_grows; [apply Hg|done].
Qed.
Lemma always_tidy {A} (m : M A) a σ : tidy m -> models σ a -> always m (reach a) σ.
Proof.
  intros Hm Hr s <-. apply reach_refl. eapply models_same_meta; [exact Hr|].
  intros key Hk. by apply (Hm s key Hk).
Qed.
Lemma always_hush {A} (m : M A) a σ : quiet m -> models σ a -> always m (reach a) σ.
Proof. intros Hm Hr. by apply always_tidy; [apply quiet_tidy|]. Qed.
Lemma always_service m a σ :
  always m (reach a) σ -> models σ a -> always (System.service m) (reach a) σ.
Proof.
  intros Hm Hr. unfold System.service. apply always_bind; [|by apply always_with_events|].
  - intros [[[]| |] em]; unfold grows; frame.
  - intros [[[]| |] em] a' σ' _ Hm'; apply always_hush; try done; unfold quiet; frame.
Qed.

(** *** Handlers of other modules' messages and of packets *)

Lemma tidy_IBCRawPacketHandler ctx addr port msg :
  tidy (IBCRawPacketHandler_DispatchMsg ctx addr port msg).
Proof.
  unfold tidy, IBCRawPacketHandler_DispatchMsg, dispatch_SendPacket, dispatch_WriteAcknowledgement,
    own_channel, LoadAsyncAckPacket, DeleteAsyncAckPacket. frame.
  apply preserves_kv_delete, touch_kv_frame; [apply _|]. eexists. right. right. reflexivity.
Qed.
Lemma tidy_BurnCoin ctx addr port msg : tidy (BurnCoinMessageHandler ctx addr port msg).
Proof. unfold tidy, BurnCoinMessageHandler. frame. Qed.

Section Response.
Context (h : ResponseHandler).
Hypothesis h_ok : handles k Sub sender old h.
#[local] Abbreviation Handler := (System.Handler k json_QueryRequest h).
#[local] Abbreviation wasm_handler := (System.wasm_handler k json_QueryRequest h).
#[local] Abbreviation ibc_module := (System.ibc_module k json_QueryRequest h).

Lemma query_grows ctx caller r : grows (System.HandleQuery k json_QueryRequest ctx caller r).
Proof. apply fr_HandleQuery; apply _. Qed.
Lemma grows_wasm_handler ctx m : preserves (kv_grows permanent) (wasm_handler ctx m).
Proof. apply fr_wasm_handler; [apply _..|]. apply h_ok. Qed.
Lemma grows_ibc_module ctx c : preserves (kv_grows permanent) (ibc_module ctx c).
Proof.
  apply (fr_deliver k json_QueryRequest (kv_grows permanent)); [apply query_grows|apply h_ok|].
  apply receives_any.
Qed.
Lemma grows_routed ctx t :
  preserves (kv_grows permanent) (System.run_routed wasm_handler ibc_module ctx t).
Proof.
  apply (fr_run_routed _ _ _ _ (fun _ => True));
    [intros; apply grows_wasm_handler|intros; apply grows_ibc_module|by apply all_calls_any].
Qed.
#[local] Hint Resolve grows_wasm_handler grows_ibc_module grows_routed fr_ibc_branch fr_set_ext : frame.

Lemma wp_service {A} (m : M A) (f : A -> RouteResult) a σ :
  wp m (fun _ => reach a) σ -> wp (System.service (x ← m; mret (f x))) (fun _ => reach a) σ.
Proof.
  intros Hm. unfold System.service. apply wp_bind, wp_with_events.
  - apply wp_bind. eapply wp_mono; [exact Hm|]. intros r σ' Hr. apply wp_ret. intros em.
    destruct (f r). by apply wp_ret.
  - intros o em σ' Ho. destruct o as [r| |]; [by destruct (Ho r)|apply wp_fail|apply wp_throw].
Qed.
Lemma wp_wasm_handler ctx m actor σ a :
  wf_ctx ctx -> sub_ok Sub ctx -> typed_tx m ->
  AccAddressFromBech32 (MsgServer.msg_signer m) = inl actor -> present sender a actor ->
  models σ a -> wp (wasm_handler ctx m) (fun _ => reach a) σ.
Proof.
  intros Hc Hs Ht Ha Hp Hm. apply wp_service.
  eapply (wp_serve k _ _ _ Sub sender old); try done. apply query_grows.
Qed.

Ltac growing := intros; unfold grows; frame.
(** A step that leaves the store alone. *)
Ltac step :=
  apply always_bind; [growing|apply always_hush; [unfold quiet; auto using fr_set_ext, preserves_emit with frame|]|].

(** Whatever another module's handler does, and however it ends. *)
Lemma always_routed ctx t σ a :
  wf_ctx ctx -> sub_ok Sub ctx ->
  all_calls (fun m => typed_tx m
               /\ exists actor, AccAddressFromBech32 (MsgServer.msg_signer m) = inl actor
                  /\ sender actor) (fun _ => True) t ->
  models σ a -> always (System.run_routed wasm_handler ibc_module ctx t) (reach a) σ.
Proof.
  intros Hc Hs. revert σ a.
  induction t as [o x|am d x t IH|evs t IH|x m rest IH|x c rest IH|x body IHb rest IH
    |limit x body IHb rest IH]; intros σ a Ht Hm; cbn [System.run_routed].
  { intros s <-. by apply reach_refl. }
  all: step; [done|intros _ a' σ' _ Hm'].
  - step; [done|]. intros. by apply IH.
  - by apply IH.
  - destruct Ht as [[Hty (actor & Ha & Hsnd)] Ht]. apply always_bind; [growing| |].
    { apply always_catch, always_cached; [|by apply reach_refl].
      eapply wp_wasm_handler; try done. by left. }
    intros r a2 σ2 _ Hm2. step; [done|]. intros. by apply IH.
  - destruct Ht as [_ Ht]. apply always_bind; [growing| |].
    { apply always_with_events, always_ibc_branch; [|by apply reach_refl].
      by apply RelayRefine.wp_deliver. }
    intros [[r|e|p] em] a2 σ2 _ Hm2; step; try done; intros; try (by apply IH).
    by apply always_hush; [unfold quiet; frame|].
  - destruct Ht as [Hb Ht]. apply always_bind; [growing| |].
    { apply always_with_events, always_cached; [|by apply reach_refl].
      by apply always_wp, IHb. }
    intros [[r|e|p] em] a2 σ2 _ Hm2; step; try done; intros; try (by apply IH).
    + step; [done|]. intros. by apply IH.
    + by apply always_hush; [unfold quiet; frame|].
  - destruct Ht as [Hb Ht]. step; [done|]. intros mt a2 σ2 _ Hm2. apply always_bind; [growing| |].
    { apply always_with_meter, always_bind; [growing| |].
      - apply always_with_events, always_cached; [|by apply reach_refl].
        by apply always_wp, IHb.
      - intros [o em] a3 σ3 _ Hm3. apply always_hush; [unfold quiet; frame|done]. }
    intros [o mt'] a3 σ3 _ Hm3.
    assert (always (_ ← consume (GasConsumedToLimit mt') "ibc callback"; x' ← gets ext;
      System.run_routed wasm_handler ibc_module ctx (rest o x')) (reach a3) σ3) as Hrest.
    { step; [done|]. intros. step; [done|]. intros. by apply IH. }
    destruct o as [r|e|[]]; try exact Hrest. by apply always_hush; [unfold quiet; frame|].
Qed.

(** A handler of the router, by the module of its message. *)
Lemma always_other ctx msg hd σ a :
  wf_ctx ctx -> sub_ok Sub ctx -> non_wasm msg -> Handler msg = Some hd -> models σ a ->
  always (hd ctx msg) (reach a) σ.
Proof.
  intros Hc Hs Hn E Hm. unfold System.Handler in E.
  destruct msg; try (by edestruct Hn); apply fmap_Some in E as (op & Hop & ->);
    (apply always_service; [|done]); (step; [done|]); intros x a' σ' _ Hm';
    (apply always_routed; [done|done|by eapply router_ok|done]).
Qed.
Lemma wp_handler ctx msg hd σ a :
  wf_ctx ctx -> sub_ok Sub ctx -> typed_sdk msg ->
  (forall m, msg = SWasm m -> exists actor,
     AccAddressFromBech32 (MsgServer.msg_signer m) = inl actor /\ present sender a actor) ->
  Handler msg = Some hd -> models σ a -> wp (hd ctx msg) (fun _ => reach a) σ.
Proof.
  intros Hc Hs Ht Ha E Hm.
  destruct (wasm_or_other msg) as [[m ->]|Hn]; [|by apply always_wp, always_other].
  injection E as <-. destruct (Ha m eq_refl) as (actor & Hact & Hp).
  eapply wp_wasm_handler; try done. by apply Ht.
Qed.
Lemma grows_Handler ctx msg hd : Handler msg = Some hd -> preserves (kv_grows permanent) (hd ctx msg).
Proof. apply (fr_Handler k json_QueryRequest (kv_grows permanent)). apply h_ok. Qed.
#[local] Hint Resolve grows_Handler : frame.

(** *** The messages of a contract *)

Lemma contracts_steps a a' addr :
  steps (authority k) (propagateGovAuthorization k) Sub sender a a' ->
  is_Some (contracts a !! addr) -> is_Some (contracts a' !! addr).
Proof.
  intros S [i Hi]. destruct (steps_contract_kept _ _ _ _ a a' addr S) as [Hk _].
  destruct (Hk i Hi) as (i' & ? & _). by exists i'.
Qed.
Lemma grows_handle_all ctx addr msgs acc :
  preserves (kv_grows permanent) (handle_all Handler ctx addr msgs acc).
Proof. apply fr_handle_all; [apply _|]. intros. by apply grows_Handler. Qed.
#[local] Hint Resolve grows_handle_all : frame.

(** Messages of other modules, however they end. *)
Lemma always_handle_others ctx addr msgs acc σ a :
  wf_ctx ctx -> sub_ok Sub ctx -> Forall non_wasm msgs -> models σ a ->
  always (handle_all Handler ctx addr msgs acc) (reach a) σ.
Proof.
  intros Hc Hs Hl. revert acc σ a.
  induction Hl as [|msg msgs Hn _ IH]; intros acc σ a Hm; cbn [handle_all].
  { by apply always_hush; [unfold quiet; frame|]. }
  apply always_bind; [growing| |intros; by apply IH]. unfold handleSdkMessage.
  destruct (Handler msg) as [hd|] eqn:E;
    [|by apply always_hush; [unfold quiet; frame|]].
  step; [done|]. intros _ a1 σ1 _ Hm1. destruct (GetMsgV1Signers msg);
    [|by apply always_hush; [unfold quiet; frame|]].
  step; [done|]. intros _ a2 σ2 _ Hm2. by apply always_other.
Qed.

(** A bank or IBC message reaches no wasm handler of the contract's own. *)
Lemma always_chain ctx addr port msg σ a :
  wf_ctx ctx -> sub_ok Sub ctx -> typed_msg msg -> is_Some (Bank msg) \/ is_Some (IBC msg) ->
  models σ a -> always (NewDefaultMessageHandler Handler [] ctx addr port msg) (reach a) σ.
Proof.
  intros Hc Hs Ht Hset Hm. unfold NewDefaultMessageHandler.
  cbn [MessageHandlerChain_DispatchMsg foldl].
  assert (forall c, preserves (kv_grows permanent)
    (IBCRawPacketHandler_DispatchMsg c addr port msg)) as G1
    by (intros; apply fr_IBCRawPacketHandler; apply _).
  assert (forall c, preserves (kv_grows permanent)
    (BurnCoinMessageHandler c addr port msg)) as G2 by (intros; apply fr_BurnCoin; apply _).
  apply always_bind; [growing; auto| |].
  - apply always_catch. unfold SDKMessageHandler_DispatchMsg.
    intros s Es. unfold mbind, M_bind.
    pose proof (quiet_kv (Encode DefaultEncoders ctx addr port msg) s ltac:(apply fr_Encode, _)) as Eq.
    destruct (Encode DefaultEncoders ctx addr port msg s) as [[l|e|p] s1] eqn:E; simpl in Eq;
      [|simpl; rewrite Eq, Es; by apply reach_refl..].
    assert (Forall non_wasm l) as Hl.
    { refine (wp_Encode ctx addr port msg (kv s) (fun l _ => Forall non_wasm l) Ht _ s l s1 eq_refl E).
      auto. }
    apply (always_handle_others ctx addr l noResult σ a); [done..|congruence].
  - intros [r|e] a1 σ1 _ Hm1; [by apply always_hush; [unfold quiet; frame|]|].
    apply always_tidy; [|done]. unfold tidy. frame.
    + apply tidy_IBCRawPacketHandler.
    + apply tidy_BurnCoin.
Qed.

(** A wasm message runs only with the contract as its signer. *)
Lemma wp_handleSdkMessage ctx addr msg σ a :
  wf_ctx ctx -> sub_ok Sub ctx -> typed_sdk msg -> models σ a -> is_Some (contracts a !! addr) ->
  wp (handleSdkMessage Handler ctx addr msg) (fun _ => reach a) σ.
Proof.
  intros Hc Hs Ht Hm Ha. unfold handleSdkMessage. wp_step. wp_step.
  destruct (GetMsgV1Signers msg) as [signers|] eqn:Hg; [|wp_step]. wp_step.
  apply wp_guard. intros Hall%negb_false_iff.
  destruct (Handler msg) as [hd|] eqn:Hh; [|wp_step]. apply wp_handler; try done.
  intros m ->. apply signer_of_wasm in Hg as (actor & Hact & ->). exists actor. split; [done|].
  simpl in Hall. rewrite andb_true_r in Hall. apply bool_decide_eq_true in Hall.
  simpl in Hall. subst actor. by right.
Qed.
Lemma wp_handle_all ctx addr msgs acc σ a :
  wf_ctx ctx -> sub_ok Sub ctx -> Forall typed_sdk msgs -> models σ a ->
  is_Some (contracts a !! addr) ->
  wp (handle_all Handler ctx addr msgs acc) (fun _ => reach a) σ.
Proof.
  intros Hc Hs Hl. revert acc σ a. induction Hl as [|msg msgs Ht _ IH]; intros acc σ a Hm Ha; simpl.
  { apply wp_ret. by apply reach_refl. }
  apply wp_reach_bind; [growing|by apply wp_handleSdkMessage|]. intros res a' σ' S Hm'.
  apply IH; [done|]. by eapply contracts_steps.
Qed.

(** The handlers behind the first one return nothing for messages that are
    neither bank nor IBC messages. *)
Lemma wp_chain ctx addr port msg σ a :
  wf_ctx ctx -> sub_ok Sub ctx -> typed_msg msg -> models σ a -> is_Some (contracts a !! addr) ->
  wp (NewDefaultMessageHandler Handler [] ctx addr port msg) (fun _ => reach a) σ.
Proof.
  intros Hc Hs Ht Hm Ha. destruct (Bank msg) as [b|] eqn:Hb; [|destruct (IBC msg) as [i|] eqn:Hi].
  1,2: apply always_wp, always_chain; try done; rewrite ?Hb, ?Hi; eauto.
  unfold NewDefaultMessageHandler. cbn [MessageHandlerChain_DispatchMsg foldl]. apply wp_catch.
  - apply wp_bind. eapply wp_Encode; [done|]. intros msgs Hl _.
    eapply wp_mono; [by apply wp_handle_all|]. intros r σ' Hr. by apply wp_ret.
  - intros err σ'. case_match; [|apply wp_fail]. unfold IBCRawPacketHandler_DispatchMsg. rewrite Hi.
    apply wp_catch; [apply wp_fail|]. intros err' σ''. case_match; [|apply wp_fail].
    unfold BurnCoinMessageHandler. rewrite Hb.
    apply wp_catch; [apply wp_fail|]. intros err'' σ3. case_match; apply wp_fail.
Qed.
Lemma messenger_ok : dispatches k Sub sender old (System.messenger k json_QueryRequest h).
Proof.
  split.
  { intros. apply (fr_messenger k json_QueryRequest (kv_grows permanent)), h_ok. }
  intros ctx addr port msg σ a Hc Hs Ht Hm Ha.
  unfold System.messenger, keeper_messenger, callDepthMessageHandler_DispatchMsg.
  destruct (Keeper.checkAndIncreaseCallDepth ctx (maxCallDepth k)) as [ctx'|] eqn:E; [|apply wp_fail].
  unfold Keeper.checkAndIncreaseCallDepth in E. repeat case_match; simplify_eq.
  by apply wp_chain.
Qed.

End Response.

Lemma response_handler_ok depth :
  handles k Sub sender old (System.response_handler k json_QueryRequest depth).
Proof.
  induction depth as [|depth IH].
  { split; [intros; unfold grows; frame|]. intros. apply wp_throw. }
  cbn [System.response_handler]. apply Handle_ok; [by apply messenger_ok| |].
  - intros. apply fr_reply; [apply _..|apply query_grows|apply IH].
  - intros. by apply wp_reply.
Qed.

(** A message of a transaction that is accepted. *)
Lemma Route_reaches depth ctx msg s a r s' :
  wf_ctx ctx -> sub_ok Sub ctx -> typed_sdk msg -> models (kv s) a ->
  (forall m, msg = SWasm m -> exists actor,
     AccAddressFromBech32 (MsgServer.msg_signer m) = inl actor /\ sender actor) ->
  System.Route k json_QueryRequest depth ctx msg s = (Ret r, s') -> reach a (kv s').
Proof.
  intros Hc Hs Ht Hm Ha E. unfold System.Route in E.
  destruct (System.Handler _ _ _ msg) as [hd|] eqn:Hh; [|done].
  refine (wp_handler _ (response_handler_ok depth) ctx msg hd (kv s) a Hc Hs Ht _ Hh Hm s r s' eq_refl E).
  intros m ->. destruct (Ha m eq_refl) as (actor & ? & ?). exists actor. split; [done|by left].
Qed.
(** A call of ibc-go that is committed. *)
Lemma Deliver_reaches depth ctx c s a r s' :
  wf_ctx ctx -> sub_ok Sub ctx -> models (kv s) a ->
  System.Deliver k json_QueryRequest depth ctx c s = (Ret r, s') ->
  Relay.committed r = true -> reach a (kv s').
Proof.
  intros Hc Hs Hm E.
  by refine (RelayRefine.wp_deliver k _ _ _ Sub sender old (response_handler_ok depth)
               ctx c (kv s) a Hc Hs Hm s r s' eq_refl E).
Qed.

End System.
End RefineSystem.
