(* ===== verification/Guarantees.v ===== *)
(** What the refinement means for users of the module: the invariant of every
    store the module reaches, what no message changes, and what a message
    changes only with the permission of an admin, a creator or the
    authority. *)
From S2P Require Import Prelude Errors GoStrings Json Types Proto Keys VMTypes Policy GasRegister Chain Logic Wp Engine Store Registry Events Keeper Dispatcher Msgs MsgServer KeeperFrame Encoders Messenger QueryPlugins Relay System SystemFrame Refinement RefineKeeper RelayRefine RefineSystem.
Import GoStrings Keys Store.Store Msgs.Msgs Encoders.Encoders Messenger.Messenger.
Import Registry.Registry Refinement.Refinement RefineKeeper.RefineKeeper RefineSystem.RefineSystem.
Open Scope wasm_scope.

Module Guarantees.

Section Guarantees.
Context `{GasMeters, Modules, KVStorePkg, Bech32, ErrorsMod, UnicodeTables,
  AddressPkg, CoinsPkg, Codecs, Gzip, VerificationPkg}.
Context `{!WasmEngine, !Keepers, !ICS4, !CoinConversion, !TransferPort, !AnyUnpacker,
  !MsgCodec, !QueryKeepers, !IBCEngine, !IBCCore, !AppRouter}.
Context `{!Bech32Laws, !AddressPkgLaws, !CodecsLaws, !WasmEngineLaws, !IBCEngineLaws,
  !MsgCodecLaws, !AnyUnpackerLaws}.
Context (k : KeeperConfig).
Context (json_QueryRequest : bytes -> QueryRequest + string).

#[local] Abbreviation Route := (System.Route k json_QueryRequest).
#[local] Abbreviation Deliver := (System.Deliver k json_QueryRequest).
#[local] Abbreviation signer msg := (AccAddressFromBech32 (MsgServer.msg_signer msg)).
#[local] Abbreviation steps := (steps (authority k) (propagateGovAuthorization k)).

(** The message comes from [sender]: a wasm message is signed by an address in
    it. Messages of other modules act for others only as [acts_for] says. *)
Definition signed_by (msg : SdkMsg) (sender : bytes -> Prop) : Prop :=
  forall m, msg = SWasm m -> exists actor, signer m = inl actor /\ sender actor.
(** A transaction message is not a submessage, and its numbers are those of
    Go's types. *)
Definition transaction (ctx : Context) (msg : SdkMsg) : Prop :=
  wf_ctx ctx /\ ctx_SubMsgPolicy ctx = None /\ typed_sdk msg.

(** *** The specification *)

Section Refines.
Context (Sub : Policy.AuthorizationPolicy -> Prop) (sender old : bytes -> Prop).

(** C1: Refinement of the assembled module. When the application accepts a
    message, of the wasm module or of any other, on a store that represents a
    registry, then the store it leaves represents a registry reached by a
    sequence of steps of the abstract specification, each permitted to an
    address in [sender] or to a contract acting for itself, whatever
    contracts, replies, queries, submessages, failures and calls back from
    other modules were in between. [sender] has the signer of the message and
    everyone for whom other modules (authz, group) send messages. The store
    must not have used up the 64-bit code ids or history positions. *)
Theorem Route_refines depth ctx msg s a r s' :
  (forall p action, Sub p -> Sub (Policy.SubMessageAuthorizationPolicy p action)) ->
  (forall actor action,
     governs (authority k) actor -> sender actor \/ old actor \/ derived actor ->
     Sub (Policy.SubMessageAuthorizationPolicy
            (Policy.GovAuthorizationPolicy (propagateGovAuthorization k)) action)) ->
  acts_for sender ->
  wf_ctx ctx -> sub_ok Sub ctx -> typed_sdk msg -> signed_by msg sender ->
  models old (kv s) a ->
  Route depth ctx msg s = (Ret r, s') -> ~ full (kv s') ->
  exists a', steps Sub sender a a' /\ models old (kv s') a'.
Proof.
  intros Hcl Hg Hr Hc Hs Ht Hsg Hm E Hf.
  by destruct (Route_reaches k _ Sub sender old Hcl Hg Hr depth ctx msg s a r s' Hc Hs Ht Hm Hsg E).
Qed.
End Refines.

(** *** Every reachable store *)

Definition anyone (x : bytes) : Prop := True.
Definition any_policy (p : Policy.AuthorizationPolicy) : Prop := True.

(** The stores after accepted transaction messages and calls of ibc-go that
    are committed, from a store with parameters and nothing else. A rejected
    message leaves the store it found. *)
Inductive reachable (ps : Params) : kvs -> Prop :=
| reachable_genesis σ : models anyone σ (mkRegistry ∅ ∅ ∅ ∅ (Some ps) None None) -> reachable ps σ
| reachable_message depth ctx msg s r s' :
    reachable ps (kv s) -> wf_ctx ctx -> typed_sdk msg -> signed_by msg anyone ->
    Route depth ctx msg s = (Ret r, s') -> reachable ps (kv s')
| reachable_ibc depth ctx c s r s' :
    reachable ps (kv s) -> wf_ctx ctx -> Deliver depth ctx c s = (Ret r, s') ->
    Relay.committed r = true -> reachable ps (kv s').

Section Anyone.
(** Other modules send well-formed messages. *)
Hypothesis router_ok : acts_for anyone.

Lemma route_any depth ctx msg s a r s' :
  wf_ctx ctx -> typed_sdk msg -> models anyone (kv s) a -> signed_by msg anyone ->
  Route depth ctx msg s = (Ret r, s') -> reach k any_policy anyone anyone a (kv s').
Proof. intros. by eapply (Route_reaches k _ any_policy anyone). Qed.
Lemma route_full depth ctx msg s r s' :
  Route depth ctx msg s = (Ret r, s') -> full (kv s) -> full (kv s').
Proof.
  intros E Hf. pose proof (fr_Route k json_QueryRequest (kv_grows permanent) depth ctx msg s) as Hg.
  rewrite E in Hg. by eapply full_grows.
Qed.
Lemma deliver_full depth ctx c s r s' :
  Deliver depth ctx c s = (Ret r, s') -> full (kv s) -> full (kv s').
Proof.
  intros E Hf.
  pose proof (fr_Deliver k json_QueryRequest (kv_grows permanent) depth ctx c (receives_any c) s) as Hg.
  rewrite E in Hg. by eapply full_grows.
Qed.

Lemma reachable_reach ps σ :
  reachable ps σ -> reach k any_policy anyone anyone (mkRegistry ∅ ∅ ∅ ∅ (Some ps) None None) σ.
Proof.
  induction 1 as [σ Hm|depth ctx msg s r s' _ [(a & S & Hm)|Hf] Hc Ht Hs E
    |depth ctx c s r s' _ [(a & S & Hm)|Hf] Hc E Hr].
  - by apply reach_refl.
  - eapply reach_steps; [exact S|]. by eapply route_any.
  - right. by eapply route_full.
  - eapply reach_steps; [exact S|]. by eapply (Deliver_reaches k _ any_policy anyone).
  - right. by eapply deliver_full.
Qed.

(** C2: The invariant. Every store that messages of anyone and calls of ibc-go
    reach from a fresh store, unless it has used up the 64-bit code ids or
    history positions, represents a coherent registry: its code ids were
    handed out in order, every contract runs a stored code that ends its
    history, every pinned code exists, the secondary indexes hold exactly the
    contracts, and every record decodes. *)
Theorem reachable_coherent ps σ :
  reachable ps σ -> ~ full σ ->
  exists a, steps any_policy anyone (mkRegistry ∅ ∅ ∅ ∅ (Some ps) None None) a
    /\ repr σ a /\ coherent a /\ storable a.
Proof.
  intros R Hf. destruct (reachable_reach ps σ R) as [(a & S & ? & ? & ? & _)|]; [|done].
  by exists a.
Qed.

(** *** The type of a store *)

(** What a value must be to be read under a key without an error or a panic. *)
Definition decodes (A : Type) `{Codec A} (bz : bytes) : Prop :=
  exists x : A, unmarshal bz = inl x /\ codec_wf x.
Definition entry_typed (e : Entry) (bz : bytes) : Prop :=
  match e with
  | KCode _ => decodes CodeInfo bz
  | KContract _ => decodes ContractInfo bz
  | KHistory _ _ => decodes ContractCodeHistoryEntry bz
  | KParams => decodes Params bz
  | KSequenceCodeID | KSequenceInstanceID => length bz = 8
  | KPinned _ => bz = [Byte.x01]
  | KByCodeID _ _ _ | KByCreator _ _ _ => bz = []
  | KStore _ _ | KTXCounter | KAsyncAck _ _ _ => True
  end.
Definition store_typed (σ : kvs) : Prop :=
  forall e bz, reg_entry e -> σ !! entry_key e = Some bz -> entry_typed e bz.

Lemma stored_decodes {A} `{CodecLaws A} (x : A) : stored x -> decodes A (marshal x).
Proof. intros [Hwf Hl]. exists x. by rewrite codec_roundtrip. Qed.

Lemma repr_typed σ a : repr σ a -> storable a -> store_typed σ.
Proof.
  intros Hr [S1 S2 S3 S4] e bz He Hb. rewrite (Hr e He) in Hb.
  destruct e; cbn [encode entry_typed] in Hb |- *; try done.
  - destruct (codes a !! codeID) as [c|] eqn:E; [|done]. apply (inj Some) in Hb as <-.
    by apply (stored_decodes c), (S1 codeID).
  - destruct (contracts a !! addr) as [i|] eqn:E; [|done]. apply (inj Some) in Hb as <-.
    by apply (stored_decodes i), (S2 addr).
  - by destruct (next_code a); simplify_eq/=.
  - by destruct (next_instance a); simplify_eq/=.
  - case_match; [done|]. destruct (history_of a addr !! _) as [h|] eqn:E; [|done].
    apply (inj Some) in Hb as <-. apply (stored_decodes h), (S3 addr).
    by eapply list_elem_of_lookup_2.
  - unfold flag in Hb. by repeat case_match; simplify_eq.
  - unfold flag in Hb. by repeat case_match; simplify_eq.
  - unfold flag in Hb. by repeat case_match; simplify_eq.
  - destruct (params a) as [p|] eqn:E; [|done]. apply (inj Some) in Hb as <-.
    by apply (stored_decodes p), S4.
Qed.


(** *** What no message changes *)

(** C6: A stored code is permanent: no message, of whatever module, removes it
    or changes its checksum or its creator (as long as the 64-bit code ids
    and history positions are not used up). *)
Theorem code_permanent depth ctx msg s a r s' id c :
  wf_ctx ctx -> typed_sdk msg -> models anyone (kv s) a -> signed_by msg anyone ->
  Route depth ctx msg s = (Ret r, s') -> ~ full (kv s') -> codes a !! id = Some c ->
  exists c', kv s' !! GetCodeKey id = Some (marshal c')
    /\ CodeHash c' = CodeHash c /\ CodeCreator c' = CodeCreator c.
Proof.
  intros Hc Ht Hm Hs E Hf Hid.
  destruct (route_any _ _ _ _ _ _ _ Hc Ht Hm Hs E) as [(b & Sb & Hb)|]; [|done].
  destruct (steps_code_kept _ _ _ _ a b id c ltac:(apply Hm) Sb Hid) as (c' & Hid' & ? & ?).
  exists c'. split; [|done]. pose proof (code_u64 _ _ _ _ _ Hb Hid') as Hu.
  destruct Hb as (Hr & _). etrans; [by apply (Hr (KCode id))|]. cbn [encode]. by rewrite Hid'.
Qed.

(** C7: A contract is permanent: no message, of whatever module, removes it or
    changes who created it and when, and its history only grows at its end
    (as long as the 64-bit code ids and history positions are not used
    up). *)
Theorem contract_permanent depth ctx msg s a r s' addr i :
  wf_ctx ctx -> typed_sdk msg -> models anyone (kv s) a -> signed_by msg anyone ->
  Route depth ctx msg s = (Ret r, s') -> ~ full (kv s') -> contracts a !! addr = Some i ->
  (exists i', kv s' !! GetContractAddressKey addr = Some (marshal i') /\ Creator i' = Creator i
     /\ Created i' = Created i /\ Extension i' = Extension i)
  /\ (forall pos e, is_u64 pos -> (pos <> 0)%N -> history_of a addr !! N.to_nat (pos - 1) = Some e ->
        kv s' !! GetContractCodeHistoryElementKey addr pos = Some (marshal e)).
Proof.
  intros Hc Ht Hm Hs E Hf Hi.
  destruct (route_any _ _ _ _ _ _ _ Hc Ht Hm Hs E) as [(b & Sb & (Hr & _))|]; [|done].
  destruct (steps_contract_kept _ _ _ _ _ _ addr Sb) as [Hk Hh]. split.
  - destruct (Hk i Hi) as (i' & Hi' & ?). exists i'. split; [|done].
    etrans; [by apply (Hr (KContract addr))|]. cbn [encode]. by rewrite Hi'.
  - intros pos e Hu Hp He. etrans; [by apply (Hr (KHistory addr pos))|]. cbn [encode].
    rewrite (proj2 (N.eqb_neq pos 0)) by done.
    by rewrite (prefix_lookup_Some _ _ _ _ He Hh).
Qed.
End Anyone.

(** *** Messages of ordinary senders *)

(** The authority is not among the senders, is no contract and is no address
    that contracts get. *)
Definition ordinary (sender : bytes -> Prop) (a : Registry) : Prop :=
  forall x, governs (authority k) x -> ~ sender x /\ contracts a !! x = None /\ ~ derived x.
Definition default_only (p : Policy.AuthorizationPolicy) : Prop :=
  p = Policy.DefaultAuthorizationPolicy.
Lemma default_only_eq p : default_only p -> p = Policy.DefaultAuthorizationPolicy.
Proof. done. Qed.
Lemma default_closed p action :
  default_only p -> default_only (Policy.SubMessageAuthorizationPolicy p action).
Proof. by intros ->. Qed.
Lemma sub_ok_none ctx : ctx_SubMsgPolicy ctx = None -> sub_ok default_only ctx.
Proof. unfold sub_ok. by intros ->. Qed.
Definition already (a : Registry) (x : bytes) : Prop := is_Some (contracts a !! x).

Section Ordinary.
Context (sender : bytes -> Prop).
Hypothesis router_ok : acts_for sender.

Lemma ordinary_gov a actor action :
  ordinary sender a -> governs (authority k) actor ->
  sender actor \/ already a actor \/ derived actor ->
  default_only (Policy.SubMessageAuthorizationPolicy
    (Policy.GovAuthorizationPolicy (propagateGovAuthorization k)) action).
Proof.
  intros Ho Hg. destruct (Ho actor Hg) as (? & Hn & ?).
  intros [?|[[i Hi]|?]]; [done|congruence|done].
Qed.
Lemma route_ordinary depth ctx msg s a r s' :
  transaction ctx msg -> models (already a) (kv s) a -> signed_by msg sender ->
  ordinary sender a -> Route depth ctx msg s = (Ret r, s') ->
  reach k default_only sender (already a) a (kv s').
Proof.
  intros (Hc & Hp & Ht) Hm Hs Ho E.
  apply (Route_reaches k json_QueryRequest default_only sender (already a) default_closed
    (fun x action Hg Hx => ordinary_gov a x action Ho Hg Hx) router_ok depth ctx msg s a r s');
    auto using sub_ok_none.
Qed.
Lemma ordinary_not_gov a :
  ordinary sender a -> forall x, governs (authority k) x -> ~ sender x /\ ~ derived x.
Proof. intros Ho x Hx. destruct (Ho x Hx) as (? & ? & ?). done. Qed.
Lemma ordinary_absent a : ordinary sender a -> gov_absent (authority k) a.
Proof. intros Ho x Hx. by destruct (Ho x Hx) as (? & ? & ?). Qed.


Lemma record_kept depth ctx msg s a r s' addr i admin :
  transaction ctx msg -> models (already a) (kv s) a -> signed_by msg sender ->
  ordinary sender a -> Route depth ctx msg s = (Ret r, s') -> ~ full (kv s') ->
  contracts a !! addr = Some i -> AdminAddr i = Ret admin ->
  (forall x, admin = Some x -> ~ sender x /\ kv s' !! GetContractAddressKey x = None) ->
  kv s' !! GetContractAddressKey addr = kv s !! GetContractAddressKey addr.
Proof.
  intros Hx Hm Hs Ho E Hf Hi Had Hadm.
  destruct (route_ordinary _ _ _ _ _ _ _ Hx Hm Hs Ho E) as [(b & Sb & (Hr & _))|]; [|done].
  assert (contracts b !! addr = Some i) as Hi'.
  { eapply (admin_needed _ _ _ _ default_only_eq (ordinary_not_gov _ Ho)); eauto;
      [by apply ordinary_absent|].
    intros x Ex [?|[j Hj]]; destruct (Hadm x Ex) as [? Hn]; [done|].
    change (GetContractAddressKey x) with (entry_key (KContract x)) in Hn.
    rewrite (Hr (KContract x)) in Hn by done. cbn [encode] in Hn. by rewrite Hj in Hn. }
  change (GetContractAddressKey addr) with (entry_key (KContract addr)).
  destruct Hm as (Hr0 & _).
  rewrite (Hr (KContract addr)), (Hr0 (KContract addr)) by done.
  cbn [encode]. by rewrite Hi, Hi'.
Qed.



(** *** IBC *)


End Ordinary.

End Guarantees.
End Guarantees.
