(* ===== verification/Packets.v ===== *)
(** Packets that wait for their acknowledgement: a packet that a contract
    receives without acknowledging it stays in the store as it came, whatever
    messages and deliveries follow, until it is removed. *)
From S2P Require Import Prelude Errors GoStrings Json Types Proto Keys VMTypes Policy GasRegister Chain Logic Wp Engine Store Registry Events Keeper Dispatcher Msgs MsgServer KeeperFrame Encoders Messenger QueryPlugins Relay System SystemFrame Refinement RefineKeeper RelayRefine.
Import GoStrings Keys Store.Store Events.Events Keeper.Keeper Encoders.Encoders Messenger.Messenger.
Import Refinement.Refinement.
Open Scope wasm_scope.

Module Packets.

Section Packets.
Context `{GasMeters, Modules, KVStorePkg, Bech32, ErrorsMod, UnicodeTables,
  AddressPkg, CoinsPkg, Codecs, Gzip, VerificationPkg}.
Context `{!WasmEngine, !Keepers, !ICS4, !CoinConversion, !TransferPort, !AnyUnpacker,
  !MsgCodec, !QueryKeepers, !IBCEngine, !IBCCore, !AppRouter}.
Context `{!CodecsLaws}.
Context (k : KeeperConfig).
Context (json_QueryRequest : bytes -> QueryRequest + string).

#[local] Abbreviation Route := (System.Route k json_QueryRequest).
#[local] Abbreviation Deliver := (System.Deliver k json_QueryRequest).

(** ** What follows a receipt *)

(** Where a packet arrives; IBC identifiers are short and have no NUL byte. *)
Definition slot (p : Packet) : Entry :=
  KAsyncAck (P_DestinationPort p) (P_DestinationChannel p) (P_Sequence p).
(** ibc-go numbers the packets of a channel: only [packet] itself arrives at
    its port and channel with its sequence. *)
Definition only (packet p : Packet) : Prop :=
  wf_entry (slot p) /\ (slot p = slot packet -> p = packet).

(** The states after messages, accepted or not, and deliveries. The meter, the
    events and the other modules' states may change between two of them. *)
Inductive later (packet : Packet) (s : State) : State -> Prop :=
| later_now t : kv t = kv s -> later packet s t
| later_message depth ctx msg t o t' t'' :
    later packet s t -> Route depth ctx msg t = (o, t') -> kv t'' = kv t' -> later packet s t''
| later_delivery depth ctx c t o t' t'' :
    later packet s t -> receives (only packet) c -> Deliver depth ctx c t = (o, t') ->
    kv t'' = kv t' -> later packet s t''.

(** ** The entry of a packet *)

Definition waiting (packet : Packet) (s : State) : Prop :=
  kv s !! packet_key packet = None \/ kv s !! packet_key packet = Some (marshal packet).
Definition keeps (packet : Packet) (s s' : State) : Prop :=
  waiting packet s -> waiting packet s'.

#[local] Instance keeps_frame packet : StateFrame (keeps packet).
Proof.
  split; try (intros; intros Hw; exact Hw).
  - split; [by intros ? ?|]. intros a b c Hab Hbc Hw. auto.
  - intros s mt s' R Hw. exact (R Hw).
Qed.
Lemma packet_key_first packet key : settable key -> key <> packet_key packet.
Proof. intros Hs ->. by destruct Hs. Qed.
#[local] Instance keeps_writes packet : WriteFrame (keeps packet).
Proof.
  split; intros key; [intros v s Hs Hw|intros s _ Hw]; unfold waiting; simpl.
  - rewrite lookup_insert_ne; [done|by apply packet_key_first].
  - destruct (decide (key = packet_key packet)) as [->|];
      [left; apply lookup_delete_eq|by rewrite lookup_delete_ne].
Qed.

Section Keeps.
Context (packet : Packet).
Hypothesis packet_slot : wf_entry (slot packet).
(** Other modules relay only what ibc-go accepts. *)
Hypothesis router_only : forall msg op ctx x,
  route_other msg = Some op -> all_calls (fun _ => True) (receives (only packet)) (op ctx x).

#[local] Instance keeps_receives : ReceiveFrame (keeps packet).
Proof.
  exists (only packet); [|exact router_only].
  intros p s [Hp Ho] Hw. unfold waiting; simpl.
  destruct (decide (packet_key p = packet_key packet)) as [E|];
    [|by rewrite lookup_insert_ne].
  right. rewrite E, lookup_insert_eq. f_equal. f_equal. apply Ho.
  by apply (entry_key_inj (slot p) (slot packet)).
Defined.

Lemma later_keeps s t : later packet s t -> waiting packet s -> waiting packet t.
Proof.
  induction 1 as [t E|depth ctx msg t o t' t'' _ IH E E'|depth ctx c t o t' t'' _ IH Hc E E'];
    intros Hw; unfold waiting.
  - by rewrite E.
  - rewrite E'. pose proof (fr_Route k json_QueryRequest (keeps packet) depth ctx msg t) as Hk.
    rewrite E in Hk. by apply Hk, IH.
  - rewrite E'. pose proof (fr_Deliver k json_QueryRequest (keeps packet) depth ctx c Hc t) as Hk.
    rewrite E in Hk. by apply Hk, IH.
Qed.
End Keeps.

(** ** Receipt and load *)

(** A received packet without acknowledgement is kept as it came. *)
Lemma wp_recv_async HandleQuery handler ctx packet relayer σ :
  wp (Relay.IBC_OnRecvPacket k json_QueryRequest HandleQuery handler ctx packet relayer)
    (fun ack σ' => ack = None -> σ' !! packet_key packet = Some (marshal packet)) σ.
Proof.
  unfold Relay.IBC_OnRecvPacket. destruct (ContractFromPortID _) as [addr|]; [|apply wp_throw].
  cbv zeta. wp_step. apply wp_with_events.
  - unfold Relay.OnRecvPacket. wp_step. intros s [i res] s' _ _.
    destruct res as [r|]; [|apply wp_throw].
    case_decide; [|wp_step; intros em; by apply RelayRefine.wp_acknowledge].
    wp_step. intros s1 ok s1' _ _. wp_step. intros s2 data s2' _ _.
    destruct data as [d|].
    { wp_step. intros em. by apply RelayRefine.wp_acknowledge. }
    unfold StoreAsyncAckPacket. cbn [PR_Packet]. rewrite Relay.convertPacket_newIBCPacket.
    wp_step. wp_step. apply wp_MustMarshal. intros _. wp_step. apply wp_kv_set. wp_step. intros em.
    apply (RelayRefine.wp_acknowledge true). intros _. apply lookup_insert_eq.
  - intros o em σ' Ho. destruct o as [ack|err|p]; cbv beta iota; [by destruct (Ho ack)| |apply wp_throw].
    unfold Relay.EmitAcknowledgementEvent. wp_step. wp_step. by wp_step.
Qed.

Lemma wp_load packet σ :
  codec_wf packet -> (blen (marshal packet) < Proto.two63)%N -> marshal packet <> [] ->
  σ !! packet_key packet = None \/ σ !! packet_key packet = Some (marshal packet) ->
  wp (LoadAsyncAckPacket (P_DestinationPort packet) (P_DestinationChannel packet)
        (P_Sequence packet)) (fun p _ => p = packet) σ.
Proof.
  intros Hw Hl Hne E. unfold LoadAsyncAckPacket. wp_step. wp_step. apply wp_kv_get.
  change (getAsyncAckStoreAndKey _ _ _) with (packet_key packet).
  destruct E as [-> | ->]; [apply wp_fail|].
  change (default [] (Some (marshal packet))) with (marshal packet).
  rewrite (proj2 (Nat.eqb_neq _ 0)) by (by destruct (marshal packet)).
  rewrite codec_roundtrip by done. by apply wp_ret.
Qed.

(** C26: asynchronous acknowledgements. A packet that arrives and gets no
    acknowledgement is stored under its port, channel and sequence. Whatever
    messages (accepted or not, of whatever module) and deliveries of ibc-go
    follow, as long as no other packet arrives at the same port and channel
    with the same sequence, the packet that a later WriteAcknowledgement
    message of the contract loads under them is the very packet that was
    received. *)
Theorem async_packet_kept packet depth ctx relayer s s1 t p t' :
  wf_entry (slot packet) ->
  (forall msg op ctx x,
     route_other msg = Some op -> all_calls (fun _ => True) (receives (only packet)) (op ctx x)) ->
  codec_wf packet -> (blen (marshal packet) < Proto.two63)%N -> marshal packet <> [] ->
  Deliver depth ctx (Relay.RecvPacket packet relayer) s = (Ret (Relay.Acked None), s1) ->
  later packet s1 t ->
  kv s1 !! packet_key packet = Some (marshal packet)
  /\ (LoadAsyncAckPacket (P_DestinationPort packet) (P_DestinationChannel packet)
        (P_Sequence packet) t = (Ret p, t') -> p = packet).
Proof.
  intros Hs Hr Hw Hl Hne E L.
  assert (kv s1 !! packet_key packet = Some (marshal packet)) as E1.
  { unfold System.Deliver, System.ibc_module, Relay.deliver, mbind, M_bind in E.
    destruct (Relay.IBC_OnRecvPacket _ _ _ _ _ _ _ _) as [[ack| |] s2] eqn:Ea; [|done..].
    injection E as -> <-.
    exact (wp_recv_async _ _ ctx packet relayer (kv s) s None s2 eq_refl Ea eq_refl). }
  split; [done|]. intros Ep.
  assert (waiting packet t) as Ht by (apply (later_keeps packet Hs Hr s1); [done|by right]).
  by apply (wp_load packet (kv t) Hw Hl Hne Ht t p t').
Qed.

End Packets.
End Packets.
