(* ===== verification/Termination.v ===== *)
(** Nested calls end: beyond the nesting that the query stack limit, the call
    depth limit and the gas allow, the recursion bound of System.v makes no
    difference. *)
From S2P Require Import Prelude Errors GoStrings Json Types Keys VMTypes Policy GasRegister Chain Logic Engine Store Events Keeper Dispatcher Msgs MsgServer KeeperFrame Encoders Messenger QueryPlugins Relay System SystemFrame.
Import GoStrings Keys Store.Store Encoders.Encoders Messenger.Messenger.
Open Scope wasm_scope.

Module Termination.

(** ** Queries *)

Section Queries.
Context `{GasMeters, Modules, KVStorePkg, Bech32, ErrorsMod, UnicodeTables,
  AddressPkg, CoinsPkg, Codecs, Gzip, VerificationPkg}.
Context `{!WasmEngine, !Keepers, !QueryKeepers}.
Context (k : KeeperConfig).
Context (json_QueryRequest : bytes -> QueryRequest + string).

Abbreviation everywhere := (fun _ : State => True).

Lemma any_preserves {A} (m : M A) : preserves any_state m.
Proof. by intros s. Qed.
Hint Resolve any_preserves : frame.

Lemma agree_run_prog {T} gm prefix rq1 rq2 (p : Prog T) fr c :
  (forall req g, agree everywhere (rq1 req g) (rq2 req g)) ->
  agree everywhere (run_prog gm prefix rq1 fr c p) (run_prog gm prefix rq2 fr c p).
Proof.
  intros Hq. revert fr. induction p; intros fr; cbn [run_prog]; [agree|..];
    (eapply (agree_bind everywhere); [apply _| |apply any_preserves|
       intros [e r]; repeat case_match; auto]);
    unfold cGet, cSet, cDelete; try apply agree_refl.
  unfold recoverPanic, cQueryExternal, metered, measured. agree.
Qed.
Lemma agree_vm_entry {A} gm rq1 rq2 prefix prog g decode sub :
  (forall req g, agree everywhere (rq1 req g) (rq2 req g)) ->
  agree everywhere (vm_entry (A := A) gm rq1 prefix prog g decode sub)
    (vm_entry gm rq2 prefix prog g decode sub).
Proof. intros Hq. unfold vm_entry, vm_call. agree. by apply agree_run_prog. Qed.

Lemma agree_handle_query QS1 QS2 ctx caller r :
  (forall a req, agree everywhere (QS1 ctx a req) (QS2 ctx a req)) ->
  agree everywhere (System.handle_query QS1 ctx caller r) (System.handle_query QS2 ctx caller r).
Proof.
  intros Hq. unfold System.handle_query, QueryPlugins.HandleQuery, QueryPlugins.DefaultQueryPlugins.
  simpl. repeat case_match; rewrite ?mret_bind; try apply agree_refl.
  unfold QueryPlugins.WasmQuerier. agree.
Qed.

Lemma agree_QuerySmart HQ1 HQ2 ctx a req :
  (forall ctx' caller r,
     Keeper.checkAndIncreaseQueryStackSize ctx (maxQueryStackSize k) = inl ctx' ->
     agree everywhere (HQ1 ctx' caller r) (HQ2 ctx' caller r)) ->
  agree everywhere (Keeper.QuerySmart k json_QueryRequest HQ1 ctx a req)
    (Keeper.QuerySmart k json_QueryRequest HQ2 ctx a req).
Proof.
  intros Hq. unfold Keeper.QuerySmart.
  destruct (Keeper.checkAndIncreaseQueryStackSize _ _) as [ctx'|] eqn:E; [|apply agree_refl].
  agree. unfold VM_Query. apply agree_vm_entry. intros rq g.
  unfold Keeper.querier, RustQuery, Query. agree.
  eapply (agree_with_meter _ everywhere); [done|]. agree.
Qed.

(** The number of nested queries a context is in. *)
Definition stack_size (ctx : Context) : N := default 0%N (ctx_QueryStackSize ctx).

(** With a bound above what the limit on the query stack leaves, the answer,
    the error and the state do not depend on the bound. *)
Lemma query_smart_bounded n1 n2 ctx a req s :
  (maxQueryStackSize k < MaxUint32)%N ->
  (stack_size ctx <= maxQueryStackSize k)%N ->
  N.to_nat (maxQueryStackSize k - stack_size ctx) < n1 ->
  N.to_nat (maxQueryStackSize k - stack_size ctx) < n2 ->
  System.query_smart k json_QueryRequest n1 ctx a req s
  = System.query_smart k json_QueryRequest n2 ctx a req s.
Proof.
  intros Hmax. revert n2 ctx a req s.
  induction n1 as [|n1 IH]; intros [|n2] ctx a req s Hs Hn1 Hn2; [lia..|]. simpl.
  apply agree_QuerySmart; [|done]. intros ctx' caller r E.
  apply agree_handle_query. intros a' req' s' _.
  unfold Keeper.checkAndIncreaseQueryStackSize, Keeper.inc32 in E.
  change (default 0%N (ctx_QueryStackSize ctx)) with (stack_size ctx) in E.
  unfold MaxUint32 in Hmax. unfold wrap32, two32 in E.
  rewrite N.mod_small in E by lia.
  destruct (N.ltb_spec (maxQueryStackSize k) (stack_size ctx + 1)); simplify_eq/=.
  apply IH; unfold stack_size in *; simpl; lia.
Qed.

(** C11: nested queries end. Contracts may query contracts, but the limit on the
    query stack cuts the recursion: the query of the assembled module, which
    recurses at most as often as the limit allows and once more, satisfies
    the recursive equation of the Go code, in which the plugins call
    QuerySmart again without any bound. *)
Theorem QuerySmart_equation ctx a req s :
  (maxQueryStackSize k < MaxUint32)%N ->
  (stack_size ctx <= maxQueryStackSize k)%N ->
  System.QuerySmart k json_QueryRequest ctx a req s
  = Keeper.QuerySmart k json_QueryRequest
      (System.handle_query (System.QuerySmart k json_QueryRequest)) ctx a req s.
Proof.
  intros Hmax Hs.
  change (System.QuerySmart k json_QueryRequest ctx a req s
    = System.query_smart k json_QueryRequest (S (System.query_depth k)) ctx a req s).
  apply query_smart_bounded; unfold System.query_depth; lia.
Qed.

End Queries.

(** ** Messages *)

Section Messages.
Context `{GasMeters, Modules, KVStorePkg, Bech32, ErrorsMod, UnicodeTables,
  AddressPkg, CoinsPkg, Codecs, Gzip, VerificationPkg}.
Context `{!WasmEngine, !Keepers, !ICS4, !CoinConversion, !TransferPort, !AnyUnpacker,
  !MsgCodec, !QueryKeepers, !IBCEngine, !IBCCore, !AppRouter, !GasMetersLaws}.
Context (k : KeeperConfig).
Context (json_QueryRequest : bytes -> QueryRequest + string).

#[local] Hint Resolve fr_MustMarshal fr_MustUnmarshal fr_GetParams fr_GetCodeInfo
  fr_GetContractInfo fr_contractInstance fr_checkDiscountEligibility fr_IsPinnedCode
  fr_HasContractInfo fr_charge_setup fr_runtimeGas fr_finish_call fr_deref fr_TransferCoins
  fr_AnalyzeCode fr_vm_entry fr_prepare_account fr_ensureIbcPort fr_persist_instance fr_create
  fr_callMigrate fr_migrate_port fr_persist_migration fr_parse_address fr_parse_admin
  fr_require_authority fr_ClassicAddressGenerator fr_PredictableAddressGenerator fr_Encode
  fr_HandleQuery : frame.

(** Whatever prefix a contract writes under. *)
Lemma mono_vm_entry {A} gm ctx addr prefix prog g decode sub :
  preserves gas_mono (vm_entry (A := A) gm
    (Keeper.querier k json_QueryRequest (System.HandleQuery k json_QueryRequest) ctx addr)
    prefix prog g decode sub).
Proof.
  apply (preserves_vm_entry gm gas_mono prefix).
  - intros. split; intros; apply touch_gas_mono.
  - intros. apply RustQuery_preserves; [apply _|]. intros. apply fr_HandleQuery; apply _.
Qed.
#[local] Hint Resolve mono_vm_entry : frame.

Lemma mono_ibc_call {A} ctx a (prog : VMState -> bytes -> Env -> N -> VMProg)
    (decode : bytes -> A + string) sub :
  preserves gas_mono (Relay.ibc_call k json_QueryRequest
    (System.HandleQuery k json_QueryRequest) ctx a
    (fun q prefix checksum env gas => vm_entry (Relay.ibc_meters k) q prefix
       (fun v => prog v checksum env gas) gas decode sub)).
Proof. apply (fr_ibc_call k json_QueryRequest gas_mono). intros. apply fr_HandleQuery; apply _. Qed.

(** A read of the store costs gas: the SDK's gas configuration charges a flat
    fee for it. *)
Definition total (cs : list (N * string)) : N := foldr (fun c t => (c.1 + t)%N) 0%N cs.
Definition reads_cost_gas : Prop := forall key v, (0 < total (kv_charges (OpGet key v)))%N.

(** What is left on a meter. *)
Definition rem (m : Meter) : N := (Limit m - GasConsumed m)%N.
Definition left_at_most (r : N) (s : State) : Prop := (rem (meter s) <= r)%N.
Definition left_within (r : N) (s : State) : Prop :=
  left_at_most r s /\ within_gas (meter s).

#[local] Instance left_at_most_stable r : Stable (left_at_most r) gas_mono.
Proof.
  split; [apply _|]. intros s s' [HL HC] Hs. unfold left_at_most, rem in *. lia.
Qed.

Lemma agree_bind_within {A B} r (m1 m2 : M A) (f1 f2 : A -> M B) :
  agree (left_within r) m1 m2 -> preserves gas_mono m1 -> kept m1 ->
  (forall a, agree (left_within r) (f1 a) (f2 a)) ->
  agree (left_within r) (m1 ≫= f1) (m2 ≫= f2).
Proof.
  intros Hm Hp Hk Hf s [Hs Hw]. unfold mbind, M_bind. rewrite <- (Hm s) by done.
  specialize (Hp s). specialize (Hk s Hw). unfold ends_within in Hk.
  destruct (m1 s) as [[a|e|p] s']; [|done..].
  apply Hf. split; [|done]. by apply (stable (P := left_at_most r) _ _ Hp).
Qed.

Lemma agree_bind_same {A B} P (m1 m2 : M A) (f : A -> M B) :
  agree P m1 m2 -> agree P (m1 ≫= f) (m2 ≫= f).
Proof. intros Hm s Hs. unfold mbind, M_bind. by rewrite (Hm s Hs). Qed.

Lemma agree_bind_gets {A B} P (f : State -> A) (g1 g2 : A -> M B) :
  (forall x, agree (fun s => P s /\ f s = x) (g1 x) (g2 x)) ->
  agree P (gets f ≫= g1) (gets f ≫= g2).
Proof. intros Hg s Hs. by apply (Hg (f s) s). Qed.
Lemma agree_bind_in {A B} P P' R `{!Stable P R} (m1 m2 : M A) (f1 f2 : A -> M B) :
  (forall s, P' s -> P s) -> agree P' m1 m2 -> preserves R m1 ->
  (forall a, agree P (f1 a) (f2 a)) -> agree P' (m1 ≫= f1) (m2 ≫= f2).
Proof.
  intros HP Hm Hp Hf s Hs. unfold mbind, M_bind. rewrite <- (Hm s Hs).
  specialize (Hp s). destruct (m1 s) as [[a|e|p] s']; [|done..].
  apply Hf. by eapply stable, HP.
Qed.

(** After a charge that went through, the meter is within its limit. *)
Lemma agree_bind_consume {B} r a d (f1 f2 : unit -> M B) :
  agree (left_within r) (f1 tt) (f2 tt) ->
  agree (left_at_most r) (consume a d ≫= f1) (consume a d ≫= f2).
Proof.
  intros Hf s Hs. unfold mbind, M_bind.
  destruct (consume_cases a d s) as [(m' & -> & HL & HC & Hw)|(m' & p & -> & _)]; [|done].
  apply Hf. split; [|done]. unfold left_at_most, rem in *. simpl. lia.
Qed.

(** A step that costs gas leaves less of it for what follows. *)
Definition spends {A} (m : M A) : Prop :=
  forall s a s', m s = (Ret a, s') -> (rem (meter s') < rem (meter s))%N.
Lemma agree_bind_spends {A B} r (m : M A) (f1 f2 : A -> M B) :
  spends m -> (forall a r', (r' < r)%N -> agree (left_at_most r') (f1 a) (f2 a)) ->
  agree (left_at_most r) (m ≫= f1) (m ≫= f2).
Proof.
  intros Hm Hf s Hs. unfold mbind, M_bind. specialize (Hm s).
  destruct (m s) as [[a|e|p] s'] eqn:E; [|done..]. specialize (Hm _ _ eq_refl).
  unfold left_at_most in *. apply (Hf a (rem (meter s'))); unfold left_at_most; lia.
Qed.
Lemma spends_bind_l {A B} (m : M A) (f : A -> M B) :
  spends m -> (forall a, preserves gas_mono (f a)) -> spends (m ≫= f).
Proof.
  intros Hm Hf s b s' E. unfold mbind, M_bind in E.
  destruct (m s) as [[a|e|p] s1] eqn:E1; [|done..].
  specialize (Hm _ _ _ E1). destruct (Hf a s1) as [HL HC]. rewrite E in *.
  unfold rem in *. simpl in *. lia.
Qed.

Lemma consume_all_total cs s s' :
  consume_all cs s = (Ret tt, s') ->
  Limit (meter s') = Limit (meter s)
  /\ GasConsumed (meter s') = (GasConsumed (meter s) + total cs)%N
  /\ (cs <> [] -> within_gas (meter s')).
Proof.
  revert s. induction cs as [|[a d] cs IH]; intros s; simpl.
  { intros [= <-]. split_and!; [done|lia|done]. }
  unfold mbind, M_bind.
  destruct (consume_cases a d s) as [(m' & -> & HL & HC & Hw)|(m' & p & -> & _)]; [|done].
  intros E. apply IH in E as (HL' & HC' & Hw'). simpl in *.
  split_and!; [congruence|lia|]. intros _. destruct cs; [|by apply Hw'].
  unfold within_gas in *. simpl in HC'. rewrite HL', HC', HL in *. lia.
Qed.

Lemma spends_kv_get key : reads_cost_gas -> spends (kv_get key).
Proof.
  intros Hc s v s' E. unfold kv_get, kv_access, mbind, M_bind in E. simpl in E.
  destruct (consume_all _ s) as [[[]|e|p] s1] eqn:E1; try done.
  apply consume_all_total in E1 as (HL & HC & Hw).
  specialize (Hc key (kv s !! key)).
  assert (s' = s1) as ->.
  { unfold fail, throw, mret, M_ret in E. repeat case_match; simplify_eq; done. }
  assert (within_gas (meter s1)) as Hw1.
  { apply Hw. intros E0. rewrite E0 in Hc. simpl in Hc. lia. }
  unfold within_gas, rem in *. rewrite HL in *. lia.
Qed.
Lemma spends_contractInstance a : reads_cost_gas -> spends (contractInstance a).
Proof.
  intros Hc. apply spends_bind_l; [by apply spends_kv_get|].
  frame.
Qed.

(** Keeper operations under two response handlers that agree at the call depth
    of the context. *)
Section Handlers.
Context (h1 h2 : Context -> bytes -> string -> list SubMsg -> option bytes ->
  M (option bytes)).
Context (depth : option N) (r : N).
Hypothesis h_mono : forall ctx addr port msgs data,
  preserves gas_mono (h1 ctx addr port msgs data).
Hypothesis h_agree : forall ctx addr port msgs data, ctx_CallDepth ctx = depth ->
  agree (left_within r) (h1 ctx addr port msgs data) (h2 ctx addr port msgs data).

Lemma agree_handleContractResponse ctx a p res :
  ctx_CallDepth ctx = depth ->
  agree (left_at_most r) (Keeper.handleContractResponse k h1 ctx a p res)
    (Keeper.handleContractResponse k h2 ctx a p res).
Proof.
  intros Hd. unfold Keeper.handleContractResponse.
  eapply (agree_bind (left_at_most r)); [apply _|apply agree_refl|frame|]. intros c.
  apply agree_bind_consume.
  apply agree_bind_within; [apply agree_refl|frame|kept|intros _].
  apply agree_bind_within; [apply agree_refl|frame|kept|intros _].
  by apply h_agree.
Qed.
Lemma mono_handleContractResponse ctx a p res :
  preserves gas_mono (Keeper.handleContractResponse k h1 ctx a p res).
Proof. apply fr_handleContractResponse; auto with frame. Qed.
#[local] Hint Resolve mono_handleContractResponse agree_handleContractResponse : frame.

Lemma agree_conclude ctx a i t res :
  ctx_CallDepth ctx = depth ->
  agree (left_at_most r) (Keeper.conclude k h1 ctx a i t res)
    (Keeper.conclude k h2 ctx a i t res).
Proof. intros Hd. unfold Keeper.conclude. agree. by apply agree_handleContractResponse. Qed.
Lemma mono_conclude ctx a i t res : preserves gas_mono (Keeper.conclude k h1 ctx a i t res).
Proof. apply fr_conclude; auto with frame. Qed.
#[local] Hint Resolve mono_conclude : frame.

Abbreviation HQ := (System.HandleQuery k json_QueryRequest).
Lemma agree_instantiate ctx id c ad m l d gen p :
  ctx_CallDepth ctx = depth -> (forall ctx id ck, preserves gas_mono (gen ctx id ck)) ->
  agree (left_at_most r)
    (Keeper.instantiate k json_QueryRequest HQ h1 ctx id c ad m l d gen p)
    (Keeper.instantiate k json_QueryRequest HQ h2 ctx id c ad m l d gen p).
Proof.
  intros Hd Hgen. unfold Keeper.instantiate, VM_Instantiate. agree.
  by apply agree_handleContractResponse.
Qed.
Lemma agree_execute ctx a c m f :
  ctx_CallDepth ctx = depth ->
  agree (left_at_most r) (Keeper.execute k json_QueryRequest HQ h1 ctx a c m f)
    (Keeper.execute k json_QueryRequest HQ h2 ctx a c m f).
Proof.
  intros Hd. unfold Keeper.execute, VM_Execute. agree. by apply agree_conclude.
Qed.
Lemma agree_Sudo ctx a m :
  ctx_CallDepth ctx = depth ->
  agree (left_at_most r) (Keeper.Sudo k json_QueryRequest HQ h1 ctx a m)
    (Keeper.Sudo k json_QueryRequest HQ h2 ctx a m).
Proof. intros Hd. unfold Keeper.Sudo, VM_Sudo. agree. by apply agree_conclude. Qed.
Lemma agree_migrate ctx a c id m p :
  ctx_CallDepth ctx = depth ->
  agree (left_at_most r) (Keeper.migrate k json_QueryRequest HQ h1 ctx a c id m p)
    (Keeper.migrate k json_QueryRequest HQ h2 ctx a c id m p).
Proof.
  intros Hd. unfold Keeper.migrate. agree. by apply agree_handleContractResponse.
Qed.
Lemma mono_instantiate ctx id c ad m l d gen p :
  (forall ctx id ck, preserves gas_mono (gen ctx id ck)) ->
  preserves gas_mono (Keeper.instantiate k json_QueryRequest HQ h1 ctx id c ad m l d gen p).
Proof. apply fr_instantiate; auto with frame. Qed.
Lemma mono_execute ctx a c m f :
  preserves gas_mono (Keeper.execute k json_QueryRequest HQ h1 ctx a c m f).
Proof. apply fr_execute; auto with frame. Qed.
Lemma mono_Sudo ctx a m : preserves gas_mono (Keeper.Sudo k json_QueryRequest HQ h1 ctx a m).
Proof. apply fr_Sudo; auto with frame. Qed.
Lemma mono_migrate ctx a c id m p :
  preserves gas_mono (Keeper.migrate k json_QueryRequest HQ h1 ctx a c id m p).
Proof. apply fr_migrate; auto with frame. Qed.
#[local] Hint Resolve mono_instantiate mono_execute mono_Sudo mono_migrate : frame.

Lemma agree_serve ctx msg :
  ctx_CallDepth ctx = depth ->
  agree (left_at_most r) (MsgServer.serve k json_QueryRequest HQ h1 ctx msg)
    (MsgServer.serve k json_QueryRequest HQ h2 ctx msg).
Proof.
  intros Hd. destruct msg; unfold MsgServer.serve;
    try lazymatch goal with |- agree _ ?m ?m => apply agree_refl end.
  - unfold MsgServer.InstantiateContract. agree. apply agree_instantiate; auto with frame.
  - unfold MsgServer.InstantiateContract2. agree. apply agree_instantiate; auto with frame.
  - unfold MsgServer.ExecuteContract. agree. by apply agree_execute.
  - unfold MsgServer.MigrateContract. agree. by apply agree_migrate.
  - unfold MsgServer.SudoContract. agree. by apply agree_Sudo.
  - unfold MsgServer.StoreAndInstantiateContract. agree. apply agree_instantiate; auto with frame.
  - unfold MsgServer.StoreAndMigrateContract. agree. by apply agree_migrate.
Qed.

(** The IBC module. *)
Lemma agree_basic ctx a (prog : VMState -> bytes -> Env -> N -> VMProg) :
  ctx_CallDepth ctx = depth ->
  let call h := (res ← Relay.ibc_call k json_QueryRequest HQ ctx a
    (fun q prefix checksum env gas => vm_entry (Relay.ibc_meters k) q prefix
       (fun v => prog v checksum env gas) gas json_IBCBasicResult IBCBasicResult_SubMessages);
    Relay.finish_basic k h ctx a res) in
  agree (left_at_most r) (call h1) (call h2).
Proof.
  intros Hd. simpl. eapply (agree_bind (left_at_most r)); [apply _|apply agree_refl| |].
  { apply mono_ibc_call. }
  intros [i res]. unfold Relay.finish_basic, Relay.handleIBCBasicContractResponse. agree.
  by apply agree_handleContractResponse.
Qed.
Lemma agree_IBC_OnRecvPacket ctx packet relayer :
  ctx_CallDepth ctx = depth ->
  agree (left_at_most r)
    (Relay.IBC_OnRecvPacket k json_QueryRequest HQ h1 ctx packet relayer)
    (Relay.IBC_OnRecvPacket k json_QueryRequest HQ h2 ctx packet relayer).
Proof.
  intros Hd. unfold Relay.IBC_OnRecvPacket, Relay.EmitAcknowledgementEvent.
  destruct (Keeper.ContractFromPortID _) as [addr|]; [|apply agree_refl].
  eapply (agree_bind (left_at_most r)); [apply _|eapply agree_with_events; [apply _|]| |
    intros; apply agree_refl].
  all: unfold Relay.OnRecvPacket, Relay.VM_IBCPacketReceive.
  - eapply (agree_bind (left_at_most r)); [apply _|apply agree_refl| |].
    { apply mono_ibc_call. }
    intros [i [res|e]]; [|apply agree_refl]. agree. by apply agree_handleContractResponse.
  - apply preserves_with_events; [apply _|]. frame; [apply mono_ibc_call|].
    by apply (fr_StoreAsyncAckPacket gas_mono).
Qed.
Lemma agree_deliver ctx c :
  ctx_CallDepth ctx = depth ->
  agree (left_at_most r) (Relay.deliver k json_QueryRequest HQ h1 ctx c)
    (Relay.deliver k json_QueryRequest HQ h2 ctx c).
Proof.
  intros Hd. destruct c; cbn [Relay.deliver]; try apply agree_refl; apply agree_bind_same;
    try (by apply agree_IBC_OnRecvPacket);
    unfold Relay.OnChanOpenAck, Relay.OnChanOpenConfirm, Relay.OnChanCloseInit,
      Relay.OnChanCloseConfirm, Relay.OnAcknowledgementPacket, Relay.IBC_OnTimeoutPacket,
      Relay.IBCOnAcknowledgementPacketCallback, Relay.IBCOnTimeoutPacketCallback,
      Relay.IBCReceivePacketCallback, Relay.port_contract, Relay.load_channel,
      Relay.toWasmVMChannel, Relay.hop0, Relay.callback_contract;
    repeat (eapply (agree_bind (left_at_most r)); [apply _|apply agree_refl|frame|intros ?]);
    repeat case_match; try apply agree_refl; try apply agree_map_err; by apply agree_basic.
Qed.

End Handlers.

Section Nested.
Context (h1 h2 : Context -> bytes -> string -> list SubMsg -> option bytes ->
  M (option bytes)).
Hypothesis h_mono : forall ctx addr port msgs data,
  preserves gas_mono (h1 ctx addr port msgs data).

Lemma Handler_mono msg f ctx :
  System.Handler k json_QueryRequest h1 msg = Some f -> preserves gas_mono (f ctx msg).
Proof. intros E. by eapply (fr_Handler k json_QueryRequest gas_mono). Qed.

(** Both handlers agree at a call depth, with at most [r] gas left. *)
Definition handlers_agree (depth : option N) (r : N) : Prop :=
  forall ctx addr port msgs data, ctx_CallDepth ctx = depth ->
  agree (left_within r) (h1 ctx addr port msgs data) (h2 ctx addr port msgs data).

Lemma agree_service r m1 m2 :
  agree (left_at_most r) m1 m2 -> preserves gas_mono m1 ->
  agree (left_at_most r) (System.service m1) (System.service m2).
Proof. intros Hm Hp. unfold System.service. agree. Qed.

Lemma agree_wasm_handler r ctx m :
  handlers_agree (ctx_CallDepth ctx) r ->
  agree (left_at_most r) (System.wasm_handler k json_QueryRequest h1 ctx m)
    (System.wasm_handler k json_QueryRequest h2 ctx m).
Proof.
  intros Ha. unfold System.wasm_handler.
  assert (preserves gas_mono (MsgServer.serve k json_QueryRequest
    (System.HandleQuery k json_QueryRequest) h1 ctx m)) by (apply fr_serve; auto with frame).
  apply agree_service; [|frame]. agree. by apply (agree_serve h1 h2 (ctx_CallDepth ctx)).
Qed.
Lemma agree_ibc_branch P m1 m2 :
  agree P m1 m2 -> agree P (System.ibc_branch m1) (System.ibc_branch m2).
Proof. intros Hm s Hs. unfold System.ibc_branch. by rewrite (Hm s Hs). Qed.
Lemma mono_routed ctx t :
  preserves gas_mono (System.run_routed (System.wasm_handler k json_QueryRequest h1)
    (System.ibc_module k json_QueryRequest h1) ctx t).
Proof.
  apply (fr_run_routed gas_mono _ _ _ (fun _ => True)).
  - intros. by apply (fr_wasm_handler k json_QueryRequest gas_mono).
  - intros. apply (fr_deliver k json_QueryRequest gas_mono); auto with frame. apply receives_any.
  - by apply all_calls_any.
Qed.
#[local] Hint Resolve mono_routed : frame.
Lemma agree_run_routed r ctx t :
  handlers_agree (ctx_CallDepth ctx) r ->
  agree (left_at_most r)
    (System.run_routed (System.wasm_handler k json_QueryRequest h1)
       (System.ibc_module k json_QueryRequest h1) ctx t)
    (System.run_routed (System.wasm_handler k json_QueryRequest h2)
       (System.ibc_module k json_QueryRequest h2) ctx t).
Proof.
  intros Ha. induction t; cbn [System.run_routed]; [apply agree_refl|..];
    (eapply (agree_bind (left_at_most r));
       [apply _|apply agree_refl|by apply (fr_set_ext gas_mono) || frame|intros _]); [|done|..].
  - eapply (agree_bind (left_at_most r)); [apply _|apply agree_refl|frame|done].
  - assert (preserves gas_mono (System.wasm_handler k json_QueryRequest h1 ctx msg))
      by (by apply (fr_wasm_handler k json_QueryRequest gas_mono)).
    agree. by apply agree_wasm_handler.
  - eapply (agree_bind (left_at_most r)); [apply _|eapply agree_with_events; [apply _|]| |].
    + apply agree_ibc_branch, (agree_deliver h1 h2 (ctx_CallDepth ctx)); auto.
    + apply preserves_with_events; [apply _|]. apply fr_ibc_branch; [apply _|].
      apply (fr_deliver k json_QueryRequest gas_mono); auto with frame. apply receives_any.
    + intros [o em]. agree; auto.
  - agree; auto.
  - apply agree_bind_gets. intros m.
    eapply (agree_bind_in (left_at_most r)); [apply _|by intros s []| | |].
    + eapply agree_with_meter; [|agree; exact IHt].
      intros s [Hs <-]. destruct (meter_u64 (meter s)) as [_ Hu].
      unfold left_at_most, rem, System.gas_remaining, is_u64 in *. simpl.
      rewrite meter_new_limit, meter_new_consumed by (unfold is_u64; lia). lia.
    + frame.
    + intros [o mt]. agree; auto.
Qed.

Lemma agree_Handler r ctx msg :
  handlers_agree (ctx_CallDepth ctx) r ->
  match System.Handler k json_QueryRequest h1 msg, System.Handler k json_QueryRequest h2 msg with
  | Some f1, Some f2 => agree (left_at_most r) (f1 ctx msg) (f2 ctx msg)
  | None, None => True
  | _, _ => False
  end.
Proof.
  intros Ha. unfold System.Handler.
  destruct msg; [by apply agree_wasm_handler|..]; destruct (route_other _); simpl; try done;
    (apply agree_service; [|frame; apply mono_routed]);
    (eapply (agree_bind (left_at_most r)); [apply _|apply agree_refl|frame|intros x]);
    by apply agree_run_routed.
Qed.

Lemma agree_handle_all r ctx a msgs acc :
  handlers_agree (ctx_CallDepth ctx) r ->
  agree (left_at_most r)
    (handle_all (System.Handler k json_QueryRequest h1) ctx a msgs acc)
    (handle_all (System.Handler k json_QueryRequest h2) ctx a msgs acc).
Proof.
  intros Ha. revert acc. induction msgs as [|m msgs IH]; intros acc; cbn [handle_all];
    [apply agree_refl|].
  assert (preserves gas_mono (handleSdkMessage (System.Handler k json_QueryRequest h1) ctx a m)).
  { apply fr_handleSdkMessage; auto with frame. intros. by apply Handler_mono. }
  eapply (agree_bind (left_at_most r)); [apply _| |done|intros res; apply IH].
  unfold handleSdkMessage. pose proof (agree_Handler r ctx m Ha) as Hm.
  destruct (System.Handler k json_QueryRequest h1 m), (System.Handler k json_QueryRequest h2 m);
    try done; agree.
Qed.

Lemma agree_messenger r ctx a port msg :
  (forall ctx', Keeper.checkAndIncreaseCallDepth ctx (maxCallDepth k) = inl ctx' ->
     handlers_agree (ctx_CallDepth ctx') r) ->
  agree (left_at_most r) (System.messenger k json_QueryRequest h1 ctx a port msg)
    (System.messenger k json_QueryRequest h2 ctx a port msg).
Proof.
  intros Ha. unfold System.messenger, keeper_messenger, callDepthMessageHandler_DispatchMsg.
  destruct (Keeper.checkAndIncreaseCallDepth _ _) as [ctx'|e]; [|apply agree_refl].
  specialize (Ha ctx' eq_refl). unfold NewDefaultMessageHandler. cbn [MessageHandlerChain_DispatchMsg].
  assert (forall acc, agree (left_at_most r)
    (SDKMessageHandler_DispatchMsg (System.Handler k json_QueryRequest h1)
       (foldl Merge DefaultEncoders []) ctx' a port acc)
    (SDKMessageHandler_DispatchMsg (System.Handler k json_QueryRequest h2)
       (foldl Merge DefaultEncoders []) ctx' a port acc)) as Hs.
  { intros acc. unfold SDKMessageHandler_DispatchMsg. agree. by apply agree_handle_all. }
  eapply (agree_bind (left_at_most r)); [apply _|by apply agree_catch| |intros; apply agree_refl].
  apply preserves_catch. unfold SDKMessageHandler_DispatchMsg. frame.
  apply fr_handle_all; auto with frame. intros. by apply Handler_mono.
Qed.

Lemma agree_reply r ctx a rep :
  reads_cost_gas ->
  (forall r', (r' < r)%N -> handlers_agree (ctx_CallDepth ctx) r') ->
  agree (left_at_most r)
    (Keeper.reply k json_QueryRequest (System.HandleQuery k json_QueryRequest) h1 ctx a rep)
    (Keeper.reply k json_QueryRequest (System.HandleQuery k json_QueryRequest) h2 ctx a rep).
Proof.
  intros Hc Ha. unfold Keeper.reply.
  apply agree_bind_spends; [by apply spends_contractInstance|].
  intros [[ci co] pre] r' Hr. unfold VM_Reply. agree.
  apply (agree_conclude h1 h2 (ctx_CallDepth ctx)); [by apply Ha|done].
Qed.

End Nested.

(** The dispatcher over messengers and replies that agree in one context. *)
Section Dispatcher.
Context (D1 D2 : Context -> bytes -> string -> CosmosMsg -> M DispatchResult).
Context (reply1 reply2 : Context -> bytes -> Reply -> M (option bytes)).
Context (ctx : Context) (r : N).
Hypothesis D_mono : forall ctx a port msg, preserves gas_mono (D1 ctx a port msg).
Hypothesis D_kept : forall ctx a port msg, kept (D1 ctx a port msg).
Hypothesis reply_mono : forall ctx a rep, preserves gas_mono (reply1 ctx a rep).
Hypothesis reply_kept : forall ctx a rep, kept (reply1 ctx a rep).
Hypothesis D_agree : forall a port msg,
  agree (left_at_most r) (D1 ctx a port msg) (D2 ctx a port msg).
Hypothesis reply_agree : forall a rep,
  agree (left_at_most r) (reply1 ctx a rep) (reply2 ctx a rep).

(** A gas limit in effect is below what is left, so the meter of the
    submessage has less than the sender's. *)
Lemma effective_limit_below s msg l :
  left_within r s -> Dispatcher.effective_limit (meter s) msg = Some l ->
  (l <= r)%N /\ is_u64 l.
Proof.
  intros [Hr Hw]. unfold Dispatcher.effective_limit, left_at_most, rem, within_gas in *.
  destruct (meter_u64 (meter s)) as [_ Hu]. rewrite sub64_exact by done.
  destruct (GasLimit msg) as [l'|]; [|done].
  destruct (N.ltb_spec l' (Limit (meter s) - GasConsumed (meter s))); [|done].
  intros [= <-]. unfold is_u64 in *. lia.
Qed.

Lemma agree_run_submessage a port msg s :
  left_within r s ->
  Dispatcher.run_submessage D1 ctx a port msg (Dispatcher.effective_limit (meter s) msg)
    (set_events [] s)
  = Dispatcher.run_submessage D2 ctx a port msg (Dispatcher.effective_limit (meter s) msg)
      (set_events [] s).
Proof.
  intros Hs. unfold Dispatcher.run_submessage.
  destruct (Dispatcher.effective_limit _ _) as [l|] eqn:E.
  - apply (effective_limit_below s msg l) in E as [Hl Hu]; [|done].
    unfold Dispatcher.dispatchMsgWithGasLimit, Dispatcher.dispatch_and_charge.
    unfold reify, with_meter, mbind, M_bind. rewrite (D_agree a port (Msg msg)); [done|].
    unfold left_at_most, rem. simpl. rewrite meter_new_limit, meter_new_consumed by done. lia.
  - apply D_agree, Hs.
Qed.

Lemma agree_call_reply a msg res rsp :
  agree (left_at_most r) (Dispatcher.call_reply reply1 ctx a msg res rsp)
    (Dispatcher.call_reply reply2 ctx a msg res rsp).
Proof. unfold Dispatcher.call_reply. agree. Qed.
Lemma mono_run s a port msg :
  gas_mono s (Dispatcher.run_submessage D1 ctx a port msg
    (Dispatcher.effective_limit (meter s) msg) (set_events [] s)).2.
Proof.
  unfold Dispatcher.run_submessage.
  destruct (Dispatcher.effective_limit _ _); [|exact (D_mono _ _ _ _ (set_events [] s))].
  assert (preserves gas_mono (Dispatcher.dispatchMsgWithGasLimit D1 ctx a port (Msg msg) n)) as Hp.
  { unfold Dispatcher.dispatchMsgWithGasLimit, Dispatcher.dispatch_and_charge. frame. }
  exact (Hp (set_events [] s)).
Qed.

Lemma agree_dispatch_submessage a port msg rsp :
  agree (left_within r) (Dispatcher.dispatch_submessage D1 reply1 ctx a port msg rsp)
    (Dispatcher.dispatch_submessage D2 reply2 ctx a port msg rsp).
Proof.
  intros s Hs. unfold Dispatcher.dispatch_submessage.
  destruct (Dispatcher.valid_replyOn (ReplyOn msg)); [|done].
  unfold mbind, M_bind. simpl. rewrite !Dispatcher.with_events_cached.
  rewrite <- (agree_run_submessage a port msg s Hs).
  pose proof (mono_run s a port msg) as Hm.
  destruct (Dispatcher.run_submessage D1 _ _ _ _ _ _) as [[x|e|p] s1]; simpl; [..|done].
  all: destruct (ReplyOn msg); try done; apply agree_call_reply; simpl;
    by apply (stable (P := left_at_most r) (R := gas_mono) s); [apply Hm|apply Hs].
Qed.

Lemma agree_Handle a port msgs data :
  agree (left_within r) (Dispatcher.Handle D1 reply1 ctx a port msgs data)
    (Dispatcher.Handle D2 reply2 ctx a port msgs data).
Proof.
  unfold Dispatcher.Handle, Dispatcher.DispatchSubmessages. generalize (None : option bytes) as rsp.
  intros rsp s Hs. unfold mbind, M_bind.
  enough (agree (left_within r) (Dispatcher.dispatch_loop D1 reply1 ctx a port msgs rsp)
    (Dispatcher.dispatch_loop D2 reply2 ctx a port msgs rsp)) as Hl by by rewrite (Hl s Hs).
  clear s Hs. revert rsp. induction msgs as [|m msgs IH]; intros rsp; simpl; [apply agree_refl|].
  apply agree_bind_within; [apply agree_dispatch_submessage| | |auto].
  - apply fr_dispatch_submessage; auto with frame.
  - by apply kp_dispatch_submessage.
Qed.
End Dispatcher.

(** ** The bound *)

Definition call_depth (ctx : Context) : N := default 0%N (ctx_CallDepth ctx).

Lemma checkAndIncreaseCallDepth_spec ctx ctx' :
  (maxCallDepth k < MaxUint32)%N -> (call_depth ctx <= maxCallDepth k)%N ->
  Keeper.checkAndIncreaseCallDepth ctx (maxCallDepth k) = inl ctx' ->
  call_depth ctx' = (call_depth ctx + 1)%N /\ (call_depth ctx' <= maxCallDepth k)%N.
Proof.
  intros Hmax Hd. unfold Keeper.checkAndIncreaseCallDepth, Keeper.inc32.
  change (default 0%N (ctx_CallDepth ctx)) with (call_depth ctx).
  unfold MaxUint32 in Hmax. unfold wrap32, two32. rewrite N.mod_small by lia.
  destruct (N.ltb_spec (maxCallDepth k) (call_depth ctx + 1)); [done|].
  intros [= <-]. unfold call_depth in *. simpl. lia.
Qed.

(** The calls that may still be nested: one per level of call depth that is
    left, and one per unit of gas for replies, which are not counted in the
    call depth but read the store. *)
Definition nesting_bound (ctx : Context) (r : N) : nat :=
  N.to_nat (maxCallDepth k - call_depth ctx) + N.to_nat r.

(** The response handler unrolled [n] times over any handler at all. *)
Fixpoint unrolled (bottom : Context -> bytes -> string -> list SubMsg -> option bytes ->
    M (option bytes)) (n : nat)
    : Context -> bytes -> string -> list SubMsg -> option bytes -> M (option bytes) :=
  match n with
  | O => bottom
  | S n' =>
      let h := unrolled bottom n' in
      Dispatcher.Handle (System.messenger k json_QueryRequest h)
        (Keeper.reply k json_QueryRequest (System.HandleQuery k json_QueryRequest) h)
  end.

Lemma response_handler_agree bottom n1 n2 ctx r a port msgs data :
  reads_cost_gas -> (maxCallDepth k < MaxUint32)%N -> (call_depth ctx <= maxCallDepth k)%N ->
  nesting_bound ctx r < n1 -> nesting_bound ctx r < n2 ->
  agree (left_within r)
    (System.response_handler k json_QueryRequest n1 ctx a port msgs data)
    (unrolled bottom n2 ctx a port msgs data).
Proof.
  intros Hc Hmax. revert n2 ctx r a port msgs data.
  induction n1 as [|n1 IH]; intros [|n2] ctx r a port msgs data Hd Hn1 Hn2; [lia..|].
  cbn [System.response_handler unrolled].
  assert (forall n c a port msgs data, preserves gas_mono
    (System.response_handler k json_QueryRequest n c a port msgs data))
    by (intros; apply (fr_response_handler k json_QueryRequest gas_mono)).
  assert (forall n c a port msgs data, kept
    (System.response_handler k json_QueryRequest n c a port msgs data))
    by (intros; apply kp_response_handler).
  unfold nesting_bound in Hn1, Hn2. apply agree_Handle; intros.
  - by apply (fr_messenger k json_QueryRequest gas_mono).
  - by apply kp_messenger.
  - apply fr_reply; auto with frame.
  - by apply kp_reply.
  - apply agree_messenger; [auto|]. intros ctx' E c ad po ms da Hcd.
    assert (call_depth c = call_depth ctx') as Hc' by (unfold call_depth; by rewrite Hcd).
    apply checkAndIncreaseCallDepth_spec in E as [E1 E2]; [|done..].
    apply IH; unfold nesting_bound; rewrite ?Hc', ?E1; lia.
  - apply agree_reply; [done|]. intros r' Hr' c ad po ms da Hcd.
    assert (call_depth c = call_depth ctx) as Hc' by (unfold call_depth; by rewrite Hcd).
    apply IH; unfold nesting_bound; rewrite ?Hc'; lia.
Qed.

(** C10: executing a message ends, whatever the contracts do. Contracts can
    send messages to contracts and get replies, but the call depth limit
    bounds messages in messages and gas bounds replies in replies: once the
    model's recursion bound exceeds the levels of call depth that are left
    plus the gas that is left, the bottom of the recursion is never reached.
    The outcome and the state are the same with any larger bound and with
    anything at all in place of the bottom, so they are those of the unbounded
    recursion of the Go code. *)
Theorem Serve_bounded bottom n1 n2 ctx msg s :
  reads_cost_gas -> (maxCallDepth k < MaxUint32)%N -> (call_depth ctx <= maxCallDepth k)%N ->
  nesting_bound ctx (rem (meter s)) < n1 -> nesting_bound ctx (rem (meter s)) < n2 ->
  System.Serve k json_QueryRequest n1 ctx msg s
  = MsgServer.serve k json_QueryRequest (System.HandleQuery k json_QueryRequest)
      (unrolled bottom n2) ctx msg s.
Proof.
  intros Hc Hmax Hd Hn1 Hn2.
  apply (agree_serve _ _ (ctx_CallDepth ctx) (rem (meter s))); [..|done|].
  - intros. apply (fr_response_handler k json_QueryRequest gas_mono).
  - intros c a port msgs data E.
    assert (call_depth c = call_depth ctx) as Ec by (unfold call_depth; by rewrite E).
    apply response_handler_agree; unfold nesting_bound in *; rewrite ?Ec; done.
  - unfold left_at_most. lia.
Qed.

(** C12: in the assembled module a submessage with a gas limit costs its sender
    at most that limit, when it returns and when it fails, out of gas
    included: every handler behind the dispatcher keeps to its meter. *)
Theorem submessage_gas_limit n ctx a port msg l s o s' :
  is_u64 l ->
  Dispatcher.dispatchMsgWithGasLimit (System.DispatchMsg k json_QueryRequest n)
    ctx a port msg l s = (o, s') ->
  match o with
  | Panic _ => True
  | _ => (GasConsumed (meter s') <= GasConsumed (meter s) + l)%N
  end.
Proof.
  intros Hl E. eapply Dispatcher.gas_limit_respected; [apply _| |exact Hl|exact E]. intros ctx' a' port' msg'. split.
  - apply (fr_DispatchMsg k json_QueryRequest gas_mono).
  - apply kp_messenger. intros. apply kp_response_handler.
Qed.

End Messages.
End Termination.
