(* ===== verification/Checksum.v ===== *)
(** wasmvm.CreateChecksum (wasmvm/lib.go) and the part of crypto/sha256 it
    stands on: Sum256 of FIPS 180-4 on bytes. *)
From S2P Require Import Prelude Errors.
Import Errors.
Open Scope wasm_scope.

Module Sha256.
Local Open Scope N_scope.

(** ** Words of 32 bits *)

Definition w32 (n : N) : N := n mod 2 ^ 32.
Definition add32 (a b : N) : N := w32 (a + b).
Definition rotr (n x : N) : N :=
  N.lor (N.shiftr x n) (w32 (N.shiftl x (32 - n))).
Definition not32 (x : N) : N := N.lxor x 0xFFFFFFFF.

Definition Ch (x y z : N) : N := N.lxor (N.land x y) (N.land (not32 x) z).
Definition Maj (x y z : N) : N :=
  N.lxor (N.lxor (N.land x y) (N.land x z)) (N.land y z).
Definition Sigma0 (x : N) : N := N.lxor (N.lxor (rotr 2 x) (rotr 13 x)) (rotr 22 x).
Definition Sigma1 (x : N) : N := N.lxor (N.lxor (rotr 6 x) (rotr 11 x)) (rotr 25 x).
Definition sigma0 (x : N) : N :=
  N.lxor (N.lxor (rotr 7 x) (rotr 18 x)) (N.shiftr x 3).
Definition sigma1 (x : N) : N :=
  N.lxor (N.lxor (rotr 17 x) (rotr 19 x)) (N.shiftr x 10).

(** The constants: of the first primes, the first 32 bits of the fractional
    parts of the cube roots, and of the square roots for the initial value. *)
Definition is_prime (n : N) : bool :=
  forallb (fun d => negb (n mod d =? 0)) (N.of_nat <$> seq 2 (N.to_nat n - 2)).
Definition primes : list N := List.filter is_prime (N.of_nat <$> seq 2 310).
(** the cube root, rounded down, bit by bit *)
Fixpoint cube_root (bits : nat) (n root : N) : N :=
  match bits with
  | O => root
  | S bits' =>
      let next := root + 2 ^ N.of_nat bits' in
      cube_root bits' n (if next * next * next <=? n then next else root)
  end.
Definition K : list N :=
  Eval vm_compute in (fun p => w32 (cube_root 36 (p * 2 ^ 96) 0)) <$> primes.
Definition initial_word (i : nat) : N := w32 (N.sqrt (List.nth i primes 0 * 2 ^ 64)).

(** The eight working variables a..h; also the hash value. *)
Record digest := mkDigest {
  da : N; db : N; dc : N; dd : N; de : N; df : N; dg : N; dh : N
}.
Definition init : digest :=
  Eval vm_compute in mkDigest (initial_word 0) (initial_word 1) (initial_word 2) (initial_word 3) (initial_word 4) (initial_word 5) (initial_word 6) (initial_word 7).

Definition round (d : digest) (kw : N * N) : digest :=
  let t1 := w32 (dh d + Sigma1 (de d) + Ch (de d) (df d) (dg d) + kw.1 + kw.2) in
  let t2 := add32 (Sigma0 (da d)) (Maj (da d) (db d) (dc d)) in
  mkDigest (add32 t1 t2) (da d) (db d) (dc d) (add32 (dd d) t1) (de d) (df d) (dg d).

(** The message schedule: the last sixteen words, newest first, produce the
    next one. *)
Fixpoint schedule (n : nat) (ws : list N) : list N :=
  match n with
  | O => ws
  | S n' =>
      let w i := List.nth i ws 0 in
      schedule n' (w32 (sigma1 (w 1%nat) + w 6%nat + sigma0 (w 14%nat) + w 15%nat) :: ws)
  end.

Definition sum_digest (a b : digest) : digest :=
  mkDigest (add32 (da a) (da b)) (add32 (db a) (db b)) (add32 (dc a) (dc b))
    (add32 (dd a) (dd b)) (add32 (de a) (de b)) (add32 (df a) (df b))
    (add32 (dg a) (dg b)) (add32 (dh a) (dh b)).

Definition block (d : digest) (words : list N) : digest :=
  let ws := rev (schedule 48 (rev words)) in
  sum_digest d (foldl round d (zip K ws)).

(** ** Bytes and words *)

Fixpoint words (bs : bytes) : list N :=
  match bs with
  | b0 :: b1 :: b2 :: b3 :: bs' =>
      (Byte.to_N b0 * 2 ^ 24 + Byte.to_N b1 * 2 ^ 16 + Byte.to_N b2 * 2 ^ 8
       + Byte.to_N b3) :: words bs'
  | _ => []
  end.
Definition word_bytes (w : N) : bytes :=
  [byte_of_N (N.shiftr w 24); byte_of_N (N.shiftr w 16);
   byte_of_N (N.shiftr w 8); byte_of_N w].

(** 0x80, then zeros up to 56 modulo 64, then the length in bits. *)
Definition padded (bs : bytes) : bytes :=
  let zeros := ((119 - Nat.modulo (length bs) 64) mod 64)%nat in
  let bits := N.of_nat (length bs) * 8 in
  bs ++ Byte.x80 :: replicate zeros Byte.x00
     ++ word_bytes (N.shiftr bits 32) ++ word_bytes bits.

Fixpoint blocks (n : nat) (d : digest) (ws : list N) : digest :=
  match n with
  | O => d
  | S n' => blocks n' (block d (take 16 ws)) (drop 16 ws)
  end.

Definition digest_bytes (d : digest) : bytes :=
  concat (word_bytes <$> [da d; db d; dc d; dd d; de d; df d; dg d; dh d]).

Definition Sum256 (bs : bytes) : bytes :=
  let ws := words (padded bs) in
  digest_bytes (blocks (Nat.div (length ws) 16) init ws).

Lemma Sum256_length bs : length (Sum256 bs) = 32%nat.
Proof. done. Qed.

(** Padding fills whole blocks, so no word of the message is left out. *)
Lemma padded_blocks bs : (length (padded bs) mod 64 = 0)%nat.
Proof.
  unfold padded. rewrite length_app. cbn [length]. rewrite !length_app, length_replicate.
  cbn [length word_bytes]. pose proof (Nat.mod_upper_bound (length bs) 64 ltac:(lia)) as Hb.
  pose proof (Nat.div_mod_eq (length bs) 64) as Hd.
  set (q := (length bs / 64)%nat) in *. set (r := (length bs mod 64)%nat) in *.
  assert ((119 - r) mod 64 = 119 - r \/ r <= 55 /\ (119 - r) mod 64 = 55 - r)%nat as [E|[Hr E]].
  { destruct (Nat.lt_ge_cases (119 - r) 64); [left; by apply Nat.mod_small|right].
    split; [lia|]. symmetry. apply (Nat.mod_unique _ _ 1); lia. }
  - rewrite E. symmetry. apply (Nat.mod_unique _ _ (q + 2)); lia.
  - rewrite E. symmetry. apply (Nat.mod_unique _ _ (q + 1)); lia.
Qed.

End Sha256.

(** ** wasmvm.CreateChecksum *)

Definition wasm_magic : bytes := [Byte.x00; Byte.x61; Byte.x73; Byte.x6d].

Definition CreateChecksum (wasm : bytes) : bytes + error :=
  if Nat.eqb (length wasm) 0 then inr (EText "Wasm bytes nil or empty")
  else if Nat.ltb (length wasm) 4 then inr (EText "Wasm bytes shorter than 4 bytes")
  else if negb (bool_decide (take 4 wasm = wasm_magic))
  then inr (EText "Wasm bytes do not start with Wasm magic number")
  else inl (Sha256.Sum256 wasm).

Lemma CreateChecksum_spec wasm checksum :
  CreateChecksum wasm = inl checksum
  <-> wasm_magic `prefix_of` wasm /\ checksum = Sha256.Sum256 wasm.
Proof.
  unfold CreateChecksum. split.
  - destruct (Nat.eqb (length wasm) 0); [done|]. destruct (Nat.ltb (length wasm) 4); [done|].
    case_bool_decide as E; [|done]. intros [= <-]. split; [|done].
    exists (drop 4 wasm). by rewrite <- E, take_drop.
  - intros [[r ->] ->]. by rewrite bool_decide_true.
Qed.

(** The test vectors of FIPS 180-4. *)
Example Sum256_empty :
  Sha256.Sum256 [] =
  byte_of_N <$> [0xe3; 0xb0; 0xc4; 0x42; 0x98; 0xfc; 0x1c; 0x14; 0x9a; 0xfb; 0xf4;
    0xc8; 0x99; 0x6f; 0xb9; 0x24; 0x27; 0xae; 0x41; 0xe4; 0x64; 0x9b; 0x93; 0x4c;
    0xa4; 0x95; 0x99; 0x1b; 0x78; 0x52; 0xb8; 0x55]%N.
Proof. by vm_compute. Qed.

Example Sum256_abc :
  Sha256.Sum256 (bytes_of_string "abcdbcdecdefdefgefghfghighijhijkijkljklmklmnlmnomnopnopq") =
  byte_of_N <$> [0x24; 0x8d; 0x6a; 0x61; 0xd2; 0x06; 0x38; 0xb8; 0xe5; 0xc0; 0x26;
    0x93; 0x0c; 0x3e; 0x60; 0x39; 0xa3; 0x3c; 0xe4; 0x59; 0x64; 0xff; 0x21; 0x67;
    0xf6; 0xec; 0xed; 0xd4; 0x19; 0xdb; 0x06; 0xc1]%N.
Proof. by vm_compute. Qed.
