(* ===== verification/Authz.v ===== *)
(** Authorizations for the authz module (x/wasm/types/authz.go,
    json_matching.go): grants to store code, and grants to execute or migrate
    contracts with limits that are used up and filters on the message. The
    theorems bound what can be spent under a grant over its whole life. *)
From S2P Require Import Prelude Errors GoStrings Json Types Keys VMTypes Policy GasRegister Chain Logic Engine Store Events Keeper Msgs MsgServer Encoders Checksum.
Import GoStrings Json.Json Msgs.Msgs Encoders.Encoders.
Open Scope wasm_scope.

(** unicode.ToLower beyond ASCII, as UTF-8. *)
Class UnicodeLower := { ToLower_hi : N -> bytes }.

Module Authz.

Definition gasDeserializationCostPerByte : N := 1.
Definition CodehashWildcard : string := "*".

(** ** Data (authz.pb.go) *)

Record CodeGrant := mkCodeGrant {
  CodeHash : bytes;
  CG_InstantiatePermission : option AccessConfig;
}.

(** The implementations of ContractAuthzLimitX and ContractAuthzFilterX. *)
Inductive ContractAuthzLimitX :=
| UndefinedLimit
| MaxCallsLimit (Remaining : N)
| MaxFundsLimit (Amounts : Coins)
| CombinedLimit (CallsRemaining : N) (Amounts : Coins).

Inductive ContractAuthzFilterX :=
| UndefinedFilter
| AllowAllMessagesFilter
| AcceptedMessageKeysFilter (Keys : list string)
| AcceptedMessagesFilter (Messages : list bytes).

(** codectypes.Any; the cached value is [None] when there is none or when it
    is of another interface. *)
Record Any (T : Type) := mkAny {
  any_TypeUrl : string;
  any_Value : bytes;
  any_Cached : option T;
}.
Arguments mkAny {T} _ _ _.
Arguments any_Cached {T} _.

(** A nil Any pointer is [None]. *)
Record ContractGrant := mkContractGrant {
  CG_Contract : string;
  CG_Limit : option (Any ContractAuthzLimitX);
  CG_Filter : option (Any ContractAuthzFilterX);
}.

Inductive Authorization :=
| ContractExecutionAuthorization (Grants : list ContractGrant)
| ContractMigrationAuthorization (Grants : list ContractGrant).

(** authz.AcceptResponse *)
Record AcceptResponse := mkAcceptResponse {
  Accept : bool;
  Delete : bool;
  Updated : option Authorization;
}.

Record ContractAuthzLimitAcceptResult := mkLimitResult {
  Accepted : bool;
  DeleteLimit : bool;
  UpdateLimit : option ContractAuthzLimitX;
}.

(** The interface AuthzableWasmMsg as the values its methods return; a nil
    message is [None]. *)
Record AuthzableWasmMsg := mkAuthzableWasmMsg {
  GetFunds : Coins;
  GetMsg : option bytes;
  GetContract : string;
  ValidateBasic : option error;
}.

End Authz.

(** codectypes.NewAnyWithValue and the unpacker at the two interfaces. *)
Class AuthzCodec := {
  NewAnyWithLimit : Authz.ContractAuthzLimitX -> Authz.Any Authz.ContractAuthzLimitX + error;
  NewAnyWithFilter : Authz.ContractAuthzFilterX -> Authz.Any Authz.ContractAuthzFilterX + error;
  (** the Any with the value it caches, or the error *)
  UnpackAnyLimit : option (Authz.Any Authz.ContractAuthzLimitX)
                   -> option (Authz.Any Authz.ContractAuthzLimitX) + error;
  UnpackAnyFilter : option (Authz.Any Authz.ContractAuthzFilterX)
                    -> option (Authz.Any Authz.ContractAuthzFilterX) + error;
}.

(** NewAnyWithValue caches the value it packs. *)
Class AuthzCodecLaws `{AuthzCodec} : Prop := {
  NewAnyWithLimit_cached l a : NewAnyWithLimit l = inl a -> Authz.any_Cached a = Some l;
}.

(** sdk.Coins on valid sets: Sub is exact and defined on what IsAllLTE
    allows, an all-zero set has no amount of anything. *)
Class CoinsLaws `{CoinsPkg} : Prop := {
  Coins_Validate_nil : Coins_Validate [] = None;
  AmountOf_nonneg c d : Coins_Validate c = None -> (0 <= AmountOf c d)%Z;
  AmountOf_nil d : AmountOf [] d = 0%Z;
  IsAllLTE_AmountOf a b d :
    Coins_Validate a = None -> Coins_Validate b = None ->
    Coins_IsAllLTE a b = true -> (AmountOf a d <= AmountOf b d)%Z;
  Coins_Sub_exact a b :
    Coins_Validate a = None -> Coins_Validate b = None ->
    Coins_IsAllLTE b a = true ->
    exists c, Coins_Sub a b = Ret c /\ Coins_Validate c = None
              /\ forall d, AmountOf c d = (AmountOf a d - AmountOf b d)%Z;
  NewCoins_valid c : Coins_Validate c = None -> NewCoins c = Ret c;
}.

Module AuthzOps.
Import Authz.

Section Operations.
Context `{GasMeters, Modules, KVStorePkg, Bech32, ErrorsMod, UnicodeTables,
  CoinsPkg, VerificationPkg, Gzip}.
Context `{!UnicodeLower, !AuthzCodec}.

(** strings.ToLower; an invalid byte becomes RuneError. *)
Definition ToLower (s : string) : string :=
  string_of_bytes (concat ((fun rb : N * bytes =>
    if (rb.1 <? RuneSelf)%N then to_lower_byte <$> rb.2
    else if (rb.1 =? RuneError)%N then rune_error_bytes
    else ToLower_hi rb.1) <$> runes (bytes_of_string s))).

(** ** isJSONObjectWithTopLevelKey (json_matching.go) *)

Definition isJSONObjectWithTopLevelKey (jsonBytes : bytes) (allowedKeys : list string)
    : outcome bool :=
  match RawContractMessage_ValidateBasic jsonBytes with
  | Some err => Fail err
  | None =>
      match json_Unmarshal jsonBytes with
      | inr err => Fail (EText err)
      | inl (JObject members) =>
          let documentMap := map_keys members in
          if negb (Nat.eqb (length documentMap) 1) then Ret false
          else match documentMap with
               | topLevelKey :: _ =>
                   Ret (existsb (fun allowedKey =>
                     bool_decide (bytes_of_string allowedKey = topLevelKey)) allowedKeys)
               | [] => Panic (PText "Reached unreachable code. This is a bug.")
               end
      | inl _ => Ret false
      end
  end.

(** ** Limits *)

Definition limit_result (l : ContractAuthzLimitAcceptResult)
    : outcome (option ContractAuthzLimitAcceptResult) := Ret (Some l).

Definition MaxCallsLimit_Accept (n : N) (msg : AuthzableWasmMsg)
    : outcome (option ContractAuthzLimitAcceptResult) :=
  if negb (Coins_Empty (GetFunds msg)) then limit_result (mkLimitResult false false None)
  else if (n =? 0)%N then Fail (Wrap ErrUnauthorized "no calls left")
  else if (n =? 1)%N then limit_result (mkLimitResult true true None)
  else limit_result (mkLimitResult true false (Some (MaxCallsLimit (sub64 n 1)))).

Definition MaxFundsLimit_Accept (amounts : Coins) (msg : AuthzableWasmMsg)
    : outcome (option ContractAuthzLimitAcceptResult) :=
  if Coins_Empty (GetFunds msg) then limit_result (mkLimitResult true false None)
  else if negb (Coins_IsAllLTE (GetFunds msg) amounts)
  then limit_result (mkLimitResult false false None)
  else obind (Coins_Sub amounts (GetFunds msg)) (fun newAmounts =>
    if Coins_IsZero newAmounts then limit_result (mkLimitResult true true None)
    else limit_result (mkLimitResult true false (Some (MaxFundsLimit newAmounts)))).

Definition NewCombinedLimit (maxCalls : N) (maxAmounts : list sdkCoin)
    : outcome ContractAuthzLimitX :=
  obind (NewCoins maxAmounts) (fun amounts => Ret (CombinedLimit maxCalls amounts)).

Definition CombinedLimit_Accept (n : N) (amounts : Coins) (msg : AuthzableWasmMsg)
    : outcome (option ContractAuthzLimitAcceptResult) :=
  let transferFunds := GetFunds msg in
  if negb (Coins_IsAllLTE transferFunds amounts)
  then limit_result (mkLimitResult false false None)
  else if (n =? 0)%N then Fail (Wrap ErrUnauthorized "no calls left")
  else if (n =? 1)%N then limit_result (mkLimitResult true true None)
  else obind (Coins_Sub amounts transferFunds) (fun remainingAmounts =>
    if Coins_IsZero remainingAmounts then limit_result (mkLimitResult true true None)
    else obind (NewCombinedLimit (sub64 n 1) remainingAmounts) (fun l =>
      limit_result (mkLimitResult true false (Some l)))).

Definition Limit_Accept (l : ContractAuthzLimitX) (msg : AuthzableWasmMsg)
    : outcome (option ContractAuthzLimitAcceptResult) :=
  match l with
  | UndefinedLimit => Fail (Wrap ErrSdkNotFound "undefined filter")
  | MaxCallsLimit n => MaxCallsLimit_Accept n msg
  | MaxFundsLimit amounts => MaxFundsLimit_Accept amounts msg
  | CombinedLimit n amounts => CombinedLimit_Accept n amounts msg
  end.

Definition Limit_ValidateBasic (l : ContractAuthzLimitX) : option error :=
  match l with
  | UndefinedLimit => Some (Wrap ErrInvalidType "undefined limit")
  | MaxCallsLimit n => errIf (n =? 0)%N (Wrap ErrEmpty "remaining calls")
  | MaxFundsLimit amounts =>
      Coins_Validate amounts
      >>? errIf (Coins_IsZero amounts) (Wrap ErrEmpty "amounts")
  | CombinedLimit n amounts =>
      errIf (n =? 0)%N (Wrap ErrEmpty "remaining calls")
      >>? errIf (Coins_IsZero amounts) (Wrap ErrEmpty "amounts")
      >>? WrapOpt (Coins_Validate amounts) "amounts"
  end.

(** ** Filters *)

Definition AcceptedMessageKeysFilter_Accept (keys : list string) (msg : bytes) : M bool :=
  let gasForDeserialization := mul64 gasDeserializationCostPerByte (wrap64 (blen msg)) in
  _ ← consume gasForDeserialization "contract authorization";
  map_err (fun err => Wrap ErrUnauthorized
             (String.append "not an allowed msg: " (error_string err)))
    (lift (isJSONObjectWithTopLevelKey msg keys)).

(** The loop over the accepted messages; RawContractMessage.Equal is equality
    of bytes. *)
Definition AcceptedMessagesFilter_Accept (messages : list bytes) (msg : bytes) : bool :=
  existsb (fun v => bool_decide (v = msg)) messages.

Definition Filter_Accept (f : ContractAuthzFilterX) (msg : bytes) : M bool :=
  match f with
  | UndefinedFilter => fail (Wrap ErrSdkNotFound "undefined filter")
  | AllowAllMessagesFilter =>
      _ ← check (RawContractMessage_ValidateBasic msg); mret true
  | AcceptedMessageKeysFilter keys => AcceptedMessageKeysFilter_Accept keys msg
  | AcceptedMessagesFilter messages => mret (AcceptedMessagesFilter_Accept messages msg)
  end.

(** The loops that fill [idx]. *)
Fixpoint validate_keys (idx : gset string) (keys : list string) : option error :=
  match keys with
  | [] => None
  | m :: keys' =>
      errIf (bool_decide (m = "")) (Wrap ErrEmpty "key")
      >>? errIf (negb (bool_decide (m = TrimSpace m)))
            (Wrap ErrInvalid "key %q contains whitespaces")
      >>? errIf (bool_decide (m ∈ idx)) (Wrap ErrDuplicate "key %q")
      >>? validate_keys ({[m]} ∪ idx) keys'
  end.
Fixpoint validate_messages (idx : gset bytes) (messages : list bytes) : option error :=
  match messages with
  | [] => None
  | m :: messages' =>
      errIf (Nat.eqb (length m) 0) (Wrap ErrEmpty "message")
      >>? RawContractMessage_ValidateBasic m
      >>? errIf (bool_decide (m ∈ idx)) (Wrap ErrDuplicate "message")
      >>? validate_messages ({[m]} ∪ idx) messages'
  end.

Definition Filter_ValidateBasic (f : ContractAuthzFilterX) : option error :=
  match f with
  | UndefinedFilter => Some (Wrap ErrInvalidType "undefined filter")
  | AllowAllMessagesFilter => None
  | AcceptedMessageKeysFilter keys =>
      errIf (Nat.eqb (length keys) 0) (Wrap ErrEmpty "keys") >>? validate_keys ∅ keys
  | AcceptedMessagesFilter messages =>
      errIf (Nat.eqb (length messages) 0) (Wrap ErrEmpty "messages")
      >>? validate_messages ∅ messages
  end.

(** ** Grants *)

Definition GetLimit (g : ContractGrant) : ContractAuthzLimitX :=
  match CG_Limit g with
  | None => UndefinedLimit
  | Some a => default UndefinedLimit (any_Cached a)
  end.

Definition GetFilter (g : ContractGrant) : ContractAuthzFilterX :=
  match CG_Filter g with
  | None => UndefinedFilter
  | Some a => default UndefinedFilter (any_Cached a)
  end.

Definition is_proto_limit (l : ContractAuthzLimitX) : bool :=
  match l with UndefinedLimit => false | _ => true end.
Definition is_proto_filter (f : ContractAuthzFilterX) : bool :=
  match f with UndefinedFilter => false | _ => true end.

Definition WithNewLimits (g : ContractGrant) (limit : ContractAuthzLimitX)
    : ContractGrant + error :=
  if negb (is_proto_limit limit)
  then inr (Wrap ErrInvalidType "limit is not a proto type")
  else match NewAnyWithLimit limit with
       | inr err => inr (Wrap err "limit")
       | inl anyLimit => inl (mkContractGrant (CG_Contract g) (Some anyLimit) (CG_Filter g))
       end.

Definition NewContractGrant (contract : AccAddress) (limit : ContractAuthzLimitX)
    (filter : ContractAuthzFilterX) : ContractGrant + error :=
  if negb (is_proto_filter filter)
  then inr (Wrap ErrInvalidType "filter is not a proto type")
  else match NewAnyWithFilter filter with
       | inr err => inr (Wrap err "filter")
       | inl anyFilter =>
           WithNewLimits (mkContractGrant (acc_string contract) None (Some anyFilter)) limit
       end.

Definition ContractGrant_UnpackInterfaces (g : ContractGrant) : ContractGrant + error :=
  match UnpackAnyFilter (CG_Filter g) with
  | inr err => inr (Wrap err "filter")
  | inl f =>
      match UnpackAnyLimit (CG_Limit g) with
      | inr err => inr (Wrap err "limit")
      | inl l => inl (mkContractGrant (CG_Contract g) l f)
      end
  end.

Definition ContractGrant_ValidateBasic (g : ContractGrant) : option error :=
  WrapOpt (bech32_err (CG_Contract g)) "contract"
  >>? WrapOpt (Limit_ValidateBasic (GetLimit g)) "limit"
  >>? WrapOpt (Filter_ValidateBasic (GetFilter g)) "filter".

Fixpoint validate_grants_loop (g : list ContractGrant) : option error :=
  match g with
  | [] => None
  | v :: g' =>
      WrapOpt (ContractGrant_ValidateBasic v) "position %d" >>? validate_grants_loop g'
  end.
Definition validateGrants (g : list ContractGrant) : option error :=
  errIf (Nat.eqb (length g) 0) (Wrap ErrEmpty "grants") >>? validate_grants_loop g.

Definition Grants (a : Authorization) : list ContractGrant :=
  match a with
  | ContractExecutionAuthorization g | ContractMigrationAuthorization g => g
  end.
Definition Authorization_ValidateBasic (a : Authorization) : option error :=
  validateGrants (Grants a).

(** UnpackInterfaces of an authorization: every grant in turn, up to the
    first error. *)
Fixpoint UnpackGrants (g : list ContractGrant) : list ContractGrant + error :=
  match g with
  | [] => inl []
  | v :: g' =>
      match ContractGrant_UnpackInterfaces v with
      | inr err => inr err
      | inl v => match UnpackGrants g' with
                 | inr err => inr err
                 | inl g' => inl (v :: g')
                 end
      end
  end.

(** NewAuthz of the two factories. *)
Definition NewAuthz (factory : Authorization) (g : list ContractGrant) : Authorization :=
  match factory with
  | ContractExecutionAuthorization _ => ContractExecutionAuthorization g
  | ContractMigrationAuthorization _ => ContractMigrationAuthorization g
  end.

Definition Authorization_MsgTypeURL (a : Authorization) : string :=
  match a with
  | ContractExecutionAuthorization _ => "/cosmwasm.wasm.v1.MsgExecuteContract"
  | ContractMigrationAuthorization _ => "/cosmwasm.wasm.v1.MsgMigrateContract"
  end.

(** ** AcceptGrantedMessage *)

(** The two messages behind AuthzableWasmMsg (tx.go). A message field that is
    nil or empty is the empty list of bytes; neither passes ValidateBasic. *)
Definition raw_message (bz : bytes) : option bytes :=
  if Nat.eqb (length bz) 0 then None else Some bz.
Definition authzable_execute (m : MsgExecuteContract) : AuthzableWasmMsg :=
  mkAuthzableWasmMsg (E_Funds m) (raw_message (E_Msg m)) (E_Contract m)
    (MsgExecuteContract_ValidateBasic m).
Definition authzable_migrate (m : MsgMigrateContract) : AuthzableWasmMsg :=
  mkAuthzableWasmMsg [] (raw_message (Mi_Msg m)) (Mi_Contract m)
    (MsgMigrateContract_ValidateBasic m).

(** The type assertion [msg.(T)] at the T of the authorization. *)
Definition as_granted (a : Authorization) (msg : SdkMsg) : option AuthzableWasmMsg :=
  match a, msg with
  | ContractExecutionAuthorization _, SWasm (MsgServer.WExecuteContract m) =>
      Some (authzable_execute m)
  | ContractMigrationAuthorization _, SWasm (MsgServer.WMigrateContract m) =>
      Some (authzable_migrate m)
  | _, _ => None
  end.

(** [append(arr[0:i], xs...)]: the new slice and what it leaves in the array
    behind [arr]. The elements are written in place when they fit. *)
Definition append_at {A} (arr : list A) (i : nat) (xs : list A) : list A * list A :=
  (take i arr ++ xs,
   if Nat.leb (i + length xs) (length arr)
   then take i arr ++ xs ++ drop (i + length xs) arr else arr).

(** Building and checking the new authorization; [arr] is the receiver's
    array by then. *)
Definition updated_response (factory : Authorization) (g arr : list ContractGrant)
    : (AcceptResponse + error) * list ContractGrant :=
  let newAuthz := NewAuthz factory g in
  (match Authorization_ValidateBasic newAuthz with
   | Some err => inr (Wrap ErrInvalid
                        (String.append "new grant state: " (error_string err)))
   | None => inl (mkAcceptResponse true false (Some newAuthz))
   end, arr).

(** The final switch, for the grant [g] at position [i]. *)
Definition apply_limit (factory : Authorization) (grants : list ContractGrant)
    (i : nat) (g : ContractGrant) (result : ContractAuthzLimitAcceptResult)
    : (AcceptResponse + error) * list ContractGrant :=
  if DeleteLimit result then
    let '(updatedGrants, arr) := append_at grants i (drop (S i) grants) in
    if Nat.eqb (length updatedGrants) 0
    then (inl (mkAcceptResponse true true None), arr)
    else updated_response factory updatedGrants arr
  else match UpdateLimit result with
       | Some limit =>
           match WithNewLimits g limit with
           | inr err => (inr err, grants)
           | inl obj =>
               let '(_, arr) := append_at grants i [obj] in
               let '(updatedGrants, arr) := append_at arr (S i) (drop (S i) arr) in
               updated_response factory updatedGrants arr
           end
       | None => (inl (mkAcceptResponse true false None), grants)
       end.

(** The loop; [rest] are the grants from position [i] on. The result comes
    with the contents of the slice [grants] at the return. *)
Fixpoint accept_loop (factory : Authorization) (grants : list ContractGrant)
    (exec : AuthzableWasmMsg) (msg : bytes) (i : nat) (rest : list ContractGrant)
    : M ((AcceptResponse + error) * list ContractGrant) :=
  match rest with
  | [] => mret (inl (mkAcceptResponse false false None), grants)
  | g :: rest' =>
      if negb (bool_decide (CG_Contract g = GetContract exec))
      then accept_loop factory grants exec msg (S i) rest'
      else
        limit ← catch (lift (Limit_Accept (GetLimit g) exec));
        match limit with
        | inr err => mret (inr (Wrap err "limit"), grants)
        | inl None =>
            mret (inr (Wrap ErrInvalidType "limit result must not be nil"), grants)
        | inl (Some result) =>
            if negb (Accepted result)
            then accept_loop factory grants exec msg (S i) rest'
            else
              ok ← catch (Filter_Accept (GetFilter g) msg);
              match ok with
              | inr err => mret (inr (Wrap err "filter"), grants)
              | inl false => accept_loop factory grants exec msg (S i) rest'
              | inl true => mret (apply_limit factory grants i g result)
              end
        end
  end.

Definition AcceptGrantedMessage (grants : list ContractGrant) (msg : SdkMsg)
    (factory : Authorization) : M ((AcceptResponse + error) * list ContractGrant) :=
  match as_granted factory msg with
  | None => mret (inr (Wrap ErrInvalidType "type mismatch"), grants)
  | Some exec =>
      match GetMsg exec with
      | None => mret (inr (Wrap ErrInvalidType "empty message"), grants)
      | Some bz =>
          match ValidateBasic exec with
          | Some err => mret (inr err, grants)
          | None => accept_loop factory grants exec bz 0 grants
          end
      end
  end.

(** Accept of the two authorizations, with the receiver as it is left. *)
Definition Authorization_Accept (a : Authorization) (msg : SdkMsg)
    : M ((AcceptResponse + error) * Authorization) :=
  '(r, grants) ← AcceptGrantedMessage (Grants a) msg a;
  mret (r, NewAuthz a grants).

(** ** StoreCodeAuthorization *)

Definition StoreCodeAuthorization_MsgTypeURL : string := "/cosmwasm.wasm.v1.MsgStoreCode".

Definition CodeGrant_ValidateBasic (g : CodeGrant) : option error :=
  errIf (Nat.eqb (length (CodeHash g)) 0) (Wrap ErrEmpty "code hash")
  >>? match CG_InstantiatePermission g with
      | Some p => AccessConfig_ValidateBasic p
      | None => None
      end.

Definition is_wildcard (hash : bytes) : bool :=
  EqualFold (string_of_bytes hash) CodehashWildcard.

(** [permission] may be nil; IsSubset is a method of the value. *)
Definition CodeGrant_Accept (g : CodeGrant) (checksum : bytes)
    (permission : option AccessConfig) : outcome bool :=
  if negb (is_wildcard (CodeHash g)) && negb (bytes_EqualFold (CodeHash g) checksum)
  then Ret false
  else match CG_InstantiatePermission g with
       | None => Ret true
       | Some superSet =>
           match permission with
           | None => Panic (PRuntime "nil pointer dereference")
           | Some permission => Ret (IsSubset permission superSet)
           end
       end.

Fixpoint code_grants_loop (grants : list CodeGrant) (checksum : bytes)
    (permission : option AccessConfig) : outcome AcceptResponse :=
  match grants with
  | [] => Ret (mkAcceptResponse false false None)
  | grant :: grants' =>
      obind (CodeGrant_Accept grant checksum permission) (fun ok =>
        if ok then Ret (mkAcceptResponse true false None)
        else code_grants_loop grants' checksum permission)
  end.

(** The gzip branch. *)
Definition plain_code (ctx : Context) (code : bytes) : M bytes :=
  if IsGzip code then
    match ctx_GasRegister ctx with
    | None => fail (Wrap ErrSdkNotFound "gas register")
    | Some gasRegister =>
        c ← lift (GasRegister.UncompressCosts gasRegister (Z.of_N (blen code)));
        _ ← consume c "Uncompress gzip bytecode";
        match Uncompress code MaxWasmSize with
        | inr _ => fail (Wrap ErrInvalidRequest "uncompress wasm archive")
        | inl wasmCode => mret wasmCode
        end
    end
  else mret code.

Definition StoreCodeAuthorization_Accept (grants : list CodeGrant) (ctx : Context)
    (msg : SdkMsg) : M AcceptResponse :=
  match msg with
  | SWasm (MsgServer.WStoreCode storeMsg) =>
      code ← plain_code ctx (SC_WASMByteCode storeMsg);
      match CreateChecksum code with
      | inr _ => fail (Wrap ErrInvalidRequest "checksum")
      | inl checksum =>
          lift (code_grants_loop grants checksum (SC_InstantiatePermission storeMsg))
      end
  | _ => fail (Wrap ErrInvalidRequest "unknown msg type")
  end.

(** The default branch of the switch: [uniqueGrants] filled by the loop. *)
Fixpoint validate_code_grants (uniqueGrants : gset string) (grants : list CodeGrant)
    : gset string + error :=
  match grants with
  | [] => inl uniqueGrants
  | grant :: grants' =>
      if is_wildcard (CodeHash grant)
      then inr (Wrap ErrInvalidRequest
                  "cannot have multiple grants when wildcard grant is one of them")
      else match CodeGrant_ValidateBasic grant with
           | Some err => inr (Wrap err "position %d")
           | None =>
               validate_code_grants
                 ({[ToLower (string_of_bytes (CodeHash grant))]} ∪ uniqueGrants) grants'
           end
  end.
Definition StoreCodeAuthorization_ValidateBasic (grants : list CodeGrant) : option error :=
  match grants with
  | [] => Some (Wrap ErrEmpty "grants")
  | [g] => WrapOpt (CodeGrant_ValidateBasic g) "position %d"
  | _ =>
      match validate_code_grants ∅ grants with
      | inr err => Some err
      | inl uniqueGrants =>
          errIf (negb (Nat.eqb (size uniqueGrants) (length grants)))
            (Wrap ErrInvalidRequest "cannot have multiple grants with same code hash")
      end
  end.

(** ** What an accepted message went through *)

(** The filter of a grant as a specification on the message. *)
Definition permits (f : ContractAuthzFilterX) (msg : bytes) : Prop :=
  match f with
  | UndefinedFilter => False
  | AllowAllMessagesFilter => json_Valid msg = true
  | AcceptedMessageKeysFilter keys =>
      exists members k, json_Unmarshal msg = inl (JObject members)
        /\ k ∈ keys /\ forall name, name ∈ members.*1 <-> name = bytes_of_string k
  | AcceptedMessagesFilter messages => msg ∈ messages
  end.

(** The grants the authorization goes on with, as the response says. *)
Definition grants_after (gs : list ContractGrant) (r : AcceptResponse)
    : list ContractGrant :=
  if Delete r then [] else match Updated r with Some a => Grants a | None => gs end.

Lemma map_keys_single (members : list (bytes * json)) k l :
  map_keys members = k :: l -> length (map_keys members) = 1%nat ->
  forall name, name ∈ members.*1 <-> name = k.
Proof.
  unfold map_keys. intros E Hl name. rewrite E in Hl. destruct l; [|done].
  rewrite <- elem_of_remove_dups, E. set_solver.
Qed.

Lemma isJSONObjectWithTopLevelKey_sound msg keys :
  isJSONObjectWithTopLevelKey msg keys = Ret true ->
  permits (AcceptedMessageKeysFilter keys) msg.
Proof.
  unfold isJSONObjectWithTopLevelKey, permits.
  destruct (RawContractMessage_ValidateBasic msg); [done|].
  destruct (json_Unmarshal msg) as [[]|]; try done. cbv zeta.
  destruct (Nat.eqb_spec (length (map_keys members)) 1) as [Hl|]; [|done]. simpl.
  destruct (map_keys members) as [|k l] eqn:E; [done|]. intros [= Hk].
  apply existsb_exists in Hk as (a & Ha & Hd). apply bool_decide_eq_true in Hd.
  exists members, a. split_and!; [done|by apply list_elem_of_In|].
  rewrite Hd. eapply map_keys_single; [done|]. by rewrite E.
Qed.

Lemma Filter_Accept_sound f msg s s' :
  Filter_Accept f msg s = (Ret true, s') -> permits f msg.
Proof.
  destruct f as [| |keys|messages]; cbn [Filter_Accept permits]; [done|..].
  - unfold RawContractMessage_ValidateBasic. by destruct (json_Valid msg).
  - unfold AcceptedMessageKeysFilter_Accept, mbind, M_bind, map_err, lift.
    destruct (consume _ _ s) as [[[]| |] s1]; [|done..].
    destruct (isJSONObjectWithTopLevelKey msg keys) as [b| |] eqn:E; [|done..].
    intros [= -> _]. by apply isJSONObjectWithTopLevelKey_sound.
  - intros [= Hm _]. apply existsb_exists in Hm as (v & Hv & Hd).
    apply bool_decide_eq_true in Hd as <-. by apply list_elem_of_In.
Qed.

Lemma accept_loop_accepted factory gs exec msg rest : forall i s r arr s',
  rest = drop i gs ->
  accept_loop factory gs exec msg i rest s = (Ret (inl r, arr), s') ->
  Accept r = true ->
  exists j g result s1 s2, gs !! j = Some g /\ CG_Contract g = GetContract exec
    /\ Limit_Accept (GetLimit g) exec = Ret (Some result) /\ Accepted result = true
    /\ Filter_Accept (GetFilter g) msg s1 = (Ret true, s2)
    /\ apply_limit factory gs j g result = (inl r, arr).
Proof.
  induction rest as [|g rest IH]; intros i s r arr s' Hr E Ha; cbn [accept_loop] in E.
  { injection E as <- <- <-. done. }
  assert (gs !! i = Some g /\ rest = drop (S i) gs) as [Hg Hrest].
  { rewrite <- (take_drop i gs), <- Hr at 1. split.
    - rewrite lookup_app_r by (rewrite length_take; lia). rewrite length_take.
      assert (i < length gs)%nat by (apply (f_equal length) in Hr; rewrite length_drop in Hr; simpl in Hr; lia).
      by replace (i - i `min` length gs)%nat with 0%nat by lia.
    - by rewrite <- (Nat.add_1_r i), <- drop_drop, <- Hr. }
  destruct (bool_decide_reflect (CG_Contract g = GetContract exec)) as [Hc|];
    [|eapply IH; eauto]. cbn [negb] in E.
  unfold mbind, M_bind, catch, lift in E.
  destruct (Limit_Accept (GetLimit g) exec) as [[result|]| |] eqn:El; [|done..].
  destruct (Accepted result) eqn:Hacc; cbn [negb] in E; [|eapply IH; eauto].
  destruct (Filter_Accept (GetFilter g) msg s) as [[[]| |] s2] eqn:Ef; [..|done|done].
  - injection E as E <-. exists i, g, result, s, s2. by split_and!.
  - eapply IH; eauto.
Qed.

(** *** The aliasing of the two appends *)

Lemma append_at_delete {A} (l : list A) i :
  append_at l i (drop (S i) l)
  = (delete i l, if Nat.ltb i (length l) then delete i l ++ drop (pred (length l)) l else l).
Proof.
  unfold append_at. rewrite delete_take_drop, length_drop.
  destruct (Nat.ltb_spec i (length l)).
  - rewrite (proj2 (Nat.leb_le _ _)) by lia.
    replace (i + (length l - S i))%nat with (pred (length l)) by lia. by rewrite app_assoc.
  - destruct (Nat.leb_spec (i + (length l - S i)) (length l)); [|done].
    rewrite (drop_ge l (S i)), drop_ge, take_ge by lia. by rewrite !app_nil_r.
Qed.

Lemma append_at_update {A} (l : list A) i x :
  (i < length l)%nat ->
  append_at (append_at l i [x]).2 (S i) (drop (S i) (append_at l i [x]).2)
  = (<[i := x]> l, <[i := x]> l).
Proof.
  intros Hi. assert ((append_at l i [x]).2 = <[i := x]> l) as ->.
  { unfold append_at. cbn [snd length]. rewrite (proj2 (Nat.leb_le _ _)) by lia.
    rewrite insert_take_drop by done. by rewrite Nat.add_1_r. }
  unfold append_at. rewrite length_drop, length_insert.
  rewrite (proj2 (Nat.leb_le _ _)) by lia.
  rewrite take_drop. f_equal. rewrite (drop_ge _ (S i + _)) by (rewrite length_insert; lia).
  by rewrite app_nil_r, take_drop.
Qed.

Lemma grants_NewAuthz f g : Grants (NewAuthz f g) = g.
Proof. by destruct f. Qed.

Lemma updated_response_inl f g arr r arr' :
  updated_response f g arr = (inl r, arr') ->
  r = mkAcceptResponse true false (Some (NewAuthz f g)) /\ validateGrants g = None.
Proof.
  unfold updated_response, Authorization_ValidateBasic. rewrite grants_NewAuthz.
  destruct (validateGrants g); naive_solver.
Qed.

Context `{!AuthzCodecLaws}.

Lemma WithNewLimits_limit g l g' :
  WithNewLimits g l = inl g' ->
  CG_Contract g' = CG_Contract g /\ GetLimit g' = l /\ GetFilter g' = GetFilter g.
Proof.
  unfold WithNewLimits. destruct (is_proto_limit l); [|done]. simpl.
  destruct (NewAnyWithLimit l) as [a|] eqn:E; [|done]. intros [= <-].
  apply NewAnyWithLimit_cached in E. unfold GetLimit, GetFilter. simpl. by rewrite E.
Qed.

(** The grants after an acceptance: the grant that applied is dropped, has a
    new limit, or stays. *)
Lemma apply_limit_grants f gs j g result r arr :
  gs !! j = Some g -> apply_limit f gs j g result = (inl r, arr) ->
  Accept r = true /\
  if DeleteLimit result then grants_after gs r = delete j gs
  else match UpdateLimit result with
       | None => grants_after gs r = gs
       | Some l => exists g', grants_after gs r = <[j := g']> gs
           /\ CG_Contract g' = CG_Contract g /\ GetLimit g' = l /\ GetFilter g' = GetFilter g
       end.
Proof.
  intros Hg E. unfold apply_limit in E. destruct (DeleteLimit result).
  - rewrite append_at_delete in E.
    destruct (Nat.eqb_spec (length (delete j gs)) 0) as [E0|].
    + injection E as <- <-. split; [done|]. by apply nil_length_inv in E0 as ->.
    + apply updated_response_inl in E as [-> _]. unfold grants_after. simpl.
      by rewrite grants_NewAuthz.
  - destruct (UpdateLimit result) as [l|]; [|by injection E as <- <-].
    destruct (WithNewLimits g l) as [g'|] eqn:Ew; [|done].
    apply lookup_lt_Some in Hg. pose proof (append_at_update gs j g' Hg) as Eu.
    destruct (append_at gs j [g']) as [? arr1]. cbn [snd] in Eu. rewrite Eu in E.
    apply updated_response_inl in E as [-> _]. split; [done|]. exists g'.
    unfold grants_after. simpl. rewrite grants_NewAuthz.
    split; [done|]. by apply WithNewLimits_limit in Ew.
Qed.

(** The updated authorization is valid again. *)
Lemma apply_limit_valid f gs j g result r arr :
  validateGrants gs = None -> apply_limit f gs j g result = (inl r, arr) ->
  Delete r = false -> validateGrants (grants_after gs r) = None.
Proof.
  intros Hv E Hd. unfold apply_limit in E. destruct (DeleteLimit result).
  - destruct (append_at _ _ _). destruct (Nat.eqb _ 0); [by injection E as <- <-|].
    apply updated_response_inl in E as [-> Hv']. unfold grants_after; simpl. by rewrite grants_NewAuthz.
  - destruct (UpdateLimit result); [|by injection E as <- <-].
    destruct (WithNewLimits g _); [|done]. destruct (append_at gs _ _), (append_at _ _ _).
    apply updated_response_inl in E as [-> Hv']. unfold grants_after; simpl. by rewrite grants_NewAuthz.
Qed.

(** ** What a grant is worth *)

Context `{!CoinsLaws}.

(** What a limit still allows to transfer of a denomination, and how many
    calls; MaxFundsLimit does not count calls. *)
Definition funds_left (d : string) (l : ContractAuthzLimitX) : Z :=
  match l with
  | MaxFundsLimit amounts | CombinedLimit _ amounts => AmountOf amounts d
  | _ => 0
  end.
Definition calls_left (l : ContractAuthzLimitX) : Z :=
  match l with
  | MaxCallsLimit n | CombinedLimit n _ => Z.of_N n
  | _ => 0
  end.
Definition counts_calls (l : ContractAuthzLimitX) : bool :=
  match l with MaxFundsLimit _ => false | _ => true end.

(** A measure of limits summed over the grants for a contract. *)
Definition worth (w : ContractAuthzLimitX -> Z) (c : string) (g : ContractGrant) : Z :=
  if bool_decide (CG_Contract g = c) then w (GetLimit g) else 0.
Definition total (w : ContractAuthzLimitX -> Z) (c : string) (gs : list ContractGrant) : Z :=
  foldr (fun g acc => worth w c g + acc)%Z 0%Z gs.

Lemma total_delete w c gs j g :
  gs !! j = Some g -> total w c (delete j gs) = (total w c gs - worth w c g)%Z.
Proof.
  revert j. induction gs as [|h gs IH]; intros [|j] E; simplify_eq/=; [lia|].
  rewrite (IH j E). lia.
Qed.
Lemma total_insert w c gs j g g' :
  gs !! j = Some g ->
  total w c (<[j := g']> gs) = (total w c gs - worth w c g + worth w c g')%Z.
Proof.
  revert j. induction gs as [|h gs IH]; intros [|j] E; simplify_eq/=; [lia|].
  rewrite (IH j E). lia.
Qed.

(** What a limit is worth after it accepted a message; one that is deleted is
    worth nothing. *)
Definition worth_after (w : ContractAuthzLimitX -> Z) (l : ContractAuthzLimitX)
    (result : ContractAuthzLimitAcceptResult) : Z :=
  if DeleteLimit result then 0 else w (default l (UpdateLimit result)).

(** The limit pays for the funds and for the call. *)
Definition pays (exec : AuthzableWasmMsg) (d : string) (l : ContractAuthzLimitX)
    (result : ContractAuthzLimitAcceptResult) : Prop :=
  (worth_after (funds_left d) l result + AmountOf (GetFunds exec) d <= funds_left d l)%Z
  /\ (counts_calls l = true -> (worth_after calls_left l result + 1 <= calls_left l)%Z).
Definition limit_u64 (l : ContractAuthzLimitX) : Prop :=
  match l with MaxCallsLimit n | CombinedLimit n _ => is_u64 n | _ => True end.

Section Pays.
Context (exec : AuthzableWasmMsg) (d : string).
Hypothesis funds_valid : Coins_Validate (GetFunds exec) = None.

Lemma MaxCallsLimit_pays n result :
  is_u64 n -> MaxCallsLimit_Accept n exec = Ret (Some result) -> Accepted result = true ->
  pays exec d (MaxCallsLimit n) result.
Proof.
  unfold MaxCallsLimit_Accept, pays. intros Hn E Ha.
  destruct (GetFunds exec) eqn:Ef; cbn [Coins_Empty length Nat.eqb negb] in E; [|by injection E as <-].
  rewrite AmountOf_nil. destruct (N.eqb_spec n 0); [done|].
  destruct (N.eqb_spec n 1); injection E as <-; unfold worth_after; simpl; [split; lia|].
  rewrite sub64_exact by (done || lia). split; lia.
Qed.

Lemma MaxFundsLimit_pays a result :
  Coins_Validate a = None ->
  MaxFundsLimit_Accept a exec = Ret (Some result) -> Accepted result = true ->
  pays exec d (MaxFundsLimit a) result.
Proof.
  unfold MaxFundsLimit_Accept, pays. intros Hva E Ha. split; [|done].
  destruct (Coins_Empty (GetFunds exec)) eqn:Ee.
  { injection E as <-. destruct (GetFunds exec); [|done]. rewrite AmountOf_nil.
    unfold worth_after. simpl. lia. }
  destruct (Coins_IsAllLTE (GetFunds exec) a) eqn:El; [|by injection E as <-]. cbn [negb] in E.
  destruct (Coins_Sub_exact a (GetFunds exec)) as (c & Ec & Hc & Hd); [done..|].
  rewrite Ec in E. cbn [obind] in E. pose proof (IsAllLTE_AmountOf _ _ d funds_valid Hva El).
  destruct (Coins_IsZero c); injection E as <-; unfold worth_after; simpl; [lia|].
  rewrite Hd. lia.
Qed.

Lemma CombinedLimit_pays n a result :
  is_u64 n -> Coins_Validate a = None ->
  CombinedLimit_Accept n a exec = Ret (Some result) -> Accepted result = true ->
  pays exec d (CombinedLimit n a) result.
Proof.
  unfold CombinedLimit_Accept, pays. intros Hn Hva E Ha. cbv zeta in E.
  destruct (Coins_IsAllLTE (GetFunds exec) a) eqn:El; [|by injection E as <-]. cbn [negb] in E.
  pose proof (IsAllLTE_AmountOf _ _ d funds_valid Hva El).
  destruct (N.eqb_spec n 0); [done|].
  destruct (N.eqb_spec n 1); [injection E as <-; unfold worth_after; simpl; split; lia|].
  destruct (Coins_Sub_exact a (GetFunds exec)) as (c & Ec & Hc & Hd); [done..|].
  rewrite Ec in E. cbn [obind] in E.
  destruct (Coins_IsZero c); [injection E as <-; unfold worth_after; simpl; split; lia|].
  unfold NewCombinedLimit in E. rewrite (NewCoins_valid c Hc) in E. injection E as <-.
  unfold worth_after; simpl. rewrite Hd, sub64_exact by (done || lia). split; lia.
Qed.

Lemma Limit_Accept_pays l result :
  Limit_ValidateBasic l = None -> limit_u64 l ->
  Limit_Accept l exec = Ret (Some result) -> Accepted result = true ->
  pays exec d l result.
Proof.
  destruct l as [|n|a|n a]; cbn [Limit_Accept Limit_ValidateBasic limit_u64]; [done|..];
    rewrite ?first_error_None, ?WrapOpt_None.
  - intros _. apply MaxCallsLimit_pays.
  - intros [Ha _] _. by apply MaxFundsLimit_pays.
  - intros (_ & _ & Ha) Hn. by apply CombinedLimit_pays.
Qed.

(** The new limit is one of the same kind, within its width. *)
Lemma Limit_Accept_kind l result l' :
  limit_u64 l -> Limit_Accept l exec = Ret (Some result) -> UpdateLimit result = Some l' ->
  limit_u64 l' /\ counts_calls l' = counts_calls l.
Proof.
  destruct l as [|n|a|n a]; cbn [Limit_Accept limit_u64]; [done|..]; intros Hn E Hl.
  - unfold MaxCallsLimit_Accept, limit_result in E. repeat case_match; simplify_eq/=.
    split; [apply wrap64_bound|done].
  - unfold MaxFundsLimit_Accept, limit_result, obind in E. by repeat case_match; simplify_eq/=.
  - unfold CombinedLimit_Accept, NewCombinedLimit, limit_result, obind in E.
    repeat case_match; simplify_eq/=. split; [apply wrap64_bound|done].
Qed.

End Pays.

(** ** The life of an authorization *)

(** A valid authorization with counters within their width. *)
Definition well_formed (gs : list ContractGrant) : Prop :=
  validateGrants gs = None /\ Forall (fun g => limit_u64 (GetLimit g)) gs.
(** Every grant for the contract counts calls. *)
Definition counted (c : string) (gs : list ContractGrant) : Prop :=
  Forall (fun g => CG_Contract g = c -> counts_calls (GetLimit g) = true) gs.

(** The messages accepted one after the other, each by the authorization the
    response to the one before left, and what is left in the end: [None] when
    the last response had the authorization deleted, after which there is
    nothing that accepts. *)
Inductive lifetime : Authorization -> list AuthzableWasmMsg -> option Authorization -> Prop :=
| life_end a : lifetime a [] (Some a)
| life_last a msg exec s r a' s' :
    as_granted a msg = Some exec ->
    Authorization_Accept a msg s = (Ret (inl r, a'), s') -> Accept r = true ->
    Delete r = true -> lifetime a [exec] None
| life_next a msg exec s r a' s' ms left :
    as_granted a msg = Some exec ->
    Authorization_Accept a msg s = (Ret (inl r, a'), s') -> Accept r = true ->
    Delete r = false -> lifetime (default a (Updated r)) ms left -> lifetime a (exec :: ms) left.

(** What the messages sent to a contract, and how many there were. *)
Definition spent (c d : string) (ms : list AuthzableWasmMsg) : Z :=
  foldr (fun m acc => (if bool_decide (GetContract m = c) then AmountOf (GetFunds m) d else 0) + acc)%Z
    0%Z ms.
Definition calls (c : string) (ms : list AuthzableWasmMsg) : Z :=
  foldr (fun m acc => (if bool_decide (GetContract m = c) then 1 else 0) + acc)%Z 0%Z ms.

Lemma validateGrants_Forall gs :
  validateGrants gs = None -> Forall (fun g => ContractGrant_ValidateBasic g = None) gs.
Proof.
  unfold validateGrants. rewrite first_error_None. intros [_ Hl].
  induction gs as [|g gs IH]; simpl in Hl; [done|].
  rewrite first_error_None, WrapOpt_None in Hl. destruct Hl; constructor; auto.
Qed.

Lemma as_granted_funds a msg exec :
  as_granted a msg = Some exec -> ValidateBasic exec = None ->
  Coins_Validate (GetFunds exec) = None.
Proof.
  destruct a, msg as [[]| | | | | | | | | | | | | |]; try done; intros [= <-]; simpl; intros Hv.
  - unfold MsgExecuteContract_ValidateBasic, valid_funds in Hv.
    rewrite !first_error_None, WrapOpt_None in Hv. apply Hv.
  - apply Coins_Validate_nil.
Qed.

(** An acceptance, in terms of the grant that applied. *)
Lemma Authorization_Accept_grant a msg s r a' s' :
  Authorization_Accept a msg s = (Ret (inl r, a'), s') -> Accept r = true ->
  exists exec bz j g result arr s1 s2, as_granted a msg = Some exec /\ GetMsg exec = Some bz
    /\ ValidateBasic exec = None
    /\ Grants a !! j = Some g /\ CG_Contract g = GetContract exec
    /\ Limit_Accept (GetLimit g) exec = Ret (Some result) /\ Accepted result = true
    /\ Filter_Accept (GetFilter g) bz s1 = (Ret true, s2)
    /\ apply_limit a (Grants a) j g result = (inl r, arr).
Proof.
  unfold Authorization_Accept, AcceptGrantedMessage. intros E Ha.
  destruct (as_granted a msg) as [exec|]; [|done].
  destruct (GetMsg exec) as [bz|] eqn:Em; [|done].
  destruct (ValidateBasic exec) eqn:Ev; [done|].
  unfold mbind, M_bind in E.
  destruct (accept_loop a (Grants a) exec bz 0 (Grants a) s) as [[[r0 arr]| |] s1] eqn:El; [|done..].
  injection E as -> <- <-.
  apply accept_loop_accepted in El as (j & g & result & t1 & t2 & Hl); [|done..].
  exists exec, bz, j, g, result, arr, t1, t2. by split_and!; destruct_and?.
Qed.

(** The grants after an acceptance by the grant [g]. *)
Lemma grants_after_total f gs j g exec result r arr w c :
  Forall (fun g => limit_u64 (GetLimit g)) gs -> gs !! j = Some g ->
  Limit_Accept (GetLimit g) exec = Ret (Some result) ->
  apply_limit f gs j g result = (inl r, arr) ->
  let gs' := grants_after gs r in
  (total w c gs' = total w c gs - worth w c g
     + if bool_decide (CG_Contract g = c) then worth_after w (GetLimit g) result else 0)%Z
  /\ Forall (fun g => limit_u64 (GetLimit g)) gs' /\ (counted c gs -> counted c gs').
Proof.
  intros Hu Hg El Eap gs'. assert (limit_u64 (GetLimit g)) as Hul by (by eapply Forall_lookup_1 in Hu).
  apply (apply_limit_grants _ _ _ _ _ _ _ Hg) in Eap as [_ Hgs].
  unfold worth_after. destruct (DeleteLimit result).
  - rewrite (Hgs : gs' = _), (total_delete w c _ _ g) by done.
    split_and!; [case_bool_decide; lia| |intros Hcn]; by apply Forall_delete.
  - destruct (UpdateLimit result) as [l|] eqn:El'; simpl.
    + destruct Hgs as (g' & Egs & Hc' & Hl' & _).
      destruct (Limit_Accept_kind exec (GetLimit g) result l) as [Hul' Hkc]; [done..|].
      rewrite (Egs : gs' = _), (total_insert w c _ _ g g') by done. split_and!.
      * unfold worth at 2. by rewrite Hc', Hl'.
      * apply Forall_insert; [done|]. by rewrite Hl'.
      * intros Hcn. apply Forall_insert; [done|]. rewrite Hc', Hl', Hkc. by eapply Forall_lookup_1 in Hcn.
    + rewrite (Hgs : gs' = _). split_and!; [unfold worth; case_bool_decide; lia|done..].
Qed.

(** One acceptance is paid for by the grants for its contract. *)
Lemma acceptance_paid a msg s r a' s' exec c d :
  well_formed (Grants a) -> as_granted a msg = Some exec ->
  Authorization_Accept a msg s = (Ret (inl r, a'), s') -> Accept r = true ->
  let gs := Grants a in let gs' := grants_after gs r in
  (total (funds_left d) c gs' + spent c d [exec] <= total (funds_left d) c gs)%Z
  /\ (counted c gs -> counted c gs'
       /\ (total calls_left c gs' + calls c [exec] <= total calls_left c gs)%Z)
  /\ (Delete r = false -> well_formed gs').
Proof.
  intros [Hv Hu] Hx E Ha. cbv zeta.
  apply Authorization_Accept_grant in E
    as (exec' & bz & j & g & result & arr & s1 & s2 & Hx' & _ & Hvb & Hg & Hc & El & Hacc & _ & Eap);
    [|done]. rewrite Hx in Hx'. injection Hx' as <-.
  assert (Limit_ValidateBasic (GetLimit g) = None) as Hvl.
  { apply validateGrants_Forall in Hv. eapply Forall_lookup_1 in Hv; [|done].
    unfold ContractGrant_ValidateBasic in Hv. rewrite !first_error_None, !WrapOpt_None in Hv. apply Hv. }
  assert (limit_u64 (GetLimit g)) as Hul by (by eapply Forall_lookup_1 in Hu).
  pose proof (as_granted_funds _ _ _ Hx Hvb) as Hf.
  destruct (Limit_Accept_pays exec d Hf _ _ Hvl Hul El Hacc) as [Pf Pc].
  pose proof (fun w => grants_after_total _ _ _ _ _ _ _ _ w c Hu Hg El Eap) as Ht.
  pose proof (apply_limit_valid _ _ _ _ _ _ _ Hv Eap) as Hv'.
  unfold spent, calls. cbn [foldr]. rewrite <- Hc. split_and!.
  - destruct (Ht (funds_left d)) as [-> _]. unfold worth. case_bool_decide; lia.
  - intros Hcn. destruct (Ht calls_left) as (-> & _ & Hcn'). split; [by apply Hcn'|].
    eapply Forall_lookup_1 in Hcn; [|exact Hg]. unfold worth. case_bool_decide; [|lia].
    specialize (Pc (Hcn ltac:(done))). lia.
  - intros Hd. split; [by apply Hv'|]. apply (Ht calls_left).
Qed.

Lemma total_nonneg w c gs :
  Forall (fun g => (0 <= w (GetLimit g))%Z) gs -> (0 <= total w c gs)%Z.
Proof.
  induction 1 as [|g gs Hg _ IH]; simpl; [lia|]. unfold worth. case_bool_decide; lia.
Qed.
Lemma funds_left_nonneg d gs :
  validateGrants gs = None -> Forall (fun g => (0 <= funds_left d (GetLimit g))%Z) gs.
Proof.
  intros Hv. apply validateGrants_Forall in Hv. eapply Forall_impl; [exact Hv|].
  intros g Hg. unfold ContractGrant_ValidateBasic in Hg.
  rewrite !first_error_None, !WrapOpt_None in Hg. destruct Hg as (_ & Hl & _).
  destruct (GetLimit g) as [| | |]; simpl in *; [done..| |];
    rewrite ?first_error_None, ?WrapOpt_None in Hl; apply AmountOf_nonneg, Hl.
Qed.
Lemma calls_left_nonneg gs : Forall (fun g => (0 <= calls_left (GetLimit g))%Z) gs.
Proof. apply Forall_true. intros g. destruct (GetLimit g); simpl; lia. Qed.

Lemma lifetime_budget a ms left c d :
  well_formed (Grants a) -> lifetime a ms left ->
  (spent c d ms <= total (funds_left d) c (Grants a))%Z
  /\ (counted c (Grants a) -> (calls c ms <= total calls_left c (Grants a))%Z).
Proof.
  intros Hw Hl.
  induction Hl as [a|a msg exec s r a' s' Hx E Ha Hd|a msg exec s r a' s' ms left Hx E Ha Hd Hl IH].
  - split; [apply total_nonneg, funds_left_nonneg, Hw|]. intros _. apply total_nonneg, calls_left_nonneg.
  - destruct (acceptance_paid _ _ _ _ _ _ _ c d Hw Hx E Ha) as (Pf & Pc & _).
    unfold grants_after in *. rewrite Hd in *. unfold total at 1 in Pf. cbn [foldr] in Pf.
    split; [lia|]. intros Hc. apply Pc in Hc as [_ Hc]. unfold total at 1 in Hc. simpl in *. lia.
  - destruct (acceptance_paid _ _ _ _ _ _ _ c d Hw Hx E Ha) as (Pf & Pc & Pw).
    assert (grants_after (Grants a) r = Grants (default a (Updated r))) as Eg.
    { unfold grants_after. rewrite Hd. by destruct (Updated r). }
    rewrite Eg in *. destruct (IH (Pw Hd)) as [If Ic].
    unfold spent, calls in *. cbn [foldr] in *. split; [lia|].
    intros Hc. destruct (Pc Hc) as [Hc' ?]. specialize (Ic Hc'). lia.
Qed.

(** C22: over its whole life an authorization never lets more through to a
    contract than its grants for the contract were worth at the start: in no
    denomination do the funds of the accepted messages exceed the sum of the
    granted amounts, and where all grants for the contract count calls, there
    are at most as many messages as the sum of the granted calls. This holds
    for every order of messages and however many grants name the contract. *)
Theorem authorization_budget a ms left c d :
  well_formed (Grants a) -> lifetime a ms left ->
  (spent c d ms <= total (funds_left d) c (Grants a))%Z
  /\ (counted c (Grants a) -> (calls c ms <= total calls_left c (Grants a))%Z).
Proof. apply lifetime_budget. Qed.

(** C23: a message is accepted only by a grant for its contract whose filter
    lets it through: every valid JSON message, an object with exactly one
    top-level key and that key in the list, or one of the listed messages;
    and only after the message's own validation. *)
Theorem accepted_message_permitted a msg s r a' s' :
  Authorization_Accept a msg s = (Ret (inl r, a'), s') -> Accept r = true ->
  exists exec bz g, as_granted a msg = Some exec /\ GetMsg exec = Some bz
    /\ ValidateBasic exec = None /\ g ∈ Grants a
    /\ CG_Contract g = GetContract exec /\ permits (GetFilter g) bz.
Proof.
  intros E Ha. apply Authorization_Accept_grant in E
    as (exec & bz & j & g & result & arr & s1 & s2 & Hx & Hm & Hv & Hg & Hc & _ & _ & Hf & _); [|done].
  exists exec, bz, g. split_and!; [done..| |done|].
  - by eapply list_elem_of_lookup_2.
  - by eapply Filter_Accept_sound.
Qed.

(** ** Storing code *)

(** Some grant covers the checksum, and the requested permission where the
    grant restricts it. *)
Definition covers (g : CodeGrant) (checksum : bytes) (permission : option AccessConfig) : Prop :=
  (is_wildcard (CodeHash g) = true \/ bytes_EqualFold (CodeHash g) checksum = true)
  /\ forall superSet, CG_InstantiatePermission g = Some superSet ->
     exists p, permission = Some p /\ IsSubset p superSet = true.

Lemma CodeGrant_Accept_covers g checksum permission b :
  CodeGrant_Accept g checksum permission = Ret b -> b = true <-> covers g checksum permission.
Proof.
  unfold CodeGrant_Accept, covers.
  destruct (is_wildcard (CodeHash g)) eqn:Ew, (bytes_EqualFold (CodeHash g) checksum) eqn:Ee;
    cbn [negb andb]; [..|intros [= <-]; naive_solver];
    (destruct (CG_InstantiatePermission g) as [superSet|];
      [destruct permission as [p|]; [|done]|]; intros [= <-]; naive_solver).
Qed.

Lemma code_grants_loop_spec grants checksum permission r :
  code_grants_loop grants checksum permission = Ret r ->
  Accept r = true <-> Exists (fun g => covers g checksum permission) grants.
Proof.
  induction grants as [|g grants IH]; cbn [code_grants_loop].
  { intros [= <-]. rewrite Exists_nil. done. }
  rewrite Exists_cons. destruct (CodeGrant_Accept g checksum permission) as [b| |] eqn:E; [|done..].
  apply CodeGrant_Accept_covers in E. cbn [obind]. rewrite <- E.
  destruct b; [|intros Er; rewrite (IH Er); naive_solver].
  intros [= <-]. simpl. split; [by left|done].
Qed.

Lemma StoreCodeAuthorization_covers grants ctx storeMsg s r s' :
  StoreCodeAuthorization_Accept grants ctx (SWasm (MsgServer.WStoreCode storeMsg)) s = (Ret r, s') ->
  exists code, plain_code ctx (SC_WASMByteCode storeMsg) s = (Ret code, s')
    /\ wasm_magic `prefix_of` code
    /\ (Accept r = true <->
        Exists (fun g => covers g (Sha256.Sum256 code) (SC_InstantiatePermission storeMsg)) grants).
Proof.
  unfold StoreCodeAuthorization_Accept, mbind, M_bind. intros E.
  destruct (plain_code ctx (SC_WASMByteCode storeMsg) s) as [[code| |] s1]; [|done..].
  destruct (CreateChecksum code) as [checksum|] eqn:Ec; [|done].
  apply CreateChecksum_spec in Ec as [Hm ->]. injection E as E <-.
  exists code. split_and!; [done..|]. by apply code_grants_loop_spec.
Qed.

(** C24: an authorization to store code accepts exactly the uploads that a
    grant covers: the checksum is taken of the code the VM will see, after
    decompression, and a restricted grant needs a permission within it. *)
Theorem StoreCodeAuthorization_Accept_spec grants ctx storeMsg s r s' :
  StoreCodeAuthorization_Accept grants ctx (SWasm (MsgServer.WStoreCode storeMsg)) s = (Ret r, s') ->
  exists code, plain_code ctx (SC_WASMByteCode storeMsg) s = (Ret code, s')
    /\ wasm_magic `prefix_of` code
    /\ (Accept r = true <->
        Exists (fun g => covers g (Sha256.Sum256 code) (SC_InstantiatePermission storeMsg)) grants).
Proof. apply StoreCodeAuthorization_covers. Qed.

(** An upload without permission against a grant with one does not come back
    with a refusal: the nil permission is dereferenced. *)
Theorem CodeGrant_Accept_nil_permission hash superSet checksum :
  bytes_EqualFold hash checksum = true ->
  CodeGrant_Accept (mkCodeGrant hash (Some superSet)) checksum None
  = Panic (PRuntime "nil pointer dereference").
Proof. intros E. unfold CodeGrant_Accept. simpl. by rewrite E, andb_false_r. Qed.

(** ** The budget can be used up *)

Section Usable.
Context (a0 : Authorization) (msg : SdkMsg) (exec : AuthzableWasmMsg) (bz : bytes) (s : State).
Hypothesis packs : forall n, exists any, NewAnyWithLimit (MaxCallsLimit n) = inl any.
Hypothesis granted : as_granted a0 msg = Some exec.
Hypothesis payload : GetMsg exec = Some bz.
Hypothesis valid_msg : ValidateBasic exec = None.
Hypothesis valid_json : json_Valid bz = true.
Hypothesis valid_contract : bech32_err (GetContract exec) = None.
Hypothesis no_funds : GetFunds exec = [].

Definition call_grant (n : N) (g : ContractGrant) : Prop :=
  CG_Contract g = GetContract exec /\ GetLimit g = MaxCallsLimit n
  /\ GetFilter g = AllowAllMessagesFilter.

Lemma as_granted_kind g : as_granted (NewAuthz a0 g) msg = as_granted a0 msg.
Proof. by destruct a0. Qed.
Lemma NewAuthz_twice g g' : NewAuthz (NewAuthz a0 g) g' = NewAuthz a0 g'.
Proof. by destruct a0. Qed.

Lemma call_grant_valid n g : (1 <= n)%N -> call_grant n g -> validateGrants [g] = None.
Proof.
  intros Hn (Hc & Hl & Hf).
  unfold validateGrants, validate_grants_loop, ContractGrant_ValidateBasic.
  rewrite Hc, Hl, Hf, valid_contract. cbn. by rewrite (proj2 (N.eqb_neq n 0)) by lia.
Qed.
Lemma calls_replicate m : calls (GetContract exec) (replicate m exec) = Z.of_nat m.
Proof.
  induction m as [|m IH]; [done|]. unfold calls in *. cbn [replicate foldr].
  rewrite IH, bool_decide_true by done. lia.
Qed.

(** One call under a grant of [n] calls. *)
Lemma call_accepted n g :
  is_u64 n -> (1 <= n)%N -> call_grant n g ->
  exists r a', Authorization_Accept (NewAuthz a0 [g]) msg s = (Ret (inl r, a'), s)
    /\ Accept r = true
    /\ if (n =? 1)%N then Delete r = true
       else Delete r = false
            /\ exists g', Updated r = Some (NewAuthz a0 [g']) /\ call_grant (n - 1) g'.
Proof.
  intros Hu Hn (Hc & Hl & Hf).
  unfold Authorization_Accept, AcceptGrantedMessage. rewrite as_granted_kind, granted, payload, valid_msg.
  rewrite grants_NewAuthz. cbn [accept_loop]. rewrite bool_decide_true by done.
  cbn [negb]. rewrite Hl, Hf. cbn [Limit_Accept]. unfold MaxCallsLimit_Accept.
  rewrite no_funds. cbn [Coins_Empty length Nat.eqb negb].
  rewrite (proj2 (N.eqb_neq n 0)) by lia.
  unfold mbind, M_bind, catch, lift, limit_result, mret, M_ret. cbn [Filter_Accept].
  unfold RawContractMessage_ValidateBasic. rewrite valid_json.
  destruct (N.eqb_spec n 1) as [->|Hn1]; cbn; [by eauto|].
  destruct (packs (sub64 n 1)) as [any Hany].
  unfold apply_limit, WithNewLimits. cbn. rewrite Hany. cbn.
  unfold updated_response, Authorization_ValidateBasic. rewrite grants_NewAuthz, NewAuthz_twice.
  apply NewAnyWithLimit_cached in Hany.
  set (g' := mkContractGrant _ _ _).
  assert (call_grant (n - 1) g') as Hg'.
  { split_and!; [done| |done]. unfold GetLimit. simpl. rewrite Hany. simpl. by rewrite sub64_exact. }
  rewrite (call_grant_valid (n - 1) g' ltac:(lia) Hg').
  eexists _, _. split_and!; [done..|]. eauto.
Qed.

Lemma calls_used n g :
  is_u64 n -> (1 <= n)%N -> call_grant n g ->
  lifetime (NewAuthz a0 [g]) (replicate (N.to_nat n) exec) None.
Proof.
  remember (N.to_nat n) as k eqn:Hk. revert n g Hk. induction k as [|k IH]; intros n g Hk Hu Hn Hg; [lia|].
  destruct (call_accepted n g Hu Hn Hg) as (r & a' & E & Ha & Hr). cbn [replicate].
  pose proof granted as Hx. rewrite <- (as_granted_kind [g]) in Hx.
  destruct (N.eqb_spec n 1) as [->|Hn1].
  - replace k with 0%nat by lia. by eapply life_last.
  - destruct Hr as (Hd & g' & Hup & Hg'). eapply life_next; [done..|].
    rewrite Hup. simpl. apply (IH (n - 1)%N); [lia| |lia|done].
    unfold is_u64 in *. lia.
Qed.

(** C25: a grant of [n] calls without filter is good for exactly [n] calls: the
    same valid message without funds is accepted [n] times in a row, with the
    [n]-th response the authorization is deleted, and it is never accepted
    more often. *)
Theorem calls_usable n g :
  is_u64 n -> (1 <= n)%N -> call_grant n g ->
  lifetime (NewAuthz a0 [g]) (replicate (N.to_nat n) exec) None
  /\ forall m left, lifetime (NewAuthz a0 [g]) (replicate m exec) left -> m <= N.to_nat n.
Proof.
  intros Hu Hn Hg. split; [by apply calls_used|]. intros m left Hl.
  destruct Hg as (Hc & Hlim & Hf).
  destruct (lifetime_budget _ _ _ (GetContract exec) "" ltac:(rewrite grants_NewAuthz; split;
    [by apply (call_grant_valid n)|repeat constructor; by rewrite Hlim]) Hl) as [_ Hb].
  rewrite grants_NewAuthz, calls_replicate in Hb. unfold total, worth in Hb. cbn [foldr] in Hb.
  rewrite Hc, Hlim, bool_decide_true in Hb by done. cbn [calls_left] in Hb.
  enough (Z.of_nat m <= Z.of_N n + 0)%Z by lia. apply Hb. repeat constructor. by rewrite Hlim.
Qed.

End Usable.

End Operations.
End AuthzOps.
