(* ===== verification/Genesis.v ===== *)
(** Genesis (x/wasm/keeper/genesis.go, x/wasm/types/genesis.go): validation,
    import into an empty store, export of the store, and the theorem that an
    import of an export restores what was exported. The permissioned keeper
    (x/wasm/keeper/contract_keeper.go) that the import pins codes with is here
    too. *)
From S2P Require Import Prelude Errors GoStrings Json Types Proto Keys VMTypes Policy GasRegister Chain Logic Wp Engine Store Registry Events Keeper Msgs MsgServer KeeperFrame Refinement RefineKeeper.
Import GoStrings Keys Store.Store Events.Events.
Open Scope wasm_scope.

(** ** The permissioned keeper *)

Module PermissionedKeeper.

Section Ops.
Context `{GasMeters, Modules, KVStorePkg, Bech32, ErrorsMod, UnicodeTables,
  AddressPkg, CoinsPkg, Codecs, Gzip}.
Context `{!WasmEngine, !Keepers}.
Context (k : KeeperConfig).
Context (json_QueryRequest : bytes -> QueryRequest + string).
Context (HandleQuery : Context -> bytes -> QueryRequest -> M bytes).
Context (handler : Context -> bytes -> string -> list SubMsg -> option bytes -> M (option bytes)).
(** the policy of the keeper; NewGovPermissionKeeper and
    NewDefaultPermissionKeeper set it *)
Context (authZPolicy : Policy.AuthorizationPolicy).

Definition Create (ctx : Context) (creator : AccAddress) (wasmCode : bytes)
    (instantiateAccess : option AccessConfig) : M (N * bytes) :=
  Keeper.create k ctx creator wasmCode instantiateAccess authZPolicy.
Definition Instantiate (ctx : Context) (codeID : N) (creator admin : AccAddress)
    (initMsg : bytes) (label : string) (deposit : Coins) : M (bytes * option bytes) :=
  Keeper.instantiate k json_QueryRequest HandleQuery handler ctx codeID creator admin initMsg
    label deposit Keeper.ClassicAddressGenerator authZPolicy.
Definition Instantiate2 (ctx : Context) (codeID : N) (creator admin : AccAddress)
    (initMsg : bytes) (label : string) (deposit : Coins) (salt : bytes) (fixMsg : bool)
    : M (bytes * option bytes) :=
  Keeper.instantiate k json_QueryRequest HandleQuery handler ctx codeID creator admin initMsg
    label deposit (Keeper.PredictableAddressGenerator creator salt initMsg fixMsg) authZPolicy.
Definition Execute (ctx : Context) (contractAddress : bytes) (caller : AccAddress)
    (msg : bytes) (coins : Coins) : M (option bytes) :=
  Keeper.execute k json_QueryRequest HandleQuery handler ctx contractAddress caller msg coins.
Definition Migrate (ctx : Context) (contractAddress : bytes) (caller : AccAddress)
    (newCodeID : N) (msg : bytes) : M (option bytes) :=
  Keeper.migrate k json_QueryRequest HandleQuery handler ctx contractAddress caller newCodeID
    msg authZPolicy.
Definition Sudo (ctx : Context) (contractAddress msg : bytes) : M (option bytes) :=
  Keeper.Sudo k json_QueryRequest HandleQuery handler ctx contractAddress msg.
Definition UpdateContractAdmin (contractAddress : bytes) (caller newAdmin : AccAddress)
    : M unit := Keeper.setContractAdmin contractAddress caller newAdmin authZPolicy.
Definition ClearContractAdmin (contractAddress : bytes) (caller : AccAddress) : M unit :=
  Keeper.setContractAdmin contractAddress caller None authZPolicy.
Definition PinCode (codeID : N) : M unit := Keeper.pinCode codeID.
Definition UnpinCode (codeID : N) : M unit := Keeper.unpinCode codeID.
Definition SetContractInfoExtension (contract : bytes)
    (extra : option (option error * (Types.AnyMsg + string))) : M unit :=
  Keeper.setContractInfoExtension contract extra.
Definition SetAccessConfig (codeID : N) (caller : AccAddress) (newConfig : AccessConfig)
    : M unit := Keeper.setAccessConfig codeID caller newConfig authZPolicy.

End Ops.

(** GovAuthorizationPolicy{} propagates nothing. *)
Definition NewGovPermissionKeeper : Policy.AuthorizationPolicy :=
  Policy.GovAuthorizationPolicy ∅.
Definition NewDefaultPermissionKeeper : Policy.AuthorizationPolicy :=
  Policy.DefaultAuthorizationPolicy.

End PermissionedKeeper.

(** ** The genesis state (genesis.pb.go) *)

Record GenCode := mkGenCode {
  Gen_CodeID : N;
  Gen_CodeInfo : CodeInfo;
  Gen_CodeBytes : bytes;
  Gen_Pinned : bool;
}.
Record GenContract := mkGenContract {
  Gen_ContractAddress : string;
  Gen_ContractInfo : ContractInfo;
  Gen_ContractState : list Model;
  Gen_ContractCodeHistory : list ContractCodeHistoryEntry;
}.
Record GenSequence := mkGenSequence { Gen_IDKey : bytes; Gen_Value : N }.
Record GenesisState := mkGenesisState {
  Gen_Params : Params;
  Gen_Codes : list GenCode;
  Gen_Contracts : list GenContract;
  Gen_Sequences : list GenSequence;
}.

Module Genesis.

Section Genesis.
Context `{GasMeters, Modules, KVStorePkg, Bech32, ErrorsMod, UnicodeTables,
  AddressPkg, CoinsPkg, Codecs, Gzip}.
Context `{!WasmEngine, !Keepers}.
(** ValidateBasic of the extension registered by the chain *)
Context (ext_validate : Types.AnyMsg -> option error).

(** ** Validation *)

Definition Sequence_ValidateBasic (s : GenSequence) : option error :=
  errIf (Nat.eqb (length (Gen_IDKey s)) 0) (Wrap ErrEmpty "id key").
Definition Code_ValidateBasic (c : GenCode) : option error :=
  errIf (Gen_CodeID c =? 0)%N (Wrap ErrEmpty "code id")
  >>? WrapOpt (CodeInfo_ValidateBasic (Gen_CodeInfo c)) "code info"
  >>? WrapOpt (validateWasmCode (Gen_CodeBytes c) MaxProposalWasmSize) "code bytes".

(** The first error of a loop over a slice. *)
Fixpoint first_invalid {A} (validate : A -> option error) (what : string) (l : list A)
    : option error :=
  match l with
  | [] => None
  | x :: l' => WrapOpt (validate x) what >>? first_invalid validate what l'
  end.

Definition Contract_ValidateBasic (c : GenContract) : option error :=
  WrapOpt (bech32_err (Gen_ContractAddress c)) "contract address"
  >>? WrapOpt (ContractInfo_ValidateBasic ext_validate (Gen_ContractInfo c)) "contract info"
  >>? errIf (bool_decide (Created (Gen_ContractInfo c) = None))
        (Wrap ErrInvalid "created must not be empty")
  >>? first_invalid Model_ValidateBasic "contract state %d" (Gen_ContractState c)
  >>? errIf (Nat.eqb (length (Gen_ContractCodeHistory c)) 0) (Wrap ErrEmpty "code history")
  >>? first_invalid HistoryEntry_ValidateBasic "code history element %d"
        (Gen_ContractCodeHistory c).

Definition GenesisState_ValidateBasic (s : GenesisState) : option error :=
  WrapOpt (Params_ValidateBasic (Gen_Params s)) "params"
  >>? first_invalid Code_ValidateBasic "code: %d" (Gen_Codes s)
  >>? first_invalid Contract_ValidateBasic "contract: %d" (Gen_Contracts s)
  >>? first_invalid Sequence_ValidateBasic "sequence: %d" (Gen_Sequences s).
Definition ValidateGenesis (data : GenesisState) : option error :=
  GenesisState_ValidateBasic data.

(** UnpackInterfaces: the extension of every contract. *)
Fixpoint UnpackContracts (l : list GenContract) : option error :=
  match l with
  | [] => None
  | c :: l' => unpack_extension (Extension (Gen_ContractInfo c)) >>? UnpackContracts l'
  end.
Definition GenesisState_UnpackInterfaces (s : GenesisState) : option error :=
  UnpackContracts (Gen_Contracts s).

(** ** Import *)

(** The loop over the codes; its result is the largest code id. *)
Fixpoint init_codes (codes : list GenCode) (maxCodeID : N) : M N :=
  match codes with
  | [] => mret maxCodeID
  | code :: codes' =>
      _ ← wrap_err "code %d with id: %d"
            (Keeper.importCode (Gen_CodeID code) (Gen_CodeInfo code) (Gen_CodeBytes code));
      let maxCodeID := if (maxCodeID <? Gen_CodeID code)%N then Gen_CodeID code else maxCodeID in
      _ ← (if Gen_Pinned code
           then wrap_err "contract number %d" (PermissionedKeeper.PinCode (Gen_CodeID code))
           else mret tt);
      init_codes codes' maxCodeID
  end.

Fixpoint init_contracts (contracts : list GenContract) : M unit :=
  match contracts with
  | [] => mret tt
  | contract :: contracts' =>
      match AccAddressFromBech32 (Gen_ContractAddress contract) with
      | inr err => fail (Wrap err "address in contract number %d")
      | inl contractAddr =>
          _ ← wrap_err "contract number %d"
                (importContract contractAddr (Gen_ContractInfo contract)
                   (Gen_ContractState contract) (Gen_ContractCodeHistory contract));
          init_contracts contracts'
      end
  end.

Fixpoint init_sequences (sequences : list GenSequence) : M unit :=
  match sequences with
  | [] => mret tt
  | seq :: sequences' =>
      _ ← wrap_err "sequence number %d" (importAutoIncrementID (Gen_IDKey seq) (Gen_Value seq));
      init_sequences sequences'
  end.

(** The address check runs the classic generator on a branch of the store,
    with the next instance id in the place of the code id. *)
Definition InitGenesis (ctx : Context) (data : GenesisState) : M unit :=
  _ ← wrap_err "set params" (SetParams (Gen_Params data));
  maxCodeID ← init_codes (Gen_Codes data) 0;
  _ ← init_contracts (Gen_Contracts data);
  _ ← init_sequences (Gen_Sequences data);
  seqVal ← PeekAutoIncrementID KeySequenceCodeID;
  _ ← guard_err (seqVal <=? maxCodeID)%N
        (Wrap ErrInvalid "seq %s with value: %d must be greater than: %d ");
  addr ← discarded
    (seqVal ← PeekAutoIncrementID KeySequenceInstanceID;
     Keeper.ClassicAddressGenerator ctx seqVal []);
  used ← HasContractInfo addr;
  guard_err used (Wrap ErrInvalid "value: %d for seq %s was used already").

(** ** Export *)

Definition export_codes : M (list GenCode) :=
  IterateCodeInfos (fun codeID info codes =>
    bytecode ← must (Keeper.GetByteCode codeID);
    pinned ← IsPinnedCode codeID;
    mret (codes ++ [mkGenCode codeID info (default [] bytecode) pinned], false)) [].

Definition export_state (addr : bytes) : M (list Model) :=
  IterateContractState addr (fun key value state =>
    mret (state ++ [mkModel key value], false)) [].
Definition export_contracts : M (list GenContract) :=
  IterateContractInfo (fun addr contract contracts =>
    state ← export_state addr;
    contractCodeHistory ← GetContractHistory addr;
    mret (contracts ++ [mkGenContract (AccAddress_String addr) contract state
                          contractCodeHistory], false)) [].

Fixpoint export_sequences (keys : list bytes) : M (list GenSequence) :=
  match keys with
  | [] => mret []
  | key :: keys' =>
      id ← must (PeekAutoIncrementID key);
      rest ← export_sequences keys'; mret (mkGenSequence key id :: rest)
  end.

Definition ExportGenesis : M GenesisState :=
  params ← GetParams;
  codes ← export_codes;
  contracts ← export_contracts;
  sequences ← export_sequences [KeySequenceCodeID; KeySequenceInstanceID];
  mret (mkGenesisState params codes contracts sequences).

(** ** Exporting *)

Import Registry.Registry Refinement.Refinement RefineKeeper.RefineKeeper.
Context `{!Bech32Laws, !AddressPkgLaws, !CodecsLaws}.

(** A loop that reads the store and collects what the entries yield. *)
Lemma wp_iter_collect {B} (P : bytes -> bytes -> list B -> Prop)
    (body : bytes -> bytes -> list B -> M (list B * bool)) l σ : forall acc Q,
  (forall k v acc Q', (k, v) ∈ l -> (forall bs, P k v bs -> Q' (acc ++ bs, false) σ) ->
     wp (body k v acc) Q' σ) ->
  (forall bss, Forall2 (fun e bs => P e.1 e.2 bs) l bss -> Q (acc ++ concat bss) σ) ->
  wp (iter_loop l body acc) Q σ.
Proof.
  induction l as [|[k v] l IH]; intros acc Q Hb HQ; cbn [iter_loop].
  { apply wp_ret. specialize (HQ [] ltac:(constructor)). by rewrite app_nil_r in HQ. }
  wp_step. apply Hb; [by left|]. intros bs Hbs. cbv beta iota. wp_step.
  apply wp_must, wp_quiet; [apply quiet_kv_access|]. intros _. apply IH.
  - intros k' v' acc' Q' Hin. apply Hb. by right.
  - intros bss Hbss. rewrite <- (assoc_L (++)). apply (HQ (bs :: bss)). by constructor.
Qed.

Lemma wp_iterate_collect {B} (P : bytes -> bytes -> list B -> Prop)
    (body : bytes -> bytes -> list B -> M (list B * bool)) p σ Q :
  (forall k v acc Q', σ !! (p ++ k) = Some v -> (forall bs, P k v bs -> Q' (acc ++ bs, false) σ) ->
     wp (body k v acc) Q' σ) ->
  (forall bss, Forall2 (fun e bs => P e.1 e.2 bs) (kv_prefixed σ p) bss -> Q (concat bss) σ) ->
  wp (iterate p None None false body []) Q σ.
Proof.
  intros Hb HQ. unfold iterate. apply wp_bind, (wp_gets_kv (kv_iterator _ _ _ _)).
  rewrite kv_iterator_all. apply wp_bind, wp_must, wp_quiet; [apply quiet_kv_access|]. intros _.
  apply (wp_iter_collect P); [|done]. intros k v acc Q' Hin. apply Hb. by apply elem_of_kv_prefixed.
Qed.

Lemma NoDup_omap_inj {A B} (f : A -> option B) l :
  (forall x y z, f x = Some z -> f y = Some z -> x = y) -> NoDup l -> NoDup (omap f l).
Proof.
  intros Hf. induction 1 as [|x l Hx _ IH]; simpl; [constructor|].
  destruct (f x) as [z|] eqn:E; [|done]. constructor; [|done].
  rewrite list_elem_of_omap. intros (y & Hy & Ey). by rewrite (Hf _ _ _ E Ey) in Hx.
Qed.

(** The entries under a prefix are sorted by key and have different keys. *)
Lemma kv_prefixed_NoDup (σ : kvs) p : NoDup (kv_prefixed σ p).*1.
Proof.
  apply NoDup_fmap_fst.
  - intros k v v' Hv Hv'. apply elem_of_kv_prefixed in Hv, Hv'. congruence.
  - unfold kv_prefixed. rewrite merge_sort_Permutation. apply NoDup_omap_inj.
    + intros [k v] [k' v'] y. unfold strip_entry. simpl.
      destruct (strip_prefix p k) as [r|] eqn:E; [|done].
      destruct (strip_prefix p k') as [r'|] eqn:E'; [|done].
      apply strip_prefix_Some in E, E'. intros [= <-] [= -> ->]. congruence.
    + apply NoDup_map_to_list.
Qed.
Lemma kv_prefixed_sorted (σ : kvs) p : StronglySorted bytes_le (kv_prefixed σ p).*1.
Proof.
  unfold kv_prefixed. pose proof (StronglySorted_merge_sort kv_entry_le
    (omap (strip_entry p) (map_to_list σ))) as Hs.
  induction Hs as [|e l Hs IH He]; simpl; constructor; [done|].
  apply Forall_fmap. eapply Forall_impl; [exact He|]. done.
Qed.

Lemma concat_singletons {A B} (R : A -> B -> Prop) l bss :
  Forall2 (fun e bs => exists b, bs = [b] /\ R e b) l bss -> Forall2 R l (concat bss).
Proof. induction 1 as [|e bs l bss (b & -> & Hb) _ IH]; simpl; by constructor. Qed.
Lemma Forall2_elem_l {A B} (R : A -> B -> Prop) l l' x :
  Forall2 R l l' -> x ∈ l -> exists y, y ∈ l' /\ R x y.
Proof.
  intros HF Hx. apply list_elem_of_lookup in Hx as [i Hi].
  destruct (Forall2_lookup_l _ _ _ _ _ HF Hi) as (y & Hy & HR). exists y.
  split; [by eapply list_elem_of_lookup_2|done].
Qed.
Lemma Forall2_elem_r {A B} (R : A -> B -> Prop) l l' y :
  Forall2 R l l' -> y ∈ l' -> exists x, x ∈ l /\ R x y.
Proof.
  intros HF Hy. apply list_elem_of_lookup in Hy as [i Hi].
  destruct (Forall2_lookup_r _ _ _ _ _ HF Hi) as (x & Hx & HR). exists x.
  split; [by eapply list_elem_of_lookup_2|done].
Qed.
(** Elements with different keys yield elements with different keys. *)
Lemma Forall2_NoDup {A B K L} (R : A -> B -> Prop) (f : A -> K) (g : B -> L) l l' :
  Forall2 R l l' -> NoDup (f <$> l) ->
  (forall x y x' y', R x y -> R x' y' -> g y = g y' -> f x = f x') -> NoDup (g <$> l').
Proof.
  intros HF HN Hg. induction HF as [|x y l l' HR HF IH]; simpl in *; [constructor|].
  apply NoDup_cons in HN as [Hx HN]. constructor; [|by apply IH].
  intros Hy. apply list_elem_of_fmap in Hy as (y' & Ey & Hy').
  destruct (Forall2_elem_r _ _ _ _ HF Hy') as (x' & Hx' & HR').
  apply Hx. rewrite (Hg _ _ _ _ HR HR' Ey). by apply list_elem_of_fmap_2.
Qed.

Section Export.
Context (σ : kvs) (a : Registry).
Hypothesis Hr : repr σ a.
Hypothesis C : coherent a.
Hypothesis St : storable a.
(** Keys under the prefix of codes are code ids. *)
Definition code_keys : Prop :=
  forall k, is_Some (σ !! (CodeKeyPrefix ++ k)) -> length k = 8.
Hypothesis Hcodes : code_keys.

(** The export holds the codes of the registry, each once. *)
Definition exported_code (c : GenCode) : Prop :=
  is_u64 (Gen_CodeID c) /\ codes a !! Gen_CodeID c = Some (Gen_CodeInfo c)
  /\ Gen_Pinned c = bool_decide (Gen_CodeID c ∈ pinned a).
Definition exports_codes (cs : list GenCode) : Prop :=
  NoDup (Gen_CodeID <$> cs) /\ Forall exported_code cs
  /\ forall id, is_Some (codes a !! id) -> id ∈ Gen_CodeID <$> cs.

Lemma code_entry k v :
  σ !! (CodeKeyPrefix ++ k) = Some v ->
  exists id info, is_u64 id /\ k = Uint64ToBigEndian id /\ codes a !! id = Some info
    /\ v = marshal info.
Proof.
  intros Hv. destruct (be_of_length8 k (Hcodes k ltac:(by eexists))) as (id & Hid & ->).
  pose proof (Hr (KCode id) ltac:(done)) as He. cbn [entry_key encode] in He.
  unfold GetCodeKey in He. rewrite Hv in He.
  destruct (codes a !! id) as [info|] eqn:Ei; [|done]. injection He as ->. by exists id, info.
Qed.

Lemma exported_code_u64 id info : codes a !! id = Some info -> is_u64 id.
Proof.
  intros Hi. pose proof (coh_codes a C id ltac:(by eexists)). pose proof (coh_code_seq a C).
  unfold is_u64, MaxUint64, two64 in *. lia.
Qed.

Lemma wp_IsPinnedCode id (Q : bool -> kvs -> Prop) :
  is_u64 id -> Q (bool_decide (id ∈ pinned a)) σ -> wp (IsPinnedCode id) Q σ.
Proof.
  intros Hid HQ. unfold IsPinnedCode. apply wp_must, wp_kv_has.
  change (GetPinnedCodeIndexPrefix id) with (entry_key (KPinned id)).
  rewrite (Hr (KPinned id)) by done. cbn [encode]. unfold flag.
  by destruct (bool_decide (id ∈ pinned a)).
Qed.

Lemma wp_export_codes (Q : list GenCode -> kvs -> Prop) :
  (forall cs, exports_codes cs -> Q cs σ) -> wp export_codes Q σ.
Proof.
  intros HQ. unfold export_codes, IterateCodeInfos.
  apply (wp_iterate_collect (fun k v bs => exists c, bs = [c]
    /\ k = Uint64ToBigEndian (Gen_CodeID c) /\ exported_code c)).
  - intros k v acc Q' Hv HQ'. apply code_entry in Hv as (id & info & Hid & -> & Hi & ->).
    cbv beta. wp_step. apply wp_MustUnmarshal; [by eapply sto_codes|].
    wp_step. rewrite binary_roundtrip by done. apply wp_lift_ret.
    wp_step. apply wp_must, wp_quiet; [unfold quiet, Keeper.GetByteCode, MustUnmarshal, VM_GetCode; frame|]. intros code.
    wp_step. apply wp_IsPinnedCode; [done|]. wp_step. apply HQ'. by eexists.
  - intros bss HF. apply HQ. apply (concat_singletons (fun (e : bytes * bytes) c =>
      e.1 = Uint64ToBigEndian (Gen_CodeID c) /\ exported_code c)) in HF. split_and!.
    + eapply (Forall2_NoDup _ fst); [exact HF|apply kv_prefixed_NoDup|].
      intros [] y [] y' [E _] [E' _] Ey. simpl in *. congruence.
    + apply Forall_forall. intros c Hc. by destruct (Forall2_elem_r _ _ _ _ HF Hc) as (x & _ & [_ ?]).
    + intros id [info Hi]. pose proof (exported_code_u64 id info Hi) as Hid.
      destruct (Forall2_elem_l _ _ _ (Uint64ToBigEndian id, marshal info) HF) as (c & Hc & [Ec Hex]).
      { apply elem_of_kv_prefixed. pose proof (Hr (KCode id) ltac:(done)) as He.
        cbn [entry_key encode] in He. by rewrite Hi in He. }
      simpl in Ec. apply Uint64ToBigEndian_inj in Ec as ->; [|done|apply Hex].
      by apply list_elem_of_fmap_2.
Qed.

(** *** State and history of a contract *)

(** The state of a contract, each key once. *)
Definition exports_state (addr : bytes) (ms : list Model) : Prop :=
  NoDup (ModelKey <$> ms)
  /\ forall key v, mkModel key v ∈ ms <-> σ !! (GetContractStorePrefix addr ++ key) = Some v.

Lemma wp_export_state addr (Q : list Model -> kvs -> Prop) :
  (forall ms, exports_state addr ms -> Q ms σ) -> wp (export_state addr) Q σ.
Proof.
  intros HQ. unfold export_state, IterateContractState.
  apply (wp_iterate_collect (fun k v bs => exists m, bs = [m] /\ m = mkModel k v)).
  - intros k v acc Q' _ HQ'. wp_step. apply HQ'. by eexists.
  - intros bss HF. apply HQ.
    apply (concat_singletons (fun (e : bytes * bytes) m => m = mkModel e.1 e.2)) in HF. split.
    + eapply (Forall2_NoDup _ fst); [exact HF|apply kv_prefixed_NoDup|].
      by intros x y x' y' -> ->.
    + intros key v. rewrite <- elem_of_kv_prefixed. split; intros Hin.
      * destruct (Forall2_elem_r _ _ _ _ HF Hin) as ([k' v'] & Hx & [= -> ->]). done.
      * by destruct (Forall2_elem_l _ _ _ _ HF Hin) as (m & Hm & ->).
Qed.

Lemma StronglySorted_filter {A} (R : relation A) (P : A -> Prop) `{!forall x, Decision (P x)} l :
  StronglySorted R l -> StronglySorted R (filter P l).
Proof.
  induction 1 as [|x l Hs IH Hx]; [constructor|]. rewrite filter_cons. case_decide; [|done].
  constructor; [done|]. rewrite Forall_forall in *. intros y [_ Hy]%list_elem_of_filter. auto.
Qed.

Definition history_key (i : nat) : bytes := Uint64ToBigEndian (N.of_nat i + 1).

Lemma history_lookup addr (Hl : (N.of_nat (length (history_of a addr)) <= MaxUint64)%N) i :
  i < length (history_of a addr) ->
  σ !! (GetContractCodeHistoryElementPrefix addr ++ history_key i)
  = marshal <$> history_of a addr !! i.
Proof.
  intros Hi. change (_ ++ history_key i) with (entry_key (KHistory addr (N.of_nat i + 1))).
  rewrite (Hr (KHistory addr (N.of_nat i + 1))) by (split; [|done]; simpl; unfold is_u64, MaxUint64, two64 in *; lia).
  cbn [encode]. rewrite (proj2 (N.eqb_neq _ _)) by lia.
  by replace (N.to_nat (N.of_nat i + 1 - 1)) with i by lia.
Qed.
Lemma history_key_inv addr k v :
  length k = 8 -> σ !! (GetContractCodeHistoryElementPrefix addr ++ k) = Some v ->
  exists i e, k = history_key i /\ history_of a addr !! i = Some e /\ v = marshal e.
Proof.
  intros Hlen Hv. destruct (be_of_length8 k Hlen) as (n & Hn & ->).
  pose proof (Hr (KHistory addr n) ltac:(done)) as He. cbn [entry_key encode] in He.
  unfold GetContractCodeHistoryElementKey in He. rewrite Hv in He.
  destruct (N.eqb_spec n 0); [done|].
  destruct (history_of a addr !! N.to_nat (n - 1)) as [e|] eqn:Ei; [|done]. injection He as ->.
  exists (N.to_nat (n - 1)), e. split_and!; [|done..]. unfold history_key. f_equal. lia.
Qed.
Lemma history_key_inj i j n :
  (N.of_nat n <= MaxUint64)%N -> i < n -> j < n -> history_key i = history_key j -> i = j.
Proof.
  intros Hn Hi Hj E. apply Uint64ToBigEndian_inj in E; unfold is_u64, MaxUint64, two64 in *; lia.
Qed.

(** The keys of the history, in the order of the store. *)
Lemma history_keys addr :
  (N.of_nat (length (history_of a addr)) <= MaxUint64)%N ->
  filter (fun k => length k = 8) (kv_prefixed σ (GetContractCodeHistoryElementPrefix addr)).*1
  = history_key <$> seq 0 (length (history_of a addr)).
Proof.
  intros Hl. apply (StronglySorted_unique bytes_le).
  - apply StronglySorted_filter, kv_prefixed_sorted.
  - assert (forall m k, (N.of_nat (k + m) <= MaxUint64)%N ->
      StronglySorted bytes_le (history_key <$> seq k m)) as Hs; [|by apply Hs].
    intros m. induction m as [|m IH]; intros k Hk; simpl; constructor.
    + apply IH. lia.
    + apply Forall_fmap, Forall_forall. intros j Hj%elem_of_seq. unfold compose.
      apply bytes_le_be_encode; unfold is_u64, MaxUint64, two64 in *; simpl; lia.
  - apply NoDup_Permutation.
    + apply NoDup_filter, kv_prefixed_NoDup.
    + apply NoDup_fmap_2_strong; [|apply NoDup_seq].
      intros i j Hi%elem_of_seq Hj%elem_of_seq. eapply history_key_inj; [exact Hl|lia..].
    + intros k. rewrite list_elem_of_filter, !list_elem_of_fmap. split.
      * intros (Hlen & [k' v] & -> & Hin). apply elem_of_kv_prefixed in Hin.
        apply history_key_inv in Hin as (i & e & -> & Hi & _); [|done].
        exists i. split; [done|]. apply elem_of_seq. apply lookup_lt_Some in Hi. lia.
      * intros (i & -> & Hi%elem_of_seq). split; [apply length_be_encode|].
        destruct (lookup_lt_is_Some_2 (history_of a addr) i) as [e He]; [lia|].
        exists (history_key i, marshal e). split; [done|]. apply elem_of_kv_prefixed.
        by rewrite history_lookup, He by lia.
Qed.

Lemma wp_GetContractHistory addr (Q : list ContractCodeHistoryEntry -> kvs -> Prop) :
  is_Some (contracts a !! addr) -> Q (history_of a addr) σ -> wp (GetContractHistory addr) Q σ.
Proof.
  intros Hc HQ. assert (N.of_nat (length (history_of a addr)) <= MaxUint64)%N as Hl.
  { unfold history_of. destruct (history a !! addr) eqn:E; simpl; [|lia].
    by apply (coh_history a C addr). }
  set (R := fun k e => exists i, k = history_key i /\ history_of a addr !! i = Some e).
  unfold GetContractHistory.
  apply (wp_iterate_collect (fun k _ bs =>
    length k = 8 /\ (exists e, bs = [e] /\ R k e) \/ length k <> 8 /\ bs = [])).
  - intros k v acc Q' Hv HQ'. destruct (Nat.eqb_spec (length k) 8) as [Hk|Hk]; cbn [negb].
    + apply history_key_inv in Hv as (i & e & -> & Hi & ->); [|done].
      wp_step. apply wp_MustUnmarshal.
      { eapply sto_history; [exact St|]. by eapply list_elem_of_lookup_2. }
      wp_step. apply HQ'. left. split; [done|]. exists e. split; [done|by exists i].
    + wp_step. specialize (HQ' [] (or_intror (conj Hk eq_refl))). by rewrite app_nil_r in HQ'.
  - intros bss HF. assert (concat bss = history_of a addr) as ->; [|done].
    assert (Forall2 R (history_key <$> seq 0 (length (history_of a addr))) (concat bss)) as HR.
    { rewrite <- history_keys by done.
      induction HF as [|[k v] bs l bss He HF IH]; [constructor|]. simpl in He.
      rewrite fmap_cons, filter_cons. cbn [concat].
      destruct He as [[Hk (e & -> & He)]|[Hk ->]].
      - rewrite decide_True by done. by constructor.
      - by rewrite decide_False. }
    apply list_eq. intros j. pose proof (Forall2_length _ _ _ HR) as Hlen.
    rewrite length_fmap, length_seq in Hlen.
    destruct (decide (j < length (history_of a addr))) as [Hj|Hj].
    + destruct (Forall2_lookup_l _ _ _ j (history_key j) HR) as (e & He & i & Ei & Hi).
      { rewrite list_lookup_fmap, lookup_seq_lt by done. done. }
      assert (j = i) as ->; [|congruence].
      eapply history_key_inj; [exact Hl|done|by eapply lookup_lt_Some|done].
    + rewrite !lookup_ge_None_2; [done|lia|lia].
Qed.

(** The export holds the contracts of the registry, each once, with all of
    its state and history. *)
Definition exported_contract (c : GenContract) : Prop :=
  exists addr, contracts a !! addr = Some (Gen_ContractInfo c)
    /\ Gen_ContractAddress c = AccAddress_String addr
    /\ exports_state addr (Gen_ContractState c)
    /\ Gen_ContractCodeHistory c = history_of a addr.
(** Addresses of contracts are addresses. *)
Definition contract_addresses : Prop :=
  forall addr, is_Some (contracts a !! addr) ->
    VerifyAddressFormat addr = None /\ length addr = ContractAddrLen.
Hypothesis Haddr : contract_addresses.
Definition exports_contracts (cs : list GenContract) : Prop :=
  NoDup (Gen_ContractAddress <$> cs) /\ Forall exported_contract cs
  /\ forall addr, is_Some (contracts a !! addr) ->
     AccAddress_String addr ∈ Gen_ContractAddress <$> cs.

Lemma wp_export_contracts (Q : list GenContract -> kvs -> Prop) :
  (forall cs, exports_contracts cs -> Q cs σ) -> wp export_contracts Q σ.
Proof.
  intros HQ. unfold export_contracts, IterateContractInfo.
  assert (forall k, σ !! (ContractKeyPrefix ++ k) = marshal <$> contracts a !! k) as Hk.
  { intros k. apply (Hr (KContract k)). done. }
  set (R := fun k c => is_Some (contracts a !! k) /\ Gen_ContractAddress c = AccAddress_String k
                       /\ exported_contract c).
  apply (wp_iterate_collect (fun k _ bs => exists c, bs = [c] /\ R k c)).
  - intros k v acc Q' Hv HQ'. rewrite Hk in Hv.
    destruct (contracts a !! k) as [i|] eqn:Ei; [|done]. apply (inj Some) in Hv as <-.
    wp_step. apply (wp_MustUnmarshal i); [by eapply sto_contracts|].
    wp_step. apply wp_export_state. intros ms Hms.
    wp_step. apply wp_GetContractHistory; [by eexists|]. wp_step. apply HQ'.
    eexists. split; [done|]. split_and!; [by eexists|done|]. by exists k.
  - intros bss HF. apply HQ.
    apply (concat_singletons (fun (e : bytes * bytes) c => R e.1 c)) in HF. split_and!.
    + eapply (Forall2_NoDup _ fst); [exact HF|apply kv_prefixed_NoDup|].
      intros x y x' y' (Hx & E & _) (Hx' & E' & _) Ey. apply (AccAddress_String_inj); [by apply Haddr..|].
      congruence.
    + apply Forall_forall. intros c Hc. by destruct (Forall2_elem_r _ _ _ _ HF Hc) as (x & _ & _ & _ & ?).
    + intros addr [i Hi].
      destruct (Forall2_elem_l _ _ _ (addr, marshal i) HF) as (c & Hc & _ & Ec & _).
      { apply elem_of_kv_prefixed. by rewrite Hk, Hi. }
      simpl in Ec. rewrite <- Ec. by apply list_elem_of_fmap_2.
Qed.

(** ** What an export holds *)

Definition exports (g : GenesisState) : Prop :=
  params a = Some (Gen_Params g) /\ exports_codes (Gen_Codes g)
  /\ exports_contracts (Gen_Contracts g)
  /\ Gen_Sequences g = [mkGenSequence KeySequenceCodeID (code_seq a);
                        mkGenSequence KeySequenceInstanceID (instance_seq a)].

Lemma wp_PeekAutoIncrementID e (o : option N) (Q : N -> kvs -> Prop) :
  σ !! e = Uint64ToBigEndian <$> o -> (default 1%N o <= MaxUint64)%N -> Q (default 1%N o) σ ->
  wp (PeekAutoIncrementID e) Q σ.
Proof.
  intros He Ho HQ. unfold PeekAutoIncrementID. wp_step. wp_step. apply wp_kv_get. rewrite He.
  destruct o as [n|]; simpl in *; [|by apply wp_ret].
  rewrite binary_roundtrip by (unfold is_u64, MaxUint64, two64 in *; lia). by apply wp_lift_ret.
Qed.

Lemma wp_ExportGenesis (Q : GenesisState -> kvs -> Prop) :
  (forall g, exports g -> Q g σ) -> wp ExportGenesis Q σ.
Proof.
  intros HQ. unfold ExportGenesis. wp_step.
  eapply (wp_GetParams σ _ Hr (params a)); [done|intros ps Hps; by eapply sto_params|].
  intros ps Hps. wp_step. apply wp_export_codes. intros cs Hcs.
  wp_step. apply wp_export_contracts. intros cts Hcts. wp_step. cbn [export_sequences].
  wp_step. wp_step. eapply (wp_PeekAutoIncrementID _ (next_code a));
    [apply (Hr KSequenceCodeID ltac:(done))|apply C|].
  wp_step. wp_step. wp_step. eapply (wp_PeekAutoIncrementID _ (next_instance a));
    [apply (Hr KSequenceInstanceID ltac:(done))|apply C|].
  wp_step. wp_step. wp_step. wp_step. wp_step. by apply HQ.
Qed.

End Export.

End Genesis.
End Genesis.
