(* ===== verification/GenesisRefine.v ===== *)
(** Importing an exported genesis state restores the registry that was
    exported and the state of every contract. *)
From S2P Require Import Prelude Errors GoStrings Json Types Proto Keys VMTypes Policy GasRegister Chain Logic Wp Engine Store Registry Events Keeper Msgs MsgServer KeeperFrame Refinement RefineKeeper Genesis.
Import GoStrings Keys Store.Store Events.Events.
Import Registry.Registry Refinement.Refinement RefineKeeper.RefineKeeper Genesis.Genesis.
Open Scope wasm_scope.

Module GenesisRefine.

Section Import.
Context `{GasMeters, Modules, KVStorePkg, Bech32, ErrorsMod, UnicodeTables,
  AddressPkg, CoinsPkg, Codecs, Gzip}.
Context `{!WasmEngine, !Keepers, !Bech32Laws, !AddressPkgLaws, !CodecsLaws}.

(** ** Codes *)

Lemma wp_importCode id info code σ b (Q : unit -> kvs -> Prop) :
  repr σ b -> is_u64 id -> (forall σ', repr σ' (put_code id info b) -> Q tt σ') ->
  wp (Keeper.importCode id info code) Q σ.
Proof.
  intros Hr Hid HQ. unfold Keeper.importCode. wp_step.
  apply wp_quiet; [unfold quiet, Keeper.uncompress_code; frame|]. intros wasm. wp_step.
  apply wp_quiet;
    [unfold quiet, VM_StoreCodeUnchecked; frame; apply preserves_modify; intros; apply sf_vm|].
  intros [hash|]; [|apply wp_fail]. wp_step. wp_step. wp_step. wp_step. apply wp_kv_has.
  wp_step. wp_step. apply (wp_record σ _ Hr (KCode id)); [done|]. intros _ σ' Hσ'. apply HQ.
  by eapply repr_put_code.
Qed.

Lemma wp_pin id σ b info (Q : unit -> kvs -> Prop) :
  repr σ b -> is_u64 id -> codes b !! id = Some info -> stored info ->
  (forall σ', repr σ' (put_pinned ({[id]} ∪ pinned b) b) -> Q tt σ') ->
  wp (Keeper.pinCode id) Q σ.
Proof.
  intros Hr Hid Hc Hs HQ. unfold Keeper.pinCode, VM_Pin. wp_step.
  apply (wp_GetCodeInfo σ _ Hr id (Some info)).
  { done. }
  { cbn [encode]. by rewrite Hc. }
  { by intros c [= <-]. }
  apply wp_bind, wp_quiet; [unfold quiet; frame; apply preserves_modify; intros; apply sf_vm|].
  intros [err|]; [apply wp_fail|].
  wp_step. apply (wp_write σ _ Hr (KPinned id)); [done|]. intros σ' Hσ'.
  apply wp_quiet; [unfold quiet; frame|]. intros []. apply HQ. by apply (repr_put_pinned σ σ' b id true).
Qed.

(** The registry [b'] has the codes [ids] of [a], with their pins, and else
    what [b] has. *)
Definition codes_from (a b : Registry) (ids : list N) (b' : Registry) : Prop :=
  (contracts b' = contracts b /\ history b' = history b /\ params b' = params b
   /\ next_code b' = next_code b /\ next_instance b' = next_instance b)
  /\ (forall id, codes b' !! id = if decide (id ∈ ids) then codes a !! id else codes b !! id)
  /\ (forall id, id ∈ pinned b' <-> id ∈ pinned b \/ id ∈ ids /\ id ∈ pinned a).

Lemma wp_init_codes a cs : forall m σ b (Q : N -> kvs -> Prop),
  storable a -> repr σ b -> Forall (exported_code a) cs ->
  (forall m' σ' b', repr σ' b' -> codes_from a b (Gen_CodeID <$> cs) b' -> Q m' σ') ->
  wp (init_codes cs m) Q σ.
Proof.
  induction cs as [|c cs IH]; intros m σ b Q Ha Hr Hcs HQ; cbn [init_codes].
  { apply wp_ret. eapply HQ; [exact Hr|]. split_and!; [done..|]. intros id. set_solver. }
  apply Forall_cons in Hcs as [(Hid & Hc & Hp) Hcs]. wp_step. wp_step.
  apply (wp_importCode _ _ _ σ b); [done..|]. intros σ1 Hr1. wp_step.
  set (b1 := if Gen_Pinned c then put_pinned ({[Gen_CodeID c]} ∪ pinned b)
               (put_code (Gen_CodeID c) (Gen_CodeInfo c) b)
             else put_code (Gen_CodeID c) (Gen_CodeInfo c) b).
  assert (forall Q' : unit -> kvs -> Prop, (forall σ2, repr σ2 b1 -> Q' tt σ2) ->
    wp (if Gen_Pinned c then wrap_err "contract number %d" (PermissionedKeeper.PinCode (Gen_CodeID c))
        else mret tt) Q' σ1) as Hpin.
  { intros Q' HQ'. unfold b1 in HQ'. destruct (Gen_Pinned c); [|by apply wp_ret, HQ'].
    wp_step. eapply (wp_pin _ σ1 _ (Gen_CodeInfo c)); [exact Hr1|done|apply lookup_insert_eq| |exact HQ'].
    by eapply sto_codes. }
  apply Hpin. clear Hpin. intros σ2 Hr2. apply (IH _ σ2 b1); [done..|].
  intros m' σ' b' Hr' (Hsame & Hcodes & Hpins). eapply HQ; [exact Hr'|].
  assert (contracts b1 = contracts b /\ history b1 = history b /\ params b1 = params b
          /\ next_code b1 = next_code b /\ next_instance b1 = next_instance b) as Hb1
    by (unfold b1; by destruct (Gen_Pinned c)).
  assert (forall id, codes b1 !! id = <[Gen_CodeID c := Gen_CodeInfo c]> (codes b) !! id) as Hb2
    by (intros; unfold b1; by destruct (Gen_Pinned c)).
  assert (forall id, id ∈ pinned b1 <-> id ∈ pinned b \/ id = Gen_CodeID c /\ id ∈ pinned a) as Hb3.
  { intros id. unfold b1. rewrite Hp. case_bool_decide; set_solver. }
  split_and!; try (by destruct_and!; congruence).
  - intros id. rewrite Hcodes, Hb2, fmap_cons. destruct (decide (id = Gen_CodeID c)) as [->|Hne].
    + rewrite lookup_insert_eq, (decide_True _ _ (P := Gen_CodeID c ∈ _ :: _)) by set_solver.
      rewrite Hc. by destruct (decide (Gen_CodeID c ∈ Gen_CodeID <$> cs)).
    + rewrite lookup_insert_ne by done. by apply decide_ext; set_solver.
  - intros id. rewrite Hpins, Hb3, fmap_cons. set_solver.
Qed.

(** ** Contracts *)

Definition put_history (addr : bytes) (h : list ContractCodeHistoryEntry) (b : Registry) : Registry :=
  mkRegistry (codes b) (contracts b) (<[addr := h]> (history b)) (pinned b) (params b)
    (next_code b) (next_instance b).

(** The entries of a history written after position [pos]. *)
Definition upd_history (f : Entry -> option bytes) (addr : bytes) (pos : N)
    (h : list ContractCodeHistoryEntry) (e : Entry) : option bytes :=
  match e with
  | KHistory ad p =>
      if decide (ad = addr /\ (pos < p)%N /\ (p <= pos + N.of_nat (length h))%N)
      then marshal <$> h !! N.to_nat (p - pos - 1) else f e
  | _ => f e
  end.

Lemma wp_store_history addr h : forall pos σ f (Q : unit -> kvs -> Prop),
  reads σ f -> (pos + N.of_nat (length h) <= MaxUint64)%N ->
  (forall σ', reads σ' (upd_history f addr pos h) -> Q tt σ') ->
  wp (store_history addr pos h) Q σ.
Proof.
  induction h as [|e h IH]; intros pos σ f Q Hr Hl HQ; cbn [store_history].
  { apply wp_ret, HQ. eapply reads_ext; [exact Hr|]. intros e _. destruct e; try done.
    cbn [upd_history length]. rewrite decide_False; [done|]. intros (_ & ? & ?). lia. }
  cbn [length] in Hl. cbv zeta.
  rewrite add64_exact by (unfold MaxUint64, two64 in *; lia).
  wp_step. apply wp_MustMarshal. intros _. wp_step.
  apply (wp_write σ f Hr (KHistory addr (pos + 1))).
  { split; [|done]. simpl. unfold is_u64, MaxUint64, two64 in *. lia. }
  intros σ1 H1'. apply (IH _ σ1 _ _ H1'); [lia|]. intros σ' Hσ'. apply HQ.
  eapply reads_ext; [exact Hσ'|]. intros en _. destruct en as [| | | | |ad p| | | | | |]; try done.
  cbn [upd_history length]. unfold upd.
  destruct (decide (ad = addr)) as [->|]; [|rewrite !decide_False by naive_solver; done].
  destruct (decide (p = pos + 1)%N) as [->|Hp].
  - rewrite decide_False by (intros (_ & ? & ?); lia). rewrite decide_True by done.
    rewrite decide_True by (split; [done|lia]).
    by replace (N.to_nat (pos + 1 - pos - 1)) with 0 by lia.
  - rewrite (decide_False (P := KHistory _ _ = _)) by congruence.
    destruct (decide (pos + 1 < p /\ p <= pos + 1 + N.of_nat (length h))%N) as [Hin|Hout].
    + rewrite !decide_True by (split; [done|lia]).
      by replace (N.to_nat (p - pos - 1)) with (S (N.to_nat (p - (pos + 1) - 1))) by lia.
    + by rewrite !decide_False by (intros (_ & ? & ?); lia).
Qed.

(** A contract that comes with its history. *)
Record importable (addr : bytes) (i : ContractInfo) (h : list ContractCodeHistoryEntry) : Prop := {
  imp_code : is_u64 (CodeID i);
  imp_length : (N.of_nat (length h) <= MaxUint64)%N;
  imp_first : exists c pos, VerifyAddressFormat c = None /\ Creator i = AccAddress_String c
    /\ Created i = Some pos /\ wf_position pos /\ (Updated <$> head h) = Some (Some pos);
  imp_last : exists e p, last h = Some e /\ Updated e = Some p /\ wf_position p
    /\ is_u64 (HistCodeID e);
}.

Lemma tidy_importContractState addr ms : tidy (importContractState addr ms).
Proof.
  unfold tidy. induction ms as [|m ms IH]; cbn [importContractState]; frame.
  apply preserves_kv_set, touch_kv_frame; [apply _|]. eexists. left. reflexivity.
Qed.

Lemma list_last_default {A} (l : list A) d : List.last l d = default d (last l).
Proof.
  induction l as [|x l IH]; [done|]. destruct l as [|y l]; [done|].
  change (List.last (x :: y :: l) d) with (List.last (y :: l) d).
  by change (last (x :: y :: l)) with (last (y :: l)).
Qed.

(** The writes of an import are the contract with its history. *)
Lemma import_entries addr i h b c pos e p en :
  contracts b !! addr = None -> history b !! addr = None ->
  VerifyAddressFormat c = None -> Creator i = AccAddress_String c -> Created i = Some pos ->
  last h = Some e -> Updated e = Some p -> reg_entry en ->
  upd (upd (upd (upd_history (encode b) addr 0 h) (KContract addr) (Some (marshal i)))
         (KByCodeID (HistCodeID e) p addr) (Some [])) (KByCreator c pos addr) (Some []) en
  = encode (put_contract addr i (put_history addr h b)) en.
Proof.
  intros Hn Hno Hv Hc Hpos He Hu [_ Hen].
  assert (forall ad, history_of (put_contract addr i (put_history addr h b)) ad
    = if decide (ad = addr) then h else history_of b ad) as Hh.
  { intros ad. unfold history_of. cbn [put_contract put_history history].
    case_decide; simplify_map_eq; done. }
  assert (history_of b addr = []) as Hb by (unfold history_of; by rewrite Hno).
  unfold upd. destruct en as [id|ad|ad q| | |ad q|id q ad|id| |c' q ad| |? ? ?]; try done.
  - cbn [encode put_contract contracts upd_history]. rewrite !decide_False by done.
    destruct (decide (ad = addr)) as [->|]; [by rewrite decide_True, lookup_insert_eq|].
    by rewrite decide_False, lookup_insert_ne by congruence.
  - rewrite !decide_False by done. cbn [encode upd_history]. rewrite Hh.
    destruct (decide (ad = addr)) as [->|]; [|rewrite decide_False by naive_solver; done].
    destruct (N.eqb_spec q 0) as [->|]; [by rewrite decide_False by (intros (_ & ? & ?); lia)|].
    destruct (decide (q <= N.of_nat (length h))%N).
    + rewrite decide_True by (split; [done|lia]). by replace (q - 0 - 1)%N with (q - 1)%N by lia.
    + rewrite decide_False by (intros (_ & ? & ?); lia). by rewrite Hb, (lookup_ge_None_2 h) by lia.
  - rewrite (decide_False (P := KByCodeID _ _ _ = KByCreator _ _ _)) by done.
    cbn [encode upd_history]. rewrite Hh. destruct (decide (ad = addr)) as [->|].
    + rewrite He. case_decide as E; simplify_eq; [by rewrite bool_decide_true|].
      rewrite decide_False, Hb by done. rewrite bool_decide_false; [done|].
      intros [<- E']. rewrite Hu in E'. congruence.
    + rewrite !decide_False by congruence. done.
  - cbn [encode put_contract contracts upd_history]. destruct (decide (ad = addr)) as [->|].
    + rewrite lookup_insert_eq, Hn. case_decide as E; simplify_eq; [by rewrite bool_decide_true|].
      rewrite !decide_False by done. rewrite bool_decide_false; [done|]. intros [E' E''].
      apply E. rewrite Hc in E'. apply AccAddress_String_inj in E' as ->; [|done..]. congruence.
    + rewrite !decide_False, lookup_insert_ne by congruence. done.
Qed.

Lemma wp_importContract addr i ms h σ b (Q : unit -> kvs -> Prop) :
  repr σ b -> importable addr i h -> (contracts b !! addr = None -> history b !! addr = None) ->
  (forall σ', contracts b !! addr = None -> repr σ' (put_contract addr i (put_history addr h b)) ->
     Q tt σ') ->
  wp (importContract addr i ms h) Q σ.
Proof.
  intros Hr [Hid Hl (c & pos & Hv & Hc & Hpos & Hwf & Hfirst) (e & p & He & Hu & Hp & Hei)] Hno HQ.
  unfold importContract. wp_step. apply wp_must, wp_kv_has. wp_step. wp_step.
  wp_step. eapply (wp_HasContractInfo σ _ Hr addr (contracts b !! addr)); [done|].
  wp_step. wp_step. destruct (contracts b !! addr) as [i'|] eqn:Hn; [done|]. specialize (Hno eq_refl).
  destruct h as [|first h]; [done|]. simpl in Hfirst. injection Hfirst as Hfirst.
  rewrite Hc, bech32_roundtrip by done.
  wp_step. unfold appendToContractHistory. wp_step.
  assert (history_of b addr = []) as Hh by (unfold history_of; by rewrite Hno).
  eapply (wp_last_history_position σ _ Hr addr []); [|simpl; lia|].
  { intros q Hq. cbn [encode]. by rewrite Hh. }
  cbn [length]. change (N.of_nat 0) with 0%N.
  eapply (wp_store_history addr (first :: h) 0 σ _ _ Hr); [lia|]. intros σ1 H1'.
  wp_step. unfold mustStoreContractInfo. wp_step. apply wp_MustMarshal. intros _. wp_step.
  apply (wp_write σ1 _ H1' (KContract addr)); [done|]. intros σ2 H2'.
  wp_step. rewrite list_last_default, He. cbn [default from_option].
  apply (wp_addCodeIndex σ2 _ H2' addr e p); [done|done|]. intros σ3 H3'.
  wp_step. rewrite Hfirst. apply (wp_addCreatorIndex σ3 _ H3' c pos); [done..|]. intros σ4 H4'.
  apply wp_tidy; [apply tidy_importContractState|]. intros [] σ5 H5'. apply HQ; [done|].
  eapply reads_same_meta; [|exact H5']. eapply reads_ext; [exact H4'|].
  intros en Hen. by apply import_entries.
Qed.

(** The position of a contract's creation is that of its first history
    entry. *)
Definition created_first (a : Registry) : Prop :=
  forall addr i, contracts a !! addr = Some i ->
    Updated <$> head (history_of a addr) = Some (Created i).

Lemma coherent_importable a addr i :
  coherent a -> storable a -> created_first a -> contracts a !! addr = Some i ->
  importable addr i (history_of a addr).
Proof.
  intros C St Hf Hi. destruct (coh_contracts a C addr i Hi) as [_ (e & p & He & Hid & Hu) (c & q & Hv & Hc & Hq)].
  destruct (sto_contracts a St addr i Hi) as [(Hw & Hp & _) _]. split; [done|..].
  - unfold history_of. destruct (history a !! addr) eqn:E; simpl; [|lia]. by apply (coh_history a C addr).
  - exists c, q. split_and!; [done..|by apply Hp|]. by rewrite (Hf addr i Hi), Hq.
  - exists e, p. destruct (sto_history a St addr e) as [(_ & Hwe & Hpe) _].
    { apply last_Some in He as [l ->]. set_solver. }
    split_and!; [done..|by apply Hpe|done].
Qed.

(** The registry [b'] has the contracts [addrs] of [a] and their histories,
    and else what [b] has. *)
Definition contracts_from (a b : Registry) (addrs : list bytes) (b' : Registry) : Prop :=
  (codes b' = codes b /\ pinned b' = pinned b /\ params b' = params b
   /\ next_code b' = next_code b /\ next_instance b' = next_instance b)
  /\ (forall ad, contracts b' !! ad = if decide (ad ∈ addrs) then contracts a !! ad else contracts b !! ad)
  /\ (forall ad, history b' !! ad
        = if decide (ad ∈ addrs) then Some (history_of a ad) else history b !! ad).

(** The contracts of an export and their addresses. *)
Definition listed (a : Registry) (c : GenContract) (addr : bytes) : Prop :=
  AccAddressFromBech32 (Gen_ContractAddress c) = inl addr
  /\ contracts a !! addr = Some (Gen_ContractInfo c)
  /\ Gen_ContractCodeHistory c = history_of a addr.

Lemma wp_init_contracts a cs addrs : Forall2 (listed a) cs addrs -> forall σ b (Q : unit -> kvs -> Prop),
  coherent a -> storable a -> created_first a -> repr σ b ->
  (forall ad, contracts b !! ad = None -> history b !! ad = None) ->
  (forall σ' b', repr σ' b' -> contracts_from a b addrs b' -> Q tt σ') ->
  wp (init_contracts cs) Q σ.
Proof.
  induction 1 as [|c addr cs addrs (Hdec & Hi & Hh) _ IH]; intros σ b Q C St Hf Hr Hno HQ;
    cbn [init_contracts].
  { apply wp_ret. eapply HQ; [exact Hr|]. by split_and!. }
  rewrite Hdec. wp_step. wp_step. rewrite Hh.
  apply (wp_importContract addr _ _ _ σ b); [done|by apply coherent_importable|auto|].
  intros σ1 Hn Hr1. eapply (IH σ1 _ _ C St Hf Hr1).
  - intros ad. cbn [put_contract put_history contracts history].
    destruct (decide (ad = addr)) as [->|]; simplify_map_eq; [done|auto].
  - intros σ' b' Hr' (Hsame & Hcon & Hhis). eapply HQ; [exact Hr'|]. split_and!.
    1-5: by apply Hsame.
    + intros ad. rewrite Hcon. cbn [put_contract put_history contracts].
      destruct (decide (ad = addr)) as [->|].
      * rewrite lookup_insert_eq, Hi, (decide_True (P := addr ∈ addr :: addrs)) by set_solver.
        by destruct (decide (addr ∈ addrs)).
      * rewrite lookup_insert_ne by done. apply decide_ext. set_solver.
    + intros ad. rewrite Hhis. cbn [put_contract put_history history].
      destruct (decide (ad = addr)) as [->|].
      * rewrite lookup_insert_eq, (decide_True (P := addr ∈ addr :: addrs)) by set_solver.
        by destruct (decide (addr ∈ addrs)).
      * rewrite lookup_insert_ne by done. apply decide_ext. set_solver.
Qed.

(** ** The whole genesis state *)

Lemma wp_import_sequence e v σ b b' (Q : unit -> kvs -> Prop) :
  repr σ b -> reg_entry e ->
  (forall e', encode b' e' = upd (encode b) e (Some (Uint64ToBigEndian v)) e') ->
  (forall σ', repr σ' b' -> Q tt σ') ->
  wp (importAutoIncrementID (entry_key e) v) Q σ.
Proof.
  intros Hr He Hb HQ. unfold importAutoIncrementID. wp_step. wp_step. apply wp_kv_has.
  wp_step. wp_step. apply (wp_write σ _ Hr e); [done|]. intros σ' Hσ'. apply HQ.
  eapply reads_ext; [exact Hσ'|]. intros. by rewrite Hb.
Qed.

(** The registry as it is after an import: the sequences have been written. *)
Definition settled (a : Registry) : Registry :=
  put_next_instance (instance_seq a) (put_next_code (code_seq a) a).
Definition no_records : Registry := mkRegistry ∅ ∅ ∅ ∅ None None None.

Lemma repr_no_records : repr ∅ no_records.
Proof.
  intros e _. rewrite lookup_empty. destruct e as [| | | | |ad p| | | | | |]; try done.
  simpl. by destruct (p =? 0)%N.
Qed.

Lemma exported_listed (σ0 : kvs) a c :
  contract_addresses a -> exported_contract σ0 a c ->
  exists addr, listed a c addr /\ Gen_ContractAddress c = AccAddress_String addr.
Proof.
  intros Hv (addr & Hi & Ha & _ & Hh). exists addr. split; [|done]. split_and!; [|done..].
  rewrite Ha. apply bech32_roundtrip, Hv. by eexists.
Qed.

(** What an import of all codes and all contracts of a registry yields. *)
Lemma imported_all (σ0 : kvs) a g b1 b2 addrs :
  coherent a -> exports σ0 a g -> contract_addresses a ->
  Forall2 (listed a) (Gen_Contracts g) addrs ->
  codes_from a (put_params (Gen_Params g) no_records) (Gen_CodeID <$> Gen_Codes g) b1 ->
  contracts_from a b1 addrs b2 ->
  b2 = mkRegistry (codes a) (contracts a) (history a) (pinned a) (params a) None None.
Proof.
  intros C (Hp & (_ & _ & Hall) & (_ & Hcs & Hallc) & _) Hv Hl (S1 & Hc1 & Hp1) (S2 & Hc2 & Hh2).
  assert (forall ad, is_Some (contracts a !! ad) <-> ad ∈ addrs) as Haddrs.
  { intros ad. split.
    - intros Hi. pose proof (Hallc ad Hi) as (c & Hc & Hin)%list_elem_of_fmap.
      destruct (Forall2_elem_l _ _ _ _ Hl Hin) as (ad' & Hin' & Hdec & _).
      rewrite <- Hc, bech32_roundtrip in Hdec by by apply Hv. by injection Hdec as ->.
    - intros Hin. destruct (Forall2_elem_r _ _ _ _ Hl Hin) as (c & _ & _ & Hi & _). by eexists. }
  destruct b2 as [co2 ct2 hi2 pi2 pa2 nc2 ni2], S1 as (E1 & E2 & E3 & E4 & E5),
    S2 as (F1 & F2 & F3 & F4 & F5). cbn in *. subst. f_equal; try congruence.
  - apply map_eq. intros id. rewrite Hc1. case_decide as Hd; [done|].
    rewrite lookup_empty. symmetry. apply eq_None_not_Some. auto.
  - apply map_eq. intros ad. rewrite Hc2. case_decide as Hd; [done|]. rewrite E1, lookup_empty.
    symmetry. apply eq_None_not_Some. by rewrite Haddrs.
  - apply map_eq. intros ad. rewrite Hh2, E2. unfold history_of. case_decide as Hd.
    + apply Haddrs in Hd as [i Hi]. destruct (contract_last a ad i (coh_contracts a C ad i Hi)) as (e & p & He & _).
      unfold history_of in He. by destruct (history a !! ad).
    + rewrite lookup_empty. destruct (history a !! ad) as [h|] eqn:Eh; [|done].
      exfalso. apply Hd, Haddrs. by eapply coh_history.
  - apply set_eq. intros id. rewrite Hp1. split; [|right; split; [|done]].
    + set_solver.
    + by apply Hall, coh_pinned.
Qed.

Lemma wp_InitGenesis (σ0 : kvs) ctx a g (Q : unit -> kvs -> Prop) :
  coherent a -> storable a -> created_first a -> contract_addresses a -> exports σ0 a g ->
  (forall σ', repr σ' (settled a) -> Q tt σ') ->
  wp (InitGenesis ctx g) Q ∅.
Proof.
  intros C St Hf Hv Hg HQ.
  assert (exists addrs, Forall2 (listed a) (Gen_Contracts g) addrs) as [addrs Hl].
  { destruct Hg as (_ & _ & (_ & Hcs & _) & _). induction Hcs as [|c cs Hc _ [l Hl]].
    - by exists [].
    - destruct (exported_listed σ0 a c Hv Hc) as (ad & Had & _). exists (ad :: l). by constructor. }
  pose proof Hg as (Hp & (_ & Hcodes & _) & _ & Hseq). unfold InitGenesis.
  wp_step. wp_step. unfold SetParams.
  apply (wp_record ∅ _ repr_no_records KParams); [done|]. intros _ σ1 H1'.
  assert (repr σ1 (put_params (Gen_Params g) no_records)) as Hr1.
  { eapply reads_ext; [exact H1'|]. intros e _. unfold upd.
    by destruct (decide (e = KParams)) as [->|]; [|destruct e]. }
  wp_step. apply (wp_init_codes a _ _ σ1 _ _ St Hr1 Hcodes). intros m σ2 b2 Hr2 Hb2.
  wp_step. eapply (wp_init_contracts a _ addrs Hl σ2 b2 _ C St Hf Hr2).
  { intros ad. destruct Hb2 as ((-> & -> & _) & _). done. }
  intros σ3 b3 Hr3 Hb3. rewrite (imported_all σ0 a g b2 b3 addrs) in Hr3 by done. clear Hb2 Hb3.
  wp_step. rewrite Hseq. cbn [init_sequences]. wp_step. wp_step.
  eapply (wp_import_sequence KSequenceCodeID (code_seq a) σ3 _ (put_next_code (code_seq a) _));
    [exact Hr3|done|by intros []|]. intros σ4 Hr4. wp_step. wp_step.
  eapply (wp_import_sequence KSequenceInstanceID (instance_seq a) σ4 _ (put_next_instance (instance_seq a) _));
    [exact Hr4|done|by intros []|]. intros σ5 Hr5. wp_step.
  apply wp_bind, wp_quiet; [unfold quiet, PeekAutoIncrementID; frame|]. intros seqVal.
  wp_step. wp_step.
  apply wp_bind, wp_quiet; [unfold quiet; frame|]. intros ad.
  wp_step. apply wp_quiet; [unfold quiet, HasContractInfo; frame|]. intros used.
  apply wp_guard. intros _. by apply HQ.
Qed.

(** ** The state of the contracts *)

Definition state_key (r : bytes) : bytes := ContractStorePrefix ++ r.
Definition outside (k : bytes) : Prop := forall r, k <> state_key r.
Definition same_state (σ σ' : kvs) : Prop := forall r, σ' !! state_key r = σ !! state_key r.
Definition keeps_state {A} (m : M A) : Prop := preserves (kv_frame outside) m.

#[local] Instance same_state_preorder : PreOrder same_state.
Proof. split; [by intros σ k|]. intros σ1 σ2 σ3 E1 E2 r. by rewrite E2, E1. Qed.

Lemma wp_keeps_state {A} (m : M A) (Q : A -> kvs -> Prop) σ :
  keeps_state m -> (forall x σ', same_state σ σ' -> Q x σ') -> wp m Q σ.
Proof.
  intros Hm HQ s x s' <- E. apply HQ. intros r. specialize (Hm s (state_key r)).
  rewrite E in Hm. apply Hm. intros Ho. by eapply Ho.
Qed.
Lemma wp_set_outside k v (Q : unit -> kvs -> Prop) σ :
  outside k -> (forall σ', same_state σ σ' -> Q tt σ') -> wp (kv_set k v) Q σ.
Proof.
  intros Hk HQ. apply wp_kv_set, HQ. intros r. by rewrite lookup_insert_ne by apply Hk.
Qed.

Lemma obind_Ret {A B} (o : outcome A) (f : A -> outcome B) y :
  obind o f = Ret y -> exists x, o = Ret x /\ f x = Ret y.
Proof. destruct o; naive_solver. Qed.

(** Writes outside the state of the contracts. *)
Ltac outer :=
  unfold MustMarshal, MustUnmarshal; frame;
  try (apply preserves_modify; intros; apply sf_vm);
  try (apply preserves_kv_set, touch_kv_frame; [apply _|by intros r]).

Lemma keeps_init_codes cs : forall m, keeps_state (init_codes cs m).
Proof.
  induction cs as [|c cs IH]; intros m; cbn [init_codes]; unfold keeps_state in *; [frame|].
  unfold Keeper.importCode, PermissionedKeeper.PinCode, Keeper.pinCode, Keeper.uncompress_code,
    VM_StoreCodeUnchecked, VM_Pin, GetCodeInfo. outer; apply IH.
Qed.
Lemma keeps_store_history addr h : forall pos, keeps_state (store_history addr pos h).
Proof.
  induction h as [|e h IH]; intros pos; cbn [store_history]; unfold keeps_state in *; by outer.
Qed.

(** The state of the contract at [addr] is that of [σ0]. *)
Lemma wp_importContractState (σ0 : kvs) addr ms : forall σ (Q : unit -> kvs -> Prop),
  NoDup (ModelKey <$> ms) ->
  (forall σ', (forall k, σ' !! k = match list_find (fun m => GetContractStorePrefix addr ++ ModelKey m = k) ms with
                              | Some (_, m) => Some (ModelValue m) | None => σ !! k end) -> Q tt σ') ->
  wp (importContractState addr ms) Q σ.
Proof.
  induction ms as [|m ms IH]; intros σ Q Hnd HQ; cbn [importContractState].
  { apply wp_ret, HQ. done. }
  rewrite fmap_cons in Hnd. apply NoDup_cons in Hnd as [Hm Hnd].
  wp_step. wp_step. apply wp_kv_has. wp_step. wp_step. wp_step. wp_step. apply wp_kv_set.
  apply IH; [done|]. intros σ' Hσ'. apply HQ. intros k. rewrite Hσ'. cbn [list_find].
  destruct (decide (GetContractStorePrefix addr ++ ModelKey m = k)) as [<-|Hne].
  - destruct (list_find _ ms) as [[j m']|] eqn:E; [|by rewrite lookup_insert_eq].
    apply list_find_Some in E as (Hl & Hk & _). apply (inj (app _)) in Hk.
    exfalso. apply Hm. rewrite <- Hk. apply list_elem_of_fmap_2. by eapply list_elem_of_lookup_2.
  - rewrite lookup_insert_ne by done. by destruct (list_find _ ms) as [[]|].
Qed.

Lemma wp_importContract_state (σ0 : kvs) addr i ms h σ (Q : unit -> kvs -> Prop) :
  exports_state σ0 addr ms ->
  (forall r, addr `prefix_of` r -> σ !! state_key r = None) ->
  (forall σ', (forall r, σ' !! state_key r
                  = if decide (addr `prefix_of` r) then σ0 !! state_key r else σ !! state_key r) ->
     Q tt σ') ->
  wp (importContract addr i ms h) Q σ.
Proof.
  intros [Hnd Hms] Hempty HQ. unfold importContract.
  apply wp_bind, wp_quiet; [unfold quiet, containsCodeInfo; frame|]. intros hasCode. wp_step. wp_step.
  apply wp_bind, wp_quiet; [unfold quiet, HasContractInfo; frame|]. intros has. wp_step. wp_step.
  destruct h as [|first h]; [apply wp_fail|]. destruct (AccAddressFromBech32 _); [|apply wp_fail].
  apply wp_bind, wp_keeps_state;
    [unfold keeps_state, appendToContractHistory, last_history_position; outer; apply keeps_store_history|].
  intros [] σ1 S1. apply wp_bind, wp_keeps_state;
    [unfold keeps_state, mustStoreContractInfo; outer|].
  intros [] σ2 S2. unfold addToContractCodeSecondaryIndex, addToContractCreatorSecondaryIndex,
    GetContractByCreatedSecondaryIndexKey, GetContractByCreatorSecondaryIndexKey, GetContractsByCreatorPrefix.
  wp_step. wp_step. wp_step.
  match goal with E : obind _ _ = Ret _ |- _ => apply obind_Ret in E as (? & _ & [= <-]) end.
  apply wp_set_outside; [by intros r|]. intros σ3 S3.
  wp_step. wp_step. wp_step. wp_step. wp_step.
  match goal with E : obind _ _ = Ret _ |- _ =>
    apply obind_Ret in E as (? & (? & _ & [= <-])%obind_Ret & [= <-]) end.
  apply wp_set_outside; [by intros r|]. intros σ4 S4.
  apply (wp_importContractState σ0); [done|]. intros σ5 H5'. apply HQ. intros r. rewrite H5'.
  rewrite (S4 r), (S3 r), (S2 r), (S1 r). change (state_key r) with (Byte.x03 :: r).
  destruct (list_find _ ms) as [[j m]|] eqn:E.
  - apply list_find_Some in E as (Hl & [= <-] & _). rewrite decide_True by by apply prefix_app_r.
    symmetry. apply (Hms (ModelKey m)), list_elem_of_lookup_2 with j. by destruct m.
  - case_decide as Hp; [|done]. etrans; [exact (Hempty r Hp)|]. destruct Hp as [key ->].
    destruct (σ0 !! _) as [v|] eqn:E0; [|done]. apply (Hms key) in E0.
    apply list_find_None in E. by destruct (proj1 (Forall_forall _ _) E _ E0).
Qed.

(** The addresses of the exported contracts, which all have one length. *)
Definition restorable (σ0 : kvs) (c : GenContract) (addr : bytes) : Prop :=
  AccAddressFromBech32 (Gen_ContractAddress c) = inl addr
  /\ length addr = ContractAddrLen /\ exports_state σ0 addr (Gen_ContractState c).
Definition owned (addrs : list bytes) (r : bytes) : Prop := Exists (fun addr => addr `prefix_of` r) addrs.
#[local] Instance owned_dec addrs r : Decision (owned addrs r).
Proof. apply _. Defined.

Lemma owned_one addr addrs r :
  addr ∉ addrs -> length addr = ContractAddrLen -> Forall (fun ad => length ad = ContractAddrLen) addrs ->
  addr `prefix_of` r -> ~ owned addrs r.
Proof.
  intros Hn Hl Hls [k ->] Ho. apply Exists_exists in Ho as (ad & Hin & [k' E]).
  apply app_inj_1 in E as [-> _]; [done|].
  rewrite Hl. symmetry. by apply (proj1 (Forall_forall _ _) Hls).
Qed.

Lemma wp_init_contracts_state (σ0 : kvs) cs addrs : Forall2 (restorable σ0) cs addrs ->
  forall σ (Q : unit -> kvs -> Prop),
  NoDup addrs -> (forall r, owned addrs r -> σ !! state_key r = None) ->
  (forall σ', (forall r, σ' !! state_key r
                 = if decide (owned addrs r) then σ0 !! state_key r else σ !! state_key r) -> Q tt σ') ->
  wp (init_contracts cs) Q σ.
Proof.
  intros HF. assert (Forall (fun ad => length ad = ContractAddrLen) addrs) as Hls.
  { induction HF as [|??? ? (_ & ? & _)]; by constructor. }
  induction HF as [|c addr cs addrs (Hdec & Hl & Hms) HF IH]; intros σ Q Hnd Hempty HQ;
    cbn [init_contracts].
  { apply wp_ret, HQ. done. }
  apply NoDup_cons in Hnd as [Hn Hnd]. apply Forall_cons in Hls as [_ Hls]. rewrite Hdec. wp_step. wp_step.
  apply (wp_importContract_state σ0); [done|intros r Hr; apply Hempty; by left|]. intros σ1 H1'.
  apply IH; [done..| |].
  - intros r Ho. rewrite H1', decide_False; [apply Hempty; by right|].
    intros Hp. by apply (owned_one addr addrs r).
  - intros σ' Hσ'. apply HQ. intros r. rewrite Hσ', H1'.
    destruct (decide (addr `prefix_of` r)) as [Hp|Hp].
    + rewrite (decide_True (P := owned (addr :: addrs) r)) by by left. by case_decide.
    + apply decide_ext. unfold owned. rewrite Exists_cons. naive_solver.
Qed.

Lemma wp_InitGenesis_state (σ0 : kvs) ctx a g (Q : unit -> kvs -> Prop) :
  contract_addresses a -> exports σ0 a g ->
  (forall σ', (forall addr key, is_Some (contracts a !! addr) ->
                 σ' !! (GetContractStorePrefix addr ++ key) = σ0 !! (GetContractStorePrefix addr ++ key)) ->
     Q tt σ') ->
  wp (InitGenesis ctx g) Q ∅.
Proof.
  intros Hv (_ & _ & (Hnd & Hcs & Hall) & Hseq) HQ.
  assert (exists addrs, Forall2 (restorable σ0) (Gen_Contracts g) addrs
            /\ Gen_ContractAddress <$> Gen_Contracts g = AccAddress_String <$> addrs
            /\ forall ad, ad ∈ addrs -> VerifyAddressFormat ad = None) as (addrs & HF & Has & Hok).
  { clear Hnd Hall Hseq. induction Hcs as [|c cs (ad & Hi & Ha & Hm & _) _ (l & Hl & El & Hol)].
    - exists []. split_and!; [constructor|done|set_solver].
    - destruct (Hv ad ltac:(by eexists)) as [Hva Hlen]. exists (ad :: l). split_and!.
      + constructor; [|done]. split_and!; [|done..]. rewrite Ha. by apply bech32_roundtrip.
      + rewrite !fmap_cons. by f_equal.
      + intros ad' [->|Hin]%elem_of_cons; auto. }
  unfold InitGenesis. apply wp_bind, wp_keeps_state; [unfold keeps_state, SetParams; by outer|].
  intros _ σ1 S1. apply wp_bind, wp_keeps_state; [apply keeps_init_codes|]. intros m σ2 S2.
  apply wp_bind, (wp_init_contracts_state σ0 _ addrs HF).
  { rewrite Has in Hnd. by eapply NoDup_fmap_1. }
  { intros r _. by rewrite (S2 r), (S1 r), lookup_empty. }
  intros σ3 H3'. apply wp_bind, wp_keeps_state; [rewrite Hseq; unfold keeps_state; cbn [init_sequences];
    unfold importAutoIncrementID; by outer|].
  intros [] σ4 S4.
  apply wp_keeps_state; [unfold keeps_state, PeekAutoIncrementID, HasContractInfo; by outer|].
  intros [] σ5 S5. apply HQ. intros addr key Ha.
  change (GetContractStorePrefix addr ++ key) with (state_key (addr ++ key)).
  rewrite (S5 _), (S4 _), H3', decide_True; [done|]. apply Exists_exists. exists addr.
  split; [|by apply prefix_app_r].
  pose proof (Hall addr Ha) as Hin. rewrite Has in Hin. apply list_elem_of_fmap in Hin as (ad & Ead & Hin).
  pose proof (bech32_roundtrip addr ltac:(by apply Hv)) as Hb.
  rewrite Ead, bech32_roundtrip in Hb by by apply Hok. by injection Hb as ->.
Qed.

(** Every step of the module keeps the creation of its contracts first in
    their histories. *)
Lemma created_first_put a addr i i' :
  created_first a -> contracts a !! addr = Some i -> Created i' = Created i ->
  created_first (put_contract addr i' a).
Proof.
  intros Hf Hi Hc ad j. simpl. destruct (decide (ad = addr)) as [->|]; intros Hj; simplify_map_eq.
  - rewrite Hc. by apply Hf.
  - by apply Hf.
Qed.
Lemma created_first_push a addr i e :
  created_first a ->
  (history_of a addr = [] -> Updated e = Created i) ->
  (forall i0, contracts a !! addr = Some i0 -> Created i = Created i0) ->
  (contracts a !! addr = None -> history_of a addr = []) ->
  created_first (put_contract addr i (push_history addr e a)).
Proof.
  intros Hf He Hi Hn ad j Hj. change (history_of _ ad) with (history_of (push_history addr e a) ad).
  rewrite history_of_insert. simpl in Hj.
  destruct (decide (ad = addr)) as [->|]; simplify_map_eq; [|by apply Hf].
  destruct (history_of a addr) as [|f h] eqn:Eh; simpl; [by rewrite He|].
  destruct (contracts a !! addr) as [i0|] eqn:E0; [|by specialize (Hn eq_refl)].
  rewrite (Hi i0 eq_refl). specialize (Hf addr i0 E0). by rewrite Eh in Hf.
Qed.
Lemma step_created_first authority propagate Sub sender a a' :
  coherent a -> created_first a -> step authority propagate Sub sender a a' -> created_first a'.
Proof.
  intros C Hf S. destruct S as
    [| |p actor addr id code admin label pos port msg _ _ _ Hn _ i
    |p actor addr i id code pos port msg _ Hi|p actor addr i admin _ Hi|p actor addr i label _ Hi| | | |];
    try exact Hf.
  - apply created_first_push; [done..|congruence|]. intros _. by apply no_history.
  - simpl. apply created_first_push; [done| |by intros i0 Hi0; simplify_eq|congruence].
    intros Hh. specialize (Hf addr i Hi). by rewrite Hh in Hf.
  - by eapply created_first_put.
  - by eapply created_first_put.
Qed.

(** C14: a chain exports its wasm state and another one imports it into an
    empty store: when the import is accepted, the new store holds the registry
    that was exported (codes, pins, contracts, histories, both secondary
    indexes, parameters and the two sequences) and, for every contract, exactly
    its keys and values. *)
Theorem genesis_roundtrip ctx (a : Registry) (s s1 t t' : State) g :
  repr (kv s) a -> coherent a -> storable a -> created_first a -> contract_addresses a ->
  code_keys (kv s) ->
  ExportGenesis s = (Ret g, s1) ->
  kv t = ∅ -> InitGenesis ctx g t = (Ret tt, t') ->
  repr (kv t') (settled a)
  /\ forall addr key, is_Some (contracts a !! addr) ->
       kv t' !! (GetContractStorePrefix addr ++ key) = kv s !! (GetContractStorePrefix addr ++ key).
Proof.
  intros Hr C St Hf Hv Hk Ex Ht Im.
  assert (exports (kv s) a g) as Hg.
  { by eapply (wp_ExportGenesis (kv s) a Hr C St Hk Hv (fun g _ => exports (kv s) a g)); [..|exact Ex]. }
  split.
  - by eapply (wp_InitGenesis (kv s) ctx a g (fun _ σ => repr σ (settled a))); [..|exact Ht|exact Im].
  - by eapply (wp_InitGenesis_state (kv s) ctx a g (fun _ σ => forall addr key, _ ->
       σ !! (GetContractStorePrefix addr ++ key) = _)); [..|exact Ht|exact Im].
Qed.

End Import.

End GenesisRefine.
