(* ===== verification/Proposals.v ===== *)
(** The legacy governance proposals: their contents and validation
    (x/wasm/types/proposal_legacy.go) and the handler that runs them when they
    have passed (x/wasm/keeper/proposal_handler_legacy.go). *)
From S2P Require Import Prelude Errors GoStrings Json Types Proto Keys VMTypes Policy GasRegister Chain Logic Wp Engine Store Registry Events Keeper Dispatcher Msgs MsgServer KeeperFrame Encoders Messenger QueryPlugins Relay System SystemFrame Refinement RefineKeeper RelayRefine RefineSystem Guarantees Genesis GenesisRefine.
Import GoStrings Keys Store.Store Events.Events Msgs.Msgs.
Open Scope wasm_scope.

(** What the proposals use of the gov module. *)
Class GovModule := {
  ErrInvalidProposalContent : error;
  MaxTitleLength : N;
  MaxDescriptionLength : N;
}.

Module Proposals.

(** ** Contents (proposal_legacy.pb.go) *)

Record StoreCodeProposal := mkStoreCodeProposal {
  SCP_Title : string;
  SCP_Description : string;
  SCP_RunAs : string;
  SCP_WASMByteCode : bytes;
  SCP_InstantiatePermission : option AccessConfig;
  SCP_UnpinCode : bool;
  SCP_Source : string;
  SCP_Builder : string;
  SCP_CodeHash : option bytes;          (* nil is told apart from empty *)
}.
Record InstantiateContractProposal := mkInstantiateContractProposal {
  ICP_Title : string;
  ICP_Description : string;
  ICP_RunAs : string;
  ICP_Admin : string;
  ICP_CodeID : N;
  ICP_Label : string;
  ICP_Msg : bytes;
  ICP_Funds : Coins;
}.
Record InstantiateContract2Proposal := mkInstantiateContract2Proposal {
  IC2P_Title : string;
  IC2P_Description : string;
  IC2P_RunAs : string;
  IC2P_Admin : string;
  IC2P_CodeID : N;
  IC2P_Label : string;
  IC2P_Msg : bytes;
  IC2P_Funds : Coins;
  IC2P_Salt : bytes;
  IC2P_FixMsg : bool;
}.
Record MigrateContractProposal := mkMigrateContractProposal {
  MCP_Title : string;
  MCP_Description : string;
  MCP_Contract : string;
  MCP_CodeID : N;
  MCP_Msg : bytes;
}.
Record SudoContractProposal := mkSudoContractProposal {
  SuP_Title : string;
  SuP_Description : string;
  SuP_Contract : string;
  SuP_Msg : bytes;
}.
Record ExecuteContractProposal := mkExecuteContractProposal {
  ECP_Title : string;
  ECP_Description : string;
  ECP_RunAs : string;
  ECP_Contract : string;
  ECP_Msg : bytes;
  ECP_Funds : Coins;
}.
Record UpdateAdminProposal := mkUpdateAdminProposal {
  UAP_Title : string;
  UAP_Description : string;
  UAP_NewAdmin : string;
  UAP_Contract : string;
}.
Record ClearAdminProposal := mkClearAdminProposal {
  CAP_Title : string;
  CAP_Description : string;
  CAP_Contract : string;
}.
Record PinCodesProposal := mkPinCodesProposal {
  PCP_Title : string;
  PCP_Description : string;
  PCP_CodeIDs : list N;
}.
Record UnpinCodesProposal := mkUnpinCodesProposal {
  UCP_Title : string;
  UCP_Description : string;
  UCP_CodeIDs : list N;
}.
Record AccessConfigUpdate := mkAccessConfigUpdate {
  ACU_CodeID : N;
  ACU_InstantiatePermission : AccessConfig;
}.
Record UpdateInstantiateConfigProposal := mkUpdateInstantiateConfigProposal {
  UIP_Title : string;
  UIP_Description : string;
  UIP_AccessConfigUpdates : list AccessConfigUpdate;
}.
Record StoreAndInstantiateContractProposal := mkStoreAndInstantiateContractProposal {
  SIP_Title : string;
  SIP_Description : string;
  SIP_RunAs : string;
  SIP_WASMByteCode : bytes;
  SIP_InstantiatePermission : option AccessConfig;
  SIP_UnpinCode : bool;
  SIP_Admin : string;
  SIP_Label : string;
  SIP_Msg : bytes;
  SIP_Funds : Coins;
  SIP_Source : string;
  SIP_Builder : string;
  SIP_CodeHash : option bytes;
}.

(** v1beta1.Content: the contents of the module, or one of another module
    with its type. *)
Inductive Content :=
| CStoreCode (c : StoreCodeProposal)
| CInstantiateContract (c : InstantiateContractProposal)
| CInstantiateContract2 (c : InstantiateContract2Proposal)
| CMigrateContract (c : MigrateContractProposal)
| CSudoContract (c : SudoContractProposal)
| CExecuteContract (c : ExecuteContractProposal)
| CUpdateAdmin (c : UpdateAdminProposal)
| CClearAdmin (c : ClearAdminProposal)
| CPinCodes (c : PinCodesProposal)
| CUnpinCodes (c : UnpinCodesProposal)
| CUpdateInstantiateConfig (c : UpdateInstantiateConfigProposal)
| CStoreAndInstantiateContract (c : StoreAndInstantiateContractProposal)
| COther (type : string).

Definition ProposalType (c : Content) : string :=
  match c with
  | CStoreCode _ => "StoreCode"
  | CInstantiateContract _ => "InstantiateContract"
  | CInstantiateContract2 _ => "InstantiateContract2"
  | CMigrateContract _ => "MigrateContract"
  | CSudoContract _ => "SudoContract"
  | CExecuteContract _ => "ExecuteContract"
  | CUpdateAdmin _ => "UpdateAdmin"
  | CClearAdmin _ => "ClearAdmin"
  | CPinCodes _ => "PinCodes"
  | CUnpinCodes _ => "UnpinCodes"
  | CUpdateInstantiateConfig _ => "UpdateInstantiateConfig"
  | CStoreAndInstantiateContract _ => "StoreAndInstantiateContract"
  | COther type => type
  end.
Definition EnableAllProposals : list string :=
  ["StoreCode"; "InstantiateContract"; "InstantiateContract2"; "MigrateContract";
   "SudoContract"; "ExecuteContract"; "UpdateAdmin"; "ClearAdmin"; "PinCodes"; "UnpinCodes";
   "UpdateInstantiateConfig"; "StoreAndInstantiateContract"].
Definition DisableAllProposals : list string := [].

Section Proposals.
Context `{GasMeters, Modules, KVStorePkg, Bech32, ErrorsMod, UnicodeTables,
  AddressPkg, CoinsPkg, Codecs, Gzip, VerificationPkg}.
Context `{!WasmEngine, !Keepers, !GovModule}.

(** ** Validation *)

Definition validateProposalCommons (title description : string) : option error :=
  errIf (negb (bool_decide (TrimSpace title = title)))
    (Wrap ErrInvalidProposalContent "proposal title must not start/end with white spaces")
  >>? errIf (slen title =? 0)%N (Wrap ErrInvalidProposalContent "proposal title cannot be blank")
  >>? errIf (MaxTitleLength <? slen title)%N
        (Wrap ErrInvalidProposalContent "proposal title is longer than max length of %d")
  >>? errIf (negb (bool_decide (TrimSpace description = description)))
        (Wrap ErrInvalidProposalContent
           "proposal description must not start/end with white spaces")
  >>? errIf (slen description =? 0)%N
        (Wrap ErrInvalidProposalContent "proposal description cannot be blank")
  >>? errIf (MaxDescriptionLength <? slen description)%N
        (Wrap ErrInvalidProposalContent "proposal description is longer than max length of %d").

(** [Coins.IsValid] *)
Definition valid_coins (funds : Coins) : option error :=
  match Coins_Validate funds with None => None | Some _ => Some ErrInvalidCoins end.
(** An optional admin, its error as it is. *)
Definition bare_admin (admin : string) : option error :=
  if bool_decide (admin = "") then None else bech32_err admin.
(** A run-as address whose error is replaced. *)
Definition masked_run_as (runAs : string) : option error :=
  match bech32_err runAs with
  | None => None
  | Some _ => Some (Wrap ErrInvalidRequest "run as")
  end.
Definition proposal_code (code : bytes) : option error :=
  match validateWasmCode code MaxProposalWasmSize with
  | None => None
  | Some err => Some (Wrap ErrInvalidRequest (String.append "code bytes " (error_string err)))
  end.

Definition StoreCodeProposal_ValidateBasic (p : StoreCodeProposal) : option error :=
  validateProposalCommons (SCP_Title p) (SCP_Description p)
  >>? valid_address "run as" (SCP_RunAs p)
  >>? proposal_code (SCP_WASMByteCode p)
  >>? valid_permission (SCP_InstantiatePermission p)
  >>? WrapOpt (ValidateVerificationInfo (SCP_Source p) (SCP_Builder p) (SCP_CodeHash p))
        "code verification info".
Definition InstantiateContractProposal_ValidateBasic (p : InstantiateContractProposal)
    : option error :=
  validateProposalCommons (ICP_Title p) (ICP_Description p)
  >>? masked_run_as (ICP_RunAs p)
  >>? errIf (ICP_CodeID p =? 0)%N (Wrap ErrInvalidRequest "code id is required")
  >>? ValidateLabel (ICP_Label p)
  >>? valid_coins (ICP_Funds p)
  >>? bare_admin (ICP_Admin p)
  >>? valid_payload (ICP_Msg p).
Definition InstantiateContract2Proposal_ValidateBasic (p : InstantiateContract2Proposal)
    : option error :=
  validateProposalCommons (IC2P_Title p) (IC2P_Description p)
  >>? masked_run_as (IC2P_RunAs p)
  >>? bare_admin (IC2P_Admin p)
  >>? errIf (IC2P_CodeID p =? 0)%N (Wrap ErrInvalidRequest "code id is required")
  >>? ValidateLabel (IC2P_Label p)
  >>? valid_payload (IC2P_Msg p)
  >>? valid_coins (IC2P_Funds p)
  >>? errIf (Nat.eqb (length (IC2P_Salt p)) 0) (Wrap ErrInvalidRequest "salt is required").
Definition StoreAndInstantiateContractProposal_ValidateBasic
    (p : StoreAndInstantiateContractProposal) : option error :=
  validateProposalCommons (SIP_Title p) (SIP_Description p)
  >>? valid_address "run as" (SIP_RunAs p)
  >>? proposal_code (SIP_WASMByteCode p)
  >>? WrapOpt (ValidateVerificationInfo (SIP_Source p) (SIP_Builder p) (SIP_CodeHash p))
        "code info"
  >>? valid_permission (SIP_InstantiatePermission p)
  >>? ValidateLabel (SIP_Label p)
  >>? valid_coins (SIP_Funds p)
  >>? bare_admin (SIP_Admin p)
  >>? valid_payload (SIP_Msg p).
Definition MigrateContractProposal_ValidateBasic (p : MigrateContractProposal) : option error :=
  validateProposalCommons (MCP_Title p) (MCP_Description p)
  >>? errIf (MCP_CodeID p =? 0)%N (Wrap ErrInvalidRequest "code_id is required")
  >>? valid_address "contract" (MCP_Contract p)
  >>? valid_payload (MCP_Msg p).
Definition SudoContractProposal_ValidateBasic (p : SudoContractProposal) : option error :=
  validateProposalCommons (SuP_Title p) (SuP_Description p)
  >>? valid_address "contract" (SuP_Contract p)
  >>? valid_payload (SuP_Msg p).
Definition ExecuteContractProposal_ValidateBasic (p : ExecuteContractProposal) : option error :=
  validateProposalCommons (ECP_Title p) (ECP_Description p)
  >>? valid_address "contract" (ECP_Contract p)
  >>? valid_address "run as" (ECP_RunAs p)
  >>? valid_coins (ECP_Funds p)
  >>? valid_payload (ECP_Msg p).
Definition UpdateAdminProposal_ValidateBasic (p : UpdateAdminProposal) : option error :=
  validateProposalCommons (UAP_Title p) (UAP_Description p)
  >>? valid_address "contract" (UAP_Contract p)
  >>? valid_address "new admin" (UAP_NewAdmin p).
Definition ClearAdminProposal_ValidateBasic (p : ClearAdminProposal) : option error :=
  validateProposalCommons (CAP_Title p) (CAP_Description p)
  >>? valid_address "contract" (CAP_Contract p).
Definition PinCodesProposal_ValidateBasic (p : PinCodesProposal) : option error :=
  validateProposalCommons (PCP_Title p) (PCP_Description p)
  >>? errIf (Nat.eqb (length (PCP_CodeIDs p)) 0) (Wrap ErrEmpty "code ids").
Definition UnpinCodesProposal_ValidateBasic (p : UnpinCodesProposal) : option error :=
  validateProposalCommons (UCP_Title p) (UCP_Description p)
  >>? errIf (Nat.eqb (length (UCP_CodeIDs p)) 0) (Wrap ErrEmpty "code ids").

(** The loop over the updates, with the code ids seen so far. *)
Fixpoint validate_updates (dedup : gset N) (updates : list AccessConfigUpdate) : option error :=
  match updates with
  | [] => None
  | u :: updates' =>
      errIf (bool_decide (ACU_CodeID u ∈ dedup)) (Wrap ErrDuplicate "duplicate code: %d")
      >>? WrapOpt (AccessConfig_ValidateBasic (ACU_InstantiatePermission u))
            "instantiate permission"
      >>? validate_updates ({[ACU_CodeID u]} ∪ dedup) updates'
  end.
Definition UpdateInstantiateConfigProposal_ValidateBasic (p : UpdateInstantiateConfigProposal)
    : option error :=
  validateProposalCommons (UIP_Title p) (UIP_Description p)
  >>? errIf (Nat.eqb (length (UIP_AccessConfigUpdates p)) 0) (Wrap ErrEmpty "code updates")
  >>? validate_updates ∅ (UIP_AccessConfigUpdates p).

(** ** Handlers *)

Context (k : KeeperConfig).
Context (json_QueryRequest : bytes -> QueryRequest + string).
Context (HandleQuery : Context -> bytes -> QueryRequest -> M bytes).
Context (handler : Context -> bytes -> string -> list SubMsg -> option bytes -> M (option bytes)).

(** NewGovPermissionKeeper *)
Local Abbreviation policy := PermissionedKeeper.NewGovPermissionKeeper.
Local Abbreviation Create := (PermissionedKeeper.Create k policy).
Local Abbreviation Instantiate :=
  (PermissionedKeeper.Instantiate k json_QueryRequest HandleQuery handler policy).
Local Abbreviation Instantiate2 :=
  (PermissionedKeeper.Instantiate2 k json_QueryRequest HandleQuery handler policy).
Local Abbreviation Execute :=
  (PermissionedKeeper.Execute k json_QueryRequest HandleQuery handler).
Local Abbreviation Migrate :=
  (PermissionedKeeper.Migrate k json_QueryRequest HandleQuery handler policy).
Local Abbreviation Sudo := (PermissionedKeeper.Sudo k json_QueryRequest HandleQuery handler).

Definition emit_result (data : option bytes) : M unit :=
  emit_event EventTypeGovContractResult
    [(AttributeKeyResultDataHex, hex_encode (default [] data))].

Definition handleStoreCodeProposal (ctx : Context) (p : StoreCodeProposal) : M unit :=
  _ ← check (StoreCodeProposal_ValidateBasic p);
  runAsAddr ← MsgServer.parse_address "run as address" (SCP_RunAs p);
  '(codeID, checksum) ← Create ctx (Some runAsAddr) (SCP_WASMByteCode p)
                          (SCP_InstantiatePermission p);
  let codeHash := default [] (SCP_CodeHash p) in
  _ ← guard_err (negb (Nat.eqb (length codeHash) 0) && negb (bool_decide (checksum = codeHash)))
        (EText "code-hash mismatch: %X, checksum: %X");
  if SCP_UnpinCode p then mret tt else PermissionedKeeper.PinCode codeID.

Definition handleInstantiateProposal (ctx : Context) (p : InstantiateContractProposal) : M unit :=
  _ ← check (InstantiateContractProposal_ValidateBasic p);
  runAsAddr ← MsgServer.parse_address "run as address" (ICP_RunAs p);
  adminAddr ← MsgServer.parse_admin (ICP_Admin p);
  '(_, data) ← Instantiate ctx (ICP_CodeID p) (Some runAsAddr) adminAddr (ICP_Msg p)
                 (ICP_Label p) (ICP_Funds p);
  emit_result data.
Definition handleInstantiate2Proposal (ctx : Context) (p : InstantiateContract2Proposal)
    : M unit :=
  _ ← check (InstantiateContract2Proposal_ValidateBasic p);
  runAsAddr ← MsgServer.parse_address "run as address" (IC2P_RunAs p);
  adminAddr ← MsgServer.parse_admin (IC2P_Admin p);
  '(_, data) ← Instantiate2 ctx (IC2P_CodeID p) (Some runAsAddr) adminAddr (IC2P_Msg p)
                 (IC2P_Label p) (IC2P_Funds p) (IC2P_Salt p) (IC2P_FixMsg p);
  emit_result data.
Definition handleStoreAndInstantiateContractProposal (ctx : Context)
    (p : StoreAndInstantiateContractProposal) : M unit :=
  _ ← check (StoreAndInstantiateContractProposal_ValidateBasic p);
  runAsAddr ← MsgServer.parse_address "run as address" (SIP_RunAs p);
  adminAddr ← MsgServer.parse_admin (SIP_Admin p);
  '(codeID, checksum) ← Create ctx (Some runAsAddr) (SIP_WASMByteCode p)
                          (SIP_InstantiatePermission p);
  _ ← guard_err (match SIP_CodeHash p with
                 | Some codeHash => negb (bool_decide (checksum = codeHash))
                 | None => false
                 end) (Wrap (EText "code-hash mismatch: %X, checksum: %X") "code-hash mismatch");
  _ ← (if SIP_UnpinCode p then mret tt else PermissionedKeeper.PinCode codeID);
  '(_, data) ← Instantiate ctx codeID (Some runAsAddr) adminAddr (SIP_Msg p)
                 (SIP_Label p) (SIP_Funds p);
  emit_result data.
Definition handleMigrateProposal (ctx : Context) (p : MigrateContractProposal) : M unit :=
  _ ← check (MigrateContractProposal_ValidateBasic p);
  contractAddr ← MsgServer.parse_address "contract" (MCP_Contract p);
  data ← Migrate ctx contractAddr (Some contractAddr) (MCP_CodeID p) (MCP_Msg p);
  emit_result data.
Definition handleSudoProposal (ctx : Context) (p : SudoContractProposal) : M unit :=
  _ ← check (SudoContractProposal_ValidateBasic p);
  contractAddr ← MsgServer.parse_address "contract" (SuP_Contract p);
  data ← Sudo ctx contractAddr (SuP_Msg p);
  emit_result data.
Definition handleExecuteProposal (ctx : Context) (p : ExecuteContractProposal) : M unit :=
  _ ← check (ExecuteContractProposal_ValidateBasic p);
  contractAddr ← MsgServer.parse_address "contract" (ECP_Contract p);
  runAsAddr ← MsgServer.parse_address "run as address" (ECP_RunAs p);
  data ← Execute ctx contractAddr (Some runAsAddr) (ECP_Msg p) (ECP_Funds p);
  emit_result data.
Definition handleUpdateAdminProposal (p : UpdateAdminProposal) : M unit :=
  _ ← check (UpdateAdminProposal_ValidateBasic p);
  contractAddr ← MsgServer.parse_address "contract" (UAP_Contract p);
  newAdminAddr ← MsgServer.parse_address "run as address" (UAP_NewAdmin p);
  PermissionedKeeper.UpdateContractAdmin policy contractAddr None (Some newAdminAddr).
Definition handleClearAdminProposal (p : ClearAdminProposal) : M unit :=
  _ ← check (ClearAdminProposal_ValidateBasic p);
  contractAddr ← MsgServer.parse_address "contract" (CAP_Contract p);
  PermissionedKeeper.ClearContractAdmin policy contractAddr None.
Definition handlePinCodesProposal (p : PinCodesProposal) : M unit :=
  _ ← check (PinCodesProposal_ValidateBasic p);
  MsgServer.for_each (fun v => wrap_err "code id: %d" (PermissionedKeeper.PinCode v))
    (PCP_CodeIDs p).
Definition handleUnpinCodesProposal (p : UnpinCodesProposal) : M unit :=
  _ ← check (UnpinCodesProposal_ValidateBasic p);
  MsgServer.for_each (fun v => wrap_err "code id: %d" (PermissionedKeeper.UnpinCode v))
    (UCP_CodeIDs p).
Definition handleUpdateInstantiateConfigProposal (p : UpdateInstantiateConfigProposal)
    : M unit :=
  _ ← check (UpdateInstantiateConfigProposal_ValidateBasic p);
  MsgServer.for_each (fun u => wrap_err "code id: %d"
    (PermissionedKeeper.SetAccessConfig policy (ACU_CodeID u) None (ACU_InstantiatePermission u)))
    (UIP_AccessConfigUpdates p).

(** The handler; [None] is a nil content. *)
Definition NewLegacyWasmProposalHandler (enabledProposalTypes : list string)
    (ctx : Context) (content : option Content) : M unit :=
  match content with
  | None => fail (Wrap ErrUnknownRequest "content must not be empty")
  | Some content =>
      if negb (bool_decide (ProposalType content ∈ enabledProposalTypes))
      then fail (Wrap ErrUnknownRequest "unsupported wasm proposal content type: %q")
      else match content with
           | CStoreCode c => handleStoreCodeProposal ctx c
           | CInstantiateContract c => handleInstantiateProposal ctx c
           | CInstantiateContract2 c => handleInstantiate2Proposal ctx c
           | CMigrateContract c => handleMigrateProposal ctx c
           | CSudoContract c => handleSudoProposal ctx c
           | CExecuteContract c => handleExecuteProposal ctx c
           | CUpdateAdmin c => handleUpdateAdminProposal c
           | CClearAdmin c => handleClearAdminProposal c
           | CPinCodes c => handlePinCodesProposal c
           | CUnpinCodes c => handleUnpinCodesProposal c
           | CUpdateInstantiateConfig c => handleUpdateInstantiateConfigProposal c
           | CStoreAndInstantiateContract c =>
               handleStoreAndInstantiateContractProposal ctx c
           | COther _ =>
               fail (Wrap ErrUnknownRequest "unrecognized wasm proposal content type: %T")
           end
  end.

End Proposals.

(** ** A proposal keeps the registry coherent *)

(** The code ids of a proposal are uint64. *)
Definition typed_content (c : Content) : Prop :=
  match c with
  | CInstantiateContract p => is_u64 (ICP_CodeID p)
  | CInstantiateContract2 p => is_u64 (IC2P_CodeID p)
  | CMigrateContract p => is_u64 (MCP_CodeID p)
  | CPinCodes p => Forall is_u64 (PCP_CodeIDs p)
  | CUnpinCodes p => Forall is_u64 (UCP_CodeIDs p)
  | CUpdateInstantiateConfig p =>
      Forall (fun u => is_u64 (ACU_CodeID u)) (UIP_AccessConfigUpdates p)
  | _ => True
  end.

Section Refine.
Import Registry.Registry Refinement.Refinement RefineKeeper.RefineKeeper RefineSystem.RefineSystem.
Import Guarantees.Guarantees.
Context `{GasMeters, Modules, KVStorePkg, Bech32, ErrorsMod, UnicodeTables,
  AddressPkg, CoinsPkg, Codecs, Gzip, VerificationPkg}.
Context `{!WasmEngine, !Keepers, !GovModule}.
Context `{!Bech32Laws, !AddressPkgLaws, !CodecsLaws, !WasmEngineLaws}.
Context (k : KeeperConfig).
Context (json_QueryRequest : bytes -> QueryRequest + string).
Context (HandleQuery : Context -> bytes -> QueryRequest -> M bytes).
Context (handler : Context -> bytes -> string -> list SubMsg -> option bytes -> M (option bytes)).
Hypothesis handler_ok : handles k any_policy anyone anyone handler.

Hypothesis query_grows : forall ctx caller r, grows (HandleQuery ctx caller r).

#[local] Hint Resolve fr_ClassicAddressGenerator fr_PredictableAddressGenerator fr_parse_address
  fr_parse_admin fr_pinCode fr_unpinCode fr_setContractAdmin fr_setAccessConfig : frame.
(** What follows does not shrink the store. *)
Lemma proposal_grows_instantiate ctx id c ad m l d gen p :
  (forall ctx id ck, preserves (kv_grows permanent) (gen ctx id ck)) ->
  preserves (kv_grows permanent)
    (Keeper.instantiate k json_QueryRequest HandleQuery handler ctx id c ad m l d gen p).
Proof. apply fr_instantiate; [apply _..|exact query_grows|apply handler_ok]. Qed.
#[local] Hint Resolve proposal_grows_instantiate : frame.
Ltac growing := intros; unfold grows, emit_result, PermissionedKeeper.Instantiate,
  PermissionedKeeper.PinCode, PermissionedKeeper.UnpinCode, PermissionedKeeper.SetAccessConfig;
  frame; try solve [eauto with frame].

#[local] Abbreviation models := (models anyone).
#[local] Abbreviation reach := (reach k any_policy anyone anyone).
#[local] Abbreviation policy := PermissionedKeeper.NewGovPermissionKeeper.

Lemma gov_acts a actor :
  VerifyAddressFormat actor = None ->
  acts (authority k) (propagateGovAuthorization k) any_policy anyone a policy actor.
Proof. intros Hv. split_and!; [by left|done|by left]. Qed.
Lemma wp_run_as what addr σ (Q : bytes -> kvs -> Prop) :
  (forall x, VerifyAddressFormat x = None -> Q x σ) -> wp (MsgServer.parse_address what addr) Q σ.
Proof. intros HQ. apply wp_parse_address. intros x Hx. by eapply HQ, bech32_valid. Qed.

(** Under the policy of governance nobody looks at the caller. *)
Lemma gov_admin_caller addr admin x :
  Keeper.setContractAdmin addr None admin policy = Keeper.setContractAdmin addr (Some x) admin policy.
Proof. done. Qed.
Lemma gov_config_caller id cfg x :
  Keeper.setAccessConfig id None cfg policy = Keeper.setAccessConfig id (Some x) cfg policy.
Proof. done. Qed.

Lemma validate_updates_Forall updates : forall dedup,
  validate_updates dedup updates = None ->
  Forall (fun u => AccessConfig_ValidateBasic (ACU_InstantiatePermission u) = None) updates.
Proof.
  induction updates as [|u us IH]; intros dedup Hv; [done|]. cbn [validate_updates] in Hv.
  rewrite !first_error_None, WrapOpt_None in Hv. constructor; [apply Hv|]. by eapply IH, Hv.
Qed.

Lemma wp_proposal_create ctx p actor code access σ a (Q : N * bytes -> kvs -> Prop) :
  models σ a -> VerifyAddressFormat actor = None -> valid_permission access = None ->
  (forall id hash σ' a', step (authority k) (propagateGovAuthorization k) any_policy anyone a a' ->
     models σ' a' -> is_u64 id -> CodeHash <$> codes a' !! id = Some hash -> Q (id, hash) σ') ->
  (forall x σ', full σ' -> Q x σ') ->
  p = policy ->
  wp (PermissionedKeeper.Create k p ctx (Some actor) code access) Q σ.
Proof.
  intros Hm Hv Hacc HQ Hf ->. unfold PermissionedKeeper.Create.
  eapply (wp_create k any_policy anyone anyone); [exact Hm|by apply gov_acts| |exact HQ|exact Hf].
  by apply valid_permission_access.
Qed.

Lemma wp_emit_result data a σ : reach a σ -> wp (emit_result data) (fun _ => reach a) σ.
Proof. intros Hr. apply wp_quiet; [unfold quiet; frame|done]. Qed.

Context (gov : bytes).
Hypothesis gov_ok : governs (authority k) gov.

Lemma wp_proposal_pin id σ a :
  models σ a -> is_u64 id -> wp (PermissionedKeeper.PinCode id) (fun _ => reach a) σ.
Proof. intros Hm Hid. eapply wp_pinCode; [exact Hm|by left|exact gov_ok|done]. Qed.

Lemma wp_handleStoreCode ctx p σ a :
  models σ a -> wp (handleStoreCodeProposal k ctx p) (fun _ => reach a) σ.
Proof.
  intros Hm. unfold handleStoreCodeProposal. apply wp_bind, wp_check. intros Hv.
  unfold StoreCodeProposal_ValidateBasic in Hv. rewrite !first_error_None in Hv.
  apply wp_bind, wp_run_as. intros actor Ha.
  apply wp_bind. eapply wp_proposal_create; [exact Hm|done|apply Hv| | |done].
  - intros id hash σ' a' S Hm' Hid _. cbv zeta. apply wp_bind, wp_guard. intros _.
    eapply wp_weaken_reach; [by apply rtc_once|].
    destruct (SCP_UnpinCode p); [apply wp_ret; by apply reach_refl|by apply wp_proposal_pin].
  - intros [] σ' Hf. apply wp_reach_full; [growing|done].
Qed.
Lemma wp_handleStoreAndInstantiate ctx p σ a :
  wf_ctx ctx -> models σ a ->
  wp (handleStoreAndInstantiateContractProposal k json_QueryRequest HandleQuery handler ctx p)
    (fun _ => reach a) σ.
Proof.
  intros Hc Hm. unfold handleStoreAndInstantiateContractProposal. apply wp_bind, wp_check. intros Hv.
  unfold StoreAndInstantiateContractProposal_ValidateBasic in Hv. rewrite !first_error_None in Hv.
  apply wp_bind, wp_run_as. intros actor Ha.
  apply wp_bind, wp_quiet; [apply quiet_parse_admin|]. intros admin.
  apply wp_bind. eapply wp_proposal_create; [exact Hm|done|apply Hv| | |done].
  - intros id hash σ' a' S Hm' Hid _. apply wp_bind, wp_guard. intros _.
    eapply wp_weaken_reach; [by apply rtc_once|].
    apply wp_reach_bind; [growing|..].
    { destruct (SIP_UnpinCode p); [apply wp_ret; by apply reach_refl|by apply wp_proposal_pin]. }
    intros _ a2 σ2 _ Hm2. apply wp_reach_bind; [growing|..].
    { apply wp_instantiate; auto using ClassicAddressGenerator_ok, gov_acts; done. }
    intros [] a3 σ3 _ Hm3. by apply wp_emit_result, reach_refl.
  - intros [] σ' Hf. apply wp_reach_full; [growing|done].
Qed.

(** The handlers whose work is one call. *)
Lemma wp_run_and_report {A} (m : M A) (f : A -> M unit) σ a :
  (forall x, grows (f x)) -> (forall x, quiet (f x)) -> wp m (fun _ => reach a) σ ->
  wp (x ← m; f x) (fun _ => reach a) σ.
Proof.
  intros Hg Hf Hm. apply wp_reach_bind; [exact Hg|exact Hm|]. intros x a' σ' _ Hm'.
  apply wp_quiet; [apply Hf|]. intros []. by apply reach_refl.
Qed.
Ltac report := apply wp_run_and_report; [growing|intros; unfold quiet, emit_result; frame|].

Lemma wp_proposal_handler ctx enabled c σ a :
  wf_ctx ctx -> sub_ok any_policy ctx -> models σ a -> typed_content c ->
  wp (NewLegacyWasmProposalHandler k json_QueryRequest HandleQuery handler enabled ctx (Some c))
    (fun _ => reach a) σ.
Proof.
  intros Hc Hs Hm Ht. cbn [NewLegacyWasmProposalHandler].
  destruct (negb (bool_decide (ProposalType c ∈ enabled))); [apply wp_fail|].
  destruct c as [p|p|p|p|p|p|p|p|p|p|p|p|ty]; simpl in Ht.
  - by apply wp_handleStoreCode.
  - unfold handleInstantiateProposal. apply wp_bind, wp_check. intros _.
    apply wp_bind, wp_run_as. intros actor Ha.
    apply wp_bind, wp_quiet; [apply quiet_parse_admin|]. intros admin.
    report.
    apply wp_instantiate; auto using ClassicAddressGenerator_ok, gov_acts; done.
  - unfold handleInstantiate2Proposal. apply wp_bind, wp_check. intros _.
    apply wp_bind, wp_run_as. intros actor Ha.
    apply wp_bind, wp_quiet; [apply quiet_parse_admin|]. intros admin.
    report.
    apply wp_instantiate; auto using PredictableAddressGenerator_ok, gov_acts; done.
  - unfold handleMigrateProposal. apply wp_bind, wp_check. intros _.
    apply wp_bind, wp_run_as. intros addr Ha. report.
    apply wp_migrate; auto using gov_acts; done.
  - unfold handleSudoProposal. apply wp_bind, wp_check. intros _.
    apply wp_bind, wp_run_as. intros addr Ha. report. by apply wp_Sudo.
  - unfold handleExecuteProposal. apply wp_bind, wp_check. intros _.
    do 2 (apply wp_bind, wp_run_as; intros ? ?). report. by apply wp_execute.
  - unfold handleUpdateAdminProposal. apply wp_bind, wp_check. intros _.
    do 2 (apply wp_bind, wp_run_as; intros ? ?). unfold PermissionedKeeper.UpdateContractAdmin.
    rewrite (gov_admin_caller _ _ gov). apply wp_setContractAdmin; [done|].
    by eapply gov_acts, bech32_valid.
  - unfold handleClearAdminProposal. apply wp_bind, wp_check. intros _.
    apply wp_bind, wp_run_as; intros ? ?. unfold PermissionedKeeper.ClearContractAdmin.
    rewrite (gov_admin_caller _ _ gov). apply wp_setContractAdmin; [done|].
    by eapply gov_acts, bech32_valid.
  - unfold handlePinCodesProposal. apply wp_bind, wp_check. intros _.
    apply (wp_for_each _ _ _ _ _ is_u64 _ gov); [growing| |done|done|by left]. intros. wp_step. by apply wp_proposal_pin.
  - unfold handleUnpinCodesProposal. apply wp_bind, wp_check. intros _.
    apply (wp_for_each _ _ _ _ _ is_u64 _ gov); [growing| |done|done|by left]. intros. wp_step.
    eapply wp_unpinCode; [done|by left|exact gov_ok|done].
  - unfold handleUpdateInstantiateConfigProposal. apply wp_bind, wp_check. intros Hv.
    unfold UpdateInstantiateConfigProposal_ValidateBasic in Hv. rewrite !first_error_None in Hv.
    destruct Hv as (_ & _ & Hv%validate_updates_Forall).
    apply (wp_for_each _ _ _ _ _ (fun u => is_u64 (ACU_CodeID u)
      /\ AccessConfig_ValidateBasic (ACU_InstantiatePermission u) = None) _ gov); [growing| |by apply Forall_and|done|by left].
    intros u σ' a' [Hu Hcfg] Hm' _. wp_step. unfold PermissionedKeeper.SetAccessConfig.
    rewrite (gov_config_caller _ _ gov). apply wp_setAccessConfig; [done| |done..].
    by eapply gov_acts, bech32_valid.
  - by apply wp_handleStoreAndInstantiate.
  - apply wp_fail.
Qed.

(** What an accepted upload leaves in the store. *)
Definition uploaded (p : StoreCodeProposal) (σ : kvs) (id : N) (info : CodeInfo) : Prop :=
  σ !! GetCodeKey id = Some (marshal info)
  /\ (forall hash, SCP_CodeHash p = Some hash -> hash <> [] -> CodeHash info = hash)
  /\ (SCP_UnpinCode p = false -> σ !! GetPinnedCodeIndexPrefix id = Some [Byte.x01]).

Lemma wp_store_code_checked ctx p σ a :
  models σ a ->
  wp (handleStoreCodeProposal k ctx p)
    (fun _ σ' => ~ full σ' -> exists id info, uploaded p σ' id info) σ.
Proof.
  intros Hm. unfold handleStoreCodeProposal. apply wp_bind, wp_check. intros Hv.
  unfold StoreCodeProposal_ValidateBasic in Hv. rewrite !first_error_None in Hv.
  apply wp_bind, wp_run_as. intros actor Ha.
  apply wp_bind. eapply wp_proposal_create; [exact Hm|done|apply Hv| | |done].
  2: { intros [] σ' Hf. eapply wp_mono; [apply wp_full; [growing|exact Hf]|done]. }
  intros id hash σ' a' _ (Hr & C & St & _) Hid Hc. cbv zeta. apply wp_bind, wp_guard.
  intros Hh%andb_false_iff. apply fmap_Some in Hc as (info & Hi & ->).
  assert (forall h, SCP_CodeHash p = Some h -> h <> [] -> CodeHash info = h) as Hhash.
  { intros h E Hne. rewrite E in Hh. simpl in Hh. destruct Hh as [Hh|Hh].
    - by destruct h.
    - by apply negb_false_iff, bool_decide_eq_true in Hh. }
  destruct (SCP_UnpinCode p) eqn:Hu.
  - apply wp_ret. intros _. exists id, info. split_and!; [|done|by rewrite Hu].
    etrans; [apply (Hr (KCode id)); done|]. cbn [encode]. by rewrite Hi.
  - eapply (GenesisRefine.wp_pin id σ' a' info); [done..|by eapply sto_codes|]. intros σ2 Hr2 _.
    exists id, info. split_and!; [|done|].
    + etrans; [apply (Hr2 (KCode id)); done|]. cbn [encode put_pinned codes]. by rewrite Hi.
    + intros _. etrans; [apply (Hr2 (KPinned id)); done|]. cbn [encode put_pinned pinned].
      by rewrite bool_decide_true by set_solver.
Qed.

(** A store-code proposal that passes has stored its code: the record is
    there under a code id, its checksum is the code hash the voters saw, if
    the proposal named one, and it is pinned unless the proposal said not
    to. *)
Theorem store_code_proposal_checked ctx p s a s' :
  models (kv s) a ->
  handleStoreCodeProposal k ctx p s = (Ret tt, s') -> ~ full (kv s') ->
  exists id info, uploaded p (kv s') id info.
Proof. intros Hm E. by eapply (wp_store_code_checked ctx p (kv s) a Hm). Qed.

End Refine.

(** *** The assembled module *)

Section System.
Import Registry.Registry Refinement.Refinement RefineKeeper.RefineKeeper RefineSystem.RefineSystem.
Import Guarantees.Guarantees Encoders.Encoders Messenger.Messenger.
Context `{GasMeters, Modules, KVStorePkg, Bech32, ErrorsMod, UnicodeTables,
  AddressPkg, CoinsPkg, Codecs, Gzip, VerificationPkg}.
Context `{!WasmEngine, !Keepers, !ICS4, !CoinConversion, !TransferPort, !AnyUnpacker,
  !MsgCodec, !QueryKeepers, !IBCEngine, !IBCCore, !AppRouter, !GovModule}.
Context `{!Bech32Laws, !AddressPkgLaws, !CodecsLaws, !WasmEngineLaws, !IBCEngineLaws, !MsgCodecLaws,
  !AnyUnpackerLaws}.
Context (k : KeeperConfig).
Context (json_QueryRequest : bytes -> QueryRequest + string).

Definition Pass (depth : nat) (enabled : list string) : Context -> option Content -> M unit :=
  NewLegacyWasmProposalHandler k json_QueryRequest (System.HandleQuery k json_QueryRequest)
    (System.response_handler k json_QueryRequest depth) enabled.

(** C16: a proposal that passes, whatever it contains and whatever the
    contracts it runs do, takes a store that represents a coherent registry to
    one that does, unless the store has used up the 64-bit code ids or history
    positions: reached by steps of the specification, so no code and no
    contract is lost and no history is rewritten by governance either. *)
Theorem proposal_refines depth enabled ctx c gov s a s' :
  acts_for anyone -> wf_ctx ctx -> typed_content c -> governs (authority k) gov ->
  models anyone (kv s) a ->
  Pass depth enabled ctx (Some c) s = (Ret tt, s') -> ~ full (kv s') ->
  exists a', steps (authority k) (propagateGovAuthorization k) any_policy anyone a a'
    /\ models anyone (kv s') a'.
Proof.
  intros Hr Hc Ht Hg Hm E Hf.
  assert (handles k any_policy anyone anyone (System.response_handler k json_QueryRequest depth)) as Hh
    by (by apply response_handler_ok).
  assert (forall ctx caller r, grows (System.HandleQuery k json_QueryRequest ctx caller r)) as Hq
    by (intros; by apply fr_HandleQuery; apply _).
  destruct (wp_proposal_handler k _ _ _ Hh Hq gov Hg ctx enabled c (kv s) a Hc I Hm Ht s tt s' eq_refl E); done.
Qed.

End System.

End Proposals.
