(* ===== verification/Total.v ===== *)
(** Total correctness of keeper code in a context that is not limited in gas
    and whose store works, as in an upgrade handler and at genesis: the code
    returns, with what store. The partial counterpart, for transactions that
    may run out of gas at any access, is [wp]. *)
From S2P Require Import Prelude Errors GoStrings Types Proto Keys VMTypes Policy GasRegister Chain Logic Wp Store.
Import GoStrings Keys Store.Store.
Open Scope wasm_scope.

(** Every access to the store succeeds; only the meter changes. *)
Class Unmetered `{GasMeters, Modules, KVStorePkg} : Prop :=
  unmetered op s : exists mt, kv_access op s = (Ret tt, set_meter mt s).

Section Total.
Context `{GasMeters, Modules, KVStorePkg}.

(** [m] returns on every state with the store [σ], with a value and a store
    in [Q]. *)
Definition twp {A} (m : M A) (Q : A -> kvs -> Prop) (σ : kvs) : Prop :=
  forall s, kv s = σ -> exists a s', m s = (Ret a, s') /\ Q a (kv s').

Lemma twp_wp {A} (m : M A) Q σ : twp m Q σ -> wp m Q σ.
Proof. intros Hm s a s' Hs E. destruct (Hm s Hs) as (b & s2 & E' & HQ). by rewrite E in E'; simplify_eq. Qed.

Lemma twp_mono {A} (m : M A) (Q Q' : A -> kvs -> Prop) σ :
  twp m Q σ -> (forall a σ', Q a σ' -> Q' a σ') -> twp m Q' σ.
Proof. intros Hm HQ s Hs. destruct (Hm s Hs) as (a & s' & E & Ha). exists a, s'. auto. Qed.
Lemma twp_ret {A} (a : A) (Q : A -> kvs -> Prop) σ : Q a σ -> twp (mret a) Q σ.
Proof. intros HQ s <-. by exists a, s. Qed.
Lemma twp_lift {A} (o : outcome A) a (Q : A -> kvs -> Prop) σ :
  o = Ret a -> Q a σ -> twp (lift o) Q σ.
Proof. intros -> HQ s <-. by exists a, s. Qed.
Lemma twp_bind {A B} (m : M A) (f : A -> M B) Q σ :
  twp m (fun a => twp (f a) Q) σ -> twp (m ≫= f) Q σ.
Proof.
  intros Hm s Hs. destruct (Hm s Hs) as (a & s1 & E & Hf).
  destruct (Hf s1 eq_refl) as (b & s2 & E2 & HQ). exists b, s2. split; [|done].
  unfold mbind, M_bind. by rewrite E.
Qed.
Lemma twp_must {A} (m : M A) Q σ : twp m Q σ -> twp (must m) Q σ.
Proof.
  intros Hm s Hs. destruct (Hm s Hs) as (a & s' & E & HQ). exists a, s'. unfold must. by rewrite E.
Qed.
Lemma twp_map_err {A} f (m : M A) Q σ : twp m Q σ -> twp (map_err f m) Q σ.
Proof.
  intros Hm s Hs. destruct (Hm s Hs) as (a & s' & E & HQ). exists a, s'. unfold map_err. by rewrite E.
Qed.
Lemma twp_wrap_err {A} t (m : M A) Q σ : twp m Q σ -> twp (wrap_err t m) Q σ.
Proof. apply twp_map_err. Qed.
Lemma twp_gets_kv {A} (g : kvs -> A) (Q : A -> kvs -> Prop) σ :
  Q (g σ) σ -> twp (gets (fun s => g (kv s))) Q σ.
Proof. intros HQ s <-. by exists (g (kv s)), s. Qed.
Lemma twp_guard (b : bool) e (Q : unit -> kvs -> Prop) σ :
  b = false -> Q tt σ -> twp (guard_err b e) Q σ.
Proof. intros -> HQ. by apply twp_ret. Qed.

(** *** The store *)

Context `{!Unmetered}.

Lemma twp_kv_access op (Q : unit -> kvs -> Prop) σ : Q tt σ -> twp (kv_access op) Q σ.
Proof. intros HQ s <-. destruct (unmetered op s) as [mt E]. by exists tt, (set_meter mt s). Qed.
Lemma twp_kv_get (k : bytes) (Q : option bytes -> kvs -> Prop) σ :
  Q (σ !! k) σ -> twp (kv_get k) Q σ.
Proof.
  intros HQ. apply twp_bind, (twp_gets_kv (fun σ => σ !! k)), twp_bind, twp_kv_access.
  by apply twp_ret.
Qed.
Lemma twp_kv_has (k : bytes) (Q : bool -> kvs -> Prop) σ :
  Q (bool_decide (is_Some (σ !! k))) σ -> twp (kv_has k) Q σ.
Proof.
  intros HQ. apply twp_bind, twp_kv_access. intros s <-. by eexists _, s.
Qed.
Lemma twp_kv_set (k v : bytes) (Q : unit -> kvs -> Prop) σ :
  Q tt (<[k := v]> σ) -> twp (kv_set k v) Q σ.
Proof.
  intros HQ. apply twp_bind, twp_kv_access. intros s <-. by exists tt, (set_kv <[k := v]> s).
Qed.

(** A loop over the entries under a prefix; the invariant speaks of the
    entries that are left. *)
Lemma twp_iter_loop {A} (I : list (bytes * bytes) -> A -> kvs -> Prop)
    (body : bytes -> bytes -> A -> M (A * bool)) (Q : A -> kvs -> Prop) :
  (forall k v l acc σ, I ((k, v) :: l) acc σ ->
     twp (body k v acc) (fun r σ' => r.2 = false /\ I l r.1 σ') σ) ->
  (forall acc σ, I [] acc σ -> Q acc σ) ->
  forall l acc σ, I l acc σ -> twp (iter_loop l body acc) Q σ.
Proof.
  intros Hb HQ l. induction l as [|[k v] l IH]; intros acc σ HI; cbn [iter_loop].
  { apply twp_ret. auto. }
  apply twp_bind. eapply twp_mono; [by apply Hb|]. intros [acc' stop] σ' [Hs HI']. simpl in Hs.
  subst stop. apply twp_bind, twp_must, twp_kv_access. by apply IH.
Qed.
Lemma twp_iterate {A} p (I : list (bytes * bytes) -> A -> kvs -> Prop)
    (body : bytes -> bytes -> A -> M (A * bool)) acc (Q : A -> kvs -> Prop) σ :
  (forall k v l acc σ, I ((k, v) :: l) acc σ ->
     twp (body k v acc) (fun r σ' => r.2 = false /\ I l r.1 σ') σ) ->
  (forall acc σ, I [] acc σ -> Q acc σ) ->
  I (kv_prefixed σ p) acc σ -> twp (iterate p None None false body acc) Q σ.
Proof.
  intros Hb HQ HI. unfold iterate. apply twp_bind, (twp_gets_kv (kv_iterator _ _ _ _)).
  rewrite kv_iterator_all. apply twp_bind, twp_must, twp_kv_access. by apply (twp_iter_loop I).
Qed.

(** *** Records *)

Lemma twp_MustMarshal {A} `{Codec A} (x : A) (Q : bytes -> kvs -> Prop) σ :
  (blen (marshal x) < Proto.two63)%N -> Q (marshal x) σ -> twp (MustMarshal x) Q σ.
Proof. intros Hl HQ. unfold MustMarshal. rewrite (proj2 (N.ltb_lt _ _) Hl). by apply twp_ret. Qed.
Lemma twp_MustUnmarshal {A} `{CodecLaws A} (x : A) (Q : A -> kvs -> Prop) σ :
  codec_wf x -> (blen (marshal x) < Proto.two63)%N -> Q x σ -> twp (MustUnmarshal (marshal x)) Q σ.
Proof.
  intros Hwf Hl HQ. unfold MustUnmarshal. rewrite codec_roundtrip by done. by apply twp_ret.
Qed.

End Total.

(** ** The whole state *)

(** [m] returns on the state [s], with a value and a state in [Q]. *)
Section StateTotal.
Context `{GasMeters, Modules, KVStorePkg}.

Definition swp {A} (m : M A) (Q : A -> State -> Prop) (s : State) : Prop :=
  exists a s', m s = (Ret a, s') /\ Q a s'.

Lemma swp_mono {A} (m : M A) (Q Q' : A -> State -> Prop) s :
  swp m Q s -> (forall a s', Q a s' -> Q' a s') -> swp m Q' s.
Proof. intros (a & s' & E & HQ) Hm. exists a, s'. auto. Qed.
Lemma swp_ret {A} (a : A) (Q : A -> State -> Prop) s : Q a s -> swp (mret a) Q s.
Proof. by exists a, s. Qed.
Lemma swp_bind {A B} (m : M A) (f : A -> M B) Q s :
  swp m (fun a => swp (f a) Q) s -> swp (m ≫= f) Q s.
Proof.
  intros (a & s1 & E & b & s2 & E2 & HQ). exists b, s2. unfold mbind, M_bind. by rewrite E.
Qed.
Lemma swp_must {A} (m : M A) Q s : swp m Q s -> swp (must m) Q s.
Proof. intros (a & s' & E & HQ). exists a, s'. unfold must. by rewrite E. Qed.
Lemma swp_wrap_err {A} t (m : M A) Q s : swp m Q s -> swp (wrap_err t m) Q s.
Proof. intros (a & s' & E & HQ). exists a, s'. unfold wrap_err, map_err. by rewrite E. Qed.
Lemma swp_lift {A} (o : outcome A) a (Q : A -> State -> Prop) s :
  o = Ret a -> Q a s -> swp (lift o) Q s.
Proof. intros -> HQ. by exists a, s. Qed.
Lemma swp_gets {A} (g : State -> A) (Q : A -> State -> Prop) s : Q (g s) s -> swp (gets g) Q s.
Proof. by exists (g s), s. Qed.
Lemma swp_modify g (Q : unit -> State -> Prop) s : Q tt (g s) -> swp (modify g) Q s.
Proof. by exists tt, (g s). Qed.

Context `{!Unmetered}.

Lemma swp_kv_access op (Q : unit -> State -> Prop) s :
  (forall mt, Q tt (set_meter mt s)) -> swp (kv_access op) Q s.
Proof. intros HQ. destruct (unmetered op s) as [mt E]. by exists tt, (set_meter mt s). Qed.
Lemma swp_kv_get k (Q : option bytes -> State -> Prop) s :
  (forall mt, Q (kv s !! k) (set_meter mt s)) -> swp (kv_get k) Q s.
Proof.
  intros HQ. apply swp_bind, (swp_gets (fun s => kv s !! k)), swp_bind, swp_kv_access.
  intros mt. by apply swp_ret.
Qed.

(** A loop over the entries under a prefix. *)
Lemma swp_iterate {A} p (I : list (bytes * bytes) -> A -> State -> Prop)
    (body : bytes -> bytes -> A -> M (A * bool)) acc (Q : A -> State -> Prop) s :
  (forall l acc s mt, I l acc s -> I l acc (set_meter mt s)) ->
  (forall k v l acc s, I ((k, v) :: l) acc s ->
     swp (body k v acc) (fun r s' => r.2 = false /\ I l r.1 s') s) ->
  (forall acc s, I [] acc s -> Q acc s) ->
  I (kv_prefixed (kv s) p) acc s -> swp (iterate p None None false body acc) Q s.
Proof.
  intros Hmt Hb HQ HI. unfold iterate.
  apply swp_bind, (swp_gets (fun s => kv_iterator p None None false (kv s))).
  rewrite kv_iterator_all. apply swp_bind, swp_must, swp_kv_access. intros mt.
  apply (Hmt _ _ _ mt) in HI. revert HI. generalize (set_meter mt s). revert acc.
  generalize (kv_prefixed (kv s) p) as l.
  induction l as [|[k v] l IH]; intros acc s1 HI; cbn [iter_loop]; [apply swp_ret; auto|].
  apply swp_bind. eapply swp_mono; [by apply Hb|]. intros [acc' stop] s2 [Hs HI']. simpl in Hs.
  subst stop. apply swp_bind, swp_must, swp_kv_access. intros mt'. apply IH. by apply Hmt.
Qed.

End StateTotal.

(** One step of a total symbolic execution. *)
Ltac twp_step :=
  cbv zeta; cbv beta;
  lazymatch goal with
  | |- twp (mbind _ _) _ _ => apply twp_bind
  | |- twp (mret _) _ _ => apply twp_ret
  | |- twp (must _) _ _ => apply twp_must
  | |- twp (wrap_err _ _) _ _ => apply twp_wrap_err
  | |- twp (map_err _ _) _ _ => apply twp_map_err
  | |- twp (kv_access _) _ _ => apply twp_kv_access
  | |- twp (kv_get _) _ _ => apply twp_kv_get
  | |- twp (kv_has _) _ _ => apply twp_kv_has
  | |- twp (kv_set _ _) _ _ => apply twp_kv_set
  | |- swp (mbind _ _) _ _ => apply swp_bind
  | |- swp (mret _) _ _ => apply swp_ret
  | |- swp (must _) _ _ => apply swp_must
  | |- swp (wrap_err _ _) _ _ => apply swp_wrap_err
  | |- swp (kv_get _) _ _ => apply swp_kv_get; intros ?
  end.
