(* ===== verification/Querier.v ===== *)
(** The gRPC query service of the module (x/wasm/keeper/querier.go): lookups of
    codes and contracts, listings page by page, raw and smart queries of
    contracts, and the address of a contract to be. *)
From S2P Require Import Prelude Errors GoStrings Json Types Proto Keys VMTypes Policy GasRegister Chain Logic Wp Engine Store Registry Events Keeper Dispatcher Msgs MsgServer KeeperFrame Encoders Messenger QueryPlugins System SystemFrame Refinement RefineKeeper Genesis Total.
Import GoStrings Json Keys Store.Store Registry.Registry.
Open Scope wasm_scope.

(** ** Pagination of the SDK (types/query) *)

Record PageRequest := mkPageRequest {
  Page_Key : bytes;
  Page_Offset : N;
  Page_Limit : N;
  Page_CountTotal : bool;
  Page_Reverse : bool;
}.
Record PageResponse := mkPageResponse { Page_NextKey : bytes; Page_Total : N }.

(** query.FilteredPaginate on the prefix store with the given prefix. The
    callback gets key, value and whether to accumulate, and returns whether
    the entry counts; the slice it appends to is passed through. *)
Class Pagination `{GasMeters, Modules, KVStorePkg} := {
  DefaultLimit : N;
  FilteredPaginate {A} (prefix : bytes) (req : PageRequest)
    (onResult : bytes -> bytes -> bool -> A -> outcome (A * bool)) (acc : A)
    : M (A * PageResponse);
}.

(** The entries from the key of a page request on. *)
Definition entries_from (key : bytes) (l : list (bytes * bytes)) : list (bytes * bytes) :=
  if Nat.eqb (length key) 0 then l else filter (fun e => bytes_leb key e.1 = true) l.
Fixpoint visit {A} (onResult : bytes -> bytes -> bool -> A -> outcome (A * bool))
    (l : list (bytes * bytes)) (acc : A) : outcome A :=
  match l with
  | [] => Ret acc
  | (k, v) :: l' => obind (onResult k v true acc) (fun r => visit onResult l' r.1)
  end.

(** The documented behaviour without offset and count, in the order of the
    keys: the callback sees at most [Limit] entries from the key on to accumulate, and the response has
    the key of the entry after them, if there is one. *)
Class PaginationLaws `{Pagination} : Prop := {
  DefaultLimit_pos : (0 < DefaultLimit)%N;
  paginate_quiet {A} p req (f : bytes -> bytes -> bool -> A -> outcome (A * bool)) acc :
    quiet (FilteredPaginate p req f acc);
  paginate_entries `{!Unmetered} {A} p req (f : bytes -> bytes -> bool -> A -> outcome (A * bool))
      acc acc' s :
    Page_Offset req = 0%N -> Page_CountTotal req = false -> Page_Reverse req = false ->
    (0 < Page_Limit req < Proto.two63)%N ->
    (forall k v acc, f k v false acc = Ret (acc, true)) ->
    (forall k v acc r, f k v true acc = Ret r -> r.2 = true) ->
    let l := entries_from (Page_Key req) (kv_prefixed (kv s) p) in
    visit f (take (N.to_nat (Page_Limit req)) l) acc = Ret acc' ->
    exists mt, FilteredPaginate p req f acc s
      = (Ret (acc', mkPageResponse (default [] (fst <$> l !! N.to_nat (Page_Limit req))) 0),
         set_meter mt s);
}.

(** ** encoding/hex.DecodeString *)

Definition hex_value (b : byte) : option N :=
  let n := Byte.to_N b in
  if ((48 <=? n) && (n <=? 57))%N then Some (n - 48)%N
  else if ((97 <=? n) && (n <=? 102))%N then Some (n - 87)%N
  else if ((65 <=? n) && (n <=? 70))%N then Some (n - 55)%N
  else None.
Fixpoint hex_decode (bs : bytes) : bytes + error :=
  match bs with
  | [] => inl []
  | [a] =>
      match hex_value a with
      | None => inr (EText "encoding/hex: invalid byte: %#U")
      | Some _ => inr (EText "encoding/hex: odd length hex string")
      end
  | a :: b :: bs' =>
      match hex_value a, hex_value b with
      | Some x, Some y =>
          match hex_decode bs' with
          | inl r => inl (byte_of_N (x * 16 + y) :: r)
          | inr e => inr e
          end
      | _, _ => inr (EText "encoding/hex: invalid byte: %#U")
      end
  end.
Definition hex_DecodeString (s : string) : bytes + error := hex_decode (bytes_of_string s).

(** ** Requests and responses (query.pb.go) *)

Record QueryAddressPage := mkQueryAddressPage {     (* ContractHistory, AllContractState, ContractsByCreator *)
  QA_Address : string; QA_Pagination : option PageRequest }.
Record QueryCodePage := mkQueryCodePage {           (* ContractsByCode *)
  QC_CodeId : N; QC_Pagination : option PageRequest }.
Record QueryContractState := mkQueryContractState { (* RawContractState, SmartContractState *)
  QS_Address : string; QS_QueryData : option bytes }.
Record QueryBuildAddressRequest := mkQueryBuildAddressRequest {
  QB_CodeHash : string; QB_CreatorAddress : string; QB_Salt : string; QB_InitArgs : option bytes }.

Record CodeInfoResponse := mkCodeInfoResponse {
  CI_CodeID : N;
  CI_Creator : string;
  CI_DataHash : bytes;
  CI_InstantiatePermission : AccessConfig;
}.

(** wasmvmtypes.WasmLimits and its JSON *)
Record WasmLimits := mkWasmLimits {
  InitialMemoryLimitPages : option N;
  TableSizeLimitElements : option N;
  MaxImports : option N;
  MaxFunctions : option N;
  MaxFunctionParams : option N;
  MaxTotalFunctionParams : option N;
  MaxFunctionResults : option N;
}.
Definition json_WasmLimits (l : WasmLimits) : json :=
  let member name (v : option N) :=
    match v with None => [] | Some n => [jfield name (jnumber n)] end in
  JObject (member "initial_memory_limit_pages" (InitialMemoryLimitPages l)
    ++ member "table_size_limit_elements" (TableSizeLimitElements l)
    ++ member "max_imports" (MaxImports l) ++ member "max_functions" (MaxFunctions l)
    ++ member "max_function_params" (MaxFunctionParams l)
    ++ member "max_total_function_params" (MaxTotalFunctionParams l)
    ++ member "max_function_results" (MaxFunctionResults l)).

Module Querier.

(** status.Error(codes.InvalidArgument, ...) *)
Definition InvalidArgument (desc : string) : error :=
  EText (String.append "rpc error: code = InvalidArgument desc = " desc).
Definition errEmptyRequest : error := InvalidArgument "empty request".
Definition ErrPanic : error := sdkErr 111222 "panic".

Definition maxResultEntries : N := 100.
Definition errLegacyPaginationUnsupported : error :=
  InvalidArgument "offset and count queries not supported".
Definition DefaultGasCostBuildAddress : N := 10.

Section Querier.
Context `{GasMeters, Modules, KVStorePkg, Bech32, ErrorsMod, UnicodeTables, AddressPkg, Codecs}.
Context `{!WasmEngine, !Pagination}.
(** The view keeper's smart query; nil is [None]. *)
Context (QuerySmart : Context -> bytes -> bytes -> M (option bytes)).
Context (queryGasLimit : N) (wasmLimits : WasmLimits).

Definition ensurePaginationParams (req : option PageRequest) : PageRequest + error :=
  match req with
  | None => inl (mkPageRequest [] 0 DefaultLimit false false)
  | Some req =>
      if negb (Page_Offset req =? 0)%N || Page_CountTotal req
      then inr errLegacyPaginationUnsupported
      else if (maxResultEntries <? Page_Limit req)%N || (Page_Limit req <=? 0)%N
      then inl (mkPageRequest (Page_Key req) (Page_Offset req) maxResultEntries
                  (Page_CountTotal req) (Page_Reverse req))
      else inl req
  end.

(** A result of a checked operation, or its error. *)
Definition or_fail {A} (r : A + error) : M A :=
  match r with inl a => mret a | inr e => fail e end.
Definition not_nil {A} (req : option A) : M A :=
  match req with Some r => mret r | None => fail errEmptyRequest end.
Definition errNoContract (addr : bytes) : error :=
  Wrap (ErrNoSuchContractFn (AccAddress_String addr))
    (String.append "address " (AccAddress_String addr)).
Definition errNoCode (id : N) : error :=
  Wrap (ErrNoSuchCodeFn id) (String.append "code id " (pretty id)).

(** ** Contracts *)

Definition queryContractInfo (addr : bytes) : M (string * ContractInfo) :=
  info ← GetContractInfo addr;
  match info with
  | None => fail (errNoContract addr)
  | Some info => mret (AccAddress_String addr, info)
  end.
Definition ContractInfo (req : option string) : M (string * Types.ContractInfo) :=
  address ← not_nil req;
  contractAddr ← or_fail (AccAddressFromBech32 address);
  queryContractInfo contractAddr.

Definition history_entry (value : bytes) (accumulate : bool) (r : list ContractCodeHistoryEntry)
    : outcome (list ContractCodeHistoryEntry * bool) :=
  if accumulate then
    match unmarshal value with
    | inr err => Fail err
    | inl e => Ret (r ++ [e], true)
    end
  else Ret (r, true).
Definition ContractHistory (req : option QueryAddressPage)
    : M (list ContractCodeHistoryEntry * PageResponse) :=
  req ← not_nil req;
  contractAddr ← or_fail (AccAddressFromBech32 (QA_Address req));
  paginationParams ← or_fail (ensurePaginationParams (QA_Pagination req));
  FilteredPaginate (GetContractCodeHistoryElementPrefix contractAddr) paginationParams
    (fun _ => history_entry) [].

(** The address at the end of an index key. *)
Definition index_entry (key : bytes) (accumulate : bool) (r : list string)
    : outcome (list string * bool) :=
  if accumulate
  then obind (index_address key) (fun a => Ret (r ++ [AccAddress_String a], true))
  else Ret (r, true).
Definition ContractsByCode (req : option QueryCodePage) : M (list string * PageResponse) :=
  req ← not_nil req;
  _ ← guard_err (QC_CodeId req =? 0)%N (Wrap ErrInvalid "code id");
  paginationParams ← or_fail (ensurePaginationParams (QC_Pagination req));
  FilteredPaginate (GetContractByCodeIDSecondaryIndexPrefix (QC_CodeId req)) paginationParams
    (fun key _ => index_entry key) [].
Definition ContractsByCreator (req : option QueryAddressPage) : M (list string * PageResponse) :=
  req ← not_nil req;
  paginationParams ← or_fail (ensurePaginationParams (QA_Pagination req));
  creatorAddress ← or_fail (AccAddressFromBech32 (QA_Address req));
  prefix ← lift (GetContractsByCreatorPrefix creatorAddress);
  FilteredPaginate prefix paginationParams (fun key _ => index_entry key) [].

Definition AllContractState (req : option QueryAddressPage) : M (list Model * PageResponse) :=
  req ← not_nil req;
  contractAddr ← or_fail (AccAddressFromBech32 (QA_Address req));
  paginationParams ← or_fail (ensurePaginationParams (QA_Pagination req));
  has ← HasContractInfo contractAddr;
  _ ← guard_err (negb has) (errNoContract contractAddr);
  FilteredPaginate (GetContractStorePrefix contractAddr) paginationParams
    (fun key value accumulate r =>
       Ret (if accumulate then r ++ [mkModel key value] else r, true)) [].

Definition RawContractState (req : option QueryContractState) : M (option bytes) :=
  req ← not_nil req;
  contractAddr ← or_fail (AccAddressFromBech32 (QS_Address req));
  has ← HasContractInfo contractAddr;
  _ ← guard_err (negb has) (errNoContract contractAddr);
  QueryRaw contractAddr (QS_QueryData req).

(** A panic below the smart query is turned into an error. *)
Definition SmartContractState (ctx : Context) (req : option QueryContractState) : M bytes :=
  req ← not_nil req;
  let data := default [] (QS_QueryData req) in
  _ ← guard_err (bool_decide (RawContractMessage_ValidateBasic data <> None))
        (InvalidArgument "invalid query data");
  contractAddr ← or_fail (AccAddressFromBech32 (QS_Address req));
  '(o, _) ← with_meter (NewGasMeter queryGasLimit) (QuerySmart ctx contractAddr data);
  match o with
  | Ret (Some bz) => mret bz
  | Ret None => fail (errNoContract contractAddr)
  | Fail err => fail err
  | Panic (POutOfGas descriptor) =>
      fail (Wrap ErrOutOfGas "out of gas in location: %v; gasWanted: %d, gasUsed: %d")
  | Panic _ => fail ErrPanic
  end.

(** ** Codes *)

Definition code_response (codeID : N) (c : Types.CodeInfo) : CodeInfoResponse :=
  mkCodeInfoResponse codeID (CodeCreator c) (CodeHash c) (InstantiateConfig c).
Definition queryCodeInfo (codeID : N) : M (option CodeInfoResponse) :=
  if (codeID =? 0)%N then mret None
  else
    res ← GetCodeInfo codeID;
    mret (code_response codeID <$> res).
Definition queryCode (codeID : N) : M (option (CodeInfoResponse * option bytes)) :=
  info ← queryCodeInfo codeID;
  match info with
  | None => mret None
  | Some info =>
      code ← wrap_err "loading wasm code" (Keeper.GetByteCode codeID);
      mret (Some (info, code))
  end.
Definition Code (req : option N) : M (CodeInfoResponse * option bytes) :=
  codeID ← not_nil req;
  _ ← guard_err (codeID =? 0)%N (Wrap ErrInvalid "code id");
  rsp ← queryCode codeID;
  match rsp with Some rsp => mret rsp | None => fail (errNoCode codeID) end.
Definition CodeInfo (req : option N) : M CodeInfoResponse :=
  codeID ← not_nil req;
  _ ← guard_err (codeID =? 0)%N (Wrap ErrInvalid "code id");
  info ← queryCodeInfo codeID;
  match info with Some info => mret info | None => fail (errNoCode codeID) end.

Definition Codes (req : option (option PageRequest)) : M (list CodeInfoResponse * PageResponse) :=
  pagination ← not_nil req;
  paginationParams ← or_fail (ensurePaginationParams pagination);
  FilteredPaginate CodeKeyPrefix paginationParams
    (fun key value accumulate r =>
       if accumulate then
         match unmarshal value with
         | inr err => Fail err
         | inl c => obind (binary_Uint64 key) (fun id => Ret (r ++ [code_response id c], true))
         end
       else Ret (r, true)) [].

Definition PinnedCodes (req : option (option PageRequest)) : M (list N * PageResponse) :=
  pagination ← not_nil req;
  paginationParams ← or_fail (ensurePaginationParams pagination);
  FilteredPaginate PinnedCodeIndexPrefix paginationParams
    (fun key _ accumulate r =>
       if accumulate then obind (BigEndianToUint64 key) (fun id => Ret (r ++ [id], true))
       else Ret (r, true)) [].

(** ** Parameters, limits, addresses *)

Definition QueryParams : M Params := GetParams.
Definition WasmLimitsConfig : string := string_of_bytes (Json.Marshal (json_WasmLimits wasmLimits)).

Definition build_address (codeHash creator salt : bytes) (initArgs : option bytes)
    : outcome string :=
  match initArgs with
  | None =>
      obind (Keeper.BuildContractAddressPredictable codeHash (Some creator) salt [])
        (fun a => Ret (AccAddress_String a))
  | Some initMsg =>
      match RawContractMessage_ValidateBasic initMsg with
      | Some err => Fail err
      | None =>
          obind (Keeper.BuildContractAddressPredictable codeHash (Some creator) salt initMsg)
            (fun a => Ret (AccAddress_String a))
      end
  end.
(** The gas is charged on the way out, also after a panic. *)
Definition BuildAddress (req : option QueryBuildAddressRequest) : M string :=
  req ← not_nil req;
  codeHash ← map_err (fun e => Wrap e "invalid code hash") (or_fail (hex_DecodeString (QB_CodeHash req)));
  creator ← map_err (fun e => Wrap e "invalid creator address")
              (or_fail (AccAddressFromBech32 (QB_CreatorAddress req)));
  salt ← map_err (fun e => Wrap e "invalid salt") (or_fail (hex_DecodeString (QB_Salt req)));
  _ ← guard_err (Nat.eqb (length salt) 0) (InvalidArgument "empty salt");
  let r := build_address codeHash creator salt (QB_InitArgs req) in
  _ ← consume DefaultGasCostBuildAddress "build address";
  lift r.

(** ** Listing page by page *)

(** A client that asks for page after page, each with the key the last one
    returned. *)
Fixpoint fetch {B} (query : PageRequest -> M (list B * PageResponse)) (limit : N) (key : bytes)
    (fuel : nat) : M (option (list B)) :=
  match fuel with
  | O => mret None
  | S fuel' =>
      '(r, page) ← query (mkPageRequest key 0 limit false false);
      if Nat.eqb (length (Page_NextKey page)) 0 then mret (Some r)
      else
        rest ← fetch query limit (Page_NextKey page) fuel';
        mret (app r <$> rest)
  end.

(** The size of a page is capped. *)
Definition page_size (limit : N) : N :=
  if (maxResultEntries <? limit)%N || (limit <=? 0)%N then maxResultEntries else limit.
Lemma ensurePaginationParams_page key limit :
  ensurePaginationParams (Some (mkPageRequest key 0 limit false false))
  = inl (mkPageRequest key 0 (page_size limit) false false).
Proof. unfold ensurePaginationParams, page_size. simpl. by case_match. Qed.
Lemma page_size_bounds limit : (0 < page_size limit <= 100)%N.
Proof.
  unfold page_size, maxResultEntries. destruct (N.ltb_spec 100 limit), (N.leb_spec limit 0); simpl; lia.
Qed.

Lemma filter_all {A} (P : A -> Prop) `{!forall x, Decision (P x)} (l : list A) :
  (forall x, x ∈ l -> P x) -> filter P l = l.
Proof.
  induction l as [|x l IH]; intros Hl; [done|]. rewrite filter_cons_True by (apply Hl; by left).
  f_equal. apply IH. intros y Hy. apply Hl. by right.
Qed.
Lemma filter_none {A} (P : A -> Prop) `{!forall x, Decision (P x)} (l : list A) :
  (forall x, x ∈ l -> ~ P x) -> filter P l = [].
Proof.
  induction l as [|x l IH]; intros Hl; [done|]. rewrite filter_cons_False by (apply Hl; by left).
  apply IH. intros y Hy. apply Hl. by right.
Qed.

(** In a sorted list, the entries from the key of one of them on are the ones
    from its position on. *)
Lemma entries_from_drop l n e :
  StronglySorted bytes_le l.*1 -> NoDup l.*1 -> l !! n = Some e ->
  filter (fun x : bytes * bytes => bytes_leb e.1 x.1 = true) l = drop n l.
Proof.
  intros Hs HN He. rewrite <- (take_drop n l) at 1. rewrite filter_app.
  rewrite <- (take_drop n l), fmap_app in Hs, HN.
  apply NoDup_app in HN as (_ & Hd & _).
  assert (e ∈ drop n l) as Hin.
  { apply (list_elem_of_lookup_2 _ 0). by rewrite lookup_drop, Nat.add_0_r. }
  assert (filter (fun x : bytes * bytes => bytes_leb e.1 x.1 = true) (take n l) = []) as ->.
  { apply filter_none. intros x Hx Hle.
    apply (Hd x.1); [by apply list_elem_of_fmap_2|].
    assert (x.1 = e.1) as ->; [|by apply list_elem_of_fmap_2].
    apply (anti_symm bytes_le); [|done].
    eapply StronglySorted_app_1_elem_of; [exact Hs|by apply list_elem_of_fmap_2..]. }
  apply filter_all. intros x Hx.
  apply StronglySorted_app_1_r in Hs.
  destruct (drop n l) as [|y d] eqn:Ed; [by apply elem_of_nil in Hin|].
  assert (y = e) as ->.
  { assert (drop n l !! 0 = Some y) as E by by rewrite Ed.
    rewrite lookup_drop, Nat.add_0_r in E. congruence. }
  apply elem_of_cons in Hx as [->|Hx]; [apply bytes_le_refl|].
  simpl in Hs. apply StronglySorted_inv in Hs as [_ Hf]. rewrite Forall_forall in Hf.
  by apply Hf, list_elem_of_fmap_2.
Qed.

Context `{!PaginationLaws, !Unmetered}.

Section Pages.
Context {B : Type} (p : bytes) (f : bytes -> bytes -> bool -> list B -> outcome (list B * bool))
  (out : bytes -> bytes -> B) (σ : kvs).
Hypothesis f_skip : forall k v acc, f k v false acc = Ret (acc, true).
Hypothesis f_hit : forall k v acc r, f k v true acc = Ret r -> r.2 = true.
Hypothesis f_out : forall k v acc,
  σ !! (p ++ k) = Some v -> f k v true acc = Ret (acc ++ [out k v], true).

Lemma visit_out l acc :
  (forall k v, (k, v) ∈ l -> σ !! (p ++ k) = Some v) ->
  visit f l acc = Ret (acc ++ (uncurry out <$> l)).
Proof.
  revert acc. induction l as [|[k v] l IH]; intros acc Hl; cbn [visit].
  { by rewrite app_nil_r. }
  rewrite f_out by (apply Hl; by left). cbn [obind fst]. rewrite IH by (intros; apply Hl; by right).
  by rewrite <- (assoc_L (++)).
Qed.

(** The entries that are left from a key on. *)
Definition left_from (n : nat) (key : bytes) : Prop :=
  n = 0 /\ key = [] \/ 0 < n /\ exists v, kv_prefixed σ p !! n = Some (key, v).
Lemma entries_left n key :
  left_from n key -> entries_from key (kv_prefixed σ p) = drop n (kv_prefixed σ p).
Proof.
  intros [[-> ->]|(Hn & v & Hv)]; [done|]. unfold entries_from.
  destruct (Nat.eqb_spec (length key) 0) as [E|_].
  - exfalso. apply nil_length_inv in E as ->.
    destruct (kv_prefixed σ p !! 0) as [[k0 v0]|] eqn:E0;
      [|apply lookup_ge_None in E0; apply lookup_lt_Some in Hv; lia].
    pose proof (Genesis.kv_prefixed_NoDup σ p) as HN.
    pose proof (NoDup_lookup _ 0 n [] HN) as Hinj.
    rewrite !list_lookup_fmap, E0, Hv in Hinj. simpl in Hinj.
    destruct k0 as [|b k0]; [specialize (Hinj eq_refl eq_refl); lia|].
    pose proof (Genesis.kv_prefixed_sorted σ p) as Hs.
    destruct (kv_prefixed σ p) as [|e l]; [done|]. injection E0 as ->. simpl in Hs.
    apply StronglySorted_inv in Hs as [_ Hf]. rewrite Forall_forall in Hf.
    destruct n as [|n]; [lia|]. simpl in Hv. apply list_elem_of_lookup_2 in Hv.
    specialize (Hf [] ltac:(by apply (list_elem_of_fmap_2 fst _ ([], v)))). done.
  - by apply (entries_from_drop _ n (key, v)); [apply Genesis.kv_prefixed_sorted
      |apply Genesis.kv_prefixed_NoDup|].
Qed.

Lemma FilteredPaginate_page n key limit s :
  kv s = σ -> left_from n key ->
  exists mt, FilteredPaginate p (mkPageRequest key 0 (page_size limit) false false) f [] s
    = (Ret (uncurry out <$> take (N.to_nat (page_size limit)) (drop n (kv_prefixed σ p)),
            mkPageResponse (default [] (fst <$> kv_prefixed σ p !! (n + N.to_nat (page_size limit)))) 0),
       set_meter mt s).
Proof.
  intros Hs Hn. pose proof (page_size_bounds limit) as Hb.
  pose proof (paginate_entries p (mkPageRequest key 0 (page_size limit) false false) f []
    (uncurry out <$> take (N.to_nat (page_size limit)) (drop n (kv_prefixed σ p))) s) as Hp.
  cbn [Page_Key Page_Reverse Page_Offset Page_CountTotal Page_Limit] in Hp. cbv zeta in Hp.
  rewrite Hs, (entries_left n key) in Hp by done.
  rewrite lookup_drop in Hp. apply Hp; [done..|unfold Proto.two63; lia|done|done|].
  rewrite visit_out; [done|]. intros k v Hin. apply elem_of_kv_prefixed.
  by eapply elem_of_submseteq; [exact Hin|]; etrans;
    [apply sublist_submseteq, sublist_take|apply sublist_submseteq, sublist_drop].
Qed.

(** The client gets every entry once, in the order of the store. *)
Lemma fetch_all (query : PageRequest -> M (list B * PageResponse)) limit :
  (forall key n s, kv s = σ -> left_from n key ->
     query (mkPageRequest key 0 limit false false) s
     = FilteredPaginate p (mkPageRequest key 0 (page_size limit) false false) f [] s) ->
  forall fuel n key s, kv s = σ -> left_from n key -> length (drop n (kv_prefixed σ p)) < fuel ->
  exists mt, fetch query limit key fuel s
    = (Ret (Some (uncurry out <$> drop n (kv_prefixed σ p))), set_meter mt s).
Proof.
  intros Hq fuel. induction fuel as [|fuel IH]; intros n key s0 Hs Hn Hf; [lia|].
  cbn [fetch]. pose proof (page_size_bounds limit) as Hb.
  destruct (FilteredPaginate_page n key limit s0 Hs Hn) as [mt E].
  rewrite <- (Hq key n s0) in E by done. unfold mbind, M_bind. rewrite E. cbn [Page_NextKey].
  set (m := N.to_nat (page_size limit)) in *. assert (0 < m) as Hm by (unfold m; lia).
  destruct (kv_prefixed σ p !! (n + m)) as [[k v]|] eqn:Ek.
  - simpl. destruct (IH (n + m) k (set_meter mt s0)) as [mt' E'].
    + done.
    + right. split; [lia|by exists v].
    + apply lookup_lt_Some in Ek. rewrite length_drop in *. lia.
    + destruct (Nat.eqb_spec (length k) 0) as [Ek0|_].
      * exfalso. apply nil_length_inv in Ek0 as ->.
        pose proof (entries_left (n + m) []) as Hl. unfold left_from in Hl.
        assert (entries_from [] (kv_prefixed σ p) = drop (n + m) (kv_prefixed σ p)) as Hd.
        { apply Hl. right. split; [lia|by exists v]. }
        apply (f_equal length) in Hd. unfold entries_from in Hd. simpl in Hd. rewrite length_drop in Hd.
        apply lookup_lt_Some in Ek. lia.
      * rewrite E'. exists mt'. simpl. rewrite <- fmap_app, <- drop_drop, take_drop. done.
  - simpl. exists mt. do 3 f_equal. rewrite take_ge; [done|].
    apply lookup_ge_None in Ek. rewrite length_drop. lia.
Qed.

End Pages.

(** ** Listings and the registry *)

(** A list of all that satisfies [P], each once. *)
Definition lists {B} (P : B -> Prop) (rs : list B) : Prop :=
  NoDup rs /\ forall r, r ∈ rs <-> P r.

Lemma length_kv_prefixed (σ : kvs) p : length (kv_prefixed σ p) <= size σ.
Proof.
  unfold kv_prefixed. rewrite merge_sort_Permutation, <- length_map_to_list.
  induction (map_to_list σ) as [|e l IH]; [done|]. simpl.
  destruct (strip_entry p e); [apply le_n_S, IH|apply Nat.le_le_succ_r, IH].
Qed.

Lemma listing {B} p (f : bytes -> bytes -> bool -> list B -> outcome (list B * bool))
    (out : bytes -> bytes -> B) (P : B -> Prop) (query : PageRequest -> M (list B * PageResponse))
    limit fuel s :
  (forall k v acc, f k v false acc = Ret (acc, true)) ->
  (forall k v acc r, f k v true acc = Ret r -> r.2 = true) ->
  (forall k v acc, kv s !! (p ++ k) = Some v -> f k v true acc = Ret (acc ++ [out k v], true)) ->
  (forall key s', query (mkPageRequest key 0 limit false false) s'
     = FilteredPaginate p (mkPageRequest key 0 (page_size limit) false false) f [] s') ->
  (forall k v, kv s !! (p ++ k) = Some v -> P (out k v)) ->
  (forall r, P r -> exists k v, kv s !! (p ++ k) = Some v /\ out k v = r) ->
  (forall k v k' v', kv s !! (p ++ k) = Some v -> kv s !! (p ++ k') = Some v' ->
     out k v = out k' v' -> k = k') ->
  size (kv s) < fuel ->
  exists mt rs, fetch query limit [] fuel s = (Ret (Some rs), set_meter mt s) /\ lists P rs.
Proof.
  intros Hskip Hhit Hout Hq HP HP' Hinj Hf.
  destruct (fetch_all p f out (kv s) Hskip Hhit Hout query limit) with (fuel := fuel) (n := 0)
    (key := @nil byte) (s := s) as [mt E]; [done|done|by left| |].
  { rewrite drop_0. pose proof (length_kv_prefixed (kv s) p). lia. }
  rewrite drop_0 in E. exists mt. eexists. split; [exact E|]. split.
  - apply NoDup_fmap_2_strong.
    + intros [k v] [k' v'] Hk Hk' Eo. apply elem_of_kv_prefixed in Hk, Hk'. simpl in Eo.
      pose proof (Hinj _ _ _ _ Hk Hk' Eo) as ->. congruence.
    + eapply NoDup_fmap_1, Genesis.kv_prefixed_NoDup.
  - intros r. rewrite list_elem_of_fmap. split.
    + intros ([k v] & -> & Hin). apply elem_of_kv_prefixed in Hin. by apply HP.
    + intros (k & v & Hk & <-)%HP'. exists (k, v). split; [done|]. by apply elem_of_kv_prefixed.
Qed.

(** Keys under a prefix have the shape the module gives them. *)
Record key_shapes (σ : kvs) : Prop := {
  shape_codes : Genesis.code_keys σ;
  shape_pinned k : is_Some (σ !! (PinnedCodeIndexPrefix ++ k)) -> length k = 8;
  shape_by_code id k :
    is_Some (σ !! (GetContractByCodeIDSecondaryIndexPrefix id ++ k)) -> AbsoluteTxPositionLen <= length k;
  shape_by_creator c k :
    length c <= 255 -> is_Some (σ !! (ContractsByCreatorPrefix ++ (byte_of_N (blen c) :: c) ++ k)) ->
    AbsoluteTxPositionLen <= length k;
}.

Lemma position_of_bytes bs :
  length bs = AbsoluteTxPositionLen -> exists p, wf_position p /\ bs = Position_Bytes p.
Proof.
  intros Hl. destruct (be_of_length8 (take 8 bs)) as (h & Hh & Eh).
  { rewrite length_take, Hl. done. }
  destruct (be_of_length8 (drop 8 bs)) as (t & Ht & Et).
  { rewrite length_drop, Hl. done. }
  exists (mkAbsoluteTxPosition h t). split; [done|].
  rewrite <- (take_drop 8 bs), Eh, Et. done.
Qed.
Lemma split_index_key k :
  AbsoluteTxPositionLen <= length k ->
  exists p addr, wf_position p /\ k = Position_Bytes p ++ addr.
Proof.
  intros Hl. destruct (position_of_bytes (take AbsoluteTxPositionLen k)) as (p & Hp & E).
  { rewrite length_take. lia. }
  exists p, (drop AbsoluteTxPositionLen k). split; [done|]. by rewrite <- E, take_drop.
Qed.
Lemma index_address_position p addr : index_address (Position_Bytes p ++ addr) = Ret addr.
Proof.
  unfold index_address. rewrite length_app, length_Position_Bytes.
  rewrite (proj2 (Nat.ltb_ge _ _)) by lia. by rewrite drop_app_length' by by rewrite length_Position_Bytes.
Qed.

Section Listings.
Context `{!Bech32Laws, !AddressPkgLaws, !CodecsLaws}.
Context (a : Registry) (s : State).
Hypothesis Hr : repr (kv s) a.
Hypothesis C : coherent a.
Hypothesis St : storable a.
Hypothesis Hk : key_shapes (kv s).
Hypothesis Ha : Genesis.contract_addresses a.

Lemma entry_code k v :
  kv s !! (CodeKeyPrefix ++ k) = Some v ->
  exists id c, is_u64 id /\ k = Uint64ToBigEndian id /\ codes a !! id = Some c /\ v = marshal c.
Proof. apply Genesis.code_entry; [done|apply Hk]. Qed.

Definition lists_codes (rs : list CodeInfoResponse) : Prop :=
  lists (fun r => exists id c, codes a !! id = Some c /\ r = code_response id c) rs.

Ltac open_page :=
  intros key s'; unfold not_nil, mbind, M_bind, mret, M_ret; rewrite ensurePaginationParams_page;
  reflexivity.

Lemma be_decode_be id : is_u64 id -> be_decode (Uint64ToBigEndian id) = id.
Proof. intros Hid. by apply (be_decode_encode 8). Qed.

Lemma Codes_fetch limit fuel :
  size (kv s) < fuel ->
  exists mt rs, fetch (fun req => Codes (Some (Some req))) limit [] fuel s
    = (Ret (Some rs), set_meter mt s) /\ lists_codes rs.
Proof.
  intros Hf.
  eapply (listing CodeKeyPrefix _ (fun k v => code_response (be_decode k)
    match unmarshal v with inl c => c | inr _ => Proto.CodeInfo_zero end)); [..|done].
  4: { unfold Codes. open_page. }
  - done.
  - intros k v acc r E. simpl in E. case_match; [|done]. destruct (binary_Uint64 k); by simplify_eq/=.
  - intros k v acc (id & c & Hid & -> & Hc & ->)%entry_code.
    destruct (sto_codes a St id c Hc). rewrite !codec_roundtrip by done.
    rewrite RefineKeeper.binary_roundtrip by done. cbn [obind]. by rewrite be_decode_be.
  - intros k v (id & c & Hid & -> & Hc & ->)%entry_code. exists id, c. split; [done|].
    destruct (sto_codes a St id c Hc). rewrite codec_roundtrip by done. by rewrite be_decode_be.
  - intros r (id & c & Hc & ->). exists (Uint64ToBigEndian id), (marshal c).
    pose proof (Genesis.exported_code_u64 a C id c Hc) as Hid. split.
    + etrans; [apply (Hr (KCode id)); done|]. simpl. by rewrite Hc.
    + destruct (sto_codes a St id c Hc). rewrite codec_roundtrip by done. by rewrite be_decode_be.
  - intros k v k' v' (id & c & Hid & -> & _)%entry_code (id' & c' & Hid' & -> & _)%entry_code E.
    apply (f_equal CI_CodeID) in E. cbn [CI_CodeID code_response] in E. rewrite !be_decode_be in E by done. by subst.
Qed.

Lemma entry_pinned k v :
  kv s !! (PinnedCodeIndexPrefix ++ k) = Some v ->
  exists id, is_u64 id /\ k = Uint64ToBigEndian id /\ id ∈ pinned a.
Proof.
  intros Hv. destruct (be_of_length8 k (shape_pinned _ Hk k ltac:(by eexists))) as (id & Hid & ->).
  pose proof (Hr (KPinned id) ltac:(done)) as He. cbn [entry_key encode] in He.
  unfold GetPinnedCodeIndexPrefix in He. rewrite Hv in He. unfold flag in He.
  case_bool_decide; [|done]. by exists id.
Qed.
Lemma PinnedCodes_fetch limit fuel :
  size (kv s) < fuel ->
  exists mt rs, fetch (fun req => PinnedCodes (Some (Some req))) limit [] fuel s
    = (Ret (Some rs), set_meter mt s) /\ lists (fun id => id ∈ pinned a) rs.
Proof.
  intros Hf. eapply (listing PinnedCodeIndexPrefix _ (fun k _ => be_decode k)); [..|done].
  4: { unfold PinnedCodes. open_page. }
  - done.
  - intros k v acc r E. simpl in E. destruct (BigEndianToUint64 k); by simplify_eq/=.
  - intros k v acc (id & Hid & -> & _)%entry_pinned. rewrite BigEndian_roundtrip by done.
    cbn [obind]. by rewrite be_decode_be.
  - intros k v (id & Hid & -> & Hin)%entry_pinned. by rewrite be_decode_be.
  - intros id Hin. destruct (coh_pinned a C id Hin) as [c Hc].
    pose proof (Genesis.exported_code_u64 a C id c Hc) as Hid.
    exists (Uint64ToBigEndian id), [Byte.x01]. split; [|by rewrite be_decode_be].
    etrans; [apply (Hr (KPinned id)); done|]. simpl. by rewrite bool_decide_true.
  - intros k v k' v' (id & Hid & -> & _)%entry_pinned (id' & Hid' & -> & _)%entry_pinned E.
    rewrite !be_decode_be in E by done. by subst.
Qed.

(** *** Indexes of contracts *)

Lemma last_history addr i e :
  contracts a !! addr = Some i -> last (history_of a addr) = Some e -> HistCodeID e = CodeID i.
Proof.
  intros Hi He. destruct (contract_last a addr i (coh_contracts a C addr i Hi)) as (e' & p & He' & Hc & _).
  congruence.
Qed.
Lemma history_contract addr e : last (history_of a addr) = Some e -> is_Some (contracts a !! addr).
Proof.
  unfold history_of. destruct (history a !! addr) as [h|] eqn:E; [|done]. intros _.
  by destruct (coh_history a C addr h E).
Qed.

Lemma entry_by_code id k v :
  is_u64 id -> kv s !! (GetContractByCodeIDSecondaryIndexPrefix id ++ k) = Some v ->
  exists p addr i, wf_position p /\ k = Position_Bytes p ++ addr /\ contracts a !! addr = Some i
    /\ CodeID i = id.
Proof.
  intros Hid Hv. destruct (split_index_key k) as (p & addr & Hp & ->).
  { by apply (shape_by_code _ Hk id). }
  pose proof (Hr (KByCodeID id p addr) ltac:(done)) as He. cbn [entry_key encode] in He.
  rewrite Hv in He. unfold flag in He.
  destruct (last (history_of a addr)) as [e|] eqn:El; [|done]. case_bool_decide as Hd; [|done].
  destruct (history_contract addr e El) as [i Hi]. exists p, addr, i. split_and!; [done..|].
  rewrite <- (last_history addr i e Hi El). apply Hd.
Qed.

(** The contracts of an index, by their addresses. *)
Definition lists_contracts (P : Types.ContractInfo -> Prop) (rs : list string) : Prop :=
  lists (fun r => exists addr i, contracts a !! addr = Some i /\ P i /\ r = AccAddress_String addr) rs.

Lemma index_hit key acc r : index_entry key true acc = Ret r -> r.2 = true.
Proof. simpl. destruct (index_address key); by intros; simplify_eq/=. Qed.

(** Listing an index whose keys are a position and an address. *)
Lemma index_fetch p (P : Types.ContractInfo -> Prop) query limit fuel :
  (forall k v, kv s !! (p ++ k) = Some v -> exists pos addr i, wf_position pos
     /\ k = Position_Bytes pos ++ addr /\ contracts a !! addr = Some i /\ P i) ->
  (forall addr i, contracts a !! addr = Some i -> P i ->
     exists pos, kv s !! (p ++ Position_Bytes pos ++ addr) = Some []) ->
  (forall pos pos' addr, wf_position pos -> wf_position pos' ->
     kv s !! (p ++ Position_Bytes pos ++ addr) = Some [] ->
     kv s !! (p ++ Position_Bytes pos' ++ addr) = Some [] -> pos = pos') ->
  (forall k v, kv s !! (p ++ k) = Some v -> v = []) ->
  (forall key s', query (mkPageRequest key 0 limit false false) s'
     = FilteredPaginate p (mkPageRequest key 0 (page_size limit) false false)
         (fun key _ => index_entry key) [] s') ->
  size (kv s) < fuel ->
  exists mt rs, fetch query limit [] fuel s = (Ret (Some rs), set_meter mt s)
    /\ lists_contracts P rs.
Proof.
  intros He HP Hpos Hnil Hq Hf.
  eapply (listing p _ (fun k _ => AccAddress_String (drop AbsoluteTxPositionLen k))); [..|done].
  4: exact Hq.
  - done.
  - intros k v. apply index_hit.
  - intros k v acc (pos & addr & i & Hp & -> & _)%He. unfold index_entry.
    rewrite index_address_position. by rewrite drop_app_length' by by rewrite length_Position_Bytes.
  - intros k v (pos & addr & i & Hp & -> & Hi & HPi)%He.
    rewrite drop_app_length' by by rewrite length_Position_Bytes. by exists addr, i.
  - intros r (addr & i & Hi & HPi & ->). destruct (HP addr i Hi HPi) as [pos Hv].
    eexists _, []. split; [exact Hv|].
    by rewrite drop_app_length' by by rewrite length_Position_Bytes.
  - intros k v k' v' Hv Hv' E. pose proof (Hnil _ _ Hv) as ->. pose proof (Hnil _ _ Hv') as ->.
    destruct (He _ _ Hv) as (pos & addr & i & Hp & -> & Hi & _).
    destruct (He _ _ Hv') as (pos' & addr' & i' & Hp' & -> & Hi' & _).
    rewrite !drop_app_length' in E by by rewrite length_Position_Bytes.
    apply bech32_String_inj in E as ->; [|by apply Ha..]. f_equal. f_equal. by eapply Hpos.
Qed.

Lemma by_code_entry id pos addr :
  is_u64 id -> wf_position pos ->
  kv s !! (GetContractByCodeIDSecondaryIndexPrefix id ++ Position_Bytes pos ++ addr)
  = encode a (KByCodeID id pos addr).
Proof. intros Hid Hp. by apply (Hr (KByCodeID id pos addr)). Qed.
Lemma ContractsByCode_fetch id limit fuel :
  is_u64 id -> id <> 0%N -> size (kv s) < fuel ->
  exists mt rs, fetch (fun req => ContractsByCode (Some (mkQueryCodePage id (Some req)))) limit [] fuel s
    = (Ret (Some rs), set_meter mt s) /\ lists_contracts (fun i => CodeID i = id) rs.
Proof.
  intros Hid Hn. apply (index_fetch (GetContractByCodeIDSecondaryIndexPrefix id)).
  - intros k v. by apply entry_by_code.
  - intros addr i Hi Hc.
    destruct (contract_last a addr i (coh_contracts a C addr i Hi)) as (e & p & He & Hce & Hu).
    exists p. rewrite by_code_entry; [|done|].
    + simpl. rewrite He, bool_decide_true; [done|]. by split; [rewrite Hce|].
    + destruct (sto_history a St addr e) as [(_ & _ & Hw) _]; [|by apply Hw].
      apply last_Some in He as [l ->]. apply elem_of_app. right. by apply list_elem_of_singleton.
  - intros pos pos' addr Hp Hp'. rewrite !by_code_entry by done. simpl. unfold flag.
    destruct (last (history_of a addr)) as [e|]; [|done].
    repeat (case_bool_decide; [|done]). naive_solver congruence.
  - intros k v Hv. destruct (entry_by_code id k v Hid Hv) as (p & addr & i & Hp & -> & _).
    rewrite by_code_entry in Hv by done. simpl in Hv. unfold flag in Hv. by repeat case_match; simplify_eq.
  - intros key s'. unfold ContractsByCode, not_nil, guard_err, mbind, M_bind, mret, M_ret.
    cbn [QC_CodeId QC_Pagination]. rewrite (proj2 (N.eqb_neq _ _) Hn). rewrite ensurePaginationParams_page.
    reflexivity.
Qed.

Lemma by_creator_entry c pos addr :
  VerifyAddressFormat c = None -> wf_position pos ->
  kv s !! ((ContractsByCreatorPrefix ++ byte_of_N (blen c) :: c) ++ Position_Bytes pos ++ addr)
  = encode a (KByCreator c pos addr).
Proof.
  intros Hv Hp. rewrite <- (Hr (KByCreator c pos addr)).
  - cbn [entry_key]. by rewrite <- (assoc_L (++)).
  - split; [|done]. split; [by apply verify_length|done].
Qed.
Lemma ContractsByCreator_fetch c limit fuel :
  VerifyAddressFormat c = None -> size (kv s) < fuel ->
  exists mt rs, fetch (fun req =>
      ContractsByCreator (Some (mkQueryAddressPage (AccAddress_String c) (Some req)))) limit [] fuel s
    = (Ret (Some rs), set_meter mt s)
    /\ lists_contracts (fun i => Creator i = AccAddress_String c) rs.
Proof.
  intros Hc. apply (index_fetch (ContractsByCreatorPrefix ++ byte_of_N (blen c) :: c)).
  - intros k v Hv. destruct (split_index_key k) as (p & addr & Hp & ->).
    { apply (shape_by_creator _ Hk c); [by apply verify_length|]. rewrite (assoc_L (++)). by eexists. }
    rewrite by_creator_entry in Hv by done. simpl in Hv. unfold flag in Hv.
    destruct (contracts a !! addr) as [i|] eqn:Hi; [|done]. case_bool_decide as Hd; [|done].
    exists p, addr, i. split_and!; [done..|apply Hd].
  - intros addr i Hi Hcr.
    destruct (contract_created a addr i (coh_contracts a C addr i Hi)) as (c' & p & Hv & Hc' & Hp).
    exists p. rewrite by_creator_entry; [|done|].
    + simpl. by rewrite Hi, bool_decide_true.
    + destruct (sto_contracts a St addr i Hi) as [(_ & Hw & _) _]. by apply Hw.
  - intros pos pos' addr Hp Hp'. rewrite !by_creator_entry by done. simpl. unfold flag.
    destruct (contracts a !! addr) as [i|]; [|done].
    repeat (case_bool_decide; [|done]). naive_solver congruence.
  - intros k v Hv. destruct (split_index_key k) as (p & addr & Hp & ->).
    { apply (shape_by_creator _ Hk c); [by apply verify_length|]. rewrite (assoc_L (++)). by eexists. }
    rewrite by_creator_entry in Hv by done. simpl in Hv. unfold flag in Hv.
    by repeat case_match; simplify_eq.
  - pose proof (verify_length c Hc) as Hlen.
    intros key s'. unfold ContractsByCreator, not_nil, lift, mbind, M_bind, mret, M_ret.
    cbn [QA_Address QA_Pagination]. rewrite ensurePaginationParams_page. unfold or_fail, mret, M_ret.
    rewrite bech32_roundtrip by done. unfold GetContractsByCreatorPrefix.
    rewrite MustLengthPrefix_spec by done. reflexivity.
Qed.

(** C18: listings are complete. On a store that represents a registry, a client
    that follows the pages from the empty key on, whatever page size it asks
    for, is given exactly the codes of the registry, the pinned codes, the
    contracts that run a code, and the contracts an address created, each
    once; and the queries change nothing but the meter. *)
Theorem listings_complete limit fuel :
  size (kv s) < fuel ->
  (exists mt rs, fetch (fun req => Codes (Some (Some req))) limit [] fuel s
     = (Ret (Some rs), set_meter mt s) /\ lists_codes rs)
  /\ (exists mt rs, fetch (fun req => PinnedCodes (Some (Some req))) limit [] fuel s
     = (Ret (Some rs), set_meter mt s) /\ lists (fun id => id ∈ pinned a) rs)
  /\ (forall id, is_u64 id -> id <> 0%N -> exists mt rs,
        fetch (fun req => ContractsByCode (Some (mkQueryCodePage id (Some req)))) limit [] fuel s
        = (Ret (Some rs), set_meter mt s) /\ lists_contracts (fun i => CodeID i = id) rs)
  /\ (forall c, VerifyAddressFormat c = None -> exists mt rs,
        fetch (fun req => ContractsByCreator (Some (mkQueryAddressPage (AccAddress_String c) (Some req))))
          limit [] fuel s
        = (Ret (Some rs), set_meter mt s)
        /\ lists_contracts (fun i => Creator i = AccAddress_String c) rs).
Proof.
  intros Hf. split_and!.
  - by apply Codes_fetch.
  - by apply PinnedCodes_fetch.
  - intros. by apply ContractsByCode_fetch.
  - intros. by apply ContractsByCreator_fetch.
Qed.

(** ** Lookups *)

Lemma run_kv_get k s1 : exists mt, kv_get k s1 = (Ret (kv s1 !! k), set_meter mt s1).
Proof.
  destruct (unmetered (OpGet k (kv s1 !! k)) s1) as [mt E]. exists mt.
  unfold kv_get, gets, mbind, M_bind, mret, M_ret. by rewrite E.
Qed.
Lemma run_kv_has k s1 :
  exists mt, kv_has k s1 = (Ret (bool_decide (is_Some (kv s1 !! k))), set_meter mt s1).
Proof.
  destruct (unmetered (OpHas k) s1) as [mt E]. exists mt.
  unfold kv_has, gets, mbind, M_bind. by rewrite E.
Qed.

Lemma run_GetContractInfo addr :
  exists mt, GetContractInfo addr s = (Ret (contracts a !! addr), set_meter mt s).
Proof.
  destruct (run_kv_get (GetContractAddressKey addr) s) as [mt E]. exists mt.
  pose proof (Hr (KContract addr) ltac:(done)) as Hv. cbn [entry_key encode] in Hv.
  rewrite Hv in E. unfold GetContractInfo, must, mbind, M_bind. rewrite E.
  destruct (contracts a !! addr) as [i|] eqn:Hi; [|done].
  change (marshal <$> Some i) with (Some (marshal i)). cbv beta iota.
  destruct (sto_contracts a St addr i Hi). unfold MustUnmarshal. by rewrite codec_roundtrip.
Qed.
Lemma run_GetCodeInfo id :
  is_u64 id -> exists mt, GetCodeInfo id s = (Ret (codes a !! id), set_meter mt s).
Proof.
  intros Hid. destruct (run_kv_get (GetCodeKey id) s) as [mt E]. exists mt.
  pose proof (Hr (KCode id) ltac:(done)) as Hv. cbn [entry_key encode] in Hv.
  rewrite Hv in E. unfold GetCodeInfo, must, mbind, M_bind. rewrite E.
  destruct (codes a !! id) as [c|] eqn:Hc; [|done].
  change (marshal <$> Some c) with (Some (marshal c)). cbv beta iota.
  destruct (sto_codes a St id c Hc). unfold MustUnmarshal. by rewrite codec_roundtrip.
Qed.

(** C19: lookups are exact. On a store that represents a registry, the queries
    for a contract and for a code answer with its record, or with the error
    for an unknown contract or code when the registry has none; a raw query
    answers with what the contract's own storage holds at the key. Nothing but
    the meter changes. *)
Theorem lookups_exact :
  (forall addr, VerifyAddressFormat addr = None -> exists mt,
     ContractInfo (Some (AccAddress_String addr)) s
     = (match contracts a !! addr with
        | Some i => Ret (AccAddress_String addr, i)
        | None => Fail (errNoContract addr)
        end, set_meter mt s))
  /\ (forall id, is_u64 id -> id <> 0%N -> exists mt,
     CodeInfo (Some id) s
     = (match codes a !! id with
        | Some c => Ret (code_response id c)
        | None => Fail (errNoCode id)
        end, set_meter mt s))
  /\ (forall addr key, VerifyAddressFormat addr = None -> exists mt,
     RawContractState (Some (mkQueryContractState (AccAddress_String addr) (Some key))) s
     = (match contracts a !! addr with
        | Some _ => Ret (kv s !! (GetContractStorePrefix addr ++ key))
        | None => Fail (errNoContract addr)
        end, set_meter mt s)).
Proof.
  split_and!.
  - intros addr Hv. destruct (run_GetContractInfo addr) as [mt E]. exists mt.
    unfold ContractInfo, not_nil, queryContractInfo, mbind, M_bind, mret, M_ret.
    rewrite bech32_roundtrip by done. unfold or_fail, mret, M_ret. rewrite E.
    by destruct (contracts a !! addr).
  - intros id Hid Hn. destruct (run_GetCodeInfo id Hid) as [mt E]. exists mt.
    unfold CodeInfo, queryCodeInfo, not_nil, guard_err, mbind, M_bind, mret, M_ret.
    rewrite !(proj2 (N.eqb_neq _ _) Hn), E. by destruct (codes a !! id).
  - intros addr key Hv. destruct (run_kv_has (GetContractAddressKey addr) s) as [mt E].
    pose proof (Hr (KContract addr) ltac:(done)) as He. cbn [entry_key encode] in He.
    rewrite He in E. destruct (run_kv_get (GetContractStorePrefix addr ++ key) (set_meter mt s)) as [mt' E'].
    unfold RawContractState, not_nil, HasContractInfo, must, guard_err, QueryRaw, mbind, M_bind, mret, M_ret.
    cbn [QS_Address QS_QueryData]. rewrite bech32_roundtrip by done. unfold or_fail, mret, M_ret.
    rewrite E. destruct (contracts a !! addr) as [i|].
    + exists mt'. rewrite bool_decide_true by by eexists. cbn [negb]. unfold must. by rewrite E'.
    + exists mt. rewrite bool_decide_false by by intros [? [=]]. done.
Qed.

(** The history of a contract is listed under every prefix of its address. *)
Lemma ContractHistory_fetch short limit fuel :
  VerifyAddressFormat short = None ->
  (forall k v, kv s !! (GetContractCodeHistoryElementPrefix short ++ k) = Some v ->
     exists e : ContractCodeHistoryEntry, stored e /\ v = marshal e) ->
  size (kv s) < fuel ->
  exists mt rs, fetch (fun req =>
      ContractHistory (Some (mkQueryAddressPage (AccAddress_String short) (Some req)))) limit [] fuel s
    = (Ret (Some rs), set_meter mt s)
    /\ forall rest e, e ∈ history_of a (short ++ rest) -> e ∈ rs.
Proof.
  intros Hv Hst Hf. set (out := fun (k v : bytes) => match unmarshal v with
    inl e => e | inr _ => Proto.ContractCodeHistoryEntry_zero end).
  destruct (fetch_all (GetContractCodeHistoryElementPrefix short) (fun _ => history_entry) out (kv s))
    with (fuel := fuel) (n := 0) (key := @nil byte) (s := s) (limit := limit) (query := fun req =>
      ContractHistory (Some (mkQueryAddressPage (AccAddress_String short) (Some req))))
    as [mt E]; [done| | | |done|by left| |].
  - intros k v acc r. simpl. case_match; by intros [= <-].
  - intros k v acc (e & [He Hsz] & ->)%Hst. unfold out, history_entry. by rewrite !codec_roundtrip.
  - intros key n s1 _ _. unfold ContractHistory, not_nil, mbind, M_bind, mret, M_ret.
    cbn [QA_Address QA_Pagination]. rewrite bech32_roundtrip by done. unfold or_fail at 1, mret, M_ret.
    rewrite ensurePaginationParams_page. reflexivity.
  - rewrite drop_0. pose proof (length_kv_prefixed (kv s) (GetContractCodeHistoryElementPrefix short)). lia.
  - rewrite drop_0 in E. exists mt. eexists. split; [exact E|]. intros rest e Hin.
    pose proof (sto_history a St (short ++ rest) e Hin) as [Hwf Hsz].
    apply list_elem_of_lookup in Hin as [n Hn].
    assert (N.of_nat (length (history_of a (short ++ rest))) <= MaxUint64)%N as Hl.
    { unfold history_of. destruct (history a !! _) eqn:Eh; simpl; [|lia].
      by apply (coh_history a C (short ++ rest)). }
    pose proof (lookup_lt_Some _ _ _ Hn) as Hlt.
    apply list_elem_of_fmap. exists (rest ++ Uint64ToBigEndian (N.of_nat n + 1), marshal e). split.
    + unfold uncurry, out. cbv beta iota. by rewrite codec_roundtrip.
    + apply elem_of_kv_prefixed.
      transitivity (kv s !! entry_key (KHistory (short ++ rest) (N.of_nat n + 1))).
      { cbn [entry_key]. unfold GetContractCodeHistoryElementKey, GetContractCodeHistoryElementPrefix.
        by rewrite <- !(assoc_L (++)). }
      rewrite (Hr (KHistory (short ++ rest) (N.of_nat n + 1)))
        by (split; [|done]; simpl; unfold is_u64, MaxUint64, two64 in *; lia).
      cbn [encode]. rewrite (proj2 (N.eqb_neq _ _)) by lia.
      by replace (N.to_nat (N.of_nat n + 1 - 1)) with n by lia; rewrite Hn.
Qed.

(** The history query answers for addresses that are no contracts. For an
    address that is a proper prefix of a contract's address, ContractHistory
    lists that contract's history, because neither the existence of a contract
    nor the length of the keys below the prefix is checked, unlike in the
    keeper's GetContractHistory. *)
Theorem ContractHistory_other_contract short rest i limit fuel :
  VerifyAddressFormat short = None -> contracts a !! short = None ->
  contracts a !! (short ++ rest) = Some i ->
  (forall k v, kv s !! (GetContractCodeHistoryElementPrefix short ++ k) = Some v ->
     exists e : ContractCodeHistoryEntry, stored e /\ v = marshal e) ->
  size (kv s) < fuel ->
  exists mt rs e, fetch (fun req =>
      ContractHistory (Some (mkQueryAddressPage (AccAddress_String short) (Some req)))) limit [] fuel s
    = (Ret (Some rs), set_meter mt s)
    /\ e ∈ rs /\ last (history_of a (short ++ rest)) = Some e.
Proof.
  intros Hv _ Hi Hst Hf.
  destruct (ContractHistory_fetch short limit fuel Hv Hst Hf) as (mt & rs & E & Hrs).
  destruct (contract_last a _ i (coh_contracts a C _ i Hi)) as (e & p & He & _).
  exists mt, rs, e. split_and!; [done| |done]. apply (Hrs rest).
  apply last_Some in He as [l ->]. apply elem_of_app. right. by apply list_elem_of_singleton.
Qed.

End Listings.

(** ** Addresses to be *)

Lemma contract_address_length bz addr :
  Keeper.contract_address bz = Ret addr -> length addr = ContractAddrLen.
Proof.
  unfold Keeper.contract_address. destruct (Nat.ltb_spec (length bz) ContractAddrLen); [done|].
  intros [= <-]. rewrite length_take. lia.
Qed.

(** C29: the address query predicts Instantiate2. When BuildAddress answers, the
    answer is the address that the keeper generates for a code with the given
    checksum, when the creator instantiates it with the given salt and, with
    fixed messages, the given init message. *)
Theorem BuildAddress_predicts req s str s' :
  BuildAddress (Some req) s = (Ret str, s') ->
  exists codeHash creator salt addr,
    hex_DecodeString (QB_CodeHash req) = inl codeHash
    /\ AccAddressFromBech32 (QB_CreatorAddress req) = inl creator
    /\ hex_DecodeString (QB_Salt req) = inl salt
    /\ str = AccAddress_String addr /\ length addr = ContractAddrLen
    /\ forall ctx id s1, Keeper.PredictableAddressGenerator (Some creator) salt
         (default [] (QB_InitArgs req)) (bool_decide (QB_InitArgs req <> None)) ctx id codeHash s1
         = (Ret addr, s1).
Proof.
  unfold BuildAddress, not_nil, map_err, or_fail, guard_err, mbind, M_bind, mret, M_ret, lift, fail.
  destruct (hex_DecodeString (QB_CodeHash req)) as [codeHash|]; [|done].
  destruct (AccAddressFromBech32 (QB_CreatorAddress req)) as [creator|]; [|done].
  destruct (hex_DecodeString (QB_Salt req)) as [salt|]; [|done].
  destruct (Nat.eqb (length salt) 0); [done|].
  destruct (consume DefaultGasCostBuildAddress "build address" s) as [[[]| |] s1]; [|done..].
  intros [= E <-]. exists codeHash, creator, salt. unfold build_address in E.
  assert (exists initMsg addr, initMsg = default [] (QB_InitArgs req)
    /\ Keeper.BuildContractAddressPredictable codeHash (Some creator) salt initMsg = Ret addr
    /\ str = AccAddress_String addr) as (initMsg & addr & -> & Ea & ->).
  { destruct (QB_InitArgs req) as [initMsg|]; simpl; [exists initMsg|exists []].
    - destruct (RawContractMessage_ValidateBasic initMsg); [done|].
      destruct (Keeper.BuildContractAddressPredictable _ _ _ initMsg) as [addr| |]; [|done..].
      exists addr. by injection E as <-.
    - destruct (Keeper.BuildContractAddressPredictable _ _ _ []) as [addr| |]; [|done..].
      exists addr. by injection E as <-. }
  exists addr. split_and!; [done..| |].
  - unfold Keeper.BuildContractAddressPredictable in Ea.
    by repeat case_match; simplify_eq; eapply contract_address_length.
  - intros ctx id s2. unfold Keeper.PredictableAddressGenerator, lift.
    by destruct (QB_InitArgs req); simpl in *; rewrite Ea.
Qed.

(** The address query panics on a checksum of the wrong length. Of the
    arguments that BuildContractAddressPredictable requires, BuildAddress
    checks the creator and that the salt is not empty, and not that the
    decoded checksum has 32 bytes. *)
Theorem BuildAddress_wrong_checksum req codeHash creator salt s :
  hex_DecodeString (QB_CodeHash req) = inl codeHash -> length codeHash <> 32 ->
  AccAddressFromBech32 (QB_CreatorAddress req) = inl creator ->
  hex_DecodeString (QB_Salt req) = inl salt -> salt <> [] -> QB_InitArgs req = None ->
  exists p, (BuildAddress (Some req) s).1 = Panic p.
Proof.
  intros Hh Hl Hc Hs Hn Hi.
  unfold BuildAddress, not_nil, map_err, or_fail, guard_err, mbind, M_bind, mret, M_ret, lift.
  rewrite Hh, Hc, Hs, Hi. destruct salt as [|b salt]; [done|]. cbn [length Nat.eqb].
  destruct (consume DefaultGasCostBuildAddress "build address" s) as [[[]|e|p] s1] eqn:E.
  - exists (PText "invalid checksum"). simpl. unfold Keeper.BuildContractAddressPredictable.
    by rewrite (proj2 (Nat.eqb_neq _ _) Hl).
  - unfold consume in E. by destruct (ConsumeGas _ _ _) as [? []].
  - by exists p.
Qed.

End Querier.
End Querier.
