(* ===== verification/Gateway.v ===== *)
(** The REST gateway of the query service (x/wasm/types/query.pb.gw.go): how
    the path and the query string of a GET request become a request of the
    service, and how the routes are registered. The library behind the
    gateway (grpc-gateway) is a parameter: what it documents of path
    patterns, of the order of routes and of query parameters is stated as
    laws. *)
From S2P Require Import Prelude Errors GoStrings Json Types Proto Keys VMTypes Policy GasRegister Chain Engine Store Keeper Msgs Querier.
Import GoStrings.
Open Scope wasm_scope.

(** ** The query service (query.pb.go): requests and responses *)

Inductive Request :=
| QueryContractInfoRequest (address : string)
| QueryContractHistoryRequest (req : QueryAddressPage)
| QueryContractsByCodeRequest (req : QueryCodePage)
| QueryAllContractStateRequest (req : QueryAddressPage)
| QueryRawContractStateRequest (req : QueryContractState)
| QuerySmartContractStateRequest (req : QueryContractState)
| QueryCodeRequest (code_id : N)
| QueryCodesRequest (pagination : option PageRequest)
| QueryCodeInfoRequest (code_id : N)
| QueryPinnedCodesRequest (pagination : option PageRequest)
| QueryParamsRequest
| QueryContractsByCreatorRequest (req : QueryAddressPage)
| QueryWasmLimitsConfigRequest
| QueryBuildAddressReq (req : QueryBuildAddressRequest).
Inductive Response :=
| QueryContractInfoResponse (r : string * Types.ContractInfo)
| QueryContractHistoryResponse (r : list ContractCodeHistoryEntry * PageResponse)
| QueryContractsByCodeResponse (r : list string * PageResponse)
| QueryAllContractStateResponse (r : list Model * PageResponse)
| QueryRawContractStateResponse (data : option bytes)
| QuerySmartContractStateResponse (data : bytes)
| QueryCodeResponse (r : CodeInfoResponse * option bytes)
| QueryCodesResponse (r : list CodeInfoResponse * PageResponse)
| QueryCodeInfoResponse (r : CodeInfoResponse)
| QueryPinnedCodesResponse (r : list N * PageResponse)
| QueryParamsResponse (params : Params)
| QueryContractsByCreatorResponse (r : list string * PageResponse)
| QueryWasmLimitsConfigResponse (config : string)
| QueryBuildAddressResponse (address : string).

(** A client or a server of the service: its methods by their request. *)
Definition Service `{GasMeters, Modules} : Type := Context -> Request -> M Response.

(** ** The library (grpc-gateway runtime and utilities) *)

(** The messages that are filled from a query string. *)
Inductive MessageType : Type -> Type :=
| THistory : MessageType QueryAddressPage
| TByCode : MessageType QueryCodePage
| TAllState : MessageType QueryAddressPage
| TCodes : MessageType (option PageRequest)
| TPinned : MessageType (option PageRequest)
| TByCreator : MessageType QueryAddressPage
| TBuild : MessageType QueryBuildAddressRequest.
Record DoubleArray := mkDoubleArray {
  Encoding : list (string * nat); Base : list nat; Check_ : list nat }.
Definition Values : Type := list (string * list string).
Definition PathParams : Type := list (string * string).
(** A GET request: what ParseForm makes of its query string. *)
Record HTTPRequest := mkHTTPRequest { R_Form : Values + error }.
Inductive HTTPReply := ForwardResponseMessage (resp : Response) | HTTPError (err : error).
Definition Handler `{GasMeters, Modules} : Type := Context -> HTTPRequest -> PathParams -> M HTTPReply.

Class GatewayRuntime `{GasMeters, Modules} := {
  runtime_String : string -> string + error;
  runtime_Uint64 : string -> N + error;
  runtime_Bytes : string -> bytes + error;
  (** the text that runtime_Bytes reads *)
  bytes_text : bytes -> string;
  PopulateQueryParameters : forall {A}, MessageType A -> A -> Values -> DoubleArray -> A + error;
  AnnotateContext : Context -> HTTPRequest -> Context + error;
  AnnotateIncomingContext : Context -> HTTPRequest -> Context + error;
  Pattern : Type;
  (** MustPattern(NewPattern(version, ops, pool, verb, AssumeColonVerbOpt)) *)
  MustPattern : N -> list nat -> list string -> string -> bool -> Pattern;
  ServeMux : Type;
  NewServeMux : ServeMux;
  Handle : ServeMux -> string -> Pattern -> Handler -> ServeMux;
  (** the handler for a method and the components of a path, and what its
      pattern captures *)
  Match : Pattern -> list string -> option PathParams;
  Route : ServeMux -> string -> list string -> option (Handler * PathParams);
}.

(** What the library documents of its op codes: a component is pushed, a
    literal has to match and is pushed, components are joined, a component
    is bound to a variable. *)
Fixpoint pairs (ops : list nat) : list (nat * nat) :=
  match ops with
  | code :: operand :: ops' => (code, operand) :: pairs ops'
  | _ => []
  end.
Fixpoint interpret (ops : list (nat * nat)) (pool comps stack : list string) (captured : PathParams)
    : option PathParams :=
  match ops with
  | [] => match comps with [] => Some captured | _ => None end
  | (1, _) :: ops' =>
      match comps with c :: comps' => interpret ops' pool comps' (c :: stack) captured | [] => None end
  | (2, i) :: ops' =>
      match comps, pool !! i with
      | c :: comps', Some lit =>
          if String.eqb c lit then interpret ops' pool comps' (c :: stack) captured else None
      | _, _ => None
      end
  | (4, 1) :: ops' => interpret ops' pool comps stack captured
  | (5, i) :: ops' =>
      match stack, pool !! i with
      | c :: stack', Some name => interpret ops' pool comps stack' (captured ++ [(name, c)])
      | _, _ => None
      end
  | _ => None
  end.
(** Patterns of these op codes whose operands are in range. *)
Fixpoint wf_ops (ops : list (nat * nat)) (pool : list string) (depth : nat) : bool :=
  match ops with
  | [] => true
  | (1, _) :: ops' => wf_ops ops' pool (S depth)
  | (2, i) :: ops' => Nat.ltb i (length pool) && wf_ops ops' pool (S depth)
  | (4, 1) :: ops' => Nat.ltb 0 depth && wf_ops ops' pool depth
  | (5, i) :: ops' => Nat.ltb 0 depth && Nat.ltb i (length pool) && wf_ops ops' pool (pred depth)
  | _ => false
  end.
Section Library.
Context `{GatewayRuntime}.
Fixpoint first_match (routes : list (string * Pattern * Handler)) (meth : string) (comps : list string)
    : option (Handler * PathParams) :=
  match routes with
  | [] => None
  | (m, pat, h) :: routes' =>
      if String.eqb m meth then
        match Match pat comps with
        | Some pathParams => Some (h, pathParams)
        | None => first_match routes' meth comps
        end
      else first_match routes' meth comps
  end.
Definition register (mux : ServeMux) (r : string * Pattern * Handler) : ServeMux :=
  Handle mux r.1.1 r.1.2 r.2.
(** A value is ignored when its key starts with an element of the filter. *)
Definition ignored (filter : DoubleArray) (v : string * list string) : bool :=
  existsb (fun e : string * nat => String.prefix e.1 v.1) (Encoding filter).
Definition bool_text (b : bool) : string := if b then "true" else "false".
Definition page_form (p : option PageRequest) : Values :=
  match p with
  | None => []
  | Some p =>
      [("pagination.key", [bytes_text (Page_Key p)]); ("pagination.offset", [pretty (Page_Offset p)]);
       ("pagination.limit", [pretty (Page_Limit p)]); ("pagination.count_total", [bool_text (Page_CountTotal p)]);
       ("pagination.reverse", [bool_text (Page_Reverse p)])]%string
  end.
Definition paginated {A} (T : MessageType A) : A -> option PageRequest -> A :=
  match T with
  | THistory | TAllState | TByCreator => fun m p => mkQueryAddressPage (QA_Address m) p
  | TByCode => fun m p => mkQueryCodePage (QC_CodeId m) p
  | TCodes | TPinned => fun _ p => p
  | TBuild => fun m _ => m
  end.
Definition page_ok (p : option PageRequest) : Prop :=
  match p with None => True | Some p => (Page_Offset p < 2 ^ 64)%N /\ (Page_Limit p < 2 ^ 64)%N end.
Class GatewayRuntimeLaws : Prop := {
  String_same : forall s, runtime_String s = inl s;
  Uint64_decimal : forall n : N, (n < 2 ^ 64)%N -> runtime_Uint64 (pretty n) = inl n;
  Bytes_decoded : forall bs, runtime_Bytes (bytes_text bs) = inl bs;
  Match_ops : forall ops pool comps, wf_ops (pairs ops) pool 0 = true ->
    Match (MustPattern 1 ops pool "" false) comps = interpret (pairs ops) pool comps [] [];
  Route_first : forall routes meth comps,
    Route (foldl register NewServeMux routes) meth comps = first_match routes meth comps;
  Populate_ignored : forall A (T : MessageType A) m form filter,
    PopulateQueryParameters T m form filter
    = PopulateQueryParameters T m (List.filter (fun v => negb (ignored filter v)) form) filter;
  Populate_page : forall A (T : MessageType A) m p filter,
    page_ok p -> existsb (ignored filter) (page_form p) = false ->
    PopulateQueryParameters T (paginated T m None) (page_form p) filter = inl (paginated T m p);
}.
End Library.

Module Gateway.
Section Gateway.
Context `{GatewayRuntime, !ErrorsMod}.

(** A variable of the path, converted by the library. *)
Fixpoint path_param (pathParams : PathParams) (name : string) : option string :=
  match pathParams with
  | [] => None
  | (n, val) :: pathParams' => if String.eqb n name then Some val else path_param pathParams' name
  end.
Definition path_value {A} (convert : string -> A + error) (pathParams : PathParams) (name : string) : M A :=
  match path_param pathParams name with
  | None => fail (Querier.InvalidArgument (String.append "missing parameter " name))
  | Some val =>
      match convert val with
      | inl x => mret x
      | inr err => fail (Querier.InvalidArgument (String.append "type mismatch, parameter: "
                     (String.append name (String.append ", error: " (error_string err)))))
      end
  end.
Definition path_String := path_value runtime_String.
Definition path_Uint64 := path_value runtime_Uint64.
Definition path_Bytes := path_value runtime_Bytes.
(** ParseForm and PopulateQueryParameters *)
Definition query_params {A} (T : MessageType A) (protoReq : A) (req : HTTPRequest) (filter : DoubleArray) : M A :=
  match R_Form req with
  | inr err => fail (Querier.InvalidArgument (error_string err))
  | inl form =>
      match PopulateQueryParameters T protoReq form filter with
      | inl protoReq => mret protoReq
      | inr err => fail (Querier.InvalidArgument (error_string err))
      end
  end.

(** *** The requests of the service, over a client and in the process *)

Definition request_Query_ContractInfo_0 (ctx : Context) (client : Service) (req : HTTPRequest)
    (pathParams : PathParams) : M Response :=
  address ← path_String pathParams "address";
  client ctx (QueryContractInfoRequest address).
Definition local_request_Query_ContractInfo_0 (ctx : Context) (server : Service) (req : HTTPRequest)
    (pathParams : PathParams) : M Response :=
  address ← path_String pathParams "address";
  server ctx (QueryContractInfoRequest address).
Definition filter_Query_ContractHistory_0 : DoubleArray :=
  mkDoubleArray [("address"%string, 0)] [1; 1; 0] [0; 1; 2].
Definition request_Query_ContractHistory_0 (ctx : Context) (client : Service) (req : HTTPRequest)
    (pathParams : PathParams) : M Response :=
  address ← path_String pathParams "address";
  protoReq ← query_params THistory (mkQueryAddressPage address None) req filter_Query_ContractHistory_0;
  client ctx (QueryContractHistoryRequest protoReq).
Definition local_request_Query_ContractHistory_0 (ctx : Context) (server : Service) (req : HTTPRequest)
    (pathParams : PathParams) : M Response :=
  address ← path_String pathParams "address";
  protoReq ← query_params THistory (mkQueryAddressPage address None) req filter_Query_ContractHistory_0;
  server ctx (QueryContractHistoryRequest protoReq).
Definition filter_Query_ContractsByCode_0 : DoubleArray :=
  mkDoubleArray [("code_id"%string, 0)] [1; 1; 0] [0; 1; 2].
Definition request_Query_ContractsByCode_0 (ctx : Context) (client : Service) (req : HTTPRequest)
    (pathParams : PathParams) : M Response :=
  codeId ← path_Uint64 pathParams "code_id";
  protoReq ← query_params TByCode (mkQueryCodePage codeId None) req filter_Query_ContractsByCode_0;
  client ctx (QueryContractsByCodeRequest protoReq).
Definition local_request_Query_ContractsByCode_0 (ctx : Context) (server : Service) (req : HTTPRequest)
    (pathParams : PathParams) : M Response :=
  codeId ← path_Uint64 pathParams "code_id";
  protoReq ← query_params TByCode (mkQueryCodePage codeId None) req filter_Query_ContractsByCode_0;
  server ctx (QueryContractsByCodeRequest protoReq).
Definition filter_Query_AllContractState_0 : DoubleArray :=
  mkDoubleArray [("address"%string, 0)] [1; 1; 0] [0; 1; 2].
Definition request_Query_AllContractState_0 (ctx : Context) (client : Service) (req : HTTPRequest)
    (pathParams : PathParams) : M Response :=
  address ← path_String pathParams "address";
  protoReq ← query_params TAllState (mkQueryAddressPage address None) req filter_Query_AllContractState_0;
  client ctx (QueryAllContractStateRequest protoReq).
Definition local_request_Query_AllContractState_0 (ctx : Context) (server : Service) (req : HTTPRequest)
    (pathParams : PathParams) : M Response :=
  address ← path_String pathParams "address";
  protoReq ← query_params TAllState (mkQueryAddressPage address None) req filter_Query_AllContractState_0;
  server ctx (QueryAllContractStateRequest protoReq).
Definition request_Query_RawContractState_0 (ctx : Context) (client : Service) (req : HTTPRequest)
    (pathParams : PathParams) : M Response :=
  address ← path_String pathParams "address";
  queryData ← path_Bytes pathParams "query_data";
  client ctx (QueryRawContractStateRequest (mkQueryContractState address (Some queryData))).
Definition local_request_Query_RawContractState_0 (ctx : Context) (server : Service) (req : HTTPRequest)
    (pathParams : PathParams) : M Response :=
  address ← path_String pathParams "address";
  queryData ← path_Bytes pathParams "query_data";
  server ctx (QueryRawContractStateRequest (mkQueryContractState address (Some queryData))).
Definition request_Query_SmartContractState_0 (ctx : Context) (client : Service) (req : HTTPRequest)
    (pathParams : PathParams) : M Response :=
  address ← path_String pathParams "address";
  queryData ← path_Bytes pathParams "query_data";
  client ctx (QuerySmartContractStateRequest (mkQueryContractState address (Some queryData))).
Definition local_request_Query_SmartContractState_0 (ctx : Context) (server : Service) (req : HTTPRequest)
    (pathParams : PathParams) : M Response :=
  address ← path_String pathParams "address";
  queryData ← path_Bytes pathParams "query_data";
  server ctx (QuerySmartContractStateRequest (mkQueryContractState address (Some queryData))).
Definition request_Query_Code_0 (ctx : Context) (client : Service) (req : HTTPRequest)
    (pathParams : PathParams) : M Response :=
  codeId ← path_Uint64 pathParams "code_id";
  client ctx (QueryCodeRequest codeId).
Definition local_request_Query_Code_0 (ctx : Context) (server : Service) (req : HTTPRequest)
    (pathParams : PathParams) : M Response :=
  codeId ← path_Uint64 pathParams "code_id";
  server ctx (QueryCodeRequest codeId).
Definition filter_Query_Codes_0 : DoubleArray := mkDoubleArray [] [] [].
Definition request_Query_Codes_0 (ctx : Context) (client : Service) (req : HTTPRequest)
    (pathParams : PathParams) : M Response :=
  protoReq ← query_params TCodes None req filter_Query_Codes_0;
  client ctx (QueryCodesRequest protoReq).
Definition local_request_Query_Codes_0 (ctx : Context) (server : Service) (req : HTTPRequest)
    (pathParams : PathParams) : M Response :=
  protoReq ← query_params TCodes None req filter_Query_Codes_0;
  server ctx (QueryCodesRequest protoReq).
Definition request_Query_CodeInfo_0 (ctx : Context) (client : Service) (req : HTTPRequest)
    (pathParams : PathParams) : M Response :=
  codeId ← path_Uint64 pathParams "code_id";
  client ctx (QueryCodeInfoRequest codeId).
Definition local_request_Query_CodeInfo_0 (ctx : Context) (server : Service) (req : HTTPRequest)
    (pathParams : PathParams) : M Response :=
  codeId ← path_Uint64 pathParams "code_id";
  server ctx (QueryCodeInfoRequest codeId).
Definition filter_Query_PinnedCodes_0 : DoubleArray := mkDoubleArray [] [] [].
Definition request_Query_PinnedCodes_0 (ctx : Context) (client : Service) (req : HTTPRequest)
    (pathParams : PathParams) : M Response :=
  protoReq ← query_params TPinned None req filter_Query_PinnedCodes_0;
  client ctx (QueryPinnedCodesRequest protoReq).
Definition local_request_Query_PinnedCodes_0 (ctx : Context) (server : Service) (req : HTTPRequest)
    (pathParams : PathParams) : M Response :=
  protoReq ← query_params TPinned None req filter_Query_PinnedCodes_0;
  server ctx (QueryPinnedCodesRequest protoReq).
Definition request_Query_Params_0 (ctx : Context) (client : Service) (req : HTTPRequest)
    (pathParams : PathParams) : M Response :=
  client ctx QueryParamsRequest.
Definition local_request_Query_Params_0 (ctx : Context) (server : Service) (req : HTTPRequest)
    (pathParams : PathParams) : M Response :=
  server ctx QueryParamsRequest.
Definition filter_Query_ContractsByCreator_0 : DoubleArray :=
  mkDoubleArray [("creator_address"%string, 0)] [1; 1; 0] [0; 1; 2].
Definition request_Query_ContractsByCreator_0 (ctx : Context) (client : Service) (req : HTTPRequest)
    (pathParams : PathParams) : M Response :=
  creatorAddress ← path_String pathParams "creator_address";
  protoReq ← query_params TByCreator (mkQueryAddressPage creatorAddress None) req
    filter_Query_ContractsByCreator_0;
  client ctx (QueryContractsByCreatorRequest protoReq).
Definition local_request_Query_ContractsByCreator_0 (ctx : Context) (server : Service) (req : HTTPRequest)
    (pathParams : PathParams) : M Response :=
  creatorAddress ← path_String pathParams "creator_address";
  protoReq ← query_params TByCreator (mkQueryAddressPage creatorAddress None) req
    filter_Query_ContractsByCreator_0;
  server ctx (QueryContractsByCreatorRequest protoReq).
Definition request_Query_WasmLimitsConfig_0 (ctx : Context) (client : Service) (req : HTTPRequest)
    (pathParams : PathParams) : M Response :=
  client ctx QueryWasmLimitsConfigRequest.
Definition local_request_Query_WasmLimitsConfig_0 (ctx : Context) (server : Service) (req : HTTPRequest)
    (pathParams : PathParams) : M Response :=
  server ctx QueryWasmLimitsConfigRequest.
Definition filter_Query_BuildAddress_0 : DoubleArray := mkDoubleArray [] [] [].
Definition request_Query_BuildAddress_0 (ctx : Context) (client : Service) (req : HTTPRequest)
    (pathParams : PathParams) : M Response :=
  protoReq ← query_params TBuild (mkQueryBuildAddressRequest "" "" "" None) req filter_Query_BuildAddress_0;
  client ctx (QueryBuildAddressReq protoReq).
Definition local_request_Query_BuildAddress_0 (ctx : Context) (server : Service) (req : HTTPRequest)
    (pathParams : PathParams) : M Response :=
  protoReq ← query_params TBuild (mkQueryBuildAddressRequest "" "" "" None) req filter_Query_BuildAddress_0;
  server ctx (QueryBuildAddressReq protoReq).

(** *** Routes *)

Definition pattern_Query_ContractInfo_0 : Pattern := MustPattern 1
  [2; 0; 2; 1; 2; 2; 2; 3; 1; 0; 4; 1; 5; 4]
  ["cosmwasm"; "wasm"; "v1"; "contract"; "address"]%string "" false.
Definition pattern_Query_ContractHistory_0 : Pattern := MustPattern 1
  [2; 0; 2; 1; 2; 2; 2; 3; 1; 0; 4; 1; 5; 4; 2; 5]
  ["cosmwasm"; "wasm"; "v1"; "contract"; "address"; "history"]%string "" false.
Definition pattern_Query_ContractsByCode_0 : Pattern := MustPattern 1
  [2; 0; 2; 1; 2; 2; 2; 3; 1; 0; 4; 1; 5; 4; 2; 5]
  ["cosmwasm"; "wasm"; "v1"; "code"; "code_id"; "contracts"]%string "" false.
Definition pattern_Query_AllContractState_0 : Pattern := MustPattern 1
  [2; 0; 2; 1; 2; 2; 2; 3; 1; 0; 4; 1; 5; 4; 2; 5]
  ["cosmwasm"; "wasm"; "v1"; "contract"; "address"; "state"]%string "" false.
Definition pattern_Query_RawContractState_0 : Pattern := MustPattern 1
  [2; 0; 2; 1; 2; 2; 2; 3; 1; 0; 4; 1; 5; 4; 2; 5; 1; 0; 4; 1; 5; 6]
  ["cosmwasm"; "wasm"; "v1"; "contract"; "address"; "raw"; "query_data"]%string "" false.
Definition pattern_Query_SmartContractState_0 : Pattern := MustPattern 1
  [2; 0; 2; 1; 2; 2; 2; 3; 1; 0; 4; 1; 5; 4; 2; 5; 1; 0; 4; 1; 5; 6]
  ["cosmwasm"; "wasm"; "v1"; "contract"; "address"; "smart"; "query_data"]%string "" false.
Definition pattern_Query_Code_0 : Pattern := MustPattern 1
  [2; 0; 2; 1; 2; 2; 2; 3; 1; 0; 4; 1; 5; 4]
  ["cosmwasm"; "wasm"; "v1"; "code"; "code_id"]%string "" false.
Definition pattern_Query_Codes_0 : Pattern := MustPattern 1
  [2; 0; 2; 1; 2; 2; 2; 3]
  ["cosmwasm"; "wasm"; "v1"; "code"]%string "" false.
Definition pattern_Query_CodeInfo_0 : Pattern := MustPattern 1
  [2; 0; 2; 1; 2; 2; 2; 3; 1; 0; 4; 1; 5; 4]
  ["cosmwasm"; "wasm"; "v1"; "code-info"; "code_id"]%string "" false.
Definition pattern_Query_PinnedCodes_0 : Pattern := MustPattern 1
  [2; 0; 2; 1; 2; 2; 2; 3; 2; 4]
  ["cosmwasm"; "wasm"; "v1"; "codes"; "pinned"]%string "" false.
Definition pattern_Query_Params_0 : Pattern := MustPattern 1
  [2; 0; 2; 1; 2; 2; 2; 3; 2; 4]
  ["cosmwasm"; "wasm"; "v1"; "codes"; "params"]%string "" false.
Definition pattern_Query_ContractsByCreator_0 : Pattern := MustPattern 1
  [2; 0; 2; 1; 2; 2; 2; 3; 2; 4; 1; 0; 4; 1; 5; 5]
  ["cosmwasm"; "wasm"; "v1"; "contracts"; "creator"; "creator_address"]%string "" false.
Definition pattern_Query_WasmLimitsConfig_0 : Pattern := MustPattern 1
  [2; 0; 2; 1; 2; 2; 2; 3]
  ["cosmwasm"; "wasm"; "v1"; "wasm-limits-config"]%string "" false.
Definition pattern_Query_BuildAddress_0 : Pattern := MustPattern 1
  [2; 0; 2; 1; 2; 2; 2; 3; 2; 4]
  ["cosmwasm"; "wasm"; "v1"; "contract"; "build_address"]%string "" false.

(** The closures given to mux.Handle: an error is written as the reply, an
    answer is forwarded. *)
Definition reply (m : M Response) : M HTTPReply :=
  r ← catch m;
  mret (match r with inl resp => ForwardResponseMessage resp | inr err => HTTPError err end).
Definition local_handler (local_request : Context -> Service -> HTTPRequest -> PathParams -> M Response)
    (server : Service) : Handler := fun ctx req pathParams =>
  match AnnotateIncomingContext ctx req with
  | inr err => mret (HTTPError err)
  | inl rctx => reply (local_request rctx server req pathParams)
  end.
Definition client_handler (request : Context -> Service -> HTTPRequest -> PathParams -> M Response)
    (client : Service) : Handler := fun ctx req pathParams =>
  match AnnotateContext ctx req with
  | inr err => mret (HTTPError err)
  | inl rctx => reply (request rctx client req pathParams)
  end.

Definition server_routes (server : Service) : list (string * Pattern * Handler) := [
  ("GET"%string, pattern_Query_ContractInfo_0, local_handler local_request_Query_ContractInfo_0 server);
  ("GET"%string, pattern_Query_ContractHistory_0, local_handler local_request_Query_ContractHistory_0 server);
  ("GET"%string, pattern_Query_ContractsByCode_0, local_handler local_request_Query_ContractsByCode_0 server);
  ("GET"%string, pattern_Query_AllContractState_0, local_handler local_request_Query_AllContractState_0 server);
  ("GET"%string, pattern_Query_RawContractState_0, local_handler local_request_Query_RawContractState_0 server);
  ("GET"%string, pattern_Query_SmartContractState_0, local_handler local_request_Query_SmartContractState_0 server);
  ("GET"%string, pattern_Query_Code_0, local_handler local_request_Query_Code_0 server);
  ("GET"%string, pattern_Query_Codes_0, local_handler local_request_Query_Codes_0 server);
  ("GET"%string, pattern_Query_CodeInfo_0, local_handler local_request_Query_CodeInfo_0 server);
  ("GET"%string, pattern_Query_PinnedCodes_0, local_handler local_request_Query_PinnedCodes_0 server);
  ("GET"%string, pattern_Query_Params_0, local_handler local_request_Query_Params_0 server);
  ("GET"%string, pattern_Query_ContractsByCreator_0, local_handler local_request_Query_ContractsByCreator_0 server);
  ("GET"%string, pattern_Query_WasmLimitsConfig_0, local_handler local_request_Query_WasmLimitsConfig_0 server);
  ("GET"%string, pattern_Query_BuildAddress_0, local_handler local_request_Query_BuildAddress_0 server)].
Definition RegisterQueryHandlerServer (mux : ServeMux) (server : Service) : ServeMux :=
  foldl register mux (server_routes server).
Definition client_routes (client : Service) : list (string * Pattern * Handler) := [
  ("GET"%string, pattern_Query_ContractInfo_0, client_handler request_Query_ContractInfo_0 client);
  ("GET"%string, pattern_Query_ContractHistory_0, client_handler request_Query_ContractHistory_0 client);
  ("GET"%string, pattern_Query_ContractsByCode_0, client_handler request_Query_ContractsByCode_0 client);
  ("GET"%string, pattern_Query_AllContractState_0, client_handler request_Query_AllContractState_0 client);
  ("GET"%string, pattern_Query_RawContractState_0, client_handler request_Query_RawContractState_0 client);
  ("GET"%string, pattern_Query_SmartContractState_0, client_handler request_Query_SmartContractState_0 client);
  ("GET"%string, pattern_Query_Code_0, client_handler request_Query_Code_0 client);
  ("GET"%string, pattern_Query_Codes_0, client_handler request_Query_Codes_0 client);
  ("GET"%string, pattern_Query_CodeInfo_0, client_handler request_Query_CodeInfo_0 client);
  ("GET"%string, pattern_Query_PinnedCodes_0, client_handler request_Query_PinnedCodes_0 client);
  ("GET"%string, pattern_Query_Params_0, client_handler request_Query_Params_0 client);
  ("GET"%string, pattern_Query_ContractsByCreator_0, client_handler request_Query_ContractsByCreator_0 client);
  ("GET"%string, pattern_Query_WasmLimitsConfig_0, client_handler request_Query_WasmLimitsConfig_0 client);
  ("GET"%string, pattern_Query_BuildAddress_0, client_handler request_Query_BuildAddress_0 client)].
Definition RegisterQueryHandlerClient (mux : ServeMux) (client : Service) : ServeMux :=
  foldl register mux (client_routes client).

(** *** The path and the query string for a request *)

Definition base : list string := ["cosmwasm"; "wasm"; "v1"]%string.
Definition path_of (r : Request) : list string :=
  base ++ match r with
  | QueryContractInfoRequest a => ["contract"; a]
  | QueryContractHistoryRequest q => ["contract"; QA_Address q; "history"]
  | QueryContractsByCodeRequest q => ["code"; pretty (QC_CodeId q); "contracts"]
  | QueryAllContractStateRequest q => ["contract"; QA_Address q; "state"]
  | QueryRawContractStateRequest q => ["contract"; QS_Address q; "raw"; bytes_text (default [] (QS_QueryData q))]
  | QuerySmartContractStateRequest q =>
      ["contract"; QS_Address q; "smart"; bytes_text (default [] (QS_QueryData q))]
  | QueryCodeRequest id => ["code"; pretty id]
  | QueryCodesRequest _ => ["code"]
  | QueryCodeInfoRequest id => ["code-info"; pretty id]
  | QueryPinnedCodesRequest _ => ["codes"; "pinned"]
  | QueryParamsRequest => ["codes"; "params"]
  | QueryContractsByCreatorRequest q => ["contracts"; "creator"; QA_Address q]
  | QueryWasmLimitsConfigRequest => ["wasm-limits-config"]
  | QueryBuildAddressReq _ => ["contract"; "build_address"]
  end%string.
Definition pagination_of (r : Request) : option PageRequest :=
  match r with
  | QueryContractHistoryRequest q | QueryAllContractStateRequest q | QueryContractsByCreatorRequest q =>
      QA_Pagination q
  | QueryContractsByCodeRequest q => QC_Pagination q
  | QueryCodesRequest p | QueryPinnedCodesRequest p => p
  | _ => None
  end.
(** What can be written: numbers of 64 bits, key or query data given. *)
Definition writable (r : Request) : Prop :=
  page_ok (pagination_of r) /\
  match r with
  | QueryContractsByCodeRequest q => (QC_CodeId q < 2 ^ 64)%N
  | QueryRawContractStateRequest q | QuerySmartContractStateRequest q => is_Some (QS_QueryData q)
  | QueryCodeRequest id | QueryCodeInfoRequest id => (id < 2 ^ 64)%N
  | QueryBuildAddressReq _ => False
  | _ => True
  end.

Context `{!GatewayRuntimeLaws}.

Lemma matched ops pool comps :
  wf_ops (pairs ops) pool 0 = true ->
  Match (MustPattern 1 ops pool "" false) comps = interpret (pairs ops) pool comps [] [].
Proof. apply Match_ops. Qed.
(** The route of a path, one pattern after the other. *)
Ltac routed :=
  unfold RegisterQueryHandlerServer, RegisterQueryHandlerClient; rewrite Route_first;
  unfold server_routes, client_routes, path_of, base; cbn [first_match app String.eqb Ascii.eqb Bool.eqb];
  repeat match goal with
  | |- context [Match ?p _] => let p' := eval hnf in p in change p with p'; rewrite matched by reflexivity
  end;
  cbn [interpret pairs lookup list_lookup String.eqb Ascii.eqb Bool.eqb app].

Lemma path_value_found {A} (convert : string -> A + error) name val x pathParams :
  path_param pathParams name = Some val -> convert val = inl x ->
  path_value convert pathParams name = mret x.
Proof. unfold path_value. by intros -> ->. Qed.
Lemma query_params_page {A} (T : MessageType A) m p req filter :
  paginated T m None = m -> page_ok p -> R_Form req = inl (page_form p) ->
  existsb (ignored filter) (page_form p) = false ->
  query_params T m req filter = mret (paginated T m p).
Proof. intros Hm Hp Hf Hi. unfold query_params. rewrite Hf, <- Hm at 1. by rewrite Populate_page. Qed.
Lemma reply_mret {A} (x : A) f s : reply (mret x ≫= f) s = reply (f x) s.
Proof. done. Qed.
Ltac served p :=
  eexists _, _; split; [routed; reflexivity|];
  let Ha := fresh in let Hf := fresh in
  intros ctx rctx hreq s Ha Hf; unfold local_handler; rewrite Ha;
  match goal with |- reply (?f _ _ _ _) _ = _ => unfold f end;
  unfold path_String, path_Uint64, path_Bytes;
  repeat (erewrite path_value_found
            by first [reflexivity|apply String_same|by apply Uint64_decimal|apply Bytes_decoded]);
  rewrite ?reply_mret;
  match goal with
  | |- context [query_params ?T ?m ?r ?f] =>
      rewrite (query_params_page T m p r f), reply_mret by (done || by destruct p)
  | _ => idtac
  end; reflexivity.

(** C20: every query but BuildAddress has its route: the GET request with the path
    and the query string of a request gets the answer of the server to it,
    or its error. *)
Theorem rest_answers server r :
  writable r ->
  exists h pathParams,
    Route (RegisterQueryHandlerServer NewServeMux server) "GET" (path_of r) = Some (h, pathParams)
    /\ forall ctx rctx req s, AnnotateIncomingContext ctx req = inl rctx ->
         R_Form req = inl (page_form (pagination_of r)) ->
         h ctx req pathParams s = reply (server rctx r) s.
Proof.
  intros [Hp Hw]. destruct r as [|[a p]|[id p]|[a p]|[a d]|[a d]| |p| |p| |[a p]| |];
    cbn [pagination_of QA_Pagination QC_Pagination QC_CodeId QS_QueryData] in *;
    try (match type of Hw with is_Some _ => destruct Hw as [q ->] end); try done; try served p; served (@None PageRequest).
Qed.

(** The route of BuildAddress is never taken: its path is also one of
    ContractInfo, which is registered before it. *)
Theorem build_address_shadowed server req :
  exists h pathParams,
    Route (RegisterQueryHandlerServer NewServeMux server) "GET" (path_of (QueryBuildAddressReq req))
    = Some (h, pathParams)
    /\ forall ctx rctx hreq s, AnnotateIncomingContext ctx hreq = inl rctx ->
         h ctx hreq pathParams s = reply (server rctx (QueryContractInfoRequest "build_address")) s.
Proof.
  eexists _, _. split; [routed; reflexivity|]. intros ctx rctx hreq s Ha. unfold local_handler. rewrite Ha.
  unfold local_request_Query_ContractInfo_0, path_String.
  by erewrite path_value_found by first [reflexivity|by rewrite String_same].
Qed.

(** Parameters in the query string that are named like a variable of the path
    are ignored. *)
Lemma query_params_ignored {A} (T : MessageType A) m form filter :
  query_params T m (mkHTTPRequest (inl form)) filter
  = query_params T m (mkHTTPRequest (inl (List.filter (fun v => negb (ignored filter v)) form))) filter.
Proof. unfold query_params. cbn [R_Form]. by rewrite Populate_ignored. Qed.

(** A gateway in the process and one over a client that reaches the same
    server reply the same. *)
Theorem gateways_agree server r :
  writable r ->
  exists h h' pathParams,
    Route (RegisterQueryHandlerServer NewServeMux server) "GET" (path_of r) = Some (h, pathParams)
    /\ Route (RegisterQueryHandlerClient NewServeMux server) "GET" (path_of r) = Some (h', pathParams)
    /\ forall ctx rctx req s, AnnotateIncomingContext ctx req = inl rctx -> AnnotateContext ctx req = inl rctx ->
         h ctx req pathParams s = h' ctx req pathParams s.
Proof.
  intros [Hp Hw]. destruct r as [|[a p]|[id p]|[a p]|[a d]|[a d]| |p| |p| |[a p]| |]; try done;
  eexists _, _, _; (split; [routed; reflexivity|]; split; [routed; reflexivity|]);
  intros ctx rctx hreq s Ha Hc; unfold local_handler, client_handler; by rewrite Ha, Hc.
Qed.

End Gateway.

(** ** The querier of the keeper as the server *)

Section Server.
Context `{GasMeters, Modules, KVStorePkg, Bech32, ErrorsMod, UnicodeTables, AddressPkg, Codecs}.
Context `{!WasmEngine, !Pagination}.
Context (QuerySmart : Context -> bytes -> bytes -> M (option bytes)).
Context (queryGasLimit : N) (wasmLimits : WasmLimits).
Definition answer {A} (f : A -> Response) (m : M A) : M Response := x ← m; mret (f x).
Definition QueryServer : Service := fun ctx r =>
  match r with
  | QueryContractInfoRequest a => answer QueryContractInfoResponse (Querier.ContractInfo (Some a))
  | QueryContractHistoryRequest q => answer QueryContractHistoryResponse (Querier.ContractHistory (Some q))
  | QueryContractsByCodeRequest q => answer QueryContractsByCodeResponse (Querier.ContractsByCode (Some q))
  | QueryAllContractStateRequest q => answer QueryAllContractStateResponse (Querier.AllContractState (Some q))
  | QueryRawContractStateRequest q => answer QueryRawContractStateResponse (Querier.RawContractState (Some q))
  | QuerySmartContractStateRequest q =>
      answer QuerySmartContractStateResponse (Querier.SmartContractState QuerySmart queryGasLimit ctx (Some q))
  | QueryCodeRequest id => answer QueryCodeResponse (Querier.Code (Some id))
  | QueryCodesRequest p => answer QueryCodesResponse (Querier.Codes (Some p))
  | QueryCodeInfoRequest id => answer QueryCodeInfoResponse (Querier.CodeInfo (Some id))
  | QueryPinnedCodesRequest p => answer QueryPinnedCodesResponse (Querier.PinnedCodes (Some p))
  | QueryParamsRequest => answer QueryParamsResponse (Querier.QueryParams)
  | QueryContractsByCreatorRequest q => answer QueryContractsByCreatorResponse (Querier.ContractsByCreator (Some q))
  | QueryWasmLimitsConfigRequest => mret (QueryWasmLimitsConfigResponse (Querier.WasmLimitsConfig wasmLimits))
  | QueryBuildAddressReq q => answer QueryBuildAddressResponse (Querier.BuildAddress (Some q))
  end.
(** So the address of a contract to be cannot be asked for over REST: every
    such request gets the error of the address build_address. *)
Theorem build_address_unserved `{!GatewayRuntime, !GatewayRuntimeLaws} req err :
  AccAddressFromBech32 "build_address" = inr err ->
  exists h pathParams,
    Route (RegisterQueryHandlerServer NewServeMux QueryServer) "GET" (path_of (QueryBuildAddressReq req))
    = Some (h, pathParams)
    /\ forall ctx rctx hreq s, AnnotateIncomingContext ctx hreq = inl rctx ->
         h ctx hreq pathParams s = (Ret (HTTPError err), s).
Proof.
  intros He. destruct (build_address_shadowed QueryServer req) as (h & pp & Hr & Hh).
  exists h, pp. split; [done|]. intros ctx rctx hreq s Ha. rewrite (Hh _ _ _ _ Ha).
  unfold QueryServer, answer, Querier.ContractInfo, reply, catch, mbind, M_bind, mret, M_ret. cbn.
  by rewrite He.
Qed.
End Server.
End Gateway.
