(* ===== verification/SimOps.v ===== *)
(** The simulation of the module (x/wasm/simulation): the random operations
    and governance messages that the simulator of the SDK delivers, how they
    pick codes, contracts and senders, and the random genesis state. The
    source of randomness and the delivery of transactions belong to the SDK
    and are parameters. *)
From S2P Require Import Prelude Errors GoStrings Json Types Proto Keys VMTypes Policy GasRegister Chain Logic Wp Engine Store Registry Events Keeper Msgs MsgServer Encoders QueryPlugins Refinement RefineKeeper Genesis Querier.
Import GoStrings Keys Json.Json Msgs.Msgs MsgServer.MsgServer Store.Store Registry.Registry.
Open Scope wasm_scope.

(** simtypes and the bank keeper of the SDK; a nil address is [None]. *)
Record Account := mkAccount { Address : AccAddress }.
Class SimPkg `{GasMeters, Modules} := {
  Rand : Type;
  RandomAcc : Rand -> list Account -> Account * Rand;
  RandomAccounts : Rand -> Account * Rand;        (* RandomAccounts(r, 1)[0] *)
  RandStringOfLength : Rand -> nat -> string * Rand;
  RandSubsetCoins : Rand -> Coins -> Coins * Rand;
  Rand_Uint64 : Rand -> N * Rand;
  FindAccount : list Account -> bytes -> option Account;
  SpendableCoins : AccAddress -> Ext Coins;
  IsSendEnabledCoin : sdkCoin -> Ext bool;
  (** json.Unmarshal into testdata.OwnerResponse *)
  json_OwnerResponse : bytes -> string + error;
  (** the contracts embedded in testdata, and the files of the node *)
  MigrateReflectContractWasm : bytes;
  ReflectContractWasm : bytes;
  os_ReadFile : string -> bytes + error;
}.

Module SimOps.

(** *** Weights of the operations *)

Record Weights := mkWeights {
  w_StoreCode : Z; w_InstantiateContract : Z; w_ExecuteContract : Z;
  w_UpdateAdmin : Z; w_ClearAdmin : Z; w_MigrateContract : Z;
}.
Definition OpWeightMsgStoreCode : string := "op_weight_msg_store_code".
Definition OpWeightMsgInstantiateContract : string := "op_weight_msg_instantiate_contract".
Definition OpWeightMsgExecuteContract : string := "op_weight_msg_execute_contract".
Definition OpWeightMsgUpdateAdmin : string := "op_weight_msg_update_admin".
Definition OpWeightMsgClearAdmin : string := "op_weight_msg_clear_admin".
Definition OpWeightMsgMigrateContract : string := "op_weight_msg_migrate_contract".
Definition DefaultWeightMsgStoreCode : Z := 50.
Definition DefaultWeightMsgInstantiateContract : Z := 100.
Definition DefaultWeightMsgExecuteContract : Z := 100.
Definition DefaultWeightMsgUpdateAdmin : Z := 25.
Definition DefaultWeightMsgClearAdmin : Z := 10.
Definition DefaultWeightMsgMigrateContract : Z := 50.

Definition set_store v (w : Weights) := mkWeights v (w_InstantiateContract w) (w_ExecuteContract w)
  (w_UpdateAdmin w) (w_ClearAdmin w) (w_MigrateContract w).
Definition set_instantiate v (w : Weights) := mkWeights (w_StoreCode w) v (w_ExecuteContract w)
  (w_UpdateAdmin w) (w_ClearAdmin w) (w_MigrateContract w).
Definition set_execute v (w : Weights) := mkWeights (w_StoreCode w) (w_InstantiateContract w) v
  (w_UpdateAdmin w) (w_ClearAdmin w) (w_MigrateContract w).
Definition set_update_admin v (w : Weights) := mkWeights (w_StoreCode w) (w_InstantiateContract w)
  (w_ExecuteContract w) v (w_ClearAdmin w) (w_MigrateContract w).
Definition set_clear_admin v (w : Weights) := mkWeights (w_StoreCode w) (w_InstantiateContract w)
  (w_ExecuteContract w) (w_UpdateAdmin w) v (w_MigrateContract w).
Definition set_migrate v (w : Weights) := mkWeights (w_StoreCode w) (w_InstantiateContract w)
  (w_ExecuteContract w) (w_UpdateAdmin w) (w_ClearAdmin w) v.
(** GetOrGenerate: a configured value goes where the pointer points, else the
    function runs. *)
Definition GetOrGenerate (value : option Z) (ptr : Z -> Weights -> Weights) (gen : Weights -> Weights)
    (w : Weights) : Weights :=
  match value with Some v => ptr v w | None => gen w end.
Definition weights (appParams : string -> option Z) : Weights :=
  let w := mkWeights 0 0 0 0 0 0 in
  let w := GetOrGenerate (appParams OpWeightMsgStoreCode) set_store (set_store DefaultWeightMsgStoreCode) w in
  let w := GetOrGenerate (appParams OpWeightMsgInstantiateContract) set_instantiate
             (set_instantiate DefaultWeightMsgInstantiateContract) w in
  let w := GetOrGenerate (appParams OpWeightMsgExecuteContract) set_instantiate
             (set_execute DefaultWeightMsgExecuteContract) w in
  let w := GetOrGenerate (appParams OpWeightMsgUpdateAdmin) set_update_admin
             (set_update_admin DefaultWeightMsgUpdateAdmin) w in
  let w := GetOrGenerate (appParams OpWeightMsgClearAdmin) set_clear_admin
             (set_clear_admin DefaultWeightMsgClearAdmin) w in
  GetOrGenerate (appParams OpWeightMsgMigrateContract) set_migrate
    (set_migrate DefaultWeightMsgMigrateContract) w.

Section SimOps.
Context `{GasMeters, Modules, KVStorePkg, Bech32, ErrorsMod, UnicodeTables, AddressPkg, CoinsPkg, CoinConversion, Codecs}.
Context `{!SimPkg}.
Context (GetAuthority : string) (QuerySmart : Context -> bytes -> bytes -> M bytes).

(** What is handed to GenAndDeliverTxWithRandFees; an operation may give up
    without a message, with or without an error. *)
Record OperationInput := mkOperationInput {
  R : Rand; Msg : WasmMsg; MsgType : string; SimAccount : Account; ModuleName : string;
  CoinsSpentInMsg : Coins;
}.
Inductive OperationResult :=
| Deliver (input : OperationInput)
| NoOpMsg (msgType comment : string) (err : option error).
Definition Operation : Type := Rand -> Context -> list Account -> M OperationResult.

(** The legacy Type of the messages (x/wasm/types/tx.go). *)
Definition Type_ (msg : WasmMsg) : string :=
  match msg with
  | WStoreCode _ => "store-code"
  | WInstantiateContract _ => "instantiate"
  | WInstantiateContract2 _ => "instantiate2"
  | WExecuteContract _ => "execute"
  | WMigrateContract _ => "migrate"
  | WUpdateAdmin _ => "update-contract-admin"
  | WClearAdmin _ => "clear-contract-admin"
  | WUpdateInstantiateConfig _ => "update-instantiate-config"
  | WUpdateParams _ => "update-params"
  | WPinCodes _ => "pin-codes"
  | WUnpinCodes _ => "unpin-codes"
  | WSudoContract _ => "sudo-contract"
  | WStoreAndInstantiateContract _ => "store-and-instantiate-contract"
  | WAddCodeUploadParamsAddresses _ => "add-code-upload-params-addresses"
  | WRemoveCodeUploadParamsAddresses _ => "remove-code-upload-params-addresses"
  | WStoreAndMigrateContract _ => "store-and-migrate-contract"
  | WUpdateContractLabel _ => "update-contract-label"
  end.
Definition BuildOperationInput (r : Rand) (msg : WasmMsg) (simAccount : Account) (deposit : Coins)
    : OperationResult :=
  Deliver (mkOperationInput r msg (Type_ msg) simAccount "wasm" deposit).
Definition address_string (a : Account) : string := acc_string (Address a).
Definition empty_msg : bytes := bytes_of_string "{}".

(** *** Selectors: the first contract or code of the store that fits *)

Definition first_contract (fits : ContractInfo -> bool) : M (option (bytes * ContractInfo)) :=
  IterateContractInfo (fun address info found =>
    mret (if fits info then (Some (address, info), true) else (found, false))) None.
Definition DefaultSimulationMigrateContractSelector (adminAddress : string) : M (option (bytes * ContractInfo)) :=
  first_contract (fun info => bool_decide (Admin info = adminAddress)).
Definition DefaultSimulationClearAdminContractSelector (adminAddress : string) : M (option bytes) :=
  c ← first_contract (fun info => bool_decide (Admin info = adminAddress)); mret (fst <$> c).
Definition DefaultSimulationUpdateAdminContractSelector (adminAddress : string)
    : M (option (bytes * ContractInfo)) :=
  first_contract (fun info => bool_decide (Admin info = adminAddress)).
Definition DefaultSimulateUpdateAdminProposalContractSelector (adminAddress : string)
    : M (option (bytes * ContractInfo)) :=
  first_contract (fun info => bool_decide (Admin info = adminAddress)).
Definition DefaultSimulationExecuteContractSelector : M (option bytes) :=
  c ← first_contract (fun _ => true); mret (fst <$> c).
Definition DefaultSimulateContractSelector : M (option bytes) :=
  c ← first_contract (fun _ => true); mret (fst <$> c).
(** 0 is no code. *)
Definition first_code (fits : N -> CodeInfo -> bool) : M N :=
  IterateCodeInfos (fun u info codeID => mret (if fits u info then (u, true) else (codeID, false))) 0%N.
Definition open_code (info : CodeInfo) : bool :=
  bool_decide (Permission (InstantiateConfig info) = AccessTypeEverybody).
Definition DefaultSimulationMigrateCodeIDSelector (currentCodeID : N) : M N :=
  first_code (fun u info => open_code info && negb (u =? currentCodeID)%N).
Definition DefaultSimulationCodeIDSelector : M N := first_code (fun _ info => open_code info).

(** *** Operations *)

(** What an account can spend of the coins that may be sent. *)
Fixpoint random_coins (r : Rand) (ctx : Context) (coins : Coins) (deposit : Coins) : M (Coins * Rand) :=
  match coins with
  | [] => mret (deposit, r)
  | v :: coins' =>
      ok ← call_ext ctx (IsSendEnabledCoin v);
      if (ok : bool) then
        c ← lift (NewCoins [v]);
        let '(subset, r) := RandSubsetCoins r c in
        deposit ← lift (foldl (fun d x => obind d (fun d => Coins_Add d x)) (Ret deposit) subset);
        random_coins r ctx coins' deposit
      else random_coins r ctx coins' deposit
  end.
Definition random_deposit (r : Rand) (ctx : Context) (a : Account) : M (Coins * Rand) :=
  spendableCoins ← call_ext ctx (SpendableCoins (Address a));
  random_coins r ctx spendableCoins [].

Definition SimulateMsgMigrateContract
    (contractSelector : string -> M (option (bytes * ContractInfo))) (codeIDSelector : N -> M N) : Operation :=
  fun r ctx accs =>
  let '(simAccount, r) := RandomAcc r accs in
  c ← contractSelector (address_string simAccount);
  match c with
  | None => mret (NoOpMsg "migrate" "no contract instance available" None)
  | Some (ctAddress, info) =>
      codeID ← codeIDSelector (CodeID info);
      if (codeID =? 0)%N then mret (NoOpMsg "migrate" "no target contract available" None)
      else mret (BuildOperationInput r (WMigrateContract (mkMsgMigrateContract (address_string simAccount)
             (AccAddress_String ctAddress) codeID empty_msg)) simAccount [])
  end.
Definition SimulateMsgClearAdmin (contractSelector : string -> M (option bytes)) : Operation :=
  fun r ctx accounts =>
  let '(simAccount, r) := RandomAcc r accounts in
  c ← contractSelector (address_string simAccount);
  mret match c with
       | None => NoOpMsg "clear-contract-admin" "no contract instance available" None
       | Some ctAddress => BuildOperationInput r (WClearAdmin (mkMsgClearAdmin (address_string simAccount)
           (AccAddress_String ctAddress))) simAccount []
       end.
Definition SimulateMsgUpdateAmin (contractSelector : string -> M (option (bytes * ContractInfo))) : Operation :=
  fun r ctx accs =>
  let '(simAccount, r) := RandomAcc r accs in
  c ← contractSelector (address_string simAccount);
  mret match c with
       | None => NoOpMsg "update-contract-admin" "no contract instance available" None
       | Some (ctAddress, _) =>
           let '(newAdmin, r) := RandomAcc r accs in
           if bool_decide (address_string newAdmin = address_string simAccount)
           then NoOpMsg "update-contract-admin" "new admin cannot be the same as current admin" None
           else BuildOperationInput r (WUpdateAdmin (mkMsgUpdateAdmin (address_string simAccount)
                  (address_string newAdmin) (AccAddress_String ctAddress))) simAccount []
       end.
Definition SimulateMsgStoreCode (wasmBz : bytes) : Operation := fun r ctx accs =>
  params ← GetParams;
  if negb (bool_decide (Permission (CodeUploadAccess params) = AccessTypeEverybody))
  then mret (NoOpMsg "store-code" "no chain permission" None)
  else
    let '(simAccount, r) := RandomAcc r accs in
    params ← GetParams;
    config ← lift (With (InstantiateDefaultPermission params) [Address simAccount]);
    mret (BuildOperationInput r (WStoreCode (mkMsgStoreCode (address_string simAccount) wasmBz (Some config)))
            simAccount []).
Definition SimulateMsgInstantiateContract (codeSelector : M N) : Operation := fun r ctx accs =>
  let '(simAccount, r) := RandomAcc r accs in
  codeID ← codeSelector;
  if (codeID =? 0)%N then mret (NoOpMsg "instantiate" "no codes with permission available" None)
  else
    '(deposit, r) ← random_deposit r ctx simAccount;
    let '(adminAccount, r) := RandomAcc r accs in
    let '(label, r) := RandStringOfLength r 10 in
    mret (BuildOperationInput r (WInstantiateContract (mkMsgInstantiateContract (address_string simAccount)
            (address_string adminAccount) codeID label empty_msg deposit)) simAccount deposit).

(** The sender of a call is the owner that the reflect contract reports.
    errorsmod.Wrap of no error is no error. *)
Definition DefaultSimulationExecuteSenderSelector (ctx : Context) (contractAddr : bytes) (accs : list Account)
    : M (Account * option error) :=
  let none := mkAccount None in
  got ← catch (QuerySmart ctx contractAddr (Marshal (JObject [jfield "owner" (JObject [])])));
  mret match got with
       | inr err => (none, Some (Wrap err "exec smart query"))
       | inl got =>
           match json_OwnerResponse got with
           | inr err => (none, Some (Wrap err "parse smart query response"))
           | inl owner =>
               if bool_decide (owner = ""%string) then (none, WrapOpt None "parse smart query response")
               else match AccAddressFromBech32 owner with
                    | inr err => (none, Some (Wrap err "parse contract owner address"))
                    | inl ownerAddr =>
                        match FindAccount accs ownerAddr with
                        | None => (none, WrapOpt None "unknown contract owner address")
                        | Some simAccount => (simAccount, None)
                        end
                    end
           end
       end.
(** The reflect contract sends the funds of the call back to the sender. *)
Definition DefaultSimulationExecutePayloader (msg : MsgExecuteContract) : MsgExecuteContract + error :=
  let send := JObject [jfield "to_address" (jstring (E_Sender msg));
    jfield "amount" (JArray (QueryPlugins.json_Coin <$> QueryPlugins.ConvertSdkCoinsToWasmCoins (E_Funds msg)))] in
  let bank := JObject [jfield "bank" (JObject [jfield "send" send])] in
  inl (mkMsgExecuteContract (E_Sender msg) (E_Contract msg)
    (Marshal (JObject [jfield "reflect_msg" (JObject [jfield "msgs" (JArray [bank])])])) (E_Funds msg)).
Definition SimulateMsgExecuteContract (contractSelector : M (option bytes))
    (senderSelector : Context -> bytes -> list Account -> M (Account * option error))
    (payloader : MsgExecuteContract -> MsgExecuteContract + error) : Operation := fun r ctx accs =>
  c ← contractSelector;
  match c with
  | None => mret (NoOpMsg "execute" "no contract instance available" None)
  | Some contractAddr =>
      '(simAccount, err) ← senderSelector ctx contractAddr accs;
      match err with
      | Some err => mret (NoOpMsg "execute" "query contract owner" (Some err))
      | None =>
          '(deposit, r) ← random_deposit r ctx simAccount;
          if Coins_IsZero deposit then mret (NoOpMsg "execute" "broke account" None)
          else mret match payloader (mkMsgExecuteContract (address_string simAccount)
                 (AccAddress_String contractAddr) [] deposit) with
               | inr err => NoOpMsg "execute" "contract execute payload" (Some err)
               | inl msg => BuildOperationInput r (WExecuteContract msg) simAccount deposit
               end
      end
  end.

(** The operations with their weights; the wasm code is read from a file when
    one is configured. *)
Definition WeightedOperations (appParams : string -> option Z) (wasmContractPath : string)
    : outcome (list (Z * Operation)) :=
  let w := weights appParams in
  obind (if bool_decide (wasmContractPath = ""%string) then Ret MigrateReflectContractWasm
         else match os_ReadFile wasmContractPath with inl bz => Ret bz | inr err => Panic (PError err) end)
    (fun wasmBz => Ret [
      (w_StoreCode w, SimulateMsgStoreCode wasmBz);
      (w_InstantiateContract w, SimulateMsgInstantiateContract DefaultSimulationCodeIDSelector);
      (w_ExecuteContract w, SimulateMsgExecuteContract DefaultSimulationExecuteContractSelector
         DefaultSimulationExecuteSenderSelector DefaultSimulationExecutePayloader);
      (w_UpdateAdmin w, SimulateMsgUpdateAmin DefaultSimulationUpdateAdminContractSelector);
      (w_ClearAdmin w, SimulateMsgClearAdmin DefaultSimulationClearAdminContractSelector);
      (w_MigrateContract w, SimulateMsgMigrateContract DefaultSimulationMigrateContractSelector
         DefaultSimulationMigrateCodeIDSelector)]).

(** *** Messages of governance proposals; [None] is no message *)

Definition MsgSimulatorFn : Type := Rand -> Context -> list Account -> M (option WasmMsg).

Definition SimulateStoreCodeProposal : MsgSimulatorFn := fun r ctx accs =>
  let '(simAccount, _) := RandomAcc r accs in
  params ← GetParams;
  permission ← lift (With (InstantiateDefaultPermission params) [Address simAccount]);
  mret (Some (WStoreCode (mkMsgStoreCode GetAuthority ReflectContractWasm (Some permission)))).
Definition SimulateInstantiateContractProposal (codeSelector : M N) : MsgSimulatorFn := fun r ctx accs =>
  let '(adminAccount, r) := RandomAcc r accs in
  codeID ← codeSelector;
  if (codeID =? 0)%N then mret None
  else
    let '(label, _) := RandStringOfLength r 10 in
    mret (Some (WInstantiateContract (mkMsgInstantiateContract GetAuthority (address_string adminAccount)
      codeID label empty_msg []))).
(** The selector of the sender is not used. *)
Definition SimulateExecuteContractProposal (contractSelector : M (option bytes))
    (payloader : MsgExecuteContract -> MsgExecuteContract + error) : MsgSimulatorFn := fun r ctx accs =>
  c ← contractSelector;
  mret match c with
       | None => None
       | Some ctAddress =>
           match payloader (mkMsgExecuteContract GetAuthority (AccAddress_String ctAddress) [] []) with
           | inr _ => None
           | inl msg => Some (WExecuteContract msg)
           end
       end.
Definition SimulateUpdateAdminProposal (contractSelector : string -> M (option (bytes * ContractInfo)))
    : MsgSimulatorFn := fun r ctx accs =>
  let '(simAccount, r) := RandomAcc r accs in
  c ← contractSelector (address_string simAccount);
  mret match c with
       | None => None
       | Some (ctAddress, _) =>
           let '(newAdmin, _) := RandomAccounts r in
           Some (WUpdateAdmin (mkMsgUpdateAdmin GetAuthority (address_string newAdmin)
             (AccAddress_String ctAddress)))
       end.
Definition SimulateClearAdminProposal (contractSelector : M (option bytes)) : MsgSimulatorFn := fun r ctx accs =>
  c ← contractSelector;
  mret match c with
       | None => None
       | Some ctAddress => Some (WClearAdmin (mkMsgClearAdmin GetAuthority (AccAddress_String ctAddress)))
       end.
Definition SimulateMigrateContractProposal (contractSelector : M (option bytes)) (codeSelector : M N)
    : MsgSimulatorFn := fun r ctx accs =>
  c ← contractSelector;
  match c with
  | None => mret None
  | Some ctAddress =>
      codeID ← codeSelector;
      if (codeID =? 0)%N then mret None
      else mret (Some (WMigrateContract (mkMsgMigrateContract GetAuthority (AccAddress_String ctAddress)
             codeID empty_msg)))
  end.
Definition SimulateSudoContractProposal (contractSelector : M (option bytes)) : MsgSimulatorFn := fun r ctx accs =>
  c ← contractSelector;
  mret match c with
       | None => None
       | Some ctAddress =>
           Some (WSudoContract (mkMsgSudoContract GetAuthority (AccAddress_String ctAddress) empty_msg))
       end.
Definition SimulatePinContractProposal (codeSelector : M N) : MsgSimulatorFn := fun r ctx accs =>
  codeID ← codeSelector;
  mret (if (codeID =? 0)%N then None else Some (WPinCodes (mkMsgPinCodes GetAuthority [codeID]))).
Definition SimulateUnpinContractProposal (codeSelector : M N) : MsgSimulatorFn := fun r ctx accs =>
  codeID ← codeSelector;
  mret (if (codeID =? 0)%N then None else Some (WUnpinCodes (mkMsgUnpinCodes GetAuthority [codeID]))).
Definition SimulateUpdateInstantiateConfigProposal (codeSelector : M N) : MsgSimulatorFn := fun r ctx accs =>
  codeID ← codeSelector;
  if (codeID =? 0)%N then mret None
  else
    let '(simAccount, _) := RandomAcc r accs in
    params ← GetParams;
    config ← lift (With (InstantiateDefaultPermission params) [Address simAccount]);
    mret (Some (WUpdateInstantiateConfig (mkMsgUpdateInstantiateConfig GetAuthority codeID (Some config)))).
Definition SimulateStoreAndInstantiateContractProposal : MsgSimulatorFn := fun r ctx accs =>
  let '(simAccount, r) := RandomAcc r accs in
  let '(adminAccount, r) := RandomAcc r accs in
  params ← GetParams;
  permission ← lift (With (InstantiateDefaultPermission params) [Address simAccount]);
  let '(label, _) := RandStringOfLength r 10 in
  mret (Some (WStoreAndInstantiateContract (mkMsgStoreAndInstantiateContract GetAuthority ReflectContractWasm
    (Some permission) false (address_string adminAccount) label empty_msg [] "" "" None))).

Definition ProposalMsgs : list (string * Z * MsgSimulatorFn) := [
  ("weight_instantiate_contract_proposal"%string, 5%Z,
    SimulateInstantiateContractProposal DefaultSimulationCodeIDSelector);
  ("weight_update_admin_proposal"%string, 5%Z,
    SimulateUpdateAdminProposal DefaultSimulateUpdateAdminProposalContractSelector);
  ("weight_execute_contract_proposal"%string, 5%Z,
    SimulateExecuteContractProposal DefaultSimulationExecuteContractSelector DefaultSimulationExecutePayloader);
  ("weight_clear_admin_proposal"%string, 5%Z, SimulateClearAdminProposal DefaultSimulateContractSelector);
  ("weight_migrate_contract_proposal"%string, 5%Z,
    SimulateMigrateContractProposal DefaultSimulateContractSelector DefaultSimulationCodeIDSelector);
  ("weight_pin_codes_proposal"%string, 5%Z, SimulatePinContractProposal DefaultSimulationCodeIDSelector);
  ("weight_unpin_codes_proposal"%string, 5%Z, SimulateUnpinContractProposal DefaultSimulationCodeIDSelector);
  ("weight_update_instantiate_config_proposal"%string, 5%Z,
    SimulateUpdateInstantiateConfigProposal DefaultSimulationCodeIDSelector)].

(** *** Genesis *)

Definition RandomizedGenState (r : Rand) : GenesisState :=
  let '(a, r) := Rand_Uint64 r in
  let '(b, _) := Rand_Uint64 r in
  mkGenesisState DefaultParams [] []
    [mkGenSequence KeySequenceCodeID (a mod 1000000000); mkGenSequence KeySequenceInstanceID (b mod 1000000000)]%N.

(** ** What the simulator delivers *)

(** A configured weight for executions goes to the instantiations, and
    executions are never simulated. *)
Theorem execute_weight_lost appParams v :
  appParams OpWeightMsgExecuteContract = Some v ->
  w_ExecuteContract (weights appParams) = 0%Z /\ w_InstantiateContract (weights appParams) = v.
Proof.
  intros Hv. unfold weights. rewrite Hv. cbn [GetOrGenerate].
  destruct (appParams OpWeightMsgStoreCode), (appParams OpWeightMsgInstantiateContract),
    (appParams OpWeightMsgUpdateAdmin), (appParams OpWeightMsgClearAdmin), (appParams OpWeightMsgMigrateContract); done.
Qed.
(** An owner that is no account of the simulation is not reported: the call
    is made for the empty account. *)
Theorem unknown_owner_unreported ctx contractAddr accs answer owner ownerAddr s s' :
  QuerySmart ctx contractAddr (Marshal (JObject [jfield "owner" (JObject [])])) s = (Ret answer, s') ->
  json_OwnerResponse answer = inl owner -> owner <> ""%string -> AccAddressFromBech32 owner = inl ownerAddr ->
  FindAccount accs ownerAddr = None ->
  DefaultSimulationExecuteSenderSelector ctx contractAddr accs s = (Ret (mkAccount None, None), s').
Proof.
  intros Hq Ho Hn Ha Hf. unfold DefaultSimulationExecuteSenderSelector, catch, mbind, M_bind. rewrite Hq, Ho.
  rewrite bool_decide_false, Ha, Hf by done. done.
Qed.

Definition of_authority (f : MsgSimulatorFn) : Prop :=
  forall r ctx accs s msg s', f r ctx accs s = (Ret (Some msg), s') -> msg_signer msg = GetAuthority.
Lemma wp_any {A} (m : M A) (Q : A -> kvs -> Prop) σ : (forall a σ', Q a σ') -> wp m Q σ.
Proof. intros HQ s a s' _ _. apply HQ. Qed.
Definition signed (msg : option WasmMsg) : Prop :=
  match msg with Some msg => msg_signer msg = GetAuthority | None => True end.
Lemma of_authority_wp (f : MsgSimulatorFn) :
  (forall r ctx accs σ, wp (f r ctx accs) (fun msg _ => signed msg) σ) -> of_authority f.
Proof. intros Hf r ctx accs s msg s' E. exact (Hf r ctx accs (kv s) s (Some msg) s' eq_refl E). Qed.
(** Every proposed message is one of the authority. *)
Theorem proposals_of_authority : Forall (fun p => of_authority p.2) ProposalMsgs.
Proof.
  unfold ProposalMsgs. repeat apply Forall_cons_2; try apply Forall_nil_2; cbn [snd];
    apply of_authority_wp; intros r ctx accs σ.
  all: unfold SimulateInstantiateContractProposal, SimulateUpdateAdminProposal, SimulateExecuteContractProposal,
    SimulateClearAdminProposal, SimulateMigrateContractProposal, SimulatePinContractProposal,
    SimulateUnpinContractProposal, SimulateUpdateInstantiateConfigProposal.
  all: repeat (match goal with
    | |- context [RandomAcc ?r ?a] => destruct (RandomAcc r a) as [? ?]
    | |- context [RandStringOfLength ?r ?n] => destruct (RandStringOfLength r n) as [? ?]
    | |- context [RandomAccounts ?r] => destruct (RandomAccounts r) as [? ?]
    | |- wp (mret _) _ _ => apply wp_ret
    | |- wp (mbind _ _) _ _ => apply wp_bind, wp_any; intros ? ?
    | |- wp (match ?x with _ => _ end) _ _ => destruct x
    | |- signed (match ?x with _ => _ end) => destruct x
    end; try done).
Qed.

(** A search stops at an entry of the store, or finds nothing. *)
Lemma wp_search {A} (J : A -> Prop) (body : bytes -> bytes -> A -> M (A * bool)) p acc Q σ :
  (forall k v acc Q', σ !! (p ++ k) = Some v -> J acc -> (forall r, J r.1 -> Q' r σ) ->
     wp (body k v acc) Q' σ) ->
  (forall r, J r -> Q r σ) -> J acc -> wp (iterate p None None false body acc) Q σ.
Proof.
  intros Hb HQ Hacc. unfold iterate. apply wp_bind, (wp_gets_kv (kv_iterator _ _ _ _)).
  rewrite kv_iterator_all. apply wp_bind, wp_must, wp_quiet; [apply quiet_kv_access|]. intros _.
  assert (forall k v, (k, v) ∈ kv_prefixed σ p -> σ !! (p ++ k) = Some v) as Hin
    by (intros k v; apply elem_of_kv_prefixed).
  revert acc Hacc. induction (kv_prefixed σ p) as [|[k v] l IH]; intros acc Hacc; cbn [iter_loop].
  { by apply wp_ret, HQ. }
  apply wp_bind, Hb; [by apply Hin; left|done|]. intros [r [|]] Hr'; [by apply wp_ret, HQ|].
  apply wp_bind, wp_must, wp_quiet; [apply quiet_kv_access|]. intros _.
  apply IH; [|done]. intros k' v' Hk. apply Hin. by right.
Qed.

Section Deliveries.
Import Refinement.Refinement RefineKeeper.RefineKeeper.
Context `{!Bech32Laws, !AddressPkgLaws, !CodecsLaws}.
Context (σ : kvs) (a : Registry).
Hypothesis Hr : repr σ a.
Hypothesis St : storable a.
Hypothesis Hcodes : Genesis.code_keys σ.

Lemma wp_first_contract fits (Q : option (bytes * ContractInfo) -> kvs -> Prop) :
  Q None σ -> (forall addr i, contracts a !! addr = Some i -> fits i = true -> Q (Some (addr, i)) σ) ->
  wp (first_contract fits) Q σ.
Proof.
  intros Hnone Hsome. unfold first_contract, IterateContractInfo.
  apply (wp_search (fun o => match o with
    | None => True | Some (addr, i) => contracts a !! addr = Some i /\ fits i = true end)); [| |done].
  - intros k v acc Q' Hv Hacc HQ'. change (ContractKeyPrefix ++ k) with (entry_key (KContract k)) in Hv.
    rewrite (Hr (KContract k)) in Hv by done. cbn [encode] in Hv.
    destruct (contracts a !! k) as [i|] eqn:Ei; [|done]. apply (inj Some) in Hv as <-.
    wp_step. apply (wp_MustUnmarshal i); [by eapply sto_contracts|].
    wp_step. apply HQ'. by destruct (fits i) eqn:Ef.
  - intros [[addr i]|]; [|done]. intros []. auto.
Qed.
Lemma wp_first_code fits (Q : N -> kvs -> Prop) :
  Q 0%N σ -> (forall id c, codes a !! id = Some c -> fits id c = true -> Q id σ) -> wp (first_code fits) Q σ.
Proof.
  intros Hnone Hsome. unfold first_code, IterateCodeInfos.
  apply (wp_search (fun id => id = 0%N \/ exists c, codes a !! id = Some c /\ fits id c = true)); [| |by left].
  - intros k v acc Q' Hv Hacc HQ'. destruct (Genesis.code_entry σ a Hr Hcodes k v Hv) as (id & c & Hid & -> & Hc & ->).
    wp_step. apply (wp_MustUnmarshal c); [by eapply sto_codes|].
    wp_step. rewrite binary_roundtrip by done. apply wp_lift_ret. wp_step. apply HQ'.
    destruct (fits id c) eqn:Ef; [right; eauto|done].
  - intros id [->|(c & Hc & Hf)]; eauto.
Qed.

(** The contract of the message is stored, with the sender as its admin. *)
Definition administered (contract sender : string) (i : ContractInfo) : Prop :=
  (exists addr, contract = AccAddress_String addr /\ contracts a !! addr = Some i) /\ Admin i = sender.
Definition open (id : N) : Prop := exists c, codes a !! id = Some c /\ open_code c = true.
(** The message is signed by the account of the simulation, and it is one
    that the registry permits to that account. *)
Definition permitted (input : OperationInput) : Prop :=
  msg_signer (Msg input) = address_string (SimAccount input) /\
  match Msg input with
  | WMigrateContract m => exists i, administered (Mi_Contract m) (Mi_Sender m) i
      /\ open (Mi_CodeID m) /\ Mi_CodeID m <> CodeID i
  | WUpdateAdmin m => UA_NewAdmin m <> UA_Sender m /\ exists i, administered (UA_Contract m) (UA_Sender m) i
  | WClearAdmin m => exists i, administered (CA_Contract m) (CA_Sender m) i
  | WInstantiateContract m => open (I_CodeID m)
  | WExecuteContract m => exists addr, E_Contract m = AccAddress_String addr /\ is_Some (contracts a !! addr)
      /\ Coins_IsZero (E_Funds m) = false
  | WStoreCode m => exists ps, params a = Some ps /\ Permission (CodeUploadAccess ps) = AccessTypeEverybody
  | _ => False
  end.
Definition delivers_permitted (op : Operation) : Prop :=
  forall r ctx accs, wp (op r ctx accs) (fun res _ => match res with Deliver i => permitted i | _ => True end) σ.

Lemma migrate_permitted : delivers_permitted
  (SimulateMsgMigrateContract DefaultSimulationMigrateContractSelector DefaultSimulationMigrateCodeIDSelector).
Proof.
  intros r ctx accs. unfold SimulateMsgMigrateContract. destruct (RandomAcc r accs) as [acc r'].
  wp_step. apply wp_first_contract; [by apply wp_ret|]. intros addr i Hi Ha%bool_decide_eq_true.
  wp_step. apply wp_first_code; [by apply wp_ret|]. intros id c Hc [Ho Hn]%andb_true_iff.
  destruct (id =? 0)%N eqn:E; apply wp_ret; [done|]. split; [done|]. exists i. split_and!.
  - split; [|done]. eauto.
  - exists c. by split.
  - cbn [Msg Mi_CodeID]. apply negb_true_iff, N.eqb_neq in Hn. done.
Qed.
Lemma update_admin_permitted : delivers_permitted
  (SimulateMsgUpdateAmin DefaultSimulationUpdateAdminContractSelector).
Proof.
  intros r ctx accs. unfold SimulateMsgUpdateAmin. destruct (RandomAcc r accs) as [acc r'].
  wp_step. apply wp_first_contract; [by apply wp_ret|]. intros addr i Hi Ha%bool_decide_eq_true.
  apply wp_ret. destruct (RandomAcc r' accs) as [new r'']. case_bool_decide; [done|].
  split; [done|]. split; [done|]. exists i. split; [|done]. eauto.
Qed.
Lemma clear_admin_permitted : delivers_permitted
  (SimulateMsgClearAdmin DefaultSimulationClearAdminContractSelector).
Proof.
  intros r ctx accs. unfold SimulateMsgClearAdmin. destruct (RandomAcc r accs) as [acc r'].
  wp_step. unfold DefaultSimulationClearAdminContractSelector. wp_step.
  apply wp_first_contract; [by do 2 apply wp_ret|]. intros addr i Hi Ha%bool_decide_eq_true.
  do 2 apply wp_ret. split; [done|]. exists i. split; [|done]. eauto.
Qed.
Lemma instantiate_permitted : delivers_permitted
  (SimulateMsgInstantiateContract DefaultSimulationCodeIDSelector).
Proof.
  intros r ctx accs. unfold SimulateMsgInstantiateContract. destruct (RandomAcc r accs) as [acc r'].
  wp_step. apply wp_first_code; [by apply wp_ret|]. intros id c Hc Ho.
  destruct (id =? 0)%N eqn:E; [by apply wp_ret|].
  wp_step. apply wp_any. intros [deposit r2] σ'. destruct (RandomAcc r2 accs) as [admin r3].
  destruct (RandStringOfLength r3 10) as [label r4]. apply wp_ret. split; [done|]. by exists c.
Qed.
Lemma execute_permitted : delivers_permitted
  (SimulateMsgExecuteContract DefaultSimulationExecuteContractSelector
     DefaultSimulationExecuteSenderSelector DefaultSimulationExecutePayloader).
Proof.
  intros r ctx accs. unfold SimulateMsgExecuteContract, DefaultSimulationExecuteContractSelector.
  wp_step. wp_step. apply wp_first_contract; [by do 2 apply wp_ret|]. intros addr i Hi _.
  apply wp_ret. cbn [fmap option_fmap option_map fst]. wp_step. apply wp_any.
  intros [acc [err|]] σ'; [by apply wp_ret|].
  wp_step. apply wp_any. intros [deposit r'] σ''. destruct (Coins_IsZero deposit) eqn:Ez; apply wp_ret; [done|].
  split; [done|]. exists addr. split_and!; [done| |done]. by eexists.
Qed.
Lemma store_permitted wasmBz : delivers_permitted (SimulateMsgStoreCode wasmBz).
Proof.
  intros r ctx accs. unfold SimulateMsgStoreCode. wp_step.
  eapply (wp_GetParams σ (encode a) Hr (params a)); [done|by apply sto_params|]. intros ps Hps.
  case_bool_decide as Hu; cbn [negb]; [|by apply wp_ret]. destruct (RandomAcc r accs) as [acc r'].
  wp_step. apply wp_any. intros ps' σ'. wp_step. apply wp_any. intros config σ''.
  apply wp_ret. split; [done|]. by exists ps.
Qed.

(** Every message that an operation of the module delivers is signed by its
    account, and permitted to it by the store it was chosen from. *)
Theorem operations_permitted appParams path ops :
  WeightedOperations appParams path = Ret ops ->
  Forall (fun op => forall r ctx accs s input s', kv s = σ ->
    op.2 r ctx accs s = (Ret (Deliver input), s') -> permitted input) ops.
Proof.
  intros E.
  assert (forall op : Operation, delivers_permitted op -> forall r ctx accs s input s', kv s = σ ->
    op r ctx accs s = (Ret (Deliver input), s') -> permitted input) as Hop.
  { intros op Ho r ctx accs s input s' Hs E'. exact (Ho r ctx accs s (Deliver input) s' Hs E'). }
  unfold WeightedOperations in E. destruct (if bool_decide _ then _ else _) as [wasmBz| |]; [|done..].
  injection E as <-.
  repeat apply Forall_cons_2; try apply Forall_nil_2; cbn [snd]; apply Hop;
    auto using store_permitted, instantiate_permitted, execute_permitted, update_admin_permitted,
      clear_admin_permitted, migrate_permitted.
Qed.
End Deliveries.

End SimOps.
End SimOps.
