(* ===== verification/Options.v ===== *)
(** Creating the keeper: NewKeeper with its options (x/wasm/keeper/
    keeper_cgo.go and options.go), the configuration of the VM
    (wasmvm/types/config.go, node configuration of x/wasm/types/types.go) and
    the metrics of its cache (x/wasm/keeper/metrics.go). *)
From Stdlib Require Import Ascii.
From S2P Require Import Prelude Errors GoStrings Json Types Keys VMTypes Policy GasRegister Chain Logic Engine Store Events Keeper Dispatcher Msgs MsgServer Encoders Messenger QueryPlugins Querier.
Import GoStrings Json.Json Keys Store.Store Encoders.Encoders Messenger.Messenger.
Open Scope wasm_scope.

(** ** Paths (path/filepath on unix) *)

Module Filepath.

Fixpoint split (cur s : string) : list string :=
  match s with
  | EmptyString => [cur]
  | String c s' =>
      if Ascii.eqb c "/"%char then cur :: split EmptyString s'
      else split (String.append cur (String c EmptyString)) s'
  end.
Fixpoint join (l : list string) : string :=
  match l with
  | [] => EmptyString
  | [e] => e
  | e :: l' => String.append e (String.append "/" (join l'))
  end.
(** One element of the path, with the elements kept so far in reverse. *)
Definition clean_step (rooted : bool) (out : list string) (e : string) : list string :=
  if bool_decide (e = "" \/ e = ".")%string then out
  else if bool_decide (e = "..")%string then
    match out with
    | top :: out' => if bool_decide (top = "..")%string then e :: out else out'
    | [] => if rooted then [] else [e]
    end
  else e :: out.
Definition Clean (path : string) : string :=
  let rooted := HasPrefix path "/" in
  let out := join (reverse (foldl (clean_step rooted) [] (split EmptyString path))) in
  if rooted then String.append "/" out
  else if bool_decide (out = "")%string then "." else out.
Fixpoint Join (elem : list string) : string :=
  match elem with
  | [] => EmptyString
  | e :: elem' => if bool_decide (e = "")%string then Join elem' else Clean (join elem)
  end.

End Filepath.

(** ** Configuration of the VM (wasmvm/types/config.go) *)

Definition mul32 (a b : N) : N := wrap32 (a * b).
(** Size: a number of bytes as uint32. *)
Definition NewSize (v : N) : N := v.
Definition NewSizeKilo (v : N) : N := mul32 v 1000.
Definition NewSizeKibi (v : N) : N := mul32 v 1024.
Definition NewSizeMega (v : N) : N := mul32 (mul32 v 1000) 1000.
Definition NewSizeMebi (v : N) : N := mul32 (mul32 v 1024) 1024.
Definition NewSizeGiga (v : N) : N := mul32 (mul32 (mul32 v 1000) 1000) 1000.
Definition NewSizeGibi (v : N) : N := mul32 (mul32 (mul32 v 1024) 1024) 1024.

Lemma wrap32_mul a b : wrap32 (wrap32 a * b) = wrap32 (a * b).
Proof. unfold wrap32. by rewrite N.Div0.mul_mod_idemp_l. Qed.
(** The sizes wrap around: a cache of 4096 MiB has no bytes. *)
Theorem NewSizeMebi_wraps v : NewSizeMebi v = (v mod 4096 * 1048576)%N.
Proof.
  unfold NewSizeMebi, mul32. rewrite wrap32_mul. unfold wrap32.
  rewrite <- N.mul_assoc. change (1024 * 1024)%N with 1048576%N.
  change two32 with (4096 * 1048576)%N. by rewrite N.Div0.mul_mod_distr_r.
Qed.

Record CacheOptions := mkCacheOptions {
  BaseDir : string;
  AvailableCapabilities : option (list string);
  MemoryCacheSizeBytes : N;
  InstanceMemoryLimitBytes : N;
}.
Record VMConfig := mkVMConfig { VM_WasmLimits : WasmLimits; VM_Cache : CacheOptions }.
(** json.Marshal(config), as libwasmvm gets it. *)
Definition json_VMConfig (c : VMConfig) : json :=
  let cache := VM_Cache c in
  JObject [jfield "wasm_limits" (json_WasmLimits (VM_WasmLimits c));
    jfield "cache" (JObject
      [jfield "base_dir" (jstring (BaseDir cache));
       jfield "available_capabilities" (QueryPlugins.json_strings (AvailableCapabilities cache));
       jfield "memory_cache_size_bytes" (jnumber (MemoryCacheSizeBytes cache));
       jfield "instance_memory_limit_bytes" (jnumber (InstanceMemoryLimitBytes cache))])].

(** ** Node configuration (x/wasm/types/types.go) *)

Definition defaultMemoryCacheSize : N := 100.
Definition defaultSmartQueryGasLimit : N := 3000000.
Definition defaultContractDebugMode : bool := false.
Record NodeConfig := mkNodeConfig {
  SimulationGasLimit : option N;
  SmartQueryGasLimit : N;
  MemoryCacheSize : N;
  ContractDebugMode : bool;
}.
Definition DefaultNodeConfig : NodeConfig :=
  mkNodeConfig None defaultSmartQueryGasLimit defaultMemoryCacheSize defaultContractDebugMode.

Definition newline : string := String "010"%char EmptyString.
Definition lines (l : list string) : string :=
  foldr (fun s acc => String.append s (String.append newline acc)) EmptyString l.
Definition ConfigTemplate (c : NodeConfig) : string :=
  let simGasLimit :=
    match SimulationGasLimit c with
    | None => "# simulation_gas_limit ="%string
    | Some n => String.append "simulation_gas_limit = " (pretty n)
    end in
  lines [""; "[wasm]";
    "# Smart query gas limit is the max gas to be used in a smart query contract call";
    String.append "query_gas_limit = " (pretty (SmartQueryGasLimit c));
    "";
    "# in-memory cache for Wasm contracts. Set to 0 to disable.";
    "# The value is in MiB not bytes";
    String.append "memory_cache_size = " (pretty (MemoryCacheSize c));
    "";
    "# Simulation gas limit is the max gas to be used in a tx simulation call.";
    "# When not set the consensus max block gas is used instead";
    simGasLimit].
Definition DefaultConfigTemplate : string := ConfigTemplate DefaultNodeConfig.

Definition contractMemoryLimit : N := 32.
Definition DefaultMaxQueryStackSize : N := 10.
Definition DefaultMaxCallDepth : N := 500.
Definition BuiltInCapabilities : list string :=
  ["iterator"; "staking"; "stargate"; "cosmwasm_1_1"; "cosmwasm_1_2"; "cosmwasm_1_3";
   "cosmwasm_1_4"; "cosmwasm_2_0"; "cosmwasm_2_1"; "cosmwasm_2_2"]%string.

(** ** Metrics of the cache (x/wasm/keeper/metrics.go) *)

Record Metrics := mkMetrics {
  HitsPinnedMemoryCache : N; HitsMemoryCache : N; HitsFsCache : N; Misses : N;
  ElementsPinnedMemoryCache : N; ElementsMemoryCache : N;
  SizePinnedMemoryCache : N; SizeMemoryCache : N;
}.
Record PerModuleMetrics := mkPerModuleMetrics { Hits : N; Size : N }.
Record PerModuleEntry := mkPerModuleEntry { PM_Checksum : bytes; PM_Metrics : PerModuleMetrics }.

Module Metrics.

(** prometheus.Desc: name, help and variable labels. *)
Record Desc := mkDesc { fqName : string; help : string; variableLabels : list string }.
#[global] Instance Desc_eq_dec : EqDecision Desc.
Proof. solve_decision. Defined.
Inductive ValueType := CounterValue | GaugeValue.
(** A metric before its value is converted to float64. *)
Record Metric := mkMetric { desc : Desc; valueType : ValueType; value : N; labels : list string }.

Definition CacheHitsDescr : Desc :=
  mkDesc "wasmvm_cache_hits_total" "Total number of cache hits" ["type"%string].
Definition CacheMissesDescr : Desc :=
  mkDesc "wasmvm_cache_misses_total" "Total number of cache misses" [].
Definition CacheElementsDescr : Desc :=
  mkDesc "wasmvm_cache_elements_total" "Total number of elements in the cache" ["type"%string].
Definition CacheSizeDescr : Desc :=
  mkDesc "wasmvm_cache_size_bytes" "Total number of elements in the cache" ["type"%string].
Definition PinnedHitsDescr : Desc :=
  mkDesc "wasmvm_pinned_contract_hits" "Number of hits of a pinned contract" ["checksum"%string].
Definition PinnedSizeDescr : Desc :=
  mkDesc "wasmvm_pinned_contract_size" "Size of a pinned contract" ["checksum"%string].

Definition Describe : list Desc :=
  [CacheHitsDescr; CacheMissesDescr; CacheElementsDescr; CacheSizeDescr].

(** MustNewConstMetric panics when the labels do not fit the descriptor. *)
Definition MustNewConstMetric (d : Desc) (t : ValueType) (v : N) (ls : list string) : outcome Metric :=
  if Nat.eqb (length ls) (length (variableLabels d)) then Ret (mkMetric d t v ls)
  else Panic (PText "inconsistent label cardinality").
Fixpoint sequence {A} (l : list (outcome A)) : outcome (list A) :=
  match l with
  | [] => Ret []
  | o :: l' => obind o (fun a => obind (sequence l') (fun l' => Ret (a :: l')))
  end.
Definition cache_metrics (m : Metrics) : list (outcome Metric) :=
  [MustNewConstMetric CacheHitsDescr CounterValue (HitsPinnedMemoryCache m) ["pinned"%string];
   MustNewConstMetric CacheHitsDescr CounterValue (HitsMemoryCache m) ["memory"%string];
   MustNewConstMetric CacheHitsDescr CounterValue (HitsFsCache m) ["fs"%string];
   MustNewConstMetric CacheMissesDescr CounterValue (Misses m) [];
   MustNewConstMetric CacheElementsDescr GaugeValue (ElementsPinnedMemoryCache m) ["pinned"%string];
   MustNewConstMetric CacheElementsDescr GaugeValue (ElementsMemoryCache m) ["memory"%string];
   MustNewConstMetric CacheSizeDescr GaugeValue (SizeMemoryCache m) ["memory"%string];
   MustNewConstMetric CacheSizeDescr GaugeValue (SizePinnedMemoryCache m) ["pinned"%string]].
Definition pinned_metrics (e : PerModuleEntry) : list (outcome Metric) :=
  let checksum := hex_encode (PM_Checksum e) in
  [MustNewConstMetric PinnedHitsDescr CounterValue (Hits (PM_Metrics e)) [checksum];
   MustNewConstMetric PinnedSizeDescr GaugeValue (Size (PM_Metrics e)) [checksum]].
(** The metrics sent, from what GetMetrics and GetPinnedMetrics return. *)
Definition Collect (m : Metrics + error) (pm : list PerModuleEntry + error) : outcome (list Metric) :=
  sequence ((match m with inl m => cache_metrics m | inr _ => [] end)
    ++ (match pm with inl l => concat (pinned_metrics <$> l) | inr _ => [] end)).

Lemma sequence_app {A} (l l' : list (outcome A)) xs ys :
  sequence l = Ret xs -> sequence l' = Ret ys -> sequence (l ++ l') = Ret (xs ++ ys).
Proof.
  revert xs. induction l as [|[a| |] l IH]; intros xs; simpl; [by intros [= <-]| |done..].
  destruct (sequence l) as [l1| |]; simpl; [|done..]. intros [= <-] H'. by rewrite (IH l1).
Qed.
Lemma pinned_metrics_sent l :
  sequence (concat (pinned_metrics <$> l)) = Ret (concat ((fun e =>
    [mkMetric PinnedHitsDescr CounterValue (Hits (PM_Metrics e)) [hex_encode (PM_Checksum e)];
     mkMetric PinnedSizeDescr GaugeValue (Size (PM_Metrics e)) [hex_encode (PM_Checksum e)]]) <$> l)).
Proof. induction l as [|e l IH]; [done|]. rewrite !fmap_cons. by apply sequence_app. Qed.

(** Collecting never panics, but a pinned contract is enough for it to send a
    metric whose descriptor Describe does not send. *)
Theorem Collect_undescribed m e l :
  exists ms, Collect m (inl (e :: l)) = Ret ms
    /\ exists x, x ∈ ms /\ desc x ∉ Describe.
Proof.
  unfold Collect. pose proof (pinned_metrics_sent (e :: l)) as E.
  rewrite fmap_cons in E.
  assert (exists ms, sequence (match m with inl m => cache_metrics m | inr _ => [] end) = Ret ms)
    as [ms Em] by (destruct m; by eexists).
  eexists. split; [by apply sequence_app|].
  exists (mkMetric PinnedHitsDescr CounterValue (Hits (PM_Metrics e))
    [hex_encode (PM_Checksum e)]). split.
  - rewrite elem_of_app. right. simpl. set_solver.
  - apply (bool_decide_eq_false_1 _). vm_compute. reflexivity.
Qed.

End Metrics.

(** ** Options (x/wasm/keeper/options.go) *)

Module Options.

Section Options.
Context `{GasMeters, Modules, KVStorePkg, Bech32, ErrorsMod, UnicodeTables,
  AddressPkg, CoinsPkg, Codecs, VerificationPkg}.
Context `{!Keepers, !ICS4, !CoinConversion, !TransferPort, !AnyUnpacker, !MsgCodec, !QueryKeepers}.
(** types.WasmEngine, types.BankKeeper, implementations of CoinTransferrer and
    AccountPruner by a chain, prometheus registries, gRPC answers *)
Context {Engine Bank Transferrer Pruner Registerer P : Type}.
Context (QuerySmart : Context -> bytes -> bytes -> M bytes).
Context (Handler : SdkMsg -> option (Context -> SdkMsg -> M SdkResult)).
(** wasmvm.NewVMWithConfig, and Registerer.MustRegister of the metrics. *)
Context (NewVMWithConfig : VMConfig -> bool -> Engine + error).
Context (MustRegister : Registerer -> Engine -> outcome unit).

(** Values of the interfaces of the keeper, with the types that the options
    look for told apart. *)
Inductive msgEncoder :=
| MessageEncodersValue (e : MessageEncoders)
| otherEncoder (T : string) (f : Context -> bytes -> string -> CosmosMsg -> M (list SdkMsg)).
Inductive MessengerValue :=
| nilMessenger
| SDKMessageHandler (encoders : msgEncoder)
| IBCRawPacketHandler
| BurnCoinHandler
| MessageHandlerChain (handlers : list MessengerValue)
| callDepthMessageHandler (messenger : MessengerValue) (MaxCallDepth : N)
| otherMessenger (T : string) (f : MessengerFn).
Inductive QueryHandlerValue :=
| nilQueryHandler
| QueryPluginsValue (q : QueryPlugins.QueryPlugins P)
| otherQueryHandler (T : string) (f : Context -> bytes -> QueryRequest -> M bytes).
Inductive CoinTransferrerValue :=
| BankCoinTransferrer (keeper : option Bank) | otherTransferrer (x : Transferrer).
Inductive AccountPrunerValue :=
| VestingCoinBurner (bank : Bank) | otherPruner (x : Pruner).

(** The verb %T. *)
Definition type_of_encoder (e : msgEncoder) : string :=
  match e with MessageEncodersValue _ => "keeper.MessageEncoders" | otherEncoder T _ => T end.
Definition type_of_messenger (m : MessengerValue) : string :=
  match m with
  | nilMessenger => "<nil>"
  | SDKMessageHandler _ => "keeper.SDKMessageHandler"
  | IBCRawPacketHandler => "keeper.IBCRawPacketHandler"
  | BurnCoinHandler => "keeper.MessageHandlerFunc"
  | MessageHandlerChain _ => "*keeper.MessageHandlerChain"
  | callDepthMessageHandler _ _ => "keeper.callDepthMessageHandler"
  | otherMessenger T _ => T
  end.
Definition type_of_query_handler (q : QueryHandlerValue) : string :=
  match q with
  | nilQueryHandler => "<nil>"
  | QueryPluginsValue _ => "keeper.QueryPlugins"
  | otherQueryHandler T _ => T
  end.

(** Messenger.DispatchMsg by the dynamic type. *)
Definition encode_with (e : msgEncoder) : Context -> bytes -> string -> CosmosMsg -> M (list SdkMsg) :=
  match e with MessageEncodersValue e => Encode e | otherEncoder _ f => f end.
Fixpoint DispatchMsg (m : MessengerValue) : MessengerFn :=
  match m with
  | nilMessenger => fun _ _ _ _ => throw (PRuntime "invalid memory address or nil pointer dereference")
  | SDKMessageHandler encoders => fun ctx contractAddr contractIBCPortID msg =>
      sdkMsgs ← encode_with encoders ctx contractAddr contractIBCPortID msg;
      handle_all Handler ctx contractAddr sdkMsgs noResult
  | IBCRawPacketHandler => IBCRawPacketHandler_DispatchMsg
  | BurnCoinHandler => BurnCoinMessageHandler
  | MessageHandlerChain handlers => MessageHandlerChain_DispatchMsg (List.map DispatchMsg handlers)
  | callDepthMessageHandler messenger MaxCallDepth =>
      callDepthMessageHandler_DispatchMsg MaxCallDepth (DispatchMsg messenger)
  | otherMessenger _ f => f
  end.

(** The fields of Keeper that options and NewKeeper set. *)
Record KeeperValue := mkKeeper {
  wasmVM : option Engine;
  bank : CoinTransferrerValue;
  accountPruner : AccountPrunerValue;
  messenger : MessengerValue;
  wasmVMQueryHandler : QueryHandlerValue;
  config : KeeperConfig;
  wasmLimits : WasmLimits;
}.
(** The costs of the address functions, variables of the package. *)
Record APICosts := mkAPICosts { cost_humanize : N; cost_canonical : N }.

Definition set_wasmVM x k := mkKeeper x (bank k) (accountPruner k) (messenger k)
  (wasmVMQueryHandler k) (config k) (wasmLimits k).
Definition set_bank x k := mkKeeper (wasmVM k) x (accountPruner k) (messenger k)
  (wasmVMQueryHandler k) (config k) (wasmLimits k).
Definition set_accountPruner x k := mkKeeper (wasmVM k) (bank k) x (messenger k)
  (wasmVMQueryHandler k) (config k) (wasmLimits k).
Definition set_messenger x k := mkKeeper (wasmVM k) (bank k) (accountPruner k) x
  (wasmVMQueryHandler k) (config k) (wasmLimits k).
Definition set_query_handler x k := mkKeeper (wasmVM k) (bank k) (accountPruner k) (messenger k)
  x (config k) (wasmLimits k).
Definition set_config (f : KeeperConfig -> KeeperConfig) k := mkKeeper (wasmVM k) (bank k)
  (accountPruner k) (messenger k) (wasmVMQueryHandler k) (f (config k)) (wasmLimits k).
Definition set_gasRegister x (c : KeeperConfig) := mkKeeperConfig x (maxQueryStackSize c) (maxCallDepth c)
  (acceptedAccountTypes c) (propagateGovAuthorization c) (authority c) (queryGasLimit c).
Definition set_maxQueryStackSize x (c : KeeperConfig) := mkKeeperConfig (gasRegister c) x (maxCallDepth c)
  (acceptedAccountTypes c) (propagateGovAuthorization c) (authority c) (queryGasLimit c).
Definition set_maxCallDepth x (c : KeeperConfig) := mkKeeperConfig (gasRegister c) (maxQueryStackSize c) x
  (acceptedAccountTypes c) (propagateGovAuthorization c) (authority c) (queryGasLimit c).
Definition set_acceptedAccountTypes x (c : KeeperConfig) := mkKeeperConfig (gasRegister c) (maxQueryStackSize c)
  (maxCallDepth c) x (propagateGovAuthorization c) (authority c) (queryGasLimit c).
Definition set_propagate x (c : KeeperConfig) := mkKeeperConfig (gasRegister c) (maxQueryStackSize c)
  (maxCallDepth c) (acceptedAccountTypes c) x (authority c) (queryGasLimit c).

Inductive Option :=
| WithWasmEngine (x : option Engine)
| WithWasmEngineDecorator (d : option Engine -> option Engine)
| WithMessageHandler (x : MessengerValue)
| WithMessageHandlerDecorator (d : MessengerValue -> MessengerValue)
| WithQueryHandler (x : QueryHandlerValue)
| WithQueryHandlerDecorator (d : QueryHandlerValue -> QueryHandlerValue)
| WithQueryPlugins (x : option (QueryPlugins.QueryPlugins P))
| WithMessageEncoders (x : option MessageEncoders)
| coinTransferrer (x : CoinTransferrerValue)
| pruner (x : AccountPrunerValue)
| WithVMCacheMetrics (r : Registerer)
| gas_register (x : GasRegister.WasmGasRegisterConfig)
| WithAPICosts (human canonical : N)
| WithMaxQueryStackSize (m : N)
| WithMaxCallDepth (m : N)
| accepted_account_types (m : list string)
| gov_authz_propagated (x : gset N).

(** The constructors that check their argument; nil is [None]. *)
Definition not_nil {A} (f : A -> Option) (x : option A) : outcome Option :=
  match x with Some x => Ret (f x) | None => Panic (PText "must not be nil") end.
Definition WithCoinTransferrer := not_nil coinTransferrer.
Definition WithAccountPruner := not_nil pruner.
Definition WithGasRegister := not_nil gas_register.
(** Accounts by the names of their types; the map is its list of keys. *)
Fixpoint asTypeMap (accts : list (option string)) (m : list string) : outcome (list string) :=
  match accts with
  | [] => Ret m
  | None :: _ => Panic (PError (Wrap ErrEmpty "address"))
  | Some at_ :: accts' =>
      if bool_decide (at_ ∈ m) then Panic (PError (Wrap ErrDuplicate at_))
      else asTypeMap accts' (m ++ [at_])
  end.
Definition WithAcceptedAccountTypesOnContractInstantiation (accts : list (option string)) : outcome Option :=
  obind (asTypeMap accts []) (fun m => Ret (accepted_account_types m)).
Definition WitGovSubMsgAuthZPropagated (entries : list N) : outcome Option :=
  let x : gset N := list_to_set entries in
  if Nat.eqb (size x) (length entries) then Ret (gov_authz_propagated x)
  else Panic (PText "duplicates").

Definition merge_encoders (x : option MessageEncoders) (m : MessengerValue) : outcome MessengerValue :=
  match m with
  | MessageHandlerChain [] => Panic (PRuntime "index out of range [0] with length 0")
  | MessageHandlerChain (SDKMessageHandler (MessageEncodersValue e) :: handlers) =>
      Ret (MessageHandlerChain (SDKMessageHandler (MessageEncodersValue (Merge e x)) :: handlers))
  | MessageHandlerChain (SDKMessageHandler e :: _) =>
      Panic (PText (String.append "Unsupported encoder type: " (type_of_encoder e)))
  | MessageHandlerChain (h :: _) =>
      Panic (PText (String.append "Unexpected message handler type: " (type_of_messenger h)))
  | m => Panic (PText (String.append "Unsupported message handler type: " (type_of_messenger m)))
  end.
Definition merge_plugins (x : option (QueryPlugins.QueryPlugins P)) (q : QueryHandlerValue)
    : outcome QueryHandlerValue :=
  match q with
  | QueryPluginsValue q => Ret (QueryPluginsValue (QueryPlugins.Merge q x))
  | q => Panic (PText (String.append "Unsupported query handler type: " (type_of_query_handler q)))
  end.

Definition apply (o : Option) (st : KeeperValue * APICosts) : outcome (KeeperValue * APICosts) :=
  let '(k, costs) := st in
  match o with
  | WithWasmEngine x => Ret (set_wasmVM x k, costs)
  | WithWasmEngineDecorator d => Ret (set_wasmVM (d (wasmVM k)) k, costs)
  | WithMessageHandler x => Ret (set_messenger x k, costs)
  | WithMessageHandlerDecorator d => Ret (set_messenger (d (messenger k)) k, costs)
  | WithQueryHandler x => Ret (set_query_handler x k, costs)
  | WithQueryHandlerDecorator d => Ret (set_query_handler (d (wasmVMQueryHandler k)) k, costs)
  | WithQueryPlugins x =>
      obind (merge_plugins x (wasmVMQueryHandler k)) (fun q => Ret (set_query_handler q k, costs))
  | WithMessageEncoders x =>
      obind (merge_encoders x (messenger k)) (fun m => Ret (set_messenger m k, costs))
  | coinTransferrer x => Ret (set_bank x k, costs)
  | pruner x => Ret (set_accountPruner x k, costs)
  | WithVMCacheMetrics r =>
      match wasmVM k with
      | None => Panic (PText "wasmvm instance must not be nil")
      | Some e => obind (MustRegister r e) (fun _ => Ret (k, costs))
      end
  | gas_register x => Ret (set_config (set_gasRegister x) k, costs)
  | WithAPICosts human canonical => Ret (k, mkAPICosts human canonical)
  | WithMaxQueryStackSize m => Ret (set_config (set_maxQueryStackSize m) k, costs)
  | WithMaxCallDepth m => Ret (set_config (set_maxCallDepth m) k, costs)
  | accepted_account_types m => Ret (set_config (set_acceptedAccountTypes m) k, costs)
  | gov_authz_propagated x => Ret (set_config (set_propagate x) k, costs)
  end.
(** The options of type postOptsFn. *)
Definition is_post (o : Option) : bool :=
  match o with
  | WithWasmEngineDecorator _ | WithMessageHandlerDecorator _ | WithQueryHandlerDecorator _
  | WithVMCacheMetrics _ => true
  | _ => false
  end.
Definition splitOpts (opts : list Option) : list Option * list Option :=
  (List.filter (fun o => negb (is_post o)) opts, List.filter is_post opts).
Fixpoint apply_all (opts : list Option) (st : KeeperValue * APICosts)
    : outcome (KeeperValue * APICosts) :=
  match opts with
  | [] => Ret st
  | o :: opts' => obind (apply o st) (apply_all opts')
  end.

(** ** NewKeeper (x/wasm/keeper/keeper_cgo.go) *)

Definition NewVestingCoinBurner (bank : option Bank) : outcome AccountPrunerValue :=
  match bank with
  | None => Panic (PText "bank keeper must not be nil")
  | Some bank => Ret (VestingCoinBurner bank)
  end.
Definition DefaultMessenger : MessengerValue :=
  MessageHandlerChain [SDKMessageHandler (MessageEncodersValue DefaultEncoders);
    IBCRawPacketHandler; BurnCoinHandler].
Definition default_config (nodeConfig : NodeConfig) (authority : string) : KeeperConfig :=
  mkKeeperConfig GasRegister.DefaultGasRegisterConfig DefaultMaxQueryStackSize DefaultMaxCallDepth
    ["*types.BaseAccount"%string] {[Policy.AuthZActionInstantiate]} authority
    (SmartQueryGasLimit nodeConfig).
Definition vm_config (homeDir : string) (nodeConfig : NodeConfig) (limits : WasmLimits)
    (availableCapabilities : option (list string)) : VMConfig :=
  mkVMConfig limits (mkCacheOptions (Filepath.Join [homeDir; "wasm"%string]) availableCapabilities
    (NewSizeMebi (MemoryCacheSize nodeConfig)) (NewSizeMebi contractMemoryLimit)).
(** Only when no option has set a VM. *)
Definition ensure_vm (cfg : VMConfig) (debug : bool) (k : KeeperValue) : outcome KeeperValue :=
  match wasmVM k with
  | Some _ => Ret k
  | None =>
      match NewVMWithConfig cfg debug with
      | inl e => Ret (set_wasmVM (Some e) k)
      | inr err => Panic (PError err)
      end
  end.
Definition NewKeeper (bankKeeper : option Bank) (homeDir : string) (nodeConfig : NodeConfig)
    (limits : WasmLimits) (availableCapabilities : option (list string)) (authority : string)
    (opts : list Option) (costs : APICosts) : outcome (KeeperValue * APICosts) :=
  obind (NewVestingCoinBurner bankKeeper) (fun burner =>
  let keeper := mkKeeper None (BankCoinTransferrer bankKeeper) burner DefaultMessenger
    (QueryPluginsValue (QueryPlugins.DefaultQueryPlugins QuerySmart))
    (default_config nodeConfig authority) limits in
  let '(preOpts, postOpts) := splitOpts opts in
  obind (apply_all preOpts (keeper, costs)) (fun '(keeper, costs) =>
  let keeper := set_messenger
    (callDepthMessageHandler (messenger keeper) (maxCallDepth (config keeper))) keeper in
  obind (ensure_vm (vm_config homeDir nodeConfig limits availableCapabilities)
           (ContractDebugMode nodeConfig) keeper) (fun keeper =>
  apply_all postOpts (keeper, costs)))).

(** *** What the options amount to *)

Definition decorate_messenger (m : MessengerValue) (o : Option) : MessengerValue :=
  match o with WithMessageHandlerDecorator d => d m | _ => m end.
Definition decorate_engine (e : option Engine) (o : Option) : option Engine :=
  match o with WithWasmEngineDecorator d => d e | _ => e end.
Definition decorate_queries (q : QueryHandlerValue) (o : Option) : QueryHandlerValue :=
  match o with WithQueryHandlerDecorator d => d q | _ => q end.
Definition set_engine (e : option Engine) (o : Option) : option Engine :=
  match o with WithWasmEngine x => x | _ => e end.
Definition encoders_of (o : Option) : list (option MessageEncoders) :=
  match o with WithMessageEncoders x => [x] | _ => [] end.
Definition plugins_of (o : Option) : list (option (QueryPlugins.QueryPlugins P)) :=
  match o with WithQueryPlugins x => [x] | _ => [] end.
Definition keeps_messenger (o : Option) : bool :=
  match o with WithMessageHandler _ | WithMessageHandlerDecorator _ => false | _ => true end.
Definition keeps_queries (o : Option) : bool :=
  match o with WithQueryHandler _ | WithQueryHandlerDecorator _ => false | _ => true end.

Lemma foldl_filter {A B} (g : A -> B -> A) (f : B -> bool) l a :
  (forall a b, f b = false -> g a b = a) -> foldl g a (List.filter f l) = foldl g a l.
Proof.
  intros Hg. revert a. induction l as [|b l IH]; intros a; simpl; [done|].
  destruct (f b) eqn:E; simpl; [apply IH|]. by rewrite Hg.
Qed.
Lemma foldl_same {A B} (g : A -> B -> A) (f : B -> bool) l a :
  Forall (fun b => f b = true) l -> (forall a b, f b = true -> g a b = a) -> foldl g a l = a.
Proof. intros Hl Hg. revert a. induction Hl as [|b l Hb _ IH]; intros a; simpl; [done|]. by rewrite Hg. Qed.

(** A property of the keeper that every option carries over holds at the end. *)
Lemma apply_all_fold {A} (Q : Option -> Prop) (g : A -> Option -> A) (R : A -> KeeperValue -> Prop) :
  (forall a o k c k' c', Q o -> apply o (k, c) = Ret (k', c') -> R a k -> R (g a o) k') ->
  forall opts a k c k' c', Forall Q opts -> apply_all opts (k, c) = Ret (k', c') ->
    R a k -> R (foldl g a opts) k'.
Proof.
  intros Hstep opts. induction opts as [|o opts IH]; intros a k c k' c' Hq; cbn [apply_all foldl].
  - by intros [= <- <-].
  - inversion_clear Hq as [|? ? Ho Hos]. destruct (apply o (k, c)) as [[k1 c1]| |] eqn:E; cbn [obind]; [|done..].
    intros E' Hr. eapply IH; [done|exact E'|]. by eapply Hstep.
Qed.
Lemma splitOpts_pre opts : Forall (fun o => is_post o = false) (splitOpts opts).1.
Proof. apply List.Forall_forall. intros o [_ Ho]%filter_In. by apply negb_true_iff. Qed.
Lemma splitOpts_post opts : Forall (fun o => is_post o = true) (splitOpts opts).2.
Proof. apply List.Forall_forall. by intros o [_ Ho]%filter_In. Qed.
Lemma forall_split (f : Option -> bool) opts :
  Forall (fun o => f o = true) opts ->
  Forall (fun o => f o = true) (splitOpts opts).1 /\ Forall (fun o => f o = true) (splitOpts opts).2.
Proof.
  rewrite !List.Forall_forall. intros Hf. split; intros o [Ho _]%filter_In; by apply Hf.
Qed.

Ltac option_cases :=
  intros; simplify_eq/=;
  repeat match goal with
  | o : Option |- _ => destruct o
  | E : obind ?x _ = Ret _ |- _ => destruct x eqn:?; simplify_eq/=
  | E : match wasmVM ?k with _ => _ end = Ret _ |- _ => destruct (wasmVM k) eqn:?; simplify_eq/=
  end; simplify_eq/=; try done.

(** Decorators leave the configuration alone. *)
Lemma apply_post o k c k' c' :
  is_post o = true -> apply o (k, c) = Ret (k', c') ->
  config k' = config k
  /\ messenger k' = decorate_messenger (messenger k) o
  /\ wasmVM k' = decorate_engine (wasmVM k) o
  /\ wasmVMQueryHandler k' = decorate_queries (wasmVMQueryHandler k) o.
Proof. option_cases. Qed.

Lemma apply_all_post opts k c k' c' :
  Forall (fun o => is_post o = true) opts -> apply_all opts (k, c) = Ret (k', c') ->
  config k' = config k
  /\ messenger k' = foldl decorate_messenger (messenger k) opts
  /\ wasmVM k' = foldl decorate_engine (wasmVM k) opts
  /\ wasmVMQueryHandler k' = foldl decorate_queries (wasmVMQueryHandler k) opts.
Proof.
  revert k c. induction opts as [|o opts IH]; intros k c Hp; cbn [apply_all foldl].
  - by intros [= <- <-].
  - inversion_clear Hp as [|? ? Ho Hos]. destruct (apply o (k, c)) as [[k1 c1]| |] eqn:E;
      cbn [obind]; [|done..].
    apply apply_post in E as (E1 & E2 & E3 & E4); [|done].
    intros (-> & -> & -> & ->)%IH; [|done]. by rewrite E1, E2, E3, E4.
Qed.

(** The default chain of handlers with other encoders. *)
Definition default_chain (e : MessageEncoders) : MessengerValue :=
  MessageHandlerChain [SDKMessageHandler (MessageEncodersValue e); IBCRawPacketHandler; BurnCoinHandler].
Definition merge_all (e : MessageEncoders) (o : Option) : MessageEncoders :=
  foldl Merge e (encoders_of o).
Definition merge_all_plugins (q : QueryPlugins.QueryPlugins P) (o : Option) : QueryPlugins.QueryPlugins P :=
  foldl QueryPlugins.Merge q (plugins_of o).
Lemma foldl_bind {A B C} (g : A -> C -> A) (f : B -> list C) l a :
  foldl (fun a b => foldl g a (f b)) a l = foldl g a (l ≫= f).
Proof.
  revert a. induction l as [|b l IH]; intros a; [done|]. rewrite bind_cons, foldl_app. apply IH.
Qed.

Lemma pre_messenger opts e k c k' c' :
  Forall (fun o => keeps_messenger o = true) opts -> apply_all opts (k, c) = Ret (k', c') ->
  messenger k = default_chain e -> messenger k' = default_chain (foldl merge_all e opts).
Proof.
  intros Hf E. revert Hf E.
  apply (apply_all_fold _ merge_all (fun e k => messenger k = default_chain e)).
  option_cases. revert select (merge_encoders _ _ = _). revert select (messenger _ = _).
  intros ->. by intros [= <-].
Qed.
Lemma pre_queries opts q k c k' c' :
  Forall (fun o => keeps_queries o = true) opts -> apply_all opts (k, c) = Ret (k', c') ->
  wasmVMQueryHandler k = QueryPluginsValue q ->
  wasmVMQueryHandler k' = QueryPluginsValue (foldl merge_all_plugins q opts).
Proof.
  intros Hf E. revert Hf E.
  apply (apply_all_fold _ merge_all_plugins (fun q k => wasmVMQueryHandler k = QueryPluginsValue q)).
  option_cases. revert select (merge_plugins _ _ = _). revert select (wasmVMQueryHandler _ = _).
  intros ->. by intros [= <-].
Qed.
Lemma pre_engine opts k c k' c' :
  Forall (fun o => is_post o = false) opts -> apply_all opts (k, c) = Ret (k', c') ->
  wasmVM k' = foldl set_engine (wasmVM k) opts.
Proof.
  intros Hf E.
  eapply (apply_all_fold _ set_engine (fun e k => wasmVM k = e)); [|exact Hf|exact E|done].
  option_cases.
Qed.

(** The steps of NewKeeper that return a keeper. *)
Lemma NewKeeper_inv bankKeeper homeDir nodeConfig limits caps authority opts costs k c :
  NewKeeper bankKeeper homeDir nodeConfig limits caps authority opts costs = Ret (k, c) ->
  exists k0 k1 c1 e, messenger k0 = DefaultMessenger
    /\ wasmVMQueryHandler k0 = QueryPluginsValue (QueryPlugins.DefaultQueryPlugins QuerySmart)
    /\ wasmVM k0 = None /\ apply_all (splitOpts opts).1 (k0, costs) = Ret (k1, c1)
    /\ match wasmVM k1 with
       | Some e' => e' = e
       | None => NewVMWithConfig (vm_config homeDir nodeConfig limits caps)
                   (ContractDebugMode nodeConfig) = inl e
       end
    /\ apply_all (splitOpts opts).2 (set_wasmVM (Some e) (set_messenger
         (callDepthMessageHandler (messenger k1) (maxCallDepth (config k1))) k1), c1) = Ret (k, c).
Proof.
  unfold NewKeeper. destruct (NewVestingCoinBurner bankKeeper) as [burner| |]; [|done..].
  cbn [obind]. destruct (splitOpts opts) as [pre post] eqn:Es. cbn [fst snd].
  match goal with |- context [apply_all pre (?k0, costs)] => set (keeper := k0) end.
  destruct (apply_all pre (keeper, costs)) as [[k1 c1]| |] eqn:Epre; cbn [obind]; [|done..].
  intros E. exists keeper, k1, c1. unfold ensure_vm in E. cbn [set_messenger wasmVM] in E.
  destruct (wasmVM k1) as [e|] eqn:Ev; cbn [obind] in E.
  - exists e. split_and!; try done. rewrite <- E. unfold set_wasmVM, set_messenger. simpl.
    by rewrite Ev.
  - destruct (NewVMWithConfig _ _) as [e|]; [|done]. by exists e.
Qed.

(** C37: how the keeper is assembled from any list of options: decorators come
    last, in the order given, and whatever messenger other options install,
    decorators get it behind the bound on nested calls; without an option for
    a messenger of its own, messages go through the default chain with the
    chain's encoders merged in order, and likewise for the query plugins; the
    VM is the last one an option sets, and is created only when there is
    none. *)
Theorem NewKeeper_assembles bankKeeper homeDir nodeConfig limits caps authority opts costs k c :
  NewKeeper bankKeeper homeDir nodeConfig limits caps authority opts costs = Ret (k, c) ->
  (exists m, messenger k = foldl decorate_messenger
     (callDepthMessageHandler m (maxCallDepth (config k))) opts)
  /\ (Forall (fun o => keeps_messenger o = true) opts ->
      DispatchMsg (messenger k)
      = keeper_messenger Handler (maxCallDepth (config k)) (opts ≫= encoders_of))
  /\ (Forall (fun o => keeps_queries o = true) opts ->
      wasmVMQueryHandler k = QueryPluginsValue
        (foldl QueryPlugins.Merge (QueryPlugins.DefaultQueryPlugins QuerySmart) (opts ≫= plugins_of)))
  /\ exists e, wasmVM k = foldl decorate_engine (Some e) opts
      /\ match foldl set_engine None opts with
         | Some e' => e' = e
         | None => NewVMWithConfig (vm_config homeDir nodeConfig limits caps)
                     (ContractDebugMode nodeConfig) = inl e
         end.
Proof.
  intros (k0 & k1 & c1 & e & Hm & Hq & Hv & Epre & He & Epost)%NewKeeper_inv.
  apply apply_all_post in Epost as (Ec & Em & Ev & Eq); [|apply splitOpts_post].
  cbn [config messenger wasmVM wasmVMQueryHandler set_wasmVM set_messenger] in *.
  unfold splitOpts in Em, Ev, Eq. cbn [snd] in Em, Ev, Eq.
  rewrite foldl_filter in Em by (by intros ? []). rewrite foldl_filter in Ev by (by intros ? []).
  rewrite foldl_filter in Eq by (by intros ? []). rewrite Ec. split_and!.
  - by exists (messenger k1).
  - intros Hf. destruct (forall_split _ _ Hf) as [Hpre _].
    rewrite (pre_messenger _ _ _ _ _ _ Hpre Epre Hm) in Em.
    rewrite (foldl_same _ _ _ _ Hf) in Em by (by intros ? []). rewrite Em.
    unfold splitOpts. cbn [fst]. rewrite foldl_filter by (by intros ? []).
    unfold merge_all. by rewrite foldl_bind.
  - intros Hf. destruct (forall_split _ _ Hf) as [Hpre _].
    rewrite (foldl_same _ _ _ _ Hf) in Eq by (by intros ? []). rewrite Eq.
    rewrite (pre_queries _ _ _ _ _ _ Hpre Epre Hq).
    unfold splitOpts. cbn [fst]. rewrite foldl_filter by (by intros ? []).
    unfold merge_all_plugins. by rewrite foldl_bind.
  - exists e. split; [done|]. rewrite (pre_engine _ _ _ _ _ (splitOpts_pre opts) Epre), Hv in He.
    unfold splitOpts in He. cbn [fst] in He. by rewrite foldl_filter in He by (by intros ? []).
Qed.

End Options.
End Options.
