(* ===== verification/JsonPrint.v ===== *)
(** json.Unmarshal reads back what json.Marshal has written: strings through
    escaping and UTF-8 decoding, numbers, arrays and objects. Bytes that are
    not UTF-8 come back as U+FFFD, as in Go. *)
From S2P Require Import Prelude GoStrings Json.
Import GoStrings Json.
Open Scope wasm_scope.

Module JsonPrint.
Local Open Scope N_scope.

(** ** UTF-8: encoding undoes decoding *)

Lemma lor_shiftl a b k : b < 2 ^ k -> N.lor (N.shiftl a k) b = a * 2 ^ k + b.
Proof.
  intros Hb. rewrite N.shiftl_mul_pow2.
  assert (N.land (a * 2 ^ k) b = 0) as Hl.
  { apply N.bits_inj. intros i. rewrite N.land_spec, N.bits_0.
    destruct (N.lt_ge_cases i k) as [Hi|Hi].
    - by rewrite N.mul_pow2_bits_low.
    - destruct (N.eq_dec b 0) as [->|Hb0]; [by rewrite N.bits_0, andb_false_r|].
      rewrite (N.bits_above_log2 b i), andb_false_r; [done|].
      apply N.log2_lt_pow2 in Hb; lia. }
  by rewrite <- N.lxor_lor, <- N.add_nocarry_lxor.
Qed.
Lemma land_low n k : N.land n (N.ones k) = n mod 2 ^ k.
Proof. apply N.land_ones. Qed.
Lemma lor_high c k b : b < 2 ^ k -> N.lor (c * 2 ^ k) b = c * 2 ^ k + b.
Proof. intros Hb. by rewrite <- (lor_shiftl c b k Hb), N.shiftl_mul_pow2. Qed.

(** The bytes EncodeRune produces, with arithmetic in place of bits. *)
Definition cont (n : N) : byte := byte_of_N (0x80 + n mod 64).
Lemma EncodeRune_1 r : r < 0x80 -> EncodeRune r = [byte_of_N r].
Proof. intros Hr. unfold EncodeRune. by rewrite (proj2 (N.ltb_lt _ _) Hr). Qed.
Lemma cont_eq n : byte_of_N (N.lor 0x80 (N.land n 0x3F)) = cont n.
Proof.
  change 0x3F with (N.ones 6). rewrite land_low. change 0x80 with (2 * 2 ^ 6) at 1.
  by rewrite lor_high by (apply N.mod_upper_bound; done).
Qed.
Lemma EncodeRune_2 r :
  0x80 <= r < 0x800 -> EncodeRune r = [byte_of_N (0xC0 + r / 64); cont r].
Proof.
  intros [H1 H2]. unfold EncodeRune. rewrite (proj2 (N.ltb_ge _ _) H1), (proj2 (N.ltb_lt _ _) H2).
  rewrite cont_eq, N.shiftr_div_pow2. change 0xC0 with (3 * 2 ^ 6) at 1.
  rewrite lor_high; [done|]. apply N.Div0.div_lt_upper_bound. simpl. lia.
Qed.
Lemma EncodeRune_3 r :
  0x800 <= r < 0x10000 -> ~ (0xD800 <= r <= 0xDFFF) ->
  EncodeRune r = [byte_of_N (0xE0 + r / 4096); cont (r / 64); cont r].
Proof.
  intros [H1 H2] Hs. unfold EncodeRune.
  rewrite (proj2 (N.ltb_ge r 0x80)), (proj2 (N.ltb_ge _ _) H1) by lia.
  assert (in_range 0xD800 0xDFFF r || (0x10FFFF <? r) = false) as ->.
  { apply orb_false_iff. split; [|apply N.ltb_ge; lia]. unfold in_range.
    apply andb_false_iff. destruct (N.leb_spec 0xD800 r); [right|by left]. apply N.leb_gt. lia. }
  rewrite (proj2 (N.ltb_lt _ _) H2), !cont_eq, !N.shiftr_div_pow2. change 0xE0 with (14 * 2 ^ 4) at 1.
  rewrite lor_high; [done|]. apply N.Div0.div_lt_upper_bound. simpl. lia.
Qed.
Lemma EncodeRune_4 r :
  0x10000 <= r <= 0x10FFFF ->
  EncodeRune r = [byte_of_N (0xF0 + r / 262144); cont (r / 4096); cont (r / 64); cont r].
Proof.
  intros [H1 H2]. unfold EncodeRune.
  rewrite (proj2 (N.ltb_ge r 0x80)), (proj2 (N.ltb_ge r 0x800)) by lia.
  assert (in_range 0xD800 0xDFFF r || (0x10FFFF <? r) = false) as ->.
  { apply orb_false_iff. split; [|apply N.ltb_ge; lia]. unfold in_range.
    apply andb_false_iff. right. apply N.leb_gt. lia. }
  rewrite (proj2 (N.ltb_ge r 0x10000)) by lia.
  rewrite !cont_eq, !N.shiftr_div_pow2. change 0xF0 with (30 * 2 ^ 3) at 1.
  rewrite lor_high; [done|]. apply N.Div0.div_lt_upper_bound. simpl. lia.
Qed.

(** Runes other than ASCII, surrogates left out. *)
Definition high_rune (r : N) : Prop :=
  0x80 <= r <= 0x10FFFF /\ ~ (0xD800 <= r <= 0xDFFF).

Lemma high_rune_cases r :
  high_rune r ->
  (0x80 <= r < 0x800 /\ EncodeRune r = [byte_of_N (0xC0 + r / 64); cont r])
  \/ (0x800 <= r < 0x10000 /\ EncodeRune r = [byte_of_N (0xE0 + r / 4096); cont (r / 64); cont r])
  \/ (0x10000 <= r <= 0x10FFFF
      /\ EncodeRune r = [byte_of_N (0xF0 + r / 262144); cont (r / 4096); cont (r / 64); cont r]).
Proof.
  intros [Hr Hs]. destruct (N.lt_ge_cases r 0x800); [left; split; [lia|apply EncodeRune_2; lia]|].
  destruct (N.lt_ge_cases r 0x10000); right; [left; split; [lia|apply EncodeRune_3; lia]|].
  right. split; [lia|]. apply EncodeRune_4; lia.
Qed.

Lemma byte_of_N_eq n x : n = Byte.to_N x -> byte_of_N n = x.
Proof. intros ->. apply byte_of_to_N. Qed.
Lemma to_N_small n : n < 256 -> Byte.to_N (byte_of_N n) = n.
Proof. intros Hn. rewrite to_N_byte_of_N. by apply N.mod_small. Qed.
Lemma to_N_cont n : Byte.to_N (cont n) = 0x80 + n mod 64.
Proof. apply to_N_small. pose proof (N.mod_upper_bound n 64). lia. Qed.
Lemma cont_bits_eq n : cont_bits n = n mod 64.
Proof. apply (land_low n 6). Qed.

Lemma lead_2 b : 0xC2 <= b < 0xE0 -> lead_info b = Some (2%nat, 0x80, 0xBF).
Proof.
  intros [H1 H2]. unfold lead_info. by rewrite (proj2 (N.ltb_ge b 0x80)),
    (proj2 (N.ltb_ge b 0xC2)), (proj2 (N.ltb_lt b 0xE0)) by lia.
Qed.
Lemma lead_3 b :
  0xE0 <= b < 0xF0 -> exists lo hi, lead_info b = Some (3%nat, lo, hi)
    /\ 0x80 <= lo /\ hi <= 0xBF
    /\ (forall c, lo <= c <= hi <-> 0x80 <= c <= 0xBF /\ (b = 0xE0 -> 0xA0 <= c) /\ (b = 0xED -> c <= 0x9F)).
Proof.
  intros [H1 H2]. unfold lead_info. rewrite (proj2 (N.ltb_ge b 0x80)),
    (proj2 (N.ltb_ge b 0xC2)), (proj2 (N.ltb_ge b 0xE0)) by lia.
  destruct (N.eqb_spec b 0xE0); [eexists _, _; split_and!; [done|lia|lia|intros c; lia]|].
  destruct (N.eqb_spec b 0xED); [eexists _, _; split_and!; [done|lia|lia|intros c; lia]|].
  rewrite (proj2 (N.ltb_lt b 0xF0)) by lia. eexists _, _; split_and!; [done|lia|lia|intros c; lia].
Qed.
Lemma lead_4 b :
  0xF0 <= b < 0xF5 -> exists lo hi, lead_info b = Some (4%nat, lo, hi)
    /\ 0x80 <= lo /\ hi <= 0xBF
    /\ (forall c, lo <= c <= hi <-> 0x80 <= c <= 0xBF /\ (b = 0xF0 -> 0x90 <= c) /\ (b = 0xF4 -> c <= 0x8F)).
Proof.
  intros [H1 H2]. unfold lead_info. rewrite (proj2 (N.ltb_ge b 0x80)),
    (proj2 (N.ltb_ge b 0xC2)), (proj2 (N.ltb_ge b 0xE0)) by lia.
  rewrite (proj2 (N.eqb_neq b 0xE0)), (proj2 (N.eqb_neq b 0xED)), (proj2 (N.ltb_ge b 0xF0)) by lia.
  destruct (N.eqb_spec b 0xF0); [eexists _, _; split_and!; [done|lia|lia|intros c; lia]|].
  destruct (N.ltb_spec b 0xF4); [eexists _, _; split_and!; [done|lia|lia|intros c; lia]|].
  rewrite (proj2 (N.eqb_eq b 0xF4)) by lia. eexists _, _; split_and!; [done|lia|lia|intros c; lia].
Qed.
Lemma in_range_true lo hi b : in_range lo hi b = true <-> lo <= b <= hi.
Proof. unfold in_range. rewrite andb_true_iff, !N.leb_le. done. Qed.

(** The value of a sequence of two, three or four bytes. *)
Lemma value_2 b0 b1 :
  N.lor (N.shiftl (N.land b0 0x1F) 6) (cont_bits b1) = b0 mod 32 * 64 + b1 mod 64.
Proof.
  rewrite cont_bits_eq. change 0x1F with (N.ones 5). rewrite land_low, lor_shiftl; [done|].
  by apply N.mod_upper_bound.
Qed.
Lemma value_low b1 b2 :
  N.lor (N.shiftl (cont_bits b1) 6) (cont_bits b2) = b1 mod 64 * 64 + b2 mod 64.
Proof. rewrite !cont_bits_eq, lor_shiftl; [done|]. by apply N.mod_upper_bound. Qed.
Lemma value_low_bound a b : a mod 64 * 64 + b mod 64 < 4096.
Proof. pose proof (N.mod_upper_bound a 64). pose proof (N.mod_upper_bound b 64). lia. Qed.
Lemma value_3 b0 b1 b2 :
  N.lor (N.shiftl (N.land b0 0x0F) 12) (N.lor (N.shiftl (cont_bits b1) 6) (cont_bits b2))
  = b0 mod 16 * 4096 + (b1 mod 64 * 64 + b2 mod 64).
Proof.
  rewrite value_low. change 0x0F with (N.ones 4). rewrite land_low, lor_shiftl; [done|].
  apply value_low_bound.
Qed.
Lemma value_4 b0 b1 b2 b3 :
  N.lor (N.shiftl (N.land b0 0x07) 18) (N.lor (N.shiftl (cont_bits b1) 12)
    (N.lor (N.shiftl (cont_bits b2) 6) (cont_bits b3)))
  = b0 mod 8 * 262144 + (b1 mod 64 * 4096 + (b2 mod 64 * 64 + b3 mod 64)).
Proof.
  rewrite value_low, cont_bits_eq. pose proof (value_low_bound b2 b3) as Hb.
  rewrite (lor_shiftl (b1 mod 64) _ 12) by exact Hb.
  change 0x07 with (N.ones 3). rewrite land_low, lor_shiftl; [done|].
  pose proof (N.mod_upper_bound b1 64 ltac:(done)). change (2 ^ 12) with 4096. change (2 ^ 18) with 262144. lia.
Qed.

Local Ltac Zify.zify_post_hook ::= Z.to_euclidean_division_equations.

Lemma decode_encode r rest :
  high_rune r -> DecodeRune (EncodeRune r ++ rest) = (r, length (EncodeRune r)).
Proof.
  intros Hr. destruct Hr as [Hr Hs].
  destruct (high_rune_cases r (conj Hr Hs)) as [[H1 ->]|[[H1 ->]|[H1 ->]]].
  - unfold DecodeRune. cbn [app fmap list_fmap length]. rewrite to_N_cont, to_N_small by lia.
    rewrite lead_2 by lia. rewrite (proj2 (in_range_true _ _ _)) by lia.
    rewrite value_2. f_equal. lia.
  - unfold DecodeRune. cbn [app fmap list_fmap length]. rewrite !to_N_cont, to_N_small by lia.
    destruct (lead_3 (0xE0 + r / 4096)) as (lo & hi & -> & _ & _ & Hc); [lia|].
    rewrite (proj2 (in_range_true lo hi _)) by (apply Hc; lia).
    rewrite (proj2 (in_range_true _ _ _)) by lia. cbn [andb]. rewrite value_3. f_equal. lia.
  - unfold DecodeRune. cbn [app fmap list_fmap length]. rewrite !to_N_cont, to_N_small by lia.
    destruct (lead_4 (0xF0 + r / 262144)) as (lo & hi & -> & _ & _ & Hc); [lia|].
    rewrite (proj2 (in_range_true lo hi _)) by (apply Hc; lia).
    rewrite !(proj2 (in_range_true _ _ _)) by lia. cbn [andb]. rewrite value_4. f_equal. lia.
Qed.

(** What DecodeRune finds at the head of a string. *)
Inductive rune_at : N -> bytes -> Prop :=
| rune_ascii b : Byte.to_N b < 0x80 -> rune_at (Byte.to_N b) [b]
| rune_high r : high_rune r -> rune_at r (EncodeRune r)
| rune_invalid b : rune_at RuneError [b].

Lemma encode_3 b0 b1 b2 r :
  0xE0 <= Byte.to_N b0 < 0xF0 -> 0x80 <= Byte.to_N b1 <= 0xBF -> 0x80 <= Byte.to_N b2 <= 0xBF ->
  (Byte.to_N b0 = 0xE0 -> 0xA0 <= Byte.to_N b1) -> (Byte.to_N b0 = 0xED -> Byte.to_N b1 <= 0x9F) ->
  r = Byte.to_N b0 mod 16 * 4096 + (Byte.to_N b1 mod 64 * 64 + Byte.to_N b2 mod 64) ->
  high_rune r /\ EncodeRune r = [b0; b1; b2].
Proof.
  intros. assert (0x800 <= r < 0x10000) by lia. assert (~ (0xD800 <= r <= 0xDFFF)) by lia.
  split; [unfold high_rune; lia|]. rewrite EncodeRune_3 by lia. unfold cont.
  f_equal; [apply byte_of_N_eq; lia|]. f_equal; [apply byte_of_N_eq; lia|].
  f_equal. apply byte_of_N_eq; lia.
Qed.
Lemma encode_4 b0 b1 b2 b3 r :
  0xF0 <= Byte.to_N b0 < 0xF5 -> 0x80 <= Byte.to_N b1 <= 0xBF -> 0x80 <= Byte.to_N b2 <= 0xBF ->
  0x80 <= Byte.to_N b3 <= 0xBF ->
  (Byte.to_N b0 = 0xF0 -> 0x90 <= Byte.to_N b1) -> (Byte.to_N b0 = 0xF4 -> Byte.to_N b1 <= 0x8F) ->
  r = Byte.to_N b0 mod 8 * 262144 + (Byte.to_N b1 mod 64 * 4096
        + (Byte.to_N b2 mod 64 * 64 + Byte.to_N b3 mod 64)) ->
  high_rune r /\ EncodeRune r = [b0; b1; b2; b3].
Proof.
  intros. assert (0x10000 <= r <= 0x10FFFF) by lia.
  split; [unfold high_rune; lia|]. rewrite EncodeRune_4 by lia. unfold cont.
  f_equal; [apply byte_of_N_eq; lia|]. f_equal; [apply byte_of_N_eq; lia|].
  f_equal; [apply byte_of_N_eq; lia|]. f_equal. apply byte_of_N_eq; lia.
Qed.

Lemma lead_1 b : b < 0x80 -> lead_info b = Some (1%nat, 0x80, 0xBF).
Proof. intros Hb. unfold lead_info. by rewrite (proj2 (N.ltb_lt _ _) Hb). Qed.
Lemma lead_none b : 0x80 <= b < 0xC2 \/ 0xF5 <= b -> lead_info b = None.
Proof.
  intros Hb. unfold lead_info. rewrite (proj2 (N.ltb_ge b 0x80)) by lia.
  destruct (N.ltb_spec b 0xC2); [done|].
  by rewrite (proj2 (N.ltb_ge b 0xE0)), (proj2 (N.eqb_neq b 0xE0)), (proj2 (N.eqb_neq b 0xED)),
    (proj2 (N.ltb_ge b 0xF0)), (proj2 (N.eqb_neq b 0xF0)), (proj2 (N.ltb_ge b 0xF4)),
    (proj2 (N.eqb_neq b 0xF4)) by lia.
Qed.
Lemma decode_spec x rest r w :
  DecodeRune (x :: rest) = (r, w) -> rune_at r (take w (x :: rest)).
Proof.
  unfold DecodeRune. pose proof (to_N_bound x) as Hx.
  destruct (N.lt_ge_cases (Byte.to_N x) 0x80) as [H1|H1].
  { rewrite lead_1 by done. intros [= <- <-]. simpl. rewrite take_0. by apply rune_ascii. }
  destruct (N.lt_ge_cases (Byte.to_N x) 0xC2) as [H2|H2].
  { rewrite lead_none by lia. intros [= <- <-]. simpl. rewrite take_0. apply rune_invalid. }
  assert (forall w, (RuneError, 1%nat) = (r, w) -> rune_at r (take w (x :: rest))) as Hinv.
  { intros w' [= <- <-]. simpl. rewrite take_0. apply rune_invalid. }
  destruct (N.lt_ge_cases (Byte.to_N x) 0xE0) as [H3|H3].
  { rewrite lead_2 by lia. destruct rest as [|b1 rest]; cbn [fmap list_fmap]; [apply Hinv|].
    destruct (in_range 0x80 0xBF (Byte.to_N b1)) eqn:E; [|apply Hinv].
    apply in_range_true in E. rewrite value_2. intros [= <- <-]. cbn [firstn]; rewrite ?take_0.
    set (r := _ * 64 + _). assert (high_rune r /\ EncodeRune r = [x; b1]) as [Hr <-].
    { assert (0x80 <= r < 0x800) by lia. split; [unfold high_rune; lia|].
      rewrite EncodeRune_2 by lia. unfold cont.
      f_equal; [apply byte_of_N_eq; lia|]. f_equal. apply byte_of_N_eq; lia. }
    by apply rune_high. }
  destruct (N.lt_ge_cases (Byte.to_N x) 0xF0) as [H4|H4].
  { destruct (lead_3 (Byte.to_N x)) as (lo & hi & -> & _ & _ & Hc); [lia|].
    destruct rest as [|b1 [|b2 rest]]; cbn [fmap list_fmap]; [apply Hinv..|].
    destruct (in_range lo hi _ && _) eqn:E; [|apply Hinv].
    apply andb_true_iff in E as [E1%in_range_true%Hc E2%in_range_true].
    rewrite value_3. intros [= Hr <-]. cbn [firstn]; rewrite ?take_0.
    destruct (encode_3 x b1 b2 r) as [Hh <-]; [lia..|]. by apply rune_high. }
  destruct (N.lt_ge_cases (Byte.to_N x) 0xF5) as [H5|H5].
  { destruct (lead_4 (Byte.to_N x)) as (lo & hi & -> & _ & _ & Hc); [lia|].
    destruct rest as [|b1 [|b2 [|b3 rest]]]; cbn [fmap list_fmap]; [apply Hinv..|].
    destruct (in_range lo hi _ && _ && _) eqn:E; [|apply Hinv].
    apply andb_true_iff in E as [[E1%in_range_true%Hc E2%in_range_true]%andb_true_iff E3%in_range_true].
    rewrite value_4. intros [= Hr <-]. cbn [firstn]; rewrite ?take_0.
    destruct (encode_4 x b1 b2 b3 r) as [Hh <-]; [lia..|]. by apply rune_high. }
  rewrite lead_none by lia. apply Hinv.
Qed.

Lemma runes_at s : Forall (fun rb => rune_at rb.1 rb.2) (runes s).
Proof.
  unfold runes. generalize (length s) as fuel. intros fuel. revert s.
  induction fuel as [|fuel IH]; intros [|x rest]; cbn [runes_fuel]; [done..|].
  destruct (DecodeRune (x :: rest)) as [r w] eqn:E. constructor; [|apply IH].
  by apply decode_spec.
Qed.

(** ** Quoted strings *)

(** What stands for a rune inside quotes. *)
Inductive piece : N -> bytes -> Prop :=
| piece_plain b : 0x20 <= Byte.to_N b < 0x80 -> b <> Byte.x22 -> b <> Byte.x5c -> piece (Byte.to_N b) [b]
| piece_escape e : bool_decide (e ∈ escapes) = true -> piece (Byte.to_N (simple_escape e)) [Byte.x5c; e]
| piece_hex r : r < 0x10000 -> ~ (0xD800 <= r <= 0xDFFF) -> piece r (hex4 r)
| piece_high r : high_rune r -> piece r (EncodeRune r).

Lemma to_N_const b n : Byte.to_N b = n -> b = byte_of_N n.
Proof. intros <-. by rewrite byte_of_to_N. Qed.
Lemma quote_ascii b : Byte.to_N b < 0x80 -> piece (Byte.to_N b) (quote_rune (Byte.to_N b, [b])).
Proof.
  intros Hb. unfold quote_rune. unfold RuneSelf. rewrite (proj2 (N.ltb_lt _ _) Hb).
  destruct ((Byte.to_N b =? 0x22) || (Byte.to_N b =? 0x5C)) eqn:E1.
  { apply orb_true_iff in E1 as [E1%N.eqb_eq%to_N_const|E1%N.eqb_eq%to_N_const]; subst b;
      [exact (piece_escape Byte.x22 eq_refl)|exact (piece_escape Byte.x5c eq_refl)]. }
  apply orb_false_iff in E1 as [N1%N.eqb_neq N2%N.eqb_neq].
  destruct (N.eqb_spec (Byte.to_N b) 0x08) as [->|]; [exact (piece_escape Byte.x62 eq_refl)|].
  destruct (N.eqb_spec (Byte.to_N b) 0x0C) as [->|]; [exact (piece_escape Byte.x66 eq_refl)|].
  destruct (N.eqb_spec (Byte.to_N b) 0x0A) as [->|]; [exact (piece_escape Byte.x6e eq_refl)|].
  destruct (N.eqb_spec (Byte.to_N b) 0x0D) as [->|]; [exact (piece_escape Byte.x72 eq_refl)|].
  destruct (N.eqb_spec (Byte.to_N b) 0x09) as [->|]; [exact (piece_escape Byte.x74 eq_refl)|].
  destruct (_ || _ || _ || _) eqn:E; [apply piece_hex; lia|].
  rewrite !orb_false_iff, N.ltb_ge in E. destruct E as [[[E _] _] _].
  apply piece_plain; [lia|intros ->; by apply N1|intros ->; by apply N2].
Qed.
Lemma quote_piece r raw : rune_at r raw -> piece r (quote_rune (r, raw)).
Proof.
  intros [b Hb|r' Hr|b].
  - by apply quote_ascii.
  - unfold quote_rune. destruct Hr as [Hr Hs]. unfold RuneSelf.
    rewrite (proj2 (N.ltb_ge _ _)) by lia.
    destruct (_ && _) eqn:E1.
    + apply andb_true_iff in E1 as [E1%N.eqb_eq _]. rewrite E1. apply piece_hex; unfold RuneError; lia.
    + destruct (_ || _) eqn:E2; [|by apply piece_high].
      apply orb_true_iff in E2 as [E2%N.eqb_eq|E2%N.eqb_eq]; rewrite E2; apply piece_hex; unfold RuneError; lia.
  - apply (piece_hex RuneError); unfold RuneError; lia.
Qed.

Lemma byte_eqb_neq (a b : byte) : a <> b -> Byte.eqb a b = false.
Proof. intros Hn. destruct (Byte.eqb a b) eqn:E; [|done]. by apply Byte.byte_dec_bl in E. Qed.
Lemma high_bytes r : high_rune r -> Forall (fun b => 0x80 <= Byte.to_N b) (EncodeRune r).
Proof.
  intros Hr. destruct (high_rune_cases r Hr) as [[H1 ->]|[[H1 ->]|[H1 ->]]];
    repeat constructor; rewrite ?to_N_cont, ?to_N_small; lia.
Qed.
Lemma hex_value_digit n : n < 16 -> Json.hex_value (hex_digit n) = Some n.
Proof.
  intros Hn. unfold Json.hex_value, hex_digit.
  destruct (N.ltb_spec n 10); rewrite to_N_small by lia.
  - rewrite (proj2 (in_range_true _ _ _)) by lia. f_equal. lia.
  - destruct (in_range 48 57 (n + 87)) eqn:E; [apply in_range_true in E; lia|].
    rewrite (proj2 (in_range_true _ _ _)) by lia. f_equal. lia.
Qed.
Lemma hex4_digits r :
  r < 0x10000 -> exists a b c d, a < 16 /\ b < 16 /\ c < 16 /\ d < 16
    /\ hex4 r = [Byte.x5c; Byte.x75; hex_digit a; hex_digit b; hex_digit c; hex_digit d]
    /\ ((a * 16 + b) * 16 + c) * 16 + d = r.
Proof.
  intros Hr. unfold hex4. change 15 with (N.ones 4). rewrite !land_low, !N.shiftr_div_pow2.
  change (2 ^ 4) with 16. change (2 ^ 8) with 256. change (2 ^ 12) with 4096.
  exists (r / 4096), (r / 256 mod 16), (r / 16 mod 16), (r mod 16).
  split_and!; [lia..|done|lia].
Qed.
Lemma escape_ascii e :
  bool_decide (e ∈ escapes) = true -> e <> Byte.x75 /\ Byte.to_N (simple_escape e) < 0x80.
Proof.
  intros He%bool_decide_eq_true. unfold escapes in He. rewrite !elem_of_cons, elem_of_nil in He.
  by destruct_or? He; subst.
Qed.

(** Scanning and unquoting take a quoted string apart at its pieces. *)
Lemma scan_high bs rest :
  Forall (fun b => 0x80 <= Byte.to_N b) bs ->
  scan_string InString (bs ++ rest)
  = '(s, r') ← scan_string InString rest; Some (bs ++ s, r').
Proof.
  induction 1 as [|b bs Hb _ IH]; [cbn [app]; by destruct (scan_string InString rest) as [[]|]|].
  cbn [app scan_string]. rewrite !byte_eqb_neq by (by intros ->).
  rewrite (proj2 (N.ltb_ge _ _)) by lia. rewrite IH.
  by destruct (scan_string InString rest) as [[]|].
Qed.
Lemma scan_piece r q rest :
  piece r q -> scan_string InString (q ++ rest)
  = '(s, r') ← scan_string InString rest; Some (q ++ s, r').
Proof.
  intros [b Hb H1 H2|e He|r' Hr Hs|r' Hr].
  - cbn [app scan_string]. rewrite !byte_eqb_neq by done. by rewrite (proj2 (N.ltb_ge _ _)) by lia.
  - destruct (escape_ascii e He) as [Hu _]. cbn [app scan_string]. simpl Byte.eqb.
    rewrite (byte_eqb_neq e) by done. rewrite He. simpl.
    by destruct (scan_string InString rest) as [[]|].
  - destruct (hex4_digits r' Hr) as (a & b & c & d & Ha & Hb & Hc & Hd & -> & _).
    cbn [app scan_string]. rewrite !hex_value_digit by done. simpl.
    by destruct (scan_string InString rest) as [[]|].
  - apply scan_high, high_bytes, Hr.
Qed.

Lemma unquote_more fuel bs : (length bs <= fuel)%nat -> unquote_fuel fuel bs = unquote bs.
Proof. intros Hf. unfold unquote. symmetry. by apply unquote_fuel_enough. Qed.
Ltac one_round :=
  unfold unquote at 1; cbn [length];
  match goal with |- unquote_fuel (S ?k) _ = _ => remember k as n eqn:Hn end;
  cbn [unquote_fuel].
Lemma unquote_plain b bs :
  b <> Byte.x5c -> unquote (b :: bs)
  = EncodeRune (DecodeRune (b :: bs)).1 ++ unquote (drop (DecodeRune (b :: bs)).2 (b :: bs)).
Proof.
  intros Hb. one_round.
  rewrite (byte_eqb_neq b) by done. pose proof (DecodeRune_width (b :: bs) ltac:(done)) as Hw.
  destruct (DecodeRune (b :: bs)) as [r w]. cbn [fst snd] in *.
  by rewrite unquote_more by (rewrite length_drop; cbn [length] in *; lia).
Qed.
Lemma unquote_escape e bs : e <> Byte.x75 -> unquote (Byte.x5c :: e :: bs) = simple_escape e :: unquote bs.
Proof.
  intros He. one_round.
  simpl Byte.eqb. cbn [eat]. rewrite (byte_eqb_neq e) by done. cbv iota.
  by rewrite unquote_more by (cbn [length] in *; lia).
Qed.
Lemma unquote_hex r bs :
  getu4 bs = Some r -> ~ (0xD800 <= r <= 0xDFFF) -> unquote bs = EncodeRune r ++ unquote (drop 6 bs).
Proof.
  intros Hg Hs. destruct bs as [|b [|u bs]]; [done..|]. one_round.
  assert (b = Byte.x5c /\ u = Byte.x75) as [-> ->].
  { unfold getu4 in Hg. destruct bs as [|? [|? [|? [|? ?]]]]; [done..|].
    destruct (Byte.eqb b Byte.x5c) eqn:E1, (Byte.eqb u Byte.x75) eqn:E2; try done.
    split; by apply Byte.byte_dec_bl. }
  simpl Byte.eqb. cbn [eat]. simpl Byte.eqb. cbv iota. rewrite Hg.
  destruct (in_range 0xD800 0xDFFF r) eqn:E; [by apply in_range_true in E|].
  by rewrite unquote_more by (rewrite length_drop; cbn [length] in *; lia).
Qed.
Lemma unquote_piece r q rest : piece r q -> unquote (q ++ rest) = EncodeRune r ++ unquote rest.
Proof.
  intros [b Hb H1 H2|e He|r' Hr Hs|r' Hr].
  - cbn [app]. rewrite unquote_plain by done. unfold DecodeRune. by rewrite lead_1 by lia.
  - destruct (escape_ascii e He) as [Hu Ha]. cbn [app]. rewrite unquote_escape by done.
    by rewrite (EncodeRune_1 _ Ha), byte_of_to_N.
  - destruct (hex4_digits r' Hr) as (a & b & c & d & Ha & Hb & Hc & Hd & -> & Hv).
    cbn [app]. rewrite (unquote_hex r'); [done| |done].
    cbn [getu4]. rewrite !hex_value_digit by done. simpl. by rewrite Hv.
  - pose proof (decode_encode r' rest Hr) as Hd. pose proof (high_bytes r' Hr) as Hb.
    destruct (EncodeRune r') as [|b bs] eqn:E.
    { destruct (high_rune_cases r' Hr) as [[_ E']|[[_ E']|[_ E']]]; by rewrite E' in E. }
    cbn [app] in *. rewrite unquote_plain by (intros ->; by inversion Hb).
    rewrite Hd. cbn [fst snd]. rewrite E.
    exact (f_equal (fun x => (b :: bs) ++ unquote x) (drop_app_length (b :: bs) rest)).
Qed.

(** The string with every invalid byte replaced by U+FFFD. *)
Definition to_valid (s : bytes) : bytes := concat ((fun rb => EncodeRune rb.1) <$> runes s).
Definition escape (s : bytes) : bytes := concat (quote_rune <$> runes s).

Lemma pieces_scan rs rest :
  Forall (fun rb => rune_at rb.1 rb.2) rs ->
  scan_string InString (concat (quote_rune <$> rs) ++ Byte.x22 :: rest)
  = Some (concat (quote_rune <$> rs), rest).
Proof.
  induction 1 as [|[r raw] rs Hr _ IH]; [done|]. rewrite fmap_cons. cbn [concat].
  rewrite <- (assoc_L (++)), (scan_piece r) by (by apply quote_piece). by rewrite IH.
Qed.
Lemma pieces_unquote rs :
  Forall (fun rb => rune_at rb.1 rb.2) rs ->
  unquote (concat (quote_rune <$> rs)) = concat ((fun rb => EncodeRune rb.1) <$> rs).
Proof.
  induction 1 as [|[r raw] rs Hr _ IH]; [done|]. rewrite !fmap_cons. cbn [concat].
  rewrite (unquote_piece r) by (by apply quote_piece). by rewrite IH.
Qed.

(** A quoted string is scanned to its end and read back. *)
Lemma quote_read s rest :
  exists raw, scan_string InString (escape s ++ Byte.x22 :: rest) = Some (raw, rest)
    /\ unquote raw = to_valid s.
Proof.
  exists (escape s). split; [apply pieces_scan, runes_at|apply pieces_unquote, runes_at].
Qed.

(** ** Numbers *)

(** What follows a value inside a document that Marshal has written. *)
Definition stops (rest : bytes) : Prop :=
  match rest with [] => True | b :: _ => b ∈ [Byte.x2c; Byte.x5d; Byte.x7d] end.
(** A number literal: the scanner takes all of it. *)
Definition literal (lit : bytes) : Prop := scan_number lit = Some (lit, []).

Lemma eat_app b bs rest :
  stops rest -> b ∉ [Byte.x2c; Byte.x5d; Byte.x7d] ->
  eat b (bs ++ rest) = (fun r => r ++ rest) <$> eat b bs.
Proof.
  intros Hs Hb. destruct bs as [|b' bs]; cbn [app eat]; [|by destruct (Byte.eqb b' b)].
  destruct rest as [|b' rest]; [done|]. cbn [eat]. rewrite byte_eqb_neq; [done|].
  intros ->. done.
Qed.
Lemma eat_first_app cs bs rest :
  stops rest -> Forall (fun b => b ∉ [Byte.x2c; Byte.x5d; Byte.x7d]) cs ->
  eat_first cs (bs ++ rest) = (fun br => (br.1, br.2 ++ rest)) <$> eat_first cs bs.
Proof.
  intros Hs Hc. destruct bs as [|b' bs]; cbn [app eat_first]; [|by case_bool_decide].
  destruct rest as [|b' rest]; [done|]. cbn [eat_first]. rewrite bool_decide_false; [done|].
  intros Hin. by apply (proj1 (Forall_forall _ _) Hc) in Hin.
Qed.
Lemma stops_digit b rest : stops (b :: rest) -> is_digit b = false.
Proof. intros Hs. cbn [stops] in Hs. set_unfold. naive_solver. Qed.
Lemma span_digits_app bs rest :
  stops rest -> span_digits (bs ++ rest) = ((span_digits bs).1, (span_digits bs).2 ++ rest).
Proof.
  intros Hs. induction bs as [|b bs IH]; cbn [app span_digits].
  - destruct rest as [|b rest]; [done|]. cbn [span_digits]. by rewrite (stops_digit b rest).
  - destruct (is_digit b); [|done]. rewrite IH. by destruct (span_digits bs).
Qed.

Ltac not_stop := rewrite ?Forall_cons, ?Forall_nil; set_unfold; naive_solver.
Lemma scan_int_app bs rest i r :
  stops rest -> scan_int bs = Some (i, r) -> scan_int (bs ++ rest) = Some (i, r ++ rest).
Proof.
  intros Hs. unfold scan_int. rewrite (eat_app Byte.x2d) by (done || not_stop).
  destruct (eat Byte.x2d bs) as [bs'|]; cbn [fmap option_fmap option_map];
    (rewrite (eat_app Byte.x30) by (done || not_stop);
     destruct (eat Byte.x30 _) as [bs''|]; cbn [fmap option_fmap option_map]; [by intros [= <- <-]|]);
    rewrite (span_digits_app _ rest) by done; destruct (span_digits _) as [d r']; cbn [fst snd];
    case_bool_decide; try done; by intros [= <- <-].
Qed.
Lemma scan_frac_app bs rest i r :
  stops rest -> scan_frac bs = Some (i, r) -> scan_frac (bs ++ rest) = Some (i, r ++ rest).
Proof.
  intros Hs. unfold scan_frac. rewrite (eat_app Byte.x2e) by (done || not_stop).
  destruct (eat Byte.x2e bs) as [bs'|]; cbn [fmap option_fmap option_map]; [|by intros [= <- <-]].
  rewrite (span_digits_app _ rest) by done. destruct (span_digits _) as [d r']. cbn [fst snd].
  case_bool_decide; try done. by intros [= <- <-].
Qed.
Lemma scan_exp_app bs rest i r :
  stops rest -> scan_exp bs = Some (i, r) -> scan_exp (bs ++ rest) = Some (i, r ++ rest).
Proof.
  intros Hs. unfold scan_exp. rewrite (eat_first_app [Byte.x65; Byte.x45]) by (done || not_stop).
  destruct (eat_first [Byte.x65; Byte.x45] bs) as [[e bs']|]; cbn [fmap option_fmap option_map fst snd];
    [|by intros [= <- <-]].
  rewrite (eat_first_app [Byte.x2b; Byte.x2d]) by (done || not_stop).
  destruct (eat_first [Byte.x2b; Byte.x2d] bs') as [[c bs'']|]; cbn [fmap option_fmap option_map fst snd];
    (rewrite (span_digits_app _ rest) by done; destruct (span_digits _) as [d r']; cbn [fst snd];
     case_bool_decide; try done; by intros [= <- <-]).
Qed.
Lemma scan_number_app lit rest :
  literal lit -> stops rest -> scan_number (lit ++ rest) = Some (lit, rest).
Proof.
  unfold literal, scan_number. intros Hl Hs.
  apply bind_Some in Hl as ([i r1] & E1 & Hl). apply bind_Some in Hl as ([f r2] & E2 & Hl).
  apply bind_Some in Hl as ([e r3] & E3 & [= Hl ->]).
  rewrite (scan_int_app _ _ _ _ Hs E1). cbn [mbind option_bind].
  rewrite (scan_frac_app _ _ _ _ Hs E2). cbn [mbind option_bind].
  rewrite (scan_exp_app _ _ _ _ Hs E3). cbn [mbind option_bind]. by rewrite Hl.
Qed.

Lemma pretty_digit n : n < 10 -> is_digit (Ascii.byte_of_ascii (pretty_N_char n)) = true
  /\ (n <> 0 -> Ascii.byte_of_ascii (pretty_N_char n) <> Byte.x30).
Proof.
  intros Hn. assert (n ∈ [0; 1; 2; 3; 4; 5; 6; 7; 8; 9]) as Hin by (set_unfold; lia).
  clear Hn. repeat (apply elem_of_cons in Hin as [->|Hin]; [by split|]).
  by apply elem_of_nil in Hin.
Qed.
Lemma bytes_of_String c s : bytes_of_string (String c s) = Ascii.byte_of_ascii c :: bytes_of_string s.
Proof. done. Qed.
Lemma pretty_go_digits n s :
  0 < n -> Forall (fun b => is_digit b = true) (bytes_of_string s) ->
  exists d ds, bytes_of_string (pretty_N_go n s) = d :: ds /\ d <> Byte.x30
    /\ Forall (fun b => is_digit b = true) (d :: ds).
Proof.
  revert s. induction (N.lt_wf_0 n) as [n _ IH]. intros s Hn Hs.
  rewrite pretty_N_go_step by done.
  destruct (pretty_digit (n mod 10)) as [Hd Hz]; [by apply N.mod_upper_bound|].
  destruct (N.eq_dec (n / 10) 0) as [E|E].
  - rewrite E, pretty_N_go_0, bytes_of_String. eexists _, _. split_and!; [done| |by constructor].
    apply Hz. intros E'. pose proof (N.div_mod n 10 ltac:(done)). lia.
  - apply IH; [by apply N.div_lt|lia|]. rewrite bytes_of_String. by constructor.
Qed.
Lemma span_all ds :
  Forall (fun b => is_digit b = true) ds -> span_digits ds = (ds, []).
Proof. induction 1 as [|d ds Hd _ IH]; [done|]. cbn [span_digits]. by rewrite Hd, IH. Qed.
Lemma literal_number (n : N) : literal (bytes_of_string (pretty n)).
Proof.
  unfold pretty, pretty_N. destruct (decide (n = 0)) as [->|Hn]; [done|].
  destruct (pretty_go_digits n "" ltac:(lia) (Forall_nil_2 _)) as (d & ds & -> & Hz & Hd).
  unfold literal, scan_number, scan_int. cbn [eat].
  rewrite byte_eqb_neq by (intros ->; by inversion Hd). cbn [eat]. rewrite byte_eqb_neq by done.
  rewrite span_all by done. cbn. by rewrite !(right_id_L [] (++)).
Qed.

(** ** Documents *)

(** Induction that reaches the elements of an array and the members of an
    object. *)
Section JsonInd.
  Variable P : json -> Prop.
  Hypothesis (HNull : P JNull) (HBool : forall b, P (JBool b)) (HNumber : forall l, P (JNumber l))
    (HString : forall s, P (JString s)) (HArray : forall vs, Forall P vs -> P (JArray vs))
    (HObject : forall ms, Forall (fun m => P m.2) ms -> P (JObject ms)).
Fixpoint json_nested_ind (v : json) : P v :=
    match v with
    | JNull => HNull
    | JBool b => HBool b
    | JNumber l => HNumber l
    | JString s => HString s
    | JArray vs =>
        HArray vs ((fix go vs : Forall P vs := match vs with
                                 | [] => Forall_nil_2 _
                                 | v :: vs => Forall_cons_2 _ _ _ (json_nested_ind v) (go vs)
                                 end) vs)
    | JObject ms =>
        HObject ms ((fix go ms : Forall (fun m => P m.2) ms := match ms with
                                  | [] => Forall_nil_2 _
                                  | m :: ms => Forall_cons_2 _ _ _ (json_nested_ind m.2) (go ms)
                                  end) ms)
    end.
End JsonInd.

Definition max_list_N (l : list N) : N := foldr N.max 0 l.
(** The number of brackets open at once. *)
Fixpoint nesting (v : json) : N :=
  match v with
  | JArray vs => 1 + max_list_N (map nesting vs)
  | JObject ms => 1 + max_list_N (map (fun m => nesting m.2) ms)
  | _ => 0
  end.
(** The document with the invalid bytes of its strings replaced. *)
Fixpoint sanitize (v : json) : json :=
  match v with
  | JString s => JString (to_valid s)
  | JArray vs => JArray (map sanitize vs)
  | JObject ms => JObject (map (fun m => (to_valid m.1, sanitize m.2)) ms)
  | _ => v
  end.

(** Where a value begins. *)
Definition begins (bs : bytes) : Prop :=
  match bs with
  | [] => False
  | b :: _ => is_ws b = false /\ b ∉ [Byte.x2c; Byte.x5d; Byte.x7d]
  end.
Lemma literal_begins lit :
  literal lit -> exists b bs, lit = b :: bs /\ (b = Byte.x2d \/ is_digit b = true).
Proof.
  unfold literal, scan_number. intros Hl. apply bind_Some in Hl as ([i r1] & E1 & _).
  destruct lit as [|b bs]; [done|]. exists b, bs. split; [done|]. unfold scan_int in E1. cbn [eat] in E1.
  destruct (Byte.eqb b Byte.x2d) eqn:E; [left; by apply Byte.byte_dec_bl|right]. cbn [eat] in E1.
  destruct (Byte.eqb b Byte.x30) eqn:E'; [by apply Byte.byte_dec_bl in E' as ->|].
  cbn [span_digits] in E1. by destruct (is_digit b).
Qed.
Lemma number_start b :
  b = Byte.x2d \/ is_digit b = true -> b ∈ tag_bytes "-0123456789".
Proof.
  intros [->|Hd]; [by refine (bool_decide_unpack _ _)|]. unfold is_digit in Hd.
  apply in_range_true in Hd. rewrite <- (byte_of_to_N b).
  assert (Byte.to_N b ∈ [48; 49; 50; 51; 52; 53; 54; 55; 56; 57]) as Hin by (set_unfold; lia).
  clear Hd. repeat (apply elem_of_cons in Hin as [->|Hin]; [by refine (bool_decide_unpack _ _)|]).
  by apply elem_of_nil in Hin.
Qed.
Lemma literal_head lit : literal lit -> exists b bs, lit = b :: bs /\ b ∈ tag_bytes "-0123456789".
Proof. intros (b & bs & -> & Hb)%literal_begins. eauto using number_start. Qed.

(** On a value's first byte the decoder neither skips white space nor closes. *)
Lemma Marshal_begins v rest : Forall literal (numbers v) -> begins (Marshal v ++ rest).
Proof.
  destruct v as [|[]|lit|s|vs|ms]; intros Hn; try by (cbn; split; [done|set_solver]).
  apply (Forall_singleton literal) in Hn. destruct (literal_head lit Hn) as (b & bs & -> & Hb).
  cbn [Marshal app begins]. clear Hn. cbv in Hb.
  repeat (apply elem_of_cons in Hb as [->|Hb]; [by split; [done|set_solver]|]).
  by apply elem_of_nil in Hb.
Qed.
Lemma begins_skip bs : begins bs -> skip_ws bs = bs.
Proof. destruct bs as [|b bs]; [done|]. intros [Hw _]. cbn [skip_ws]. by rewrite Hw. Qed.
Lemma begins_eat b bs : begins bs -> b ∈ [Byte.x2c; Byte.x5d; Byte.x7d] -> eat b bs = None.
Proof.
  destruct bs as [|b' bs]; [done|]. intros [_ Hb'] Hb. cbn [eat].
  by rewrite byte_eqb_neq by (intros ->; done).
Qed.

(** The scalars. *)
Lemma scalar_read lit rest :
  literal lit -> stops rest -> forall fuel depth,
  p_value (S fuel) depth (lit ++ rest) = Some (JNumber lit, rest).
Proof.
  intros Hl Hs fuel depth. destruct (literal_head lit Hl) as (b & bs & -> & Hb).
  pose proof (scan_number_app _ _ Hl Hs) as Hn. clear Hl Hs. cbn [app p_value] in *.
  cbv in Hb.
  repeat (apply elem_of_cons in Hb as [->|Hb];
    [cbn [skip_ws]; match goal with |- context [is_ws ?c] => change (is_ws c) with false end;
     cbn; unfold scan_scalar; rewrite Hn; done|]).
  by apply elem_of_nil in Hb.
Qed.

(** What the decoder makes of a text that starts with a written value, from
    some amount of fuel on. *)
Definition decodes {A} (p : nat -> option (A * bytes)) (v : A) (rest : bytes) : Prop :=
  exists n, forall fuel, (n <= fuel)%nat -> p fuel = Some (v, rest).

Definition value_read (v : json) : Prop :=
  forall depth rest, Forall literal (numbers v) -> stops rest ->
  depth + nesting v <= maxNestingDepth ->
  decodes (fun fuel => p_value fuel depth (Marshal v ++ rest)) (sanitize v) rest.

#[export] Instance decodes_proper {A} :
  Proper (pointwise_relation nat (=) ==> (=) ==> (=) ==> iff) (@decodes A).
Proof.
  intros p q Hpq v ? <- rest ? <-. unfold decodes. by setoid_rewrite Hpq.
Qed.
Lemma decodes_S {A} (p : nat -> option (A * bytes)) v rest :
  decodes (fun fuel => p (S fuel)) v rest -> decodes p v rest.
Proof.
  intros [n Hn]. exists (S n). intros [|fuel] Hf; [lia|]. apply Hn. lia.
Qed.
Lemma decodes_bind {A B} (p : nat -> option (A * bytes)) a r
    (f : nat -> A -> bytes -> option (B * bytes)) b rest :
  decodes p a r -> decodes (fun fuel => f fuel a r) b rest ->
  decodes (fun fuel => '(x, r) ← p fuel; f fuel x r) b rest.
Proof.
  intros [n Hn] [m Hm]. exists (n `max` m)%nat. intros fuel Hf.
  rewrite Hn by lia. apply Hm. lia.
Qed.
Lemma decodes_ret {A} (v : A) rest : decodes (fun _ => Some (v, rest)) v rest.
Proof. by exists O. Qed.

Lemma p_string fuel depth s rest :
  p_value (S fuel) depth (quote s ++ rest) = Some (JString (to_valid s), rest).
Proof.
  destruct (quote_read s rest) as (raw & Hs & Hu). unfold quote. fold (escape s).
  cbn [app p_value skip_ws]. change (is_ws Byte.x22) with false. cbn.
  rewrite <- (assoc_L (++)). cbn [app]. rewrite Hs. cbn. by rewrite Hu.
Qed.

Lemma commas_cons x y l : commas (x :: y :: l) = x ++ Byte.x2c :: commas (y :: l).
Proof. done. Qed.
Lemma numbers_array v vs : numbers (JArray (v :: vs)) = numbers v ++ numbers (JArray vs).
Proof. done. Qed.
Lemma numbers_object m ms : numbers (JObject (m :: ms)) = numbers m.2 ++ numbers (JObject ms).
Proof. done. Qed.
Lemma max_list_N_cons n l : max_list_N (n :: l) = N.max n (max_list_N l).
Proof. done. Qed.

Lemma elements_read vs : Forall value_read vs -> vs <> [] ->
  forall depth rest, Forall literal (numbers (JArray vs)) ->
  depth + max_list_N (map nesting vs) <= maxNestingDepth ->
  decodes (fun fuel => p_elements fuel depth (commas (Marshal <$> vs) ++ Byte.x5d :: rest))
    (map sanitize vs) rest.
Proof.
  induction 1 as [|v vs Hv _ IH]; [done|]. intros _ depth rest Hl Hd.
  rewrite numbers_array in Hl. apply Forall_app in Hl as [Hl1 Hl2].
  cbn [map] in *. rewrite max_list_N_cons in Hd. apply decodes_S. cbn [p_elements].
  destruct vs as [|w vs].
  - eapply decodes_bind; [apply Hv; [done|set_solver|lia]|]. cbn. apply decodes_ret.
  - rewrite !fmap_cons, commas_cons, <- (assoc_L (++)). cbn [app].
    eapply decodes_bind; [apply Hv; [done|set_solver|lia]|]. cbn -[map].
    eapply decodes_bind; [|apply decodes_ret]. apply IH; [done|done|lia].
Qed.
Lemma member_read fuel depth k text :
  p_members (S fuel) depth (quote k ++ Byte.x3a :: text)
  = '(v, r) ← p_value fuel depth text;
    match eat Byte.x2c (skip_ws r) with
    | Some r => '(ms, r) ← p_members fuel depth r; Some ((to_valid k, v) :: ms, r)
    | None => r ← eat Byte.x7d (skip_ws r); Some ([(to_valid k, v)], r)
    end.
Proof.
  destruct (quote_read k (Byte.x3a :: text)) as (raw & Hs & Hu). unfold quote. fold (escape k).
  cbn [app p_members skip_ws]. change (is_ws Byte.x22) with false. cbn.
  rewrite <- (assoc_L (++)). cbn [app]. rewrite Hs. cbn. by rewrite Hu.
Qed.
Lemma members_read ms : Forall (fun m => value_read m.2) ms -> ms <> [] ->
  forall depth rest, Forall literal (numbers (JObject ms)) ->
  depth + max_list_N (map (fun m => nesting m.2) ms) <= maxNestingDepth ->
  decodes (fun fuel => p_members fuel depth
      (commas ((fun m => quote m.1 ++ Byte.x3a :: Marshal m.2) <$> ms) ++ Byte.x7d :: rest))
    (map (fun m => (to_valid m.1, sanitize m.2)) ms) rest.
Proof.
  induction 1 as [|m ms Hv _ IH]; [done|]. intros _ depth rest Hl Hd.
  rewrite numbers_object in Hl. apply Forall_app in Hl as [Hl1 Hl2].
  cbn [map] in *. rewrite max_list_N_cons in Hd. apply decodes_S.
  destruct ms as [|m' ms].
  - cbn [fmap list_fmap commas]. rewrite <- (assoc_L (++)). cbn [app]. setoid_rewrite member_read.
    eapply decodes_bind; [apply Hv; [done|set_solver|lia]|]. cbn. apply decodes_ret.
  - rewrite !fmap_cons, commas_cons, <- !(assoc_L (++)). cbn [app]. setoid_rewrite member_read.
    eapply decodes_bind; [apply Hv; [done|set_solver|lia]|]. cbn -[map].
    eapply decodes_bind; [|apply decodes_ret]. apply IH; [done|done|lia].
Qed.

Lemma p_array fuel depth text :
  depth < maxNestingDepth -> begins text ->
  p_value (S fuel) depth (Byte.x5b :: text)
  = '(es, r) ← p_elements fuel (depth + 1) text; Some (JArray es, r).
Proof.
  intros Hd Hb. cbn [p_value skip_ws]. change (is_ws Byte.x5b) with false. cbn.
  by rewrite (proj2 (N.leb_gt _ _) Hd), begins_skip, begins_eat by (done || set_solver).
Qed.
Lemma p_object fuel depth text :
  depth < maxNestingDepth -> begins text ->
  p_value (S fuel) depth (Byte.x7b :: text)
  = '(ms, r) ← p_members fuel (depth + 1) text; Some (JObject ms, r).
Proof.
  intros Hd Hb. cbn [p_value skip_ws]. change (is_ws Byte.x7b) with false. cbn.
  by rewrite (proj2 (N.leb_gt _ _) Hd), begins_skip, begins_eat by (done || set_solver).
Qed.
Lemma p_empty fuel depth rest :
  depth < maxNestingDepth ->
  p_value (S fuel) depth (Byte.x5b :: Byte.x5d :: rest) = Some (JArray [], rest)
  /\ p_value (S fuel) depth (Byte.x7b :: Byte.x7d :: rest) = Some (JObject [], rest).
Proof.
  intros Hd. cbn [p_value skip_ws]. cbn. by rewrite (proj2 (N.leb_gt _ _) Hd).
Qed.
Lemma commas_app x l rest : exists rest', commas (x :: l) ++ rest = x ++ rest'.
Proof.
  destruct l; [by eexists|]. rewrite commas_cons, <- (assoc_L (++)). by eexists.
Qed.
Lemma elements_begin v vs rest :
  Forall literal (numbers (JArray (v :: vs))) -> begins (commas (Marshal <$> v :: vs) ++ rest).
Proof.
  rewrite numbers_array, fmap_cons. intros [Hl _]%Forall_app.
  destruct (commas_app (Marshal v) (Marshal <$> vs) rest) as [rest' ->]. by apply Marshal_begins.
Qed.
Lemma members_begin m ms rest :
  begins (commas ((fun m => quote m.1 ++ Byte.x3a :: Marshal m.2) <$> m :: ms) ++ rest).
Proof.
  rewrite fmap_cons. match goal with |- begins (commas (?x :: ?l) ++ _) =>
    destruct (commas_app x l rest) as [rest' ->] end.
  cbn. split; [done|set_solver].
Qed.

Lemma every_value_read v : value_read v.
Proof.
  induction v as [|b|lit|s|vs Hvs|ms Hms] using json_nested_ind; intros depth rest Hl Hs Hd;
    apply decodes_S.
  - apply decodes_ret.
  - destruct b; apply decodes_ret.
  - exists O. intros fuel _. apply scalar_read; [by apply (Forall_singleton literal)|done].
  - exists O. intros fuel _. apply p_string.
  - cbn [Marshal app nesting sanitize] in *. rewrite <- (assoc_L (++)). cbn [app].
    destruct vs as [|v vs]; [exists O; intros fuel _; by apply p_empty; lia|].
    setoid_rewrite p_array; [|lia|by apply elements_begin].
    eapply decodes_bind; [|apply decodes_ret]. apply elements_read; [done|done|done|lia].
  - cbn [Marshal app nesting sanitize] in *. rewrite <- (assoc_L (++)). cbn [app].
    destruct ms as [|m ms]; [exists O; intros fuel _; by apply p_empty; lia|].
    setoid_rewrite p_object; [|lia|by apply members_begin].
    eapply decodes_bind; [|apply decodes_ret]. apply members_read; [done|done|done|lia].
Qed.

(** Decoding what json.Marshal has written gives the document back, with the
    bytes of its strings that are not UTF-8 replaced by U+FFFD: for every
    document whose number literals are numbers and whose brackets nest no
    deeper than the decoder allows. *)
Theorem parse_Marshal v :
  Forall literal (numbers v) -> nesting v <= maxNestingDepth ->
  parse (Marshal v) = Some (sanitize v).
Proof.
  intros Hl Hd. destruct (every_value_read v 0 [] Hl I Hd) as [n Hn].
  rewrite (parse_fuel _ (n `max` json_fuel (Marshal v))) by lia.
  rewrite (right_id_L [] (++)) in Hn. by rewrite Hn by lia.
Qed.

(** ** Documents that come back as they were *)

(** utf8.Valid *)
Definition utf8_Valid (s : bytes) : bool :=
  forallb (fun rb => negb ((rb.1 =? RuneError) && Nat.eqb (length rb.2) 1)) (runes s).

Lemma to_valid_id s : utf8_Valid s = true -> to_valid s = s.
Proof.
  unfold utf8_Valid, to_valid. intros Hv. rewrite <- (runes_concat s) at 2. f_equal.
  revert Hv. induction (runes_at s) as [|[r raw] l Hr _ IH]; [done|].
  cbn [forallb fst snd]. intros [Hv Hl]%andb_true_iff. rewrite !fmap_cons, (IH Hl). f_equal.
  cbn [fst snd] in *. destruct Hr as [b Hb|r' Hr|b]; [|done|done].
  by rewrite EncodeRune_1, byte_of_to_N by done.
Qed.
Lemma ascii_Valid s : Forall (fun b => Byte.to_N b < 0x80) s -> utf8_Valid s = true.
Proof.
  unfold utf8_Valid, runes. induction 1 as [|b s Hb _ IH]; [done|].
  cbn [length runes_fuel]. unfold DecodeRune. rewrite lead_1 by done. change (drop 1 (b :: s)) with s.
  cbn [forallb fst snd]. rewrite IH, andb_true_r. apply negb_true_iff, andb_false_iff. left.
  apply N.eqb_neq. unfold RuneError. lia.
Qed.

(** A document with proper numbers and UTF-8 strings whose brackets nest at
    most [n] deep. *)
Inductive clean : nat -> json -> Prop :=
| clean_null n : clean n JNull
| clean_bool n b : clean n (JBool b)
| clean_number n lit : literal lit -> clean n (JNumber lit)
| clean_string n s : utf8_Valid s = true -> clean n (JString s)
| clean_array n vs : Forall (clean n) vs -> clean (S n) (JArray vs)
| clean_object n ms :
    Forall (fun m => utf8_Valid m.1 = true /\ clean n m.2) ms -> clean (S n) (JObject ms).

Lemma max_list_N_le l n : Forall (fun x => x <= n) l -> max_list_N l <= n.
Proof. induction 1; cbn; [lia|]. fold (max_list_N l). lia. Qed.
Lemma clean_spec v n :
  clean n v -> Forall literal (numbers v) /\ nesting v <= N.of_nat n /\ sanitize v = v.
Proof.
  revert n. induction v as [|b|lit|s|vs Hvs|ms Hms] using json_nested_ind; intros n Hc;
    inversion Hc as [| |? ? Hl|? ? Hu|m ? Hall|m ? Hall]; subst; cbn [numbers nesting sanitize];
    try (split_and!; [done|lia|done]).
  - split_and!; [by apply (Forall_singleton literal)|lia|done].
  - split_and!; [done|lia|by rewrite to_valid_id].
  - assert (Forall (fun v => Forall literal (numbers v) /\ nesting v <= N.of_nat m /\ sanitize v = v) vs) as H.
    { rewrite Forall_forall in *. eauto. }
    split_and!.
    + apply Forall_concat, Forall_map. apply (Forall_impl _ _ _ H). tauto.
    + assert (max_list_N (map nesting vs) <= N.of_nat m); [|lia].
      apply max_list_N_le, Forall_map. apply (Forall_impl _ _ _ H). tauto.
    + f_equal. clear -H. induction H as [|v vs (_ & _ & Hv) _ IH]; [done|]. cbn [map]. by rewrite Hv, IH.
  - assert (Forall (fun v => Forall literal (numbers v.2) /\ nesting v.2 <= N.of_nat m
      /\ (to_valid v.1, sanitize v.2) = v) ms) as H.
    { rewrite Forall_forall in *. intros [k w] Hin. destruct (Hall _ Hin) as [Hk Hw].
      destruct (Hms _ Hin _ Hw) as (? & ? & Hs). cbn [fst snd] in *. by rewrite Hs, to_valid_id. }
    split_and!.
    + apply Forall_concat, Forall_map. apply (Forall_impl _ _ _ H). tauto.
    + assert (max_list_N (map (fun m => nesting m.2) ms) <= N.of_nat m); [|lia].
      apply max_list_N_le, Forall_map. apply (Forall_impl _ _ _ H). tauto.
    + f_equal. clear -H. induction H as [|v ms (_ & _ & Hv) _ IH]; [done|]. cbn [map]. by rewrite Hv, IH.
Qed.

(** Such a document is read back as it was, so its text determines it. *)
Lemma clean_read n v : N.of_nat n <= maxNestingDepth -> clean n v -> parse (Marshal v) = Some v.
Proof.
  intros Hn (Hl & Hd & Hs)%clean_spec. rewrite parse_Marshal; [by rewrite Hs|done|lia].
Qed.
Lemma clean_inj n v w :
  N.of_nat n <= maxNestingDepth -> clean n v -> clean n w -> Marshal v = Marshal w -> v = w.
Proof.
  intros Hn Hv%(clean_read _ _ Hn) Hw%(clean_read _ _ Hn) E. rewrite E, Hw in Hv. by injection Hv.
Qed.

(** The values the module writes. *)
Definition utf8 (s : string) : Prop := utf8_Valid (bytes_of_string s) = true.
Lemma clean_jnumber n k : clean n (jnumber k).
Proof. apply clean_number, literal_number. Qed.
Lemma clean_jstring n s : utf8 s -> clean n (jstring s).
Proof. apply clean_string. Qed.
Lemma base64_digit_ascii n : n < 64 -> Byte.to_N (base64_digit n) < 0x80.
Proof.
  intros Hn. unfold base64_digit. repeat case_match; rewrite ?N.ltb_lt, ?N.ltb_ge in *;
    rewrite to_N_small by lia; lia.
Qed.
Lemma base64_ascii bs : Forall (fun b => Byte.to_N b < 0x80) (base64 bs).
Proof.
  assert (forall k bs, (length bs <= k)%nat -> Forall (fun b => Byte.to_N b < 0x80) (base64 bs)) as Hk;
    [|by apply (Hk (length bs))].
  clear bs. induction k as [|k IH]; intros bs Hl; [by destruct bs; [|cbn in Hl; lia]|].
  destruct bs as [|a [|b [|c bs]]]; [by constructor|..]; cbn [base64];
    repeat (apply Forall_cons; split; [try done; apply base64_digit_ascii|]); try by constructor.
  all: try (by apply IH; cbn [length] in Hl; lia).
  all: pose proof (Byte.to_N_bounded a); try pose proof (Byte.to_N_bounded b);
    try pose proof (Byte.to_N_bounded c); lia.
Qed.
Lemma base64_digit_inj m n : m < 64 -> n < 64 -> base64_digit m = base64_digit n -> m = n.
Proof.
  intros Hm Hn E. apply (f_equal Byte.to_N) in E. revert E. unfold base64_digit.
  repeat case_match; rewrite ?N.ltb_lt, ?N.ltb_ge, ?N.eqb_eq, ?N.eqb_neq in *;
    rewrite !to_N_small by lia; lia.
Qed.
Lemma base64_digit_pad n : n < 64 -> base64_digit n <> Byte.x3d.
Proof.
  intros Hn E. apply (f_equal Byte.to_N) in E. revert E. change (Byte.to_N Byte.x3d) with 61.
  unfold base64_digit.
  repeat case_match; rewrite ?N.ltb_lt, ?N.ltb_ge, ?N.eqb_eq, ?N.eqb_neq in *;
    rewrite !to_N_small by lia; lia.
Qed.
Lemma same_digits m m' : m / 64 = m' / 64 -> m mod 64 = m' mod 64 -> m = m'.
Proof. lia. Qed.
Lemma base64_4 n n' : n < 2 ^ 24 -> n' < 2 ^ 24 ->
  base64_digit (n / 262144) = base64_digit (n' / 262144) ->
  base64_digit (n / 4096 mod 64) = base64_digit (n' / 4096 mod 64) ->
  base64_digit (n / 64 mod 64) = base64_digit (n' / 64 mod 64) ->
  base64_digit (n mod 64) = base64_digit (n' mod 64) -> n = n'.
Proof.
  change (2 ^ 24) with 16777216. intros Hn Hn' E1 E2 E3 E4.
  apply base64_digit_inj in E1; [|lia..]. apply base64_digit_inj in E2, E3, E4; [|by apply N.mod_lt..].
  apply same_digits; [|done]. apply same_digits; [|done].
  apply same_digits; rewrite !N.Div0.div_div; done.
Qed.
Ltac pad :=
  match goal with
  | H : base64_digit _ = Byte.x3d |- _ => exfalso; apply base64_digit_pad in H; [done|lia]
  | H : Byte.x3d = base64_digit _ |- _ =>
      exfalso; symmetry in H; apply base64_digit_pad in H; [done|lia]
  end.
#[export] Instance base64_inj : Inj (=) (=) base64.
Proof.
  assert (forall k x y, (length x <= k)%nat -> base64 x = base64 y -> x = y) as Hk;
    [|intros x y; by apply (Hk (length x))].
  induction k as [|k IH]; intros x y Hl E.
  { destruct x; [|cbn in Hl; lia]. by destruct y as [|? [|? [|? ?]]]. }
  destruct x as [|a [|b [|c x]]], y as [|a' [|b' [|c' y]]]; cbn [base64] in E; try done;
    pose proof (Byte.to_N_bounded a); pose proof (Byte.to_N_bounded a'); injection E; intros.
  all: try solve [pad].
  - assert (Byte.to_N a = Byte.to_N a') as ->%to_N_inj; [|done].
    apply base64_digit_inj in H1, H2; lia.
  - pose proof (Byte.to_N_bounded b). pose proof (Byte.to_N_bounded b').
    apply base64_digit_inj in H1, H2, H3; [|lia..].
    assert (Byte.to_N a = Byte.to_N a') as ->%to_N_inj by lia.
    by assert (Byte.to_N b = Byte.to_N b') as ->%to_N_inj by lia.
  - pose proof (Byte.to_N_bounded b). pose proof (Byte.to_N_bounded b').
    pose proof (Byte.to_N_bounded c). pose proof (Byte.to_N_bounded c').
    apply IH in H1; [|cbn [length] in Hl; lia]. apply base64_4 in H2; [|lia|lia|done..].
    assert (Byte.to_N a = Byte.to_N a') as ->%to_N_inj by lia.
    assert (Byte.to_N b = Byte.to_N b') as ->%to_N_inj by lia.
    assert (Byte.to_N c = Byte.to_N c') as ->%to_N_inj by lia. by subst.
Qed.
Lemma clean_jbytes n bs : clean n (jbytes bs).
Proof. apply clean_string, ascii_Valid, base64_ascii. Qed.
Lemma pretty_ascii (n : N) : utf8 (pretty n).
Proof.
  apply ascii_Valid. unfold pretty, pretty_N.
  destruct (decide (n = 0)) as [->|Hn]; [by repeat constructor|].
  destruct (pretty_go_digits n "" ltac:(lia) (Forall_nil_2 _)) as (d & ds & -> & _ & Hd).
  apply (Forall_impl _ _ _ Hd). intros b Hb%in_range_true. lia.
Qed.

End JsonPrint.
