(* ===== verification/ProposalText.v ===== *)
(** How the legacy governance proposals are shown to voters
    (x/wasm/types/proposal_legacy.go): title, description, route, the text of
    String and the fields that MarshalYAML puts out. fmt and strconv.Quote
    are written out; the texts of coins and of protobuf messages belong to
    the SDK and are parameters. *)
From Stdlib Require Import Ascii.
From S2P Require Import Prelude Errors GoStrings Json Types Proto Keys VMTypes Policy GasRegister Chain Logic Engine Store Events Keeper Msgs MsgServer Genesis Proposals JsonPrint.
Import GoStrings Json.Json Proposals.Proposals.
Open Scope wasm_scope.

Class ProposalTexts := {
  Coins_String : Coins -> string;
  (** the text format of protobuf *)
  AccessConfig_String : option AccessConfig -> string;
}.

Module ProposalText.
Section ProposalText.
Context `{UnicodeTables, ProposalTexts}.

(** *** fmt *)

Fixpoint concat_strings (l : list string) : string :=
  match l with [] => "" | s :: l' => String.append s (concat_strings l') end.
Definition newline : string := String "010"%char EmptyString.
Definition double_quote : byte := Byte.x22.
Definition backslash : byte := Byte.x5c.
(** Digits of a number in base 16, at least [width] of them. *)
Fixpoint hex_digits (width : nat) (n : N) : bytes :=
  match width with
  | O => []
  | S width' => hex_digits width' (n / 16) ++ [hex_digit (n mod 16)]
  end.
(** strconv.appendEscapedRune with the quote character. *)
Definition escaped_rune (r : N) (enc : bytes) : bytes :=
  if (r =? 0x22)%N || (r =? 0x5c)%N then backslash :: enc
  else if IsPrint r then enc
  else if (r =? 7)%N then [backslash; Byte.x61] (* \a *)
  else if (r =? 8)%N then [backslash; Byte.x62] (* \b *)
  else if (r =? 12)%N then [backslash; Byte.x66] (* \f *)
  else if (r =? 10)%N then [backslash; Byte.x6e] (* \n *)
  else if (r =? 13)%N then [backslash; Byte.x72] (* \r *)
  else if (r =? 9)%N then [backslash; Byte.x74] (* \t *)
  else if (r =? 11)%N then [backslash; Byte.x76] (* \v *)
  else if (r <? 0x20)%N || (r =? 0x7f)%N then backslash :: Byte.x78 :: hex_digits 2 r (* \x *)
  else if (r <? 0x10000)%N then backslash :: Byte.x75 :: hex_digits 4 r (* \u *)
  else backslash :: Byte.x55 :: hex_digits 8 r. (* \U *)
(** A byte that is not UTF-8 is written by its value. *)
Definition quoted_rune (rb : N * bytes) : bytes :=
  match rb with
  | (r, [b]) => if (r =? RuneError)%N then backslash :: Byte.x78 :: hex_digits 2 (Byte.to_N b) else escaped_rune r [b]
  | (r, enc) => escaped_rune r enc
  end.
(** %q, %X, %d, %t, %v of numbers *)
Definition Quote (bs : bytes) : string :=
  string_of_bytes (double_quote :: concat (quoted_rune <$> runes bs) ++ [double_quote]).
Definition upper_hex (bs : bytes) : string := ToUpper (hex_encode bs).
Definition bool_text (b : bool) : string := if b then "true" else "false".
Fixpoint spaced (l : list string) : string :=
  match l with
  | [] => ""
  | [s] => s
  | s :: l' => String.append s (String.append " " (spaced l'))
  end.
Definition list_text (l : list string) : string := concat_strings ["["; spaced l; "]"]%string.
(** A heading and lines of label and value. *)
Definition lines (heading : string) (l : list (string * string)) : string :=
  concat_strings (heading :: newline :: concat ((fun lv : string * string =>
    ["  "%string; lv.1; lv.2; newline]) <$> l)).

(** *** String *)

Definition hash_text (h : option bytes) : string := upper_hex (default [] h).
Definition StoreCodeProposal_String (p : StoreCodeProposal) : string :=
  lines "Store Code Proposal:" [
    ("Title:       ", SCP_Title p); ("Description: ", SCP_Description p); ("Run as:      ", SCP_RunAs p);
    ("WasmCode:    ", upper_hex (SCP_WASMByteCode p)); ("Source:      ", SCP_Source p);
    ("Builder:     ", SCP_Builder p); ("Code Hash:   ", hash_text (SCP_CodeHash p))]%string.
Definition InstantiateContractProposal_String (p : InstantiateContractProposal) : string :=
  lines "Instantiate Code Proposal:" [
    ("Title:       ", ICP_Title p); ("Description: ", ICP_Description p); ("Run as:      ", ICP_RunAs p);
    ("Admin:       ", ICP_Admin p); ("Code id:     ", pretty (ICP_CodeID p)); ("Label:       ", ICP_Label p);
    ("Msg:         ", Quote (ICP_Msg p)); ("Funds:       ", Coins_String (ICP_Funds p))]%string.
Definition InstantiateContract2Proposal_String (p : InstantiateContract2Proposal) : string :=
  lines "Instantiate Code Proposal:" [
    ("Title:       ", IC2P_Title p); ("Description: ", IC2P_Description p); ("Run as:      ", IC2P_RunAs p);
    ("Admin:       ", IC2P_Admin p); ("Code id:     ", pretty (IC2P_CodeID p)); ("Label:       ", IC2P_Label p);
    ("Msg:         ", Quote (IC2P_Msg p)); ("Funds:       ", Coins_String (IC2P_Funds p));
    ("Salt:        ", upper_hex (IC2P_Salt p))]%string.
Definition StoreAndInstantiateContractProposal_String (p : StoreAndInstantiateContractProposal) : string :=
  lines "Store And Instantiate Coontract Proposal:" [
    ("Title:       ", SIP_Title p); ("Description: ", SIP_Description p); ("Run as:      ", SIP_RunAs p);
    ("WasmCode:    ", upper_hex (SIP_WASMByteCode p)); ("Source:      ", SIP_Source p);
    ("Builder:     ", SIP_Builder p); ("Code Hash:   ", hash_text (SIP_CodeHash p));
    ("Instantiate permission: ", AccessConfig_String (SIP_InstantiatePermission p));
    ("Unpin code:  ", String.append (bool_text (SIP_UnpinCode p)) "  "); ("Admin:       ", SIP_Admin p);
    ("Label:       ", SIP_Label p); ("Msg:         ", Quote (SIP_Msg p));
    ("Funds:       ", Coins_String (SIP_Funds p))]%string.
Definition MigrateContractProposal_String (p : MigrateContractProposal) : string :=
  lines "Migrate Contract Proposal:" [
    ("Title:       ", MCP_Title p); ("Description: ", MCP_Description p); ("Contract:    ", MCP_Contract p);
    ("Code id:     ", pretty (MCP_CodeID p)); ("Msg:         ", Quote (MCP_Msg p))]%string.
Definition SudoContractProposal_String (p : SudoContractProposal) : string :=
  lines "Migrate Contract Proposal:" [
    ("Title:       ", SuP_Title p); ("Description: ", SuP_Description p); ("Contract:    ", SuP_Contract p);
    ("Msg:         ", Quote (SuP_Msg p))]%string.
Definition ExecuteContractProposal_String (p : ExecuteContractProposal) : string :=
  lines "Migrate Contract Proposal:" [
    ("Title:       ", ECP_Title p); ("Description: ", ECP_Description p); ("Contract:    ", ECP_Contract p);
    ("Run as:      ", ECP_RunAs p); ("Msg:         ", Quote (ECP_Msg p));
    ("Funds:       ", Coins_String (ECP_Funds p))]%string.
Definition UpdateAdminProposal_String (p : UpdateAdminProposal) : string :=
  lines "Update Contract Admin Proposal:" [
    ("Title:       ", UAP_Title p); ("Description: ", UAP_Description p); ("Contract:    ", UAP_Contract p);
    ("New Admin:   ", UAP_NewAdmin p)]%string.
Definition ClearAdminProposal_String (p : ClearAdminProposal) : string :=
  lines "Clear Contract Admin Proposal:" [
    ("Title:       ", CAP_Title p); ("Description: ", CAP_Description p); ("Contract:    ", CAP_Contract p)]%string.
Definition PinCodesProposal_String (p : PinCodesProposal) : string :=
  lines "Pin Wasm Codes Proposal:" [
    ("Title:       ", PCP_Title p); ("Description: ", PCP_Description p);
    ("Codes:       ", list_text (pretty <$> PCP_CodeIDs p))]%string.
Definition UnpinCodesProposal_String (p : UnpinCodesProposal) : string :=
  lines "Unpin Wasm Codes Proposal:" [
    ("Title:       ", UCP_Title p); ("Description: ", UCP_Description p);
    ("Codes:       ", list_text (pretty <$> UCP_CodeIDs p))]%string.
(** The permission is a value, which fmt prints field by field. *)
Definition AccessConfigUpdate_String (c : AccessConfigUpdate) : string :=
  let permission := ACU_InstantiatePermission c in
  lines "AccessConfigUpdate:" [
    ("CodeID:       ", pretty (ACU_CodeID c));
    ("AccessConfig: ", concat_strings ["{"; AccessType_String (Permission permission); " ";
                         list_text (Addresses permission); "}"])]%string.
Definition UpdateInstantiateConfigProposal_String (p : UpdateInstantiateConfigProposal) : string :=
  lines "Update Instantiate Config Proposal:" [
    ("Title:       ", UIP_Title p); ("Description: ", UIP_Description p);
    ("AccessConfigUpdates: ", list_text (AccessConfigUpdate_String <$> UIP_AccessConfigUpdates p))]%string.

(** *** Content *)

Definition ProposalRoute (c : Content) : string := "wasm".
Definition GetTitle (c : Content) : string :=
  match c with
  | CStoreCode p => SCP_Title p
  | CInstantiateContract p => ICP_Title p
  | CInstantiateContract2 p => IC2P_Title p
  | CMigrateContract p => MCP_Title p
  | CSudoContract p => SuP_Title p
  | CExecuteContract p => ECP_Title p
  | CUpdateAdmin p => UAP_Title p
  | CClearAdmin p => CAP_Title p
  | CPinCodes p => PCP_Title p
  | CUnpinCodes p => UCP_Title p
  | CUpdateInstantiateConfig p => UIP_Title p
  | CStoreAndInstantiateContract p => SIP_Title p
  | COther _ => ""
  end.
Definition GetDescription (c : Content) : string :=
  match c with
  | CStoreCode p => SCP_Description p
  | CInstantiateContract p => ICP_Description p
  | CInstantiateContract2 p => IC2P_Description p
  | CMigrateContract p => MCP_Description p
  | CSudoContract p => SuP_Description p
  | CExecuteContract p => ECP_Description p
  | CUpdateAdmin p => UAP_Description p
  | CClearAdmin p => CAP_Description p
  | CPinCodes p => PCP_Description p
  | CUnpinCodes p => UCP_Description p
  | CUpdateInstantiateConfig p => UIP_Description p
  | CStoreAndInstantiateContract p => SIP_Description p
  | COther _ => ""
  end.

(** *** MarshalYAML: the fields in their order *)

Inductive yaml :=
| YString (s : string) | YUint (n : N) | YBool (b : bool) | YAccess (c : option AccessConfig) | YCoins (c : Coins).
Definition YAML : Type := list (string * yaml).
Definition base64_text (bs : bytes) : yaml := YString (string_of_bytes (base64 bs)).
Definition StoreCodeProposal_MarshalYAML (p : StoreCodeProposal) : YAML := [
  ("title", YString (SCP_Title p)); ("description", YString (SCP_Description p)); ("run_as", YString (SCP_RunAs p));
  ("wasm_byte_code", base64_text (SCP_WASMByteCode p));
  ("instantiate_permission", YAccess (SCP_InstantiatePermission p)); ("source", YString (SCP_Source p));
  ("builder", YString (SCP_Builder p)); ("code_hash", YString (hex_encode (default [] (SCP_CodeHash p))))]%string.
Definition InstantiateContractProposal_MarshalYAML (p : InstantiateContractProposal) : YAML := [
  ("title", YString (ICP_Title p)); ("description", YString (ICP_Description p)); ("run_as", YString (ICP_RunAs p));
  ("admin", YString (ICP_Admin p)); ("code_id", YUint (ICP_CodeID p)); ("label", YString (ICP_Label p));
  ("msg", YString (string_of_bytes (ICP_Msg p))); ("funds", YCoins (ICP_Funds p))]%string.
Definition InstantiateContract2Proposal_MarshalYAML (p : InstantiateContract2Proposal) : YAML := [
  ("title", YString (IC2P_Title p)); ("description", YString (IC2P_Description p)); ("run_as", YString (IC2P_RunAs p));
  ("admin", YString (IC2P_Admin p)); ("code_id", YUint (IC2P_CodeID p)); ("label", YString (IC2P_Label p));
  ("msg", YString (string_of_bytes (IC2P_Msg p))); ("funds", YCoins (IC2P_Funds p));
  ("salt", base64_text (IC2P_Salt p))]%string.
Definition StoreAndInstantiateContractProposal_MarshalYAML (p : StoreAndInstantiateContractProposal) : YAML := [
  ("title", YString (SIP_Title p)); ("description", YString (SIP_Description p)); ("run_as", YString (SIP_RunAs p));
  ("wasm_byte_code", base64_text (SIP_WASMByteCode p)); ("source", YString (SIP_Source p));
  ("builder", YString (SIP_Builder p)); ("code_hash", YString (hex_encode (default [] (SIP_CodeHash p))));
  ("instantiate_permission", YAccess (SIP_InstantiatePermission p)); ("unpin_code", YBool (SIP_UnpinCode p));
  ("admin", YString (SIP_Admin p)); ("label", YString (SIP_Label p));
  ("msg", YString (string_of_bytes (SIP_Msg p))); ("funds", YCoins (SIP_Funds p))]%string.
Definition MigrateContractProposal_MarshalYAML (p : MigrateContractProposal) : YAML := [
  ("title", YString (MCP_Title p)); ("description", YString (MCP_Description p));
  ("contract", YString (MCP_Contract p)); ("code_id", YUint (MCP_CodeID p));
  ("msg", YString (string_of_bytes (MCP_Msg p)))]%string.
Definition SudoContractProposal_MarshalYAML (p : SudoContractProposal) : YAML := [
  ("title", YString (SuP_Title p)); ("description", YString (SuP_Description p));
  ("contract", YString (SuP_Contract p)); ("msg", YString (string_of_bytes (SuP_Msg p)))]%string.
Definition ExecuteContractProposal_MarshalYAML (p : ExecuteContractProposal) : YAML := [
  ("title", YString (ECP_Title p)); ("description", YString (ECP_Description p));
  ("contract", YString (ECP_Contract p)); ("msg", YString (string_of_bytes (ECP_Msg p)));
  ("run_as", YString (ECP_RunAs p)); ("funds", YCoins (ECP_Funds p))]%string.

(** ** What voters see *)

(** The YAML of a proposal determines it, but for the code hash that is empty
    or missing, and but for two flags that it leaves out: whether the stored
    code stays unpinned, and whether the message is part of the address. *)
Definition same_hash (h h' : option bytes) : Prop := default [] h = default [] h'.
Lemma text_inj b b' : string_of_bytes b = string_of_bytes b' -> b = b'.
Proof. intros E. apply (f_equal bytes_of_string) in E. by rewrite !bytes_of_string_of_bytes in E. Qed.
Ltac shown E :=
  injection E; intros; clear E;
  repeat match goal with
  | H : string_of_bytes _ = string_of_bytes _ |- _ => apply text_inj in H
  | H : base64 _ = base64 _ |- _ => apply JsonPrint.base64_inj in H
  | H : hex_encode _ = hex_encode _ |- _ => apply hex_encode_inj in H
  end; subst.
Theorem yaml_determines :
  (forall p p', StoreCodeProposal_MarshalYAML p = StoreCodeProposal_MarshalYAML p' <->
     mkStoreCodeProposal (SCP_Title p) (SCP_Description p) (SCP_RunAs p) (SCP_WASMByteCode p)
       (SCP_InstantiatePermission p) (SCP_UnpinCode p') (SCP_Source p) (SCP_Builder p) (SCP_CodeHash p') = p'
     /\ same_hash (SCP_CodeHash p) (SCP_CodeHash p'))
  /\ (forall p p', InstantiateContract2Proposal_MarshalYAML p = InstantiateContract2Proposal_MarshalYAML p' <->
     mkInstantiateContract2Proposal (IC2P_Title p) (IC2P_Description p) (IC2P_RunAs p) (IC2P_Admin p)
       (IC2P_CodeID p) (IC2P_Label p) (IC2P_Msg p) (IC2P_Funds p) (IC2P_Salt p) (IC2P_FixMsg p') = p')
  /\ (forall p p', InstantiateContractProposal_MarshalYAML p = InstantiateContractProposal_MarshalYAML p' <-> p = p')
  /\ (forall p p', MigrateContractProposal_MarshalYAML p = MigrateContractProposal_MarshalYAML p' <-> p = p')
  /\ (forall p p', SudoContractProposal_MarshalYAML p = SudoContractProposal_MarshalYAML p' <-> p = p')
  /\ (forall p p', ExecuteContractProposal_MarshalYAML p = ExecuteContractProposal_MarshalYAML p' <-> p = p').
Proof.
  split_and!; intros [] []; split; cbn; intros E.
  all: try (shown E; by split).
  - destruct E as [E Eh]. injection E; intros; subst. unfold same_hash in Eh. cbn in Eh.
    unfold StoreCodeProposal_MarshalYAML. cbn [SCP_Title SCP_Description SCP_RunAs SCP_WASMByteCode
      SCP_InstantiatePermission SCP_UnpinCode SCP_Source SCP_Builder SCP_CodeHash]. by rewrite Eh.
  all: injection E; intros; by subst.
Qed.
(** Proposals to call a contract, with or without its consent, carry the
    heading of a migration. *)
Theorem sudo_shown_as_migrate p q :
  exists rest rest', SudoContractProposal_String p = String.append "Migrate Contract Proposal:" rest
    /\ ExecuteContractProposal_String q = String.append "Migrate Contract Proposal:" rest'.
Proof. by do 2 eexists. Qed.

End ProposalText.
End ProposalText.
