(* ===== verification/Bindings.v ===== *)
(** The Go side of the bindings to libwasmvm (wasmvm/internal/api/lib.go and
    memory.go, and the encoding of arguments in wasmvm/lib_libwasmvm.go): how
    the functions of the C library become the engine the keeper works with.
    The C library is an interface here; RustVM.v implements it. *)
From S2P Require Import Prelude Errors GoStrings Json JsonPrint Types VMTypes GasRegister Chain Logic Engine Store Keeper QueryPlugins Relay Querier Options.
Import GoStrings Json.Json.
Open Scope wasm_scope.

(** ** What contracts get as JSON (wasmvm/types/env.go, submessages.go, ibc.go) *)

Module Args.
Import QueryPlugins.

(** [*T] with null for nil; a field with the omitempty tag. *)
Definition jpointer {A} (f : A -> json) (x : option A) : json :=
  match x with None => JNull | Some x => f x end.
Definition jomit {A} (name : string) (f : A -> json) (x : option A) : list (bytes * json) :=
  match x with None => [] | Some x => [jfield name (f x)] end.
(** [[]byte] with the omitempty tag: left out when it has no bytes. *)
Definition jomit_bytes (name : string) (bs : bytes) : list (bytes * json) :=
  match bs with [] => [] | _ => [jfield name (jbytes bs)] end.

Definition json_Uint64 (n : N) : json := jstring (pretty n).
Definition json_Env (e : Env) : json :=
  let b := Env_Block e in
  JObject [
    jfield "block" (JObject [jfield "height" (jnumber (Block_Height b));
      jfield "time" (json_Uint64 (Block_Time b)); jfield "chain_id" (jstring (Block_ChainID b))]);
    jfield "transaction" (jpointer (fun t => JObject [jfield "index" (jnumber (Tx_Index t))])
      (Env_Transaction e));
    jfield "contract" (JObject [jfield "address" (jstring (Env_Contract e))])].
Definition json_MessageInfo (i : MessageInfo) : json :=
  JObject [jfield "sender" (jstring (Info_Sender i));
    jfield "funds" (JArray (json_Coin <$> Info_Funds i))].
Definition json_MigrateInfo (i : MigrateInfo) : json :=
  JObject [jfield "sender" (jstring (Migrate_Sender i));
    jfield "old_migrate_version" (jpointer jnumber (OldMigrateVersion i))].

Definition json_Event (e : Event) : json :=
  JObject [jfield "type" (jstring (EType e));
    jfield "attributes" (JArray ((fun a => JObject [jfield "key" (jstring (Key a));
      jfield "value" (jstring (Value a))]) <$> EAttributes e))].
Definition json_MsgResponse (m : MsgResponse) : json :=
  JObject [jfield "type_url" (jstring (MR_TypeURL m)); jfield "value" (jbytes (MR_Value m))].
Definition json_SubMsgResponse (r : SubMsgResponse) : json :=
  JObject ([jfield "events" (JArray (json_Event <$> SM_Events r))]
    ++ jomit_bytes "data" (default [] (SM_Data r))
    ++ [jfield "msg_responses" (JArray (json_MsgResponse <$> SM_MsgResponses r))]).
Definition json_SubMsgResult (r : SubMsgResult) : json :=
  JObject (jomit "ok" json_SubMsgResponse (SR_Ok r) ++ jomitempty "error" (SR_Err r)).
Definition json_Reply (r : Reply) : json :=
  JObject ([jfield "gas_used" (jnumber (Reply_GasUsed r)); jfield "id" (jnumber (Reply_ID r));
      jfield "result" (json_SubMsgResult (Reply_Result r))]
    ++ jomit_bytes "payload" (Reply_Payload r)).

Definition json_IBCEndpoint (e : IBCEndpoint) : json :=
  JObject [jfield "port_id" (jstring (EP_PortID e)); jfield "channel_id" (jstring (EP_ChannelID e))].
Definition json_IBCChannel (c : IBCChannel) : json :=
  JObject [jfield "endpoint" (json_IBCEndpoint (Ch_Endpoint c));
    jfield "counterparty_endpoint" (json_IBCEndpoint (Ch_Counterparty c));
    jfield "order" (jstring (Ch_Order c)); jfield "version" (jstring (Ch_Version c));
    jfield "connection_id" (jstring (Ch_ConnectionID c))].
Definition json_channel (c : IBCChannel) : json := JObject [jfield "channel" (json_IBCChannel c)].
Definition json_channel_version (c : IBCChannel * string) : json :=
  JObject [jfield "channel" (json_IBCChannel c.1); jfield "counterparty_version" (jstring c.2)].
Definition json_IBCChannelOpenMsg (m : IBCChannelOpenMsg) : json :=
  JObject (jomit "open_init" json_channel (OpenInit m) ++ jomit "open_try" json_channel_version (OpenTry m)).
Definition json_IBCChannelConnectMsg (m : IBCChannelConnectMsg) : json :=
  JObject (jomit "open_ack" json_channel_version (OpenAck m) ++ jomit "open_confirm" json_channel (OpenConfirm m)).
Definition json_IBCChannelCloseMsg (m : IBCChannelCloseMsg) : json :=
  JObject (jomit "close_init" json_channel (CloseInit m) ++ jomit "close_confirm" json_channel (CloseConfirm m)).
(** The timestamp has the options string and omitempty. *)
Definition json_IBCTimeout (t : IBCTimeout) : json :=
  JObject ([jfield "block" (jpointer (fun b => JObject [jfield "revision" (jnumber (TB_Revision b));
        jfield "height" (jnumber (TB_Height b))]) (TO_Block t))]
    ++ (if (TO_Timestamp t =? 0)%N then [] else [jfield "timestamp" (json_Uint64 (TO_Timestamp t))])).
(** The bytes of packets and acknowledgements are not nil. *)
Definition json_IBCAcknowledgement (a : IBCAcknowledgement) : json :=
  JObject [jfield "data" (jbytes (Ack_Data a))].
Definition json_IBCPacket (p : IBCPacket) : json :=
  JObject [jfield "data" (jbytes (Pk_Data p)); jfield "src" (json_IBCEndpoint (Pk_Src p));
    jfield "dest" (json_IBCEndpoint (Pk_Dest p)); jfield "sequence" (jnumber (Pk_Sequence p));
    jfield "timeout" (json_IBCTimeout (Pk_Timeout p))].
Definition json_IBCPacketReceiveMsg (m : IBCPacketReceiveMsg) : json :=
  JObject [jfield "packet" (json_IBCPacket (PR_Packet m)); jfield "relayer" (jstring (PR_Relayer m))].
Definition json_IBCPacketAckMsg (m : IBCPacketAckMsg) : json :=
  JObject [jfield "acknowledgement" (json_IBCAcknowledgement (PAck_Acknowledgement m));
    jfield "original_packet" (json_IBCPacket (PAck_OriginalPacket m));
    jfield "relayer" (jstring (PAck_Relayer m))].
Definition json_IBCPacketTimeoutMsg (m : IBCPacketTimeoutMsg) : json :=
  JObject [jfield "packet" (json_IBCPacket (PT_Packet m)); jfield "relayer" (jstring (PT_Relayer m))].
Definition json_IBCSourceCallbackMsg (m : IBCSourceCallbackMsg) : json :=
  JObject (jomit "acknowledgement" json_IBCPacketAckMsg (SCb_Acknowledgement m)
    ++ jomit "timeout" json_IBCPacketTimeoutMsg (SCb_Timeout m)).
Definition json_IBCDestinationCallbackMsg (m : IBCDestinationCallbackMsg) : json :=
  JObject [jfield "ack" (json_IBCAcknowledgement (DCb_Ack m));
    jfield "packet" (json_IBCPacket (DCb_Packet m))].

(** *** What a contract can make of its arguments *)
Import JsonPrint.JsonPrint.

Definition env_utf8 (e : Env) : Prop := utf8 (Block_ChainID (Env_Block e)) /\ utf8 (Env_Contract e).
Definition info_utf8 (i : MessageInfo) : Prop :=
  utf8 (Info_Sender i) /\ Forall (fun c => utf8 (Denom c) /\ utf8 (Amount c)) (Info_Funds i).
Definition endpoint_utf8 (e : IBCEndpoint) : Prop := utf8 (EP_PortID e) /\ utf8 (EP_ChannelID e).
Definition receive_utf8 (m : IBCPacketReceiveMsg) : Prop :=
  endpoint_utf8 (Pk_Src (PR_Packet m)) /\ endpoint_utf8 (Pk_Dest (PR_Packet m)) /\ utf8 (PR_Relayer m).

(** The fields of an object one after the other. *)
Lemma clean_field n name v :
  utf8 name -> clean n v -> utf8_Valid (jfield name v).1 = true /\ clean n (jfield name v).2.
Proof. done. Qed.
Create HintDb clean.
#[local] Hint Resolve clean_null clean_jnumber clean_jstring clean_jbytes clean_array clean_object
  pretty_ascii : clean.
#[local] Hint Extern 1 (Forall _ (_ :: _)) => (apply Forall_cons; split) : clean.
#[local] Hint Extern 1 (Forall _ []) => (apply Forall_nil; exact I) : clean.
#[local] Hint Extern 1 (utf8_Valid (jfield _ _).1 = true /\ _) => (split; [reflexivity|cbn [jfield snd]]) : clean.

Lemma clean_Env e : env_utf8 e -> clean 2 (json_Env e).
Proof.
  intros [H1 H2]. unfold json_Env, json_Uint64. destruct (Env_Transaction e); cbn [jpointer]; auto 20 with clean.
Qed.
Lemma clean_Coin c : utf8 (Denom c) -> utf8 (Amount c) -> clean 1 (json_Coin c).
Proof. intros H1 H2. unfold json_Coin. auto 20 with clean. Qed.
Lemma clean_MessageInfo i : info_utf8 i -> clean 3 (json_MessageInfo i).
Proof.
  intros [H1 H2]. unfold json_MessageInfo. assert (Forall (clean 1) (json_Coin <$> Info_Funds i)) as Hf.
  { apply Forall_fmap, (Forall_impl _ _ _ H2). intros c []. by apply clean_Coin. }
  auto 20 with clean.
Qed.
Lemma clean_timeout t : clean 2 (json_IBCTimeout t).
Proof.
  unfold json_IBCTimeout, json_Uint64. destruct (TO_Block t), (TO_Timestamp t =? 0)%N; cbn [app jpointer];
    auto 20 with clean.
Qed.
Lemma clean_endpoint n e : endpoint_utf8 e -> clean (S n) (json_IBCEndpoint e).
Proof. intros []. unfold json_IBCEndpoint. auto 20 with clean. Qed.
#[local] Hint Resolve clean_timeout clean_endpoint : clean.
Lemma clean_receive m : receive_utf8 m -> clean 4 (json_IBCPacketReceiveMsg m).
Proof.
  intros (H1 & H2 & H3). unfold json_IBCPacketReceiveMsg, json_IBCPacket. auto 30 with clean.
Qed.

(** Take an equation between documents apart. *)
Ltac fields E :=
  injection E; clear E; intros;
  repeat match goal with
  | H : bytes_of_string _ = bytes_of_string _ |- _ => apply bytes_of_string_inj in H
  | H : pretty _ = pretty _ |- _ => apply (inj (pretty (A := N))) in H
  | H : base64 _ = base64 _ |- _ => apply base64_inj in H
  end; subst.
#[local] Instance json_Env_inj : Inj (=) (=) json_Env.
Proof.
  intros [[h t c] [[x]|] a] [[h' t' c'] [[x']|] a'] E; unfold json_Env in E; cbn in E; try done;
    by fields E.
Qed.
#[local] Instance json_Coin_inj : Inj (=) (=) json_Coin.
Proof. intros [d a] [d' a'] E. by fields E. Qed.
#[local] Instance json_MessageInfo_inj : Inj (=) (=) json_MessageInfo.
Proof.
  intros [s f] [s' f'] E. unfold json_MessageInfo in E. cbn [Info_Sender Info_Funds] in E.
  injection E as Es Ef. apply bytes_of_string_inj in Es as ->.
  by apply (inj (fmap json_Coin)) in Ef as ->.
Qed.
#[local] Instance json_timeout_inj : Inj (=) (=) json_IBCTimeout.
Proof.
  intros [[[r h]|] t] [[[r' h']|] t'] E; unfold json_IBCTimeout in E; cbn in E;
    destruct (N.eqb_spec t 0), (N.eqb_spec t' 0); subst; try done; by fields E.
Qed.
#[local] Instance json_endpoint_inj : Inj (=) (=) json_IBCEndpoint.
Proof. intros [d a] [d' a'] E. by fields E. Qed.
#[local] Instance json_receive_inj : Inj (=) (=) json_IBCPacketReceiveMsg.
Proof.
  intros [[d s t n o] r] [[d' s' t' n' o'] r'] E.
  pose proof (inj json_IBCEndpoint s s') as Hs. pose proof (inj json_IBCEndpoint t t') as Ht.
  pose proof (inj json_IBCTimeout o o') as Ho.
  unfold json_IBCPacketReceiveMsg, json_IBCPacket in E.
  cbn [PR_Packet PR_Relayer Pk_Data Pk_Src Pk_Dest Pk_Sequence Pk_Timeout] in E. revert Hs Ht Ho E.
  generalize (json_IBCEndpoint s) (json_IBCEndpoint s') (json_IBCEndpoint t) (json_IBCEndpoint t')
    (json_IBCTimeout o) (json_IBCTimeout o').
  intros js js' jt jt' jo jo' Hs Ht Ho E. fields E. by rewrite Hs, Ht, Ho.
Qed.

(** C38: the JSON a contract gets for its environment, for the sender and funds of
    a call and for a packet can be decoded and determines them, when the
    strings in them are UTF-8. *)
Theorem arguments_determined :
  (forall e, env_utf8 e -> parse (Marshal (json_Env e)) = Some (json_Env e)
     /\ forall e', env_utf8 e' -> Marshal (json_Env e) = Marshal (json_Env e') -> e = e')
  /\ (forall i, info_utf8 i -> parse (Marshal (json_MessageInfo i)) = Some (json_MessageInfo i)
     /\ forall i', info_utf8 i' -> Marshal (json_MessageInfo i) = Marshal (json_MessageInfo i') -> i = i')
  /\ (forall m, receive_utf8 m ->
       parse (Marshal (json_IBCPacketReceiveMsg m)) = Some (json_IBCPacketReceiveMsg m)
     /\ forall m', receive_utf8 m' ->
       Marshal (json_IBCPacketReceiveMsg m) = Marshal (json_IBCPacketReceiveMsg m') -> m = m').
Proof.
  split_and!; (intros x Hx; split; [|intros x' Hx' E]).
  - by apply (clean_read 2), clean_Env.
  - by apply (inj json_Env), (clean_inj 2); [|apply clean_Env..|].
  - by apply (clean_read 3), clean_MessageInfo.
  - by apply (inj json_MessageInfo), (clean_inj 3); [|apply clean_MessageInfo..|].
  - by apply (clean_read 4), clean_receive.
  - by apply (inj json_IBCPacketReceiveMsg), (clean_inj 4); [|apply clean_receive..|].
Qed.

End Args.

(** ** libwasmvm (wasmvm/internal/api/bindings.h) *)

(** What a call of a C function leaves behind: errno, the returned vector and
    the error message, both possibly none. *)
Record CResult := mkCResult { errno : N; vector : option bytes; errmsg : option bytes }.
(** The AnalysisReport of the library. *)
Record CAnalysisReport := mkCAnalysisReport {
  has_ibc_entry_points : bool;
  required_capabilities : option bytes;
  entrypoints : option bytes;
  contract_migrate_version : option N;
}.

Class LibWasmVM `{Modules} := {
  (* the pointer is null when there is an error *)
  C_init_cache : bytes -> (N * option bytes) * option VMState;
  C_save_wasm : VMState -> bytes -> bool -> CResult * VMState;
  C_remove_wasm : VMState -> bytes -> (N * option bytes) * VMState;
  C_load_wasm : VMState -> bytes -> CResult;
  C_pin : VMState -> bytes -> (N * option bytes) * VMState;
  C_unpin : VMState -> bytes -> (N * option bytes) * VMState;
  C_analyze_code : VMState -> bytes -> CAnalysisReport * (N * option bytes);
  C_get_metrics : VMState -> Metrics * (N * option bytes);
  C_get_pinned_metrics : VMState -> CResult;
  (* checksum, env, info, message, gas limit, print debug *)
  C_instantiate : VMState -> bytes -> bytes -> bytes -> bytes -> N -> bool -> Prog CResult;
  C_execute : VMState -> bytes -> bytes -> bytes -> bytes -> N -> bool -> Prog CResult;
  C_migrate : VMState -> bytes -> bytes -> bytes -> N -> bool -> Prog CResult;
  C_migrate_with_info : VMState -> bytes -> bytes -> bytes -> bytes -> N -> bool -> Prog CResult;
  C_sudo : VMState -> bytes -> bytes -> bytes -> N -> bool -> Prog CResult;
  C_reply : VMState -> bytes -> bytes -> bytes -> N -> bool -> Prog CResult;
  C_query : VMState -> bytes -> bytes -> bytes -> N -> bool -> Prog CResult;
  C_ibc_channel_open : VMState -> bytes -> bytes -> bytes -> N -> bool -> Prog CResult;
  C_ibc_channel_connect : VMState -> bytes -> bytes -> bytes -> N -> bool -> Prog CResult;
  C_ibc_channel_close : VMState -> bytes -> bytes -> bytes -> N -> bool -> Prog CResult;
  C_ibc_packet_receive : VMState -> bytes -> bytes -> bytes -> N -> bool -> Prog CResult;
  C_ibc_packet_ack : VMState -> bytes -> bytes -> bytes -> N -> bool -> Prog CResult;
  C_ibc_packet_timeout : VMState -> bytes -> bytes -> bytes -> N -> bool -> Prog CResult;
  C_ibc_source_callback : VMState -> bytes -> bytes -> bytes -> N -> bool -> Prog CResult;
  C_ibc_destination_callback : VMState -> bytes -> bytes -> bytes -> N -> bool -> Prog CResult;
  (* the text of an errno, and the decoding of the pinned metrics *)
  Errno_Error : N -> string;
  UnmarshalMessagePack : bytes -> list PerModuleEntry + string;
}.

(** The operating system as InitCache uses it, on a state of its own. *)
Class OperatingSystem := {
  Files : Type;
  Lockfile : Type;
  MkdirAll : string -> Files -> bool * Files;
  OpenFile : string -> Files -> option Lockfile * Files;
  WriteString : Lockfile -> string -> Files -> bool * Files;
  Flock : Lockfile -> Files -> bool * Files;
  CloseFile : Lockfile -> Files -> Files;
}.

Fixpoint prog_map {R S} (f : R -> S) (p : Prog R) : Prog S :=
  match p with
  | VDone r report => VDone (f r) report
  | VGet k c => VGet k (fun e n v => prog_map f (c e n v))
  | VSet k v c => VSet k v (fun e n => prog_map f (c e n))
  | VDelete k c => VDelete k (fun e n => prog_map f (c e n))
  | VScan start stop order c => VScan start stop order (fun e n i m => prog_map f (c e n i m))
  | VNext i c => VNext i (fun e n x => prog_map f (c e n x))
  | VNextKey i c => VNextKey i (fun e n x => prog_map f (c e n x))
  | VNextValue i c => VNextValue i (fun e n x => prog_map f (c e n x))
  | VHumanize a c => VHumanize a (fun e n h m => prog_map f (c e n h m))
  | VCanonicalize h c => VCanonicalize h (fun e n a m => prog_map f (c e n a m))
  | VValidate h c => VValidate h (fun e n m => prog_map f (c e n m))
  | VQuery req limit c => VQuery req limit (fun e n r => prog_map f (c e n r))
  end.

Module Bindings.
Import Args.

Section Bindings.
Context `{Modules, !LibWasmVM}.

Definition OutOfGasError_Error : string := "Out of gas".
Definition errorWithMessage (err : N) (msg : option bytes) : string :=
  if (err =? 2)%N then OutOfGasError_Error
  else match msg with None => Errno_Error err | Some msg => string_of_bytes msg end.
(** The error of a call is nil when errno is 0. *)
Definition c_error (r : N * option bytes) : option string :=
  if (r.1 =? 0)%N then None else Some (errorWithMessage r.1 r.2).
Definition c_result {A} (r : N * option bytes) (x : A) : A + string :=
  match c_error r with None => inl x | Some err => inr err end.
Definition vector_result (r : CResult) : bytes + string :=
  c_result (errno r, errmsg r) (default [] (vector r)).

(** *** The cache *)

Definition lock_text : string :=
  lines ["This is a lockfile that prevent two VM instances to operate on the same directory in parallel.";
    "See codebase at github.com/CosmWasm/wasmvm for more information.";
    "Safety first – brought to you by Confio ❤️"].
Definition InitCache `{OperatingSystem} (config : VMConfig) (w : Files)
    : ((option VMState * Lockfile) + string) * Files :=
  let '(ok, w) := MkdirAll (BaseDir (VM_Cache config)) w in
  if negb ok then (inr "Could not create base directory"%string, w)
  else
  let '(lockfile, w) := OpenFile (Filepath.Join [BaseDir (VM_Cache config); "exclusive.lock"%string]) w in
  match lockfile with
  | None => (inr "Could not open exclusive.lock"%string, w)
  | Some lockfile =>
      let '(ok, w) := WriteString lockfile lock_text w in
      if negb ok then (inr "Error writing to exclusive.lock"%string, w)
      else
      let '(ok, w) := Flock lockfile w in
      if negb ok
      then (inr "Could not lock exclusive.lock. Is a different VM running in the same directory already?"%string, w)
      else
      let '(r, cache) := C_init_cache (Marshal (json_VMConfig config)) in
      (c_result r (cache, lockfile), w)
  end.
Definition ReleaseCache `{OperatingSystem} (cache : option VMState * Lockfile) (w : Files) : Files :=
  CloseFile cache.2 w.
Record VM `{OperatingSystem} := mkVM { vm_cache : option VMState * Lockfile; printDebug : bool }.
Definition NewVMWithConfig `{OperatingSystem} (config : VMConfig) (debug : bool) (w : Files)
    : (VM + string) * Files :=
  let '(r, w) := InitCache config w in
  match r with inl cache => (inl (mkVM _ cache debug), w) | inr err => (inr err, w) end.
Definition NewVM `{OperatingSystem} (dataDir : string) (supportedCapabilities : option (list string))
    (memoryLimit : N) (debug : bool) (cacheSize : N) : Files -> (VM + string) * Files :=
  NewVMWithConfig (mkVMConfig (mkWasmLimits None None None None None None None)
    (mkCacheOptions dataDir supportedCapabilities (NewSizeMebi cacheSize) (NewSizeMebi memoryLimit))) debug.

(** *** Code *)

Definition StoreCode (cache : VMState) (wasm : bytes) : (bytes + string) * VMState :=
  let '(r, cache) := C_save_wasm cache wasm false in (vector_result r, cache).
Definition StoreCodeUnchecked (cache : VMState) (wasm : bytes) : (bytes + string) * VMState :=
  let '(r, cache) := C_save_wasm cache wasm true in (vector_result r, cache).
Definition RemoveCode (cache : VMState) (checksum : bytes) : option string * VMState :=
  let '(r, cache) := C_remove_wasm cache checksum in (c_error r, cache).
Definition GetCode (cache : VMState) (checksum : bytes) : bytes + string :=
  vector_result (C_load_wasm cache checksum).
Definition Pin (cache : VMState) (checksum : bytes) : option string * VMState :=
  let '(r, cache) := C_pin cache checksum in (c_error r, cache).
Definition Unpin (cache : VMState) (checksum : bytes) : option string * VMState :=
  let '(r, cache) := C_unpin cache checksum in (c_error r, cache).

(** strings.Split(s, ","): the empty string gives one empty element. *)
Fixpoint split_commas (cur bs : bytes) : list string :=
  match bs with
  | [] => [string_of_bytes cur]
  | b :: bs' =>
      if Byte.eqb b Byte.x2c then string_of_bytes cur :: split_commas [] bs'
      else split_commas (cur ++ [b]) bs'
  end.
Definition AnalyzeCode (cache : VMState) (checksum : bytes) : AnalysisReport + string :=
  let '(report, r) := C_analyze_code cache checksum in
  c_result r (mkAnalysisReport (has_ibc_entry_points report)
    (string_of_bytes (default [] (required_capabilities report)))
    (split_commas [] (default [] (entrypoints report)))
    (contract_migrate_version report)).

Definition GetMetrics (cache : VMState) : Metrics + string :=
  let '(metrics, r) := C_get_metrics cache in c_result r metrics.
Definition GetPinnedMetrics (cache : VMState) : list PerModuleEntry + string :=
  match vector_result (C_get_pinned_metrics cache) with
  | inr err => inr err
  | inl metrics => UnmarshalMessagePack metrics
  end.

(** *** Calls of contracts *)

(** The result of an entry point, with the gas report as it is. *)
Definition entry_result (p : Prog CResult) : VMProg := prog_map vector_result p.

Definition Instantiate (cache : VMState) (checksum env info msg : bytes) (gasLimit : N) (printDebug : bool)
    : VMProg := entry_result (C_instantiate cache checksum env info msg gasLimit printDebug).
Definition Execute (cache : VMState) (checksum env info msg : bytes) (gasLimit : N) (printDebug : bool)
    : VMProg := entry_result (C_execute cache checksum env info msg gasLimit printDebug).
Definition Migrate (cache : VMState) (checksum env msg : bytes) (gasLimit : N) (printDebug : bool)
    : VMProg := entry_result (C_migrate cache checksum env msg gasLimit printDebug).
Definition MigrateWithInfo (cache : VMState) (checksum env msg migrateInfo : bytes) (gasLimit : N)
    (printDebug : bool) : VMProg :=
  entry_result (C_migrate_with_info cache checksum env msg migrateInfo gasLimit printDebug).
Definition Sudo (cache : VMState) (checksum env msg : bytes) (gasLimit : N) (printDebug : bool)
    : VMProg := entry_result (C_sudo cache checksum env msg gasLimit printDebug).
Definition Reply_ (cache : VMState) (checksum env reply : bytes) (gasLimit : N) (printDebug : bool)
    : VMProg := entry_result (C_reply cache checksum env reply gasLimit printDebug).
Definition Query (cache : VMState) (checksum env msg : bytes) (gasLimit : N) (printDebug : bool)
    : VMProg := entry_result (C_query cache checksum env msg gasLimit printDebug).
Definition IBCChannelOpen (cache : VMState) (checksum env msg : bytes) (gasLimit : N) (printDebug : bool)
    : VMProg := entry_result (C_ibc_channel_open cache checksum env msg gasLimit printDebug).
Definition IBCChannelConnect (cache : VMState) (checksum env msg : bytes) (gasLimit : N) (printDebug : bool)
    : VMProg := entry_result (C_ibc_channel_connect cache checksum env msg gasLimit printDebug).
Definition IBCChannelClose (cache : VMState) (checksum env msg : bytes) (gasLimit : N) (printDebug : bool)
    : VMProg := entry_result (C_ibc_channel_close cache checksum env msg gasLimit printDebug).
Definition IBCPacketReceive (cache : VMState) (checksum env packet : bytes) (gasLimit : N) (printDebug : bool)
    : VMProg := entry_result (C_ibc_packet_receive cache checksum env packet gasLimit printDebug).
Definition IBCPacketAck (cache : VMState) (checksum env ack : bytes) (gasLimit : N) (printDebug : bool)
    : VMProg := entry_result (C_ibc_packet_ack cache checksum env ack gasLimit printDebug).
Definition IBCPacketTimeout (cache : VMState) (checksum env packet : bytes) (gasLimit : N) (printDebug : bool)
    : VMProg := entry_result (C_ibc_packet_timeout cache checksum env packet gasLimit printDebug).
Definition IBCSourceCallback (cache : VMState) (checksum env msg : bytes) (gasLimit : N) (printDebug : bool)
    : VMProg := entry_result (C_ibc_source_callback cache checksum env msg gasLimit printDebug).
Definition IBCDestinationCallback (cache : VMState) (checksum env msg : bytes) (gasLimit : N) (printDebug : bool)
    : VMProg := entry_result (C_ibc_destination_callback cache checksum env msg gasLimit printDebug).

(** GoAPI: the address functions, each possibly nil. *)
Record GoAPI := mkGoAPI {
  HumanizeAddress : option (bytes -> (string + error) * N);
  CanonicalizeAddress : option (string -> (bytes + error) * N);
  ValidateAddress : option (string -> option error * N);
}.
Definition misuse (what : string) : string :=
  String.append what " must not be nil. If you don't want to provide API functionality, please create an instance that returns an error on every call to HumanizeAddress(), CanonicalizeAddress() and ValidateAddress().".
Definition checkAndPinAPI (api : option GoAPI) : outcome unit :=
  match api with
  | None => Panic (PText (misuse "API"))
  | Some api =>
      match HumanizeAddress api, CanonicalizeAddress api, ValidateAddress api with
      | None, _, _ => Panic (PText (misuse "HumanizeAddress in API"))
      | _, None, _ => Panic (PText (misuse "CanonicalizeAddress in API"))
      | _, _, None => Panic (PText (misuse "ValidateAddress in API"))
      | Some _, Some _, Some _ => Ret tt
      end
  end.
Definition cosmwasmAPI `{Bech32} : GoAPI :=
  mkGoAPI (Some humanizeAddress) (Some canonicalizeAddress) (Some validateAddress).

(** *** The engine of the keeper *)

(** The decoding of the responses of contracts stays a parameter. *)
Context (contract_result : bytes -> ContractResult + string) (query_result : bytes -> QueryResult + string).
Context (open_result : bytes -> IBCChannelOpenResult + string)
  (basic_result : bytes -> IBCBasicResult + string) (receive_result : bytes -> IBCReceiveResult + string).
Context (debug : bool).

Definition engine : WasmEngine := {|
  api_StoreCode := StoreCode;
  api_StoreCodeUnchecked := StoreCodeUnchecked;
  api_GetCode := GetCode;
  api_AnalyzeCode := AnalyzeCode;
  api_Pin := Pin;
  api_Unpin := Unpin;
  api_Instantiate v checksum env info msg gasLimit :=
    Instantiate v checksum (Marshal (json_Env env)) (Marshal (json_MessageInfo info)) msg gasLimit debug;
  api_Execute v checksum env info msg gasLimit :=
    Execute v checksum (Marshal (json_Env env)) (Marshal (json_MessageInfo info)) msg gasLimit debug;
  api_MigrateWithInfo v checksum env msg info gasLimit :=
    MigrateWithInfo v checksum (Marshal (json_Env env)) msg (Marshal (json_MigrateInfo info)) gasLimit debug;
  api_Sudo v checksum env msg gasLimit :=
    Sudo v checksum (Marshal (json_Env env)) msg gasLimit debug;
  api_Reply v checksum env reply gasLimit :=
    Reply_ v checksum (Marshal (json_Env env)) (Marshal (json_Reply reply)) gasLimit debug;
  api_Query v checksum env msg gasLimit :=
    Query v checksum (Marshal (json_Env env)) msg gasLimit debug;
  json_ContractResult := contract_result;
  json_QueryResult := query_result;
|}.
Definition ibc_engine : IBCEngine := {|
  api_IBCChannelOpen v checksum env msg gasLimit :=
    IBCChannelOpen v checksum (Marshal (json_Env env)) (Marshal (json_IBCChannelOpenMsg msg)) gasLimit debug;
  api_IBCChannelConnect v checksum env msg gasLimit :=
    IBCChannelConnect v checksum (Marshal (json_Env env)) (Marshal (json_IBCChannelConnectMsg msg)) gasLimit debug;
  api_IBCChannelClose v checksum env msg gasLimit :=
    IBCChannelClose v checksum (Marshal (json_Env env)) (Marshal (json_IBCChannelCloseMsg msg)) gasLimit debug;
  api_IBCPacketReceive v checksum env msg gasLimit :=
    IBCPacketReceive v checksum (Marshal (json_Env env)) (Marshal (json_IBCPacketReceiveMsg msg)) gasLimit debug;
  api_IBCPacketAck v checksum env msg gasLimit :=
    IBCPacketAck v checksum (Marshal (json_Env env)) (Marshal (json_IBCPacketAckMsg msg)) gasLimit debug;
  api_IBCPacketTimeout v checksum env msg gasLimit :=
    IBCPacketTimeout v checksum (Marshal (json_Env env)) (Marshal (json_IBCPacketTimeoutMsg msg)) gasLimit debug;
  api_IBCSourceCallback v checksum env msg gasLimit :=
    IBCSourceCallback v checksum (Marshal (json_Env env)) (Marshal (json_IBCSourceCallbackMsg msg)) gasLimit debug;
  api_IBCDestinationCallback v checksum env msg gasLimit :=
    IBCDestinationCallback v checksum (Marshal (json_Env env)) (Marshal (json_IBCDestinationCallbackMsg msg)) gasLimit debug;
  json_IBCChannelOpenResult := open_result;
  json_IBCBasicResult := basic_result;
  json_IBCReceiveResult := receive_result;
|}.

End Bindings.

(** *** Calls do not see the iterators of other calls *)

Section Calls.
Context `{GasMeters, Modules, KVStorePkg, Bech32, ErrorsMod}.
Context (gm : CallMeters).
Context (prefix : bytes) (rust_query : bytes -> N -> M QuerierResult).
Abbreviation run := (run_prog gm prefix rust_query).

(** Two tables in which the two calls have the same iterators. *)
Definition same_frame (fs : Iterators.frames) (c : N) (fs' : Iterators.frames) (c' : N) : Prop :=
  Iterators.frame_of fs c = Iterators.frame_of fs' c'.

Lemma storeIterator_same fs c fs' c' it limit :
  same_frame fs c fs' c' ->
  (Iterators.storeIterator fs c it limit).1 = (Iterators.storeIterator fs' c' it limit).1
  /\ same_frame (Iterators.storeIterator fs c it limit).2 c
       (Iterators.storeIterator fs' c' it limit).2 c'.
Proof.
  unfold same_frame, Iterators.storeIterator. intros E. rewrite E. case_match; [done|].
  destruct (Iterators.indexToIteratorID _); simpl; by rewrite !Iterators.frame_of_insert.
Qed.
Lemma advance_same fs c fs' c' id :
  same_frame fs c fs' c' ->
  same_frame (Iterators.advance fs c id) c (Iterators.advance fs' c' id) c'.
Proof.
  unfold same_frame, Iterators.advance. intros E. rewrite E.
  destruct (Iterators.iteratorIdToIndex id); [|done]. by rewrite !Iterators.frame_of_insert.
Qed.
Lemma retrieveIterator_same fs c fs' c' id :
  same_frame fs c fs' c' ->
  Iterators.retrieveIterator fs c id = Iterators.retrieveIterator fs' c' id.
Proof. unfold same_frame, Iterators.retrieveIterator. by intros ->. Qed.

(** recoverPanic on bodies that differ in the tables they return. *)
Definition related {A B} (T : A -> B -> Prop) (x : outcome A * State) (y : outcome B * State) : Prop :=
  x.2 = y.2
  /\ match x.1, y.1 with
     | Ret a, Ret b => T a b
     | Fail e, Fail e' => e = e'
     | Panic p, Panic p' => p = p'
     | _, _ => False
     end.
Lemma related_bind {A B C} (T : A -> B -> Prop) (m : M A) (m' : M B) (f : A -> M C) (f' : B -> M C) s :
  related T (m s) (m' s) -> (forall a b s, T a b -> f a s = f' b s) ->
  (m ≫= f) s = (m' ≫= f') s.
Proof.
  unfold related, mbind, M_bind. destruct (m s) as [[a|e|p] s1], (m' s) as [[b|e'|p'] s2];
    intros [Hs Ho] Hf; simpl in *; subst; try done. by apply Hf.
Qed.
Lemma related_recover {A B} (T : A -> B -> Prop) (m : M A) (m' : M B) s :
  related T (m s) (m' s) ->
  related (fun x y => x.1 = y.1 /\ match x.2, y.2 with
     | Some a, Some b => T a b | None, None => True | _, _ => False end)
    (recoverPanic m s) (recoverPanic m' s).
Proof.
  unfold related, recoverPanic, reify, mbind, M_bind. simpl.
  destruct (m s) as [[a|e|p] s1], (m' s) as [[b|e'|p'] s2]; intros [Hs Ho]; simpl in *; subst; try done.
  by destruct p'.
Qed.

Lemma cScan_same fs c fs' c' start stop order s :
  same_frame fs c fs' c' ->
  related (fun x y => x.1 = y.1 /\ same_frame x.2 c y.2 c')
    (cScan gm prefix fs c start stop order s) (cScan gm prefix fs' c' start stop order s).
Proof.
  intros Hs. unfold related, cScan. destruct (_ || _); [|done].
  unfold mbind, M_bind. destruct (metered gm _ s) as [[[used it]| |] s1]; [|done..].
  destruct (storeIterator_same fs c fs' c' it Iterators.frameLenLimit Hs) as [E1 E2].
  destruct (Iterators.storeIterator fs c it _) as [r1 f1], (Iterators.storeIterator fs' c' it _) as [r2 f2].
  simpl in *. subst r2. by destruct r1.
Qed.
Lemma next_entry_same fs c fs' c' id s :
  same_frame fs c fs' c' ->
  related (fun x y => x.1 = y.1 /\ same_frame x.2 c y.2 c')
    (next_entry gm fs c id s) (next_entry gm fs' c' id s).
Proof.
  intros Hs. unfold related, next_entry. rewrite (retrieveIterator_same fs c fs' c' id Hs).
  destruct (Iterators.retrieveIterator fs' c' id) as [[|e l]|]; [done| |done].
  unfold mbind, M_bind. destruct (metered gm _ s) as [[[used it]| |] s1]; [|done..].
  simpl. split_and!; [done..|]. by apply advance_same.
Qed.

(** A call behaves in the same way whatever other calls, unfinished or
    concurrent, have in the table of iterators: it is given a new call id, and
    finds and stores iterators under this id only. *)
Theorem run_prog_frames {R} (p : Prog R) fs c fs' c' s :
  same_frame fs c fs' c' -> run fs c p s = run fs' c' p s.
Proof.
  revert fs fs' s. induction p;
    intros fs fs' s Hs; cbn [run_prog]; [done|..].
  all: try (unfold mbind, M_bind; destruct (recoverPanic _ s) as [[[e [[]|]]| |] s1];
    repeat case_match; simplify_eq/=; auto; fail).
  all: eapply related_bind;
    [apply related_recover; first [by apply cScan_same|by apply next_entry_same]|].
  all: intros [e [[x f]|]] [e' [[y f']|]] s1 [He Hr]; simpl in *; subst; try done; [|auto].
  all: destruct Hr as [-> Hf]; repeat case_match; simplify_eq; auto.
Qed.

(** The conversion of the results of the C library is the last thing a call
    does. *)
Lemma run_prog_map {R T} (f : R -> T) (p : Prog R) fs c s :
  run fs c (prog_map f p) s = ('(r, report) ← run fs c p; mret (f r, report)) s.
Proof.
  revert fs s. induction p; intros fs s; cbn [run_prog prog_map]; [done|..].
  all: unfold mbind, M_bind in *; destruct (recoverPanic _ s) as [[[? [?|]]| |] s1]; try done;
    repeat match goal with x : (_ * _)%type |- _ => destruct x end; auto.
Qed.

End Calls.
End Bindings.
