(* ===== verification/Snapshots.v ===== *)
(** State sync (x/wasm/keeper/snapshotter.go): the extension that puts the
    byte code of all contracts into a snapshot of the chain and stores it in
    the VM of the node that restores the snapshot, with the compression it
    uses (x/wasm/ioutils/utils.go). *)
From S2P Require Import Prelude Errors GoStrings Json Types Proto Keys VMTypes Policy GasRegister Chain Logic Wp Engine Store Registry Events Keeper Msgs MsgServer KeeperFrame Refinement RefineKeeper Genesis Total Querier.
Import GoStrings Keys Store.Store Registry.Registry.
Open Scope wasm_scope.

Definition MaxInt64 : N := 9223372036854775807.
(** Byte code is well below what a slice can hold. *)
Definition small (bz : bytes) : Prop := (blen bz < 4611686018427387904)%N.

(** ** x/wasm/ioutils *)

(** compress/gzip: what a writer that is closed at the end has written. *)
Class GzipWriter := { gzip_write : bytes -> bytes + error }.
Definition GzipIt `{GzipWriter} (input : bytes) : bytes + error := gzip_write input.

Definition wasmIdent : bytes := [Byte.x00; Byte.x61; Byte.x73; Byte.x6d].
(** [input[:4]] panics on a shorter input. *)
Definition IsWasm (input : bytes) : outcome bool :=
  if Nat.ltb (length input) 4 then Panic (PRuntime "slice bounds out of range")
  else Ret (bool_decide (take 4 input = wasmIdent)).

(** Documented of the package: reading undoes writing. *)
Class GzipWriterLaws `{Gzip, GzipWriter} : Prop := {
  gzip_roundtrip x : small x -> exists c b,
    gzip_write x = inl c /\ Keeper.IsGzip c = true /\ (blen c <= MaxInt64)%N
    /\ gzip_read c = inl (x, None, b);
}.

(** Documented of the VM's code cache: a code is stored under its checksum,
    next to the others, and can be read back and pinned. *)
Class CodeCacheLaws `{WasmEngine} : Prop := {
  cache_size v h code : api_GetCode v h = inl code -> small code;
  cache_store v v0 h code : api_GetCode v0 h = inl code -> exists v',
    api_StoreCodeUnchecked v code = (inl h, v') /\ api_GetCode v' h = inl code
    /\ forall h', h' <> h -> api_GetCode v' h' = api_GetCode v h';
  cache_pin v h code : api_GetCode v h = inl code -> exists v',
    api_Pin v h = (None, v') /\ forall h', api_GetCode v' h' = api_GetCode v h';
}.

Module Snapshots.

Definition SnapshotFormat : N := 1.
Definition SupportedFormats : list N := [SnapshotFormat].
Definition ErrUnknownFormat : error := EText "unknown snapshot format".

Section Snapshots.
Context `{GasMeters, Modules, KVStorePkg, Bech32, ErrorsMod, AddressPkg, Codecs}.
Context `{!Gzip, !GzipWriter, !WasmEngine}.
(** The writer of the snapshot manager, given the payloads it took so far. *)
Context (payloadWriter : list bytes -> bytes -> option error).

(** ** Taking a snapshot *)

(** The variables the callback changes. *)
Record Progress := mkProgress {
  seenBefore : gset string;
  written : list bytes;
  rerr : option error;
}.
Definition snapshot_code (id : N) (info : CodeInfo) (p : Progress) : M (Progress * bool) :=
  let hexHash := hex_encode (CodeHash info) in
  if bool_decide (hexHash ∈ seenBefore p) then mret (p, false)
  else
    let seen := {[hexHash]} ∪ seenBefore p in
    let abort err := mret (mkProgress seen (written p) (Some err), true) in
    r ← catch (Keeper.GetByteCode id);
    match r with
    | inr err => abort err
    | inl wasmBytes =>
        match GzipIt (default [] wasmBytes) with
        | inr err => abort err
        | inl compressedWasm =>
            match payloadWriter (written p) compressedWasm with
            | Some err => abort err
            | None => mret (mkProgress seen (written p ++ [compressedWasm]) (rerr p), false)
            end
        end
    end.
(** On the state of the requested height; what was written, and the error. *)
Definition SnapshotExtension : M (list bytes * option error) :=
  p ← IterateCodeInfos snapshot_code (mkProgress ∅ [] None);
  mret (written p, rerr p).

(** ** Restoring it *)

Definition restoreV1 (compressedCode : bytes) : M unit :=
  if negb (Keeper.IsGzip compressedCode) then fail (Wrap ErrInvalid "not a gzip")
  else match Keeper.Uncompress compressedCode MaxInt64 with
  | inr err => fail (Wrap ErrCreateFailed (error_string err))
  | inl wasmCode =>
      r ← VM_StoreCodeUnchecked wasmCode;
      match r with
      | inr err => fail (Wrap ErrCreateFailed err)
      | inl _ => mret tt
      end
  end.
Definition finalizeV1 : M unit := Keeper.InitializePinnedCodes.

(** The reader gives [payloads], then the end of file or an error. *)
Fixpoint process_items (cb : bytes -> M unit) (payloads : list bytes) (readErr : option error)
    : M unit :=
  match payloads with
  | [] => check readErr
  | payload :: payloads' =>
      _ ← wrap_err "processing snapshot item" (cb payload);
      process_items cb payloads' readErr
  end.
Definition processAllItems (payloads : list bytes) (readErr : option error)
    (cb : bytes -> M unit) (finalize : M unit) : M unit :=
  _ ← process_items cb payloads readErr; finalize.
Definition RestoreExtension (format : N) (payloads : list bytes) (readErr : option error) : M unit :=
  if (format =? SnapshotFormat)%N then processAllItems payloads readErr restoreV1 finalizeV1
  else fail ErrUnknownFormat.

(** ** What is restored is what was there *)

Context `{!Bech32Laws, !AddressPkgLaws, !CodecsLaws, !GzipWriterLaws, !CodeCacheLaws, !Unmetered}.

Section Restore.
Context (a : Registry) (s : State).
Hypothesis Hr : repr (kv s) a.
Hypothesis C : coherent a.
Hypothesis St : storable a.
Hypothesis Hk : Querier.key_shapes (kv s).
(** The VM has the byte code of every code of the registry. *)
Hypothesis Hvm : forall id c, codes a !! id = Some c ->
  exists code, api_GetCode (vm s) (CodeHash c) = inl code.
Hypothesis Hwriter : forall ps p, payloadWriter ps p = None.

Definition is_checksum (h : bytes) : Prop := exists id c, codes a !! id = Some c /\ CodeHash c = h.
(** The payload for a checksum. *)
Definition payload_of (h p : bytes) : Prop :=
  exists code, api_GetCode (vm s) h = inl code /\ GzipIt code = inl p.

(** Only the meter has changed. *)
Definition same_node (s1 : State) : Prop := kv s1 = kv s /\ vm s1 = vm s.

Lemma swp_GetByteCode id c s1 (Q : (option bytes + error) -> State -> Prop) :
  is_u64 id -> codes a !! id = Some c -> same_node s1 ->
  (forall code s2, api_GetCode (vm s) (CodeHash c) = inl code -> same_node s2 ->
     Q (inl (Some code)) s2) ->
  swp (catch (Keeper.GetByteCode id)) Q s1.
Proof.
  intros Hid Hc [Hkv Hv] HQ. destruct (Hvm id c Hc) as [code Hcode].
  assert (swp (Keeper.GetByteCode id) (fun o s2 => o = Some code /\ same_node s2) s1) as Hg.
  { unfold Keeper.GetByteCode. twp_step. twp_step.
    change (GetCodeKey id) with (entry_key (KCode id)). rewrite Hkv, (Hr (KCode id)) by done.
    cbn [encode]. rewrite Hc. change (marshal <$> Some c) with (Some (marshal c)). cbv iota.
    destruct (sto_codes a St id c Hc). unfold MustUnmarshal. rewrite codec_roundtrip by done.
    twp_step. twp_step. unfold VM_GetCode. twp_step. twp_step. apply swp_gets. twp_step.
    simpl vm. rewrite Hv, Hcode. twp_step. done. }
  destruct Hg as (o & s2 & E & -> & Hs2). exists (inl (Some code)), s2. unfold catch. rewrite E. auto.
Qed.

Definition snapshot_inv (l : list (bytes * bytes)) (p : Progress) (s1 : State) : Prop :=
  same_node s1 /\ rerr p = None
  /\ (forall k v, (k, v) ∈ l -> kv s !! (CodeKeyPrefix ++ k) = Some v)
  /\ exists hs, NoDup hs /\ seenBefore p = list_to_set (hex_encode <$> hs)
     /\ Forall2 payload_of hs (written p) /\ Forall is_checksum hs
     /\ forall id c, codes a !! id = Some c -> Uint64ToBigEndian id ∈ l.*1 \/ CodeHash c ∈ hs.

Lemma snapshot_step k v l p s1 :
  snapshot_inv ((k, v) :: l) p s1 ->
  swp (c ← MustUnmarshal v; id ← lift (binary_Uint64 k); snapshot_code id c p)
    (fun r s2 => r.2 = false /\ snapshot_inv l r.1 s2) s1.
Proof.
  intros (Hs & Hrerr & Hl & hs & HN & Hseen & HF & Hch & Hall).
  destruct (Querier.entry_code a s Hr Hk k v (Hl k v ltac:(by left))) as (id & c & Hid & -> & Hc & ->).
  destruct (sto_codes a St id c Hc). twp_step. unfold MustUnmarshal. rewrite codec_roundtrip by done.
  twp_step. twp_step. apply (swp_lift _ id); [by apply RefineKeeper.binary_roundtrip|].
  assert (forall id' c', codes a !! id' = Some c' ->
    Uint64ToBigEndian id' ∈ l.*1 \/ CodeHash c' = CodeHash c \/ CodeHash c' ∈ hs) as Hall'.
  { intros id' c' Hc'. destruct (Hall id' c' Hc') as [[E|]%elem_of_cons|]; [|by left|by right; right].
    right. left. apply Uint64ToBigEndian_inj in E; [by simplify_eq| |done].
    by eapply Genesis.exported_code_u64. }
  unfold snapshot_code. case_bool_decide as Hin.
  - twp_step. split; [done|]. split_and!; [apply Hs..|done| |].
    { intros k' v' Hk'. apply Hl. by right. }
    exists hs. split_and!; [done..|]. intros id' c' Hc'.
    rewrite Hseen in Hin. apply elem_of_list_to_set, list_elem_of_fmap in Hin as (h & Eh & Hh).
    apply hex_encode_inj in Eh. destruct (Hall' id' c' Hc') as [|[E|]]; [by left| |by right].
    right. congruence.
  - twp_step. eapply swp_GetByteCode; [exact Hid|exact Hc|exact Hs|]. intros code s2 Hcode Hs2.
    pose proof (cache_size _ _ _ Hcode) as Hsz. destruct (gzip_roundtrip code Hsz) as (z & b & Ez & _).
    cbv beta iota zeta. unfold GzipIt. change (default [] (Some code)) with code. rewrite Ez, Hwriter. twp_step.
    split; [done|]. split_and!; [apply Hs2..|done| |].
    { intros k' v' Hk'. apply Hl. by right. }
    exists (hs ++ [CodeHash c]). split_and!.
    + apply NoDup_app. split_and!; [done| |apply NoDup_singleton].
      intros h Hh ->%list_elem_of_singleton. apply Hin. rewrite Hseen.
      by apply elem_of_list_to_set, list_elem_of_fmap_2.
    + simpl. rewrite Hseen, fmap_app, list_to_set_app_L. simpl. set_solver.
    + apply Forall2_app; [done|]. constructor; [|constructor]. by exists code.
    + apply Forall_app. split; [done|]. constructor; [by exists id, c|constructor].
    + intros id' c' Hc'. destruct (Hall' id' c' Hc') as [|[E|]]; [by left| |]; right;
        apply elem_of_app; [right; rewrite E; by apply list_elem_of_singleton|by left].
Qed.

(** A snapshot holds one payload per checksum. *)
Lemma SnapshotExtension_payloads :
  swp SnapshotExtension (fun r s1 => r.2 = None /\ same_node s1
    /\ exists hs, NoDup hs /\ Forall2 payload_of hs r.1 /\ forall h, h ∈ hs <-> is_checksum h) s.
Proof.
  unfold SnapshotExtension, IterateCodeInfos. twp_step. apply (swp_iterate _ snapshot_inv).
  - intros l p s1 mt ([? ?] & HI). by split.
  - intros k v l p s1. apply snapshot_step.
  - intros p s1 (Hs & Hrerr & _ & hs & HN & _ & HF & Hch & Hall). twp_step. split_and!; [done..|].
    exists hs. split_and!; [done..|]. intros h. split.
    + rewrite Forall_forall in Hch. auto.
    + intros (id & c & Hc & <-). destruct (Hall id c Hc) as [Hin|]; [|done]. by apply elem_of_nil in Hin.
  - split_and!; [done..| |].
    { intros k v Hin. by apply elem_of_kv_prefixed. }
    exists []. split_and!; [constructor|done|constructor|constructor|].
    intros id c Hc. left. pose proof (Genesis.exported_code_u64 a C id c Hc) as Hid.
    apply list_elem_of_fmap. exists (Uint64ToBigEndian id, marshal c). split; [done|].
    apply elem_of_kv_prefixed. etrans; [apply (Hr (KCode id)); done|]. simpl. by rewrite Hc.
Qed.

(** The codes the VM has after the payloads for [hs] went in. *)
Lemma restoreV1_stores h p t (Q : unit -> State -> Prop) :
  payload_of h p ->
  (forall v', api_GetCode v' h = api_GetCode (vm s) h ->
     (forall h', h' <> h -> api_GetCode v' h' = api_GetCode (vm t) h') -> Q tt (set_vm v' t)) ->
  swp (restoreV1 p) Q t.
Proof.
  intros (code & Hcode & Hp) HQ. pose proof (cache_size _ _ _ Hcode) as Hsz.
  destruct (gzip_roundtrip code Hsz) as (z & b & Ez & Hgz & Hlen & Hread).
  unfold GzipIt in Hp. rewrite Ez in Hp. injection Hp as <-.
  unfold restoreV1. rewrite Hgz. cbn [negb]. unfold Keeper.Uncompress.
  rewrite (proj2 (N.ltb_ge _ _)), Hread by done.
  rewrite (proj2 (N.ltb_ge _ _)), (proj2 (N.eqb_neq _ _))
    by (unfold small, MaxInt64 in *; lia). cbn [orb andb].
  unfold VM_StoreCodeUnchecked. twp_step. twp_step. apply swp_gets.
  destruct (cache_store (vm t) (vm s) h code Hcode) as (v' & Es & Hg & Ho). rewrite Es.
  twp_step. apply swp_modify. twp_step. twp_step. apply HQ; [congruence|done].
Qed.

Lemma process_items_stores hs ps t (Q : unit -> State -> Prop) :
  Forall2 payload_of hs ps -> NoDup hs ->
  (forall t', kv t' = kv t -> (forall h, h ∈ hs -> api_GetCode (vm t') h = api_GetCode (vm s) h) ->
     (forall h, h ∉ hs -> api_GetCode (vm t') h = api_GetCode (vm t) h) -> Q tt t') ->
  swp (process_items restoreV1 ps None) Q t.
Proof.
  intros HF. revert t Q. induction HF as [|h p hs ps Hp HF IH]; intros t Q HN HQ; cbn [process_items].
  { apply swp_ret, HQ; [done| |done]. intros h Hh. by apply elem_of_nil in Hh. }
  apply NoDup_cons in HN as [Hh HN]. twp_step. twp_step. eapply restoreV1_stores; [exact Hp|].
  intros v' Hv' Ho. apply IH; [done|]. intros t' Hkv Hin Hout. apply HQ; [done| |].
  - intros h' [->|Hh']%elem_of_cons; [|auto]. rewrite Hout by done. exact Hv'.
  - intros h' [Hne Hh']%not_elem_of_cons. rewrite Hout by done. by apply Ho.
Qed.

(** Pinning what is pinned changes no code. *)
Lemma finalizeV1_pins t (Q : unit -> State -> Prop) :
  kv t = kv s -> (forall h, is_checksum h -> api_GetCode (vm t) h = api_GetCode (vm s) h) ->
  (forall t', kv t' = kv s ->
     (forall h, is_checksum h -> api_GetCode (vm t') h = api_GetCode (vm s) h) -> Q tt t') ->
  swp finalizeV1 Q t.
Proof.
  intros Ht Hg HQ. unfold finalizeV1, Keeper.InitializePinnedCodes.
  apply (swp_iterate _ (fun l _ t' => kv t' = kv s
    /\ (forall h, is_checksum h -> api_GetCode (vm t') h = api_GetCode (vm s) h)
    /\ forall k v, (k, v) ∈ l -> kv s !! (PinnedCodeIndexPrefix ++ k) = Some v)).
  - done.
  - intros k v l [] t' (Hkv & Hc & Hl).
    destruct (Querier.entry_pinned a s Hr Hk k v (Hl k v ltac:(by left))) as (id & Hid & -> & Hp).
    destruct (coh_pinned a C id Hp) as [c Hci].
    twp_step. apply (swp_lift _ id); [by apply BigEndian_roundtrip|].
    twp_step. unfold GetCodeInfo. twp_step. twp_step. twp_step.
    change (GetCodeKey id) with (entry_key (KCode id)). rewrite Hkv, (Hr (KCode id)) by done.
    cbn [encode]. rewrite Hci. change (marshal <$> Some c) with (Some (marshal c)). cbv iota.
    destruct (sto_codes a St id c Hci). unfold MustUnmarshal. rewrite codec_roundtrip by done.
    twp_step. twp_step. twp_step. unfold VM_Pin. twp_step. twp_step. apply swp_gets.
    destruct (Hvm id c Hci) as [code Hcode].
    destruct (cache_pin (vm t') (CodeHash c) code) as (v' & Ep & Hv').
    { rewrite Hc; [done|]. by exists id, c. }
    simpl vm. rewrite Ep. twp_step. apply swp_modify. twp_step. twp_step. split; [done|].
    split_and!; [done| |].
    + intros h Hh. simpl. rewrite Hv'. auto.
    + intros k' v'' Hin. apply Hl. by right.
  - intros [] t' (Hkv & Hc & _). by apply HQ.
  - split_and!; [done..|]. intros k v Hin. rewrite Ht in Hin. by apply elem_of_kv_prefixed.
Qed.

(** C21: a snapshot restores the byte code of all contracts. Taking a snapshot
    writes exactly one payload for every checksum of the registry. On a node
    whose stores the chain's snapshot has restored, whatever codes its VM
    has, restoring the payloads succeeds, changes no store, and then the VM
    has the same byte code for every code of the registry as the VM of the
    node the snapshot was taken on. *)
Theorem snapshot_restores t :
  kv t = kv s ->
  exists payloads s', SnapshotExtension s = (Ret (payloads, None), s')
    /\ (exists hs, NoDup hs /\ Forall2 payload_of hs payloads /\ forall h, h ∈ hs <-> is_checksum h)
    /\ exists t', RestoreExtension SnapshotFormat payloads None t = (Ret tt, t')
       /\ kv t' = kv t
       /\ forall id c, codes a !! id = Some c ->
            api_GetCode (vm t') (CodeHash c) = api_GetCode (vm s) (CodeHash c).
Proof.
  intros Ht. destruct SnapshotExtension_payloads
    as ([payloads err] & s' & E & Herr & _ & hs & HN & HF & Hhs).
  simpl in Herr. subst err. exists payloads, s'. split; [done|]. split; [by exists hs|].
  assert (swp (RestoreExtension SnapshotFormat payloads None) (fun _ t' => kv t' = kv t
    /\ forall h, is_checksum h -> api_GetCode (vm t') h = api_GetCode (vm s) h) t) as Hrun.
  { unfold RestoreExtension. cbn [N.eqb SnapshotFormat Pos.eqb]. unfold processAllItems. twp_step.
    eapply process_items_stores; [exact HF|exact HN|]. intros t1 Hkv Hin _.
    apply finalizeV1_pins; [congruence| |].
    - intros h Hh. by apply Hin, Hhs.
    - intros t2 Hkv2 Hall. split; [congruence|done]. }
  destruct Hrun as ([] & t' & E' & Hkv & Hall). exists t'. split_and!; [done..|].
  intros id c Hc. apply Hall. by exists id, c.
Qed.

End Restore.

(** A payload for another format, one that is not compressed, and an error of
    the reader are refused. *)
Lemma RestoreExtension_errors format payloads err p t :
  (format <> SnapshotFormat ->
     RestoreExtension format payloads None t = (Fail ErrUnknownFormat, t))
  /\ RestoreExtension SnapshotFormat [] (Some err) t = (Fail err, t)
  /\ (Keeper.IsGzip p = false ->
     RestoreExtension SnapshotFormat (p :: payloads) None t
     = (Fail (Wrap (Wrap ErrInvalid "not a gzip") "processing snapshot item"), t)).
Proof.
  split_and!.
  - intros Hf. unfold RestoreExtension. by rewrite (proj2 (N.eqb_neq _ _) Hf).
  - done.
  - intros Hp. unfold RestoreExtension, processAllItems. simpl.
    unfold restoreV1, mbind, M_bind. by rewrite Hp.
Qed.

End Snapshots.
End Snapshots.
