(* ===== verification/RustVM.v ===== *)
(** libwasmvm (wasmvm/libwasmvm/src), the Rust library that Go calls through C:
    memory that crosses the border (memory.rs, with internal/api/memory.go on
    the other side), the backend it gives to the virtual machine on top of the
    callbacks (api.rs, storage.rs, iterator.rs, querier.rs), its errors
    (error/go.rs, error/rust.rs), and the functions it exports (cache.rs,
    calls.rs). The virtual machine itself is the crate cosmwasm-vm, which is a
    parameter: a running contract is any program over the backend. The library
    implements the interface of Bindings.v. *)
From S2P Require Import Prelude Errors GoStrings Json JsonPrint Types VMTypes GasRegister Chain Logic Engine Store Keeper QueryPlugins Relay Querier Options Bindings Snapshots.
Import GoStrings Json.Json.
Open Scope wasm_scope.

(** ** Memory (memory.rs, internal/api/memory.go) *)

Module Memory.

(** A slice as the other side sees it. Views borrow: the memory stays with
    its owner, so a view holds what its pointer points to. *)
Record SliceView := mkSliceView { v_is_nil : bool; v_data : bytes; v_len : N }.
(** Go: makeView; Rust: ByteSliceView::read. *)
Definition makeView (s : option bytes) : SliceView :=
  match s with
  | None => mkSliceView true [] 0
  | Some s => if Nat.eqb (length s) 0 then mkSliceView false [] 0 else mkSliceView false s (blen s)
  end.
Definition ByteSliceView_read (v : SliceView) : option bytes :=
  if v_is_nil v then None
  else Some (if (v_len v =? 0)%N then [] else take (N.to_nat (v_len v)) (v_data v)).

(** C.GoBytes(p, cint(n)): the length is a C int; a negative one panics. *)
Definition cint (n : N) : Z :=
  let m := Z.of_N (n mod two32) in if (m <? 2147483648)%Z then m else (m - 4294967296)%Z.
Definition GoBytes (data : bytes) (n : Z) : outcome bytes :=
  if (n <? 0)%Z then Panic (PRuntime "gobytes: length out of range") else Ret (take (Z.to_nat n) data).
(** Rust: U8SliceView::new; Go: copyU8Slice. *)
Definition U8SliceView_new (source : option bytes) : SliceView :=
  match source with Some data => mkSliceView false data (blen data) | None => mkSliceView true [] 0 end.
Definition copyU8Slice (view : SliceView) : outcome (option bytes) :=
  if v_is_nil view then Ret None
  else if (v_len view =? 0)%N then Ret (Some [])
  else obind (GoBytes (v_data view) (cint (v_len view))) (fun bs => Ret (Some bs)).

(** The buffers that were handed over as raw pointers and not taken back. *)
Abbreviation Heap := (gmap N bytes).
Record Vec := mkVec { contents : bytes; capacity : N }.
Record UnmanagedVector := mkUnmanagedVector { is_none : bool; ptr : option N; len : N; cap : N }.
Definition UnmanagedVector_new (source : option Vec) (h : Heap) : UnmanagedVector * Heap :=
  match source with
  | Some data =>
      if (capacity data =? 0)%N then (mkUnmanagedVector false None 0 0, h)
      else
        let p := fresh (dom h) in
        (mkUnmanagedVector false (Some p) (blen (contents data)) (capacity data), <[p := contents data]> h)
  | None => (mkUnmanagedVector true None 0 0, h)
  end.
(** Taking a vector back; [None] is undefined behaviour: its buffer is not
    there any more. *)
Definition consume (v : UnmanagedVector) (h : Heap) : option (option bytes * Heap) :=
  if is_none v then Some (None, h)
  else if (cap v =? 0)%N then Some (Some [], h)
  else p ← ptr v; data ← h !! p; Some (Some (take (N.to_nat (len v)) data), delete p h).
Definition destroy_unmanaged_vector (v : UnmanagedVector) (h : Heap) : option Heap :=
  '(_, h) ← consume v h; Some h.

(** A vector that Go asks Rust to make; a copy has no spare capacity. *)
Definition new_unmanaged_vector (nil : bool) (data : bytes) (length : N) (h : Heap) : UnmanagedVector * Heap :=
  if nil then UnmanagedVector_new None h
  else if (length =? 0)%N then UnmanagedVector_new (Some (mkVec [] 0)) h
  else UnmanagedVector_new (Some (mkVec (take (N.to_nat length) data) length)) h.
Definition newUnmanagedVector (data : option bytes) : Heap -> UnmanagedVector * Heap :=
  match data with
  | None => new_unmanaged_vector true [] 0
  | Some data => if Nat.eqb (length data) 0 then new_unmanaged_vector false [] 0
                 else new_unmanaged_vector false data (blen data)
  end.
(** What Go does with a vector it was given: a copy, and the vector is
    destroyed. The option is that of [consume]. *)
Definition copyAndDestroyUnmanagedVector (v : UnmanagedVector) (h : Heap) : option (outcome (option bytes) * Heap) :=
  out ← (if is_none v then Some (Ret None)
         else if (cap v =? 0)%N then Some (Ret (Some []))
         else p ← ptr v; data ← h !! p;
              Some (obind (GoBytes data (cint (len v))) (fun bs => Ret (Some bs))));
  match out with
  | Ret _ => h ← destroy_unmanaged_vector v h; Some (out, h)
  | _ => Some (out, h)
  end.

(** *** Nothing is lost at the border *)

Lemma cint_small n : (n < 2 ^ 31)%N -> cint n = Z.of_N n.
Proof.
  intros Hn. unfold cint. rewrite N.mod_small by (unfold two32; lia).
  destruct (Z.ltb_spec (Z.of_N n) 2147483648); [done|lia].
Qed.
Lemma GoBytes_whole bs : (blen bs < 2 ^ 31)%N -> GoBytes bs (cint (blen bs)) = Ret bs.
Proof.
  intros Hl. rewrite cint_small by done. unfold GoBytes, blen.
  destruct (Z.ltb_spec (Z.of_N (N.of_nat (length bs))) 0); [lia|].
  by rewrite take_ge by lia.
Qed.
Lemma take_blen bs : take (N.to_nat (blen bs)) bs = bs.
Proof. apply take_ge. unfold blen. lia. Qed.
Lemma blen_eqb_0 bs : (blen bs =? 0)%N = Nat.eqb (length bs) 0.
Proof. unfold blen. destruct bs; [done|]. apply N.eqb_neq. cbn [length]. lia. Qed.

Lemma fresh_dom (h : Heap) : h !! fresh (dom h) = None.
Proof. apply not_elem_of_dom, is_fresh. Qed.
Lemma taken_back (h : Heap) x : delete (fresh (dom h)) (<[fresh (dom h) := x]> h) = h.
Proof. apply delete_insert_id, fresh_dom. Qed.
(** Consuming a new vector gives its contents and the heap as it was. *)
Lemma consume_new source h :
  match source with Some v => (blen (contents v) <= capacity v)%N | None => True end ->
  consume (UnmanagedVector_new source h).1 (UnmanagedVector_new source h).2 = Some (contents <$> source, h).
Proof.
  destruct source as [[data c]|]; [|done]. cbn [contents capacity UnmanagedVector_new fmap option_fmap option_map].
  intros Hc. destruct (N.eqb_spec c 0) as [->|Hn].
  - destruct data; [done|]. unfold blen in Hc. cbn in Hc. lia.
  - unfold consume. cbn [fst snd is_none cap ptr len].
    rewrite (proj2 (N.eqb_neq c 0)) by done. cbn [mbind option_bind]. rewrite lookup_insert_eq. cbn [mbind option_bind].
    by rewrite take_blen, taken_back.
Qed.

Definition small (s : option bytes) : Prop := (blen (default [] s) < 2 ^ 31)%N.
(** C32: what one side hands over is what the other side gets, nil and empty
    slices apart included, and every buffer that was handed over is taken
    back. Vectors that Go copies must be below 2 GiB. *)
Theorem border_lossless :
  (forall s, ByteSliceView_read (makeView s) = s)
  /\ (forall s, small s -> copyU8Slice (U8SliceView_new s) = Ret s)
  /\ (forall data h, let '(v, h') := newUnmanagedVector data h in consume v h' = Some (data, h))
  /\ (forall source h, small (contents <$> source) ->
       match source with Some v => (blen (contents v) <= capacity v)%N | None => True end ->
       let '(v, h') := UnmanagedVector_new source h in
       copyAndDestroyUnmanagedVector v h' = Some (Ret (contents <$> source), h)).
Proof.
  split_and!.
  - intros [s|]; [|done]. unfold makeView, ByteSliceView_read. destruct s; [done|].
    cbn [length Nat.eqb v_is_nil v_len v_data]. rewrite blen_eqb_0. cbn [length Nat.eqb]. by rewrite take_blen.
  - intros [s|] Hs; [|done]. unfold copyU8Slice, U8SliceView_new. cbn [v_is_nil v_len v_data].
    rewrite blen_eqb_0. destruct s; [done|]. cbn [length Nat.eqb]. by rewrite GoBytes_whole.
  - intros [data|] h; [|done]. unfold newUnmanagedVector, new_unmanaged_vector.
    destruct data as [|b data]; [done|]. cbn [length Nat.eqb]. rewrite blen_eqb_0. cbn [length Nat.eqb].
    rewrite take_blen. pose proof (consume_new (Some (mkVec (b :: data) (blen (b :: data)))) h) as Hn.
    destruct (UnmanagedVector_new _ h) as [v h']. apply Hn. cbn [contents capacity]. lia.
  - intros source h Hs Hc. pose proof (consume_new source h Hc) as Hn.
    unfold copyAndDestroyUnmanagedVector, destroy_unmanaged_vector.
    destruct source as [[data c]|]; [|done].
    cbn [contents capacity UnmanagedVector_new fmap option_fmap option_map] in *.
    destruct (N.eqb_spec c 0) as [->|Hz].
    + destruct data; [done|]. unfold blen in Hc. cbn in Hc. lia.
    + cbn [fst snd is_none cap ptr len] in *. rewrite (proj2 (N.eqb_neq c 0)) by done.
      cbn [mbind option_bind]. rewrite lookup_insert_eq. cbn [mbind option_bind].
      rewrite GoBytes_whole by done. cbn [obind]. by rewrite Hn.
Qed.
(** A vector can be taken back once. *)
Lemma consume_once source h :
  let '(v, h') := UnmanagedVector_new source h in
  cap v <> 0%N -> exists data h'', consume v h' = Some (data, h'') /\ consume v h'' = None.
Proof.
  destruct source as [[data c]|]; [|by intros []]. unfold UnmanagedVector_new. cbn [contents capacity].
  destruct (N.eqb_spec c 0) as [->|Hz]; [by intros []|]. intros Hc. unfold consume. cbn [is_none cap ptr len] in *.
  rewrite (proj2 (N.eqb_neq c 0)) by done. cbn [mbind option_bind]. rewrite lookup_insert_eq. cbn [mbind option_bind].
  eexists _, _. split; [done|]. cbn [mbind option_bind]. by rewrite taken_back, fresh_dom.
Qed.
(** From 2 GiB on the copy panics, and the buffer is never freed. *)
Lemma large_vector_leaks data c h :
  (2 ^ 31 <= blen data < 2 ^ 32)%N -> (blen data <= c)%N ->
  let '(v, h') := UnmanagedVector_new (Some (mkVec data c)) h in
  exists p, copyAndDestroyUnmanagedVector v h' = Some (Panic p, h') /\ h' <> h.
Proof.
  intros Hd Hc. unfold UnmanagedVector_new. cbn [contents capacity].
  destruct (N.eqb_spec c 0) as [->|Hz]; [lia|]. unfold copyAndDestroyUnmanagedVector. cbn [is_none cap ptr len].
  rewrite (proj2 (N.eqb_neq c 0)) by done. cbn [mbind option_bind]. rewrite lookup_insert_eq. cbn [mbind option_bind].
  assert (cint (blen data) < 0)%Z as Hn.
  { unfold cint, two32. rewrite N.mod_small by lia.
    destruct (Z.ltb_spec (Z.of_N (blen data)) 2147483648); lia. }
  unfold GoBytes. rewrite (proj2 (Z.ltb_lt _ _)) by done. eexists. split; [done|].
  intros E. apply (f_equal (fun m : Heap => m !! fresh (dom h))) in E. by rewrite lookup_insert_eq, fresh_dom in E.
Qed.

End Memory.

(** ** Texts (core::str) *)

Module Utf8.
Import JsonPrint.
Local Open Scope N_scope.

(** One step of Utf8Chunks: whether a character starts here, and the bytes of
    the character or of the longest beginning of one. A byte beyond the end is
    read as 0. *)
Definition classify (lead : option (nat * N * N)) (safe_get : nat -> N) : bool * nat :=
  match lead with
  | None => (false, 1%nat)
  | Some (w, lo, hi) =>
      if Nat.eqb w 1 then (true, 1%nat)
      else if negb (in_range lo hi (safe_get 0%nat)) then (false, 1%nat)
      else if Nat.eqb w 2 then (true, 2%nat)
      else if negb (in_range 0x80 0xBF (safe_get 1%nat)) then (false, 2%nat)
      else if Nat.eqb w 3 then (true, 3%nat)
      else if negb (in_range 0x80 0xBF (safe_get 2%nat)) then (false, 3%nat)
      else (true, 4%nat)
  end.
Definition next_char (bs : bytes) : bool * nat :=
  match bs with
  | [] => (true, 0%nat)
  | x :: rest => classify (lead_info (Byte.to_N x)) (fun i => default 0 (Byte.to_N <$> rest !! i))
  end.
Fixpoint chunks (fuel : nat) (bs : bytes) : list (bool * bytes) :=
  match fuel, bs with
  | S fuel, _ :: _ => let '(ok, w) := next_char bs in (ok, take w bs) :: chunks fuel (drop w bs)
  | _, _ => []
  end.
(** String::from_utf8_lossy and String::from_utf8 *)
Definition replacement : bytes := [Byte.xef; Byte.xbf; Byte.xbd].
Definition shown (c : bool * bytes) : bytes := if c.1 then c.2 else replacement.
Definition from_utf8_lossy (bs : bytes) : bytes := concat (shown <$> chunks (length bs) bs).
Definition from_utf8 (bs : bytes) : bool := forallb fst (chunks (length bs) bs).

Lemma lead_info_width b w lo hi : lead_info b = Some (w, lo, hi) -> (w = 1 \/ w = 2 \/ w = 3 \/ w = 4)%nat.
Proof. unfold lead_info. repeat case_match; intros [= <- _ _]; auto. Qed.
Lemma lead_info_low b w lo hi : lead_info b = Some (w, lo, hi) -> 0x80 <= lo.
Proof. unfold lead_info. repeat case_match; intros [= _ <- _]; lia. Qed.
Lemma in_range_low lo hi b : in_range lo hi b = true -> lo <= b.
Proof. unfold in_range. by intros [?%N.leb_le _]%andb_true_iff. Qed.
Lemma next_char_width bs : bs <> [] -> (1 <= (next_char bs).2 <= length bs)%nat.
Proof.
  destruct bs as [|x rest]; [done|]. intros _. cbn [next_char length]. unfold classify.
  destruct (lead_info _) as [[[w lo] hi]|] eqn:El; [apply lead_info_low in El|cbn; lia].
  assert (forall l h i, 0x80 <= l -> in_range l h (default 0 (Byte.to_N <$> rest !! i)) = true ->
    (i < length rest)%nat) as Hi.
  { intros l h i Hl Hr%in_range_low. destruct (rest !! i) eqn:E; [by apply lookup_lt_Some in E|]. cbn in Hr. lia. }
  destruct (Nat.eqb w 1); [cbn; lia|].
  destruct (in_range lo hi _) eqn:E0; [apply Hi in E0; [|done]|cbn; lia]. cbn [negb].
  destruct (Nat.eqb w 2); [cbn; lia|].
  destruct (in_range _ _ (default 0 (Byte.to_N <$> rest !! 1%nat))) eqn:E1; [apply Hi in E1; [|done]|cbn; lia]. cbn [negb].
  destruct (Nat.eqb w 3); [cbn; lia|].
  destruct (in_range _ _ (default 0 (Byte.to_N <$> rest !! 2%nat))) eqn:E2; [apply Hi in E2; [|done]|]; cbn; lia.
Qed.
Lemma classify_ext lead c c' w :
  classify lead c = (true, w) -> (forall i, (S i < w)%nat -> c i = c' i) -> classify lead c' = (true, w).
Proof.
  unfold classify. destruct lead as [[[n lo] hi]|]; [|done]. destruct (Nat.eqb n 1); [done|].
  destruct (in_range lo hi (c 0%nat)) eqn:E0; [|done]. destruct (Nat.eqb n 2).
  { intros [= <-] Hc. rewrite <- Hc, E0 by lia. done. }
  destruct (in_range 0x80 0xBF (c 1%nat)) eqn:E1; [|done]. destruct (Nat.eqb n 3).
  { intros [= <-] Hc. rewrite <- !Hc, E0, E1 by lia. done. }
  destruct (in_range 0x80 0xBF (c 2%nat)) eqn:E2; [|done].
  intros [= <-] Hc. rewrite <- !Hc, E0, E1, E2 by lia. done.
Qed.
(** A character is found whatever follows it. *)
Lemma next_char_app p rest : p <> [] -> next_char p = (true, length p) -> next_char (p ++ rest) = (true, length p).
Proof.
  destruct p as [|x p]; [done|]. intros _ Hp. cbn [app next_char] in *. eapply classify_ext; [exact Hp|].
  intros i Hi. cbn [length] in Hi. by rewrite lookup_app_l by lia.
Qed.
(** Rust and Go agree on what a character is. *)
Lemma next_char_DecodeRune x rest :
  let '(ok, w) := next_char (x :: rest) in
  let '(r, w') := DecodeRune (x :: rest) in
  negb ((r =? RuneError) && Nat.eqb (length (take w' (x :: rest))) 1) = ok /\ (ok = true -> w = w').
Proof.
  cbn [next_char]. unfold DecodeRune.
  destruct (lead_info (Byte.to_N x)) as [[[w lo] hi]|] eqn:El; [|done].
  destruct (lead_info_width _ _ _ _ El) as [->|[->|[->| ->]]]; unfold classify; cbn [Nat.eqb].
  { unfold lead_info in El. destruct (N.ltb_spec (Byte.to_N x) 0x80); [|by repeat case_match].
    split; [|done]. rewrite (proj2 (N.eqb_neq _ _)) by (unfold RuneError; lia). done. }
  all: destruct rest as [|b1 [|b2 [|b3 rest]]]; cbn -[in_range RuneError N.lor N.shiftl N.land N.eqb Byte.to_N cont_bits];
    repeat match goal with
    | |- context [in_range ?l ?h ?b] => destruct (in_range l h b) eqn:?; cbn [negb andb]
    end; try (split; [by rewrite ?andb_false_r|done]).
  all: exfalso; repeat match goal with H : in_range _ _ _ = true |- _ => apply in_range_low in H end;
    apply lead_info_low in El; cbn in *; lia.
Qed.
Lemma chunks_runes fuel bs :
  (length bs <= fuel)%nat ->
  forallb fst (chunks fuel bs)
  = forallb (fun rb => negb ((rb.1 =? RuneError) && Nat.eqb (length rb.2) 1)) (runes_fuel fuel bs).
Proof.
  revert bs. induction fuel as [|fuel IH]; intros [|x rest] Hl; [done|cbn in Hl; lia|done|].
  cbn [chunks runes_fuel]. pose proof (next_char_DecodeRune x rest) as Hn.
  pose proof (next_char_width (x :: rest) ltac:(done)) as Hw.
  destruct (next_char (x :: rest)) as [ok w], (DecodeRune (x :: rest)) as [r w'].
  cbn [forallb fst snd] in *. destruct Hn as [-> Heq]. destruct ok; [|done].
  rewrite <- Heq by done. cbn [andb]. apply IH. rewrite length_drop. cbn [length] in *. lia.
Qed.
(** So both know the same texts. *)
Lemma from_utf8_Valid bs : from_utf8 bs = utf8_Valid bs.
Proof. by apply chunks_runes. Qed.

Definition character (p : bytes) : Prop := p <> [] /\ next_char p = (true, length p).
Lemma chunks_characters fuel ps :
  Forall character ps -> (length (concat ps) <= fuel)%nat -> forallb fst (chunks fuel (concat ps)) = true.
Proof.
  intros Hp. revert fuel. induction Hp as [|p ps [Hn Hc] _ IH]; intros fuel Hl; cbn [concat] in *.
  - by destruct fuel.
  - pose proof (next_char_app p (concat ps) Hn Hc) as Hc'. rewrite length_app in Hl.
    destruct p as [|x p]; [done|]. destruct fuel as [|fuel]; [cbn in Hl; lia|].
    cbn [app chunks] in *. rewrite Hc'. cbn [forallb fst andb].
    change (x :: p ++ concat ps) with ((x :: p) ++ concat ps). rewrite drop_app_length.
    apply IH. cbn [length] in Hl. lia.
Qed.
Lemma next_char_take bs w : next_char bs = (true, w) -> bs <> [] -> character (take w bs).
Proof.
  intros Hn Hb. pose proof (next_char_width bs Hb) as Hw. rewrite Hn in Hw. cbn [snd] in Hw.
  assert (length (take w bs) = w) as Hl by (rewrite length_take; lia).
  split; [intros E; rewrite E in Hl; cbn in Hl; lia|]. rewrite Hl.
  destruct bs as [|x rest]; [done|]. destruct w as [|w]; [lia|]. cbn [take next_char] in *.
  eapply classify_ext; [exact Hn|]. intros i Hi. by rewrite lookup_take_lt by lia.
Qed.
Lemma chunks_good fuel bs : Forall character (shown <$> chunks fuel bs).
Proof.
  revert bs. induction fuel as [|fuel IH]; intros [|x rest]; [by constructor..|].
  cbn [chunks]. destruct (next_char (x :: rest)) as [ok w] eqn:Hn. constructor; [|apply IH].
  destruct ok; [by apply next_char_take|]. split; [done|]. by vm_compute.
Qed.
(** A lossy conversion gives a text, and changes no text. *)
Lemma lossy_valid bs : utf8_Valid (from_utf8_lossy bs) = true.
Proof. rewrite <- from_utf8_Valid. apply chunks_characters; [apply chunks_good|done]. Qed.
Lemma chunks_concat fuel bs :
  (length bs <= fuel)%nat -> forallb fst (chunks fuel bs) = true -> concat (shown <$> chunks fuel bs) = bs.
Proof.
  revert bs. induction fuel as [|fuel IH]; intros [|x rest] Hl; [done|cbn in Hl; lia|done|].
  cbn [chunks]. pose proof (next_char_width (x :: rest) ltac:(done)) as Hw.
  destruct (next_char (x :: rest)) as [ok w]. cbn [forallb fst snd] in *. intros [-> Hv]%andb_true_iff.
  rewrite fmap_cons. cbn [concat shown fst snd]. rewrite IH by (done || rewrite length_drop; cbn [length] in *; lia).
  apply take_drop.
Qed.
Lemma lossy_id bs : utf8_Valid bs = true -> from_utf8_lossy bs = bs.
Proof. rewrite <- from_utf8_Valid. by apply chunks_concat. Qed.

End Utf8.

(** ** Errors and the backend of the virtual machine *)

(** What the crate cosmwasm-vm declares for its backends: the errors, the gas
    a call used, and the order of a scan. *)
Inductive BackendError :=
| ForeignPanic | BadArgument | InvalidUtf8 (msg : string) | IteratorDoesNotExist (id : N)
| OutOfGas | UnknownErr (msg : string) | UserErr (msg : string).
Record GasInfo := mkGasInfo { cost : N; externally_used : N }.
Definition with_cost (amount : N) : GasInfo := mkGasInfo amount 0.
Definition with_externally_used (amount : N) : GasInfo := mkGasInfo 0 amount.
Definition free : GasInfo := mkGasInfo 0 0.
Definition BackendResult (A : Type) : Type := ((A + BackendError) * GasInfo)%type.
Inductive Order := Ascending | Descending.
Definition order_i32 (o : Order) : Z := match o with Ascending => 1%Z | Descending => 2%Z end.
(** SystemResult<ContractResult<Binary>> of cosmwasm-std *)
Inductive SystemResult := SystemOk (r : bytes + string) | SystemErr (e : SysVariant).

(** What the virtual machine does while it runs a contract: calls of its
    backend, and in the end its result with the gas report of the instance, or
    a panic. *)
Inductive Backend (R : Type) :=
| BDone (res : R) (report : GasReport)
| BPanic
| BGet (key : bytes) (c : BackendResult (option bytes) -> Backend R)
| BScan (start stop : option bytes) (order : Order) (c : BackendResult N -> Backend R)
| BNext (iterator_id : N) (c : BackendResult (option (bytes * bytes)) -> Backend R)
| BNextKey (iterator_id : N) (c : BackendResult (option bytes) -> Backend R)
| BNextValue (iterator_id : N) (c : BackendResult (option bytes) -> Backend R)
| BSet (key value : bytes) (c : BackendResult unit -> Backend R)
| BRemove (key : bytes) (c : BackendResult unit -> Backend R)
| BCanonicalize (human : string) (c : BackendResult bytes -> Backend R)
| BHumanize (canonical : bytes) (c : BackendResult string -> Backend R)
| BValidate (input : string) (c : BackendResult unit -> Backend R)
| BQuery (request : bytes) (gas_limit : N) (c : BackendResult SystemResult -> Backend R).
Arguments BDone {_}.
Arguments BPanic {_}.
Arguments BGet {_}.
Arguments BScan {_}.
Arguments BNext {_}.
Arguments BNextKey {_}.
Arguments BNextValue {_}.
Arguments BSet {_}.
Arguments BRemove {_}.
Arguments BCanonicalize {_}.
Arguments BHumanize {_}.
Arguments BValidate {_}.
Arguments BQuery {_}.

(** The errors of the virtual machine: running out of gas, and the rest with
    its text. *)
Inductive VmError := GasDepletion | OtherVmError (msg : string).

(** The crates that libwasmvm uses: cosmwasm-vm, serde_json, rmp_serde and hex,
    and the formatting of strings for debugging, which needs Unicode tables.
    A function that may panic returns an option. *)
Record VmAnalysisReport := mkVmAnalysisReport {
  vm_has_ibc_entry_points : bool;
  (* sets, in the order in which they are listed *)
  vm_entrypoints : list string;
  vm_required_capabilities : list string;
  vm_contract_migrate_version : option N;
}.
Class CosmwasmVM `{Modules} := {
  Config : Type;
  json_Config : bytes -> Config + string;
  Cache_new_with_config : Config -> option (VMState + VmError);
  Cache_save_wasm : VMState -> bytes -> option (bytes + VmError) * VMState;
  Cache_save_wasm_unchecked : VMState -> bytes -> option (bytes + VmError) * VMState;
  Cache_remove_wasm : VMState -> bytes -> option (unit + VmError) * VMState;
  Cache_load_wasm : VMState -> bytes -> option (bytes + VmError);
  Cache_pin : VMState -> bytes -> option (unit + VmError) * VMState;
  Cache_unpin : VMState -> bytes -> option (unit + VmError) * VMState;
  Cache_analyze : VMState -> bytes -> option (VmAnalysisReport + VmError);
  Cache_metrics : VMState -> option Metrics;
  Cache_pinned_metrics : VMState -> option (list PerModuleEntry);
  msgpack_to_vec : list PerModuleEntry -> bytes + string;
  Instance : Type;
  (* checksum and gas limit *)
  Cache_get_instance : VMState -> bytes -> N -> option (Instance + VmError);
  call_instantiate_raw : Instance -> bytes -> bytes -> bytes -> Backend (bytes + VmError);
  call_execute_raw : Instance -> bytes -> bytes -> bytes -> Backend (bytes + VmError);
  call_migrate_raw : Instance -> bytes -> bytes -> Backend (bytes + VmError);
  call_migrate_with_info_raw : Instance -> bytes -> bytes -> bytes -> Backend (bytes + VmError);
  call_sudo_raw : Instance -> bytes -> bytes -> Backend (bytes + VmError);
  call_reply_raw : Instance -> bytes -> bytes -> Backend (bytes + VmError);
  call_query_raw : Instance -> bytes -> bytes -> Backend (bytes + VmError);
  call_ibc_channel_open_raw : Instance -> bytes -> bytes -> Backend (bytes + VmError);
  call_ibc_channel_connect_raw : Instance -> bytes -> bytes -> Backend (bytes + VmError);
  call_ibc_channel_close_raw : Instance -> bytes -> bytes -> Backend (bytes + VmError);
  call_ibc_packet_receive_raw : Instance -> bytes -> bytes -> Backend (bytes + VmError);
  call_ibc_packet_ack_raw : Instance -> bytes -> bytes -> Backend (bytes + VmError);
  call_ibc_packet_timeout_raw : Instance -> bytes -> bytes -> Backend (bytes + VmError);
  call_ibc_source_callback_raw : Instance -> bytes -> bytes -> Backend (bytes + VmError);
  call_ibc_destination_callback_raw : Instance -> bytes -> bytes -> Backend (bytes + VmError);
  json_SystemResult : bytes -> SystemResult + string;
  FromUtf8Error : bytes -> string;
  encode_upper : bytes -> string;
  debug_str : option bytes -> string;
  (* Go: the text of an errno, and the decoding of the pinned metrics *)
  go_Errno_Error : N -> string;
  go_UnmarshalMessagePack : bytes -> list PerModuleEntry + string;
}.

Module Rust.
Import Utf8.
Abbreviation lossy bs := (string_of_bytes (from_utf8_lossy bs)).

(** *** Status codes of the callbacks (error/go.rs) *)

(** What Go returns, as bindings.h numbers it. *)
Definition status (e : GoError) : Z :=
  match e with
  | GoError_None => 0 | GoError_Panic => 1 | GoError_BadArgument => 2 | GoError_OutOfGas => 3
  | GoError_CannotSerialize => 4 | GoError_User => 5
  end%Z.
Inductive GoErr :=
| Go_None | Go_Panic | Go_BadArgument | Go_OutOfGas | Go_CannotSerialize | Go_User | Go_Other.
Definition GoError_from (n : Z) : GoErr :=
  match n with
  | 0 => Go_None | 1 => Go_Panic | 2 => Go_BadArgument | 3 => Go_OutOfGas
  | 4 => Go_CannotSerialize | 5 => Go_User | _ => Go_Other
  end%Z.
Definition MAX_ERROR_LEN : N := 8 * 1024.
(** [None] is success. *)
Definition into_result (self : GoErr) (error_msg : option bytes) (default_error_msg : string)
    : option BackendError :=
  let build_error_msg :=
    match error_msg with
    | Some data => lossy (take (N.to_nat MAX_ERROR_LEN) data)
    | None => default_error_msg
    end in
  match self with
  | Go_None => None
  | Go_Panic => Some ForeignPanic
  | Go_BadArgument => Some BadArgument
  | Go_OutOfGas => Some OutOfGas
  | Go_User => Some (UserErr build_error_msg)
  | Go_CannotSerialize | Go_Other => Some (UnknownErr build_error_msg)
  end.
(** [if let Err(err) = go_error.into_result(error_msg, default) { return (Err(err), gas_info) }] *)
Definition checked {A} (code : GoError) (error_msg : option bytes) (default_error_msg : string)
    (gas_info : GasInfo) (result : A + BackendError) : BackendResult A :=
  match into_result (GoError_from (status code)) error_msg default_error_msg with
  | Some err => (inr err, gas_info)
  | None => (result, gas_info)
  end.
Definition ok_or_unset {A} (output : option A) : A + BackendError :=
  match output with Some x => inl x | None => inr (UnknownErr "Unset output") end.

(** *** Results of queries as JSON (wasmvm/types/queries.go, systemerror.go) *)

Import Args QueryPlugins.
Definition json_QueryResult (q : QueryResult) : json :=
  match QR_Ok q, QR_Err q with
  | [], EmptyString => JObject [jfield "ok" (jstring "")]
  | _, _ => JObject (jomit_bytes "ok" (QR_Ok q) ++ jomitempty "error" (QR_Err q))
  end.
Definition jomitzero (name : string) (n : N) : list (bytes * json) :=
  if (n =? 0)%N then [] else [jfield name (jnumber n)].
Definition json_SystemError (e : SystemError) : json :=
  JObject (
    jomit "invalid_request" (fun r : string * bytes =>
      JObject [jfield "error" (jstring r.1); jfield "request" (jbytes r.2)]) (seInvalidRequest e)
    ++ jomit "invalid_response" (fun r : string * bytes =>
      JObject [jfield "error" (jstring r.1); jfield "response" (jbytes r.2)]) (seInvalidResponse e)
    ++ jomit "no_such_contract" (fun a => JObject (jomitempty "addr" a)) (seNoSuchContract e)
    ++ jomit "no_such_code" (fun id => JObject (jomitzero "code_id" id)) (seNoSuchCode e)
    ++ jomit "unknown" (fun _ => JObject []) (seUnknown e)
    ++ jomit "unsupported_request" (fun k => JObject (jomitempty "kind" k)) (seUnsupportedRequest e)).
Definition json_QuerierResult (r : QuerierResult) : json :=
  JObject (jomit "ok" json_QueryResult (Querier_Ok r) ++ jomit "error" json_SystemError (Querier_Err r)).

Section Backend.
Context `{Modules, !CosmwasmVM}.
Local Open Scope string_scope.
Abbreviation cat := String.append.

(** *** Addresses (api.rs) *)

Definition GoApi_addr_canonicalize {R} (human : string) (k : BackendResult bytes -> Prog R) : Prog R :=
  VCanonicalize human (fun code used_gas output error_msg =>
    k (checked code error_msg (cat "Failed to canonicalize the address: " human) (with_cost used_gas)
         (ok_or_unset output))).
Definition GoApi_addr_humanize {R} (canonical : bytes) (k : BackendResult string -> Prog R) : Prog R :=
  VHumanize canonical (fun code used_gas output error_msg =>
    k (checked code error_msg (cat "Failed to humanize the address: " (encode_upper canonical)) (with_cost used_gas)
         (match ok_or_unset output with
          | inr err => inr err
          | inl human_data => if from_utf8 human_data then inl (string_of_bytes human_data)
                              else inr (InvalidUtf8 (FromUtf8Error human_data))
          end))).
Definition GoApi_addr_validate {R} (input : string) (k : BackendResult unit -> Prog R) : Prog R :=
  VValidate input (fun code used_gas error_msg =>
    k (checked code error_msg (cat "Failed to validate the address: " input) (with_cost used_gas) (inl tt))).

(** *** Iterators (iterator.rs) *)

(** Of a GoIter the library keeps the reference that Go gave it; the functions
    behind it are always those of Go. The callbacks set no message here. *)
Definition next_default : string := "Failed to fetch next item from iterator".
Definition GoIter_next {R} (reference : N) (k : BackendResult (option (bytes * bytes)) -> Prog R) : Prog R :=
  VNext reference (fun code used_gas entry =>
    let output_key := fst <$> entry in
    let output_value := snd <$> entry in
    k (checked code None next_default (with_externally_used used_gas)
         (match output_key with
          | Some key =>
              match output_value with
              | Some value => inl (Some (key, value))
              | None => inr (UnknownErr "Failed to read value while reading the next key in the db")
              end
          | None => inl None
          end))).
Definition next_key_or_val {R} (k : BackendResult (option bytes) -> Prog R) (code : GoError) (used_gas : N)
    (output : option bytes) : Prog R :=
  k (checked code None next_default (with_externally_used used_gas) (inl output)).
Definition GoIter_next_key {R} (reference : N) (k : BackendResult (option bytes) -> Prog R) : Prog R :=
  VNextKey reference (next_key_or_val k).
Definition GoIter_next_value {R} (reference : N) (k : BackendResult (option bytes) -> Prog R) : Prog R :=
  VNextValue reference (next_key_or_val k).

(** *** Storage (storage.rs) *)

(** The iterators of a call, under ids of 32 bits. *)
Abbreviation GoStorage := (gmap N N).
(** A panic ends the call; the gas report is as Go has set it up. *)
Definition unwind {R} : Prog (option R) := VDone None (mkGasReport 0 0 0 0).
Definition GoStorage_get {R} (key : bytes) (k : BackendResult (option bytes) -> Prog R) : Prog R :=
  VGet key (fun code used_gas output =>
    k (checked code None (cat "Failed to read a key in the db: " (lossy key)) (with_externally_used used_gas)
         (inl output))).
Definition GoStorage_scan {R} (iterators : GoStorage) (start stop : option bytes) (order : Order)
    (k : BackendResult N -> GoStorage -> Prog (option R)) : Prog (option R) :=
  VScan start stop (order_i32 order) (fun code used_gas reference error_msg =>
    let gas_info := with_externally_used used_gas in
    match into_result (GoError_from (status code)) error_msg
            (cat "Failed to read the next key between " (cat (debug_str start) (cat " and " (debug_str stop)))) with
    | Some err => k (inr err, gas_info) iterators
    | None =>
        let next_id := N.of_nat (size iterators) in
        if (two32 <=? next_id)%N then unwind
        else k (inl next_id, gas_info) (<[next_id := reference]> iterators)
    end).
Definition with_iterator {A R} (iterators : GoStorage) (iterator_id : N)
    (next : N -> (BackendResult A -> Prog R) -> Prog R) (k : BackendResult A -> Prog R) : Prog R :=
  match iterators !! iterator_id with
  | None => k (inr (IteratorDoesNotExist iterator_id), free)
  | Some iterator => next iterator k
  end.
Definition GoStorage_next {R} (iterators : GoStorage) (iterator_id : N)
    : (BackendResult (option (bytes * bytes)) -> Prog R) -> Prog R :=
  with_iterator iterators iterator_id GoIter_next.
Definition GoStorage_next_key {R} (iterators : GoStorage) (iterator_id : N)
    : (BackendResult (option bytes) -> Prog R) -> Prog R :=
  with_iterator iterators iterator_id GoIter_next_key.
Definition GoStorage_next_value {R} (iterators : GoStorage) (iterator_id : N)
    : (BackendResult (option bytes) -> Prog R) -> Prog R :=
  with_iterator iterators iterator_id GoIter_next_value.
Definition GoStorage_set {R} (key value : bytes) (k : BackendResult unit -> Prog R) : Prog R :=
  VSet key value (fun code used_gas =>
    k (checked code None (cat "Failed to set a key in the db: " (lossy key)) (with_externally_used used_gas) (inl tt))).
Definition GoStorage_remove {R} (key : bytes) (k : BackendResult unit -> Prog R) : Prog R :=
  VDelete key (fun code used_gas =>
    k (checked code None (cat "Failed to delete a key in the db: " (lossy key)) (with_externally_used used_gas) (inl tt))).

(** *** Queries (querier.rs) *)

Definition sys_result (bin_result : bytes) : SystemResult :=
  match json_SystemResult bin_result with
  | inl r => r
  | inr e => SystemErr (InvalidResponse (cat "Parsing Go response: " e) bin_result)
  end.
Definition GoQuerier_query_raw {R} (request : bytes) (gas_limit : N) (k : BackendResult SystemResult -> Prog R) : Prog R :=
  VQuery request gas_limit (fun code used_gas res =>
    let output := Marshal ∘ json_QuerierResult <$> res in
    k (checked code None (cat "Failed to query another contract with this request: " (lossy request))
         (with_externally_used used_gas) (inl (sys_result (default [] output))))).

(** *** The backend of an instance (calls.rs, into_backend) *)

Fixpoint into_backend {R} (iterators : GoStorage) (p : Backend R) : Prog (option R) :=
  match p with
  | BDone res report => VDone (Some res) report
  | BPanic => unwind
  | BGet key c => GoStorage_get key (fun r => into_backend iterators (c r))
  | BScan start stop order c =>
      GoStorage_scan iterators start stop order (fun r iterators => into_backend iterators (c r))
  | BNext id c => GoStorage_next iterators id (fun r => into_backend iterators (c r))
  | BNextKey id c => GoStorage_next_key iterators id (fun r => into_backend iterators (c r))
  | BNextValue id c => GoStorage_next_value iterators id (fun r => into_backend iterators (c r))
  | BSet key value c => GoStorage_set key value (fun r => into_backend iterators (c r))
  | BRemove key c => GoStorage_remove key (fun r => into_backend iterators (c r))
  | BCanonicalize human c => GoApi_addr_canonicalize human (fun r => into_backend iterators (c r))
  | BHumanize canonical c => GoApi_addr_humanize canonical (fun r => into_backend iterators (c r))
  | BValidate input c => GoApi_addr_validate input (fun r => into_backend iterators (c r))
  | BQuery request gas_limit c => GoQuerier_query_raw request gas_limit (fun r => into_backend iterators (c r))
  end.

(** *** Errors of the library (error/rust.rs) *)

Inductive RustError :=
| EmptyArg (name : string) | InvalidUtf8Error (msg : string) | MessagePack (msg : string) | JsonError (msg : string)
| RustOutOfGas | RustPanic | UnsetArg (name : string) | ChecksumError | VmErr (msg : string).
Definition RustError_Display (e : RustError) : string :=
  match e with
  | EmptyArg name => cat "Empty argument: " name
  | InvalidUtf8Error msg => cat "Cannot decode UTF8 bytes into string: " msg
  | MessagePack msg => cat "Cannot deserialize from MessagePack: " msg
  | JsonError msg => cat "Cannot serialize to / deserialize from JSON: " msg
  | RustOutOfGas => "Ran out of gas"
  | RustPanic => "Caught panic"
  | UnsetArg name => cat "Null/Nil argument: " name
  | ChecksumError => "Checksum not of length 32"
  | VmErr msg => cat "Error calling the VM: " msg
  end.
Definition RustError_from_VmError (source : VmError) : RustError :=
  match source with GasDepletion => RustOutOfGas | OtherVmError msg => VmErr msg end.

(** errno and the error message after a call. The message stays as Go has set
    it up, which is an empty vector, unless there is an error. *)
Definition clear_error : N * option bytes := (0%N, Some []).
Definition set_error (err : RustError) : N * option bytes :=
  (match err with RustOutOfGas => 2%N | _ => 1%N end, Some (bytes_of_string (RustError_Display err))).
Definition handle_c_error_ptr {A} (result : A + RustError) : (N * option bytes) * option A :=
  match result with inl value => (clear_error, Some value) | inr error => (set_error error, None) end.
Definition handle_c_error_binary (result : bytes + RustError) : CResult :=
  match result with
  | inl value => mkCResult clear_error.1 (Some value) clear_error.2
  | inr error => mkCResult (set_error error).1 (Some []) (set_error error).2
  end.
Definition handle_c_error_default {A} (default : A) (result : A + RustError) : A * (N * option bytes) :=
  match result with inl value => (value, clear_error) | inr error => (default, set_error error) end.

(** The [?] operator, with the conversion of the errors of the VM. *)
Definition vm_try {A B} (r : A + VmError) (f : A -> B + RustError) : B + RustError :=
  match r with inl a => f a | inr e => inr (RustError_from_VmError e) end.
Definition read_arg {A} (view : option bytes) (name : string) (f : bytes -> A + RustError) : A + RustError :=
  match view with Some bs => f bs | None => inr (UnsetArg name) end.
Definition read_checksum {A} (view : option bytes) (f : bytes -> A + RustError) : A + RustError :=
  read_arg view "checksum" (fun bs => if Nat.eqb (length bs) 32 then f bs else inr ChecksumError).

(** *** The cache (cache.rs) *)

(** catch_unwind around a function that may panic *)
Definition catch_unwind {A} (r : option (A + RustError)) : A + RustError :=
  match r with Some r => r | None => inr RustPanic end.
(** to_cache: the cache behind a pointer that may be null *)
Definition to_cache {A} (cache : option VMState) (f : VMState -> A + RustError) : A + RustError :=
  match cache with Some c => f c | None => inr (UnsetArg "cache") end.
Definition or_panic {A B} (r : option A) (f : A -> B + RustError) : option (B + RustError) := f <$> r.

Definition init_cache (config : option bytes) : (N * option bytes) * option VMState :=
  handle_c_error_ptr (read_arg config "config" (fun config =>
    match json_Config config with
    | inr e => inr (JsonError e)
    | inl config => catch_unwind (or_panic (Cache_new_with_config config) (fun r => vm_try r inl))
    end)).

(** A function of the cache that changes it, run when the checksum is one. *)
Definition on_checksum {A} (cache : option VMState) (checksum : option bytes)
    (f : VMState -> bytes -> option (A + VmError) * VMState) : (A + RustError) * option VMState :=
  match cache with
  | None => (inr (UnsetArg "cache"), None)
  | Some c =>
      match read_checksum checksum inl with
      | inr e => (inr e, Some c)
      | inl checksum =>
          let '(r, c) := f c checksum in (catch_unwind (or_panic r (fun r => vm_try r inl)), Some c)
      end
  end.
Definition save_wasm (cache : option VMState) (wasm : option bytes) (unchecked : bool) : CResult * option VMState :=
  match cache, wasm with
  | None, _ => (handle_c_error_binary (inr (UnsetArg "cache")), None)
  | Some c, None => (handle_c_error_binary (inr (UnsetArg "wasm")), Some c)
  | Some c, Some wasm =>
      let '(r, c) := if unchecked then Cache_save_wasm_unchecked c wasm else Cache_save_wasm c wasm in
      (handle_c_error_binary (catch_unwind (or_panic r (fun r => vm_try r inl))), Some c)
  end.
Definition remove_wasm (cache : option VMState) (checksum : option bytes) : (N * option bytes) * option VMState :=
  let '(r, c) := on_checksum cache checksum Cache_remove_wasm in ((handle_c_error_default tt r).2, c).
Definition load_wasm (cache : option VMState) (checksum : option bytes) : CResult :=
  handle_c_error_binary (to_cache cache (fun c => read_checksum checksum (fun checksum =>
    catch_unwind (or_panic (Cache_load_wasm c checksum) (fun r => vm_try r inl))))).
Definition pin (cache : option VMState) (checksum : option bytes) : (N * option bytes) * option VMState :=
  let '(r, c) := on_checksum cache checksum Cache_pin in ((handle_c_error_default tt r).2, c).
Definition unpin (cache : option VMState) (checksum : option bytes) : (N * option bytes) * option VMState :=
  let '(r, c) := on_checksum cache checksum Cache_unpin in ((handle_c_error_default tt r).2, c).

(** A comma-separated list of the elements, in their order. *)
Fixpoint set_to_csv (set : list string) : string :=
  match set with
  | [] => ""
  | [e] => e
  | e :: set => cat e (cat "," (set_to_csv set))
  end.
Definition AnalysisReport_default : CAnalysisReport := mkCAnalysisReport false None None None.
Definition AnalysisReport_from (report : VmAnalysisReport) : CAnalysisReport :=
  mkCAnalysisReport (vm_has_ibc_entry_points report)
    (Some (bytes_of_string (set_to_csv (vm_required_capabilities report))))
    (Some (bytes_of_string (set_to_csv (vm_entrypoints report))))
    (vm_contract_migrate_version report).
Definition analyze_code (cache : option VMState) (checksum : option bytes) : CAnalysisReport * (N * option bytes) :=
  handle_c_error_default AnalysisReport_default (to_cache cache (fun c => read_checksum checksum (fun checksum =>
    catch_unwind (or_panic (Cache_analyze c checksum) (fun r => vm_try r (fun report => inl (AnalysisReport_from report))))))).
Definition Metrics_default : Metrics := mkMetrics 0 0 0 0 0 0 0 0.
Definition get_metrics (cache : option VMState) : Metrics * (N * option bytes) :=
  handle_c_error_default Metrics_default (to_cache cache (fun c => catch_unwind (or_panic (Cache_metrics c) inl))).
Definition get_pinned_metrics (cache : option VMState) : CResult :=
  let '(v, (errno, errmsg)) := handle_c_error_default None (to_cache cache (fun c =>
    catch_unwind (or_panic (Cache_pinned_metrics c) (fun metrics =>
      match msgpack_to_vec metrics with inl v => inl (Some v) | inr e => inr (MessagePack e) end)))) in
  mkCResult errno v errmsg.

(** *** Calls of contracts (calls.rs) *)

(** What do_call_2_args and do_call_3_args share: the instance is made before
    the call, and an error there leaves the gas report as it was. *)
Definition failed {R} (e : RustError) : Prog (option (R + RustError)) := VDone (Some (inr e)) (mkGasReport 0 0 0 0).
Definition do_call (cache : VMState) (checksum : bytes) (gas_limit : N)
    (vm_fn : Instance -> Backend (bytes + VmError)) : Prog (option (bytes + RustError)) :=
  match Cache_get_instance cache checksum gas_limit with
  | None => unwind
  | Some (inr e) => failed (RustError_from_VmError e)
  | Some (inl instance) =>
      prog_map (fmap (fun res => vm_try res inl)) (into_backend ∅ (vm_fn instance))
  end.
Definition finish (p : Prog (option (bytes + RustError))) : Prog CResult :=
  prog_map (fun r => handle_c_error_binary (catch_unwind r)) p.
Definition call_2_args (vm_fn : Instance -> bytes -> bytes -> Backend (bytes + VmError)) (cache : option VMState)
    (checksum arg1 arg2 : option bytes) (gas_limit : N) (print_debug : bool) : Prog CResult :=
  finish (
    match to_cache cache inl with
    | inr e => failed e
    | inl c =>
        match read_checksum checksum inl, read_arg arg1 "arg1" inl, read_arg arg2 "arg2" inl with
        | inr e, _, _ | inl _, inr e, _ | inl _, inl _, inr e => failed e
        | inl checksum, inl arg1, inl arg2 =>
            do_call c checksum gas_limit (fun instance => vm_fn instance arg1 arg2)
        end
    end).
Definition call_3_args (vm_fn : Instance -> bytes -> bytes -> bytes -> Backend (bytes + VmError)) (cache : option VMState)
    (checksum arg1 arg2 arg3 : option bytes) (gas_limit : N) (print_debug : bool) : Prog CResult :=
  finish (
    match to_cache cache inl with
    | inr e => failed e
    | inl c =>
        match read_checksum checksum inl, read_arg arg1 "arg1" inl, read_arg arg2 "arg2" inl, read_arg arg3 "arg3" inl with
        | inr e, _, _, _ | inl _, inr e, _, _ | inl _, inl _, inr e, _ | inl _, inl _, inl _, inr e => failed e
        | inl checksum, inl arg1, inl arg2, inl arg3 =>
            do_call c checksum gas_limit (fun instance => vm_fn instance arg1 arg2 arg3)
        end
    end).
Definition instantiate := call_3_args call_instantiate_raw.
Definition execute := call_3_args call_execute_raw.
Definition migrate := call_2_args call_migrate_raw.
Definition migrate_with_info := call_3_args call_migrate_with_info_raw.
Definition sudo := call_2_args call_sudo_raw.
Definition reply := call_2_args call_reply_raw.
Definition query := call_2_args call_query_raw.
Definition ibc_channel_open := call_2_args call_ibc_channel_open_raw.
Definition ibc_channel_connect := call_2_args call_ibc_channel_connect_raw.
Definition ibc_channel_close := call_2_args call_ibc_channel_close_raw.
Definition ibc_packet_receive := call_2_args call_ibc_packet_receive_raw.
Definition ibc_packet_ack := call_2_args call_ibc_packet_ack_raw.
Definition ibc_packet_timeout := call_2_args call_ibc_packet_timeout_raw.
Definition ibc_source_callback := call_2_args call_ibc_source_callback_raw.
Definition ibc_destination_callback := call_2_args call_ibc_destination_callback_raw.

(** *** The library behind the interface of Bindings.v *)

(** Arguments are views of slices that are not nil. *)
Definition changed {A} (c : VMState) (r : A * option VMState) : A * VMState := (r.1, default c r.2).
#[export] Instance libwasmvm : LibWasmVM := {|
  C_init_cache config := init_cache (Some config);
  C_save_wasm c wasm unchecked := changed c (save_wasm (Some c) (Some wasm) unchecked);
  C_remove_wasm c checksum := changed c (remove_wasm (Some c) (Some checksum));
  C_load_wasm c checksum := load_wasm (Some c) (Some checksum);
  C_pin c checksum := changed c (pin (Some c) (Some checksum));
  C_unpin c checksum := changed c (unpin (Some c) (Some checksum));
  C_analyze_code c checksum := analyze_code (Some c) (Some checksum);
  C_get_metrics c := get_metrics (Some c);
  C_get_pinned_metrics c := get_pinned_metrics (Some c);
  C_instantiate c checksum env info msg := instantiate (Some c) (Some checksum) (Some env) (Some info) (Some msg);
  C_execute c checksum env info msg := execute (Some c) (Some checksum) (Some env) (Some info) (Some msg);
  C_migrate c checksum env msg := migrate (Some c) (Some checksum) (Some env) (Some msg);
  C_migrate_with_info c checksum env msg info :=
    migrate_with_info (Some c) (Some checksum) (Some env) (Some msg) (Some info);
  C_sudo c checksum env msg := sudo (Some c) (Some checksum) (Some env) (Some msg);
  C_reply c checksum env msg := reply (Some c) (Some checksum) (Some env) (Some msg);
  C_query c checksum env msg := query (Some c) (Some checksum) (Some env) (Some msg);
  C_ibc_channel_open c checksum env msg := ibc_channel_open (Some c) (Some checksum) (Some env) (Some msg);
  C_ibc_channel_connect c checksum env msg := ibc_channel_connect (Some c) (Some checksum) (Some env) (Some msg);
  C_ibc_channel_close c checksum env msg := ibc_channel_close (Some c) (Some checksum) (Some env) (Some msg);
  C_ibc_packet_receive c checksum env msg := ibc_packet_receive (Some c) (Some checksum) (Some env) (Some msg);
  C_ibc_packet_ack c checksum env msg := ibc_packet_ack (Some c) (Some checksum) (Some env) (Some msg);
  C_ibc_packet_timeout c checksum env msg := ibc_packet_timeout (Some c) (Some checksum) (Some env) (Some msg);
  C_ibc_source_callback c checksum env msg := ibc_source_callback (Some c) (Some checksum) (Some env) (Some msg);
  C_ibc_destination_callback c checksum env msg :=
    ibc_destination_callback (Some c) (Some checksum) (Some env) (Some msg);
  Errno_Error := go_Errno_Error;
  UnmarshalMessagePack := go_UnmarshalMessagePack;
|}.

End Backend.

(** ** What a contract sees through both sides of the border *)

(** The specification: the backend of the virtual machine on the store of the
    contract, with one list of iterators. *)
Section Seen.
Context `{GasMeters, Modules, KVStorePkg, Bech32, ErrorsMod, !CosmwasmVM}.
Context (gm : CallMeters).
Context (prefix : bytes) (rust_query : bytes -> N -> M QuerierResult).

(** An operation of the chain with the gas it used; out of gas and panics
    become errors that abort the contract. *)
Definition attempt {A} (body : M (N * A)) : M (BackendResult A) :=
  o ← reify body;
  match o with
  | Ret (used, a) => mret (inl a, with_externally_used used)
  | Panic PFuel => throw PFuel
  | Panic (POutOfGas _) => mret (inr OutOfGas, free)
  | Panic _ | Fail _ => mret (inr ForeignPanic, free)
  end.
(** The text of an error that goes back to the contract. *)
Definition reported (err : error) : BackendError :=
  UserErr (lossy (take (N.to_nat MAX_ERROR_LEN) (bytes_of_string (error_string err)))).
Definition seen_canonicalize (human : string) : BackendResult bytes :=
  match canonicalizeAddress human with
  | (inl c, used) => (if decide (c = []) then inr ForeignPanic else inl c, with_cost used)
  | (inr err, used) => (inr (reported err), with_cost used)
  end.
Definition seen_humanize (canonical : bytes) : BackendResult string :=
  match humanizeAddress canonical with
  | (inl h, used) =>
      (if decide (h = ""%string) then inr ForeignPanic
       else if JsonPrint.utf8_Valid (bytes_of_string h) then inl h
       else inr (InvalidUtf8 (FromUtf8Error (bytes_of_string h))), with_cost used)
  | (inr err, used) => (inr (reported err), with_cost used)
  end.
Definition seen_validate (input : string) : BackendResult unit :=
  match validateAddress input with
  | (None, used) => (inl tt, with_cost used)
  | (Some err, used) => (inr (reported err), with_cost used)
  end.
Definition seen_scan (its : list (list (bytes * bytes))) (start stop : option bytes) (order : Order)
    : M (BackendResult N * list (list (bytes * bytes))) :=
  '(r, gas) ← attempt (metered gm (open_iterator prefix start stop
                (match order with Ascending => false | Descending => true end)));
  match r with
  | inr err => mret ((inr err, gas), its)
  | inl it =>
      if (Iterators.frameLenLimit <=? N.of_nat (length its))%N
      then mret ((inr (UserErr "Reached iterator limit (32768)"%string), gas), its)
      else mret ((inl (N.of_nat (length its)), gas), its ++ [it])
  end.
Definition seen_next (its : list (list (bytes * bytes))) (id : N)
    : M (BackendResult (option (bytes * bytes)) * list (list (bytes * bytes))) :=
  match its !! N.to_nat id with
  | None => mret ((inr (IteratorDoesNotExist id), free), its)
  | Some [] => mret ((inl None, free), its)
  | Some (e :: _) =>
      '(r, gas) ← attempt (metered gm (must (kv_access (OpSeek (Some e)))));
      match r with
      | inr err => mret ((inr err, gas), its)
      | inl _ => mret ((inl (Some e), gas), alter tail (N.to_nat id) its)
      end
  end.
Definition part {A B} (f : A -> B) (r : BackendResult (option A)) : BackendResult (option B) :=
  (match r.1 with inl x => inl (f <$> x) | inr e => inr e end, r.2).
Fixpoint run_vm {R} (its : list (list (bytes * bytes))) (p : Backend R) : M (option R * GasReport) :=
  match p with
  | BDone res report => mret (Some res, report)
  | BPanic => mret (None, mkGasReport 0 0 0 0)
  | BGet key c => r ← attempt (cGet gm prefix key); run_vm its (c r)
  | BScan start stop order c => '(r, its) ← seen_scan its start stop order; run_vm its (c r)
  | BNext id c => '(r, its) ← seen_next its id; run_vm its (c r)
  | BNextKey id c => '(r, its) ← seen_next its id; run_vm its (c (part fst r))
  | BNextValue id c => '(r, its) ← seen_next its id; run_vm its (c (part snd r))
  | BSet key value c => r ← attempt (cSet gm prefix key value); run_vm its (c r)
  | BRemove key c => r ← attempt (cDelete gm prefix key); run_vm its (c r)
  | BCanonicalize human c => run_vm its (c (seen_canonicalize human))
  | BHumanize canonical c => run_vm its (c (seen_humanize canonical))
  | BValidate input c => run_vm its (c (seen_validate input))
  | BQuery request gas_limit c =>
      '(r, gas) ← attempt (cQueryExternal gm rust_query request gas_limit);
      run_vm its (c (match r with inl res => inl (sys_result (Marshal (json_QuerierResult res))) | inr e => inr e end, gas))
  end.

(** *** Both sides together implement it *)

(** The iterators that the two sides hold: Go has them in the frame of the
    call, and Rust has under each id the reference to the next place. *)
Definition mirrors (fr : Iterators.frames) (c : N) (iterators : gmap N N) (its : list (list (bytes * bytes))) : Prop :=
  Iterators.frame_of fr c = its /\ (N.of_nat (length its) <= Iterators.frameLenLimit)%N
  /\ size iterators = length its
  /\ forall i, iterators !! i = if (i <? N.of_nat (length its))%N then Some (i + 1)%N else None.
Lemma mirrors_start : mirrors ∅ 1 ∅ [].
Proof. split_and!; try done. intros i. rewrite lookup_empty. by destruct i. Qed.

Abbreviation run := (run_prog gm prefix rust_query).
Ltac callback body := unfold recoverPanic, attempt, reify, mbind, M_bind; destruct body as [[[? ?]|?|[]] ?]; cbn; auto.

Lemma scan_transparent {R} fr c iterators its start stop order s
    (k : BackendResult N -> gmap N N -> Prog (option R)) (k' : BackendResult N -> list (list (bytes * bytes)) -> M (option R * GasReport)) :
  mirrors fr c iterators its ->
  (forall fr iterators its r s, mirrors fr c iterators its -> run fr c (k r iterators) s = k' r its s) ->
  run fr c (GoStorage_scan iterators start stop order k) s = ('(r, its) ← seen_scan its start stop order; k' r its) s.
Proof.
  intros Hm Hk. unfold GoStorage_scan, seen_scan. cbn [run_prog]. unfold cScan.
  assert (((order_i32 order =? 1) || (order_i32 order =? 2))%Z = true) as -> by (by destruct order).
  assert ((order_i32 order =? 2)%Z = match order with Ascending => false | Descending => true end) as -> by (by destruct order).
  unfold recoverPanic, attempt, reify, mbind, M_bind.
  destruct (metered gm _ s) as [[[used it]|e|[]] s1]; cbn; auto.
  destruct Hm as (Hf & Hl & Hs & Hi). unfold Iterators.storeIterator. rewrite Hf.
  destruct (N.leb_spec Iterators.frameLenLimit (N.of_nat (length its))) as [Hle|Hlt]; cbn.
  - apply Hk. by split_and!.
  - unfold Iterators.indexToIteratorID. 
    destruct (N.ltb_spec Iterators.MaxInt32 (N.of_nat (length its))) as [Hx|Hx];
      [unfold Iterators.MaxInt32, Iterators.frameLenLimit in *; lia|]. cbn.
    rewrite Hs. destruct (N.leb_spec two32 (N.of_nat (length its))) as [Hy|Hy];
      [unfold two32, Iterators.frameLenLimit in *; lia|].
    apply Hk. split_and!.
    + by rewrite Iterators.frame_of_insert.
    + rewrite length_app. cbn [length]. lia.
    + rewrite map_size_insert_None, length_app, Hs; [cbn [length]; lia|]. rewrite Hi.
      by rewrite N.ltb_irrefl.
    + intros i. rewrite length_app. cbn [length]. destruct (decide (i = N.of_nat (length its))) as [->|Hn].
      * rewrite lookup_insert_eq. by rewrite (proj2 (N.ltb_lt _ _)) by lia.
      * rewrite lookup_insert_ne, Hi by done.
        destruct (N.ltb_spec i (N.of_nat (length its))), (N.ltb_spec i (N.of_nat (length its + 1))); (done || lia).
Qed.

Lemma mirrors_found fr c iterators its id :
  mirrors fr c iterators its -> (id < N.of_nat (length its))%N ->
  iterators !! id = Some (id + 1)%N /\ Iterators.iteratorIdToIndex (id + 1) = Some (N.to_nat id)
  /\ Iterators.retrieveIterator fr c (id + 1) = its !! N.to_nat id.
Proof.
  intros (Hf & Hl & Hs & Hi) Hid.
  assert (Iterators.iteratorIdToIndex (id + 1) = Some (N.to_nat id)) as Hx.
  { unfold Iterators.iteratorIdToIndex, Iterators.MaxInt32, Iterators.frameLenLimit in *.
    destruct (N.ltb_spec (id + 1) 1); [lia|]. destruct (N.ltb_spec 2147483647 (id + 1)); [lia|]. cbn [orb]. f_equal. lia. }
  split_and!; [by rewrite Hi, (proj2 (N.ltb_lt _ _))|done|].
  unfold Iterators.retrieveIterator. rewrite Hx. cbn. by rewrite Hf.
Qed.
Lemma mirrors_advance fr c iterators its id :
  mirrors fr c iterators its -> (id < N.of_nat (length its))%N ->
  mirrors (Iterators.advance fr c (id + 1)) c iterators (alter tail (N.to_nat id) its).
Proof.
  intros Hm Hid. destruct (mirrors_found _ _ _ _ _ Hm Hid) as (_ & Hx & _). destruct Hm as (Hf & Hl & Hs & Hi).
  unfold mirrors, Iterators.advance. rewrite Hx, Iterators.frame_of_insert, length_alter, Hf. by split_and!.
Qed.
(** The entry that the callback finds is that of the list. *)
Lemma next_entry_seen {A} fr c iterators its id s (K : BackendResult (option (bytes * bytes)) -> list (list (bytes * bytes)) -> M A)
    (g : GoError -> N -> option (bytes * bytes) -> Iterators.frames -> M A) :
  mirrors fr c iterators its -> (id < N.of_nat (length its))%N ->
  (forall code used entry fr its s, mirrors fr c iterators its ->
     g code used entry fr s = K (checked code None next_default (with_externally_used used) (inl entry)) its s) ->
  ('(e, r) ← recoverPanic (next_entry gm fr c (id + 1));
   match r with Some (used, entry, fr') => g e used entry fr' | None => g e 0%N None fr end) s
  = ('(r, its) ← seen_next its id; K r its) s.
Proof.
  intros Hm Hid Hg. destruct (mirrors_found _ _ _ _ _ Hm Hid) as (_ & _ & Hr).
  unfold next_entry, seen_next. rewrite Hr.
  destruct (its !! N.to_nat id) as [[|e l]|] eqn:El.
  - unfold recoverPanic, reify, mbind, M_bind. cbn. by rewrite (Hg _ _ _ _ its) by done.
  - unfold recoverPanic, attempt, reify, mbind, M_bind.
    destruct (metered gm _ s) as [[[used []]|err|[]] s1]; cbn; try done;
      first [by rewrite (Hg _ _ _ _ its)|by rewrite (Hg _ _ _ _ _ _ (mirrors_advance _ _ _ _ _ Hm Hid))].
  - apply lookup_ge_None in El. lia.
Qed.
(** An unknown id is refused before the callback. *)
Lemma unknown_iterator {A R} fr c iterators its id (next : N -> (BackendResult A -> Prog R) -> Prog R) k :
  mirrors fr c iterators its -> (N.of_nat (length its) <= id)%N ->
  with_iterator iterators id next k = k (inr (IteratorDoesNotExist id), free).
Proof.
  intros (Hf & Hl & Hs & Hi) Hid. unfold with_iterator. by rewrite Hi, (proj2 (N.ltb_ge _ _)).
Qed.
Lemma unknown_iterator_spec {A} fr c iterators its id s
    (k : BackendResult (option (bytes * bytes)) -> list (list (bytes * bytes)) -> M A) :
  mirrors fr c iterators its -> (N.of_nat (length its) <= id)%N ->
  ('(r, its) ← seen_next its id; k r its) s = k (inr (IteratorDoesNotExist id), free) its s.
Proof. intros _ Hid. unfold seen_next. by rewrite lookup_ge_None_2 by lia. Qed.

Lemma part_checked {B} (f : bytes * bytes -> B) code used entry :
  checked code None next_default (with_externally_used used) (inl (f <$> entry))
  = part f (checked code None next_default (with_externally_used used) (inl entry)).
Proof. unfold part, checked. by destruct (into_result _ _ _). Qed.
Lemma reported_text err default :
  into_result (GoError_from (status GoError_User)) (error_text err) default = Some (reported err).
Proof. done. Qed.

(** Whatever the virtual machine does, through the library, the callbacks and
    the tables of iterators on both sides it sees the store of the contract
    with one list of iterators. *)
Theorem border_transparent {R} (p : Backend R) fr c iterators its s :
  mirrors fr c iterators its -> run fr c (into_backend iterators p) s = run_vm its p s.
Proof.
  revert fr iterators its s.
  induction p as [| |key k IH|start stop order k IH|id k IH|id k IH|id k IH|key value k IH|key k IH|human k IH|canonical k IH
    |input k IH|request limit k IH]; intros fr iterators its s Hm; cbn [into_backend run_vm]; try done.
  - unfold GoStorage_get. cbn [run_prog]. callback (cGet gm prefix key s).
  - by apply scan_transparent; [|intros; by apply IH].
  - destruct (N.lt_ge_cases id (N.of_nat (length its))) as [Hid|Hid].
    + unfold GoStorage_next, with_iterator. rewrite (proj1 (mirrors_found _ _ _ _ _ Hm Hid)).
      apply (next_entry_seen fr c iterators its id s (fun r its => run_vm its (k r))
        (fun code used entry fr => run fr c (into_backend iterators (k (checked code None next_default _ _))))); [done..|].
      intros code used [[]|] fr' its' s' Hm'; by apply IH.
    + unfold GoStorage_next. rewrite (unknown_iterator_spec fr c iterators its), (unknown_iterator fr c iterators its) by done. by apply IH.
  - destruct (N.lt_ge_cases id (N.of_nat (length its))) as [Hid|Hid].
    + unfold GoStorage_next_key, with_iterator. rewrite (proj1 (mirrors_found _ _ _ _ _ Hm Hid)).
      unfold GoIter_next_key. cbn [run_prog].
      etrans; [|apply (next_entry_seen fr c iterators its id s (fun r its => run_vm its (k (part fst r)))
        (fun code used entry fr => run fr c (next_key_or_val (fun r => into_backend iterators (k r)) code used (fst <$> entry))))]; [done..|].
      intros code used entry fr' its' s' Hm'. unfold next_key_or_val. rewrite part_checked. by apply IH.
    + unfold GoStorage_next_key. rewrite (unknown_iterator_spec fr c iterators its), (unknown_iterator fr c iterators its) by done. by apply IH.
  - destruct (N.lt_ge_cases id (N.of_nat (length its))) as [Hid|Hid].
    + unfold GoStorage_next_value, with_iterator. rewrite (proj1 (mirrors_found _ _ _ _ _ Hm Hid)).
      unfold GoIter_next_value. cbn [run_prog].
      etrans; [|apply (next_entry_seen fr c iterators its id s (fun r its => run_vm its (k (part snd r)))
        (fun code used entry fr => run fr c (next_key_or_val (fun r => into_backend iterators (k r)) code used (snd <$> entry))))]; [done..|].
      intros code used entry fr' its' s' Hm'. unfold next_key_or_val. rewrite part_checked. by apply IH.
    + unfold GoStorage_next_value. rewrite (unknown_iterator_spec fr c iterators its), (unknown_iterator fr c iterators its) by done. by apply IH.
  - unfold GoStorage_set. cbn [run_prog]. callback (cSet gm prefix key value s); destruct u; auto.
  - unfold GoStorage_remove. cbn [run_prog]. callback (cDelete gm prefix key s); destruct u; auto.
  - unfold GoApi_addr_canonicalize, seen_canonicalize. cbn [run_prog]. unfold cCanonicalizeAddress.
    destruct (canonicalizeAddress human) as [[a|err] used]; [|by apply IH]. destruct (decide (a = [])); by apply IH.
  - unfold GoApi_addr_humanize, seen_humanize. cbn [run_prog]. unfold cHumanizeAddress.
    destruct (humanizeAddress canonical) as [[h|err] used]; [|by apply IH].
    destruct (decide (h = _)); [by apply IH|]. unfold recoverPanic, reify, mbind, M_bind. cbn.
    rewrite from_utf8_Valid, string_of_bytes_of_string. by apply IH.
  - unfold GoApi_addr_validate, seen_validate. cbn [run_prog]. unfold cValidateAddress.
    destruct (validateAddress input) as [[err|] used]; by apply IH.
  - unfold GoQuerier_query_raw. cbn [run_prog]. callback (cQueryExternal gm rust_query request limit s).
Qed.

(** What a call of a contract gives to Go. *)
Definition go_result (r : option (bytes + VmError)) : bytes + string :=
  match r with
  | Some (inl data) => inl data
  | Some (inr GasDepletion) => inr "Out of gas"%string
  | Some (inr (OtherVmError msg)) => inr (String.append "Error calling the VM: " msg)
  | None => inr "Caught panic"%string
  end.
Definition seen (p : Backend (bytes + VmError)) : M ((bytes + string) * GasReport) :=
  '(r, report) ← run_vm [] p; mret (go_result r, report).
Lemma vm_error_text msg :
  Bindings.vector_result (handle_c_error_binary (inr (VmErr msg))) = inr (String.append "Error calling the VM: " msg).
Proof.
  assert (forall t : string, Bindings.errorWithMessage 1 (Some (bytes_of_string t)) = t) as Ht.
  { intros t. unfold Bindings.errorWithMessage. by rewrite string_of_bytes_of_string. }
  unfold Bindings.vector_result, Bindings.c_result, Bindings.c_error.
  change (errno (handle_c_error_binary (inr (VmErr msg)))) with 1%N. cbn [fst snd N.eqb].
  change (errmsg (handle_c_error_binary (inr (VmErr msg))))
    with (Some (bytes_of_string (String.append "Error calling the VM: " msg))).
  by rewrite Ht.
Qed.
Lemma call_transparent v checksum gas instance vm_fn s :
  Cache_get_instance v checksum gas = Some (inl instance) ->
  vm_call gm prefix rust_query (Bindings.entry_result (finish (do_call v checksum gas vm_fn))) s = seen (vm_fn instance) s.
Proof.
  intros Hi. unfold vm_call, Bindings.entry_result, finish, do_call, seen. rewrite Hi, Bindings.run_prog_map.
  unfold mbind, M_bind. rewrite Bindings.run_prog_map. unfold mbind, M_bind. rewrite Bindings.run_prog_map.
  unfold mbind, M_bind. rewrite (border_transparent _ _ _ _ _ _ mirrors_start).
  destruct (run_vm [] (vm_fn instance) s) as [[[r report]| |] s1]; [|done..].
  destruct r as [[data|[|msg]]|]; try done.
  change ((Ret (Bindings.vector_result (handle_c_error_binary (inr (VmErr msg))), report), s1)
    = (Ret (inr (String.append "Error calling the VM: " msg), report), s1)).
  by rewrite vm_error_text.
Qed.
Lemma call_2_args_ok vm_fn v checksum a b gas debug :
  length checksum = 32 ->
  call_2_args vm_fn (Some v) (Some checksum) (Some a) (Some b) gas debug
  = finish (do_call v checksum gas (fun i => vm_fn i a b)).
Proof. intros Hl. unfold call_2_args, read_checksum, read_arg. by rewrite Hl. Qed.
Lemma call_3_args_ok vm_fn v checksum a b c gas debug :
  length checksum = 32 ->
  call_3_args vm_fn (Some v) (Some checksum) (Some a) (Some b) (Some c) gas debug
  = finish (do_call v checksum gas (fun i => vm_fn i a b c)).
Proof. intros Hl. unfold call_3_args, read_checksum, read_arg. by rewrite Hl. Qed.
(** C31: so every entry point that the keeper calls runs the contract on its store,
    and returns what the contract returned, or the error of the machine, or the
    panic that was caught. *)
Theorem calls_transparent v checksum gas instance debug :
  length checksum = 32 -> Cache_get_instance v checksum gas = Some (inl instance) ->
  let call := vm_call gm prefix rust_query in
  (forall env info msg s, call (Bindings.Instantiate v checksum env info msg gas debug) s
     = seen (call_instantiate_raw instance env info msg) s)
  /\ (forall env info msg s, call (Bindings.Execute v checksum env info msg gas debug) s
     = seen (call_execute_raw instance env info msg) s)
  /\ (forall env msg s, call (Bindings.Migrate v checksum env msg gas debug) s
     = seen (call_migrate_raw instance env msg) s)
  /\ (forall env msg info s, call (Bindings.MigrateWithInfo v checksum env msg info gas debug) s
     = seen (call_migrate_with_info_raw instance env msg info) s)
  /\ (forall env msg s, call (Bindings.Sudo v checksum env msg gas debug) s = seen (call_sudo_raw instance env msg) s)
  /\ (forall env msg s, call (Bindings.Reply_ v checksum env msg gas debug) s = seen (call_reply_raw instance env msg) s)
  /\ (forall env msg s, call (Bindings.Query v checksum env msg gas debug) s = seen (call_query_raw instance env msg) s)
  /\ (forall env msg s, call (Bindings.IBCChannelOpen v checksum env msg gas debug) s
     = seen (call_ibc_channel_open_raw instance env msg) s)
  /\ (forall env msg s, call (Bindings.IBCChannelConnect v checksum env msg gas debug) s
     = seen (call_ibc_channel_connect_raw instance env msg) s)
  /\ (forall env msg s, call (Bindings.IBCChannelClose v checksum env msg gas debug) s
     = seen (call_ibc_channel_close_raw instance env msg) s)
  /\ (forall env msg s, call (Bindings.IBCPacketReceive v checksum env msg gas debug) s
     = seen (call_ibc_packet_receive_raw instance env msg) s)
  /\ (forall env msg s, call (Bindings.IBCPacketAck v checksum env msg gas debug) s
     = seen (call_ibc_packet_ack_raw instance env msg) s)
  /\ (forall env msg s, call (Bindings.IBCPacketTimeout v checksum env msg gas debug) s
     = seen (call_ibc_packet_timeout_raw instance env msg) s)
  /\ (forall env msg s, call (Bindings.IBCSourceCallback v checksum env msg gas debug) s
     = seen (call_ibc_source_callback_raw instance env msg) s)
  /\ (forall env msg s, call (Bindings.IBCDestinationCallback v checksum env msg gas debug) s
     = seen (call_ibc_destination_callback_raw instance env msg) s).
Proof.
  intros Hl Hi call. unfold call. clear call.
  split_and!; intros;
    match goal with |- vm_call _ _ _ _ _ = seen (?f instance ?a ?b ?c) _ =>
      rewrite <- (call_transparent v checksum gas instance (fun i => f i a b c) _ Hi),
        <- (call_3_args_ok f v checksum a b c gas debug Hl)
    | |- vm_call _ _ _ _ _ = seen (?f instance ?a ?b) _ =>
      rewrite <- (call_transparent v checksum gas instance (fun i => f i a b) _ Hi),
        <- (call_2_args_ok f v checksum a b gas debug Hl)
    end; reflexivity.
Qed.

End Seen.

(** ** Codes through the border *)

Section Codes.
Context `{Modules, !CosmwasmVM}.

Definition no_comma (e : string) : Prop := Byte.x2c ∉ bytes_of_string e.
Lemma bytes_append a b : bytes_of_string (String.append a b) = bytes_of_string a ++ bytes_of_string b.
Proof.
  induction a as [|c a IH]; [done|].
  change (String.append (String c a) b) with (String c (String.append a b)).
  change (bytes_of_string (String c (String.append a b)))
    with (Ascii.byte_of_ascii c :: bytes_of_string (String.append a b)). by rewrite IH.
Qed.
Lemma split_commas_skip cur e rest :
  Byte.x2c ∉ e -> Bindings.split_commas cur (e ++ rest) = Bindings.split_commas (cur ++ e) rest.
Proof.
  revert cur. induction e as [|b e IH]; intros cur Hn; [by rewrite (right_id_L [] (++))|].
  apply not_elem_of_cons in Hn as [Hb Hn]. cbn [app Bindings.split_commas].
  destruct (Byte.eqb b Byte.x2c) eqn:E; [by apply Byte.byte_dec_bl in E; subst|].
  rewrite IH by done. by rewrite <- (assoc_L (++)).
Qed.
(** A list of names comes back from its text, unless it is empty. *)
Lemma split_csv l : Forall no_comma l -> l <> [] -> Bindings.split_commas [] (bytes_of_string (set_to_csv l)) = l.
Proof.
  induction 1 as [|e l He Hl IH]; [done|]. intros _. destruct l as [|e' l].
  - cbn [set_to_csv]. rewrite <- (right_id_L [] (++) (bytes_of_string e)), split_commas_skip by done.
    cbn [app Bindings.split_commas]. by rewrite string_of_bytes_of_string.
  - change (set_to_csv (e :: e' :: l)) with (String.append e (String.append "," (set_to_csv (e' :: l)))).
    rewrite bytes_append, split_commas_skip, bytes_append by done.
    change (bytes_of_string ",") with [Byte.x2c]. cbn [app Bindings.split_commas Byte.eqb].
    rewrite IH by done. change (Byte.eqb Byte.x2c Byte.x2c) with true. cbv iota. by rewrite string_of_bytes_of_string.
Qed.
Lemma small_error e : e <> RustOutOfGas ->
  Bindings.vector_result (handle_c_error_binary (inr e)) = inr (RustError_Display e)
  /\ forall A (d : A), Bindings.c_result (handle_c_error_default d (inr e)).2 d = inr (RustError_Display e).
Proof.
  intros He. assert ((set_error e).1 = 1%N) as E by (by destruct e).
  unfold Bindings.vector_result, Bindings.c_result, Bindings.c_error, handle_c_error_binary, handle_c_error_default.
  cbn [fst snd errno errmsg]. rewrite E. cbn [fst snd N.eqb]. unfold Bindings.errorWithMessage. cbn [N.eqb set_error snd].
  by rewrite string_of_bytes_of_string.
Qed.
(** Go gets the checksum of a stored code and the code of a checksum as the
    cache has them, and the report on a code with its entry points one by one;
    what is not a checksum is refused. *)
Theorem codes_reach_go v :
  (forall wasm, Bindings.StoreCode v wasm = (go_result (Cache_save_wasm v wasm).1, (Cache_save_wasm v wasm).2))
  /\ (forall checksum, length checksum = 32 -> Bindings.GetCode v checksum = go_result (Cache_load_wasm v checksum))
  /\ (forall checksum, length checksum <> 32 -> Bindings.GetCode v checksum = inr "Checksum not of length 32"%string)
  /\ (forall checksum report, length checksum = 32 -> Cache_analyze v checksum = Some (inl report) ->
       Forall no_comma (vm_entrypoints report) -> vm_entrypoints report <> [] ->
       Bindings.AnalyzeCode v checksum = inl (mkAnalysisReport (vm_has_ibc_entry_points report)
         (set_to_csv (vm_required_capabilities report)) (vm_entrypoints report) (vm_contract_migrate_version report))).
Proof.
  split_and!.
  - intros wasm. unfold Bindings.StoreCode. cbn [C_save_wasm libwasmvm save_wasm].
    destruct (Cache_save_wasm v wasm) as [r v']. unfold changed. cbn [fst snd default].
    destruct r as [[data|[|msg]]|]; try done. f_equal. by apply small_error.
  - intros checksum Hl. unfold Bindings.GetCode. cbn [C_load_wasm libwasmvm]. unfold load_wasm, to_cache, read_checksum, read_arg.
    rewrite Hl. cbn [Nat.eqb]. destruct (Cache_load_wasm v checksum) as [[data|[|msg]]|]; try done. by apply small_error.
  - intros checksum Hl. unfold Bindings.GetCode. cbn [C_load_wasm libwasmvm]. unfold load_wasm, to_cache, read_checksum, read_arg.
    rewrite (proj2 (Nat.eqb_neq _ _) Hl). done.
  - intros checksum report Hl Ha Hc Hn. unfold Bindings.AnalyzeCode. cbn [C_analyze_code libwasmvm].
    unfold analyze_code, to_cache, read_checksum, read_arg. rewrite Hl. cbn [Nat.eqb]. rewrite Ha.
    cbn [or_panic fmap option_fmap option_map vm_try catch_unwind handle_c_error_default]. unfold Bindings.c_result.
    cbn [AnalysisReport_from has_ibc_entry_points required_capabilities entrypoints contract_migrate_version default].
    unfold id. by rewrite string_of_bytes_of_string, split_csv.
Qed.
(** A code without entry points is reported with one that has no name. *)
Lemma no_entrypoints v checksum report :
  length checksum = 32 -> Cache_analyze v checksum = Some (inl report) -> vm_entrypoints report = [] ->
  exists r, Bindings.AnalyzeCode v checksum = inl r /\ Entrypoints r = [""%string].
Proof.
  intros Hl Ha He. unfold Bindings.AnalyzeCode. cbn [C_analyze_code libwasmvm].
  unfold analyze_code, to_cache, read_checksum, read_arg. rewrite Hl. cbn [Nat.eqb]. rewrite Ha.
  eexists. split; [reflexivity|]. cbn [Entrypoints]. unfold AnalysisReport_from. by rewrite He.
Qed.

(** What is documented of the cache of cosmwasm-vm: a code is found under the
    checksum it was stored under, and storing or pinning one leaves the others
    alone. *)
Class CosmwasmCacheLaws : Prop := {
  Cache_load_small v h code : Cache_load_wasm v h = Some (inl code) -> small code;
  Cache_save_load v v0 h code : length h = 32 -> Cache_load_wasm v0 h = Some (inl code) -> exists v',
    Cache_save_wasm_unchecked v code = (Some (inl h), v') /\ Cache_load_wasm v' h = Some (inl code)
    /\ forall h', h' <> h -> Cache_load_wasm v' h' = Cache_load_wasm v h';
  Cache_pin_load v h code : length h = 32 -> Cache_load_wasm v h = Some (inl code) -> exists v',
    Cache_pin v h = (Some (inl tt), v') /\ forall h', Cache_load_wasm v' h' = Cache_load_wasm v h';
}.

Section Laws.
Context `{!CosmwasmCacheLaws}.
Context (contract_result : bytes -> ContractResult + string) (query_result : bytes -> QueryResult + string) (debug : bool).

Lemma GetCode_loaded v h code : Bindings.GetCode v h = inl code <-> length h = 32 /\ Cache_load_wasm v h = Some (inl code).
Proof.
  destruct (codes_reach_go v) as (_ & Hg & Hn & _). destruct (decide (length h = 32)) as [Hl|Hl].
  - rewrite (Hg h Hl). destruct (Cache_load_wasm v h) as [[|[]]|]; cbn; naive_solver.
  - rewrite (Hn h Hl). naive_solver.
Qed.
Lemma GetCode_same v v' h : Cache_load_wasm v' h = Cache_load_wasm v h -> Bindings.GetCode v' h = Bindings.GetCode v h.
Proof. intros E. unfold Bindings.GetCode. cbn [C_load_wasm libwasmvm]. unfold load_wasm, to_cache, read_checksum, read_arg. by rewrite E. Qed.
(** So the engine that the keeper gets from the library keeps codes as the
    restoring of snapshots needs it. *)
Theorem engine_keeps_codes : CodeCacheLaws (H0 := Bindings.engine contract_result query_result debug).
Proof.
  split; cbn [api_GetCode api_StoreCodeUnchecked api_Pin Bindings.engine].
  - intros v h code [_ Hc]%GetCode_loaded. by eapply Cache_load_small.
  - intros v v0 h code [Hl Hc]%GetCode_loaded. destruct (Cache_save_load v v0 h code Hl Hc) as (v' & Hs & Hg & Ho).
    exists v'. split_and!; [|by apply GetCode_loaded|by intros; apply GetCode_same, Ho].
    unfold Bindings.StoreCodeUnchecked. cbn [C_save_wasm libwasmvm save_wasm]. by rewrite Hs.
  - intros v h code [Hl Hc]%GetCode_loaded. destruct (Cache_pin_load v h code Hl Hc) as (v' & Hp & Ho).
    exists v'. split; [|by intros; apply GetCode_same]. unfold Bindings.Pin. cbn [C_pin libwasmvm].
    unfold pin, on_checksum, read_checksum, read_arg. rewrite Hl. cbn [Nat.eqb]. by rewrite Hp.
Qed.

End Laws.
End Codes.
End Rust.
