(* ===== verification/Client.v ===== *)
(** The command line client of the module (x/wasm/client/cli): the commands
    that build transactions (tx.go, new_tx.go), governance proposals
    (gov_tx.go) and queries (query.go) from arguments and flags, and the
    extension of the node's reset command (utils.go). A command is its checks
    on the number of arguments, the flags it declares, and the function that
    makes the message to be signed or the request to be sent. *)
From Stdlib Require Import Ascii.
From S2P Require Import Prelude Errors GoStrings Json JsonPrint Types Proto Keys VMTypes Policy GasRegister Chain Logic Engine Store Events Keeper Msgs MsgServer Encoders Checksum Authz Querier Options Snapshots.
Import GoStrings Json.Json Msgs.Msgs MsgServer.MsgServer Authz.Authz Authz.AuthzOps.
Open Scope wasm_scope.

(** ** strconv, strings, encoding/base64 *)

Module Strconv.
Local Open Scope N_scope.

Definition syntaxError (fn s : string) : error :=
  EText (String.append "strconv." (String.append fn (String.append ": parsing " (String.append s ": invalid syntax")))).
Definition rangeError (fn s : string) : error :=
  EText (String.append "strconv." (String.append fn (String.append ": parsing " (String.append s ": value out of range")))).

Definition maxUint64 : N := 2 ^ 64 - 1.
Definition cutoff : N := maxUint64 / 10 + 1.
(** The loop of ParseUint(s, 10, 64). *)
Fixpoint parse_digits (s : string) (n : N) (ds : bytes) : N + error :=
  match ds with
  | [] => inl n
  | d :: ds' =>
      if is_digit d then
        if cutoff <=? n then inr (rangeError "ParseUint" s)
        else let n1 := n * 10 + (Byte.to_N d - 48) in
             if maxUint64 <? n1 then inr (rangeError "ParseUint" s) else parse_digits s n1 ds'
      else inr (syntaxError "ParseUint" s)
  end.
Definition ParseUint (s : string) : N + error :=
  if bool_decide (s = "")%string then inr (syntaxError "ParseUint" s)
  else parse_digits s 0 (bytes_of_string s).
Definition ParseBool (s : string) : bool + error :=
  if bool_decide (s ∈ ["1"; "t"; "T"; "true"; "TRUE"; "True"])%string then inl true
  else if bool_decide (s ∈ ["0"; "f"; "F"; "false"; "FALSE"; "False"])%string then inl false
  else inr (syntaxError "ParseBool" s).

(** strings.Split at a separator of one byte. *)
Fixpoint split (sep : ascii) (cur s : string) : list string :=
  match s with
  | EmptyString => [cur]
  | String c s' =>
      if Ascii.eqb c sep then cur :: split sep EmptyString s'
      else split sep (String.append cur (String c EmptyString)) s'
  end.
Definition Split (s : string) (sep : ascii) : list string := split sep EmptyString s.

(** base64.StdEncoding.DecodeString: line breaks are skipped, padding is
    required, bits left over in the last digit are ignored. *)
Definition base64_value (b : byte) : option N :=
  let n := Byte.to_N b in
  if in_range 65 90 n then Some (n - 65)
  else if in_range 97 122 n then Some (n - 71)
  else if in_range 48 57 n then Some (n + 4)
  else if n =? 43 then Some 62
  else if n =? 47 then Some 63
  else None.
Definition is_line_break (b : byte) : bool := Byte.eqb b Byte.x0a || Byte.eqb b Byte.x0d.
Fixpoint base64_quads (bs : bytes) : option bytes :=
  match bs with
  | [] => Some []
  | a :: b :: c :: d :: bs' =>
      x ← base64_value a; y ← base64_value b;
      if Byte.eqb c Byte.x3d && Byte.eqb d Byte.x3d then
        match bs' with [] => Some [byte_of_N ((x * 64 + y) / 16)] | _ => None end
      else
        z ← base64_value c;
        if Byte.eqb d Byte.x3d then
          match bs' with
          | [] => let n := ((x * 64 + y) * 64 + z) / 4 in
                  Some [byte_of_N (n / 256); byte_of_N (n mod 256)]
          | _ => None
          end
        else
          w ← base64_value d; r ← base64_quads bs';
          let n := ((x * 64 + y) * 64 + z) * 64 + w in
          Some (byte_of_N (n / 65536) :: byte_of_N (n / 256 mod 256) :: byte_of_N (n mod 256) :: r)
  | _ => None
  end.
Definition base64_DecodeString (s : string) : bytes + error :=
  match base64_quads (filter (fun b => is_line_break b = false) (bytes_of_string s)) with
  | Some bs => inl bs
  | None => inr (EText "illegal base64 data at input byte %d")
  end.

End Strconv.
Import Strconv.

(** ** What the commands are made with *)

(** github.com/spf13/pflag: the values of the flags after parsing. *)
Inductive FlagType := FString | FBool | FStringSlice | FUint64 | FInt64 | FBytesHex.
Class Pflag := {
  FlagSet : Type;
  GetString : FlagSet -> string -> string + error;
  GetBool : FlagSet -> string -> bool + error;
  GetStringSlice : FlagSet -> string -> list string + error;
  GetUint64 : FlagSet -> string -> N + error;
  GetInt64 : FlagSet -> string -> Z + error;
  GetBytesHex : FlagSet -> string -> option bytes + error;
  (** the variable a flag was bound to *)
  BoolVar : FlagSet -> string -> bool;
  Set_ : FlagSet -> string -> string -> FlagSet + error;
}.

(** The client package of the SDK, its keyring, and the files it reads. *)
Class ClientPkg `{Pflag} := {
  ClientContext : Type;
  Keyring_ : Type;
  KeyRecord : Type;
  GetClientTxContext : FlagSet -> ClientContext + error;
  GetClientQueryContext : FlagSet -> ClientContext + error;
  GetFromAddress : ClientContext -> AccAddress;
  Keyring : ClientContext -> Keyring_;
  Key_ : Keyring_ -> string -> KeyRecord + error;
  GetAddress : KeyRecord -> AccAddress + error;
  ParseCoinsNormalized : string -> Coins + error;
  ReadPageRequest : FlagSet -> option PageRequest + error;
  ReadFile : string -> bytes + error;
  (** authz.NewMsgGrant and v1.NewMsgSubmitProposal: whether packing the
      messages fails *)
  MsgGrant_err : Authorization + list CodeGrant -> option error;
  MsgSubmitProposal_err : list WasmMsg -> option error;
  (** address.Module(gov) *)
  gov_address : bytes;
}.

(** A transaction handed to tx.GenerateOrBroadcastTxCLI. *)
Inductive Tx :=
| TxWasm (msg : WasmMsg)
| TxGrant (Granter Grantee : AccAddress) (authorization : Authorization + list CodeGrant)
    (Expiration : option Z)
| TxProposal (Messages : list WasmMsg) (InitialDeposit : Coins)
    (Proposer Metadata Title Summary : string) (Expedited : bool).

(** cobra's checks on the number of arguments. *)
Inductive PositionalArgs := ExactArgs (n : nat) | MinimumNArgs (n : nat) | RangeArgs (min max : nat).
Definition accepts (p : PositionalArgs) (n : nat) : bool :=
  match p with
  | ExactArgs m => Nat.eqb n m
  | MinimumNArgs m => Nat.leb m n
  | RangeArgs lo hi => Nat.leb lo n && Nat.leb n hi
  end.

(** The outcome of a Go function as a monad. *)
#[export] Instance outcome_ret : MRet outcome := @Ret.
#[export] Instance outcome_bind : MBind outcome := fun _ _ f o => obind o f.

Module Client.

(** A command of the client: its name and aliases, the number of arguments,
    the flags it declares besides those of every transaction or query, and
    what it makes of arguments and flags. *)
Record Command `{Pflag} (A : Type) := mkCommand {
  Use : string;
  Aliases : list string;
  Args : PositionalArgs;
  Flags : list (string * FlagType);
  RunE : FlagSet -> list string -> outcome A;
}.
Arguments mkCommand {_ A} _ _ _ _ _.
Arguments Flags {_ A} _.
Arguments Args {_ A} _.
Arguments Use {_ A} _.
Arguments Aliases {_ A} _.
Arguments RunE {_ A} _ _ _.

Section Client.
Context `{Bech32, ErrorsMod, UnicodeTables, CoinsPkg, VerificationPkg, AuthzCodec}.
Context `{!Gzip, !GzipWriter, !Pflag, !ClientPkg}.

Definition orErr {A} (r : A + error) : outcome A :=
  match r with inl a => Ret a | inr err => Fail err end.
(** [fmt.Errorf("...: %s", err)] *)
Definition orErrorf {A} (text : string) (r : A + error) : outcome A :=
  match r with inl a => Ret a | inr err => Fail (EText (String.append text (error_string err))) end.
Definition orValid {A} (a : A) (err : option error) : outcome A :=
  match err with None => Ret a | Some err => Fail err end.
Definition arg (args : list string) (i : nat) : outcome string :=
  match args !! i with Some a => Ret a | None => Panic (PRuntime "index out of range") end.

(** ** tx.go *)

Definition flagAmount : string := "amount".
Definition flagLabel : string := "label".
Definition flagSource : string := "code-source-url".
Definition flagBuilder : string := "builder".
Definition flagCodeHash : string := "code-hash".
Definition flagAdmin : string := "admin".
Definition flagNoAdmin : string := "no-admin".
Definition flagFixMsg : string := "fix-msg".
Definition flagInstantiateByEverybody : string := "instantiate-everybody".
Definition flagInstantiateNobody : string := "instantiate-nobody".
Definition flagInstantiateByAddress : string := "instantiate-only-address".
Definition flagInstantiateByAnyOfAddress : string := "instantiate-anyof-addresses".
Definition flagUnpinCode : string := "unpin-code".
Definition flagAllowedMsgKeys : string := "allow-msg-keys".
Definition flagAllowedRawMsgs : string := "allow-raw-msgs".
Definition flagExpiration : string := "expiration".
Definition flagMaxCalls : string := "max-calls".
Definition flagMaxFunds : string := "max-funds".
Definition flagAllowAllMsgs : string := "allow-all-messages".
Definition flagNoTokenTransfer : string := "no-token-transfer".
Definition flagAuthority : string := "authority".
Definition flagExpedite : string := "expedite".

(** [AccAddressFromBech32] on every element. *)
Fixpoint parse_addresses (text : string) (addrs : list string) : outcome (list AccAddress) :=
  match addrs with
  | [] => Ret []
  | v :: addrs' =>
      a ← orErrorf text (AccAddressFromBech32 v);
      l ← parse_addresses text addrs'; Ret (Some a :: l)
  end.

(** A flag that holds a boolean as text. *)
Definition text_flag (fs : FlagSet) (flag what : string) : outcome bool :=
  s ← orErrorf (String.append what ": ") (GetString fs flag);
  if bool_decide (s = "") then Ret false
  else orErrorf (String.append "boolean value expected for " (String.append what ": ")) (ParseBool s).
Definition parseAccessConfigFlags (fs : FlagSet) : outcome (option AccessConfig) :=
  addrs ← orErrorf "flag any of: " (GetStringSlice fs flagInstantiateByAnyOfAddress);
  if negb (Nat.eqb (length addrs) 0) then
    acceptedAddrs ← parse_addresses "parse %q: " addrs;
    x ← With AccessTypeAnyOfAddresses acceptedAddrs; Ret (Some x)
  else
    onlyAddrStr ← orErrorf "instantiate by address: " (GetString fs flagInstantiateByAddress);
    if negb (bool_decide (onlyAddrStr = "")) then
      Fail (EText (String.append "not supported anymore. Use: " flagInstantiateByAnyOfAddress))
    else
      everybody ← text_flag fs flagInstantiateByEverybody "instantiate by everybody";
      if (everybody : bool) then Ret (Some AllowEverybody)
      else
        nobody ← text_flag fs flagInstantiateNobody "instantiate by nobody";
        Ret (if (nobody : bool) then Some AllowNobody else None).
Definition addInstantiatePermissionFlags : list (string * FlagType) :=
  [(flagInstantiateByEverybody, FString); (flagInstantiateNobody, FString);
   (flagInstantiateByAddress, FString); (flagInstantiateByAnyOfAddress, FStringSlice)].

(** os.ReadFile reads into a slice with room for 512 bytes at least, which
    is what [input[:4]] is taken of. *)
Definition IsWasm_file (wasm : bytes) : outcome bool :=
  IsWasm (wasm ++ replicate (512 - length wasm) Byte.x00).
Definition parseStoreCodeArgs (file sender : string) (fs : FlagSet) : outcome MsgStoreCode :=
  wasm ← orErr (ReadFile file);
  isWasm ← IsWasm_file wasm;
  wasm ← (if (isWasm : bool) then orErr (GzipIt wasm)
          else if negb (IsGzip wasm) then Fail (EText "invalid input file. Use wasm binary or gzip")
          else Ret wasm);
  perm ← parseAccessConfigFlags fs;
  let msg := mkMsgStoreCode sender wasm perm in
  orValid msg (MsgStoreCode_ValidateBasic msg).

Definition from (ctx : ClientContext) : string := acc_string (GetFromAddress ctx).
Definition tx_wasm (msg : WasmMsg) : outcome Tx := Ret (TxWasm msg).

Definition StoreCodeCmd : Command Tx := mkCommand "store" ["upload"; "st"; "s"] (ExactArgs 1)
  addInstantiatePermissionFlags (fun fs args =>
    clientCtx ← orErr (GetClientTxContext fs);
    file ← arg args 0;
    msg ← parseStoreCodeArgs file (from clientCtx) fs;
    tx_wasm (WStoreCode msg)).

(** The admin as an address or as the name of a key. *)
Definition parse_admin (kr : Keyring_) (adminStr : string) : outcome string :=
  if bool_decide (adminStr = "") then Ret adminStr
  else match AccAddressFromBech32 adminStr with
       | inl addr => Ret (AccAddress_String addr)
       | inr _ =>
           info ← orErrorf "admin " (Key_ kr adminStr);
           admin ← orErr (GetAddress info);
           Ret (acc_string admin)
       end.
(** The part of the flags that store-instantiate reads the same way. *)
Definition instantiate_flags (kr : Keyring_) (fs : FlagSet) : outcome (Coins * string * string) :=
  amountStr ← orErrorf "amount: " (GetString fs flagAmount);
  amount ← orErrorf "amount: " (ParseCoinsNormalized amountStr);
  label ← orErrorf "label: " (GetString fs flagLabel);
  if bool_decide (label = "") then Fail (EText "label is required on all contracts") else
  adminStr ← orErrorf "admin: " (GetString fs flagAdmin);
  noAdmin ← orErrorf "no-admin: " (GetBool fs flagNoAdmin);
  if bool_decide (adminStr = "") && negb noAdmin
  then Fail (EText "you must set an admin or explicitly pass --no-admin to make it immutable (wasmd issue #719)")
  else if negb (bool_decide (adminStr = "")) && noAdmin
  then Fail (EText "you set an admin and passed --no-admin, those cannot both be true")
  else
    adminStr ← parse_admin kr adminStr;
    Ret (amount, label, adminStr).
Definition parseInstantiateArgs (rawCodeID initMsg : string) (kr : Keyring_) (sender : string)
    (fs : FlagSet) : outcome MsgInstantiateContract :=
  codeID ← orErr (ParseUint rawCodeID);
  '(amount, label, adminStr) ← instantiate_flags kr fs;
  let msg := mkMsgInstantiateContract sender adminStr codeID label (bytes_of_string initMsg) amount in
  orValid msg (MsgInstantiateContract_ValidateBasic msg).
Definition instantiateFlags : list (string * FlagType) :=
  [(flagAmount, FString); (flagLabel, FString); (flagAdmin, FString); (flagNoAdmin, FBool)].
Definition InstantiateContractCmd : Command Tx :=
  mkCommand "instantiate" ["start"; "init"; "inst"; "i"] (ExactArgs 2) instantiateFlags (fun fs args =>
    clientCtx ← orErr (GetClientTxContext fs);
    a0 ← arg args 0; a1 ← arg args 1;
    msg ← parseInstantiateArgs a0 a1 (Keyring clientCtx) (from clientCtx) fs;
    tx_wasm (WInstantiateContract msg)).

(** *** Encodings of arguments (query.go) *)

Record argumentDecoder := mkArgumentDecoder {
  dec : string -> bytes + error;
  asciiF : bool; hexF : bool; b64F : bool;
}.
Definition asciiDecodeString (s : string) : bytes + error := inl (bytes_of_string s).
(** The decoder once the flags are parsed into it. *)
Definition newArgDecoder (def : string -> bytes + error) (fs : FlagSet) : argumentDecoder :=
  mkArgumentDecoder def (BoolVar fs "ascii") (BoolVar fs "hex") (BoolVar fs "b64").
Definition RegisterFlags : list (string * FlagType) :=
  [("ascii", FBool); ("hex", FBool); ("b64", FBool)].
(** The loop that looks for the one flag that is set. *)
Fixpoint find_flag (i : nat) (found : option nat) (flags : list bool) : option nat + error :=
  match flags with
  | [] => inl found
  | v :: flags' =>
      if negb v then find_flag (S i) found flags'
      else match found with
           | Some _ => inr (EText "multiple decoding flags used")
           | None => find_flag (S i) (Some i) flags'
           end
  end.
Definition DecodeString (a : argumentDecoder) (s : string) : bytes + error :=
  match find_flag 0 None [asciiF a; hexF a; b64F a] with
  | inr err => inr err
  | inl (Some 0%nat) => asciiDecodeString s
  | inl (Some 1%nat) => hex_DecodeString s
  | inl (Some 2%nat) => base64_DecodeString s
  | inl _ => dec a s
  end.

Definition instantiate2 (data : MsgInstantiateContract) (salt : bytes) (fixMsg : bool) : MsgInstantiateContract2 :=
  mkMsgInstantiateContract2 (I_Sender data) (I_Admin data) (I_CodeID data) (I_Label data) (I_Msg data)
    (I_Funds data) salt fixMsg.
Definition instantiate2Flags : list (string * FlagType) :=
  instantiateFlags ++ (flagFixMsg, FBool) :: RegisterFlags.
Definition InstantiateContract2Cmd : Command Tx :=
  mkCommand "instantiate2" ["start"; "init"; "inst"; "i"] (ExactArgs 3) instantiate2Flags (fun fs args =>
    clientCtx ← orErr (GetClientTxContext fs);
    a2 ← arg args 2;
    salt ← orErrorf "salt: " (DecodeString (newArgDecoder hex_DecodeString fs) a2);
    fixMsg ← orErrorf "fix msg: " (GetBool fs flagFixMsg);
    a0 ← arg args 0; a1 ← arg args 1;
    data ← parseInstantiateArgs a0 a1 (Keyring clientCtx) (from clientCtx) fs;
    tx_wasm (WInstantiateContract2 (instantiate2 data salt fixMsg))).

Definition parseExecuteArgs (contractAddr execMsg : string) (sender : AccAddress) (fs : FlagSet)
    : outcome MsgExecuteContract :=
  amountStr ← orErrorf "amount: " (GetString fs flagAmount);
  amount ← orErr (ParseCoinsNormalized amountStr);
  Ret (mkMsgExecuteContract (acc_string sender) contractAddr (bytes_of_string execMsg) amount).
Definition ExecuteContractCmd : Command Tx :=
  mkCommand "execute" ["run"; "call"; "exec"; "ex"; "e"] (ExactArgs 2) [(flagAmount, FString)] (fun fs args =>
    clientCtx ← orErr (GetClientTxContext fs);
    a0 ← arg args 0; a1 ← arg args 1;
    msg ← parseExecuteArgs a0 a1 (GetFromAddress clientCtx) fs;
    tx_wasm (WExecuteContract msg)).

(** *** Authorizations *)

Definition NewMaxFundsLimit (max : list sdkCoin) : outcome ContractAuthzLimitX :=
  obind (NewCoins max) (fun amounts => Ret (MaxFundsLimit amounts)).
(** The limit that the flags ask for. *)
Definition grant_limit (maxFundsStr : string) (maxCalls : N) (noTokenTransfer : bool)
    : outcome ContractAuthzLimitX :=
  let funds := negb (bool_decide (maxFundsStr = "")) in
  let calls := negb (maxCalls =? 0)%N in
  if funds && calls && negb noTokenTransfer then
    maxFunds ← orErrorf "max funds: " (ParseCoinsNormalized maxFundsStr);
    NewCombinedLimit maxCalls maxFunds
  else if funds && negb calls && negb noTokenTransfer then
    maxFunds ← orErrorf "max funds: " (ParseCoinsNormalized maxFundsStr);
    NewMaxFundsLimit maxFunds
  else if calls && noTokenTransfer && negb funds then Ret (MaxCallsLimit maxCalls)
  else Fail (EText "invalid limit setup").
Definition grant_filter (allowAllMsgs : bool) (msgKeys rawMsgs : list string)
    : outcome ContractAuthzFilterX :=
  let keys := negb (Nat.eqb (length msgKeys) 0) in
  let raw := negb (Nat.eqb (length rawMsgs) 0) in
  if (allowAllMsgs && keys) || (allowAllMsgs && raw) || (keys && raw)
  then Fail (EText "cannot set more than one filter within one grant")
  else if allowAllMsgs then Ret AllowAllMessagesFilter
  else if keys then Ret (AcceptedMessageKeysFilter msgKeys)
  else if raw then Ret (AcceptedMessagesFilter (bytes_of_string <$> rawMsgs))
  else Fail (EText "invalid filter setup").
Definition grant_authorization (type : string) (grant : ContractGrant) : outcome Authorization :=
  if bool_decide (type = "execution") then Ret (ContractExecutionAuthorization [grant])
  else if bool_decide (type = "migration") then Ret (ContractMigrationAuthorization [grant])
  else Fail (EText (String.append type " authorization type not supported")).
Definition getExpireTime (fs : FlagSet) : outcome (option Z) :=
  exp ← orErr (GetInt64 fs flagExpiration);
  Ret (if (exp =? 0)%Z then None else Some exp).
Definition NewMsgGrant (granter grantee : AccAddress) (a : Authorization + list CodeGrant)
    (expire : option Z) : outcome Tx :=
  orValid (TxGrant granter grantee a expire) (MsgGrant_err a).

Definition GrantAuthorizationCmd : Command Tx := mkCommand "contract" [] (ExactArgs 3)
  [(flagAllowedMsgKeys, FStringSlice); (flagAllowedRawMsgs, FStringSlice); (flagMaxCalls, FUint64);
   (flagMaxFunds, FString); (flagExpiration, FInt64); (flagAllowAllMsgs, FBool);
   (flagNoTokenTransfer, FBool)] (fun fs args =>
    clientCtx ← orErr (GetClientTxContext fs);
    a0 ← arg args 0;
    grantee ← orErr (AccAddressFromBech32 a0);
    a2 ← arg args 2;
    contract ← orErr (AccAddressFromBech32 a2);
    msgKeys ← orErr (GetStringSlice fs flagAllowedMsgKeys);
    rawMsgs ← orErr (GetStringSlice fs flagAllowedRawMsgs);
    maxFundsStr ← orErrorf "max funds: " (GetString fs flagMaxFunds);
    maxCalls ← orErr (GetUint64 fs flagMaxCalls);
    exp ← orErr (GetInt64 fs flagExpiration);
    if (exp =? 0)%Z then Fail (EText "expiration must be set") else
    allowAllMsgs ← orErr (GetBool fs flagAllowAllMsgs);
    noTokenTransfer ← orErr (GetBool fs flagNoTokenTransfer);
    limit ← grant_limit maxFundsStr maxCalls noTokenTransfer;
    filter ← grant_filter allowAllMsgs msgKeys rawMsgs;
    grant ← orErr (NewContractGrant (Some contract) limit filter);
    a1 ← arg args 1;
    authorization ← grant_authorization a1 grant;
    expire ← getExpireTime fs;
    NewMsgGrant (GetFromAddress clientCtx) (Some grantee) (inl authorization) expire).

Definition parseAccessConfig (raw : string) : outcome AccessConfig :=
  if bool_decide (raw = "nobody") then Ret AllowNobody
  else if bool_decide (raw = "everybody") then Ret AllowEverybody
  else
    addrs ← parse_addresses "unable to parse address %q: " (Split raw ","%char);
    (* a panic of With is recovered *)
    match With AccessTypeAnyOfAddresses addrs with
    | Ret cfg => orValid cfg (AccessConfig_ValidateBasic cfg)
    | Panic (PError err) => Fail err
    | Fail err => Fail err
    | Panic _ => Panic (PRuntime "interface conversion")
    end.
Fixpoint parseStoreCodeGrants (args : list string) : outcome (list CodeGrant) :=
  match args with
  | [] => Ret []
  | c :: args' =>
      match Split c ":"%char with
      | [hash; access] =>
          grant ← (if bool_decide (access = "*") then Ret (mkCodeGrant (bytes_of_string hash) None)
                   else accessConfig ← parseAccessConfig access;
                        Ret (mkCodeGrant (bytes_of_string hash) (Some accessConfig)));
          grants ← parseStoreCodeGrants args'; Ret (grant :: grants)
      | _ => Fail (EText "invalid format")
      end
  end.
Definition GrantStoreCodeAuthorizationCmd : Command Tx := mkCommand "store-code" [] (MinimumNArgs 2)
  [(flagExpiration, FInt64)] (fun fs args =>
    clientCtx ← orErr (GetClientTxContext fs);
    a0 ← arg args 0;
    grantee ← orErr (AccAddressFromBech32 a0);
    grants ← parseStoreCodeGrants (drop 1 args);
    expire ← getExpireTime fs;
    NewMsgGrant (GetFromAddress clientCtx) (Some grantee) (inr grants) expire).

(** ** new_tx.go *)

Definition parseMigrateContractArgs (args : list string) (sender : string) : outcome MsgMigrateContract :=
  a1 ← arg args 1;
  codeID ← match ParseUint a1 with inl n => Ret n | inr err => Fail (Wrap err "code id") end;
  migrateMsg ← arg args 2; a0 ← arg args 0;
  let msg := mkMsgMigrateContract sender a0 codeID (bytes_of_string migrateMsg) in
  orValid msg (MsgMigrateContract_ValidateBasic msg).
Definition MigrateContractCmd : Command Tx :=
  mkCommand "migrate" ["update"; "mig"; "m"] (ExactArgs 3) [] (fun fs args =>
    clientCtx ← orErr (GetClientTxContext fs);
    msg ← parseMigrateContractArgs args (from clientCtx);
    tx_wasm (WMigrateContract msg)).

Definition parseUpdateContractAdminArgs (args : list string) (sender : string) : outcome MsgUpdateAdmin :=
  a0 ← arg args 0; a1 ← arg args 1;
  let msg := mkMsgUpdateAdmin sender a1 a0 in
  orValid msg (MsgUpdateAdmin_ValidateBasic msg).
Definition UpdateContractAdminCmd : Command Tx :=
  mkCommand "set-contract-admin" ["new-admin"; "admin"; "set-adm"; "sa"] (ExactArgs 2) [] (fun fs args =>
    clientCtx ← orErr (GetClientTxContext fs);
    msg ← parseUpdateContractAdminArgs args (from clientCtx);
    tx_wasm (WUpdateAdmin msg)).

Definition ClearContractAdminCmd : Command Tx :=
  mkCommand "clear-contract-admin" ["clear-admin"; "clr-adm"] (ExactArgs 1) [] (fun fs args =>
    clientCtx ← orErr (GetClientTxContext fs);
    a0 ← arg args 0;
    let msg := mkMsgClearAdmin (from clientCtx) a0 in
    msg ← orValid msg (MsgClearAdmin_ValidateBasic msg);
    tx_wasm (WClearAdmin msg)).

Definition UpdateInstantiateConfigCmd : Command Tx :=
  mkCommand "update-instantiate-config" ["update-instantiate-config"] (ExactArgs 1)
  addInstantiatePermissionFlags (fun fs args =>
    clientCtx ← orErr (GetClientTxContext fs);
    a0 ← arg args 0;
    codeID ← orErr (ParseUint a0);
    perm ← parseAccessConfigFlags fs;
    let msg := mkMsgUpdateInstantiateConfig (from clientCtx) codeID perm in
    msg ← orValid msg (MsgUpdateInstantiateConfig_ValidateBasic msg);
    tx_wasm (WUpdateInstantiateConfig msg)).

Definition UpdateContractLabelCmd : Command Tx :=
  mkCommand "set-contract-label" [] (ExactArgs 2) [] (fun fs args =>
    clientCtx ← orErr (GetClientTxContext fs);
    a0 ← arg args 0; a1 ← arg args 1;
    let msg := mkMsgUpdateContractLabel (from clientCtx) a1 a0 in
    msg ← orValid msg (MsgUpdateContractLabel_ValidateBasic msg);
    tx_wasm (WUpdateContractLabel msg)).

(** ** gov_tx.go *)

Definition DefaultGovAuthority : bytes := gov_address.
Definition FlagTitle : string := "title".
Definition FlagSummary : string := "summary".
Definition FlagDeposit : string := "deposit".
Definition addCommonProposalFlags : list (string * FlagType) :=
  [(FlagTitle, FString); (FlagSummary, FString); (FlagDeposit, FString); (flagAuthority, FString);
   (flagExpedite, FBool)].

Record ProposalInfo := mkProposalInfo {
  PI_clientCtx : ClientContext;
  PI_title : string; PI_summary : string; PI_deposit : Coins; PI_expedite : bool;
}.
Definition getProposalInfo (fs : FlagSet) : outcome ProposalInfo :=
  clientCtx ← orErr (GetClientTxContext fs);
  proposalTitle ← orErr (GetString fs FlagTitle);
  summary ← orErr (GetString fs FlagSummary);
  depositArg ← orErr (GetString fs FlagDeposit);
  deposit ← orErr (ParseCoinsNormalized depositArg);
  expedite ← orErr (GetBool fs flagExpedite);
  Ret (mkProposalInfo clientCtx proposalTitle summary deposit expedite).
Definition get_authority (fs : FlagSet) : outcome string :=
  authority ← orErrorf "authority: " (GetString fs flagAuthority);
  if bool_decide (authority = "") then Fail (EText "authority address is required") else Ret authority.
Definition NewMsgSubmitProposal (msgs : list WasmMsg) (i : ProposalInfo) : outcome Tx :=
  orValid (TxProposal msgs (PI_deposit i) (from (PI_clientCtx i)) "" (PI_title i) (PI_summary i)
             (PI_expedite i)) (MsgSubmitProposal_err msgs).
(** The frame of the commands: the proposal with the messages that are made
    in the name of the authority. *)
Definition proposal (messages : ClientContext -> string -> FlagSet -> list string -> outcome (list WasmMsg))
    (fs : FlagSet) (args : list string) : outcome Tx :=
  info ← getProposalInfo fs;
  authority ← get_authority fs;
  msgs ← messages (PI_clientCtx info) authority fs args;
  NewMsgSubmitProposal msgs info.
Definition one (msg : WasmMsg) : outcome (list WasmMsg) := Ret [msg].

Definition ProposalStoreCodeCmd : Command Tx := mkCommand "wasm-store" [] (ExactArgs 1)
  (addInstantiatePermissionFlags ++ addCommonProposalFlags)
  (proposal (fun _ authority fs args =>
    a0 ← arg args 0;
    storeCodeMsg ← parseStoreCodeArgs a0 authority fs;
    one (WStoreCode storeCodeMsg))).

Definition parseVerificationFlags (gzippedWasm : bytes) (fs : FlagSet)
    : outcome (string * string * option bytes) :=
  source ← orErrorf "source: " (GetString fs flagSource);
  builder ← orErrorf "builder: " (GetString fs flagBuilder);
  codeHash ← orErrorf "codeHash: " (GetBytesHex fs flagCodeHash);
  let hash := default [] codeHash in
  if negb (bool_decide (source = "")) || negb (bool_decide (builder = "")) || negb (Nat.eqb (length hash) 0)
  then
    if bool_decide (source = "") then Fail (EText "source is required") else
    match url_ParseRequestURI source with
    | Some err => Fail (EText (String.append "source: " (error_string err)))
    | None =>
    if bool_decide (builder = "") then Fail (EText "builder is required") else
    match ParseDockerRef builder with
    | Some err => Fail (EText (String.append "builder: " (error_string err)))
    | None =>
    if Nat.eqb (length hash) 0 then Fail (EText "code hash is required") else
    raw ← orErrorf "invalid zip: " (Uncompress gzippedWasm MaxWasmSize);
    checksum ← orErrorf "checksum: " (CreateChecksum raw);
    if negb (bool_decide (checksum = hash)) then Fail (EText "code-hash mismatch: %X, checksum: %X")
    else Ret (source, builder, codeHash)
    end end
  else Ret (source, builder, codeHash).

Definition ProposalInstantiateContractCmd : Command Tx := mkCommand "instantiate-contract" [] (ExactArgs 2)
  (instantiateFlags ++ addCommonProposalFlags)
  (proposal (fun clientCtx authority fs args =>
    a0 ← arg args 0; a1 ← arg args 1;
    instantiateMsg ← parseInstantiateArgs a0 a1 (Keyring clientCtx) authority fs;
    one (WInstantiateContract instantiateMsg))).

Definition ProposalInstantiateContract2Cmd : Command Tx := mkCommand "instantiate-contract-2" [] (ExactArgs 3)
  (instantiate2Flags ++ addCommonProposalFlags) (fun fs args =>
    info ← getProposalInfo fs;
    a2 ← arg args 2;
    salt ← orErrorf "salt: " (DecodeString (newArgDecoder hex_DecodeString fs) a2);
    fixMsg ← orErrorf "fix msg: " (GetBool fs flagFixMsg);
    authority ← get_authority fs;
    a0 ← arg args 0; a1 ← arg args 1;
    data ← parseInstantiateArgs a0 a1 (Keyring (PI_clientCtx info)) authority fs;
    NewMsgSubmitProposal [WInstantiateContract2 (instantiate2 data salt fixMsg)] info).

Definition ProposalStoreAndInstantiateContractCmd : Command Tx :=
  mkCommand "store-instantiate" [] (ExactArgs 2)
  ([(flagUnpinCode, FBool); (flagSource, FString); (flagBuilder, FString); (flagCodeHash, FBytesHex)]
   ++ instantiateFlags ++ addInstantiatePermissionFlags ++ addCommonProposalFlags)
  (proposal (fun clientCtx authority fs args =>
    a0 ← arg args 0;
    storeCodeMsg ← parseStoreCodeArgs a0 authority fs;
    unpinCode ← orErr (GetBool fs flagUnpinCode);
    '(source, builder, codeHash) ← parseVerificationFlags (SC_WASMByteCode storeCodeMsg) fs;
    '(amount, label, adminStr) ← instantiate_flags (Keyring clientCtx) fs;
    a1 ← arg args 1;
    let msg := mkMsgStoreAndInstantiateContract authority (SC_WASMByteCode storeCodeMsg)
      (SC_InstantiatePermission storeCodeMsg) unpinCode adminStr label (bytes_of_string a1) amount
      source builder codeHash in
    msg ← orValid msg (MsgStoreAndInstantiateContract_ValidateBasic msg);
    one (WStoreAndInstantiateContract msg))).

Definition ProposalMigrateContractCmd : Command Tx := mkCommand "migrate-contract" [] (ExactArgs 3)
  addCommonProposalFlags
  (proposal (fun _ authority fs args =>
    migrateMsg ← parseMigrateContractArgs args authority;
    one (WMigrateContract migrateMsg))).

Definition ProposalExecuteContractCmd : Command Tx := mkCommand "execute-contract" [] (ExactArgs 2)
  ((flagAmount, FString) :: addCommonProposalFlags)
  (proposal (fun _ authority fs args =>
    contract ← arg args 0; execMsg ← arg args 1;
    amountStr ← orErrorf "amount: " (GetString fs flagAmount);
    funds ← orErrorf "amount: " (ParseCoinsNormalized amountStr);
    let msg := mkMsgExecuteContract authority contract (bytes_of_string execMsg) funds in
    msg ← orValid msg (MsgExecuteContract_ValidateBasic msg);
    one (WExecuteContract msg))).

Definition ProposalSudoContractCmd : Command Tx := mkCommand "sudo-contract" [] (ExactArgs 2)
  addCommonProposalFlags
  (proposal (fun _ authority fs args =>
    a0 ← arg args 0; a1 ← arg args 1;
    let msg := mkMsgSudoContract authority a0 (bytes_of_string a1) in
    msg ← orValid msg (MsgSudoContract_ValidateBasic msg);
    one (WSudoContract msg))).

Definition ProposalUpdateContractAdminCmd : Command Tx := mkCommand "set-contract-admin" [] (ExactArgs 2)
  addCommonProposalFlags
  (proposal (fun _ authority fs args =>
    msg ← parseUpdateContractAdminArgs args authority;
    one (WUpdateAdmin msg))).

Definition ProposalClearContractAdminCmd : Command Tx := mkCommand "clear-contract-admin" [] (ExactArgs 1)
  addCommonProposalFlags
  (proposal (fun _ authority fs args =>
    a0 ← arg args 0;
    let msg := mkMsgClearAdmin authority a0 in
    msg ← orValid msg (MsgClearAdmin_ValidateBasic msg);
    one (WClearAdmin msg))).

Fixpoint parsePinCodesArgs (args : list string) : outcome (list N) :=
  match args with
  | [] => Ret []
  | c :: args' =>
      codeID ← orErrorf "code IDs: " (ParseUint c);
      codeIDs ← parsePinCodesArgs args'; Ret (codeID :: codeIDs)
  end.
Definition ProposalPinCodesCmd : Command Tx := mkCommand "pin-codes" [] (MinimumNArgs 1)
  addCommonProposalFlags
  (proposal (fun _ authority fs args =>
    codeIds ← parsePinCodesArgs args;
    let msg := mkMsgPinCodes authority codeIds in
    msg ← orValid msg (MsgPinCodes_ValidateBasic msg);
    one (WPinCodes msg))).
Definition ProposalUnpinCodesCmd : Command Tx := mkCommand "unpin-codes" [] (MinimumNArgs 1)
  addCommonProposalFlags
  (proposal (fun _ authority fs args =>
    codeIds ← parsePinCodesArgs args;
    let msg := mkMsgUnpinCodes authority codeIds in
    msg ← orValid msg (MsgUnpinCodes_ValidateBasic msg);
    one (WUnpinCodes msg))).

(** AccessConfigUpdate *)
Definition parse_update (c : string) : outcome (N * AccessConfig) :=
  match Split c ":"%char with
  | [id; access] =>
      codeID ← orErrorf "invalid code ID: " (ParseUint id);
      accessConfig ← parseAccessConfig access;
      Ret (codeID, accessConfig)
  | _ => Fail (EText "invalid format")
  end.
Fixpoint parseAccessConfigUpdates (args : list string) : outcome (list (N * AccessConfig)) :=
  match args with
  | [] => Ret []
  | c :: args' => update ← parse_update c; updates ← parseAccessConfigUpdates args'; Ret (update :: updates)
  end.
Fixpoint update_msgs (authority : string) (updates : list (N * AccessConfig)) : outcome (list WasmMsg) :=
  match updates with
  | [] => Ret []
  | update :: updates' =>
      let msg := mkMsgUpdateInstantiateConfig authority update.1 (Some update.2) in
      msg ← orValid msg (MsgUpdateInstantiateConfig_ValidateBasic msg);
      msgs ← update_msgs authority updates'; Ret (WUpdateInstantiateConfig msg :: msgs)
  end.
Definition ProposalUpdateInstantiateConfigCmd : Command Tx :=
  mkCommand "update-instantiate-config" [] (MinimumNArgs 1) addCommonProposalFlags
  (proposal (fun _ authority fs args =>
    updates ← parseAccessConfigUpdates args;
    update_msgs authority updates)).

Definition ProposalAddCodeUploadParamsAddresses : Command Tx :=
  mkCommand "add-code-upload-params-addresses" [] (MinimumNArgs 1) addCommonProposalFlags
  (proposal (fun _ authority fs args =>
    one (WAddCodeUploadParamsAddresses (mkMsgAddCodeUploadParamsAddresses authority args)))).
Definition ProposalRemoveCodeUploadParamsAddresses : Command Tx :=
  mkCommand "remove-code-upload-params-addresses" [] (MinimumNArgs 1) addCommonProposalFlags
  (proposal (fun _ authority fs args =>
    one (WRemoveCodeUploadParamsAddresses (mkMsgRemoveCodeUploadParamsAddresses authority args)))).

Definition ProposalStoreAndMigrateContractCmd : Command Tx :=
  mkCommand "store-migrate" [] (ExactArgs 3) (addInstantiatePermissionFlags ++ addCommonProposalFlags)
  (proposal (fun _ authority fs args =>
    a0 ← arg args 0;
    storeCodeMsg ← parseStoreCodeArgs a0 authority fs;
    a2 ← arg args 2; a1 ← arg args 1;
    one (WStoreAndMigrateContract (mkMsgStoreAndMigrateContract authority (SC_WASMByteCode storeCodeMsg)
      (SC_InstantiatePermission storeCodeMsg) a1 (bytes_of_string a2))))).

(** The commands below tx wasm, with those of its subcommands grant and
    submit-proposal. *)
Definition GrantCmd : list (Command Tx) := [GrantAuthorizationCmd; GrantStoreCodeAuthorizationCmd].
Definition SubmitProposalCmd : list (Command Tx) :=
  [ProposalStoreCodeCmd; ProposalInstantiateContractCmd; ProposalInstantiateContract2Cmd;
   ProposalStoreAndInstantiateContractCmd; ProposalMigrateContractCmd; ProposalExecuteContractCmd;
   ProposalSudoContractCmd; ProposalUpdateContractAdminCmd; ProposalClearContractAdminCmd;
   ProposalPinCodesCmd; ProposalUnpinCodesCmd; ProposalUpdateInstantiateConfigCmd;
   ProposalAddCodeUploadParamsAddresses; ProposalRemoveCodeUploadParamsAddresses;
   ProposalStoreAndMigrateContractCmd].
Definition GetTxCmd : list (Command Tx) :=
  [StoreCodeCmd; InstantiateContractCmd; InstantiateContract2Cmd; ExecuteContractCmd; MigrateContractCmd;
   UpdateContractAdminCmd; ClearContractAdminCmd] ++ GrantCmd
  ++ [UpdateInstantiateConfigCmd] ++ SubmitProposalCmd ++ [UpdateContractLabelCmd].

(** ** query.go *)

(** What is asked of the node, and what is done with the answer: most
    commands print it. *)
Inductive Request :=
| QCodes (pagination : option PageRequest)
| QContractsByCode (req : QueryCodePage)
| QCode (codeID : N) (outputFile : string)
| QCodeInfo (codeID : N)
| QContractInfo (address : string)
| QAllContractState (req : QueryAddressPage)
| QRawContractState (req : QueryContractState)
| QSmartContractState (req : QueryContractState)
| QContractHistory (req : QueryAddressPage)
| QPinnedCodes (pagination : option PageRequest)
| QContractsByCreator (req : QueryAddressPage)
| QBuildAddress (req : QueryBuildAddressRequest)
| QParams.

Definition FlagPageKey : string := "page-key".
Definition FlagLimit : string := "limit".
Definition FlagReverse : string := "reverse".
Definition addPaginationFlags : list (string * FlagType) :=
  [(FlagPageKey, FString); (FlagLimit, FUint64); (FlagReverse, FBool)].
Definition withPageKeyDecoded (fs : FlagSet) : outcome FlagSet :=
  let must {A} (r : A + error) : outcome A :=
    match r with inl a => Ret a | inr err => Panic (PText (error_string err)) end in
  encoded ← must (GetString fs FlagPageKey);
  raw ← must (base64_DecodeString encoded);
  must (Set_ fs FlagPageKey (string_of_bytes raw)).
Definition page_request (fs : FlagSet) : outcome (option PageRequest) :=
  fs ← withPageKeyDecoded fs; orErr (ReadPageRequest fs).
(** An argument that has to be an address. *)
Definition address_arg (args : list string) (i : nat) : outcome string :=
  a ← arg args i; _ ← orErr (AccAddressFromBech32 a); Ret a.

Definition GetCmdBuildAddress : Command Request :=
  mkCommand "build-address" ["address"] (RangeArgs 3 4) RegisterFlags (fun fs args =>
    _ ← orErr (GetClientQueryContext fs);
    initArgs ← (if Nat.eqb (length args) 4 then a3 ← arg args 3; Ret (Some (bytes_of_string a3)) else Ret None);
    a0 ← arg args 0; a1 ← arg args 1; a2 ← arg args 2;
    Ret (QBuildAddress (mkQueryBuildAddressRequest a0 a1 a2 initArgs))).
Definition GetCmdListCode : Command Request :=
  mkCommand "list-code" ["list-codes"; "codes"; "lco"] (ExactArgs 0) addPaginationFlags (fun fs args =>
    _ ← orErr (GetClientQueryContext fs);
    pageReq ← page_request fs;
    Ret (QCodes pageReq)).
Definition GetCmdListContractByCode : Command Request :=
  mkCommand "list-contract-by-code" ["list-contracts-by-code"; "list-contracts"; "contracts"; "lca"]
  (ExactArgs 1) addPaginationFlags (fun fs args =>
    _ ← orErr (GetClientQueryContext fs);
    a0 ← arg args 0;
    codeID ← orErr (ParseUint a0);
    if (codeID =? 0)%N then Fail (EText "empty code id") else
    pageReq ← page_request fs;
    Ret (QContractsByCode (mkQueryCodePage codeID pageReq))).
Definition GetCmdQueryCode : Command Request :=
  mkCommand "code" ["source-code"; "source"] (ExactArgs 2) [] (fun fs args =>
    _ ← orErr (GetClientQueryContext fs);
    a0 ← arg args 0;
    codeID ← orErr (ParseUint a0);
    a1 ← arg args 1;
    Ret (QCode codeID a1)).
(** What GetCmdQueryCode does with the answer: the file and its content. *)
Definition write_code (outputFile : string) (data : bytes) : outcome (string * bytes) :=
  if Nat.eqb (length data) 0 then Fail (EText "contract not found") else Ret (outputFile, data).
Definition GetCmdQueryCodeInfo : Command Request := mkCommand "code-info" [] (ExactArgs 1) [] (fun fs args =>
    _ ← orErr (GetClientQueryContext fs);
    a0 ← arg args 0;
    codeID ← orErr (ParseUint a0);
    Ret (QCodeInfo codeID)).
Definition GetCmdGetContractInfo : Command Request :=
  mkCommand "contract" ["meta"; "c"] (ExactArgs 1) [] (fun fs args =>
    _ ← orErr (GetClientQueryContext fs);
    a0 ← address_arg args 0;
    Ret (QContractInfo a0)).
Definition GetCmdGetContractStateAll : Command Request :=
  mkCommand "all" [] (ExactArgs 1) addPaginationFlags (fun fs args =>
    _ ← orErr (GetClientQueryContext fs);
    a0 ← address_arg args 0;
    pageReq ← page_request fs;
    Ret (QAllContractState (mkQueryAddressPage a0 pageReq))).
Definition GetCmdGetContractStateRaw : Command Request :=
  mkCommand "raw" [] (ExactArgs 2) RegisterFlags (fun fs args =>
    _ ← orErr (GetClientQueryContext fs);
    a0 ← address_arg args 0;
    a1 ← arg args 1;
    queryData ← orErr (DecodeString (newArgDecoder hex_DecodeString fs) a1);
    Ret (QRawContractState (mkQueryContractState a0 (Some queryData)))).
Definition GetCmdGetContractStateSmart : Command Request :=
  mkCommand "smart" [] (ExactArgs 2) RegisterFlags (fun fs args =>
    _ ← orErr (GetClientQueryContext fs);
    a0 ← address_arg args 0;
    a1 ← arg args 1;
    if bool_decide (a1 = "") then Fail (EText "query data must not be empty") else
    queryData ← orErrorf "decode query: " (DecodeString (newArgDecoder asciiDecodeString fs) a1);
    if negb (json_Valid queryData) then Fail (EText "query data must be json") else
    Ret (QSmartContractState (mkQueryContractState a0 (Some queryData)))).
Definition GetCmdGetContractHistory : Command Request :=
  mkCommand "contract-history" ["history"; "hist"; "ch"] (ExactArgs 1) addPaginationFlags (fun fs args =>
    _ ← orErr (GetClientQueryContext fs);
    a0 ← address_arg args 0;
    pageReq ← page_request fs;
    Ret (QContractHistory (mkQueryAddressPage a0 pageReq))).
Definition GetCmdListPinnedCode : Command Request :=
  mkCommand "pinned" [] (ExactArgs 0) addPaginationFlags (fun fs args =>
    _ ← orErr (GetClientQueryContext fs);
    pageReq ← page_request fs;
    Ret (QPinnedCodes pageReq)).
Definition GetCmdListContractsByCreator : Command Request :=
  mkCommand "list-contracts-by-creator" [] (ExactArgs 1) addPaginationFlags (fun fs args =>
    _ ← orErr (GetClientQueryContext fs);
    a0 ← address_arg args 0;
    pageReq ← page_request fs;
    Ret (QContractsByCreator (mkQueryAddressPage a0 pageReq))).
Definition GetCmdQueryParams : Command Request := mkCommand "params" [] (ExactArgs 0) [] (fun fs args =>
    _ ← orErr (GetClientQueryContext fs);
    Ret QParams).
Definition GetCmdGetContractState : list (Command Request) :=
  [GetCmdGetContractStateAll; GetCmdGetContractStateRaw; GetCmdGetContractStateSmart].
(** Without libwasmvm-version, which asks the library and not the node. *)
Definition GetQueryCmd : list (Command Request) :=
  [GetCmdListCode; GetCmdListContractByCode; GetCmdQueryCode; GetCmdQueryCodeInfo; GetCmdGetContractInfo;
   GetCmdGetContractHistory] ++ GetCmdGetContractState
  ++ [GetCmdListPinnedCode; GetCmdQueryParams; GetCmdBuildAddress; GetCmdListContractsByCreator].

End Client.
End Client.

(** ** utils.go *)

Module Reset.
Section Reset.
(** Files, os.RemoveAll and the root directory of the server. *)
Context {Files : Type} (RemoveAll : string -> Files -> option error * Files) (RootDir : string).
(** tmcmd.ResetAllCmd.Use *)
Context (unsafeResetCmd : string).

Record NodeCommand := mkNodeCommand {
  NC_Use : string;
  NC_RunE : list string -> Files -> option error * Files;
}.
Definition extended (cmd : NodeCommand) : NodeCommand :=
  mkNodeCommand (NC_Use cmd) (fun args files =>
    match NC_RunE cmd args files with
    | (Some err, files) => (Some err, files)
    | (None, files) => RemoveAll (Filepath.Join [RootDir; "wasm"]) files
    end).
(** The first command with the name is extended. *)
Fixpoint extend_first (cmds : list NodeCommand) : option (list NodeCommand) :=
  match cmds with
  | [] => None
  | cmd :: cmds' =>
      if bool_decide (NC_Use cmd = unsafeResetCmd) then Some (extended cmd :: cmds')
      else cons cmd <$> extend_first cmds'
  end.
(** The commands below the root command, each with its subcommands. *)
Fixpoint ExtendUnsafeResetAllCmd (branches : list (string * list NodeCommand))
    : list (string * list NodeCommand) :=
  match branches with
  | [] => []
  | (use, cmds) :: branches' =>
      if negb (bool_decide (use = "comet")) then (use, cmds) :: ExtendUnsafeResetAllCmd branches'
      else match extend_first cmds with
           | Some cmds' => (use, cmds') :: branches'
           | None => (use, cmds) :: ExtendUnsafeResetAllCmd branches'
           end
  end.

(** The reset command of the branch comet also removes the wasm directory. *)
Lemma reset_removes_wasm cmd cmds before after branches :
  NC_Use cmd = unsafeResetCmd -> Forall (fun c => NC_Use c <> unsafeResetCmd) before ->
  Forall (fun b : string * list NodeCommand => b.1 <> "comet") branches ->
  cmds = before ++ cmd :: after ->
  ExtendUnsafeResetAllCmd (branches ++ [("comet", cmds)])
  = branches ++ [("comet", before ++ extended cmd :: after)].
Proof.
  intros Hu Hb Hn ->. induction Hn as [|[use l] branches Hne _ IH]; cbn [app ExtendUnsafeResetAllCmd].
  - rewrite bool_decide_true by done. cbn [negb].
    assert (extend_first (before ++ cmd :: after) = Some (before ++ extended cmd :: after)) as ->; [|done].
    induction Hb as [|c before Hc _ IH]; cbn [app extend_first].
    + by rewrite bool_decide_true.
    + rewrite bool_decide_false by done. by rewrite IH.
  - rewrite bool_decide_false by done. cbn [negb]. by rewrite IH.
Qed.

End Reset.
End Reset.
