(* ===== verification/ClientFacts.v ===== *)
(** What the commands of the client guarantee: who signs the messages they
    make, that the messages are valid, which flags they read and when they
    panic; round trips of the texts they parse; and a grant to store code
    that can never be used. *)
From Stdlib Require Import Ascii.
From S2P Require Import Prelude Errors GoStrings Json JsonPrint Types Proto Keys VMTypes Policy GasRegister Chain Logic Engine Store Events Keeper Msgs MsgServer Encoders Checksum Authz Querier Options Snapshots Client.
Import GoStrings Json.Json JsonPrint.JsonPrint Msgs.Msgs MsgServer.MsgServer Authz.Authz Authz.AuthzOps.
Import Encoders.Encoders Strconv Client.Client.
Open Scope wasm_scope.

(** ** Texts *)

Module Texts.
Local Open Scope N_scope.

Lemma digit_char n : n < 10 -> exists b, Ascii.byte_of_ascii (pretty_N_char n) = b
  /\ is_digit b = true /\ Byte.to_N b - 48 = n.
Proof.
  intros Hn. eexists. split; [done|].
  assert (n ∈ [0; 1; 2; 3; 4; 5; 6; 7; 8; 9]) as Hin by (set_unfold; lia).
  clear Hn. repeat (apply elem_of_cons in Hin as [->|Hin]; [by split|]).
  by apply elem_of_nil in Hin.
Qed.
Lemma parse_go t n s :
  n <= maxUint64 -> parse_digits t 0 (bytes_of_string (pretty_N_go n s)) = parse_digits t n (bytes_of_string s).
Proof.
  revert s. induction (N.lt_wf_0 n) as [n _ IH]. intros s Hn.
  destruct (N.eq_dec n 0) as [->|H0]; [done|].
  rewrite pretty_N_go_step by lia. rewrite IH; [|by apply N.div_lt; lia|].
  2: { etrans; [|exact Hn]. apply N.Div0.div_le_upper_bound. lia. }
  destruct (digit_char (n mod 10)) as (b & Hb & Hd & Hv); [by apply N.mod_upper_bound|].
  rewrite bytes_of_String, Hb. cbn [parse_digits]. rewrite Hd, Hv.
  pose proof (N.div_mod n 10 ltac:(done)) as E.
  change cutoff with 1844674407370955162. change maxUint64 with 18446744073709551615 in *.
  rewrite (proj2 (N.leb_gt _ _)) by lia. cbv zeta.
  replace (n / 10 * 10 + n mod 10) with n by lia. by rewrite (proj2 (N.ltb_ge _ _)) by lia.
Qed.
Lemma ParseUint_pretty n : n < 2 ^ 64 -> ParseUint (pretty n) = inl n.
Proof.
  intros Hn. unfold ParseUint, pretty, pretty_N. destruct (decide (n = 0)) as [->|H0]; [done|].
  rewrite bool_decide_false.
  - rewrite parse_go; [done|]. unfold maxUint64. lia.
  - intros E. apply (f_equal bytes_of_string) in E.
    destruct (pretty_go_digits n "" ltac:(lia) (Forall_nil_2 _)) as (d & ds & E' & _). by rewrite E' in E.
Qed.

(** Splitting undoes joining. *)
Fixpoint joined (sep : string) (l : list string) : string :=
  match l with
  | [] => EmptyString
  | [x] => x
  | x :: l' => String.append x (String.append sep (joined sep l'))
  end.
Fixpoint absent (sep : ascii) (s : string) : bool :=
  match s with EmptyString => true | String c s' => negb (Ascii.eqb c sep) && absent sep s' end.
Lemma append_String x a b : String.append (String x a) b = String x (String.append a b).
Proof. done. Qed.
Lemma append_assoc a b c : String.append (String.append a b) c = String.append a (String.append b c).
Proof. induction a as [|x a IH]; [done|]. by rewrite !append_String, IH. Qed.
Lemma append_nil a : String.append a EmptyString = a.
Proof. induction a as [|x a IH]; [done|]. by rewrite append_String, IH. Qed.
Lemma split_absent sep cur x : absent sep x = true -> split sep cur x = [String.append cur x].
Proof.
  revert cur. induction x as [|c x IH]; intros cur; cbn [absent split]; [by rewrite append_nil|].
  intros [Hc Hx]%andb_true_iff. apply negb_true_iff in Hc. rewrite Hc, (IH _ Hx), append_assoc. done.
Qed.
Lemma split_sep sep cur x y :
  absent sep x = true ->
  split sep cur (String.append x (String sep y)) = String.append cur x :: split sep EmptyString y.
Proof.
  revert cur. induction x as [|c x IH]; intros cur; rewrite ?append_String; cbn [absent].
  - intros _. change (String.append EmptyString (String sep y)) with (String sep y). cbn [split]. by rewrite Ascii.eqb_refl, append_nil.
  - intros [Hc Hx]%andb_true_iff. apply negb_true_iff in Hc. cbn [split]. by rewrite Hc, (IH _ Hx), append_assoc.
Qed.
Lemma Split_joined sep l :
  l <> [] -> Forall (fun x => absent sep x = true) l -> Split (joined (String sep EmptyString) l) sep = l.
Proof.
  intros Hl. unfold Split. induction 1 as [|x l Hx Hf IH]; [done|].
  destruct l as [|y l]; [by apply split_absent|].
  change (joined (String sep "") (x :: y :: l))
    with (String.append x (String sep (joined (String sep "") (y :: l)))).
  rewrite split_sep by done. by rewrite IH.
Qed.

(** Decoding base64 and hex undoes encoding. *)
Lemma base64_value_digit n : n < 64 -> base64_value (base64_digit n) = Some n.
Proof.
  intros Hn. unfold base64_value, base64_digit, in_range.
  destruct (N.ltb_spec n 26); [|destruct (N.ltb_spec n 52); [|destruct (N.ltb_spec n 62);
    [|destruct (N.eqb_spec n 62)]]]; rewrite to_N_small by lia;
    repeat match goal with |- context [N.leb ?a ?b] => destruct (N.leb_spec a b); try lia
           | |- context [N.eqb ?a ?b] => destruct (N.eqb_spec a b); try lia end; cbn; f_equal; lia.
Qed.
Lemma digit_not_pad n : n < 64 -> Byte.eqb (base64_digit n) Byte.x3d = false.
Proof. intros Hn. by apply byte_eqb_neq, base64_digit_pad. Qed.
Lemma byte_of_N_eq' n b : n = Byte.to_N b -> byte_of_N n = b.
Proof. intros ->. apply byte_of_to_N. Qed.
Local Ltac Zify.zify_post_hook ::= Z.to_euclidean_division_equations.
Ltac digit := rewrite base64_value_digit by lia; cbn [mbind option_bind].
Lemma base64_quads_roundtrip bs : base64_quads (base64 bs) = Some bs.
Proof.
  assert (forall k bs, (length bs <= k)%nat -> base64_quads (base64 bs) = Some bs) as Hk;
    [|by apply (Hk (length bs))].
  clear bs. induction k as [|k IH]; intros bs Hl; [by destruct bs; [|cbn in Hl; lia]|].
  destruct bs as [|a [|b [|c bs]]]; [done|..]; pose proof (Byte.to_N_bounded a) as Ha;
    cbn [base64 base64_quads].
  - do 2 digit. cbn. do 2 f_equal. apply byte_of_N_eq'. lia.
  - pose proof (Byte.to_N_bounded b) as Hb. do 2 digit. rewrite digit_not_pad by lia. cbn [andb].
    digit. change (Byte.eqb Byte.x3d Byte.x3d) with true. cbv iota.
    do 2 f_equal; [|f_equal]; apply byte_of_N_eq'; lia.
  - pose proof (Byte.to_N_bounded b) as Hb. pose proof (Byte.to_N_bounded c) as Hc.
    do 2 digit. rewrite !digit_not_pad by lia. cbn [andb]. do 2 digit.
    rewrite IH by (cbn in Hl; lia). cbn [mbind option_bind].
    do 2 f_equal; [|f_equal; [|f_equal]]; apply byte_of_N_eq'; lia.
Qed.
Lemma base64_text bs : Forall (fun b => is_line_break b = false) (base64 bs).
Proof.
  assert (forall k bs, (length bs <= k)%nat -> Forall (fun b => is_line_break b = false) (base64 bs)) as Hk;
    [|by apply (Hk (length bs))].
  clear bs. induction k as [|k IH]; intros bs Hl; [by destruct bs; [|cbn in Hl; lia]|].
  assert (forall n, is_line_break (base64_digit n) = false) as Hd.
  { intros n. unfold is_line_break, base64_digit.
    assert (forall m, (43 <= m < 123) -> Byte.eqb (byte_of_N m) Byte.x0a || Byte.eqb (byte_of_N m) Byte.x0d = false) as Hm.
    { intros m Hm. apply orb_false_iff. split; apply byte_eqb_neq; intros E; apply (f_equal Byte.to_N) in E;
        rewrite to_N_small in E by lia; cbn in E; lia. }
    apply Hm. repeat case_match; rewrite ?N.ltb_lt, ?N.ltb_ge, ?N.eqb_eq, ?N.eqb_neq in *; lia. }
  destruct bs as [|a [|b [|c bs]]]; [by constructor|..]; cbn [base64];
    repeat (apply Forall_cons; split; [by first [apply Hd|reflexivity]|]); try by constructor.
  apply IH. cbn [length] in Hl. lia.
Qed.
Lemma base64_roundtrip bs : base64_DecodeString (string_of_bytes (base64 bs)) = inl bs.
Proof.
  unfold base64_DecodeString. rewrite bytes_of_string_of_bytes, Querier.filter_all by (apply Forall_forall, base64_text).
  by rewrite base64_quads_roundtrip.
Qed.

Lemma hex_value_of n : n < 16 -> Querier.hex_value (hex_digit n) = Some n.
Proof.
  intros Hn. unfold Querier.hex_value, hex_digit.
  destruct (N.ltb_spec n 10); rewrite to_N_small by lia;
    repeat match goal with |- context [N.leb ?a ?b] => destruct (N.leb_spec a b); try lia end;
    cbn; f_equal; lia.
Qed.
Lemma hex_roundtrip bs : hex_DecodeString (hex_encode bs) = inl bs.
Proof.
  unfold hex_DecodeString, hex_encode. rewrite bytes_of_string_of_bytes.
  induction bs as [|b bs IH]; [done|]. rewrite fmap_cons. cbn [concat app hex_decode].
  pose proof (Byte.to_N_bounded b). rewrite !hex_value_of by lia. rewrite IH.
  do 2 f_equal. apply byte_of_N_eq'. lia.
Qed.
(** The text of a hash has twice as many characters as the hash has bytes. *)
Lemma hex_runes bs : length (runes (bytes_of_string (hex_encode bs))) = (2 * length bs)%nat.
Proof.
  unfold hex_encode. rewrite bytes_of_string_of_bytes. set (text := concat _).
  assert (Forall (fun b => Byte.to_N b < 0x80) text /\ length text = (2 * length bs)%nat) as [Ha <-].
  { subst text. induction bs as [|b bs [IH1 IH2]]; [done|]. rewrite fmap_cons. cbn [concat app length].
    pose proof (Byte.to_N_bounded b).
    assert (forall n, n < 16 -> Byte.to_N (hex_digit n) < 0x80) as Hx.
    { intros n Hn. unfold hex_digit. destruct (N.ltb_spec n 10); rewrite to_N_small by lia; lia. }
    split; [|rewrite IH2; lia]. repeat apply Forall_cons_2; [apply Hx; lia..|done]. }
  unfold runes. clear -Ha. induction Ha as [|b text Hb _ IH]; [done|].
  cbn [length runes_fuel]. unfold DecodeRune. rewrite lead_1 by done.
  change (drop 1 (b :: text)) with text. cbn [length]. by rewrite IH.
Qed.
Lemma runes_length bs : (length (runes bs) <= length bs)%nat.
Proof.
  unfold runes. generalize (length bs) as k. intros k. revert bs.
  induction k as [|k IH]; intros bs; [done|]. cbn [runes_fuel]. destruct bs as [|b bs]; [cbn; lia|].
  destruct (DecodeRune (b :: bs)) as [r w]. cbn [length]. specialize (IH (drop w (b :: bs))). lia.
Qed.
Lemma eq_fold_length `{UnicodeTables} s t : runes_eq_fold s t = true -> length s = length t.
Proof.
  revert t. induction s as [|[r b] s IH]; intros [|[r' b'] t]; cbn [runes_eq_fold]; try done.
  intros [_ E]%andb_true_iff. cbn [length]. by rewrite (IH _ E).
Qed.

End Texts.

Module ClientFacts.
Import Texts.

Section Grants.
Context `{Bech32, ErrorsMod, UnicodeTables, CoinsPkg, VerificationPkg, AuthzCodec}.
Context `{!Gzip, !GzipWriter, !Pflag, !ClientPkg}.

(** ** Outcomes *)

Lemma bind_Ret {A B} (o : outcome A) (f : A -> outcome B) b :
  o ≫= f = Ret b <-> exists a, o = Ret a /\ f a = Ret b.
Proof. destruct o; cbn; naive_solver. Qed.
Lemma orErr_Ret {A} (r : A + error) a : orErr r = Ret a <-> r = inl a.
Proof. destruct r; cbn; naive_solver. Qed.
Lemma orErrorf_Ret {A} text (r : A + error) a : orErrorf text r = Ret a <-> r = inl a.
Proof. destruct r; cbn; naive_solver. Qed.
Lemma orValid_Ret {A} (a b : A) err : orValid a err = Ret b <-> err = None /\ a = b.
Proof. destruct err; cbn; naive_solver. Qed.
Ltac ran :=
  repeat match goal with
  | E : mbind _ _ = Ret _ |- _ => apply bind_Ret in E as (? & ? & E)
  | E : orErr _ = Ret _ |- _ => apply orErr_Ret in E
  | E : orErrorf _ _ = Ret _ |- _ => apply orErrorf_Ret in E
  | E : orValid _ _ = Ret _ |- _ => apply orValid_Ret in E as [? E]
  | E : Ret _ = Ret _ |- _ => injection E as E; try subst
  | E : (let x := _ in _) = Ret _ |- _ => cbv zeta in E
  | E : Fail _ = Ret _ |- _ => discriminate E
  | E : (if ?b then _ else _) = Ret _ |- _ => destruct b eqn:?
  end.

(** ** A grant to store code *)

(** The argument for a code with the given hash. *)
Definition grant_arg (hash : bytes) (access : string) : string :=
  String.append (hex_encode hash) (String.append ":" access).
Lemma absent_app sep a b : absent sep (String.append a b) = absent sep a && absent sep b.
Proof. induction a as [|c a IH]; [done|]. rewrite append_String. cbn [absent]. by rewrite IH, andb_assoc. Qed.
Lemma hex_char n : (n < 16)%N -> Ascii.eqb (Ascii.ascii_of_byte (hex_digit n)) ":"%char = false.
Proof.
  intros Hn.
  assert (n ∈ [0; 1; 2; 3; 4; 5; 6; 7; 8; 9; 10; 11; 12; 13; 14; 15]%N) as Hin by (set_unfold; lia).
  clear Hn. repeat (apply elem_of_cons in Hin as [->|Hin]; [done|]). by apply elem_of_nil in Hin.
Qed.
Lemma hex_absent hash : absent ":"%char (hex_encode hash) = true.
Proof.
  unfold hex_encode. induction hash as [|b hash IH]; [done|]. rewrite fmap_cons. cbn [concat app].
  change (string_of_bytes (?x :: ?y :: ?l))
    with (String (Ascii.ascii_of_byte x) (String (Ascii.ascii_of_byte y) (string_of_bytes l))).
  cbn [absent]. pose proof (Byte.to_N_bounded b).
  rewrite !hex_char; [done|by apply N.mod_upper_bound|]. apply N.Div0.div_lt_upper_bound. lia.
Qed.
Lemma Split_grant_arg hash access : Split (grant_arg hash access) ":"%char = hex_encode hash :: Split access ":"%char.
Proof. apply (split_sep ":"%char EmptyString), hex_absent. Qed.

(** The text of a 32 byte hash matches no checksum and not the wildcard. *)
Lemma text_never_accepts hash access checksum permission :
  length hash = 32%nat -> length checksum = 32%nat ->
  CodeGrant_Accept (mkCodeGrant (bytes_of_string (hex_encode hash)) access) checksum permission = Ret false.
Proof.
  intros Hh Hc. unfold CodeGrant_Accept, is_wildcard, EqualFold. cbn [CodeHash].
  rewrite string_of_bytes_of_string.
  assert (forall t, (length t < 64)%nat -> bytes_EqualFold (bytes_of_string (hex_encode hash)) t = false) as Hf.
  { intros t Ht. unfold bytes_EqualFold. destruct (runes_eq_fold _ _) eqn:E; [|done].
    apply eq_fold_length in E. rewrite hex_runes in E. pose proof (runes_length t). lia. }
  by rewrite (Hf (bytes_of_string CodehashWildcard)), (Hf checksum) by (cbn; lia).
Qed.

(** The grants parsed from hashes with permissions. *)
Lemma parsed_grants args grants :
  Forall (fun ha : bytes * string => length ha.1 = 32%nat) args ->
  parseStoreCodeGrants ((fun ha => grant_arg ha.1 ha.2) <$> args) = Ret grants ->
  Forall (fun g => exists hash access, length hash = 32%nat
    /\ g = mkCodeGrant (bytes_of_string (hex_encode hash)) access) grants.
Proof.
  intros Hl. revert grants. induction Hl as [|[hash access] args Hh _ IH]; intros grants E.
  { injection E as <-. constructor. }
  rewrite fmap_cons in E. cbn [parseStoreCodeGrants fst snd] in *. rewrite Split_grant_arg in E.
  destruct (Split access ":"%char) as [|a [|]]; [done| |done].
  apply bind_Ret in E as (g & Eg & E). apply bind_Ret in E as (gs & Egs & [= <-]).
  constructor; [|by apply IH]. destruct (bool_decide (a = "*")); [injection Eg as <-; eauto|].
  apply bind_Ret in Eg as (cfg & _ & [= <-]). eauto.
Qed.

(** C40: A grant made by the command tx wasm grant store-code for codes given by
    the hash, as its help shows, accepts no upload at all: the hash is taken
    as text and never compares equal to a checksum. *)
Theorem store_code_grant_unusable `{GasMeters, Modules, KVStorePkg} fs grantee args granter g a expire :
  Forall (fun ha : bytes * string => length ha.1 = 32%nat) args ->
  RunE GrantStoreCodeAuthorizationCmd fs (grantee :: ((fun ha => grant_arg ha.1 ha.2) <$> args))
  = Ret (TxGrant granter g a expire) ->
  exists grants, a = inr grants /\ forall ctx storeMsg s r s',
    StoreCodeAuthorization_Accept grants ctx (SWasm (WStoreCode storeMsg)) s = (Ret r, s') ->
    Accept r = false.
Proof.
  intros Hl E. cbn [RunE GrantStoreCodeAuthorizationCmd] in E. ran.
  unfold NewMsgGrant in E. ran. simplify_eq.
  match goal with P : parseStoreCodeGrants _ = Ret ?l |- _ =>
    exists l; split; [done|]; apply parsed_grants in P; [|done]; rename P into Hg end.
  intros ctx storeMsg s r s' Ha. apply StoreCodeAuthorization_covers in Ha as (code & _ & _ & Ha).
  destruct (Accept r); [|done]. apply proj1 in Ha. specialize (Ha eq_refl).
  apply Exists_exists in Ha as (gr & Hin & Hcov).
  rewrite Forall_forall in Hg. destruct (Hg _ Hin) as (hash & access & Hh & ->).
  pose proof (text_never_accepts hash access (Sha256.Sum256 code) (SC_InstantiatePermission storeMsg) Hh eq_refl) as E.
  apply CodeGrant_Accept_covers in E. by apply E in Hcov.
Qed.

(** ** The messages of the commands *)

(** The interface sdk.HasValidateBasic at the messages of the module. *)
Definition msg_ValidateBasic (msg : WasmMsg) : option error :=
  match msg with
  | WStoreCode m => MsgStoreCode_ValidateBasic m
  | WInstantiateContract m => MsgInstantiateContract_ValidateBasic m
  | WInstantiateContract2 m => MsgInstantiateContract2_ValidateBasic m
  | WExecuteContract m => MsgExecuteContract_ValidateBasic m
  | WMigrateContract m => MsgMigrateContract_ValidateBasic m
  | WUpdateAdmin m => MsgUpdateAdmin_ValidateBasic m
  | WClearAdmin m => MsgClearAdmin_ValidateBasic m
  | WUpdateInstantiateConfig m => MsgUpdateInstantiateConfig_ValidateBasic m
  | WUpdateParams m => MsgUpdateParams_ValidateBasic m
  | WPinCodes m => MsgPinCodes_ValidateBasic m
  | WUnpinCodes m => MsgUnpinCodes_ValidateBasic m
  | WSudoContract m => MsgSudoContract_ValidateBasic m
  | WStoreAndInstantiateContract m => MsgStoreAndInstantiateContract_ValidateBasic m
  | WAddCodeUploadParamsAddresses m => MsgAddCodeUploadParamsAddresses_ValidateBasic m
  | WRemoveCodeUploadParamsAddresses m => MsgRemoveCodeUploadParamsAddresses_ValidateBasic m
  | WStoreAndMigrateContract m => MsgStoreAndMigrateContract_ValidateBasic m
  | WUpdateContractLabel m => MsgUpdateContractLabel_ValidateBasic m
  end.
(** The commands that hand on a message without validating it. *)
Definition unchecked : list string :=
  ["instantiate2"; "execute"; "instantiate-contract-2"; "store-migrate";
   "add-code-upload-params-addresses"; "remove-code-upload-params-addresses"].

(** A message in the name of [signer], valid unless the command is one of
    those. *)
Definition made_for (name signer : string) (msg : WasmMsg) : Prop :=
  msg_signer msg = signer /\ (name ∉ unchecked -> msg_ValidateBasic msg = None).
Definition made_properly (name : string) (fs : FlagSet) (tx : Tx) : Prop :=
  exists clientCtx, GetClientTxContext fs = inl clientCtx /\
  match tx with
  | TxWasm msg => made_for name (from clientCtx) msg
  | TxGrant granter _ _ _ => granter = GetFromAddress clientCtx
  | TxProposal msgs _ proposer _ _ _ _ =>
      proposer = from clientCtx /\ exists authority, GetString fs flagAuthority = inl authority
      /\ authority <> "" /\ Forall (made_for name authority) msgs
  end.

Lemma parsed_store file sender fs msg :
  parseStoreCodeArgs file sender fs = Ret msg ->
  SC_Sender msg = sender /\ MsgStoreCode_ValidateBasic msg = None.
Proof. unfold parseStoreCodeArgs. intros E. do 4 apply bind_Ret in E as (? & _ & E). by apply orValid_Ret in E as [? <-]. Qed.
Lemma parsed_instantiate id m kr sender fs msg :
  parseInstantiateArgs id m kr sender fs = Ret msg ->
  I_Sender msg = sender /\ MsgInstantiateContract_ValidateBasic msg = None.
Proof.
  unfold parseInstantiateArgs. intros E. apply bind_Ret in E as (? & _ & E).
  apply bind_Ret in E as ([[amount label] admin] & _ & E). by apply orValid_Ret in E as [? <-].
Qed.
Lemma parsed_migrate args sender msg :
  parseMigrateContractArgs args sender = Ret msg ->
  Mi_Sender msg = sender /\ MsgMigrateContract_ValidateBasic msg = None.
Proof. unfold parseMigrateContractArgs. intros E. do 4 apply bind_Ret in E as (? & _ & E). by apply orValid_Ret in E as [? <-]. Qed.
Lemma parsed_admin args sender msg :
  parseUpdateContractAdminArgs args sender = Ret msg ->
  UA_Sender msg = sender /\ MsgUpdateAdmin_ValidateBasic msg = None.
Proof. unfold parseUpdateContractAdminArgs. intros E. do 2 apply bind_Ret in E as (? & _ & E). by apply orValid_Ret in E as [? <-]. Qed.
Lemma parsed_updates authority updates msgs :
  update_msgs authority updates = Ret msgs ->
  Forall (fun m => msg_signer m = authority /\ msg_ValidateBasic m = None) msgs.
Proof.
  revert msgs. induction updates as [|u updates IH]; intros msgs E; cbn [update_msgs] in E.
  { injection E as <-. constructor. }
  apply bind_Ret in E as (msg & Em & E). apply bind_Ret in E as (ms & Ems & [= <-]).
  apply orValid_Ret in Em as [Hv <-]. constructor; [by split|by apply IH].
Qed.
Lemma got_authority fs authority :
  get_authority fs = Ret authority -> GetString fs flagAuthority = inl authority /\ authority <> "".
Proof. unfold get_authority. intros E. apply bind_Ret in E as (a & Ea & E). ran. case_bool_decide; ran; done. Qed.
Lemma got_info fs info :
  getProposalInfo fs = Ret info -> GetClientTxContext fs = inl (PI_clientCtx info).
Proof. unfold getProposalInfo. intros E. ran. done. Qed.
(** The frame of the proposal commands. *)
Lemma proposal_made name messages fs args tx :
  proposal messages fs args = Ret tx ->
  (forall ctx authority msgs, messages ctx authority fs args = Ret msgs -> Forall (made_for name authority) msgs) ->
  made_properly name fs tx.
Proof.
  unfold proposal, NewMsgSubmitProposal. intros E Hm. ran. subst tx.
  match goal with H : getProposalInfo _ = Ret ?i |- _ => exists (PI_clientCtx i); apply got_info in H end.
  match goal with H : get_authority _ = Ret _ |- _ => apply got_authority in H as [? ?] end. eauto 10.
Qed.

Ltac parsed :=
  repeat match goal with
  | H : parseStoreCodeArgs _ _ _ = Ret _ |- _ => apply parsed_store in H as [? ?]
  | H : parseInstantiateArgs _ _ _ _ _ = Ret _ |- _ => apply parsed_instantiate in H as [? ?]
  | H : parseMigrateContractArgs _ _ = Ret _ |- _ => apply parsed_migrate in H as [? ?]
  | H : parseUpdateContractAdminArgs _ _ = Ret _ |- _ => apply parsed_admin in H as [? ?]
  | H : (let (_, _) := ?p in _) = Ret _ |- _ => destruct p
  | H : tx_wasm _ = Ret _ |- _ => unfold tx_wasm in H
  | H : one _ = Ret _ |- _ => unfold one in H
  | H : NewMsgGrant _ _ _ _ = Ret _ |- _ => unfold NewMsgGrant in H
  | H : NewMsgSubmitProposal _ _ = Ret _ |- _ => unfold NewMsgSubmitProposal in H
  | H : parseExecuteArgs _ _ _ _ = Ret _ |- _ => unfold parseExecuteArgs in H
  end; ran.
Ltac done_with := repeat progress (ran; parsed); subst.
Ltac checked :=
  first [by intros _ | let Hn := fresh in intros Hn; exfalso; apply Hn; unfold unchecked; cbn [Use]; set_solver].
Ltac command E :=
  match type of E with RunE ?c _ _ = _ => let c' := eval hnf in c in change c with c' in E end;
  cbn [RunE] in E.
Ltac made_tx :=
  intros fs args tx E; command E; done_with;
  eexists; split; [eassumption|]; split; [done|checked].
Ltac made_proposal :=
  intros fs args tx E; apply (proposal_made _ _ _ _ _ E); intros ctx authority msgs Em; done_with;
  apply Forall_singleton; split; [done|checked].

(** C39: every transaction command signs with the account of the client, every
    proposal is proposed by it and carries messages of the authority, and
    the messages are valid where the command checks them. *)
Theorem commands_made_properly :
  Forall (fun c => forall fs args tx, RunE c fs args = Ret tx -> made_properly (Use c) fs tx) GetTxCmd.
Proof.
  unfold GetTxCmd, GrantCmd, SubmitProposalCmd. cbn [app].
  repeat apply Forall_cons_2; try apply Forall_nil_2.
  all: try (by made_tx).
  all: try (by made_proposal).
  - intros fs args tx E. command E. done_with. eexists. by split.
  - intros fs args tx E. command E. done_with. eexists. by split.
  - intros fs args tx E. command E. done_with. eexists. split; [by eapply got_info|]. split; [done|].
    match goal with H : get_authority _ = Ret _ |- _ => apply got_authority in H as [? ?] end.
    eexists. split_and!; [done..|]. apply Forall_singleton. split; [done|checked].
  - intros fs args tx E. apply (proposal_made _ _ _ _ _ E). intros ctx authority msgs Em. done_with.
    match goal with H : update_msgs _ _ = Ret _ |- _ => apply parsed_updates in H as Hm end.
    apply (Forall_impl _ _ _ Hm). intros m []. by split.
Qed.

(** ** Flags *)

(** Two sets of flags agree on a flag of the given type. *)
Definition same_flag (fs1 fs2 : FlagSet) (f : string * FlagType) : Prop :=
  match f.2 with
  | FString => GetString fs1 f.1 = GetString fs2 f.1
  | FBool => GetBool fs1 f.1 = GetBool fs2 f.1 /\ BoolVar fs1 f.1 = BoolVar fs2 f.1
  | FStringSlice => GetStringSlice fs1 f.1 = GetStringSlice fs2 f.1
  | FUint64 => GetUint64 fs1 f.1 = GetUint64 fs2 f.1
  | FInt64 => GetInt64 fs1 f.1 = GetInt64 fs2 f.1
  | FBytesHex => GetBytesHex fs1 f.1 = GetBytesHex fs2 f.1
  end.
Lemma bind_ext {A B} (o1 o2 : outcome A) (f g : A -> outcome B) :
  o1 = o2 -> (forall a, f a = g a) -> o1 ≫= f = o2 ≫= g.
Proof. intros <- Hfg. destruct o1; cbn; auto. Qed.
Ltac flags_agree Hf :=
  unfold instantiate2Flags, instantiateFlags, addInstantiatePermissionFlags, addCommonProposalFlags,
    RegisterFlags in Hf; cbn [app] in Hf;
  repeat match type of Hf with
  | Forall _ (_ :: _) => let H1 := fresh "Hs" in apply Forall_cons in Hf as [H1 Hf]; cbn in H1;
      try match type of H1 with _ /\ _ => destruct H1 as [H1 ?] end
  end.
Ltac agree :=
  repeat first
  [ reflexivity
  | match goal with
    | |- mbind _ _ = mbind _ _ => apply bind_ext; [|intros ?]
    | |- orErr _ = orErr _ => f_equal; assumption
    | |- orErrorf _ _ = orErrorf _ _ => f_equal; first [assumption|congruence]
    | |- (if ?b then _ else _) = (if ?b then _ else _) => destruct b
    | |- match ?x with _ => _ end = match ?x with _ => _ end => destruct x
    end ].

(** What a transaction command does depends on the flags it declares only:
    it reads no flag that it did not declare, and each one at the type it
    was declared with. *)
Theorem commands_read_declared_flags :
  Forall (fun c => forall fs1 fs2 args, GetClientTxContext fs1 = GetClientTxContext fs2 ->
    Forall (same_flag fs1 fs2) (Flags c) -> RunE c fs1 args = RunE c fs2 args) GetTxCmd.
Proof.
  unfold GetTxCmd, GrantCmd, SubmitProposalCmd. cbn [app].
  repeat apply Forall_cons_2; try apply Forall_nil_2; intros fs1 fs2 args Hc Hf;
    match goal with |- RunE ?c _ _ = _ => let c' := eval hnf in c in change c with c' in * end;
    cbn [RunE Flags] in *; flags_agree Hf;
    unfold proposal, getProposalInfo, get_authority, parseStoreCodeArgs, parseAccessConfigFlags, text_flag,
      parseInstantiateArgs, instantiate_flags, parseExecuteArgs, getExpireTime, parseVerificationFlags,
      newArgDecoder.
  all: agree.
Qed.

(** ** Panics *)

Definition panics_only {A} (P : panic -> Prop) (o : outcome A) : Prop := forall p, o = Panic p -> P p.
Lemma po_bind {A B} P (o : outcome A) (f : A -> outcome B) :
  panics_only P o -> (forall a, o = Ret a -> panics_only P (f a)) -> panics_only P (o ≫= f).
Proof. intros Ho Hf p. destruct o as [a| |q]; cbn; [by apply Hf|done|]. intros [= <-]. by apply Ho. Qed.
Lemma po_Ret {A} P (a : A) : panics_only P (Ret a).
Proof. done. Qed.
Lemma po_Fail {A} P err : panics_only P (Fail (A := A) err).
Proof. done. Qed.
Lemma po_orErr {A} P (r : A + error) : panics_only P (orErr r).
Proof. by destruct r. Qed.
Lemma po_orErrorf {A} P text (r : A + error) : panics_only P (orErrorf text r).
Proof. by destruct r. Qed.
Lemma po_orValid {A} P (a : A) err : panics_only P (orValid a err).
Proof. by destruct err. Qed.
Create HintDb panics.
Hint Resolve po_Ret po_Fail po_orErr po_orErrorf po_orValid : panics.
Ltac calm :=
  repeat first
  [ progress eauto 2 with panics
  | match goal with
    | |- panics_only _ (mbind _ _) => apply po_bind; [|intros ? ?]
    | |- panics_only _ (if ?b then _ else _) => destruct b eqn:?
    | |- panics_only _ (let x := _ in _) => cbv zeta
    | |- panics_only _ (match ?x with _ => _ end) => destruct x eqn:?
    end ].

Lemma po_parse_addresses P text addrs : panics_only P (parse_addresses text addrs).
Proof. induction addrs as [|v addrs IH]; cbn [parse_addresses]; calm. Qed.
Hint Resolve po_parse_addresses : panics.
Lemma po_parseAccessConfig P raw : panics_only P (parseAccessConfig raw).
Proof.
  unfold parseAccessConfig. calm; exfalso; unfold With in *; repeat case_match; by simplify_eq.
Qed.
Hint Resolve po_parseAccessConfig : panics.
Lemma po_parseStoreCodeGrants P args : panics_only P (parseStoreCodeGrants args).
Proof. induction args as [|c args IH]; cbn [parseStoreCodeGrants]; calm. Qed.
Lemma po_parsePinCodesArgs P args : panics_only P (parsePinCodesArgs args).
Proof. induction args as [|c args IH]; cbn [parsePinCodesArgs]; calm. Qed.
Lemma po_parseAccessConfigUpdates P args : panics_only P (parseAccessConfigUpdates args).
Proof. induction args as [|c args IH]; cbn [parseAccessConfigUpdates]; unfold parse_update; calm. Qed.
Lemma po_update_msgs P authority updates : panics_only P (update_msgs authority updates).
Proof. induction updates as [|u updates IH]; cbn [update_msgs]; calm. Qed.
Hint Resolve po_parseStoreCodeGrants po_parsePinCodesArgs po_parseAccessConfigUpdates po_update_msgs : panics.
Lemma IsWasm_file_total wasm : exists b, IsWasm_file wasm = Ret b.
Proof.
  unfold IsWasm_file, IsWasm. rewrite length_app, length_replicate.
  destruct (Nat.ltb_spec (length wasm + (512 - length wasm)) 4); [lia|]. eauto.
Qed.
Lemma po_instantiate_flags P kr fs : panics_only P (instantiate_flags kr fs).
Proof. unfold instantiate_flags, parse_admin. calm. Qed.
Lemma po_parseVerificationFlags P wasm fs : panics_only P (parseVerificationFlags wasm fs).
Proof. unfold parseVerificationFlags. calm. Qed.
Lemma po_getProposalInfo P fs : panics_only P (getProposalInfo fs).
Proof. unfold getProposalInfo. calm. Qed.
Lemma po_get_authority P fs : panics_only P (get_authority fs).
Proof. unfold get_authority. calm. Qed.
Hint Resolve po_instantiate_flags po_parseVerificationFlags po_getProposalInfo po_get_authority : panics.
Lemma po_parseInstantiateArgs P id m kr sender fs : panics_only P (parseInstantiateArgs id m kr sender fs).
Proof. unfold parseInstantiateArgs. calm. Qed.
Hint Resolve po_parseInstantiateArgs : panics.

(** The one panic that arguments can cause: --instantiate-anyof-addresses
    lists addresses that With refuses. *)
Definition refused_addresses (fs : FlagSet) (p : panic) : Prop :=
  exists addrs l, GetStringSlice fs flagInstantiateByAnyOfAddress = inl addrs
    /\ parse_addresses "parse %q: " addrs = Ret l /\ With AccessTypeAnyOfAddresses l = Panic p.
Lemma po_parseAccessConfigFlags fs : panics_only (refused_addresses fs) (parseAccessConfigFlags fs).
Proof.
  unfold parseAccessConfigFlags, text_flag. calm. intros p Hp. ran. unfold refused_addresses. eauto 10.
Qed.
Lemma po_parseStoreCodeArgs file sender fs :
  panics_only (refused_addresses fs) (parseStoreCodeArgs file sender fs).
Proof.
  unfold parseStoreCodeArgs. apply po_bind; [apply po_orErr|intros wasm _].
  destruct (IsWasm_file_total wasm) as [b ->].
  pose proof (po_parseAccessConfigFlags fs) as Hf. calm.
Qed.
Hint Resolve po_parseAccessConfigFlags po_parseStoreCodeArgs : panics.

Lemma po_arg P args i : i < length args -> panics_only P (arg args i).
Proof. intros Hi. unfold arg. destruct (lookup_lt_is_Some_2 args i Hi) as [a ->]. apply po_Ret. Qed.
Lemma po_proposal P messages fs args :
  (forall ctx authority, panics_only P (messages ctx authority fs args)) ->
  panics_only P (proposal messages fs args).
Proof. intros Hm. unfold proposal, NewMsgSubmitProposal. calm. Qed.
Lemma po_parseMigrateContractArgs P args sender :
  length args = 3 -> panics_only P (parseMigrateContractArgs args sender).
Proof. intros Hl. unfold parseMigrateContractArgs. calm; apply po_arg; lia. Qed.
Lemma po_parseUpdateContractAdminArgs P args sender :
  length args = 2 -> panics_only P (parseUpdateContractAdminArgs args sender).
Proof. intros Hl. unfold parseUpdateContractAdminArgs. calm; apply po_arg; lia. Qed.
Hint Resolve po_parseMigrateContractArgs po_parseUpdateContractAdminArgs : panics.

(** Documented of sdk.ParseCoinsNormalized: what it returns is valid. *)
Definition ParseCoins_valid : Prop :=
  forall s coins, ParseCoinsNormalized s = inl coins -> Coins_Validate coins = None.
Lemma po_grant_limit `{!CoinsLaws} P funds calls noTransfer :
  ParseCoins_valid -> panics_only P (grant_limit funds calls noTransfer).
Proof.
  intros Hv. unfold grant_limit, NewCombinedLimit, NewMaxFundsLimit. calm; ran;
    rewrite NewCoins_valid by eauto; apply po_Ret.
Qed.

(** With a number of arguments that it accepts, a transaction command panics
    on nothing but a list of addresses for the instantiate permission that
    has a duplicate or is too long. *)
Theorem commands_panic `{!CoinsLaws} :
  ParseCoins_valid ->
  Forall (fun c => forall fs args, accepts (Args c) (length args) = true ->
    panics_only (refused_addresses fs) (RunE c fs args)) GetTxCmd.
Proof.
  intros Hv. unfold GetTxCmd, GrantCmd, SubmitProposalCmd. cbn [app].
  repeat apply Forall_cons_2; try apply Forall_nil_2; intros fs args Ha;
    match goal with |- panics_only _ (RunE ?c _ _) => let c' := eval hnf in c in change c with c' in * end;
    cbn [RunE Args accepts] in *; rewrite ?Nat.eqb_eq, ?Nat.leb_le in Ha;
    try (apply po_proposal; intros ctx authority); unfold tx_wasm, one, parseExecuteArgs, getExpireTime, NewMsgGrant, NewMsgSubmitProposal,
      grant_filter, grant_authorization; calm.
  all: try (apply po_arg; lia).
  by apply po_grant_limit.
Qed.

(** ** Single commands *)

Lemma string_not_empty `{!Bech32Laws} a : VerifyAddressFormat a = None -> AccAddress_String a <> "".
Proof.
  intros Hv E. apply bech32_roundtrip in Hv. rewrite E in Hv.
  destruct bech32_from_empty as [e He]. by rewrite He in Hv.
Qed.
(** Documented of the keyring: the address of a key is a valid one. *)
Definition GetAddress_valid : Prop :=
  forall k a, GetAddress k = inl a -> exists b, a = Some b /\ VerifyAddressFormat b = None.
Lemma parsed_admin_empty `{!Bech32Laws} kr admin a :
  GetAddress_valid -> parse_admin kr admin = Ret a -> (a = "" <-> admin = "").
Proof.
  intros Hk. unfold parse_admin. case_bool_decide as He; [by intros [= <-]; subst|].
  intros E. split; [|done]. intros ->. exfalso.
  destruct (AccAddressFromBech32 admin) as [b|] eqn:Eb.
  - injection E as E. by apply (string_not_empty b (bech32_valid _ _ Eb)).
  - ran. match goal with G : GetAddress _ = inl _ |- _ => apply Hk in G as (b & -> & Hb) end.
    by apply (string_not_empty b).
Qed.
(** A contract is only made immutable on demand: the message of instantiate
    has no admin exactly when --no-admin was given. *)
Theorem instantiate_admin_explicit `{!Bech32Laws} id m kr sender fs msg :
  GetAddress_valid -> parseInstantiateArgs id m kr sender fs = Ret msg ->
  exists noAdmin, GetBool fs flagNoAdmin = inl noAdmin /\ (I_Admin msg = "" <-> noAdmin = true).
Proof.
  intros Hk E. unfold parseInstantiateArgs, instantiate_flags in E. ran. subst msg. cbn [I_Admin].
  eexists. split; [eassumption|].
  match goal with P : parse_admin _ _ = Ret _ |- _ => rewrite (parsed_admin_empty _ _ _ Hk P) end.
  case_bool_decide; destruct x5; naive_solver.
Qed.

(** The verification flags are all given or all left out, and the code hash
    is the checksum of the code that is uploaded. *)
Theorem verification_flags_sound wasm fs source builder codeHash :
  parseVerificationFlags wasm fs = Ret (source, builder, codeHash) ->
  (source = "" /\ builder = "" /\ default [] codeHash = [])
  \/ (source <> "" /\ builder <> "" /\ exists code, codeHash = Some (Sha256.Sum256 code)
       /\ Uncompress wasm MaxWasmSize = inl code
       /\ ValidateVerificationInfo source builder codeHash = None).
Proof.
  unfold parseVerificationFlags. intros E. do 3 (apply bind_Ret in E as (? & _ & E)).
  cbv zeta in E. unfold ValidateVerificationInfo.
  destruct (_ || _ || _) eqn:Hany.
  - case_bool_decide; [done|]. destruct (url_ParseRequestURI x) eqn:Hu; [done|].
    case_bool_decide; [done|]. destruct (ParseDockerRef x0) eqn:Hd; [done|].
    destruct (Nat.eqb (length (default [] x1)) 0) eqn:Hl; [done|]. ran.
    match goal with C : CreateChecksum _ = inl _ |- _ => apply CreateChecksum_spec in C as [_ ->] end.
    match goal with B : negb _ = false |- _ => apply negb_false_iff, bool_decide_eq_true in B; rename B into Hs end.
    simplify_eq. right. destruct codeHash as [hash|]; [|done]. match type of Hs with ?l = _ => change (l = hash) in Hs end. subst hash.
    split_and!; [done..|]. eexists. split_and!; [done..|]. rewrite !bool_decide_false by done.
    cbn [negb orb errIf first_error]. by rewrite Hu, Hd.
  - simplify_eq. apply orb_false_iff in Hany as [[H1'%negb_false_iff H2'%negb_false_iff]%orb_false_iff H3'%negb_false_iff].
    apply bool_decide_eq_true in H1', H2'. apply Nat.eqb_eq in H3'. left.
    split_and!; [done..|]. by apply nil_length_inv.
Qed.

(** ** Texts of permissions *)

Definition access_text (c : AccessConfig) : string :=
  match Permission c with
  | AccessTypeNobody => "nobody"
  | AccessTypeEverybody => "everybody"
  | _ => joined "," (Addresses c)
  end.
Definition update_text (u : N * AccessConfig) : string :=
  String.append (pretty u.1) (String ":" (access_text u.2)).
(** Bech32 text has no separators, and the two words are not addresses. *)
Definition bech32_text : Prop :=
  (forall s a, AccAddressFromBech32 s = inl a -> absent ","%char s = true /\ absent ":"%char s = true)
  /\ (forall a, AccAddressFromBech32 "nobody" <> inl a) /\ (forall a, AccAddressFromBech32 "everybody" <> inl a).
(** A permission that can be written: valid, its addresses as the SDK prints
    them. *)
Definition writable (c : AccessConfig) : Prop :=
  match Permission c with
  | AccessTypeNobody => c = AllowNobody
  | AccessTypeEverybody => c = AllowEverybody
  | AccessTypeAnyOfAddresses =>
      AccessConfig_ValidateBasic c = None
      /\ Forall (fun s => exists a, AccAddressFromBech32 s = inl a /\ AccAddress_String a = s) (Addresses c)
  | _ => False
  end.

Lemma parse_addresses_exact text addrs :
  Forall (fun s => exists a, AccAddressFromBech32 s = inl a /\ AccAddress_String a = s) addrs ->
  exists l, parse_addresses text addrs = Ret l /\ acc_string <$> l = addrs.
Proof.
  induction 1 as [|s addrs (a & Ha & Hs) _ (l & Hl & Hm)]; [by exists []|].
  exists (Some a :: l). cbn [parse_addresses]. rewrite Ha, Hl. split; [done|].
  rewrite fmap_cons, Hm. cbn. by rewrite Hs.
Qed.
Lemma append_inj_l a b c : String.append a b = String.append a c -> b = c.
Proof. induction a as [|x a IH]; [done|]. rewrite !append_String. intros [= E]. by apply IH. Qed.
Lemma joined_not_word w addrs :
  absent ","%char w = true -> (forall a, AccAddressFromBech32 w <> inl a) -> addrs <> [] ->
  Forall (fun s => exists a, AccAddressFromBech32 s = inl a /\ AccAddress_String a = s) addrs ->
  joined "," addrs <> w.
Proof.
  intros Hw Hn Hne Hf E. destruct addrs as [|s [|t addrs]]; [done| |].
  - cbn [joined] in E. subst s. inversion Hf as [|? ? (a & Ha & _)]. by apply (Hn a).
  - subst w. change (joined "," (s :: t :: addrs)) with (String.append s (String "," (joined "," (t :: addrs)))) in Hw.
    rewrite absent_app in Hw. cbn [absent] in Hw. by rewrite andb_false_r in Hw.
Qed.
Lemma access_roundtrip c : bech32_text -> writable c -> parseAccessConfig (access_text c) = Ret c.
Proof.
  intros (Hsep & Hno & Hev) Hc. unfold writable, access_text, parseAccessConfig in *.
  destruct (Permission c) eqn:Ep; [done|by subst c|by subst c| |done]. destruct Hc as [Hv Hf].
  assert (validateBech32Addresses (Addresses c) = None) as Hva.
  { unfold AccessConfig_ValidateBasic in Hv. rewrite Ep in Hv. by apply WrapOpt_None in Hv. }
  assert (Addresses c <> []) as Hne by (intros E; rewrite E in Hva; done).
  rewrite !bool_decide_false by (by apply joined_not_word). rewrite Split_joined; [|done|].
  2: { apply (Forall_impl _ _ _ Hf). intros s (a & Ha & _). by apply Hsep in Ha as []. }
  destruct (parse_addresses_exact "unable to parse address %q: " _ Hf) as (l & -> & Hm).
  cbn [mbind outcome_bind obind]. unfold With. rewrite Hm, Hva.
  assert (mkAccessConfig AccessTypeAnyOfAddresses (Addresses c) = c) as -> by (by destruct c; cbn in *; subst).
  by rewrite Hv.
Qed.
Lemma access_no_colon c : bech32_text -> writable c -> absent ":"%char (access_text c) = true.
Proof.
  intros (Hsep & _) Hc. unfold writable, access_text in *.
  destruct (Permission c); [done|done|done| |done]. destruct Hc as [_ Hf].
  induction Hf as [|s l (a & Ha & _) _ IH]; [done|]. apply Hsep in Ha as [_ Ha].
  destruct l as [|t l]; [done|].
  change (joined "," (s :: t :: l)) with (String.append s (String "," (joined "," (t :: l)))).
  rewrite absent_app, Ha. cbn [absent]. by rewrite IH.
Qed.
Lemma pretty_no_colon (n : N) : absent ":"%char (pretty n) = true.
Proof.
  assert (forall n s, absent ":"%char s = true -> absent ":"%char (pretty_N_go n s) = true) as Hgo.
  { clear n. intros n. induction (N.lt_wf_0 n) as [n _ IH]. intros s Hs.
    destruct (N.eq_dec n 0) as [->|Hn0]; [done|]. rewrite pretty_N_go_step by lia.
    apply IH; [by apply N.div_lt; lia|]. cbn [absent]. rewrite Hs, andb_true_r.
    assert (n mod 10 < 10)%N as Hd by (by apply N.mod_upper_bound). revert Hd. generalize (n mod 10)%N. intros d Hd.
    assert (d ∈ [0; 1; 2; 3; 4; 5; 6; 7; 8; 9]%N) as Hin by (set_unfold; lia). clear Hd.
    repeat (apply elem_of_cons in Hin as [->|Hin]; [done|]). by apply elem_of_nil in Hin. }
  unfold pretty, pretty_N. case_decide; [done|]. by apply Hgo.
Qed.
Lemma update_roundtrip u :
  bech32_text -> (u.1 < 2 ^ 64)%N -> writable u.2 -> parse_update (update_text u) = Ret u.
Proof.
  intros Hb Hid Hc. unfold parse_update, update_text, Split.
  rewrite split_sep, split_absent by (by apply pretty_no_colon || by apply access_no_colon).
  change (String.append EmptyString ?x) with x. rewrite ParseUint_pretty by done.
  cbn [orErrorf mbind outcome_bind obind]. rewrite access_roundtrip by done. by destruct u.
Qed.
(** Permission updates written as code_id:permission are read as they are
    meant, in their order. *)
Theorem updates_roundtrip updates :
  bech32_text -> Forall (fun u => (u.1 < 2 ^ 64)%N /\ writable u.2) updates ->
  parseAccessConfigUpdates (update_text <$> updates) = Ret updates.
Proof.
  intros Hb. induction 1 as [|u updates [Hid Hc] _ IH]; [done|].
  rewrite fmap_cons. cbn [parseAccessConfigUpdates]. rewrite update_roundtrip by done.
  cbn [mbind outcome_bind obind]. by rewrite IH.
Qed.

(** ** Queries *)

(** The key of the next page, copied from the output of a listing, is the one
    the next request carries; any other text makes the command panic. *)
Theorem page_key_decoded fs :
  (forall key, GetString fs FlagPageKey = inl (string_of_bytes (base64 key)) ->
     forall fs', Set_ fs FlagPageKey (string_of_bytes key) = inl fs' -> withPageKeyDecoded fs = Ret fs')
  /\ (forall text err, GetString fs FlagPageKey = inl text -> base64_DecodeString text = inr err ->
     withPageKeyDecoded fs = Panic (PText (error_string err))).
Proof.
  split.
  - intros key Hk fs' Hs. unfold withPageKeyDecoded. rewrite Hk. cbn [mbind outcome_bind obind].
    rewrite base64_roundtrip. cbn [mbind outcome_bind obind]. by rewrite Hs.
  - intros text err Hk He. unfold withPageKeyDecoded. rewrite Hk. cbn [mbind outcome_bind obind]. by rewrite He.
Qed.

(** The encoding flags of build-address have no effect: the salt is sent as
    it was typed, and the node decodes it as hex, while instantiate2 decodes
    its salt by these flags. *)
Theorem build_address_ignores_encoding fs ctx hash creator salt :
  GetClientQueryContext fs = inl ctx ->
  RunE GetCmdBuildAddress fs [hash; creator; salt]
  = Ret (QBuildAddress (mkQueryBuildAddressRequest hash creator salt None)).
Proof. intros Hc. cbn [RunE GetCmdBuildAddress length Nat.eqb]. by rewrite Hc. Qed.

(** A smart query that the client sends passes the check of the node. *)
Lemma smart_request_valid fs args req :
  RunE GetCmdGetContractStateSmart fs args = Ret (QSmartContractState req) ->
  exists data, QS_QueryData req = Some data /\ RawContractMessage_ValidateBasic data = None.
Proof.
  intros E. cbn [RunE GetCmdGetContractStateSmart] in E. ran. simplify_eq. cbn [QS_QueryData].
  eexists. split; [done|].
  match goal with J : negb (json_Valid _) = false |- _ => unfold RawContractMessage_ValidateBasic; by rewrite J end.
Qed.

End Grants.
End ClientFacts.
