(* ===== verification/Ante.v ===== *)
(** The ante handlers of the module (x/wasm/keeper/ante.go) and the chain the
    application builds of them (app/ante.go): the position of a transaction in
    its block, the gas limit of simulations, and the values the keeper reads
    from the context. *)
From S2P Require Import Prelude Errors GoStrings Types Proto Keys VMTypes Policy GasRegister Chain Logic Wp Engine Store Events Keeper Dispatcher Msgs MsgServer KeeperFrame Encoders Messenger QueryPlugins Relay System SystemFrame.
Import GoStrings Keys Store.Store Encoders.Encoders Messenger.Messenger.
Open Scope wasm_scope.

Module Ante.

(** ** The stored counter *)

(** uint64(height) and back: two's complement *)
Definition uint64_of_int64 (v : Z) : N := Z.to_N (v mod Z.of_N two64).
Definition int64_of_uint64 (v : N) : Z :=
  if (v <? Proto.two63)%N then Z.of_N v else (Z.of_N v - Z.of_N two64)%Z.
Definition is_int64 (v : Z) : Prop := (- Z.of_N Proto.two63 <= v < Z.of_N Proto.two63)%Z.

Definition encodeHeightCounter (height : Z) (counter : N) : bytes :=
  Uint64ToBigEndian (uint64_of_int64 height) ++ be_encode 4 counter.
(** The slices and binary.BigEndian.Uint32 panic on a short input. *)
Definition decodeHeightCounter (bz : bytes) : outcome (Z * N) :=
  if Nat.ltb (length bz) 8 then Panic (PRuntime "slice bounds out of range")
  else
    obind (BigEndianToUint64 (take 8 bz)) (fun h =>
    if Nat.ltb (length (drop 8 bz)) 4 then Panic (PRuntime "index out of range")
    else Ret (int64_of_uint64 h, be_decode (take 4 (drop 8 bz)))).

Section Ante.
Context `{GasMeters, Modules, KVStorePkg, AddressPkg}.
(** sdk.Tx *)
Context {Tx : Type}.

Definition AnteHandler : Type := Context -> Tx -> bool -> M Context.
Definition AnteDecorator : Type := Context -> Tx -> bool -> AnteHandler -> M Context.

(** ** The decorators *)

Definition CountTXDecorator_AnteHandle : AnteDecorator := fun ctx tx simulate next =>
  if simulate then next ctx tx simulate
  else
    let currentHeight := ctx_BlockHeight ctx in
    bz ← wrap_err "read tx counter" (kv_get TXCounterPrefix);
    txCounter ← match bz with
      | Some bz =>
          '(lastHeight, val) ← lift (decodeHeightCounter bz);
          mret (if (currentHeight =? lastHeight)%Z then val else 0%N)
      | None => mret 0%N
      end;
    _ ← wrap_err "store tx counter"
          (kv_set TXCounterPrefix (encodeHeightCounter currentHeight (wrap32 (txCounter + 1))));
    next (WithTXCounter ctx txCounter) tx simulate.

(** A limit of zero is refused when the decorator is built. *)
Definition NewLimitSimulationGasDecorator (gasLimit : option N) : outcome (option N) :=
  match gasLimit with
  | Some 0%N => Panic (PText "gas limit must not be zero")
  | _ => Ret gasLimit
  end.
(** [maxGas] is the block limit of the consensus parameters, which a nil
    pointer to the block parameters does not have. The context with the new
    meter is the one the transaction goes on with. *)
Definition LimitSimulationGasDecorator_AnteHandle (maxGas : option Z) (gasLimit : option N)
    : AnteDecorator := fun ctx tx simulate next =>
  if negb simulate then next ctx tx simulate
  else
    match gasLimit with
    | Some limit => _ ← modify (set_meter (NewGasMeter limit)); next ctx tx simulate
    | None =>
        match maxGas with
        | None => throw (PRuntime "invalid memory address or nil pointer dereference")
        | Some maxGas =>
            if (0 <? maxGas)%Z
            then _ ← modify (set_meter (NewGasMeter (Z.to_N maxGas))); next ctx tx simulate
            else next ctx tx simulate
        end
    end.

Definition GasRegisterDecorator_AnteHandle (gasRegister : GasRegister.WasmGasRegisterConfig)
    : AnteDecorator := fun ctx tx simulate next =>
  next (WithGasRegister ctx gasRegister) tx simulate.

Definition TxContractsDecorator_AnteHandle : AnteDecorator := fun ctx tx simulate next =>
  _ ← modify (set_txc (Some ∅)); next ctx tx simulate.

(** ** The chain (app/ante.go) *)

(** sdk.ChainAnteDecorators: each decorator wraps the ones after it. *)
Context (ChainAnteDecorators : list AnteDecorator -> AnteHandler).

(** The options that are pointers or interfaces; of a wasm keeper the chain
    uses the gas register. *)
Record HandlerOptions := mkHandlerOptions {
  opt_AccountKeeper : bool;            (* is it set? *)
  opt_BankKeeper : bool;
  opt_SignModeHandler : bool;
  opt_NodeConfig : option (option N);  (* SimulationGasLimit *)
  opt_TXCounterStoreService : bool;
  opt_CircuitKeeper : bool;
  opt_WasmKeeper : option GasRegister.WasmGasRegisterConfig;
}.
(** The decorators of other packages, before and after those of the module. *)
Context (SetUpContextDecorator : AnteDecorator) (others : list AnteDecorator).

Definition NewAnteHandler (maxGas : option Z) (options : HandlerOptions) : outcome AnteHandler :=
  if negb (opt_AccountKeeper options)
  then Fail (EText "account keeper is required for ante builder")
  else if negb (opt_BankKeeper options)
  then Fail (EText "bank keeper is required for ante builder")
  else if negb (opt_SignModeHandler options)
  then Fail (EText "sign mode handler is required for ante builder")
  else match opt_NodeConfig options with
  | None => Fail (EText "wasm config is required for ante builder")
  | Some SimulationGasLimit =>
      if negb (opt_TXCounterStoreService options)
      then Fail (EText "wasm store service is required for ante builder")
      else if negb (opt_CircuitKeeper options)
      then Fail (EText "circuit keeper is required for ante builder")
      else
        obind (NewLimitSimulationGasDecorator SimulationGasLimit) (fun limit =>
        match opt_WasmKeeper options with
        | None => Panic (PRuntime "invalid memory address or nil pointer dereference")
        | Some gasRegister =>
            Ret (ChainAnteDecorators
              ([SetUpContextDecorator; LimitSimulationGasDecorator_AnteHandle maxGas limit;
                CountTXDecorator_AnteHandle; GasRegisterDecorator_AnteHandle gasRegister;
                TxContractsDecorator_AnteHandle] ++ others))
        end)
  end.

(** ** The counter a transaction gets *)

(** What the store says about the next transaction of a block. *)
Definition counter_at (σ : kvs) (height : Z) : outcome N :=
  match σ !! TXCounterPrefix with
  | None => Ret 0%N
  | Some bz =>
      obind (decodeHeightCounter bz) (fun '(lastHeight, val) =>
      Ret (if (height =? lastHeight)%Z then val else 0%N))
  end.

Lemma int64_roundtrip v : is_int64 v -> int64_of_uint64 (uint64_of_int64 v) = v.
Proof.
  unfold is_int64, int64_of_uint64, uint64_of_int64.
  change (Z.of_N Proto.two63) with 9223372036854775808%Z.
  change (Z.of_N two64) with 18446744073709551616%Z. intros Hv.
  pose proof (Z.mod_pos_bound v 18446744073709551616 ltac:(done)).
  pose proof (Z.div_mod v 18446744073709551616 ltac:(done)).
  assert (v / 18446744073709551616 = 0 \/ v / 18446744073709551616 = -1)%Z as [E|E].
  { assert (-1 <= v / 18446744073709551616 < 1)%Z; [|lia].
    split; [apply Z.div_le_lower_bound|apply Z.div_lt_upper_bound]; lia. }
  all: rewrite E in *; destruct (N.ltb_spec (Z.to_N (v mod 18446744073709551616)) Proto.two63)
    as [Hlt|Hlt]; unfold Proto.two63 in Hlt; lia.
Qed.
Lemma uint64_of_int64_u64 v : is_u64 (uint64_of_int64 v).
Proof.
  unfold is_u64, uint64_of_int64.
  pose proof (Z.mod_pos_bound v (Z.of_N two64) ltac:(done)). lia.
Qed.

(** What is written is read back. *)
Lemma heightCounter_roundtrip height counter :
  is_int64 height -> is_u32 counter ->
  decodeHeightCounter (encodeHeightCounter height counter) = Ret (height, counter).
Proof.
  intros Hh Hc. unfold decodeHeightCounter, encodeHeightCounter.
  rewrite length_app, length_Uint64ToBigEndian, length_be_encode. cbn [Nat.add Nat.ltb Nat.leb].
  rewrite take_app_length', drop_app_length' by by rewrite length_Uint64ToBigEndian.
  rewrite BigEndian_roundtrip by apply uint64_of_int64_u64. cbn [obind].
  rewrite length_be_encode. cbn [Nat.ltb Nat.leb].
  rewrite take_ge by by rewrite length_be_encode.
  rewrite int64_roundtrip by done. by rewrite be_decode_encode.
Qed.
Lemma counter_at_insert σ height height' counter :
  is_int64 height -> is_u32 counter ->
  counter_at (<[TXCounterPrefix := encodeHeightCounter height counter]> σ) height'
  = Ret (if (height' =? height)%Z then counter else 0%N).
Proof.
  intros Hh Hc. unfold counter_at. rewrite lookup_insert_eq.
  by rewrite heightCounter_roundtrip.
Qed.

(** The accesses to the store by which a transaction takes the number [n]. *)
Definition take_number (height : Z) (n : N) : M unit :=
  _ ← wrap_err "read tx counter" (kv_get TXCounterPrefix);
  wrap_err "store tx counter"
    (kv_set TXCounterPrefix (encodeHeightCounter height (wrap32 (n + 1)))).

Lemma consume_all_meter cs s : exists mt, (consume_all cs s).2 = set_meter mt s.
Proof.
  revert s. induction cs as [|[a d] cs IH]; intros s; cbn [consume_all].
  - exists (meter s). by destruct s.
  - unfold mbind, M_bind, consume. destruct (ConsumeGas (meter s) a d) as [m [p|]]; simpl.
    + by exists m.
    + destruct (IH (set_meter m s)) as [mt E]. exists mt. by rewrite E.
Qed.
Lemma kv_get_cases key s :
  match kv_get key s with
  | (Ret v, s') => v = kv s !! key /\ exists mt, s' = set_meter mt s
  | _ => True
  end.
Proof.
  unfold kv_get, kv_access, mbind, M_bind. simpl.
  destruct (consume_all _ s) as [[[]|e|p] s1] eqn:E; [|done..].
  destruct (consume_all_meter (kv_charges (OpGet key (kv s !! key))) s) as [mt Hm]. rewrite E in Hm. simpl in Hm.
  destruct (kv_fault _) as [[]|]; simpl; [done..|]. split; [done|]. by exists mt.
Qed.
Lemma take_number_stores height n s s' :
  take_number height n s = (Ret tt, s') ->
  exists mt, s' = set_kv <[TXCounterPrefix := encodeHeightCounter height (wrap32 (n + 1))]>
                   (set_meter mt s).
Proof.
  unfold take_number, wrap_err, map_err, mbind, M_bind.
  pose proof (kv_get_cases TXCounterPrefix s) as Hg.
  destruct (kv_get TXCounterPrefix s) as [[v|e|p] s1]; simpl; [|done..].
  destruct Hg as (_ & mt & ->). unfold kv_set, kv_access, mbind, M_bind.
  destruct (consume_all _ (set_meter mt s)) as [[[]|e|p] s2] eqn:E2; [|done..].
  destruct (consume_all_meter (kv_charges (OpSet TXCounterPrefix
    (encodeHeightCounter height (wrap32 (n + 1))))) (set_meter mt s)) as [mt2 Hm].
  rewrite E2 in Hm. simpl in Hm. subst s2.
  destruct (kv_fault _) as [[]|]; simpl; [done..|]. intros [= <-]. by exists mt2.
Qed.

(** The decorator takes the number, as far as gas and store permit, and runs
    the handlers behind it with the number. *)
Lemma CountTXDecorator_equation ctx tx next n s :
  counter_at (kv s) (ctx_BlockHeight ctx) = Ret n ->
  CountTXDecorator_AnteHandle ctx tx false next s
  = (_ ← take_number (ctx_BlockHeight ctx) n; next (WithTXCounter ctx n) tx false) s.
Proof.
  unfold counter_at, CountTXDecorator_AnteHandle, take_number, wrap_err, map_err, mbind, M_bind.
  intros Hn. pose proof (kv_get_cases TXCounterPrefix s) as Hg.
  destruct (kv_get TXCounterPrefix s) as [[v|e|p] s1]; simpl; [|done..].
  destruct Hg as (-> & mt & ->). destruct (kv s !! TXCounterPrefix) as [bz|].
  - destruct (decodeHeightCounter bz) as [[lh v]| |]; [|done..]. cbn [obind] in Hn.
    injection Hn as <-. simpl. by destruct (kv_set _ _ _) as [[]].
  - injection Hn as <-. simpl. by destruct (kv_set _ _ _) as [[]].
Qed.

Lemma counter_at_same σ σ' h :
  σ' !! TXCounterPrefix = σ !! TXCounterPrefix -> counter_at σ' h = counter_at σ h.
Proof. intros E. unfold counter_at. by rewrite E. Qed.
Lemma wrap32_u32 n : is_u32 (wrap32 n).
Proof. by apply N.mod_lt. Qed.
Lemma wrap32_succ n : wrap32 (wrap32 n + 1) = wrap32 (n + 1).
Proof. unfold wrap32. apply N.Div0.add_mod_idemp_l. Qed.

(** ** The values the keeper finds in the context *)

(** Documented of sdk.ChainAnteDecorators. *)
Hypothesis chain_cons : forall d ds ctx tx sim,
  ChainAnteDecorators (d :: ds) ctx tx sim = d ctx tx sim (ChainAnteDecorators ds).

(** C28: what the chain of the application sets up. After the SDK's own setup
    decorator, a delivered transaction takes its number under its own gas
    meter, by a read and a write of the stored counter, and nothing else of
    the state changes. When neither fails or runs out of gas, the handlers
    that follow run with the number, the gas register of the keeper and an
    empty set of loaded contracts; otherwise the chain ends with that failure.
    A simulation runs under a fresh meter with the configured limit, without
    a number and with the store as it was. *)
Theorem NewAnteHandler_context maxGas options h g limit :
  NewAnteHandler maxGas options = Ret h -> opt_WasmKeeper options = Some g ->
  opt_NodeConfig options = Some limit ->
  exists inner,
    (forall ctx tx sim, h ctx tx sim = SetUpContextDecorator ctx tx sim inner)
    /\ (forall ctx tx s n, counter_at (kv s) (ctx_BlockHeight ctx) = Ret n ->
          match take_number (ctx_BlockHeight ctx) n s with
          | (Ret _, s1) =>
              (exists mt, s1 = set_kv <[TXCounterPrefix :=
                 encodeHeightCounter (ctx_BlockHeight ctx) (wrap32 (n + 1))]> (set_meter mt s))
              /\ inner ctx tx false s
                 = ChainAnteDecorators others (WithGasRegister (WithTXCounter ctx n) g) tx false
                     (set_txc (Some ∅) s1)
          | (Fail e, s1) => inner ctx tx false s = (Fail e, s1)
          | (Panic p, s1) => inner ctx tx false s = (Panic p, s1)
          end)
    /\ (forall ctx tx s l, limit = Some l -> l <> 0%N /\ inner ctx tx true s
          = ChainAnteDecorators others (WithGasRegister ctx g) tx true
              (set_txc (Some ∅) (set_meter (NewGasMeter l) s))).
Proof.
  intros Hh Hg Hl. unfold NewAnteHandler in Hh. rewrite Hg, Hl in Hh.
  repeat case_match; try done. destruct (NewLimitSimulationGasDecorator limit) as [lim| |] eqn:El;
    [|done..]. cbn [obind] in Hh. injection Hh as <-.
  assert (lim = limit /\ limit <> Some 0%N) as [-> Hn0].
  { unfold NewLimitSimulationGasDecorator in El. repeat case_match; simplify_eq; done. }
  eexists. split; [|split].
  - intros ctx tx sim. apply chain_cons.
  - intros ctx tx s n Hn. rewrite chain_cons. unfold LimitSimulationGasDecorator_AnteHandle.
    cbn [negb app]. rewrite chain_cons, (CountTXDecorator_equation _ _ _ n) by done.
    unfold mbind, M_bind. destruct (take_number _ _ s) as [[[]|e|p] s1] eqn:Et; [|done..].
    split; [by apply take_number_stores|]. rewrite chain_cons.
    unfold GasRegisterDecorator_AnteHandle. by rewrite chain_cons.
  - intros ctx tx s l ->. split; [by intros ->|]. rewrite chain_cons.
    unfold LimitSimulationGasDecorator_AnteHandle. cbn [negb].
    unfold mbind, M_bind, modify. rewrite !chain_cons.
    unfold CountTXDecorator_AnteHandle. rewrite !chain_cons. unfold GasRegisterDecorator_AnteHandle.
    by rewrite chain_cons.
Qed.

End Ante.

(** ** The transactions of a block *)

Section Block.
Context `{GasMeters, Modules, KVStorePkg, Bech32, ErrorsMod, UnicodeTables,
  AddressPkg, CoinsPkg, Codecs, Gzip, VerificationPkg}.
Context `{!WasmEngine, !Keepers, !ICS4, !CoinConversion, !TransferPort, !AnyUnpacker,
  !MsgCodec, !QueryKeepers, !IBCEngine, !IBCCore, !AppRouter}.
Context (k : KeeperConfig).
Context (json_QueryRequest : bytes -> QueryRequest + string).
Context {Tx : Type}.
Context (next : AnteHandler (Tx := Tx)).

(** What messages leave alone. *)
Definition counter_kept (s s' : State) : Prop :=
  kv s' !! TXCounterPrefix = kv s !! TXCounterPrefix.
#[local] Instance counter_kept_frame : StateFrame counter_kept.
Proof.
  split; try (intros; done).
  - split; [by intros ?|]. intros a b c Hab Hbc. unfold counter_kept in *. congruence.
Qed.
#[local] Instance counter_kept_writes : WriteFrame counter_kept.
Proof.
  split; [intros key v s Hs|intros key s Hs]; unfold counter_kept; simpl.
  - apply lookup_insert_ne. intros ->. by destruct Hs.
  - apply lookup_delete_ne. intros ->. by destruct Hs as (? & ? & ? & ?).
Qed.
#[local] Instance counter_kept_receives : ReceiveFrame counter_kept.
Proof.
  exists (fun _ => True); [|intros; apply all_calls_any, receives_any].
  intros p s _. unfold counter_kept. simpl. by apply lookup_insert_ne.
Defined.

(** One run of the ante handlers, from the counter on, in a state with the gas
    meter of the transaction. *)
Record Run := mkRun {
  run_ctx : Context;
  run_tx : Tx;
  run_simulate : bool;
  run_start : State;
  run_outcome : outcome Context;
}.
(** A simulation never leaves anything in the state, nor do handlers that
    fail or panic. *)
Definition run_accepted (r : Run) : bool :=
  match run_outcome r with Ret _ => negb (run_simulate r) | _ => false end.

(** A block: runs of the ante handlers, messages of accepted transactions and
    whatever else leaves the stored counter alone, in any order. *)
Inductive block (height : Z) : State -> list Run -> Prop :=
| block_end s : block height s []
| block_other s t runs : counter_kept s t -> block height t runs -> block height s runs
| block_message s depth ctx msg o s' runs :
    System.Route k json_QueryRequest depth ctx msg s = (o, s') ->
    block height s' runs -> block height s runs
| block_ante ctx tx simulate s o s' runs :
    ctx_BlockHeight ctx = height ->
    CountTXDecorator_AnteHandle ctx tx simulate next s = (o, s') ->
    let r := mkRun ctx tx simulate s o in
    block height (if run_accepted r then s' else rollback s s') runs ->
    block height s (r :: runs).

(** The run takes the number [n] as far as gas and store permit and goes on
    with it; a simulation goes on without one. *)
Definition numbered (n : N) (r : Run) : Prop :=
  CountTXDecorator_AnteHandle (run_ctx r) (run_tx r) (run_simulate r) next (run_start r)
  = if run_simulate r then next (run_ctx r) (run_tx r) true (run_start r)
    else (_ ← take_number (ctx_BlockHeight (run_ctx r)) n;
          next (WithTXCounter (run_ctx r) n) (run_tx r) false) (run_start r).
(** Accepted transactions count. *)
Fixpoint numbered_from (n : N) (runs : list Run) : Prop :=
  match runs with
  | [] => True
  | r :: runs => numbered (wrap32 n) r
      /\ numbered_from (if run_accepted r then n + 1 else n)%N runs
  end.

Lemma block_numbered height s runs n :
  is_int64 height ->
  (forall c tx sim, preserves counter_kept (next c tx sim)) ->
  counter_at (kv s) height = Ret (wrap32 n) -> block height s runs -> numbered_from n runs.
Proof.
  intros Hh Hnext Hn B. revert n Hn.
  induction B as [s|s t runs Hk B IH|s depth ctx msg o s' runs E B IH
    |ctx tx simulate s o s' runs Hctx E r B IH]; intros n Hn; simpl; [done| | |].
  - apply IH. by rewrite (counter_at_same (kv s)).
  - apply IH. rewrite (counter_at_same (kv s)); [done|].
    pose proof (fr_Route k json_QueryRequest counter_kept depth ctx msg s) as Hk. by rewrite E in Hk.
  - split.
    + unfold numbered. simpl. destruct simulate; [done|].
      apply CountTXDecorator_equation. by rewrite Hctx.
    + apply IH. unfold run_accepted. simpl.
      destruct o as [c|e|p]; [|exact Hn..]. destruct simulate; [exact Hn|]. simpl.
      rewrite (CountTXDecorator_equation _ _ _ (wrap32 n)) in E by (by rewrite Hctx).
      unfold mbind, M_bind in E.
      destruct (take_number _ _ s) as [[[]|e|p] s1] eqn:Et; [|done..].
      apply take_number_stores in Et as [mt ->].
      pose proof (Hnext (WithTXCounter ctx (wrap32 n)) tx false (set_kv <[TXCounterPrefix :=
        encodeHeightCounter (ctx_BlockHeight ctx) (wrap32 (wrap32 n + 1))]> (set_meter mt s))) as Hk.
      rewrite E in Hk. rewrite (counter_at_same _ _ _ Hk). simpl kv.
      rewrite counter_at_insert by (rewrite ?Hctx; done || apply wrap32_u32).
      by rewrite Hctx, Z.eqb_refl, wrap32_succ.
Qed.

(** C27: transactions are numbered within their block. When the store holds no
    counter or one of another height, the ante handlers behind the counter run
    the transactions of the block with the numbers 0, 1, 2, ... modulo 2^32,
    in the order they are delivered; a transaction that the handlers refuse,
    or that runs out of gas in them, leaves its number to the next one;
    simulations get no number. Messages of whatever module in between do not
    change the count. The handlers behind the counter must leave the stored
    counter alone. *)
Theorem block_counters height s runs :
  is_int64 height ->
  (forall c tx sim, preserves counter_kept (next c tx sim)) ->
  (forall bz, kv s !! TXCounterPrefix = Some bz -> exists h v,
     decodeHeightCounter bz = Ret (h, v) /\ h <> height) ->
  block height s runs -> numbered_from 0 runs.
Proof.
  intros Hh Hnext Hs. apply block_numbered; [done..|]. unfold counter_at.
  destruct (kv s !! TXCounterPrefix) as [bz|]; [|done].
  destruct (Hs bz eq_refl) as (h & v & -> & Hne). simpl.
  by rewrite (proj2 (Z.eqb_neq _ _)) by congruence.
Qed.

End Block.
End Ante.
