(* ===== verification/Legacy.v ===== *)
(** The records of earlier versions of the module
    (x/wasm/migrations/v2/legacy_types.go and x/wasm/migrations/v3/legacy_types.go,
    generated code), which knew the permission AccessTypeOnlyAddress with its
    single address. The two files declare the same types and methods; version
    2 writes its parameters with Marshal, version 3 reads parameters and code
    infos with Unmarshal. With them the validation of the parameters of
    version 2 (x/wasm/migrations/v2/params_legacy.go). *)
From S2P Require Import Prelude Errors GoStrings Json Types Proto.
Import Proto.
Open Scope wasm_scope.

Module Legacy.

(** ** Types *)

(** [type AccessType int32] with its constants *)
Abbreviation AccessType := Z (only parsing).
Definition AccessTypeUnspecified : AccessType := 0%Z.
Definition AccessTypeNobody : AccessType := 1%Z.
Definition AccessTypeOnlyAddress : AccessType := 2%Z.
Definition AccessTypeEverybody : AccessType := 3%Z.
Definition AccessTypeAnyOfAddresses : AccessType := 4%Z.

Record AccessTypeParam := mkAccessTypeParam { Value : AccessType }.
Record AccessConfig := mkAccessConfig {
  Permission : AccessType;
  Address : string;
  Addresses : list string;
}.
Record Params := mkParams {
  CodeUploadAccess : AccessConfig;
  InstantiateDefaultPermission : AccessType;
}.
Record CodeInfo := mkCodeInfo {
  CodeHash : bytes;
  CodeCreator : string;
  InstantiateConfig : AccessConfig;
}.

Definition AccessTypeParam_zero : AccessTypeParam := mkAccessTypeParam 0.
Definition AccessConfig_zero : AccessConfig := mkAccessConfig 0 "" [].
Definition Params_zero : Params := mkParams AccessConfig_zero 0.
Definition CodeInfo_zero : CodeInfo := mkCodeInfo [] "" AccessConfig_zero.

(** ** Equal *)

(** The start of every Equal method, on pointers that may be nil. *)
Definition ptr_Equal {A} (eqb : A -> A -> bool) (m that : option A) : bool :=
  match that, m with
  | None, None => true
  | None, Some _ => false
  | Some _, None => false
  | Some that1, Some m => eqb m that1
  end.

(** The loop over two slices of equal length. *)
Fixpoint strings_Equal (l l' : list string) : bool :=
  match l, l' with
  | x :: l, x' :: l' => if negb (x =? x')%string then false else strings_Equal l l'
  | _, _ => true
  end.

Definition AccessTypeParam_Equal : option AccessTypeParam -> option AccessTypeParam -> bool :=
  ptr_Equal (fun m that1 => if negb (Value m =? Value that1)%Z then false else true).
Definition AccessConfig_Equal : option AccessConfig -> option AccessConfig -> bool :=
  ptr_Equal (fun m that1 =>
    if negb (Permission m =? Permission that1)%Z then false
    else if negb (Address m =? Address that1)%string then false
    else if negb (Nat.eqb (length (Addresses m)) (length (Addresses that1))) then false
    else strings_Equal (Addresses m) (Addresses that1)).
Definition Params_Equal : option Params -> option Params -> bool :=
  ptr_Equal (fun m that1 =>
    if negb (AccessConfig_Equal (Some (CodeUploadAccess m)) (Some (CodeUploadAccess that1)))
    then false
    else if negb (InstantiateDefaultPermission m =? InstantiateDefaultPermission that1)%Z
    then false else true).
Definition CodeInfo_Equal : option CodeInfo -> option CodeInfo -> bool :=
  ptr_Equal (fun m that1 =>
    if negb (bool_decide (CodeHash m = CodeHash that1)) then false
    else if negb (CodeCreator m =? CodeCreator that1)%string then false
    else if negb (AccessConfig_Equal (Some (InstantiateConfig m)) (Some (InstantiateConfig that1)))
    then false else true).

(** ** Marshal and Size *)

Definition AccessTypeParam_Marshal (m : AccessTypeParam) : bytes :=
  put_uint Byte.x08 (enum_bits (Value m)).
Definition AccessConfig_Marshal (m : AccessConfig) : bytes :=
  put_uint Byte.x08 (enum_bits (Permission m)) ++ put_string Byte.x12 (Address m)
  ++ concat ((fun a => put_msg Byte.x1a (bytes_of_string a)) <$> Addresses m).
Definition Params_Marshal (m : Params) : bytes :=
  put_msg Byte.x0a (AccessConfig_Marshal (CodeUploadAccess m))
  ++ put_uint Byte.x10 (enum_bits (InstantiateDefaultPermission m)).
Definition CodeInfo_Marshal (m : CodeInfo) : bytes :=
  put_bytes Byte.x0a (CodeHash m) ++ put_string Byte.x12 (CodeCreator m)
  ++ put_msg Byte.x2a (AccessConfig_Marshal (InstantiateConfig m)).

Definition AccessTypeParam_Size (m : AccessTypeParam) : N := size_uint (enum_bits (Value m)).
Definition AccessConfig_Size (m : AccessConfig) : N :=
  (size_uint (enum_bits (Permission m)) + size_bytes (slen (Address m))
   + foldr (fun a n => size_msg (slen a) + n) 0 (Addresses m))%N.
Definition Params_Size (m : Params) : N :=
  (size_msg (AccessConfig_Size (CodeUploadAccess m))
   + size_uint (enum_bits (InstantiateDefaultPermission m)))%N.
Definition CodeInfo_Size (m : CodeInfo) : N :=
  (size_bytes (blen (CodeHash m)) + size_bytes (slen (CodeCreator m))
   + size_msg (AccessConfig_Size (InstantiateConfig m)))%N.

(** ** Unmarshal *)

Definition AccessTypeParam_field : FieldReader AccessTypeParam := fun num wire total bs m =>
  if (num =? 1)%Z then read_uint wire bs (fun v => mkAccessTypeParam (to_int32 v)) else None.
Definition AccessConfig_field : FieldReader AccessConfig := fun num wire total bs m =>
  if (num =? 1)%Z then
    read_uint wire bs (fun v => mkAccessConfig (to_int32 v) (Address m) (Addresses m))
  else if (num =? 2)%Z then
    read_delimited wire total bs (fun v =>
      inl (mkAccessConfig (Permission m) (string_of_bytes v) (Addresses m)))
  else if (num =? 3)%Z then
    read_delimited wire total bs (fun v =>
      inl (mkAccessConfig (Permission m) (Address m) (Addresses m ++ [string_of_bytes v])))
  else None.
Definition AccessTypeParam_Unmarshal : AccessTypeParam -> bytes -> AccessTypeParam + error :=
  unmarshal_with AccessTypeParam_field.
Definition AccessConfig_Unmarshal : AccessConfig -> bytes -> AccessConfig + error :=
  unmarshal_with AccessConfig_field.

Definition Params_field : FieldReader Params := fun num wire total bs m =>
  if (num =? 1)%Z then
    read_delimited wire total bs (fun v =>
      embed (AccessConfig_Unmarshal (CodeUploadAccess m) v)
        (fun a => mkParams a (InstantiateDefaultPermission m)))
  else if (num =? 2)%Z then
    read_uint wire bs (fun v => mkParams (CodeUploadAccess m) (to_int32 v))
  else None.
Definition Params_Unmarshal : Params -> bytes -> Params + error := unmarshal_with Params_field.

Definition CodeInfo_field : FieldReader CodeInfo := fun num wire total bs m =>
  if (num =? 1)%Z then
    read_delimited wire total bs (fun v =>
      inl (mkCodeInfo v (CodeCreator m) (InstantiateConfig m)))
  else if (num =? 2)%Z then
    read_delimited wire total bs (fun v =>
      inl (mkCodeInfo (CodeHash m) (string_of_bytes v) (InstantiateConfig m)))
  else if (num =? 5)%Z then
    read_delimited wire total bs (fun v =>
      embed (AccessConfig_Unmarshal (InstantiateConfig m) v)
        (fun a => mkCodeInfo (CodeHash m) (CodeCreator m) a))
  else None.
Definition CodeInfo_Unmarshal : CodeInfo -> bytes -> CodeInfo + error :=
  unmarshal_with CodeInfo_field.
(** The recursion bound of these, too, is enough. *)
Lemma legacy_readers_consume :
  consumes AccessTypeParam_field /\ consumes AccessConfig_field /\ consumes Params_field /\ consumes CodeInfo_field.
Proof. split_and!; consumed. Qed.

(** ** Text of an access type *)

Definition AllAccessTypes : list AccessType :=
  [AccessTypeNobody; AccessTypeOnlyAddress; AccessTypeAnyOfAddresses; AccessTypeEverybody].
Definition AccessType_String (a : AccessType) : string :=
  if (a =? AccessTypeNobody)%Z then "Nobody"
  else if (a =? AccessTypeOnlyAddress)%Z then "OnlyAddress"
  else if (a =? AccessTypeEverybody)%Z then "Everybody"
  else if (a =? AccessTypeAnyOfAddresses)%Z then "AnyOfAddresses"
  else "Unspecified".
Definition AccessType_MarshalText (a : AccessType) : bytes := bytes_of_string (AccessType_String a).
Definition AccessType_UnmarshalText (text : bytes) : AccessType :=
  match List.find (fun v => (AccessType_String v =? string_of_bytes text)%string) AllAccessTypes with
  | Some v => v
  | None => AccessTypeUnspecified
  end.
Definition AccessConfig_Equals (a o : AccessConfig) : bool :=
  (Permission a =? Permission o)%Z && (Address a =? Address o)%string.

(** ** Validation *)

Section Validation.
Context `{Bech32}.

(** The map [idx] of the addresses seen is the list of them. *)
Fixpoint assert_addresses (addrs idx : list string) : option error :=
  match addrs with
  | [] => None
  | a :: addrs' =>
      WrapOpt (bech32_err a) "address: %s"
      >>? errIf (bool_decide (a ∈ idx)) (Wrap ErrDuplicate "address: %s")
      >>? assert_addresses addrs' (a :: idx)
  end.
Definition assertValidAddresses (addrs : list string) : option error :=
  if Nat.eqb (length addrs) 0 then Some ErrEmpty else assert_addresses addrs [].

Definition AccessConfig_ValidateBasic (a : AccessConfig) : option error :=
  let p := Permission a in
  if (p =? AccessTypeUnspecified)%Z then Some (Wrap ErrEmpty "type")
  else if (p =? AccessTypeNobody)%Z || (p =? AccessTypeEverybody)%Z then None
  else if (p =? AccessTypeOnlyAddress)%Z then WrapOpt (bech32_err (Address a)) "only address"
  else if (p =? AccessTypeAnyOfAddresses)%Z
  then WrapOpt (assertValidAddresses (Addresses a)) "addresses"
  else Some (Wrap ErrInvalid "unknown type: %q").
Definition validateAccessConfig : AccessConfig -> option error := AccessConfig_ValidateBasic.
Definition validateAccessType (a : AccessType) : option error :=
  errIf (a =? AccessTypeUnspecified)%Z (Wrap ErrEmpty "type")
  >>? (if List.existsb (fun v => (v =? a)%Z) AllAccessTypes then None
       else Some (Wrap ErrInvalid "unknown type: %q")).

End Validation.

(** ** Equal is equality *)

Lemma ptr_Equal_spec {A} (eqb : A -> A -> bool) :
  (forall m that, eqb m that = true <-> m = that) ->
  forall m that, ptr_Equal eqb m that = true <-> m = that.
Proof. intros He [m|] [that|]; simpl; rewrite ?He; naive_solver. Qed.
Lemma strings_Equal_spec l l' :
  length l = length l' -> strings_Equal l l' = true <-> l = l'.
Proof.
  revert l'. induction l as [|x l IH]; intros [|x' l'] Hl; try done. injection Hl as Hl. simpl.
  destruct (String.eqb_spec x x') as [->|]; simpl; [rewrite IH by done|]; naive_solver.
Qed.
Lemma AccessConfig_Equal_spec m that : AccessConfig_Equal m that = true <-> m = that.
Proof.
  apply ptr_Equal_spec. intros [p a l] [p' a' l']. simpl.
  destruct (Z.eqb_spec p p') as [->|]; simpl; [|naive_solver].
  destruct (String.eqb_spec a a') as [->|]; simpl; [|naive_solver].
  destruct (Nat.eqb_spec (length l) (length l')); simpl; [|naive_solver].
  rewrite strings_Equal_spec by done. naive_solver.
Qed.

Lemma AccessConfig_Equal_reflect c c' :
  reflect (c = c') (AccessConfig_Equal (Some c) (Some c')).
Proof. apply iff_reflect. rewrite AccessConfig_Equal_spec. naive_solver. Qed.

(** The generated Equal methods decide equality of records, nil included. *)
Theorem legacy_Equal_spec :
  (forall m that, AccessTypeParam_Equal m that = true <-> m = that)
  /\ (forall m that, AccessConfig_Equal m that = true <-> m = that)
  /\ (forall m that, Params_Equal m that = true <-> m = that)
  /\ (forall m that, CodeInfo_Equal m that = true <-> m = that).
Proof.
  split_and!; [|apply AccessConfig_Equal_spec| |]; intros m that; apply ptr_Equal_spec.
  - intros [v] [v']. simpl. destruct (Z.eqb_spec v v') as [->|]; simpl; naive_solver.
  - intros [c d] [c' d']. cbn [CodeUploadAccess InstantiateDefaultPermission].
    destruct (AccessConfig_Equal_reflect c c') as [->|], (Z.eqb_spec d d') as [->|]; simpl;
      naive_solver.
  - intros [h c i] [h' c' i']. cbn [CodeHash CodeCreator InstantiateConfig].
    destruct (bool_decide_reflect (h = h')) as [->|], (String.eqb_spec c c') as [->|],
      (AccessConfig_Equal_reflect i i') as [->|]; simpl; naive_solver.
Qed.

(** ** Round trips *)

Lemma reads_put_enum {A} (field : FieldReader A) tag fieldNum v (set : Z -> A) m :
  is_tag tag fieldNum 0%N ->
  (forall total bs, field fieldNum 0%N total bs m = read_uint 0%N bs (fun v => set (to_int32 v))) ->
  is_int32 v -> set 0%Z = m -> reads field m (put_uint tag (enum_bits v)) (set v).
Proof.
  intros Ht Hf Hv H0. rewrite <- (to_int32_enum_bits v Hv) at 2.
  apply (reads_put_uint field tag fieldNum _ (fun v => set (to_int32 v)));
    auto using enum_bits_u64.
Qed.

Lemma AccessTypeParam_roundtrip m :
  is_int32 (Value m) ->
  AccessTypeParam_Unmarshal AccessTypeParam_zero (AccessTypeParam_Marshal m) = inl m.
Proof.
  intros Hv. destruct m as [v]. apply reads_all.
  - by apply (reads_put_enum _ _ 1%Z v mkAccessTypeParam); try field.
  - unfold AccessTypeParam_Marshal. rewrite length_put_uint by apply enum_bits_u64.
    simpl Value. unfold size_uint, sov. rewrite size_odd. pose proof (enum_bits_u64 v) as Hu.
    destruct (N.eqb_spec (enum_bits v) 0); [done|].
    assert (N.log2 (enum_bits v) < 64)%N by (apply N.log2_lt_pow2; [lia|exact Hu]).
    assert ((N.log2 (enum_bits v) + 1 + 6) / 7 <= 71 / 7)%N by (apply N.Div0.div_le_mono; lia).
    change (71 / 7)%N with 10%N in *. unfold two63. lia.
Qed.
Lemma legacy_reads_addresses p a l l' :
  reads AccessConfig_field (mkAccessConfig p a l)
    (concat ((fun a => put_msg Byte.x1a (bytes_of_string a)) <$> l'))
    (mkAccessConfig p a (l ++ l')).
Proof.
  revert l. induction l' as [|x l' IH]; intros l.
  { rewrite app_nil_r. apply reads_nil. }
  rewrite fmap_cons, concat_cons.
  eapply reads_app; [eapply (reads_put_msg _ _ 3%Z); [field|by intros|]|].
  - simpl. by rewrite string_of_bytes_of_string.
  - replace (l ++ x :: l') with ((l ++ [x]) ++ l') by by rewrite <- app_assoc. apply IH.
Qed.
Lemma legacy_AccessConfig_roundtrip m :
  is_int32 (Permission m) -> (blen (AccessConfig_Marshal m) < two63)%N ->
  AccessConfig_Unmarshal AccessConfig_zero (AccessConfig_Marshal m) = inl m.
Proof.
  intros Hp Hl. apply reads_all; [|done]. destruct m as [p a l]. simpl in Hp.
  eapply reads_app; [|eapply reads_app; [|apply (legacy_reads_addresses p a [] l)]].
  - by apply (reads_put_enum _ _ 1%Z p (fun v => mkAccessConfig v "" [])); try field.
  - by apply (reads_put_string _ _ 2%Z a (fun v => mkAccessConfig p v [])); try field.
Qed.
Lemma Params_roundtrip m :
  is_int32 (Permission (CodeUploadAccess m)) -> is_int32 (InstantiateDefaultPermission m) ->
  (blen (Params_Marshal m) < two63)%N -> Params_Unmarshal Params_zero (Params_Marshal m) = inl m.
Proof.
  intros Hc Hd Hl. destruct m as [c d]. simpl in *. apply reads_all; [|done].
  unfold Params_Marshal in Hl. rewrite blen_app in Hl. simpl in Hl.
  pose proof (blen_put_msg Byte.x0a (AccessConfig_Marshal c)).
  eapply reads_app.
  - eapply (reads_put_embedded _ _ 1%Z _ _ (fun a => mkParams a 0%Z));
      [field|by intros|]. apply legacy_AccessConfig_roundtrip; [done|simpl; lia].
  - by apply (reads_put_enum _ _ 2%Z d (fun v => mkParams c v)); try field.
Qed.
Lemma CodeInfo_roundtrip m :
  is_int32 (Permission (InstantiateConfig m)) -> (blen (CodeInfo_Marshal m) < two63)%N ->
  CodeInfo_Unmarshal CodeInfo_zero (CodeInfo_Marshal m) = inl m.
Proof.
  intros Hc Hl. destruct m as [h c a]. simpl in *. apply reads_all; [|done].
  unfold CodeInfo_Marshal in Hl. rewrite !blen_app in Hl. simpl in Hl.
  pose proof (blen_put_msg Byte.x2a (AccessConfig_Marshal a)).
  eapply reads_app; [|eapply reads_app].
  - by apply (reads_put_bytes _ _ 1%Z h (fun v => mkCodeInfo v "" AccessConfig_zero)); try field.
  - by apply (reads_put_string _ _ 2%Z c (fun v => mkCodeInfo h v AccessConfig_zero)); try field.
  - eapply (reads_put_embedded _ _ 5%Z _ _ (fun a => mkCodeInfo h c a)); [field|by intros|].
    apply legacy_AccessConfig_roundtrip; [done|simpl; lia].
Qed.

(** Size is the length of what Marshal writes. *)
Lemma legacy_AccessConfig_Size m :
  is_u64 (blen (AccessConfig_Marshal m)) -> AccessConfig_Size m = blen (AccessConfig_Marshal m).
Proof.
  unfold AccessConfig_Marshal, AccessConfig_Size. rewrite !blen_app. intros Hl.
  rewrite length_put_uint by apply enum_bits_u64.
  assert (is_u64 (blen (concat ((fun a => put_msg Byte.x1a (bytes_of_string a)) <$> Addresses m))))
    as Ha by (unfold is_u64 in *; lia).
  assert (is_u64 (blen (put_string Byte.x12 (Address m)))) as Hs by (unfold is_u64 in *; lia).
  assert (size_bytes (slen (Address m)) = blen (put_string Byte.x12 (Address m))) as ->.
  { sizes. done. }
  rewrite <- N.add_assoc. do 2 f_equal. clear Hl Hs.
  induction (Addresses m) as [|a l IH]; [done|]. rewrite fmap_cons, concat_cons in *.
  cbn [foldr]. rewrite blen_app in *.
  rewrite IH by (unfold is_u64 in *; lia). sizes. done.
Qed.
Theorem legacy_Size_spec :
  (forall m, is_u64 (blen (Params_Marshal m)) -> Params_Size m = blen (Params_Marshal m))
  /\ (forall m, is_u64 (blen (CodeInfo_Marshal m)) -> CodeInfo_Size m = blen (CodeInfo_Marshal m)).
Proof.
  split; intros m Hl.
  - unfold Params_Size, Params_Marshal in *. sizes.
    rewrite legacy_AccessConfig_Size; [done|unfold is_u64 in *; lia].
  - unfold CodeInfo_Size, CodeInfo_Marshal in *. sizes.
    rewrite legacy_AccessConfig_Size by (unfold is_u64 in *; lia). lia.
Qed.

(** ** Text *)

Lemma AccessType_text_roundtrip a :
  a ∈ AllAccessTypes -> AccessType_UnmarshalText (AccessType_MarshalText a) = a.
Proof. unfold AllAccessTypes. rewrite !elem_of_cons, elem_of_nil. by intros [->|[->|[->|[->|[]]]]]. Qed.

End Legacy.
