(* ===== verification/Migrations.v ===== *)
(** The in-place migrations of the store (x/wasm/migrations/v1/store.go,
    v2/store.go, v3/store.go and x/wasm/keeper/migrations.go): version 2 adds
    the index of contracts by creator, version 3 takes the parameters over
    from the x/params module, version 4 replaces the permission for a single
    address. Run one after the other on a store of version 1 they return, with
    a store that represents the registry the rest of the development is
    about. *)
From S2P Require Import Prelude Errors GoStrings Json Types Proto Keys VMTypes Policy GasRegister Chain Logic Wp Engine Store Registry Events Keeper Msgs MsgServer KeeperFrame Refinement RefineKeeper Genesis Total Legacy.
Import GoStrings Keys Store.Store Registry.Registry.
Open Scope wasm_scope.

#[global] Instance codec_legacy_params : Codec Legacy.Params := {|
  marshal := Legacy.Params_Marshal;
  unmarshal := Legacy.Params_Unmarshal Legacy.Params_zero;
  codec_wf p := Proto.is_int32 (Legacy.Permission (Legacy.CodeUploadAccess p))
    /\ Proto.is_int32 (Legacy.InstantiateDefaultPermission p);
|}.
#[global] Instance codec_legacy_code : Codec Legacy.CodeInfo := {|
  marshal := Legacy.CodeInfo_Marshal;
  unmarshal := Legacy.CodeInfo_Unmarshal Legacy.CodeInfo_zero;
  codec_wf c := Proto.is_int32 (Legacy.Permission (Legacy.InstantiateConfig c));
|}.
#[global] Instance codec_legacy_params_laws : CodecLaws Legacy.Params.
Proof. split. intros p [Hu Hi] Hl. by apply Legacy.Params_roundtrip. Qed.
#[global] Instance codec_legacy_code_laws : CodecLaws Legacy.CodeInfo.
Proof. split. intros c Hp Hl. by apply Legacy.CodeInfo_roundtrip. Qed.

Module Migrations.

Section Migrations.
Context `{GasMeters, Modules, KVStorePkg, Bech32, ErrorsMod, AddressPkg, Codecs}.

(** exported.Subspace: the parameters as the x/params module holds them. *)
Context (GetParamSet : Ext Legacy.Params).

(** ** Version 1 to 2 *)

(** sdk.MustAccAddressFromBech32 *)
Definition MustAccAddressFromBech32 (address : string) : outcome bytes :=
  match AccAddressFromBech32 address with inl a => Ret a | inr err => Panic (PError err) end.

Definition v1_Migrate1to2
    (addToSecondIndexFn : bytes -> option AbsoluteTxPosition -> bytes -> M unit) : M unit :=
  IterateContractInfo (fun contractAddr contractInfo _ =>
    creator ← lift (MustAccAddressFromBech32 (Creator contractInfo));
    _ ← must (addToSecondIndexFn creator (Created contractInfo) contractAddr);
    mret (tt, false)) tt.

(** ** Version 2 to 3 *)

(** The generated Marshal of the parameters returns no error; what can fail is
    the allocation of the slice, a panic in Marshal as in MustMarshal. *)
Definition v2_MigrateStore (ctx : Context) : M unit :=
  currParams ← call_ext ctx GetParamSet;
  bz ← MustMarshal currParams;
  kv_set ParamsKey bz.

(** ** Version 3 to 4 *)

Definition updateAccessConfig (legacyAccessConfig : Legacy.AccessConfig) : AccessConfig :=
  if (Legacy.Permission legacyAccessConfig =? Legacy.AccessTypeOnlyAddress)%Z
  then mkAccessConfig AccessTypeAnyOfAddresses [Legacy.Address legacyAccessConfig]
  else mkAccessConfig (Proto.AccessType_of (Legacy.Permission legacyAccessConfig))
         (Legacy.Addresses legacyAccessConfig).

Definition v3_newParams (legacyParams : Legacy.Params) : Params :=
  mkParams (updateAccessConfig (Legacy.CodeUploadAccess legacyParams))
    (if (Legacy.InstantiateDefaultPermission legacyParams =? Legacy.AccessTypeOnlyAddress)%Z
     then AccessTypeAnyOfAddresses
     else Proto.AccessType_of (Legacy.InstantiateDefaultPermission legacyParams)).
Definition v3_newCodeInfo (legacyCodeInfo : Legacy.CodeInfo) : CodeInfo :=
  mkCodeInfo (Legacy.CodeHash legacyCodeInfo) (Legacy.CodeCreator legacyCodeInfo)
    (updateAccessConfig (Legacy.InstantiateConfig legacyCodeInfo)).

(** The body of the loop over the codes. *)
Definition v3_migrateCode (storeCodeInfoFn : N -> CodeInfo -> M unit) (k v : bytes) (_ : unit)
    : M (unit * bool) :=
  legacyCodeInfo ← MustUnmarshal v;
  codeID ← lift (binary_Uint64 k);
  _ ← storeCodeInfoFn codeID (v3_newCodeInfo legacyCodeInfo);
  mret (tt, false).
Definition v3_Migrate3to4 (SetParamsFn : Params -> M unit)
    (storeCodeInfoFn : N -> CodeInfo -> M unit) : M unit :=
  bz ← kv_get ParamsKey;
  _ ← match bz with
      | None => mret tt
      | Some bz => legacyParams ← MustUnmarshal bz; SetParamsFn (v3_newParams legacyParams)
      end;
  iterate CodeKeyPrefix None None false (v3_migrateCode storeCodeInfoFn) tt.

(** ** keeper.Migrator *)

Definition Migrate1to2 : M unit := v1_Migrate1to2 addToContractCreatorSecondaryIndex.
Definition Migrate2to3 (ctx : Context) : M unit := v2_MigrateStore ctx.
Definition Migrate3to4 : M unit := v3_Migrate3to4 SetParams mustStoreCodeInfo.

(** The module manager runs the migrations registered for the versions 1, 2
    and 3 in this order. *)
Definition upgrade (ctx : Context) : M unit :=
  _ ← Migrate1to2; _ ← Migrate2to3 ctx; Migrate3to4.

(** ** Access configs *)

(** Who was admitted before version 4. *)
Definition legacy_Allowed (c : Legacy.AccessConfig) (actor : AccAddress) : outcome bool :=
  let p := Legacy.Permission c in
  if (p =? Legacy.AccessTypeNobody)%Z then Ret false
  else if (p =? Legacy.AccessTypeOnlyAddress)%Z
  then Ret (bool_decide (Legacy.Address c = acc_string actor))
  else if (p =? Legacy.AccessTypeEverybody)%Z then Ret true
  else if (p =? Legacy.AccessTypeAnyOfAddresses)%Z
  then Ret (existsb (fun v => bool_decide (v = acc_string actor)) (Legacy.Addresses c))
  else Panic (PText "unknown type").

Lemma updateAccessConfig_Allowed c actor :
  Allowed (updateAccessConfig c) actor = legacy_Allowed c actor.
Proof.
  destruct c as [p a l]. unfold updateAccessConfig, legacy_Allowed, Allowed. simpl.
  unfold Legacy.AccessTypeOnlyAddress, Legacy.AccessTypeNobody, Legacy.AccessTypeEverybody,
    Legacy.AccessTypeAnyOfAddresses.
  destruct (Z.eqb_spec p 2) as [->|]; simpl; [by rewrite orb_false_r|]. unfold Proto.AccessType_of.
  destruct (Z.eqb_spec p 0) as [->|]; [done|]. destruct (Z.eqb_spec p 1) as [->|]; [done|].
  destruct (Z.eqb_spec p 3) as [->|]; [done|]. by destruct (Z.eqb_spec p 4) as [->|].
Qed.

(** The new records can be stored. *)
Lemma AccessType_of_wf v : Proto.is_int32 v -> v <> 2%Z -> Proto.wf_access (Proto.AccessType_of v).
Proof.
  intros Hv Hne. unfold Proto.wf_access, Proto.AccessType_of.
  destruct (Z.eqb_spec v 0) as [->|]; [done|]. destruct (Z.eqb_spec v 1) as [->|]; [done|].
  destruct (Z.eqb_spec v 3) as [->|]; [done|]. destruct (Z.eqb_spec v 4) as [->|]; [done|].
  simpl. split; [done|]. unfold Proto.AccessType_of.
  by rewrite !(proj2 (Z.eqb_neq _ _)) by done.
Qed.
Lemma updateAccessConfig_wf c :
  Proto.is_int32 (Legacy.Permission c) -> Proto.wf_access (Permission (updateAccessConfig c)).
Proof.
  intros Hp. unfold updateAccessConfig. destruct (Z.eqb_spec (Legacy.Permission c) 2); simpl.
  - unfold Legacy.AccessTypeOnlyAddress. rewrite (proj2 (Z.eqb_eq _ _)) by done. done.
  - unfold Legacy.AccessTypeOnlyAddress. rewrite (proj2 (Z.eqb_neq _ _)) by done.
    by apply AccessType_of_wf.
Qed.
Lemma v3_newCodeInfo_wf c : codec_wf c -> codec_wf (v3_newCodeInfo c).
Proof. apply updateAccessConfig_wf. Qed.
Lemma v3_newParams_wf p : codec_wf p -> codec_wf (v3_newParams p).
Proof.
  intros [Hu Hi]. split; [by apply updateAccessConfig_wf|]. simpl.
  unfold Legacy.AccessTypeOnlyAddress.
  destruct (Z.eqb_spec (Legacy.InstantiateDefaultPermission p) 2); [done|].
  by apply AccessType_of_wf.
Qed.

(** ** The migrations and the registry *)

Context `{!Bech32Laws, !AddressPkgLaws, !CodecsLaws, !Unmetered}.

(** A registry with the codes and parameters of an older version. *)
Record OldRegistry := mkOldRegistry {
  old_codes : gmap N Legacy.CodeInfo;
  old_params : option Legacy.Params;
  rest : Registry;
}.
(** The registry that version 4 has in its place. *)
Definition migrated (o : OldRegistry) : Registry :=
  mkRegistry (v3_newCodeInfo <$> old_codes o) (contracts (rest o)) (history (rest o))
    (pinned (rest o)) (v3_newParams <$> old_params o) (next_code (rest o)) (next_instance (rest o)).

(** The store of version 3, and the one of version 1, which has no index by
    creator and no parameters. *)
Definition encode_v3 (o : OldRegistry) (e : Entry) : option bytes :=
  match e with
  | KCode id => marshal <$> old_codes o !! id
  | KParams => marshal <$> old_params o
  | e => encode (rest o) e
  end.
Definition encode_v1 (o : OldRegistry) (e : Entry) : option bytes :=
  match e with
  | KByCreator _ _ _ => None
  | KParams => None
  | e => encode_v3 o e
  end.

(** Keys under the prefix of codes are left alone. *)
Definition same_code_keys (σ σ' : kvs) : Prop :=
  forall k, σ' !! (CodeKeyPrefix ++ k) = σ !! (CodeKeyPrefix ++ k).
Lemma same_code_keys_insert σ σ' e v :
  same_code_keys σ σ' -> (forall id, e <> KCode id) -> same_code_keys σ (<[entry_key e := v]> σ').
Proof.
  intros Hs He k. rewrite <- (Hs k). apply lookup_insert_ne. intros E.
  by destruct e; try discriminate E; eapply He.
Qed.
Lemma same_code_keys_keys σ σ' :
  same_code_keys σ σ' -> Genesis.code_keys σ -> Genesis.code_keys σ'.
Proof. intros Hs Hk k. rewrite Hs. apply Hk. Qed.

(** The contracts not yet reached, by the keys that are left. *)
Definition index_upto (f : Entry -> option bytes) (a : Registry) (left : list bytes) (e : Entry)
    : option bytes :=
  match e with
  | KByCreator _ _ addr => if decide (addr ∈ left) then None else encode a e
  | e => f e
  end.

Lemma index_upto_step f a left addr i c p :
  contracts a !! addr = Some i -> VerifyAddressFormat c = None ->
  Creator i = AccAddress_String c -> Created i = Some p -> addr ∉ left ->
  forall e, reg_entry e ->
    upd (index_upto f a (addr :: left)) (KByCreator c p addr) (Some []) e = index_upto f a left e.
Proof.
  intros Hi Hv Hc Hp Hl e He. unfold upd. destruct (decide (e = _)) as [->|Hne]; simpl.
  { rewrite decide_False by done. by rewrite Hi, bool_decide_true. }
  destruct e as [| | | | | | | | |c' p' addr'| |]; try done. simpl.
  destruct (decide (addr' = addr)) as [->|].
  - rewrite decide_True by (by left). rewrite decide_False by done. rewrite Hi.
    rewrite bool_decide_false; [done|]. intros [Ec Ep]. apply Hne.
    rewrite Hc in Ec. apply bech32_String_inj in Ec as ->; [|done|apply He].
    rewrite Hp in Ep. by injection Ep as ->.
  - destruct (decide (addr' ∈ left)).
    + by rewrite decide_True by (by right).
    + rewrite decide_False; [done|]. by intros [|]%elem_of_cons.
Qed.

(** Version 1 to 2 adds the index and nothing else. *)
Lemma twp_Migrate1to2 f a σ (Q : unit -> kvs -> Prop) :
  reads σ f -> (forall addr, f (KContract addr) = marshal <$> contracts a !! addr) ->
  (forall c p addr, f (KByCreator c p addr) = None) ->
  (forall addr i, contracts a !! addr = Some i ->
     stored i /\ exists c p, VerifyAddressFormat c = None /\ Creator i = AccAddress_String c
       /\ Created i = Some p) ->
  (forall σ', same_code_keys σ σ' -> reads σ' (index_upto f a []) -> Q tt σ') ->
  twp Migrate1to2 Q σ.
Proof.
  intros Hr Hf Hn Ha HQ. unfold Migrate1to2, v1_Migrate1to2, IterateContractInfo.
  set (I := fun (l : list (bytes * bytes)) (_ : unit) (σ' : kvs) =>
    reads σ' (index_upto f a l.*1) /\ same_code_keys σ σ' /\ NoDup l.*1
    /\ forall k v, (k, v) ∈ l -> exists i, contracts a !! k = Some i /\ v = marshal i).
  apply (twp_iterate _ I).
  - intros k v l [] σ' (Hr' & Hs & HN & Hl). destruct (Hl k v ltac:(by left)) as (i & Hi & ->).
    destruct (Ha k i Hi) as ([Hwf Hsz] & c & p & Hv & Hc & Hp).
    apply NoDup_cons in HN as [Hk HN].
    assert (wf_position p) as Hpos by (destruct Hwf as (_ & Hw & _); auto).
    twp_step. apply twp_MustUnmarshal; [done..|]. twp_step.
    apply (twp_lift _ c); [unfold MustAccAddressFromBech32; by rewrite Hc, bech32_roundtrip|].
    twp_step. twp_step. unfold addToContractCreatorSecondaryIndex. rewrite Hp.
    twp_step. apply (twp_lift _ (Position_Bytes p)); [done|]. twp_step.
    pose proof (verify_length c Hv) as Hlen.
    eapply twp_lift; [by apply GetContractByCreatorSecondaryIndexKey_entry|].
    twp_step. twp_step. split; [done|]. split_and!; [|by apply same_code_keys_insert|done|].
    + eapply reads_ext; [by apply reads_insert|]. by eapply index_upto_step.
    + intros k' v' Hin. apply Hl. by right.
  - intros [] σ' (Hr' & Hs & _). by apply HQ.
  - assert (forall k v, (k, v) ∈ kv_prefixed σ ContractKeyPrefix ->
      exists i, contracts a !! k = Some i /\ v = marshal i) as Hall.
    { intros k v Hin. apply elem_of_kv_prefixed in Hin.
      change (ContractKeyPrefix ++ k) with (entry_key (KContract k)) in Hin.
      rewrite (Hr (KContract k)), Hf in Hin by done.
      destruct (contracts a !! k) as [i|]; [|done]. injection Hin as <-. by exists i. }
    split_and!; [|done|apply Genesis.kv_prefixed_NoDup|done].
    eapply reads_ext; [exact Hr|]. intros [| | | | | | | | |c p addr| |] He; try done. simpl.
    rewrite Hn. destruct (decide _) as [|Hx]; [done|].
    destruct (contracts a !! addr) as [i|] eqn:Hi; [|done]. exfalso. apply Hx.
    apply list_elem_of_fmap. exists (addr, marshal i). split; [done|].
    apply elem_of_kv_prefixed. change (ContractKeyPrefix ++ addr) with (entry_key (KContract addr)).
    by rewrite (Hr (KContract addr)), Hf, Hi.
Qed.

(** Version 2 to 3 takes over what the x/params module holds. *)
Lemma twp_Migrate2to3 ctx ps f σ (Q : unit -> kvs -> Prop) :
  (forall s, exists s', call_ext ctx GetParamSet s = (Ret ps, s')) ->
  reads σ f -> (blen (marshal ps) < Proto.two63)%N ->
  (forall σ', same_code_keys σ σ' -> reads σ' (upd f KParams (Some (marshal ps))) -> Q tt σ') ->
  twp (Migrate2to3 ctx) Q σ.
Proof.
  intros Hps Hr Hsz HQ. unfold Migrate2to3, v2_MigrateStore. twp_step.
  assert (twp (call_ext ctx GetParamSet) (fun p σ' => p = ps /\ σ' = σ) σ) as Hsub.
  { intros s Hs. destruct (Hps s) as (s' & E). exists ps, s'. split_and!; [done..|].
    rewrite <- Hs. pose proof (quiet_kv (call_ext ctx GetParamSet) s ltac:(unfold quiet; frame)) as Hk.
    by rewrite E in Hk. }
  eapply twp_mono; [exact Hsub|]. intros p σ' [-> ->]. twp_step.
  apply twp_MustMarshal; [done|]. twp_step.
  change ParamsKey with (entry_key KParams). apply HQ.
  - by apply same_code_keys_insert.
  - by apply reads_insert.
Qed.

(** The codes not yet reached. *)
Definition codes_upto (f : Entry -> option bytes) (o : OldRegistry) (left : list bytes) (e : Entry)
    : option bytes :=
  match e with
  | KCode id =>
      if decide (Uint64ToBigEndian id ∈ left) then marshal <$> old_codes o !! id
      else marshal <$> (v3_newCodeInfo <$> old_codes o !! id)
  | e => f e
  end.
Lemma codes_upto_step f o left id c :
  old_codes o !! id = Some c -> is_u64 id -> Uint64ToBigEndian id ∉ left ->
  forall e, reg_entry e ->
    upd (codes_upto f o (Uint64ToBigEndian id :: left)) (KCode id)
      (Some (marshal (v3_newCodeInfo c))) e = codes_upto f o left e.
Proof.
  intros Hc Hid Hl e He. unfold upd. destruct (decide (e = _)) as [->|Hne]; simpl.
  { rewrite decide_False by done. by rewrite Hc. }
  destruct e as [id'| | | | | | | | | | |]; try done. simpl.
  destruct (decide (Uint64ToBigEndian id' ∈ left)).
  - by rewrite decide_True by (by right).
  - rewrite decide_False; [done|]. intros [E|]%elem_of_cons; [|done].
    apply Hne. f_equal. apply Uint64ToBigEndian_inj in E; [done|apply He|done].
Qed.

(** The records of the older version can be read, and those of version 4
    written. *)
Record migratable (o : OldRegistry) : Prop := {
  mig_codes id c : old_codes o !! id = Some c -> stored c;
  mig_params ps : old_params o = Some ps -> stored ps;
  mig_storable : storable (migrated o);
}.
Lemma migratable_code o id c :
  migratable o -> old_codes o !! id = Some c -> stored (v3_newCodeInfo c).
Proof.
  intros Hm Hc. apply (sto_codes _ (mig_storable o Hm) id). simpl. by rewrite lookup_fmap, Hc.
Qed.
Lemma migratable_params o ps :
  migratable o -> old_params o = Some ps -> stored (v3_newParams ps).
Proof. intros Hm Hp. apply (sto_params _ (mig_storable o Hm)). simpl. by rewrite Hp. Qed.

Lemma twp_migrate_codes f o σ (Q : unit -> kvs -> Prop) :
  migratable o -> reads σ f -> (forall id, f (KCode id) = marshal <$> old_codes o !! id) ->
  Genesis.code_keys σ ->
  (forall σ', reads σ' (codes_upto f o []) -> Q tt σ') ->
  twp (iterate CodeKeyPrefix None None false (v3_migrateCode mustStoreCodeInfo) tt) Q σ.
Proof.
  intros Hm Hr Hf Hkeys HQ.
  set (I := fun (l : list (bytes * bytes)) (_ : unit) (σ' : kvs) =>
    reads σ' (codes_upto f o l.*1) /\ NoDup l.*1
    /\ forall k v, (k, v) ∈ l -> exists id c, is_u64 id /\ k = Uint64ToBigEndian id
         /\ old_codes o !! id = Some c /\ v = marshal c).
  apply (twp_iterate _ I).
  - intros k v l [] σ' (Hr' & HN & Hl).
    destruct (Hl k v ltac:(by left)) as (id & c & Hid & -> & Hc & ->).
    destruct (mig_codes _ Hm id c Hc), (migratable_code _ id c Hm Hc).
    apply NoDup_cons in HN as [Hk HN].
    unfold v3_migrateCode. twp_step. apply twp_MustUnmarshal; [done..|]. twp_step.
    apply (twp_lift _ id); [by apply RefineKeeper.binary_roundtrip|]. twp_step.
    unfold mustStoreCodeInfo. twp_step. apply twp_MustMarshal; [done|]. twp_step. twp_step. twp_step.
    split; [done|]. split_and!; [|done|].
    + change (GetCodeKey id) with (entry_key (KCode id)).
      eapply reads_ext; [by apply reads_insert|]. by eapply codes_upto_step.
    + intros k' v' Hin. apply Hl. by right.
  - intros [] σ' (Hr' & _). by apply HQ.
  - assert (forall k v, (k, v) ∈ kv_prefixed σ CodeKeyPrefix -> exists id c, is_u64 id
      /\ k = Uint64ToBigEndian id /\ old_codes o !! id = Some c /\ v = marshal c) as Hall.
    { intros k v Hin. apply elem_of_kv_prefixed in Hin.
      destruct (be_of_length8 k (Hkeys k ltac:(by eexists))) as (id & Hid & ->).
      change (CodeKeyPrefix ++ Uint64ToBigEndian id) with (entry_key (KCode id)) in Hin.
      rewrite (Hr (KCode id)), Hf in Hin by done.
      destruct (old_codes o !! id) as [c|] eqn:Hc; [|done]. injection Hin as <-. by exists id, c. }
    split_and!; [|apply Genesis.kv_prefixed_NoDup|done].
    eapply reads_ext; [exact Hr|]. intros [id| | | | | | | | | | |] He; try done. simpl. rewrite Hf.
    destruct (decide _) as [|Hx]; [done|].
    destruct (old_codes o !! id) as [c|] eqn:Hc; [|done]. exfalso. apply Hx.
    apply list_elem_of_fmap. exists (Uint64ToBigEndian id, marshal c). split; [done|].
    apply elem_of_kv_prefixed. change (CodeKeyPrefix ++ _) with (entry_key (KCode id)).
    by rewrite (Hr (KCode id)), Hf, Hc.
Qed.

Lemma twp_Migrate3to4 o σ (Q : unit -> kvs -> Prop) :
  migratable o -> reads σ (encode_v3 o) -> Genesis.code_keys σ ->
  (forall σ', repr σ' (migrated o) -> Q tt σ') -> twp Migrate3to4 Q σ.
Proof.
  intros Hm Hr Hkeys HQ. unfold Migrate3to4, v3_Migrate3to4.
  set (f := upd (encode_v3 o) KParams (marshal <$> (v3_newParams <$> old_params o))).
  assert (forall σ', reads σ' f -> same_code_keys σ σ' ->
    twp (iterate CodeKeyPrefix None None false (v3_migrateCode mustStoreCodeInfo) tt) Q σ') as Hcodes.
  { intros σ' Hr' Hs. apply (twp_migrate_codes f o); [done..| |].
    - by eapply same_code_keys_keys.
    - intros σ2 Hr2. apply HQ. eapply reads_ext; [exact Hr2|].
      intros [] He; try done. simpl. by rewrite lookup_fmap. }
  twp_step. twp_step. change ParamsKey with (entry_key KParams).
  rewrite (Hr KParams) by done. cbn [encode_v3].
  destruct (old_params o) as [ps|] eqn:Eps.
  - change (marshal <$> Some ps) with (Some (marshal ps)). cbv iota.
    destruct (mig_params _ Hm ps Eps), (migratable_params _ ps Hm Eps).
    twp_step. twp_step. apply (twp_MustUnmarshal ps); [done..|]. unfold SetParams. twp_step.
    apply twp_MustMarshal; [done|]. twp_step. change ParamsKey with (entry_key KParams).
    apply Hcodes; [|by apply same_code_keys_insert].
    by apply reads_insert.
  - simpl. twp_step. twp_step. apply Hcodes; [|done]. eapply reads_ext; [exact Hr|].
    intros e _. unfold f, upd. destruct (decide (e = KParams)) as [->|]; [|done].
    simpl. by rewrite Eps.
Qed.

(** The two ways of a record through the versions. *)
Definition access_kept (c : Legacy.AccessConfig) (c' : AccessConfig) : Prop :=
  forall actor, Allowed c' actor = legacy_Allowed c actor.
Definition code_migrated (c : Legacy.CodeInfo) (c' : CodeInfo) : Prop :=
  CodeHash c' = Legacy.CodeHash c /\ CodeCreator c' = Legacy.CodeCreator c
  /\ access_kept (Legacy.InstantiateConfig c) (InstantiateConfig c').

(** C17: the upgrade from version 1 to version 4. On a store of version 1 that
    holds a registry in the older format, while the x/params module holds the
    parameters, the three migrations run one after the other return without
    error or panic, and the store then represents the migrated registry, index
    by creator included. Every code keeps its checksum and creator, and the
    same actors may instantiate it as before; the same actors may upload. *)
Theorem upgrade_refines ctx o ps s :
  (forall s, exists s', call_ext ctx GetParamSet s = (Ret ps, s')) ->
  old_params o = Some ps -> migratable o -> coherent (migrated o) ->
  reads (kv s) (encode_v1 o) -> Genesis.code_keys (kv s) ->
  exists s', upgrade ctx s = (Ret tt, s') /\ repr (kv s') (migrated o)
    /\ (forall id c, old_codes o !! id = Some c ->
          exists c', codes (migrated o) !! id = Some c' /\ code_migrated c c')
    /\ (exists ps', params (migrated o) = Some ps'
          /\ access_kept (Legacy.CodeUploadAccess ps) (CodeUploadAccess ps')).
Proof.
  intros Hsub Hps Hm C Hr Hk.
  assert (twp (upgrade ctx) (fun _ σ' => repr σ' (migrated o)) (kv s)) as Hu.
  { unfold upgrade. twp_step.
    apply (twp_Migrate1to2 (encode_v1 o) (rest o)); [done..| |].
    { intros addr i Hi. split; [by apply (sto_contracts _ (mig_storable o Hm) addr)|].
      by apply (coh_contracts _ C addr i). }
    intros σ1 Hs1 Hr1. twp_step. eapply (twp_Migrate2to3 ctx ps); [done|exact Hr1| |].
    { by apply (mig_params o Hm). }
    intros σ2 Hs2 Hr2. apply (twp_Migrate3to4 o); [done| | |done].
    - eapply reads_ext; [exact Hr2|]. intros [] _; try done. simpl. by rewrite Hps.
    - by do 2 (eapply same_code_keys_keys; [eassumption|]). }
  destruct (Hu s eq_refl) as ([] & s' & E & Hrepr). exists s'. split_and!; [done..| |].
  - intros id c Hc. exists (v3_newCodeInfo c). simpl. rewrite lookup_fmap, Hc.
    split; [done|]. split_and!; [done..|]. intros actor. apply updateAccessConfig_Allowed.
  - exists (v3_newParams ps). simpl. rewrite Hps. split; [done|].
    intros actor. apply updateAccessConfig_Allowed.
Qed.

End Migrations.
End Migrations.
