(* ===== verification/AppModule.v ===== *)
(** The application module (x/wasm/module.go): genesis as JSON, the services
    and migrations it registers, the configuration of the node read from
    flags and app.toml, and the check of the VM's version at the start. *)
From S2P Require Import Prelude Errors GoStrings Json Types Proto Keys VMTypes Policy GasRegister Chain Logic Engine Store Registry Events Keeper Msgs MsgServer Checksum Authz Genesis Querier Gateway Options Snapshots Client ClientFacts Legacy Migrations.
Import GoStrings.
Open Scope wasm_scope.

(** The JSON codec of the SDK at the genesis state. *)
Class JSONCodec := {
  cdc_MarshalJSON : GenesisState -> bytes + error;
  cdc_UnmarshalJSON : bytes -> GenesisState + error;
}.
Class JSONCodecLaws `{JSONCodec} : Prop := {
  JSON_roundtrip : forall gs bz, cdc_MarshalJSON gs = inl bz -> cdc_UnmarshalJSON bz = inl gs;
}.

(** The configurator of the SDK (types/module): services and, by module and
    version, the migration to the next version. *)
Class Configurator `{GasMeters, Modules} := {
  Cfg : Type;
  RegisterMsgServer : Cfg -> (Context -> MsgServer.WasmMsg -> M MsgServer.WasmMsgResponse) -> Cfg;
  RegisterQueryServer : Cfg -> Service -> Cfg;
  RegisterMigration : Cfg -> string -> N -> (Context -> M unit) -> Cfg + error;
  registered : Cfg -> string -> N -> option (Context -> M unit);
  (** runs the migrations of a module from a version up to another *)
  runModuleMigrations : Cfg -> string -> N -> N -> Context -> M unit;
}.
Fixpoint migrate_steps `{Configurator} (steps : nat) (cfg : Cfg) (name : string) (version : N) (ctx : Context)
    : M unit :=
  match steps with
  | O => mret tt
  | S steps' =>
      match registered cfg name version with
      | None => fail (EText "no migration found")
      | Some migrate => _ ← migrate ctx; migrate_steps steps' cfg name (version + 1) ctx
      end
  end.
Class ConfiguratorLaws `{Configurator} : Prop := {
  registered_MsgServer : forall cfg server name v,
    registered (RegisterMsgServer cfg server) name v = registered cfg name v;
  registered_QueryServer : forall cfg server name v,
    registered (RegisterQueryServer cfg server) name v = registered cfg name v;
  RegisterMigration_new : forall cfg name v h, v <> 0%N -> registered cfg name v = None ->
    exists cfg', RegisterMigration cfg name v h = inl cfg' /\ registered cfg' name v = Some h
      /\ forall v', v' <> v -> registered cfg' name v' = registered cfg name v';
  runModuleMigrations_steps : forall cfg name from to ctx, (from <= to)%N ->
    runModuleMigrations cfg name from to ctx = migrate_steps (N.to_nat (to - from)) cfg name from ctx;
}.

(** The options of the application, spf13/cast and the build information. *)
Class AppOptions := {
  Opaque_ : Type;  (* values that are not strings *)
  cast_ToUint32E : string + Opaque_ -> N + error;
  cast_ToUint64E : string + Opaque_ -> N + error;
  cast_ToBoolE : string + Opaque_ -> bool + error;
}.
Record BuildDep := mkBuildDep { Dep_Path : string; Dep_Version : string; Dep_Replace : option string }.

Module AppModule.
Section AppModule.
Context `{GasMeters, Modules, KVStorePkg, Bech32, ErrorsMod, UnicodeTables, AddressPkg, CoinsPkg, Codecs, Gzip}.
Context `{!WasmEngine, !Keepers, !JSONCodec, !Configurator}.
Context (ext_validate : Types.AnyMsg -> option error).

Definition ModuleName : string := "wasm".
Definition Name : string := ModuleName.
Definition ConsensusVersion : N := 4.

(** *** Genesis *)

Definition MustMarshalJSON (gs : GenesisState) : M bytes :=
  match cdc_MarshalJSON gs with inl bz => mret bz | inr err => throw (PError err) end.
Definition MustUnmarshalJSON (data : bytes) : M GenesisState :=
  match cdc_UnmarshalJSON data with inl gs => mret gs | inr err => throw (PError err) end.
Definition DefaultGenesisState : GenesisState := mkGenesisState DefaultParams [] [] [].
Definition DefaultGenesis : M bytes := MustMarshalJSON DefaultGenesisState.
Definition ValidateGenesis (message : bytes) : option error :=
  match cdc_UnmarshalJSON message with
  | inr err => Some err
  | inl data => Genesis.ValidateGenesis ext_validate data
  end.
Definition InitGenesis (ctx : Context) (data : bytes) : M unit :=
  genesisState ← MustUnmarshalJSON data;
  must (Genesis.InitGenesis ctx genesisState).
Definition ExportGenesis : M bytes :=
  gs ← Genesis.ExportGenesis; MustMarshalJSON gs.

(** *** Services and migrations *)

Context (GetParamSet : Ext Legacy.Params).
Context (NewMsgServerImpl : Context -> MsgServer.WasmMsg -> M MsgServer.WasmMsgResponse).
Context (NewQuerier : Service).

Definition or_panic {A} (r : A + error) : outcome A :=
  match r with inl a => Ret a | inr err => Panic (PError err) end.
Definition RegisterServices (cfg : Cfg) : outcome Cfg :=
  let cfg := RegisterMsgServer cfg NewMsgServerImpl in
  let cfg := RegisterQueryServer cfg NewQuerier in
  cfg ← or_panic (RegisterMigration cfg ModuleName 1 (fun _ => Migrations.Migrate1to2));
  cfg ← or_panic (RegisterMigration cfg ModuleName 2 (Migrations.Migrate2to3 GetParamSet));
  or_panic (RegisterMigration cfg ModuleName 3 (fun _ => Migrations.Migrate3to4)).

(** *** Node configuration *)

Definition flagWasmMemoryCacheSize : string := "wasm.memory_cache_size".
Definition flagWasmQueryGasLimit : string := "wasm.query_gas_limit".
Definition flagWasmSimulationGasLimit : string := "wasm.simulation_gas_limit".
Definition flagWasmSkipWasmVMVersionCheck : string := "wasm.skip_wasmvm_version_check".
Definition FlagTrace : string := "trace".

Context `{!AppOptions}.
(** A field of the configuration, kept when the option is not set. *)
Definition read {A} (o : option (string + Opaque_)) (cast : string + Opaque_ -> A + error) (default : A)
    : outcome A :=
  match o with
  | None => Ret default
  | Some v => match cast v with inl x => Ret x | inr err => Fail err end
  end.
Definition empty_string (v : string + Opaque_) : bool :=
  match v with inl raw => bool_decide (raw = ""%string) | inr _ => false end.
Definition ReadNodeConfig (opts : string -> option (string + Opaque_)) : outcome NodeConfig :=
  let cfg := DefaultNodeConfig in
  memoryCacheSize ← read (opts flagWasmMemoryCacheSize) cast_ToUint32E (MemoryCacheSize cfg);
  smartQueryGasLimit ← read (opts flagWasmQueryGasLimit) cast_ToUint64E (SmartQueryGasLimit cfg);
  simulationGasLimit ←
    (match opts flagWasmSimulationGasLimit with
     | None => Ret (SimulationGasLimit cfg)
     | Some v => if empty_string v then Ret (SimulationGasLimit cfg)
                 else limit ← read (Some v) cast_ToUint64E 0%N; Ret (Some limit)
     end);
  contractDebugMode ← read (opts FlagTrace) cast_ToBoolE (ContractDebugMode cfg);
  Ret (mkNodeConfig simulationGasLimit smartQueryGasLimit memoryCacheSize contractDebugMode).

(** *** The version of the VM *)

(** strings.Contains *)
Definition Contains (s substr : string) : bool :=
  match String.index 0 substr s with Some _ => true | None => false end.
Definition wasmvm_path : string := "github.com/CosmWasm/wasmd/wasmvm/v2".
Fixpoint expected_version (deps : list BuildDep) : string :=
  match deps with
  | [] => ""
  | d :: deps' =>
      if negb (bool_decide (Dep_Path d = wasmvm_path)) then expected_version deps'
      else match Dep_Replace d with Some version => version | None => Dep_Version d end
  end.
(** debug.ReadBuildInfo and wasmvm.LibwasmvmVersion *)
Context (ReadBuildInfo : option (list BuildDep)) (LibwasmvmVersion : string + error).
Definition getExpectedLibwasmVersion : outcome string :=
  match ReadBuildInfo with
  | None => Panic (PText "can't read build info")
  | Some deps => Ret (expected_version deps)
  end.
Definition CheckLibwasmVersion (wasmExpectedVersion : string) : option error :=
  if bool_decide (wasmExpectedVersion = ""%string) then Some (EText "wasmvm module not exist")
  else match LibwasmvmVersion with
       | inr err => Some (EText (String.append "unable to retrieve libwasmversion " (error_string err)))
       | inl wasmVersion =>
           if negb (Contains wasmExpectedVersion wasmVersion)
           then Some (EText (String.append "libwasmversion mismatch. got: " (String.append wasmVersion
                  (String.append "; expected: " wasmExpectedVersion))))
           else None
       end.

(** *** The start command *)

Context `{!Pflag}.
Definition preRunFn : Type := FlagSet -> list string -> outcome unit.
Fixpoint chainPreRuns (pfns : list (option preRunFn)) : preRunFn := fun fs args =>
  match pfns with
  | [] => Ret tt
  | None :: pfns' => chainPreRuns pfns' fs args
  | Some pfn :: pfns' => _ ← pfn fs args; chainPreRuns pfns' fs args
  end.
Definition preCheck : preRunFn := fun fs _ =>
  match GetBool fs flagWasmSkipWasmVMVersionCheck with
  | inr err => Fail (EText (String.append "unable to read skip flag value: " (error_string err)))
  | inl true => Ret tt
  | inl false =>
      expected ← getExpectedLibwasmVersion;
      match CheckLibwasmVersion expected with None => Ret tt | Some err => Fail err end
  end.
(** The flags with their defaults, and the check before the command's own. *)
Definition AddModuleInitFlags (PreRunE : option preRunFn) : list (string * string) * preRunFn :=
  let defaults := DefaultNodeConfig in
  ([(flagWasmMemoryCacheSize, pretty (MemoryCacheSize defaults));
    (flagWasmQueryGasLimit, pretty (SmartQueryGasLimit defaults));
    (flagWasmSimulationGasLimit, ""%string);
    (flagWasmSkipWasmVMVersionCheck, "false"%string)],
   chainPreRuns [Some preCheck; PreRunE]).

(** ** What the module manager and the node rely on *)

(** Genesis passes through JSON unchanged. *)
Theorem genesis_as_json `{!JSONCodecLaws} ctx s gs s1 bz s2 :
  Genesis.ExportGenesis s = (Ret gs, s1) -> ExportGenesis s = (Ret bz, s2) ->
  s1 = s2 /\ (forall t, InitGenesis ctx bz t = must (Genesis.InitGenesis ctx gs) t)
  /\ ValidateGenesis bz = Genesis.ValidateGenesis ext_validate gs.
Proof.
  intros Hg. unfold ExportGenesis, MustMarshalJSON, mbind, M_bind. rewrite Hg.
  destruct (cdc_MarshalJSON gs) as [bz'|] eqn:E; [|done]. intros [= <- <-].
  apply JSON_roundtrip in E. split_and!; [done| |].
  - intros t. unfold InitGenesis, MustUnmarshalJSON. by rewrite E.
  - unfold ValidateGenesis. by rewrite E.
Qed.

(** The migrations registered lead from every older version to the current
    one: from version 1 they are the whole upgrade, and there is no gap. *)
Theorem migrations_registered `{!ConfiguratorLaws} cfg :
  (forall v, registered cfg ModuleName v = None) ->
  exists cfg', RegisterServices cfg = Ret cfg'
    /\ (forall ctx s, runModuleMigrations cfg' ModuleName 1 ConsensusVersion ctx s
         = Migrations.upgrade GetParamSet ctx s)
    /\ (forall v, (1 <= v < ConsensusVersion)%N -> is_Some (registered cfg' ModuleName v))
    /\ registered cfg' ModuleName ConsensusVersion = None.
Proof.
  intros Hn. unfold RegisterServices.
  set (cfg0 := RegisterQueryServer _ _).
  assert (forall v, registered cfg0 ModuleName v = None) as Hn0.
  { intros v. unfold cfg0. by rewrite registered_QueryServer, registered_MsgServer. }
  destruct (RegisterMigration_new cfg0 ModuleName 1 (fun _ => Migrations.Migrate1to2)) as (c1 & -> & R1 & F1); [done..|].
  destruct (RegisterMigration_new c1 ModuleName 2 (Migrations.Migrate2to3 GetParamSet)) as (c2 & E2 & R2 & F2);
    [done|by rewrite F1, Hn0|].
  destruct (RegisterMigration_new c2 ModuleName 3 (fun _ => Migrations.Migrate3to4)) as (c3 & E3 & R3 & F3);
    [done|by rewrite F2, F1, Hn0|].
  exists c3. cbn [or_panic mbind outcome_bind obind]. rewrite E2. cbn [or_panic mbind outcome_bind obind]. rewrite E3.
  assert (registered c3 ModuleName 1 = Some (fun _ => Migrations.Migrate1to2)) as G1 by (by rewrite F3, F2).
  assert (registered c3 ModuleName 2 = Some (Migrations.Migrate2to3 GetParamSet)) as G2 by (by rewrite F3).
  split_and!; [done| | |].
  - intros ctx s. rewrite runModuleMigrations_steps by done.
    change (N.to_nat (ConsensusVersion - 1)) with 3%nat. cbn [migrate_steps].
    change (1 + 1)%N with 2%N. change (2 + 1)%N with 3%N. rewrite G1, G2, R3. unfold Migrations.upgrade.
    unfold mbind, M_bind. destruct (Migrations.Migrate1to2 s) as [[] t]; [|done..].
    destruct (Migrations.Migrate2to3 _ ctx t) as [[] u]; [|done..].
    by destruct (Migrations.Migrate3to4 u) as [[[]| |] ?].
  - intros v Hv. unfold ConsensusVersion in Hv.
    assert (v = 1 \/ v = 2 \/ v = 3)%N as [->|[->| ->]] by lia; rewrite ?G1, ?G2, ?R3; by eexists.
  - by rewrite F3, F2, F1, Hn0.
Qed.

(** Documented of spf13/cast: decimal numbers and booleans as text. *)
Definition cast_text : Prop :=
  (forall n : N, (n < 2 ^ 32)%N -> cast_ToUint32E (inl (pretty n)) = inl n)
  /\ (forall n : N, (n < 2 ^ 63)%N -> cast_ToUint64E (inl (pretty n)) = inl n)
  /\ (forall b : bool, cast_ToBoolE (inl (if b then "true" else "false")%string) = inl b).
Definition written (cfg : NodeConfig) : Prop :=
  (MemoryCacheSize cfg < 2 ^ 32)%N /\ (SmartQueryGasLimit cfg < 2 ^ 63)%N
  /\ match SimulationGasLimit cfg with Some n => (n < 2 ^ 63)%N | None => True end.
(** The options that hold a configuration as text. *)
Definition options_of (cfg : NodeConfig) (flag : string) : option (string + Opaque_) :=
  if bool_decide (flag = flagWasmMemoryCacheSize) then Some (inl (pretty (MemoryCacheSize cfg)))
  else if bool_decide (flag = flagWasmQueryGasLimit) then Some (inl (pretty (SmartQueryGasLimit cfg)))
  else if bool_decide (flag = flagWasmSimulationGasLimit)
  then Some (inl (match SimulationGasLimit cfg with Some n => pretty n | None => ""%string end))
  else if bool_decide (flag = FlagTrace) then Some (inl (if ContractDebugMode cfg then "true" else "false")%string)
  else None.
Lemma pretty_not_empty (n : N) : (n < 2 ^ 64)%N -> pretty n <> ""%string.
Proof. intros Hn E. apply Texts.ParseUint_pretty in Hn. by rewrite E in Hn. Qed.
(** A configuration is read from the flags and app.toml as it was written
    there; what is not set keeps its default. *)
Theorem node_config_read cfg :
  cast_text -> written cfg ->
  ReadNodeConfig (options_of cfg) = Ret cfg /\ ReadNodeConfig (fun _ => None) = Ret DefaultNodeConfig.
Proof.
  intros (H32 & H64 & Hb) (Hm & Hq & Hs). split; [|done]. destruct cfg as [sim query memory trace].
  cbn [MemoryCacheSize SmartQueryGasLimit SimulationGasLimit] in *. unfold ReadNodeConfig.
  set (cfg := mkNodeConfig _ _ _ _).
  assert (options_of cfg flagWasmMemoryCacheSize = Some (inl (pretty memory))) as -> by done.
  assert (options_of cfg flagWasmQueryGasLimit = Some (inl (pretty query))) as -> by done.
  assert (options_of cfg flagWasmSimulationGasLimit
    = Some (inl (match sim with Some n => pretty n | None => ""%string end))) as -> by done.
  assert (options_of cfg FlagTrace = Some (inl (if trace then "true" else "false")%string)) as -> by done.
  cbn [read empty_string]. rewrite H32, H64, Hb by done. cbn [mbind outcome_bind obind].
  destruct sim as [n|]; [|done]. rewrite bool_decide_false by (apply pretty_not_empty; lia).
  by rewrite H64.
Qed.

(** The node starts exactly when the version check passes or is skipped, and
    then the command's own check. *)
Theorem start_checked (own : preRunFn) deps version fs args :
  ReadBuildInfo = Some deps -> LibwasmvmVersion = inl version ->
  (AddModuleInitFlags (Some own)).2 fs args = Ret tt <->
  (GetBool fs flagWasmSkipWasmVMVersionCheck = inl true
   \/ GetBool fs flagWasmSkipWasmVMVersionCheck = inl false
      /\ expected_version deps <> ""%string /\ Contains (expected_version deps) version = true)
  /\ own fs args = Ret tt.
Proof.
  intros Hd Hv. cbn [AddModuleInitFlags chainPreRuns snd].
  unfold preCheck, getExpectedLibwasmVersion, CheckLibwasmVersion. rewrite Hd, Hv.
  cbn [mbind outcome_bind obind].
  assert (forall o : outcome unit, (o ≫= (fun _ => Ret tt)) = Ret tt <-> o = Ret tt) as Hret.
  { intros [[]| |]; split; try done. }
  destruct (GetBool _ _) as [[]|]; cbn [mbind outcome_bind obind].
  - rewrite (Hret (own fs args)). naive_solver.
  - case_bool_decide; [cbn; naive_solver|]. destruct (Contains _ _); cbn [negb]; [|cbn; naive_solver].
    cbn [mbind outcome_bind obind]. rewrite (Hret (own fs args)). naive_solver.
  - cbn. naive_solver.
Qed.
End AppModule.
End AppModule.
