(* ===== verification/Simulation.v ===== *)
(** A small chain on which the module runs: the simplest modules, store prices
    and contracts that behave as the model requires. The other files never
    use it; it shows that the assumptions made of other packages hold
    together, and that the module, as modelled, executes. *)
From S2P Require Import Prelude Errors GoStrings Json Types Proto Keys VMTypes Policy GasRegister Chain Logic Engine Store Events Keeper Dispatcher Msgs MsgServer KeeperFrame Encoders Messenger QueryPlugins Relay System Wp Registry Refinement RefineKeeper RelayRefine RefineSystem Checksum Authz Genesis Proposals Total Querier Snapshots.
Import GoStrings Keys Store.Store Encoders.Encoders Messenger.Messenger.
Open Scope wasm_scope.

Module Sim.

(** ** Gas and the store *)

(** Limit and consumption. *)
#[export] Instance sim_meters : GasMeters := {|
  Meter := N * N;
  NewGasMeter l := (l, 0%N);
  NewInfiniteGasMeter := (MaxUint64, 0%N);
  Limit m := N.min m.1 MaxUint64;
  GasConsumed m := N.min m.2 MaxUint64;
  GasConsumedToLimit m := N.min (N.min m.2 MaxUint64) (N.min m.1 MaxUint64);
  IsOutOfGas m := (N.min m.1 MaxUint64 <=? N.min m.2 MaxUint64)%N;
  ConsumeGas m a d :=
    let c := (N.min m.2 MaxUint64 + a)%N in
    if (MaxUint64 <? c)%N then ((m.1, MaxUint64), Some (PGasOverflow d))
    else ((m.1, c), if (N.min m.1 MaxUint64 <? c)%N then Some (POutOfGas d) else None);
|}.
#[export] Instance sim_meters_laws : GasMetersLaws.
Proof.
  split; unfold is_u64; cbn -[N.min MaxUint64]; try lia.
  - unfold MaxUint64, two64. lia.
  - unfold MaxUint64, two64. lia.
  - intros m E. apply N.leb_le in E. lia.
  - intros m E. apply N.leb_gt in E. lia.
  - intros m a d m' E. destruct (N.ltb_spec MaxUint64 (N.min m.2 MaxUint64 + a)); [done|].
    destruct (N.ltb_spec (N.min m.1 MaxUint64) (N.min m.2 MaxUint64 + a)); [done|].
    injection E as <-. cbn -[N.min MaxUint64]. lia.
  - intros m a d m' p E. destruct (N.ltb_spec MaxUint64 (N.min m.2 MaxUint64 + a)).
    + injection E as <- <-. cbn -[N.min MaxUint64]. split_and!; [lia..|by right].
    + destruct (N.ltb_spec (N.min m.1 MaxUint64) (N.min m.2 MaxUint64 + a)); [|done].
      injection E as <- <-. cbn -[N.min MaxUint64]. split_and!; [lia..|left; split; [done|lia]].
Qed.

(** A flat price per access; an empty key is refused. *)
#[export] Instance sim_kv : KVStorePkg := {|
  kv_charges op := [(10%N, "access"%string)];
  kv_fault op :=
    match op with
    | OpGet [] _ | OpHas [] | OpSet [] _ | OpDelete [] => Some (inr (PText "key is nil"))
    | _ => None
    end;
|}.

(** ** Libraries *)

(** An address is written as its bytes. *)
#[export] Instance sim_bech32 : Bech32 := {|
  AccAddress_String := string_of_bytes;
  AccAddressFromBech32 s :=
    let a := bytes_of_string s in
    if bool_decide (0 < length a <= 255) then inl a else inr (EText "bad address");
  VerifyAddressFormat a :=
    if bool_decide (0 < length a <= 255) then None else Some (EText "bad address");
|}.
#[export] Instance sim_bech32_laws : Bech32Laws.
Proof.
  split; simpl.
  - intros a. rewrite bytes_of_string_of_bytes. by case_bool_decide.
  - intros s a. case_bool_decide; [|done]. intros [= <-]. by rewrite bool_decide_true.
  - done.
  - by eexists.
  - intros a. by case_bool_decide.
Qed.

Fixpoint sim_ABCIInfo (e : error) : string * N :=
  match e with
  | ESdk cs c _ => (cs, c)
  | EWrap e _ | EDeterministic e => sim_ABCIInfo e
  | EFlavoured s _ => sim_ABCIInfo s
  | _ => ("undefined"%string, 1%N)
  end.
#[export] Instance sim_errors : ErrorsMod := {|
  ABCIInfo := sim_ABCIInfo;
  registered_text _ _ d := d;
  wrapped_text e m := String.append m (String.append ": " e);
|}.
#[export] Instance sim_errors_laws : ErrorsModLaws.
Proof. by split. Qed.

#[export] Instance sim_unicode : UnicodeTables := {|
  IsPrint_hi _ := true; SimpleFold_hi _ _ := false |}.

(** Addresses are text: they have no NUL byte. *)
Definition visible (b : byte) : byte := if Byte.eqb b Byte.x00 then Byte.x2e else b.
#[export] Instance sim_address : AddressPkg := {|
  MustLengthPrefix bz :=
    if bool_decide (length bz <= 255) then Ret (byte_of_N (blen bz) :: bz)
    else Panic (PText "address length should be max 255 bytes");
  (** the key, its end first, in 32 bytes *)
  address_Module _ k := take 32 ((visible <$> reverse k) ++ replicate 32 Byte.x41);
|}.
#[export] Instance sim_address_laws : AddressPkgLaws.
Proof.
  split.
  - intros bz Hb. simpl. rewrite bool_decide_true; [done|lia].
  - intros m k. cbn -[take replicate reverse]. rewrite length_take, length_app, length_replicate. lia.
Qed.

(** One denomination is enough. *)
Definition total (c : Coins) : Z := foldr (fun x n => coin_Amount x + n)%Z 0%Z c.
#[export] Instance sim_coins : CoinsPkg := {|
  AmountOf c _ := total c;
  Coins_IsZero c := (total c =? 0)%Z;
  Coins_IsAllLTE a b := (total a <=? total b)%Z;
  Coins_Sub a b :=
    if (total b <=? total a)%Z then Ret [mkSdkCoin "stake" (total a - total b)]
    else Panic (PText "negative coin amount");
  Coins_Validate c := if (0 <=? total c)%Z then None else Some (EText "negative");
  NewCoins c := Ret c;
|}.
#[export] Instance sim_conversion : CoinConversion := {|
  NewIntFromString s := Some (Z.of_nat (String.length s));
  Coin_Validate c := if (0 <=? coin_Amount c)%Z then None else Some (EText "negative");
  Coins_Add c x := Ret (c ++ [x]);
  Coins_Sort c := c;
  LegacyDec_text s := inl s;
|}.

(** Any: both fields with their lengths. *)
#[export] Instance sim_any : Proto.AnyCodec := {|
  Proto.Any_Marshal a :=
    let u := bytes_of_string (TypeUrl a) in
    Proto.varint (blen u) ++ u ++ AnyValue a;
  Proto.Any_Unmarshal _ bz :=
    match Proto.get_varint bz with
    | inl (n, rest) =>
        inl (mkAny (string_of_bytes (take (N.to_nat n) rest)) (drop (N.to_nat n) rest))
    | inr e => inr e
    end;
|}.
#[export] Instance sim_any_laws : Proto.AnyCodecLaws.
Proof.
  split. intros [u v] Hl. simpl in *. rewrite !Proto.blen_app in Hl.
  rewrite Proto.get_varint_varint by (unfold is_u64, Proto.two63, two64 in *; lia).
  unfold blen. rewrite Nat2N.id, take_app_length, drop_app_length.
  by rewrite string_of_bytes_of_string.
Qed.

(** Packets from one channel to the contract [first]. The packet with the
    sequence 48 has no data the contract acknowledges at once. *)
Definition first : bytes := take 32 (Byte.x01 :: replicate 7 Byte.x2e
  ++ (Byte.x01 :: replicate 7 Byte.x2e) ++ replicate 32 Byte.x41).
Definition first_port : string := String.append "wasm." (string_of_bytes first).
Definition packet_of (sequence : N) : Packet :=
  mkPacket sequence "transfer" "channel-0" first_port "channel-1" [byte_of_N sequence] (0%N, 0%N) 9.
#[export] Instance sim_codecs : Codecs := {|
  unpack_extension _ := None;
  codec_packet := {|
    marshal p := [byte_of_N (P_Sequence p)];
    unmarshal bz :=
      match bz with
      | [b] => inl (packet_of (Byte.to_N b))
      | _ => inr (EText "unexpected EOF")
      end;
    codec_wf p := p = packet_of (P_Sequence p) /\ (P_Sequence p < 256)%N |};
|}.
#[export] Instance sim_codecs_laws : CodecsLaws.
Proof.
  split; [apply _|done|]. split. intros p [E Hlt] _. simpl.
  by rewrite to_N_byte_of_N, N.mod_small, <- E.
Qed.
(** Compression puts the magic bytes in front. *)
#[export] Instance sim_gzip : Gzip := {| gzip_read bz := inl (drop 3 bz, None, true) |}.
#[export] Instance sim_gzip_writer : GzipWriter := {| gzip_write bz := inl (Keeper.gzipIdent ++ bz) |}.
#[export] Instance sim_gzip_writer_laws : GzipWriterLaws.
Proof.
  split. intros x Hx. eexists _, true. split_and!; [done|done| |done].
  unfold small, blen, MaxInt64 in *. simpl length. lia.
Qed.
#[export] Instance sim_verification : VerificationPkg := {|
  url_ParseRequestURI _ := None; ParseDockerRef _ := None |}.

(** ** Other modules *)

(** Accounts by address. *)
#[export] Instance sim_modules : Modules := {|
  ExtState := gmap bytes AccountI; VMState := gmap bytes bytes |}.

Definition ask {A} (f : gmap bytes AccountI -> A) : Ext A := fun _ x => EDone (Ret (f x)) x.
Definition tell (f : gmap bytes AccountI -> gmap bytes AccountI) : Ext unit :=
  fun _ x => ECharge 5 "module" x (EDone (Ret tt) (f x)).
Definition unsupported {A} : Ext A := fun _ x => EDone (Fail (EText "unsupported")) x.
Definition base_account (a : bytes) : AccountI := mkAccount a 0 None "BaseAccount" None.

#[export] Instance sim_keepers : Keepers := {|
  GetAccount a := ask (fun x => x !! a);
  NewAccountWithAddress a := ask (fun _ => base_account a);
  SetAccount a := tell <[acc_Address a := a]>;
  IsSendEnabledCoins _ := tell id;
  BlockedAddr _ := false;
  SendCoins _ _ _ := tell id;
  GetBalance _ d := ask (fun _ => mkSdkCoin d 0);
  SendCoinsFromAccountToModule _ _ _ := tell id;
  BurnCoins _ _ := tell id;
  Capability := unit;
  BindPort _ := ask (fun _ => tt);
  GetCapability _ := ask (fun _ => None);
  ClaimCapability _ _ := tell id;
  PortPath p := p;
|}.
#[export] Instance sim_transfer : TransferPort := {| GetPort := ask (fun _ => "transfer"%string) |}.
#[export] Instance sim_ics4 : ICS4 := {|
  ChannelCapabilityPath p c := String.append p c;
  ics4_SendPacket _ _ _ _ _ _ := unsupported;
  ics4_WriteAcknowledgement _ _ _ := unsupported;
  ErrChannelCapabilityNotFound := EText "channel capability not found";
|}.
#[export] Instance sim_unpacker : AnyUnpacker := {|
  UnpackAny u v := inl (SOther u v); UnpackInterfaces _ := None |}.

(** The signer of a message is its sender; the messages of other modules that
    the contracts below do not send have none. *)
Definition signer (m : SdkMsg) : string :=
  match m with
  | SWasm w => MsgServer.msg_signer w
  | SBankSend from _ _ => from
  | _ => ""
  end.
#[export] Instance sim_msgs : MsgCodec := {|
  GetMsgV1Signers m :=
    match AccAddressFromBech32 (signer m) with inl a => inl [a] | inr err => inr err end;
  ext_ValidateBasic _ := None;
|}.
#[export] Instance sim_msgs_laws : MsgCodecLaws.
Proof.
  split. intros m signers. cbn [GetMsgV1Signers sim_msgs signer].
  destruct (AccAddressFromBech32 _) as [a|]; [|done]. intros [= <-]. by exists a.
Qed.
#[export] Instance sim_unpacker_laws : AnyUnpackerLaws.
Proof. by split. Qed.

#[export] Instance sim_queries : QueryKeepers := {|
  GetAllBalances _ := ask (fun _ => []);
  view_GetBalance _ d := ask (fun _ => mkSdkCoin d 0);
  GetSupply d := ask (fun _ => mkSdkCoin d 0);
  GetDenomMetaData _ := ask (fun _ => None);
  DenomsMetadata _ := unsupported;
  GetAllChannelsWithPortPrefix _ := ask (fun _ => []);
  GetChannel _ _ := ask (fun _ => None);
  BondDenom := ask (fun _ => "stake"%string);
  GetBondedValidatorsByPower := ask (fun _ => []);
  GetValidator _ := unsupported;
  GetAllDelegatorDelegations _ := ask (fun _ => []);
  GetDelegation _ _ := unsupported;
  HasReceivingRedelegation _ _ := ask (fun _ => false);
  TokensFromShares _ z := z;
  DelegationRewards_ _ _ := unsupported;
  DelegatorWithdrawAddress_ _ := unsupported;
  DelegationTotalRewards_ _ := unsupported;
  DelegatorValidators_ _ := unsupported;
  ErrNoValidatorFound := EText "validator does not exist";
  ErrNoDelegation := EText "no delegation";
  ValAddressFromBech32 s := inl (bytes_of_string s);
  ValAddress_String := string_of_bytes;
  NewCoin d z := Ret (mkSdkCoin d z);
|}.
(** The bank sends; carol has granted everybody the right to call the first
    contract in carol's name, so authz executes such calls. *)
Definition MsgExec : string := "/cosmos.authz.v1beta1.MsgExec".
Definition granted_by_carol (msg : bytes) : MsgServer.WasmMsg :=
  MsgServer.WExecuteContract (Msgs.mkMsgExecuteContract "carol" (string_of_bytes first) msg []).
#[export] Instance sim_router : AppRouter := {|
  route_other m :=
    match m with
    | SBankSend _ _ _ => Some (fun _ x => RCharge 7 "bank" x
        (REmit [newEvent "transfer" [("amount", "1")]] (RDone (Ret (None, [])) x)))
    | SOther typeURL msg =>
        if bool_decide (typeURL = MsgExec) then
          Some (fun _ x => RCharge 5 "authz" x (RWasm x (granted_by_carol msg) (fun r x =>
            match r with inl _ => RDone (Ret (None, [])) x | inr e => RDone (Fail e) x end)))
        else None
    | _ => None
    end;
  WrapServiceResult _ := (None, []);
|}.

(** ** Contracts *)

(** A contract stores the message under the key 07 and answers with it. What
    an answer means is looked up: 0 is an empty response, 1 has a custom
    event and a bank message, 2 executes the contract whose address is
    [first] with message 0 and asks for a reply, 3 is an error, 4 executes
    that contract with message 3 and asks for a reply on errors. *)
Definition bank_msg : CosmosMsg :=
  mkCosmosMsg (Some (mkBankMsg (Some (mkSend "bob" [VM.mkCoin "stake" "1"])) None))
    None None None None None None None.
Definition call_first (m : bytes) : CosmosMsg :=
  mkCosmosMsg None None None None None None None
    (Some (mkWasmMsg (Some (mkExecuteMsg (string_of_bytes first) m [])) None None None None None)).
Definition answer_of (bz : bytes) : ContractResult + string :=
  match bz with
  | [Byte.x30] => inl (mkContractResult (Some (mkResponse [] None [] [])) "")
  | [Byte.x31] => inl (mkContractResult (Some (mkResponse
      [mkSubMsg 1 bank_msg [] None ReplyNever] (Some [Byte.x31])
      [mkAttr "action" "one"] [mkEvent "custom" [mkAttr "n" "1"]])) "")
  | [Byte.x32] => inl (mkContractResult (Some (mkResponse
      [mkSubMsg 2 (call_first [Byte.x30]) [] (Some 500000%N) ReplyAlways] None [] [])) "")
  | [Byte.x33] => inl (mkContractResult None "refused")
  | [Byte.x34] => inl (mkContractResult (Some (mkResponse
      [mkSubMsg 4 (call_first [Byte.x33]) [] None ReplyError] None [] [])) "")
  | _ => inr "unexpected end of JSON input"%string
  end.
Definition report (limit : N) : GasReport := mkGasReport limit (limit - 1000) 0 1000.
Definition run_contract (msg : bytes) (limit : N) : VMProg :=
  VSet [Byte.x07] msg (fun e used =>
    match e with
    | GoError_None => VDone (inl msg) (report limit)
    | _ => VDone (inr "store") (report limit)
    end).
Definition checksum (code : bytes) : bytes := take 32 (code ++ replicate 32 Byte.x00).
(** The VM checks the integrity of what it reads. *)
Definition get_code (v : gmap bytes bytes) (c : bytes) : bytes + string :=
  match v !! c with
  | Some code => if bool_decide (checksum code = c /\ small code) then inl code
                 else inr "corrupted"%string
  | None => inr "not found"%string
  end.
#[export] Instance sim_engine : WasmEngine := {|
  api_StoreCode v code := (inl (checksum code), <[checksum code := code]> v);
  api_StoreCodeUnchecked v code := (inl (checksum code), <[checksum code := code]> v);
  api_GetCode := get_code;
  api_AnalyzeCode v c :=
    match v !! c with
    | Some _ => inl (mkAnalysisReport false "" ["instantiate"; "execute"]%string None)
    | None => inr "not found"%string
    end;
  api_Pin v _ := (None, v);
  api_Unpin v _ := (None, v);
  api_Instantiate _ _ _ _ msg limit := run_contract msg limit;
  api_Execute _ _ _ _ msg limit := run_contract msg limit;
  api_MigrateWithInfo _ _ _ msg _ limit := run_contract msg limit;
  api_Sudo _ _ _ msg limit := run_contract msg limit;
  api_Reply _ _ _ _ limit := run_contract [Byte.x30] limit;
  api_Query _ _ _ msg limit :=
    VGet [Byte.x07] (fun _ _ v => VDone (inl (default [] v)) (report limit));
  json_ContractResult := answer_of;
  json_QueryResult bz := inl (mkQueryResult bz "");
|}.

#[export] Instance sim_engine_laws : WasmEngineLaws.
Proof.
  split. intros bz r E. unfold json_ContractResult, sim_engine, answer_of in E.
  repeat case_match; simplify_eq; unfold typed_result; simpl; repeat apply Forall_cons_2;
    try apply Forall_nil_2; intros w [= <-]; split_and!; by intros i [=].
Qed.

(** ** IBC and authorizations *)

(** Channels are refused; packets are handled as messages are, and the packet
    with the data 0 is acknowledged later. *)
Definition received (bz : bytes) : IBCReceiveResult + string :=
  match bz with
  | [Byte.x30] => inl (mkIBCReceiveResult (Some (mkIBCReceiveResponse None [] [] [])) "")
  | _ => inl (mkIBCReceiveResult (Some (mkIBCReceiveResponse (Some bz)
           [mkSubMsg 1 bank_msg [] None ReplyNever] [] [])) "")
  end.
#[export] Instance sim_ibc_engine : IBCEngine := {|
  api_IBCChannelOpen _ _ _ _ limit := run_contract [Byte.x33] limit;
  api_IBCChannelConnect _ _ _ _ limit := run_contract [Byte.x30] limit;
  api_IBCChannelClose _ _ _ _ limit := run_contract [Byte.x30] limit;
  api_IBCPacketReceive _ _ _ msg limit := run_contract (Pk_Data (PR_Packet msg)) limit;
  api_IBCPacketAck _ _ _ _ limit := run_contract [Byte.x30] limit;
  api_IBCPacketTimeout _ _ _ _ limit := run_contract [Byte.x30] limit;
  api_IBCSourceCallback _ _ _ _ limit := run_contract [Byte.x30] limit;
  api_IBCDestinationCallback _ _ _ _ limit := run_contract [Byte.x30] limit;
  json_IBCChannelOpenResult _ := inl (mkChannelOpenResult None "refused");
  json_IBCBasicResult _ := inl (mkIBCBasicResult (Some (mkIBCBasicResponse [] [] [])) "");
  json_IBCReceiveResult := received;
|}.
#[export] Instance sim_ibc_engine_laws : IBCEngineLaws.
Proof.
  split.
  - by intros bz r [= <-].
  - intros bz r E. unfold json_IBCReceiveResult, sim_ibc_engine, received in E.
    repeat case_match; simplify_eq; simpl; repeat apply Forall_cons_2; try apply Forall_nil_2;
      by intros w [= <-].
Qed.
#[export] Instance sim_ibc_core : IBCCore := {|
  ParseChannelSequence _ := inl 1%N;
  ErrorAcknowledgementText _ := "ABCI code";
  error_ack_bytes := bytes_of_string;
  AuthenticateCapability _ _ := ask (fun _ => false);
  GetAppVersion _ _ := ask (fun _ => Some "v1"%string);
  ErrChannelNotFound := EText "channel not found";
  ErrInvalidChannelVersion := EText "invalid channel version";
|}.

#[export] Instance sim_lower : UnicodeLower := {| ToLower_hi _ := [] |}.
#[export] Instance sim_authz : AuthzCodec := {|
  NewAnyWithLimit l := inl (Authz.mkAny "limit" [] (Some l));
  NewAnyWithFilter f := inl (Authz.mkAny "filter" [] (Some f));
  UnpackAnyLimit a := inl a;
  UnpackAnyFilter a := inl a;
|}.
#[export] Instance sim_authz_laws : AuthzCodecLaws.
Proof. split. by intros l a [= <-]. Qed.
#[export] Instance sim_coins_laws : CoinsLaws.
Proof.
  split; cbn [Coins_Validate AmountOf Coins_IsAllLTE Coins_Sub NewCoins sim_coins]; try done.
  - intros c _. by destruct (Z.leb_spec 0 (total c)).
  - intros a b _ _ _ E. by apply Z.leb_le.
  - intros a b _ _ E. rewrite E. apply Z.leb_le in E. eexists. split; [done|].
    unfold total at 1. cbn [foldr coin_Amount].
    destruct (Z.leb_spec 0 (total a - total b + 0)); [|lia]. split; [done|]. intros _. simpl. lia.
Qed.

Lemma get_code_spec v h code : get_code v h = inl code -> checksum code = h /\ small code.
Proof.
  unfold get_code. destruct (v !! h); [|done]. case_bool_decide as Hd; [|done]. by intros [= <-].
Qed.
Lemma get_code_insert v h code :
  checksum code = h -> small code ->
  get_code (<[h := code]> v) h = inl code
  /\ forall h', h' <> h -> get_code (<[h := code]> v) h' = get_code v h'.
Proof.
  intros Hc Hs. unfold get_code. split.
  - by rewrite lookup_insert_eq, bool_decide_true.
  - intros h' Hne. by rewrite lookup_insert_ne.
Qed.
#[export] Instance sim_cache_laws : CodeCacheLaws.
Proof.
  split.
  - intros v h code E. by apply get_code_spec in E as [_ ?].
  - intros v v0 h code [Hc Hs]%get_code_spec. destruct (get_code_insert v h code Hc Hs).
    exists (<[h := code]> (v : gmap bytes bytes)). split_and!; [|done..].
    cbn [api_StoreCodeUnchecked sim_engine]. by rewrite Hc.
  - intros v h code _. by exists v.
Qed.

(** ** Governance, pages, and a store without prices *)

#[export] Instance sim_gov : GovModule := {|
  ErrInvalidProposalContent := sdkErr 1 "invalid proposal content";
  MaxTitleLength := 140;
  MaxDescriptionLength := 10000;
|}.

Definition free_kv : KVStorePkg := {| kv_charges _ := []; kv_fault _ := None |}.
Lemma free_unmetered : @Unmetered _ _ free_kv.
Proof. intros op [k x v m e t]. by exists m. Qed.

Definition free_pages : @Pagination _ _ free_kv := {|
  DefaultLimit := 100;
  FilteredPaginate A p req f acc := fun s =>
    let l := entries_from (Page_Key req) (kv_prefixed (kv s) p) in
    let n := N.to_nat (Page_Limit req) in
    match visit f (take n l) acc with
    | Ret acc' => (Ret (acc', mkPageResponse (default [] (fst <$> l !! n)) 0), s)
    | Fail e => (Fail e, s)
    | Panic p => (Panic p, s)
    end;
|}.
Lemma free_pages_laws : @PaginationLaws _ _ free_kv free_pages.
Proof.
  split.
  - done.
  - intros A p req f acc s k _. simpl. by destruct (visit f _ acc).
  - intros _ A p req f acc acc' [k x v m e t] _ _ _ _ _ _ l Hl. exists m. simpl in *.
    unfold l in Hl. by rewrite Hl.
Qed.

(** ** Runs *)

Definition config : KeeperConfig := {|
  gasRegister := GasRegister.DefaultGasRegisterConfig;
  maxQueryStackSize := 10;
  maxCallDepth := 20;
  acceptedAccountTypes := ["BaseAccount"%string];
  propagateGovAuthorization := {[1%N]};
  authority := "gov";
  queryGasLimit := 3000000;
|}.
Definition no_query (bz : bytes) : QueryRequest + string := inr "unexpected end of JSON input"%string.
Definition context : Context :=
  mkContext 7 1000 "sim" (Some 3%N) (Some 0%N) None None None None.
Definition genesis_params : Params :=
  mkParams (mkAccessConfig AccessTypeEverybody []) AccessTypeEverybody.
Definition genesis : State :=
  mkState {[ParamsKey := Proto.Params_Marshal genesis_params]} ∅ ∅
    (100000000%N, 0%N) [] (Some ∅).

Definition wasm_code : bytes := [Byte.x00; Byte.x61; Byte.x73; Byte.x6d; Byte.x01].
Definition store_code : MsgServer.WasmMsg :=
  MsgServer.WStoreCode (Msgs.mkMsgStoreCode "alice" wasm_code None).
Definition instantiate_with (msg : bytes) : MsgServer.WasmMsg :=
  MsgServer.WInstantiateContract (Msgs.mkMsgInstantiateContract "alice" "admin" 1 "label" msg []).
Definition execute_with (msg : bytes) : MsgServer.WasmMsg :=
  MsgServer.WExecuteContract (Msgs.mkMsgExecuteContract "bob" (string_of_bytes first) msg []).

Definition serve (msg : MsgServer.WasmMsg) : M MsgServer.WasmMsgResponse :=
  System.Serve config no_query 30 context msg.
(** Each message is served on the state the last one left. *)
Fixpoint run (msgs : list MsgServer.WasmMsg) (s : State)
    : list (outcome MsgServer.WasmMsgResponse) * State :=
  match msgs with
  | [] => ([], s)
  | m :: msgs' =>
      let '(o, s') := serve m s in
      let '(os, s'') := run msgs' s' in (o :: os, s'')
  end.

End Sim.
