(* ===== verification/Demo.v ===== *)
(** A contract on the small chain of Simulation.v: the store after a code was
    stored and instantiated represents a registry that is written out, so that
    the theorems about stores can be applied to it. *)
From S2P Require Import Prelude Errors GoStrings Json Types Proto Keys VMTypes Policy GasRegister Chain Logic Wp Engine Store Registry Events Keeper Dispatcher Msgs MsgServer Encoders Messenger QueryPlugins Relay System Refinement RefineKeeper RelayRefine RefineSystem Guarantees Simulation.
Import GoStrings Keys Store.Store Registry.Registry Refinement.Refinement RefineKeeper.RefineKeeper.
Import RefineSystem.RefineSystem Guarantees.Guarantees Encoders.Encoders Sim.
Open Scope wasm_scope.

Module Demo.

(** ** Stores given by their entries *)

Fixpoint assoc (e : Entry) (l : list (Entry * bytes)) : option bytes :=
  match l with
  | [] => None
  | (e', v) :: l' => if decide (e = e') then Some v else assoc e l'
  end.
Definition store_of (l : list (Entry * bytes)) : kvs :=
  foldr (fun ev (σ : kvs) => <[entry_key ev.1 := ev.2]> σ) ∅ l.
Lemma lookup_store_of l e :
  Forall (fun ev => wf_entry ev.1) l -> wf_entry e -> store_of l !! entry_key e = assoc e l.
Proof.
  intros Hl He. induction Hl as [|[e' v] l We _ IH]; [done|]. simpl in *.
  destruct (decide (e = e')) as [->|Hne]; [apply lookup_insert_eq|].
  rewrite lookup_insert_ne; [done|]. intros E. apply Hne. symmetry. by apply entry_key_inj.
Qed.

(** ** The fresh store *)

Definition fresh : Registry := mkRegistry ∅ ∅ ∅ ∅ (Some genesis_params) None None.
Lemma genesis_repr : repr (kv genesis) fresh.
Proof.
  intros e [We He]. change (kv genesis) with (store_of [(KParams, Proto.Params_Marshal genesis_params)]).
  rewrite lookup_store_of by (repeat constructor || done).
  destruct e; try done; simpl; by rewrite ?lookup_empty, ?lookup_nil; repeat case_match.
Qed.
Lemma fresh_coherent : coherent fresh.
Proof. by split; simpl; intros; try (destruct H; done); try set_solver. Qed.
Lemma fresh_storable : storable fresh.
Proof.
  split; simpl; try (intros ? ?; rewrite lookup_empty; done).
  - intros addr e. unfold history_of. simpl. rewrite lookup_empty. set_solver.
  - intros ps [= <-]. by split.
Qed.
Lemma genesis_models old : models old (kv genesis) fresh.
Proof.
  split_and!; [apply genesis_repr|apply fresh_coherent|apply fresh_storable|].
  intros x [i Hi]. done.
Qed.

(** ** One code, one contract *)

Definition alice : bytes := bytes_of_string "alice".
Definition bob : bytes := bytes_of_string "bob".
Definition everybody : AccessConfig := mkAccessConfig AccessTypeEverybody [].
Definition pos : AbsoluteTxPosition := mkAbsoluteTxPosition 7 3.
Definition code : CodeInfo := NewCodeInfo (checksum wasm_code) (Some alice) everybody.
Definition info (admin : string) : ContractInfo :=
  mkContractInfo 1 "alice" admin "label" (Some pos) "" None.
Definition entry : ContractCodeHistoryEntry := InitialHistory (info "") [Byte.x30].
Definition registry (admin : string) : Registry :=
  mkRegistry {[1%N := code]} {[first := info admin]} {[first := [entry]]} ∅
    (Some genesis_params) (Some 2%N) (Some 2%N).

Definition instantiate_for (admin : string) : MsgServer.WasmMsg :=
  MsgServer.WInstantiateContract
    (Msgs.mkMsgInstantiateContract "alice" admin 1 "label" [Byte.x30] []).
Definition state (admin : string) : State :=
  (run [store_code; instantiate_for admin] genesis).2.
Definition entries (admin : string) : list (Entry * bytes) :=
  [(KParams, marshal genesis_params); (KCode 1, marshal code);
   (KContract first, marshal (info admin)); (KHistory first 1, marshal entry);
   (KByCodeID 1 pos first, []); (KByCreator alice pos first, []);
   (KSequenceCodeID, Uint64ToBigEndian 2); (KSequenceInstanceID, Uint64ToBigEndian 2);
   (KStore first [Byte.x07], [Byte.x30])].

(** The admins of the examples. *)
Definition admins : list string := [""; "admin"]%string.
Lemma kv_state admin : admin ∈ admins -> kv (state admin) = store_of (entries admin).
Proof.
  intros Ha. unfold admins in Ha. rewrite !elem_of_cons, elem_of_nil in Ha.
  destruct Ha as [->|[->|[]]]; apply (bool_decide_eq_true_1 _); vm_compute; reflexivity.
Qed.

Lemma history_registry admin addr :
  history_of (registry admin) addr = if decide (addr = first) then [entry] else [].
Proof.
  unfold history_of. simpl. destruct (decide (addr = first)) as [->|].
  - by rewrite lookup_singleton_eq.
  - by rewrite lookup_singleton_ne.
Qed.
Lemma entries_encode admin e :
  reg_entry e -> assoc e (entries admin) = encode (registry admin) e.
Proof.
  intros [We He]. unfold assoc, entries. destruct e as [id|addr|addr x| | |addr p|id p addr|id| |c p addr| |];
    try done; cbn [encode].
  - simpl. destruct (decide (id = 1%N)) as [->|Hne].
    + rewrite decide_True by done. by rewrite lookup_singleton_eq.
    + repeat (rewrite decide_False by congruence). by rewrite lookup_singleton_ne.
  - simpl. destruct (decide (addr = first)) as [->|Hne].
    + repeat case_decide; simplify_eq. by rewrite lookup_singleton_eq.
    + repeat (rewrite decide_False by congruence). by rewrite lookup_singleton_ne.
  - rewrite history_registry. destruct (decide (addr = first)) as [->|Hne].
    + destruct (decide (p = 1%N)) as [->|Hp]; [by repeat case_decide; simplify_eq|].
      repeat (rewrite decide_False by congruence). destruct (N.eqb_spec p 0); [done|].
      by rewrite lookup_ge_None_2 by (simpl; lia).
    + repeat (rewrite decide_False by congruence). by rewrite lookup_nil; case_match.
  - rewrite history_registry. destruct (decide (addr = first)) as [->|Hne].
    + simpl. destruct (decide (1%N = id /\ Some pos = Some p)) as [[<- [= <-]]|Hn].
      * rewrite bool_decide_true by done. by repeat case_decide; simplify_eq.
      * rewrite bool_decide_false by done. repeat (rewrite decide_False by naive_solver). done.
    + by repeat (rewrite decide_False by congruence).
  - simpl contracts. destruct (decide (addr = first)) as [->|Hne].
    + rewrite lookup_singleton_eq. simpl.
      destruct (decide ("alice" = AccAddress_String c /\ Some pos = Some p)%string) as [[Hc [= <-]]|Hn].
      * rewrite bool_decide_true by done. apply (f_equal bytes_of_string) in Hc. simpl in Hc.
        rewrite bytes_of_string_of_bytes in Hc. subst c. by repeat case_decide; simplify_eq.
      * rewrite bool_decide_false by done.
        repeat (rewrite decide_False; [|intros [=]; subst; apply Hn; done]). done.
    + rewrite lookup_singleton_ne by done. by repeat (rewrite decide_False by congruence).
Qed.

Lemma state_repr admin : admin ∈ admins -> repr (kv (state admin)) (registry admin).
Proof.
  intros Ha e He. rewrite kv_state by done. rewrite <- entries_encode by done.
  apply lookup_store_of; [|apply He]. repeat constructor; done.
Qed.
Lemma registry_coherent admin : coherent (registry admin).
Proof.
  split; simpl; try done.
  - intros id [c Hc]. apply lookup_singleton_Some in Hc as [<- _]. done.
  - intros addr i Hi. apply lookup_singleton_Some in Hi as [<- <-]. split; simpl.
    + by rewrite lookup_singleton_eq.
    + exists entry, pos. by rewrite history_registry.
    + by exists alice, pos.
  - intros addr h Hh. apply lookup_singleton_Some in Hh as [<- <-].
    by rewrite lookup_singleton_eq.
Qed.
Lemma registry_storable admin : admin ∈ admins -> storable (registry admin).
Proof.
  intros Ha. split; simpl.
  - intros id c Hc. apply lookup_singleton_Some in Hc as [_ <-]. by split.
  - intros addr i Hi. apply lookup_singleton_Some in Hi as [_ <-].
    unfold admins in Ha. rewrite !elem_of_cons, elem_of_nil in Ha.
    destruct Ha as [->|[->|[]]]; (split; [split_and!; [done|by intros ? [= <-]|done]|done]).
  - intros addr e. rewrite history_registry. case_decide; [|set_solver].
    intros ->%list_elem_of_singleton. split; [|done]. split_and!; [done..|by intros ? [= <-]].
  - intros ps [= <-]. by split.
Qed.
Lemma state_models admin : admin ∈ admins -> models anyone (kv (state admin)) (registry admin).
Proof.
  intros Ha. split_and!; [by apply state_repr|apply registry_coherent|by apply registry_storable|].
  intros x _. by left.
Qed.
Lemma state_models_already admin :
  admin ∈ admins -> models (already (registry admin)) (kv (state admin)) (registry admin).
Proof.
  intros Ha. split_and!; [by apply state_repr|apply registry_coherent|by apply registry_storable|].
  intros x Hx. by left.
Qed.

(** ** Room in a store *)

(** No entry of a code and no entry of a history has the last number. *)
Definition last_history (key : bytes) : bool :=
  match key with
  | Byte.x05 :: rest => bool_decide (drop (length rest - 8) rest = Uint64ToBigEndian MaxUint64)
  | _ => false
  end.
Definition room (σ : kvs) : bool :=
  bool_decide (σ !! GetCodeKey MaxUint64 = None)
  && forallb (fun kv => negb (last_history kv.1)) (map_to_list σ).
Lemma room_not_full σ : room σ = true -> ~ full σ.
Proof.
  intros [Hc%bool_decide_eq_true Hh]%andb_true_iff [[v Hv]|[addr [v Hv]]]; [congruence|].
  rewrite forallb_forall in Hh. apply elem_of_map_to_list in Hv.
  rewrite list_elem_of_In in Hv. specialize (Hh _ Hv). simpl in Hh.
  rewrite length_app, length_Uint64ToBigEndian, Nat.add_sub, drop_app_length in Hh.
  by rewrite bool_decide_true in Hh by done.
Qed.

(** ** Messages of ordinary senders *)

(** Bob's call of the contract, and a message to authz, which calls the
    contract in the name of carol. *)
Definition call : MsgServer.WasmMsg := execute_with [Byte.x31].
Definition direct : SdkMsg := SWasm call.
Definition delegated : SdkMsg := SOther MsgExec [Byte.x31].
Definition carol : bytes := bytes_of_string "carol".
Definition users (x : bytes) : Prop := x = bob \/ x = carol.

Lemma wf_context : wf_ctx context.
Proof. by split. Qed.
Lemma router_typed (sender : bytes -> Prop) : sender carol -> acts_for sender.
Proof.
  intros Hs msg op ctx x E. destruct msg; simplify_eq/=; [done|].
  case_bool_decide; simplify_eq/=. split; [|by intros [] ?].
  split; [done|]. by exists carol.
Qed.
Lemma direct_transaction : transaction context direct.
Proof. split_and!; [apply wf_context|done|by intros w [= <-]]. Qed.
Lemma delegated_transaction : transaction context delegated.
Proof. split_and!; [apply wf_context|done|by intros w [=]]. Qed.
Lemma direct_signed (sender : bytes -> Prop) : sender bob -> signed_by direct sender.
Proof. intros Hs m [= <-]. by exists bob. Qed.
Lemma delegated_signed sender : signed_by delegated sender.
Proof. by intros m [=]. Qed.

Lemma gov_address x : governs (authority config) x -> x = bytes_of_string "gov".
Proof. unfold governs. by intros [= <-]. Qed.
Lemma users_ordinary admin : ordinary config users (registry admin).
Proof.
  intros x ->%gov_address. split_and!; [by intros [|]|simpl; by rewrite lookup_singleton_ne|].
  intros [key E]. apply (f_equal length) in E. revert E.
  rewrite length_take, address_Module_length. discriminate.
Qed.

Definition route (msg : SdkMsg) : M SdkResult := System.Route config no_query 30 context msg.
Definition result (msg : SdkMsg) (s : State) : SdkResult :=
  match (route msg s).1 with Ret r => r | _ => mkSdkResult None [] [] end.
Definition accepted (msg : SdkMsg) (s : State) : bool :=
  match (route msg s).1 with Ret _ => true | _ => false end.
Lemma accepted_routed msg s :
  accepted msg s = true -> route msg s = (Ret (result msg s), (route msg s).2).
Proof. unfold accepted, result. by destruct (route msg s) as [[] s']. Qed.
Lemma message_routed msg admin :
  msg = direct \/ msg = delegated -> admin ∈ admins ->
  route msg (state admin) = (Ret (result msg (state admin)), (route msg (state admin)).2).
Proof.
  intros Hm Ha. apply accepted_routed. unfold admins in Ha. rewrite !elem_of_cons, elem_of_nil in Ha.
  destruct Hm as [-> | ->]; destruct Ha as [->|[->|[]]]; vm_compute; reflexivity.
Qed.
Lemma message_room msg admin :
  msg = direct \/ msg = delegated -> admin ∈ admins -> ~ full (kv (route msg (state admin)).2).
Proof.
  intros Hm Ha. apply room_not_full. unfold admins in Ha. rewrite !elem_of_cons, elem_of_nil in Ha.
  destruct Hm as [-> | ->]; destruct Ha as [->|[->|[]]]; vm_compute; reflexivity.
Qed.
Lemma wasm_signed msg : is_Some (match AccAddressFromBech32 (MsgServer.msg_signer msg) with
    inl a => Some a | inr _ => None end) -> signed_by (SWasm msg) anyone.
Proof.
  intros [a Ha] m [= <-]. exists a.
  destruct (AccAddressFromBech32 (MsgServer.msg_signer msg)); simplify_eq/=. done.
Qed.
Lemma reachable_wasm σ msg s :
  reachable config no_query genesis_params (kv s) -> typed_tx msg -> signed_by (SWasm msg) anyone ->
  accepted (SWasm msg) s = true -> σ = kv (route (SWasm msg) s).2 ->
  reachable config no_query genesis_params σ.
Proof.
  intros R Ht Hs Ha ->. eapply (reachable_message _ _ _ 30 context (SWasm msg) s); [done| | |done|].
  - apply wf_context.
  - by intros w [= <-].
  - by apply accepted_routed.
Qed.
(** Messages reach the state. *)
Lemma state_reachable admin :
  admin ∈ admins -> reachable config no_query genesis_params (kv (state admin)).
Proof.
  intros Ha. unfold admins in Ha. rewrite !elem_of_cons, elem_of_nil in Ha.
  eapply (reachable_wasm _ (instantiate_for admin) (route (SWasm store_code) genesis).2);
    [eapply (reachable_wasm _ store_code genesis)|..].
  - apply reachable_genesis, genesis_models.
  - done.
  - apply wasm_signed. by eexists.
  - vm_compute. reflexivity.
  - done.
  - done.
  - apply wasm_signed. by eexists.
  - destruct Ha as [->|[->|[]]]; vm_compute; reflexivity.
  - destruct Ha as [->|[->|[]]]; apply (bool_decide_eq_true_1 _); vm_compute; reflexivity.
Qed.
(** The contract ran and stored the message. *)
Example delegated_runs :
  kv (route delegated (state "")).2 !! (GetContractStorePrefix first ++ [Byte.x07]) = Some [Byte.x31].
Proof. vm_compute. reflexivity. Qed.

End Demo.
