(* ===== verification/Witnesses.v ===== *)
(** Uses of the theorems at concrete inputs: on the small chain of Simulation.v
    and the contract of Demo.v every assumption of the theorems holds. *)
From S2P Require Import Prelude Errors GoStrings Json Types Proto Keys VMTypes Policy GasRegister Chain Logic Wp Engine Store Registry Events Keeper Dispatcher Msgs MsgServer Encoders Messenger QueryPlugins Relay System Refinement RefineKeeper RelayRefine RefineSystem Guarantees Termination Simulation Demo.
Import GoStrings Keys Store.Store Registry.Registry Refinement.Refinement RefineKeeper.RefineKeeper.
Import RefineSystem.RefineSystem Sim Demo.
Open Scope wasm_scope.

Module Witnesses.

Abbreviation Steps := (steps (authority config) (propagateGovAuthorization config)).
Abbreviation after msg admin := ((route msg (state admin)).2).

Lemma admin_none : ""%string ∈ admins.
Proof. by constructor. Qed.
Lemma admin_some : "admin"%string ∈ admins.
Proof. by repeat constructor. Qed.

(** ** Guarantees *)

Lemma Route_refines_witness :
  exists a', Steps Guarantees.any_policy users (registry "admin") a'
    /\ models Guarantees.anyone (kv (after delegated "admin")) a'.
Proof.
  apply (Guarantees.Route_refines config no_query Guarantees.any_policy users
    Guarantees.anyone 30 context delegated (state "admin") (registry "admin")
    (result delegated (state "admin"))).
  - done.
  - done.
  - apply router_typed. by right.
  - exact wf_context.
  - done.
  - apply delegated_transaction.
  - apply delegated_signed.
  - apply state_models, admin_some.
  - apply message_routed; [by right|apply admin_some].
  - apply message_room; [by right|apply admin_some].
Defined.
Lemma reachable_coherent_witness :
  exists a, Steps Guarantees.any_policy Guarantees.anyone fresh a
    /\ repr (kv (after delegated "admin")) a /\ coherent a /\ storable a.
Proof.
  apply (Guarantees.reachable_coherent config no_query).
  - by apply router_typed.
  - apply (Guarantees.reachable_message _ _ _ 30 context delegated (state "admin")
      (result delegated (state "admin"))).
    + apply state_reachable, admin_some.
    + exact wf_context.
    + apply delegated_transaction.
    + apply delegated_signed.
    + apply message_routed; [by right|apply admin_some].
  - apply message_room; [by right|apply admin_some].
Defined.
Lemma code_permanent_witness :
  exists c', kv (after delegated "admin") !! GetCodeKey 1 = Some (marshal c')
    /\ CodeHash c' = CodeHash code /\ CodeCreator c' = CodeCreator code.
Proof.
  apply (Guarantees.code_permanent config no_query ltac:(by apply router_typed) 30 context delegated
    (state "admin") (registry "admin") (result delegated (state "admin"))).
  - exact wf_context.
  - apply delegated_transaction.
  - apply state_models, admin_some.
  - apply delegated_signed.
  - apply message_routed; [by right|apply admin_some].
  - apply message_room; [by right|apply admin_some].
  - apply lookup_singleton_eq.
Defined.
Lemma contract_permanent_witness :
  (exists i', kv (after delegated "admin") !! GetContractAddressKey first = Some (marshal i')
     /\ Creator i' = Creator (info "admin") /\ Created i' = Created (info "admin")
     /\ Extension i' = Extension (info "admin"))
  /\ (forall pos e, is_u64 pos -> (pos <> 0)%N ->
        history_of (registry "admin") first !! N.to_nat (pos - 1) = Some e ->
        kv (after delegated "admin") !! GetContractCodeHistoryElementKey first pos = Some (marshal e)).
Proof.
  apply (Guarantees.contract_permanent config no_query ltac:(by apply router_typed) 30 context delegated
    (state "admin") (registry "admin") (result delegated (state "admin"))).
  - exact wf_context.
  - apply delegated_transaction.
  - apply state_models, admin_some.
  - apply delegated_signed.
  - apply message_routed; [by right|apply admin_some].
  - apply message_room; [by right|apply admin_some].
  - apply lookup_singleton_eq.
Defined.

(** ** Dispatching *)

Abbreviation D := (System.DispatchMsg config no_query 10).
Abbreviation R := (Keeper.reply config no_query (System.HandleQuery config no_query)
  (System.response_handler config no_query 10)).
Definition fails {A} (x : outcome A * State) : bool :=
  match x.1 with Fail _ => true | _ => false end.
Definition succeeds {A} (x : outcome A * State) : bool :=
  match x.1 with Ret _ => true | _ => false end.
Lemma fails_with {A} (x : outcome A * State) : fails x = true -> exists e, x = (Fail e, x.2).
Proof. destruct x as [[]]; try done. by eexists. Qed.
Lemma succeeds_with {A} (x : outcome A * State) : succeeds x = true -> exists r, x = (Ret r, x.2).
Proof. destruct x as [[]]; try done. by eexists. Qed.

(** A call that the contract refuses and a call that it accepts. *)
Definition refused : SubMsg := mkSubMsg 4 (call_first [Byte.x33]) [] None ReplyError.
Definition fine : SubMsg := mkSubMsg 5 (call_first [Byte.x31]) [] (Some 500000%N) ReplySuccess.
Lemma submessage_failure_witness :
  exists e s1, Dispatcher.runs D context first "" refused (state "") = (Fail e, s1)
    /\ kv (Dispatcher.rolled_back (state "") s1) = kv (state "")
    /\ Dispatcher.dispatch_submessage D R context first "" refused None (state "")
       = Dispatcher.call_reply R context first refused (Dispatcher.error_result e) None
           (Dispatcher.rolled_back (state "") s1).
Proof.
  destruct (fails_with (Dispatcher.runs D context first "" refused (state ""))) as [e E];
    [vm_compute; reflexivity|].
  exists e. eexists. split; [exact E|].
  destruct (Dispatcher.submessage_failure D R context first "" refused None (state "") e _
    eq_refl E) as (Hk & _ & _ & Hd).
  split; [exact Hk|exact Hd].
Defined.
Lemma submessage_success_witness :
  exists r s1, Dispatcher.runs D context first "" fine (state "") = (Ret r, s1)
    /\ kv (Dispatcher.committed fine (state "") s1 r) = kv s1.
Proof.
  destruct (succeeds_with (Dispatcher.runs D context first "" fine (state ""))) as [r E];
    [vm_compute; reflexivity|].
  exists r. eexists. split; [exact E|].
  destruct (Dispatcher.submessage_success D R context first "" fine None (state "") r _
    eq_refl E) as (Hk & _).
  exact Hk.
Defined.
Lemma submessage_gas_limit_witness :
  (GasConsumed (meter (Dispatcher.dispatchMsgWithGasLimit D context first "" (call_first [Byte.x31])
     500000 (state "")).2) <= GasConsumed (meter (state "")) + 500000)%N.
Proof.
  destruct (succeeds_with (Dispatcher.dispatchMsgWithGasLimit D context first ""
    (call_first [Byte.x31]) 500000 (state ""))) as [r E]; [vm_compute; reflexivity|].
  exact (Termination.submessage_gas_limit config no_query 10 context first ""
    (call_first [Byte.x31]) 500000 (state "") _ _ eq_refl E).
Defined.

(** ** Termination *)

Definition poor : State := set_meter (50%N, 0%N) genesis.
Lemma Serve_bounded_witness :
  System.Serve config no_query 80 context store_code poor
  = MsgServer.serve config no_query (System.HandleQuery config no_query)
      (Termination.unrolled config no_query (fun _ _ _ _ _ => mret None) 90) context store_code poor.
Proof.
  apply Termination.Serve_bounded; [done|done|vm_compute; discriminate|..].
  - apply Nat.ltb_lt. vm_compute. reflexivity.
  - apply Nat.ltb_lt. vm_compute. reflexivity.
Defined.
Lemma QuerySmart_equation_witness :
  System.QuerySmart config no_query context first [Byte.x30] (state "")
  = Keeper.QuerySmart config no_query
      (System.handle_query (System.QuerySmart config no_query)) context first [Byte.x30] (state "").
Proof. apply Termination.QuerySmart_equation; [done|vm_compute; discriminate]. Defined.

(** ** The VM *)

Lemma vm_entry_isolated_witness :
  kv (vm_entry (Keeper.gasMeter config)
        (RustQuery GasRegister.DefaultGasRegisterConfig no_query
           (System.HandleQuery config no_query) context first)
        (GetContractStorePrefix first) (fun _ => run_contract [Byte.x30] 1000000) 1000000 json_ContractResult
        ContractResult_SubMessages (state "")).2 !! ParamsKey
  = kv (state "") !! ParamsKey.
Proof. apply vm_entry_isolated. intros r [=]. Defined.
Lemma validateAddress_roundtrip_witness :
  exists canon, canonicalizeAddress "alice" = (inl canon, costCanonical)
  /\ humanizeAddress canon = (inl "alice"%string, costHumanize).
Proof. apply (validateAddress_roundtrip "alice" costValidate). reflexivity. Defined.

(** ** Records and keys *)

Lemma records_roundtrip_witness :
  Proto.ContractInfo_Unmarshal Proto.ContractInfo_zero (Proto.ContractInfo_Marshal (info "admin"))
  = inl (info "admin").
Proof.
  apply Proto.records_roundtrip; [done| |done]. intros p [= <-]. done.
Defined.
Lemma store_layout_witness : KCode 1 = KCode 1 /\ KStore first [Byte.x07] = KStore first [Byte.x07].
Proof.
  split.
  - apply (proj1 store_layout); done.
  - apply (proj2 store_layout); done.
Defined.
Lemma Params_CodeInfo_Size_witness :
  Proto.CodeInfo_Size code = blen (Proto.CodeInfo_Marshal code).
Proof. apply Proto.Params_CodeInfo_Size. reflexivity. Defined.
Lemma LessThan_Bytes_witness :
  bytes_le (Position_Bytes pos) (Position_Bytes (mkAbsoluteTxPosition 8 0))
  /\ pos <> mkAbsoluteTxPosition 8 0.
Proof. apply (LessThan_Bytes pos (mkAbsoluteTxPosition 8 0)); done. Defined.

(** ** Access configs and policies *)

Definition only (a : string) : AccessConfig := mkAccessConfig AccessTypeAnyOfAddresses [a].
Lemma IsSubset_sound_witness : Allowed everybody (Some alice) = Ret true.
Proof. apply (IsSubset_sound (only "alice")); reflexivity. Defined.
Lemma IsSubset_trans_witness : IsSubset AllowNobody everybody = true.
Proof. apply (IsSubset_trans _ (only "alice")); reflexivity. Defined.
Lemma With_creator_witness :
  AccessConfig_ValidateBasic (only "alice") = None
  /\ Permission (only "alice") = AccessTypeAnyOfAddresses
  /\ (AccessTypeAnyOfAddresses <> AccessTypeNobody -> Allowed (only "alice") (Some alice) = Ret true).
Proof. apply With_creator. reflexivity. Defined.
Lemma gov_nested_checks_witness :
  Policy.CanModifyContract
    (Policy.nested_policy (Policy.GovAuthorizationPolicy {[1%N]}) [1%N]) (Some alice) (Some bob)
  = Policy.CanModifyContract Policy.DefaultAuthorizationPolicy (Some alice) (Some bob).
Proof.
  apply (Policy.gov_nested_checks {[1%N]} 1%N [] (Policy.mkChainAccessConfigs everybody everybody)
    (Some bob) everybody (Some alice) false). discriminate.
Defined.

(** ** Errors, events and messages *)

Lemma redactError_deterministic_witness :
  error_string (redactError (Wrap ErrNotFound "on this node"))
  = error_string (redactError (Wrap ErrNotFound "on that node")).
Proof. apply Errors.redactError_deterministic; reflexivity. Defined.
Lemma newCustomEvents_authentic_witness :
  exists events,
    Events.Events.newCustomEvents [mkEvent "custom" [mkAttr "n" "1"]] first = inl events
    /\ length events = 1 /\ Forall (Events.Events.custom_event first) events.
Proof.
  eexists. split; [reflexivity|].
  apply (Events.Events.newCustomEvents_authentic [mkEvent "custom" [mkAttr "n" "1"]] first).
  reflexivity.
Defined.
Lemma EncodeWasmMsg_sender_witness :
  exists msgs m,
    Encoders.Encoders.EncodeWasmMsg first (mkWasmMsg
      (Some (mkExecuteMsg "bob" [Byte.x30] [])) None None None None None) = Ret msgs
    /\ msgs = [Encoders.Encoders.SWasm m] /\ MsgServer.msg_signer m = AccAddress_String first.
Proof.
  eexists. destruct (Encoders.Encoders.EncodeWasmMsg_sender first (mkWasmMsg
      (Some (mkExecuteMsg "bob" [Byte.x30] [])) None None None None None) _ eq_refl) as (m & Hm & Hs).
  exists m. split; [reflexivity|]. split; [exact Hm|exact Hs].
Defined.
Definition own_call : Encoders.Encoders.SdkMsg :=
  Encoders.Encoders.SWasm (MsgServer.WExecuteContract
    (Msgs.mkMsgExecuteContract (string_of_bytes first) (string_of_bytes first) [Byte.x7b; Byte.x7d] [])).
Definition accept (_ : Encoders.Encoders.SdkMsg)
    : option (Context -> Encoders.Encoders.SdkMsg -> M SdkResult) :=
  Some (fun _ _ => mret (mkSdkResult None [] [])).
Lemma handleSdkMessage_authorized_witness :
  exists signers, Messenger.GetMsgV1Signers own_call = inl signers
    /\ Forall (fun signer => signer = first) signers.
Proof.
  destruct (succeeds_with (Messenger.Messenger.handleSdkMessage accept context first own_call genesis))
    as [r E]; [vm_compute; reflexivity|].
  destruct (Messenger.Messenger.handleSdkMessage_authorized accept context first own_call genesis
    _ _ E (or_intror (ex_intro _ r eq_refl))) as (_ & signers & Hs & Hf).
  exists signers. split; [exact Hs|exact Hf].
Defined.
Abbreviation key_for creator := (Keeper.predictable_key (checksum wasm_code) creator [Byte.x01] []).
Abbreviation address_for creator := (take 32 (address_Module ModuleName (key_for creator))).
Lemma predictable_address_unique_witness :
  key_for alice = key_for bob <-> checksum wasm_code = checksum wasm_code /\ alice = bob
  /\ [Byte.x01] = [Byte.x01] /\ [] = ([] : bytes).
Proof.
  apply (Keeper.predictable_address_unique (checksum wasm_code) alice [Byte.x01] []
    (address_for alice) (checksum wasm_code) bob [Byte.x01] [] (address_for bob));
    vm_compute; reflexivity.
Defined.

End Witnesses.
