(* ===== verification/Scenarios.v ===== *)
(** Uses of the theorems about genesis states, IBC and authorizations at
    concrete inputs, on the small chain of Simulation.v and the contract of
    Demo.v. *)
From S2P Require Import Prelude Errors GoStrings Json Types Proto Keys VMTypes Policy GasRegister Chain Logic Wp Engine Store Registry Events Keeper Dispatcher Msgs MsgServer Encoders Messenger QueryPlugins Relay System SystemFrame Refinement RefineKeeper RelayRefine RefineSystem Guarantees Packets Checksum Authz Genesis GenesisRefine Simulation Demo.
Import GoStrings Keys Store.Store Registry.Registry Refinement.Refinement RefineKeeper.RefineKeeper.
Import RefineSystem.RefineSystem Encoders.Encoders Sim Demo.
Open Scope wasm_scope.

Module Scenarios.

Definition result {A} (d : A) (m : outcome A * State) : A :=
  match m.1 with Ret a => a | _ => d end.
Definition returns {A} (m : outcome A * State) : bool :=
  match m.1 with Ret _ => true | _ => false end.
Lemma returns_result {A} (d : A) (m : outcome A * State) : returns m = true -> m = (Ret (result d m), m.2).
Proof. unfold returns, result. by destruct m as [[] s]. Qed.
Lemma returns_unit (m : outcome unit * State) : returns m = true -> m = (Ret tt, m.2).
Proof. by destruct m as [[[]| |] s]. Qed.

Definition live : State := state "admin".
Lemma live_admin : "admin"%string ∈ admins.
Proof. by repeat constructor. Qed.

(** ** Genesis *)

Definition no_genesis : GenesisState := mkGenesisState genesis_params [] [] [].
Definition exported : GenesisState := result no_genesis (Genesis.ExportGenesis live).
Definition empty_chain : State := mkState ∅ ∅ ∅ (100000000%N, 0%N) [] (Some ∅).
Abbreviation imported := (Genesis.InitGenesis context exported empty_chain).

Lemma live_created_first : GenesisRefine.created_first (registry "admin").
Proof.
  intros addr i Hi. simpl in Hi. apply lookup_singleton_Some in Hi as [<- <-]. by rewrite history_registry.
Qed.
Lemma live_addresses : Genesis.contract_addresses (registry "admin").
Proof. intros addr [i Hi]. simpl in Hi. by apply lookup_singleton_Some in Hi as [<- _]. Qed.
Definition code_key_lengths (σ : kvs) : bool :=
  forallb (fun e => match e.1 with Byte.x01 :: r => Nat.eqb (length r) 8 | _ => true end)
    (map_to_list σ).
Lemma code_key_lengths_sound (σ : kvs) : code_key_lengths σ = true -> Genesis.code_keys σ.
Proof.
  unfold code_key_lengths. rewrite forallb_forall. intros Hk k [v Hv]. apply Nat.eqb_eq.
  apply (Hk (CodeKeyPrefix ++ k, v)), list_elem_of_In. by apply elem_of_map_to_list.
Qed.

Lemma live_code_keys : code_key_lengths (kv live) = true.
Proof. vm_compute. reflexivity. Qed.
Lemma export_returns : returns (Genesis.ExportGenesis live) = true.
Proof. vm_compute. reflexivity. Qed.
Lemma import_returns : returns imported = true.
Proof. vm_compute. reflexivity. Qed.
Lemma genesis_roundtrip_witness :
  repr (kv imported.2) (GenesisRefine.settled (registry "admin"))
  /\ forall addr key, is_Some (contracts (registry "admin") !! addr) ->
       kv imported.2 !! (GetContractStorePrefix addr ++ key)
       = kv live !! (GetContractStorePrefix addr ++ key).
Proof.
  apply (GenesisRefine.genesis_roundtrip context (registry "admin") live
    (Genesis.ExportGenesis live).2 empty_chain imported.2 exported).
  - apply state_repr, live_admin.
  - apply registry_coherent.
  - apply registry_storable, live_admin.
  - exact live_created_first.
  - exact live_addresses.
  - apply code_key_lengths_sound, live_code_keys.
  - apply returns_result, export_returns.
  - reflexivity.
  - apply returns_unit, import_returns.
Defined.

(** ** IBC *)

Abbreviation handle_query := (System.HandleQuery config no_query).
Abbreviation handler := (System.response_handler config no_query 30).
Abbreviation deliver n := (System.Deliver config no_query 30 context (Relay.RecvPacket (packet_of n) None)).
Abbreviation delivered := (deliver 49 live).

Definition acknowledged (m : outcome Relay.IBCAnswer * State) : bool :=
  match m.1 with Ret (Relay.Acked (Some (ContractConfirmStateAck _))) => true | _ => false end.
Lemma acknowledged_committed m :
  acknowledged m = true ->
  m = (Ret (result Relay.Done m), m.2) /\ Relay.committed (result Relay.Done m) = true.
Proof. unfold acknowledged, result. by destruct m as [[[| |[[]|]]| |] s]. Qed.
Lemma packet_acknowledged : acknowledged delivered = true.
Proof. vm_compute. reflexivity. Qed.
Lemma delivered_room : room (kv delivered.2) = true.
Proof. vm_compute. reflexivity. Qed.

(** Sequence 48 is the packet the contract acknowledges later. In between the
    contract is called and gets another packet. *)
Abbreviation received_later := (deliver 48 live).
Abbreviation called_later := (route direct received_later.2).
Abbreviation received_other := (deliver 49 called_later.2).
Abbreviation loaded_later := (LoadAsyncAckPacket first_port "channel-1" 48 received_other.2).
Definition postponed (m : outcome Relay.IBCAnswer * State) : bool :=
  match m.1 with Ret (Relay.Acked None) => true | _ => false end.
Lemma postponed_none m : postponed m = true -> m = (Ret (Relay.Acked None), m.2).
Proof. by destruct m as [[[| |[]]| |] s]. Qed.
Lemma packet_postponed : postponed received_later = true.
Proof. vm_compute. reflexivity. Qed.
Lemma packet_loaded : returns loaded_later = true.
Proof. vm_compute. reflexivity. Qed.
Lemma first_port_clean : bool_decide (Byte.x00 ∉ bytes_of_string first_port) = true.
Proof. vm_compute. reflexivity. Qed.
Lemma packet_slot n : is_u64 n -> wf_entry (Packets.slot (packet_of n)).
Proof. intros Hn. split_and!; [apply (bool_decide_eq_true_1 _ first_port_clean)|done|done]. Qed.
Lemma router_silent (P : Relay.IBCCall -> Prop) msg op ctx x :
  route_other msg = Some op -> all_calls (fun _ => True) P (op ctx x).
Proof.
  intros E. destruct msg; simplify_eq/=; [done|]. case_bool_decide; simplify_eq/=.
  split; [done|]. by intros [] ?.
Qed.
Lemma other_later : Packets.later config no_query (packet_of 48) received_later.2 received_other.2.
Proof.
  eapply (Packets.later_delivery _ _ _ _ 30 context (Relay.RecvPacket (packet_of 49) None) called_later.2).
  - eapply (Packets.later_message _ _ _ _ 30 context direct received_later.2);
      [by apply Packets.later_now|by apply surjective_pairing|done].
  - split; [by apply packet_slot|]. by intros [=].
  - apply surjective_pairing.
  - done.
Qed.
Lemma async_packet_kept_witness :
  kv received_later.2 !! packet_key (packet_of 48) = Some (marshal (packet_of 48))
  /\ (loaded_later = (Ret (result (packet_of 0) loaded_later), loaded_later.2) ->
      result (packet_of 0) loaded_later = packet_of 48).
Proof.
  apply (Packets.async_packet_kept config no_query (packet_of 48) 30 context None live
    received_later.2 received_other.2 (result (packet_of 0) loaded_later) loaded_later.2).
  - by apply packet_slot.
  - intros. by eapply router_silent.
  - split; reflexivity.
  - reflexivity.
  - discriminate.
  - apply postponed_none, packet_postponed.
  - exact other_later.
Defined.
Example packet_found : result (packet_of 0) loaded_later = packet_of 48.
Proof. vm_compute. reflexivity. Qed.

Definition capability : @Capability _ sim_keepers := tt.
Definition counterparty : IBCEndpoint := mkEndpoint "transfer" "channel-0".
Abbreviation opening :=
  (Relay.ibc_call config no_query handle_query context first
     (fun q prefix checksum env gas => Relay.VM_IBCChannelOpen config q prefix checksum env
        (mkChannelOpenMsg (Some (mkIBCChannel (mkEndpoint first_port "channel-1") counterparty
           "ORDER_UNORDERED" "v1" "connection-0")) None) gas) live).
Abbreviation claim :=
  (call_ext context (ClaimCapability capability (ChannelCapabilityPath first_port "channel-1")) opening.2).
Definition answer (m : outcome (ContractInfo * (IBCChannelOpenResult + string)) * State)
    : ContractInfo * IBCChannelOpenResult :=
  match m.1 with Ret (i, inl r) => (i, r) | _ => (info "", mkChannelOpenResult None "") end.
Definition refused (m : outcome (ContractInfo * (IBCChannelOpenResult + string)) * State) : bool :=
  match m.1 with
  | Ret (_, inl r) => bool_decide (COR_Ok r = None) && negb (bool_decide (COR_Err r = ""))
  | _ => false
  end.
Lemma refused_answer m :
  refused m = true -> m = (Ret ((answer m).1, inl (answer m).2), m.2)
    /\ COR_Ok (answer m).2 = None /\ COR_Err (answer m).2 <> "".
Proof.
  unfold refused, answer. destruct m as [[[i [r|]]| |] s]; try done. simpl.
  intros [Ho%bool_decide_eq_true He%negb_true_iff%bool_decide_eq_false]%andb_true_iff. done.
Qed.
Lemma channel_refused : refused opening = true.
Proof. vm_compute. reflexivity. Qed.
Lemma channel_claimed : returns claim = true.
Proof. vm_compute. reflexivity. Qed.
Lemma channel_refusal_ignored_witness :
  Relay.OnChanOpenInit config no_query handle_query context "ORDER_UNORDERED" ["connection-0"]
    first_port "channel-1" capability counterparty "v1" live = (Ret "v1", claim.2).
Proof.
  apply (Relay.channel_refusal_ignored config no_query handle_query context "ORDER_UNORDERED"
    "connection-0" [] first_port "channel-1" capability counterparty "v1" first live
    (answer opening).1 (answer opening).2 opening.2 claim.2).
  - reflexivity.
  - vm_compute. reflexivity.
  - discriminate.
  - exact (proj1 (refused_answer _ channel_refused)).
  - exact (proj1 (proj2 (refused_answer _ channel_refused))).
  - exact (proj2 (proj2 (refused_answer _ channel_refused))).
  - apply returns_unit, channel_claimed.
Defined.

Lemma source_callback_own_witness :
  (exists err, Relay.IBCOnAcknowledgementPacketCallback config no_query handle_query handler context
     (packet_of 1) [] None (string_of_bytes first) "bob" live = (Fail err, live))
  /\ (exists err, Relay.IBCOnTimeoutPacketCallback config no_query handle_query handler context
     (packet_of 1) None (string_of_bytes first) "bob" live = (Fail err, live))
  /\ (exists err, Relay.IBCSendPacketCallback (string_of_bytes first) "bob" live = (Fail err, live)).
Proof.
  apply (Relay.source_callback_own config no_query handle_query handler context (packet_of 1) [] None
    (string_of_bytes first) "bob" live).
  vm_compute. intros addr [E1 E2]. congruence.
Defined.

(** ** Authorizations *)

Definition json_call : bytes := bytes_of_string "{}".
Definition granted_call : Msgs.MsgExecuteContract :=
  Msgs.mkMsgExecuteContract "alice" (string_of_bytes first) json_call [].
Definition granted_msg : SdkMsg := SWasm (MsgServer.WExecuteContract granted_call).
Definition granted_exec : Authz.AuthzableWasmMsg := AuthzOps.authzable_execute granted_call.
Definition grant (n : N) : Authz.ContractGrant :=
  Authz.mkContractGrant (string_of_bytes first)
    (Some (Authz.mkAny "limit" [] (Some (Authz.MaxCallsLimit n))))
    (Some (Authz.mkAny "filter" [] (Some Authz.AllowAllMessagesFilter))).
Definition authorization (n : N) : Authz.Authorization :=
  Authz.ContractExecutionAuthorization [grant n].

Lemma calls_usable_witness :
  AuthzOps.lifetime (authorization 2) [granted_exec; granted_exec] None
  /\ forall m left, AuthzOps.lifetime (authorization 2) (replicate m granted_exec) left -> m <= 2.
Proof.
  apply (AuthzOps.calls_usable (authorization 2) granted_msg granted_exec json_call live
    ltac:(by eexists) eq_refl eq_refl eq_refl eq_refl eq_refl eq_refl 2 (grant 2)); done.
Defined.

Definition no_answer : Authz.AcceptResponse := Authz.mkAcceptResponse false false None.
Definition answered (m : outcome ((Authz.AcceptResponse + error) * Authz.Authorization) * State)
    : Authz.AcceptResponse * Authz.Authorization :=
  match m.1 with Ret (inl r, a) => (r, a) | _ => (no_answer, authorization 0) end.
Definition last_use (m : outcome ((Authz.AcceptResponse + error) * Authz.Authorization) * State) : bool :=
  match m.1 with Ret (inl r, a) => Authz.Accept r && Authz.Delete r | _ => false end.
Lemma last_use_spec m :
  last_use m = true -> m = (Ret (inl (answered m).1, (answered m).2), m.2)
    /\ Authz.Accept (answered m).1 = true /\ Authz.Delete (answered m).1 = true.
Proof.
  unfold last_use, answered. destruct m as [[[[r|] a]| |] s]; try done. by intros []%andb_true_iff.
Qed.
Abbreviation accepting := (AuthzOps.Authorization_Accept (authorization 1) granted_msg live).
Lemma last_call : last_use accepting = true.
Proof. vm_compute. reflexivity. Qed.

Lemma accepted_message_permitted_witness :
  exists exec bz g, AuthzOps.as_granted (authorization 1) granted_msg = Some exec
    /\ Authz.GetMsg exec = Some bz /\ Authz.ValidateBasic exec = None
    /\ g ∈ AuthzOps.Grants (authorization 1)
    /\ Authz.CG_Contract g = Authz.GetContract exec /\ AuthzOps.permits (AuthzOps.GetFilter g) bz.
Proof.
  apply (AuthzOps.accepted_message_permitted (authorization 1) granted_msg live
    (answered accepting).1 (answered accepting).2 accepting.2).
  - exact (proj1 (last_use_spec _ last_call)).
  - exact (proj1 (proj2 (last_use_spec _ last_call))).
Defined.

Lemma authorization_budget_witness :
  (AuthzOps.spent (string_of_bytes first) "stake" [granted_exec]
     <= AuthzOps.total (AuthzOps.funds_left "stake") (string_of_bytes first) [grant 1])%Z
  /\ (AuthzOps.counted (string_of_bytes first) [grant 1] ->
      (AuthzOps.calls (string_of_bytes first) [granted_exec]
         <= AuthzOps.total AuthzOps.calls_left (string_of_bytes first) [grant 1])%Z).
Proof.
  apply (AuthzOps.authorization_budget (authorization 1) [granted_exec] None (string_of_bytes first) "stake").
  - split; [reflexivity|]. by repeat constructor.
  - eapply (AuthzOps.life_last _ granted_msg); [reflexivity|exact (proj1 (last_use_spec _ last_call))|..];
      apply (last_use_spec _ last_call).
Defined.

Definition upload : Msgs.MsgStoreCode := Msgs.mkMsgStoreCode "alice" wasm_code None.
Definition any_code : Authz.CodeGrant := Authz.mkCodeGrant (bytes_of_string "*") None.
Abbreviation uploading :=
  (AuthzOps.StoreCodeAuthorization_Accept [any_code] context (SWasm (MsgServer.WStoreCode upload)) live).
Lemma upload_answered : returns uploading = true.
Proof. vm_compute. reflexivity. Qed.
Lemma StoreCodeAuthorization_Accept_witness :
  exists code, AuthzOps.plain_code context wasm_code live = (Ret code, uploading.2)
    /\ wasm_magic `prefix_of` code
    /\ (Authz.Accept (result no_answer uploading) = true <->
        Exists (fun g => AuthzOps.covers g (Sha256.Sum256 code) None) [any_code]).
Proof.
  apply (AuthzOps.StoreCodeAuthorization_Accept_spec [any_code] context upload live).
  apply returns_result, upload_answered.
Defined.

Lemma CodeGrant_Accept_nil_permission_witness :
  AuthzOps.CodeGrant_Accept (Authz.mkCodeGrant (checksum wasm_code) (Some everybody))
    (checksum wasm_code) None = Panic (PRuntime "nil pointer dereference").
Proof.
  apply (AuthzOps.CodeGrant_Accept_nil_permission (checksum wasm_code) everybody (checksum wasm_code)).
  vm_compute. reflexivity.
Defined.

End Scenarios.
