(* ===== verification/Cases.v ===== *)
(** Uses of the theorems about queries, proposals, ante handlers, snapshots
    and migrations at concrete inputs, on the small chain of Simulation.v and
    the contract of Demo.v. *)
From S2P Require Import Prelude Errors GoStrings Json Types Proto Keys VMTypes Policy GasRegister Chain Logic Wp Engine Store Registry Events Keeper Dispatcher Msgs MsgServer Encoders Messenger QueryPlugins Relay System SystemFrame Refinement RefineKeeper RelayRefine RefineSystem Guarantees Genesis GenesisRefine Proposals Total Querier Options Snapshots Ante Legacy Migrations Simulation Demo Scenarios.
Import GoStrings Keys Store.Store Registry.Registry Refinement.Refinement RefineKeeper.RefineKeeper.
Import RefineSystem.RefineSystem Encoders.Encoders Sim Demo Scenarios.
Open Scope wasm_scope.

Module Cases.

(** ** Typed stores *)

Lemma live_room : room (kv live) = true.
Proof. vm_compute. reflexivity. Qed.

(** ** Proposals *)

Definition gov_account : bytes := bytes_of_string "gov".
Definition upload_proposal : Proposals.StoreCodeProposal :=
  Proposals.mkStoreCodeProposal "title" "description" "alice" wasm_code None false "https://example.com/code" "builder:1.0"
    (Some (checksum wasm_code)).
Definition passes : Proposals.Content := Proposals.CStoreCode upload_proposal.

Abbreviation stored_code :=
  (Proposals.handleStoreCodeProposal config context upload_proposal live).
Lemma stored_code_returns : returns stored_code = true.
Proof. vm_compute. reflexivity. Qed.
Lemma stored_code_room : room (kv stored_code.2) = true.
Proof. vm_compute. reflexivity. Qed.
Lemma served_handles :
  handles config Guarantees.any_policy Guarantees.anyone Guarantees.anyone
    (System.response_handler config no_query 30).
Proof. apply response_handler_ok; [done|done|]. by apply router_typed. Qed.
Lemma queries_grow ctx caller r : grows (System.HandleQuery config no_query ctx caller r).
Proof. apply fr_HandleQuery; apply _. Qed.
Lemma store_code_proposal_checked_witness :
  exists id info, Proposals.uploaded upload_proposal (kv stored_code.2) id info.
Proof.
  apply (Proposals.store_code_proposal_checked config no_query
    (System.HandleQuery config no_query) (System.response_handler config no_query 30)
    served_handles queries_grow gov_account ltac:(done) context upload_proposal live
    (registry "admin")).
  - apply state_models, live_admin.
  - apply returns_unit, stored_code_returns.
  - apply room_not_full, stored_code_room.
Defined.

Abbreviation passed :=
  (Proposals.Pass config no_query 30 Proposals.EnableAllProposals context (Some passes) live).
Lemma passed_returns : returns passed = true.
Proof. vm_compute. reflexivity. Qed.
Lemma passed_room : room (kv passed.2) = true.
Proof. vm_compute. reflexivity. Qed.
Lemma proposal_refines_witness :
  exists a', steps (authority config) (propagateGovAuthorization config)
      Guarantees.any_policy Guarantees.anyone (registry "admin") a'
    /\ models Guarantees.anyone (kv passed.2) a'.
Proof.
  apply (Proposals.proposal_refines config no_query 30 Proposals.EnableAllProposals context passes
    gov_account live).
  - by apply router_typed.
  - exact wf_context.
  - done.
  - done.
  - apply state_models, live_admin.
  - apply returns_unit, passed_returns.
  - apply room_not_full, passed_room.
Defined.

(** ** Ante handlers *)

(** Transactions that carry their gas. The handlers that follow refuse one
    without gas. *)
Definition last_handler : @Ante.AnteHandler _ _ N := fun ctx gas _ =>
  if (gas =? 0)%N then fail (EText "no gas") else mret ctx.
Definition start (gas : N) (s : State) : State := set_meter (NewGasMeter gas) s.
Abbreviation counting gas sim s :=
  (Ante.CountTXDecorator_AnteHandle context gas sim last_handler s).
Abbreviation ante_run gas sim s := (Ante.mkRun context gas sim s (counting gas sim s).1).
(** A transaction, a message, a simulation, a transaction that runs out of gas
    and another transaction. *)
Abbreviation begun := (start 100 live).
Abbreviation counted_one := (counting 100%N false begun).2.
Abbreviation after_message := (route direct (start 1000000 counted_one)).2.
Abbreviation simulated := (rollback after_message (counting 5%N true after_message).2).
Abbreviation starved := (start 15 simulated).
Abbreviation dropped := (rollback starved (counting 15%N false starved).2).
Abbreviation again := (start 100 dropped).
Definition runs : list Ante.Run :=
  [ante_run 100%N false begun; ante_run 5%N true after_message; ante_run 15%N false starved;
   ante_run 100%N false again].
Example runs_accepted : Ante.run_accepted <$> runs = [true; false; false; true].
Proof. vm_compute. reflexivity. Qed.
Lemma same_start gas s : Ante.counter_kept s (start gas s).
Proof. done. Qed.
Ltac run_ante := eapply Ante.block_ante; [reflexivity|apply surjective_pairing|].
Lemma runs_block : Ante.block config no_query last_handler 7 live runs.
Proof.
  eapply Ante.block_other; [apply (same_start 100)|].
  run_ante. replace (Ante.run_accepted _) with true by (vm_compute; reflexivity).
  eapply Ante.block_other; [apply (same_start 1000000)|].
  eapply (Ante.block_message _ _ _ _ _ 30 context direct); [apply surjective_pairing|].
  run_ante. replace (Ante.run_accepted _) with false by (vm_compute; reflexivity).
  eapply Ante.block_other; [apply (same_start 15)|].
  run_ante. replace (Ante.run_accepted _) with false by (vm_compute; reflexivity).
  eapply Ante.block_other; [apply (same_start 100)|].
  run_ante. apply Ante.block_end.
Qed.
Lemma last_handler_keeps c gas sim : preserves Ante.counter_kept (last_handler c gas sim).
Proof. intros s. unfold last_handler. by destruct (gas =? 0)%N. Qed.
Lemma live_uncounted : kv live !! TXCounterPrefix = None.
Proof. vm_compute. reflexivity. Qed.
Lemma block_counters_witness : Ante.numbered_from last_handler 0 runs.
Proof.
  apply (Ante.block_counters config no_query last_handler 7 live).
  - done.
  - exact last_handler_keeps.
  - rewrite live_uncounted. done.
  - exact runs_block.
Defined.
(** The first transaction got the number 0 and the last one, as the one before
    it was dropped, the number 1. *)
Example numbers :
  ((fun r => match Ante.run_outcome r with Ret c => ctx_TXCounter c | _ => None end) <$> runs)
  = [Some 0%N; ctx_TXCounter context; None; Some 1%N].
Proof. vm_compute. reflexivity. Qed.

Fixpoint ChainAnteDecorators (ds : list (@Ante.AnteDecorator _ _ N)) : @Ante.AnteHandler _ _ N :=
  fun ctx tx sim =>
    match ds with
    | [] => mret ctx
    | d :: ds => d ctx tx sim (ChainAnteDecorators ds)
    end.
Definition set_up : @Ante.AnteDecorator _ _ N := fun ctx tx sim next =>
  _ ← modify (set_meter (NewGasMeter tx)); next ctx tx sim.
Definition options : Ante.HandlerOptions :=
  Ante.mkHandlerOptions true true true (Some (Some 5000%N)) true true
    (Some GasRegister.DefaultGasRegisterConfig).
Definition ante_handler : @Ante.AnteHandler _ _ N :=
  match Ante.NewAnteHandler ChainAnteDecorators set_up [] None options with
  | Ret h => h
  | _ => last_handler
  end.
Abbreviation numbering s := (Ante.take_number (ctx_BlockHeight context) 0 s).
Lemma numbering_returns : returns (numbering (start 100 live)) = true.
Proof. vm_compute. reflexivity. Qed.
Lemma NewAnteHandler_context_witness :
  exists inner : @Ante.AnteHandler _ _ N,
    (forall ctx tx sim, ante_handler ctx tx sim = set_up ctx tx sim inner)
    /\ inner context 100%N false (start 100 live)
       = ChainAnteDecorators [] (WithGasRegister (WithTXCounter context 0) GasRegister.DefaultGasRegisterConfig)
           100%N false (set_txc (Some ∅) (numbering (start 100 live)).2).
Proof.
  destruct (Ante.NewAnteHandler_context ChainAnteDecorators set_up [] ltac:(done) None options
    ante_handler GasRegister.DefaultGasRegisterConfig (Some 5000%N) eq_refl eq_refl eq_refl)
    as (inner & Hh & Hd & _).
  exists inner. split; [exact Hh|]. specialize (Hd context 100%N (start 100 live) 0%N).
  rewrite (returns_unit _ numbering_returns) in Hd. apply Hd.
  unfold Ante.counter_at. simpl kv. by rewrite live_uncounted.
Defined.

(** ** Queries *)

(** The remaining theorems are about stores that charge nothing. *)
#[local] Existing Instances free_kv free_unmetered free_pages free_pages_laws.

Definition well_shaped (key : bytes) : bool :=
  match key with
  | Byte.x01 :: r | Byte.x07 :: r => Nat.eqb (length r) 8
  | Byte.x06 :: r => Nat.leb 24 (length r)
  | Byte.x09 :: n :: r => Nat.leb (N.to_nat (Byte.to_N n) + 16) (length r)
  | _ => true
  end.
Definition all_keys (f : bytes -> bool) (σ : kvs) : bool := forallb (f ∘ fst) (map_to_list σ).
Lemma all_keys_sound f (σ : kvs) key : all_keys f σ = true -> is_Some (σ !! key) -> f key = true.
Proof.
  unfold all_keys. rewrite forallb_forall. intros Hf [v Hv].
  apply (Hf (key, v)), list_elem_of_In. by apply elem_of_map_to_list.
Qed.
Lemma well_shaped_sound (σ : kvs) : all_keys well_shaped σ = true -> Querier.key_shapes σ.
Proof.
  intros Hf. split.
  - intros k Hk. by apply Nat.eqb_eq, (all_keys_sound _ _ _ Hf Hk).
  - intros k Hk. by apply Nat.eqb_eq, (all_keys_sound _ _ _ Hf Hk).
  - intros id k Hk. apply (Nat.add_le_mono_l _ _ 8).
    by apply Nat.leb_le, (all_keys_sound _ _ _ Hf Hk).
  - intros c k Hl Hk. pose proof (all_keys_sound _ _ _ Hf Hk) as E.
    cbn [app ContractsByCreatorPrefix well_shaped] in E. apply Nat.leb_le in E. revert E.
    rewrite length_app, to_N_byte_of_N. unfold AbsoluteTxPositionLen, blen.
    rewrite N.mod_small by lia. lia.
Qed.
Lemma live_well_shaped : all_keys well_shaped (kv live) = true.
Proof. vm_compute. reflexivity. Qed.

Lemma live_repr : repr (kv live) (registry "admin").
Proof. apply state_repr, live_admin. Qed.
Lemma live_storable : storable (registry "admin").
Proof. apply registry_storable, live_admin. Qed.
Lemma live_size : size (kv live) < 50.
Proof. apply Nat.ltb_lt. vm_compute. reflexivity. Qed.

Lemma listings_complete_witness :
  exists mt rs, Querier.fetch (fun req => Querier.Codes (Some (Some req))) 10 [] 50 live
    = (Ret (Some rs), set_meter mt live) /\ Querier.lists_codes (registry "admin") rs.
Proof.
  refine (proj1 (Querier.listings_complete (registry "admin") live live_repr
    (registry_coherent _) live_storable _ live_addresses 10 50 live_size)).
  apply well_shaped_sound, live_well_shaped.
Defined.

Lemma live_contract : contracts (registry "admin") !! first = Some (info "admin").
Proof. apply lookup_singleton_eq. Qed.
Lemma lookups_exact_witness :
  exists mt, Querier.ContractInfo (Some (AccAddress_String first)) live
    = (Ret (AccAddress_String first, info "admin"), set_meter mt live).
Proof.
  destruct (proj1 (Querier.lookups_exact (registry "admin") live live_repr live_storable)
    first ltac:(done)) as [mt E].
  exists mt. rewrite live_contract in E. exact E.
Defined.

(** The history of the contract is what a query for the first 20 bytes of its
    address returns, an address that has no contract. *)
Definition short : bytes := take 20 first.
Definition history_decodes (σ : kvs) : bool :=
  forallb (fun kv => match kv.1 with
    | Byte.x05 :: _ => bool_decide (kv.2 = marshal entry)
    | _ => true
    end) (map_to_list σ).
Lemma live_history_decodes : history_decodes (kv live) = true.
Proof. vm_compute. reflexivity. Qed.
Lemma history_decodes_sound (σ : kvs) k v :
  history_decodes σ = true -> σ !! (ContractCodeHistoryElementPrefix ++ k) = Some v -> v = marshal entry.
Proof.
  unfold history_decodes. rewrite forallb_forall. intros Hf Hv.
  eapply bool_decide_eq_true, (Hf (ContractCodeHistoryElementPrefix ++ k, v)).
  apply list_elem_of_In. by apply elem_of_map_to_list.
Qed.
Lemma entry_stored : stored entry.
Proof.
  apply (sto_history _ live_storable first). rewrite history_registry.
  rewrite decide_True by done. by apply list_elem_of_singleton.
Qed.
Lemma ContractHistory_other_contract_witness :
  contracts (registry "admin") !! short = None
  /\ exists mt rs e, Querier.fetch (fun req => Querier.ContractHistory
       (Some (mkQueryAddressPage (AccAddress_String short) (Some req)))) 10 [] 50 live
     = (Ret (Some rs), set_meter mt live)
     /\ e ∈ rs /\ last (history_of (registry "admin") (short ++ drop 20 first)) = Some e.
Proof.
  assert (contracts (registry "admin") !! short = None) as Hshort.
  { simpl. by rewrite lookup_singleton_ne. }
  split; [exact Hshort|].
  apply (Querier.ContractHistory_other_contract (registry "admin") live live_repr
    (registry_coherent _) live_storable short (drop 20 first) (info "admin") 10 50).
  - done.
  - exact Hshort.
  - unfold short. rewrite take_drop. exact live_contract.
  - intros k v Hv. exists entry. split; [exact entry_stored|].
    by eapply history_decodes_sound; [exact live_history_decodes|exact Hv].
  - exact live_size.
Defined.

Definition zeros : string :=
  "0000000000000000000000000000000000000000000000000000000000000000".
Definition predict (codeHash : string) : QueryBuildAddressRequest :=
  mkQueryBuildAddressRequest codeHash "alice" "61" None.
Abbreviation predicted := (Querier.BuildAddress (Some (predict zeros)) live).
Lemma predicted_returns : returns predicted = true.
Proof. vm_compute. reflexivity. Qed.
Lemma BuildAddress_predicts_witness :
  exists codeHash creator salt addr,
    hex_DecodeString zeros = inl codeHash
    /\ AccAddressFromBech32 "alice" = inl creator
    /\ hex_DecodeString "61" = inl salt
    /\ result "" predicted = AccAddress_String addr /\ length addr = ContractAddrLen
    /\ forall ctx id s1, Keeper.PredictableAddressGenerator (Some creator) salt [] false ctx id codeHash s1
         = (Ret addr, s1).
Proof.
  apply (Querier.BuildAddress_predicts (predict zeros) live (result "" predicted) predicted.2).
  apply returns_result, predicted_returns.
Defined.
Lemma BuildAddress_wrong_checksum_witness :
  exists p, (Querier.BuildAddress (Some (predict "00")) live).1 = Panic p.
Proof.
  by apply (Querier.BuildAddress_wrong_checksum (predict "00") [Byte.x00] alice [Byte.x61] live).
Defined.

(** ** Creating the keeper *)

Definition chain_options : list (@Options.Option _ _ unit unit unit unit unit bytes) :=
  [Options.WithMessageHandlerDecorator id; Options.WithMaxCallDepth 3; Options.WithMessageEncoders None].
Abbreviation created :=
  (Options.NewKeeper (System.QuerySmart config no_query) (fun _ _ => inl tt) (fun _ _ => Ret tt) (Some tt)
    "/root/.wasmd/" DefaultNodeConfig (mkWasmLimits None None None None None None None)
    (Some BuiltInCapabilities) "gov" chain_options (Options.mkAPICosts costHumanize costCanonical)).
Definition created_keeper : @Options.KeeperValue _ _ unit unit unit unit bytes.
Proof. destruct created as [[k c]| |] eqn:E; [exact k|discriminate E..]. Defined.
Definition no_route (_ : SdkMsg) : option (Context -> SdkMsg -> M SdkResult) := None.
Lemma NewKeeper_assembles_witness :
  (exists m, Options.messenger created_keeper
     = Options.callDepthMessageHandler m (maxCallDepth (Options.config created_keeper)))
  /\ Options.wasmVM created_keeper = Some tt.
Proof.
  destruct (Options.NewKeeper_assembles (System.QuerySmart config no_query) no_route
    (fun _ _ => inl tt) (fun _ _ => Ret tt) (Some tt)
    "/root/.wasmd/" DefaultNodeConfig (mkWasmLimits None None None None None None None)
    (Some BuiltInCapabilities) "gov" chain_options (Options.mkAPICosts costHumanize costCanonical)
    created_keeper (Options.mkAPICosts costHumanize costCanonical) eq_refl)
    as (Hm & _ & _ & [] & He & _).
  split; [exact Hm|exact He].
Defined.

(** ** Snapshots *)

Definition write_payload (_ : list bytes) (_ : bytes) : option error := None.
(** A node with the stores of [live] and an empty VM. *)
Definition synced : State := mkState (kv live) ∅ ∅ (100000000%N, 0%N) [] (Some ∅).
Definition has_code (s : State) : bool :=
  match api_GetCode (vm s) (CodeHash code) with inl _ => true | inr _ => false end.
Lemma live_has_code : has_code live = true.
Proof. vm_compute. reflexivity. Qed.
Lemma live_codes id c :
  codes (registry "admin") !! id = Some c -> exists bz, api_GetCode (vm live) (CodeHash c) = inl bz.
Proof.
  intros Hc. simpl in Hc. apply lookup_singleton_Some in Hc as [_ <-].
  pose proof live_has_code as E. unfold has_code in E.
  destruct (api_GetCode (vm live) (CodeHash code)) as [bz|]; [by exists bz|discriminate].
Qed.
Lemma snapshot_restores_witness :
  exists payloads s', Snapshots.SnapshotExtension write_payload live = (Ret (payloads, None), s')
    /\ (exists hs, NoDup hs /\ Forall2 (Snapshots.payload_of live) hs payloads
          /\ forall h, h ∈ hs <-> Snapshots.is_checksum (registry "admin") h)
    /\ exists t', Snapshots.RestoreExtension Snapshots.SnapshotFormat payloads None synced = (Ret tt, t')
       /\ kv t' = kv synced
       /\ forall id c, codes (registry "admin") !! id = Some c ->
            api_GetCode (vm t') (CodeHash c) = api_GetCode (vm live) (CodeHash c).
Proof.
  apply (Snapshots.snapshot_restores write_payload (registry "admin") live live_repr
    (registry_coherent _) live_storable (well_shaped_sound _ live_well_shaped) live_codes
    ltac:(done) synced eq_refl).
Defined.

(** ** Migrations *)

(** A chain of version 1 whose code only alice may instantiate. *)
Definition old_code : Legacy.CodeInfo :=
  Legacy.mkCodeInfo (checksum wasm_code) "alice"
    (Legacy.mkAccessConfig Legacy.AccessTypeOnlyAddress "alice" []).
Definition old_parameters : Legacy.Params :=
  Legacy.mkParams (Legacy.mkAccessConfig Legacy.AccessTypeEverybody "" []) Legacy.AccessTypeEverybody.
Definition old : Migrations.OldRegistry :=
  Migrations.mkOldRegistry {[1%N := old_code]} (Some old_parameters) (registry "admin").
Definition old_entries : list (Entry * bytes) :=
  [(KCode 1, marshal old_code);
   (KContract first, marshal (info "admin")); (KHistory first 1, marshal entry);
   (KByCodeID 1 pos first, []);
   (KSequenceCodeID, Uint64ToBigEndian 2); (KSequenceInstanceID, Uint64ToBigEndian 2);
   (KStore first [Byte.x07], [Byte.x30])].
Definition version1 : State := mkState (store_of old_entries) ∅ ∅ (100000000%N, 0%N) [] (Some ∅).
Definition params_module : Ext Legacy.Params := fun _ x => EDone (Ret old_parameters) x.

Lemma old_entries_same e :
  (forall id, e <> KCode id) -> e <> KParams -> (forall c p addr, e <> KByCreator c p addr) ->
  assoc e old_entries = assoc e (entries "admin").
Proof.
  intros Hc Hp Hb. cbn [assoc old_entries entries].
  by rewrite !(decide_False (P := e = KCode 1)), (decide_False (P := e = KParams)),
    (decide_False (P := e = KByCreator alice pos first)).
Qed.
Lemma old_entries_encode e : reg_entry e -> assoc e old_entries = Migrations.encode_v1 old e.
Proof.
  intros He. pose proof (entries_encode "admin" e He) as E.
  destruct e as [id|addr|addr x| | |addr p|id p addr|id| |c p addr| |];
    try (etrans; [by apply old_entries_same|exact E]); clear E.
  - cbn [assoc old_entries Migrations.encode_v1 Migrations.encode_v3 Migrations.old_codes old].
    destruct (decide (id = 1%N)) as [->|Hne].
    + rewrite decide_True by done. by rewrite lookup_singleton_eq.
    + repeat (rewrite decide_False by congruence). by rewrite lookup_singleton_ne.
  - done.
  - cbn [assoc old_entries]. by repeat (rewrite decide_False by congruence).
Qed.
Lemma old_reads : reads (kv version1) (Migrations.encode_v1 old).
Proof.
  intros e He. rewrite <- old_entries_encode by done.
  apply lookup_store_of; [|apply He]. repeat constructor; done.
Qed.
Lemma migrated_coherent : coherent (Migrations.migrated old).
Proof.
  destruct (registry_coherent "admin") as [_ Hc Hh Hp H1 H2]. split; try done.
  - intros id [c Hc']. simpl in Hc'. rewrite map_fmap_singleton in Hc'.
    by apply lookup_singleton_Some in Hc' as [<- _].
  - intros addr i Hi. destruct (Hc addr i Hi) as [_ Hl Hcr]. split; [|done..].
    simpl in Hi |- *. apply lookup_singleton_Some in Hi as [_ <-].
    rewrite map_fmap_singleton. simpl. by rewrite lookup_singleton_eq.
Qed.
Lemma old_migratable : Migrations.migratable old.
Proof.
  split.
  - intros id c Hc. simpl in Hc. apply lookup_singleton_Some in Hc as [_ <-]. by split.
  - intros ps [= <-]. by split.
  - destruct live_storable as [_ Hc Hh _]. split; [|exact Hc|exact Hh|].
    + intros id c Hid. simpl in Hid. rewrite map_fmap_singleton in Hid.
      apply lookup_singleton_Some in Hid as [_ <-]. by split.
    + intros ps [= <-]. by split.
Qed.
Lemma version1_code_keys : code_key_lengths (kv version1) = true.
Proof. vm_compute. reflexivity. Qed.
Lemma upgrade_refines_witness :
  exists s', Migrations.upgrade params_module context version1 = (Ret tt, s')
    /\ repr (kv s') (Migrations.migrated old).
Proof.
  destruct (Migrations.upgrade_refines params_module context old old_parameters version1)
    as (s' & E & Hr & _).
  - intros s. by eexists.
  - done.
  - exact old_migratable.
  - exact migrated_coherent.
  - exact old_reads.
  - apply code_key_lengths_sound, version1_code_keys.
  - exists s'. split; [exact E|exact Hr].
Defined.

End Cases.
