(* ===== verification/ClientCases.v ===== *)
(** The clients of the module at concrete inputs, on the chain of
    Simulation.v: the commands of Client.v run over a small table of flags,
    the gateway of Gateway.v over a list of routes. *)
From S2P Require Import Prelude Errors GoStrings Json Types Proto Keys VMTypes Policy GasRegister Chain Logic Engine Store Events Keeper Msgs MsgServer Encoders Checksum Authz Querier Gateway Options Snapshots Client ClientFacts Simulation Demo Scenarios.
Import GoStrings Msgs.Msgs MsgServer.MsgServer Encoders.Encoders Authz.Authz Client.Client ClientFacts.ClientFacts Sim Demo Scenarios.
Open Scope wasm_scope.

Module ClientCases.

(** Flags by name; what was not given has the default that pflag gives. *)
Inductive flag_value := VString (s : string) | VBool (b : bool) | VSlice (l : list string) | VInt (z : Z).
Definition flag_table : Type := list (string * flag_value).
Fixpoint flag (fs : flag_table) (name : string) : option flag_value :=
  match fs with
  | [] => None
  | (n, v) :: fs' => if bool_decide (n = name) then Some v else flag fs' name
  end.
#[local] Instance sim_flags : Pflag := {|
  FlagSet := flag_table;
  GetString fs name := inl match flag fs name with Some (VString s) => s | _ => ""%string end;
  GetBool fs name := inl match flag fs name with Some (VBool b) => b | _ => false end;
  GetStringSlice fs name := inl match flag fs name with Some (VSlice l) => l | _ => [] end;
  GetUint64 fs name := inl match flag fs name with Some (VInt z) => Z.to_N z | _ => 0%N end;
  GetInt64 fs name := inl match flag fs name with Some (VInt z) => z | _ => 0%Z end;
  GetBytesHex fs name := inl None;
  BoolVar fs name := match flag fs name with Some (VBool b) => b | _ => false end;
  Set_ fs name s := inl ((name, VString s) :: fs);
|}.
(** The sender is the key named by the flag from. *)
#[local] Instance sim_client : ClientPkg := {|
  ClientContext := AccAddress;
  Keyring_ := unit;
  KeyRecord := AccAddress;
  GetClientTxContext fs :=
    match flag fs "from" with Some (VString s) => inl (Some (bytes_of_string s)) | _ => inr (EText "key not found") end;
  GetClientQueryContext fs := inl None;
  GetFromAddress ctx := ctx;
  Keyring _ := tt;
  Key_ _ name := inl (Some (bytes_of_string name));
  GetAddress k := inl k;
  ParseCoinsNormalized s := inl [];
  ReadPageRequest fs := inl None;
  ReadFile file := inl wasm_code;
  MsgGrant_err _ := None;
  MsgSubmitProposal_err _ := None;
  Client.gov_address := bytes_of_string "gov";
|}.

Definition flags : FlagSet := [("from"%string, VString "alice")].
Definition code_hash : bytes := checksum wasm_code.
(** tx wasm grant store-code bob <hash>:* --from alice *)
Definition grant_run : outcome Tx :=
  RunE GrantStoreCodeAuthorizationCmd flags ["bob"%string; grant_arg code_hash "*"].
Definition granted : list CodeGrant := [mkCodeGrant (bytes_of_string (hex_encode code_hash)) None].
Lemma grant_runs :
  grant_run = Ret (TxGrant (Some (bytes_of_string "alice")) (Some (bytes_of_string "bob")) (inr granted) None).
Proof. vm_compute. reflexivity. Qed.

Lemma store_code_grant_unusable_witness :
  exists grants, inr (A := Authorization) granted = inr grants /\ forall ctx storeMsg s r s',
    AuthzOps.StoreCodeAuthorization_Accept grants ctx (SWasm (WStoreCode storeMsg)) s = (Ret r, s') ->
    Accept r = false.
Proof.
  apply (store_code_grant_unusable flags "bob" [(code_hash, "*"%string)]
    (Some (bytes_of_string "alice")) (Some (bytes_of_string "bob")) (inr granted) None).
  - by repeat constructor.
  - exact grant_runs.
Defined.

(** The commands that upload, instantiate, execute and propose run to the end. *)
Definition full_flags : FlagSet :=
  [("from"%string, VString "alice"); (flagLabel, VString "label"); (flagNoAdmin, VBool true);
   (flagAuthority, VString "gov"); (FlagTitle, VString "title"); (FlagSummary, VString "summary")].
Definition message : string := "{}".
Lemma commands_run :
  RunE StoreCodeCmd full_flags ["code.wasm"%string]
    = Ret (TxWasm (WStoreCode (mkMsgStoreCode "alice" (Keeper.gzipIdent ++ wasm_code) None)))
  /\ RunE InstantiateContractCmd full_flags ["1"%string; message]
    = Ret (TxWasm (WInstantiateContract
        (mkMsgInstantiateContract "alice" "" 1 "label" (bytes_of_string message) [])))
  /\ RunE ExecuteContractCmd full_flags ["contract"%string; message]
    = Ret (TxWasm (WExecuteContract (mkMsgExecuteContract "alice" "contract" (bytes_of_string message) [])))
  /\ RunE ProposalPinCodesCmd full_flags ["1"%string; "2"%string]
    = Ret (TxProposal [WPinCodes (mkMsgPinCodes "gov" [1; 2]%N)] [] "alice" "" "title" "summary" false)
  /\ RunE ProposalUpdateInstantiateConfigCmd full_flags ["7:nobody"%string]
    = Ret (TxProposal [WUpdateInstantiateConfig (mkMsgUpdateInstantiateConfig "gov" 7 (Some AllowNobody))]
        [] "alice" "" "title" "summary" false).
Proof. repeat split; vm_compute; reflexivity. Qed.

(** ** The gateway *)

Definition scan {P H : Type} (m : P -> list string -> option PathParams) :=
  fix scan (routes : list (string * P * H)) (meth : string) (comps : list string) : option (H * PathParams) :=
    match routes with
    | [] => None
    | (m', pat, h) :: routes' =>
        if String.eqb m' meth then
          match m pat comps with Some pp => Some (h, pp) | None => scan routes' meth comps end
        else scan routes' meth comps
    end.
Definition is_true (s : string) : bool := bool_decide (s = "true"%string).
(** The five values of a page, in their order. *)
Definition read_page (form : Values) : option PageRequest + error :=
  match form with
  | [] => inl None
  | [(_, [key]); (_, [offset]); (_, [limit]); (_, [count]); (_, [reverse])] =>
      match Strconv.base64_DecodeString key, Strconv.ParseUint offset, Strconv.ParseUint limit with
      | inl key, inl offset, inl limit =>
          inl (Some (mkPageRequest key offset limit (is_true count) (is_true reverse)))
      | _, _, _ => inr (EText "bad page")
      end
  | _ => inr (EText "unknown parameter")
  end.
#[local] Instance sim_gateway : GatewayRuntime := {|
  runtime_String := inl;
  runtime_Uint64 := Strconv.ParseUint;
  runtime_Bytes := Strconv.base64_DecodeString;
  bytes_text bs := string_of_bytes (Json.base64 bs);
  PopulateQueryParameters A T m form filter :=
    match read_page (List.filter (fun v => negb (ignored filter v)) form) with
    | inl None => inl m
    | inl p => inl (paginated T m p)
    | inr err => inr err
    end;
  AnnotateContext ctx _ := inl ctx;
  AnnotateIncomingContext ctx _ := inl ctx;
  Pattern := list nat * list string;
  MustPattern _ ops pool _ _ := (ops, pool);
  ServeMux := list (string * (list nat * list string) * Handler);
  NewServeMux := [];
  Handle mux meth pat h := mux ++ [(meth, pat, h)];
  Match pat comps := interpret (pairs pat.1) pat.2 comps [] [];
  Route := scan (fun pat comps => interpret (pairs pat.1) pat.2 comps [] []);
|}.
Lemma registered (mux routes : list (string * Pattern * Handler)) :
  foldl register (mux : ServeMux) routes = (mux ++ routes : list _).
Proof.
  revert mux. induction routes as [|[[meth pat] h] routes IH]; intros mux; [symmetry; apply app_nil_r|].
  cbn [foldl]. rewrite IH. unfold register. cbn. by rewrite <- app_assoc.
Qed.
Lemma filter_twice {A} (f : A -> bool) l : List.filter f (List.filter f l) = List.filter f l.
Proof. induction l as [|x l IH]; [done|]. cbn. destruct (f x) eqn:E; cbn; by rewrite ?E, IH. Qed.
Lemma filter_kept {A} (f : A -> bool) l : existsb f l = false -> List.filter (fun x => negb (f x)) l = l.
Proof. induction l as [|x l IH]; [done|]. cbn. intros [-> E]%orb_false_iff. cbn. by rewrite IH. Qed.
Lemma is_true_text b : is_true (bool_text b) = b.
Proof. by destruct b. Qed.
#[local] Instance sim_gateway_laws : GatewayRuntimeLaws.
Proof.
  split; try done.
  - intros n Hn. by apply Texts.ParseUint_pretty.
  - intros bs. apply Texts.base64_roundtrip.
  - intros routes meth comps.
    trans (Route (routes : ServeMux) meth comps);
      [exact (f_equal (fun mux : ServeMux => Route mux meth comps) (registered [] routes))|].
    cbn [Route sim_gateway].
    induction routes as [|[[m pat] h] routes IH]; [done|]. cbn. by rewrite IH.
  - intros A T m form filter. cbn. by rewrite filter_twice.
  - intros A T m p filter Hp Hi. cbn [PopulateQueryParameters sim_gateway]. rewrite filter_kept by done.
    destruct p as [[key offset limit count reverse]|]; [|done].
    destruct Hp as [Ho Hl]. cbn [page_form read_page Page_Key Page_Offset Page_Limit Page_CountTotal Page_Reverse bytes_text sim_gateway] in *.
    rewrite Texts.base64_roundtrip, !Texts.ParseUint_pretty, !is_true_text by done. by destruct T.
Qed.

Definition rest_request : Gateway.Request :=
  QueryRawContractStateRequest (mkQueryContractState "contract" (Some (bytes_of_string "key"))).
Definition echo : Service := fun _ r =>
  match r with
  | QueryRawContractStateRequest q => mret (QueryRawContractStateResponse (QS_QueryData q))
  | _ => fail (EText "unknown query")
  end.
Lemma rest_answers_witness :
  exists h pathParams,
    Route (Gateway.RegisterQueryHandlerServer NewServeMux echo) "GET"
      ["cosmwasm"; "wasm"; "v1"; "contract"; "contract"; "raw"; "a2V5"] = Some (h, pathParams)
    /\ forall ctx s, h ctx (mkHTTPRequest (inl [])) pathParams s
        = (Ret (ForwardResponseMessage (QueryRawContractStateResponse (Some (bytes_of_string "key")))), s).
Proof.
  destruct (Gateway.rest_answers echo rest_request) as (h & pp & Hr & Hh); [by split; [|eexists]|].
  exists h, pp. split; [exact Hr|]. intros ctx s. exact (Hh ctx ctx (mkHTTPRequest (inl [])) s eq_refl eq_refl).
Defined.

End ClientCases.
