(* ===== verification/BorderCases.v ===== *)
(** A virtual machine behind libwasmvm on the small chain of Simulation.v: a
    contract that reads, writes and iterates runs through both sides of the
    border. *)
From S2P Require Import Prelude Errors GoStrings Types Keys VMTypes Policy GasRegister Chain Logic Engine Store Events Keeper Querier Options Bindings Snapshots RustVM Simulation.
Import GoStrings Sim.
Open Scope wasm_scope.

Module BorderCases.

(** A call writes its message under a key, opens an iterator over all keys,
    asks for an iterator that does not exist, and returns the first value the
    iterator gives, or runs out of gas when there is none. *)
Definition key : bytes := bytes_of_string "n".
Definition writes (gas : N) (msg : bytes) : Backend (bytes + VmError) :=
  let report := mkGasReport gas gas 0 0 in
  BSet key msg (fun _ => BScan None None Ascending (fun r =>
    BNext 5 (fun missing => BNextValue 0 (fun v =>
      match missing.1, v.1 with
      | inr (IteratorDoesNotExist 5), inl (Some v) => BDone (inl v) report
      | _, _ => BDone (inr GasDepletion) report
      end)))).
#[local] Instance sim_vm : CosmwasmVM := {|
  Config := unit;
  json_Config _ := inl tt;
  Cache_new_with_config _ := Some (inl ∅);
  Cache_save_wasm v wasm := (Some (inl (checksum wasm)), <[checksum wasm := wasm]> v);
  Cache_save_wasm_unchecked v wasm := (Some (inl (checksum wasm)), <[checksum wasm := wasm]> v);
  Cache_remove_wasm v h := (Some (inl tt), delete h v);
  Cache_load_wasm v h := match v !! h with Some wasm => Some (inl wasm) | None => Some (inr (OtherVmError "Cache error")) end;
  Cache_pin v h := (Some (inl tt), v);
  Cache_unpin v h := (Some (inl tt), v);
  Cache_analyze v h := Some (inl (mkVmAnalysisReport false ["instantiate"%string] [] None));
  Cache_metrics v := None;
  Cache_pinned_metrics v := Some [];
  msgpack_to_vec _ := inl [];
  Instance := N;
  Cache_get_instance v h gas := Some (inl gas);
  call_instantiate_raw gas _ _ msg := writes gas msg;
  call_execute_raw gas _ _ msg := writes gas msg;
  call_migrate_raw gas _ msg := writes gas msg;
  call_migrate_with_info_raw gas _ msg _ := writes gas msg;
  call_sudo_raw gas _ msg := writes gas msg;
  call_reply_raw gas _ msg := writes gas msg;
  call_query_raw gas _ msg := BPanic;
  call_ibc_channel_open_raw gas _ msg := BPanic;
  call_ibc_channel_connect_raw gas _ msg := BPanic;
  call_ibc_channel_close_raw gas _ msg := BPanic;
  call_ibc_packet_receive_raw gas _ msg := BPanic;
  call_ibc_packet_ack_raw gas _ msg := BPanic;
  call_ibc_packet_timeout_raw gas _ msg := BPanic;
  call_ibc_source_callback_raw gas _ msg := BPanic;
  call_ibc_destination_callback_raw gas _ msg := BPanic;
  json_SystemResult _ := inr "unsupported"%string;
  FromUtf8Error _ := "invalid utf-8 sequence"%string;
  encode_upper bs := hex_encode bs;
  debug_str _ := "None"%string;
  go_Errno_Error _ := "errno"%string;
  go_UnmarshalMessagePack _ := inl [];
|}.
#[local] Existing Instance Rust.libwasmvm.
Definition no_codes : gmap bytes bytes := ∅.
Definition no_rust_query (req : bytes) (gas : N) : M QuerierResult := mret (mkQuerierResult None None).
Definition code_hash : bytes := replicate 32 Byte.x00.
Definition prefix : bytes := [Byte.x03].

Definition call : M ((bytes + string) * GasReport) :=
  vm_call (Keeper.gasMeter config) prefix no_rust_query
    (Bindings.Execute no_codes code_hash [] [] (bytes_of_string "hello") 500000 false).
Lemma calls_transparent_witness :
  (call genesis).1 = Ret (inl (bytes_of_string "hello"), mkGasReport 500000 500000 0 0)
  /\ kv (call genesis).2 !! (prefix ++ key) = Some (bytes_of_string "hello").
Proof.
  destruct (@Rust.calls_transparent _ _ _ _ _ sim_vm (Keeper.gasMeter config) prefix no_rust_query no_codes code_hash
    500000%N 500000%N false eq_refl eq_refl) as (_ & He & _).
  unfold call. rewrite He. split; vm_compute; reflexivity.
Defined.

End BorderCases.
