(* ===== verification/Findings.v ===== *)
(** Behaviour of the code that its documentation or its own checks do not
    lead one to expect, shown on the small chain of Simulation.v. *)
From S2P Require Import Prelude Errors GoStrings Json Types Proto Keys VMTypes Policy GasRegister Chain Logic Wp Engine Store Events Keeper Dispatcher Msgs MsgServer Encoders Messenger QueryPlugins System Simulation.
Import GoStrings Keys Store.Store Sim.
Open Scope wasm_scope.

Module Findings.

(** ** Parameters that fail their own validation *)

Definition restricted (addrs : list string) : Params :=
  mkParams (mkAccessConfig AccessTypeAnyOfAddresses addrs) AccessTypeEverybody.
Definition restricted_state : State :=
  set_kv <[ParamsKey := Proto.Params_Marshal (restricted ["alice"%string])]> genesis.
Definition remove_alice : Msgs.MsgRemoveCodeUploadParamsAddresses :=
  Msgs.mkMsgRemoveCodeUploadParamsAddresses "gov" ["alice"%string].
Definition returned {A} (x : outcome A * State) : bool :=
  match x.1 with Ret _ => true | _ => false end.

(** Removing the last address leaves parameters that UpdateParams and
    genesis would reject. The message is valid and the parameters before it
    are valid, but RemoveCodeUploadParamsAddresses stores the new ones without
    validating them, and an AnyOfAddresses config without addresses is
    invalid. *)
Theorem upload_addresses_unvalidated :
  Params_ValidateBasic (restricted ["alice"%string]) = None
  /\ Msgs.MsgRemoveCodeUploadParamsAddresses_ValidateBasic remove_alice = None
  /\ returned (serve (MsgServer.WRemoveCodeUploadParamsAddresses remove_alice) restricted_state) = true
  /\ kv (serve (MsgServer.WRemoveCodeUploadParamsAddresses remove_alice) restricted_state).2 !! ParamsKey
     = Some (Proto.Params_Marshal (restricted []))
  /\ Params_ValidateBasic (restricted []) <> None.
Proof. split_and!; try (vm_compute; reflexivity). vm_compute. discriminate. Qed.

(** ** A contract that asks for its port while it is created *)

Section Port.
Context `{GasMeters, Modules, KVStorePkg, Bech32, ErrorsMod, AddressPkg, Codecs, !Keepers, !QueryKeepers}.

(** The IBC query for the caller's port dereferences a nil pointer when the
    caller has no contract info. That is the case during instantiation, since
    the keeper stores the info after the call into the VM. *)
Theorem IBCQuerier_nil_contract ctx caller channels channel fee s s' :
  GetContractInfo caller s = (Ret None, s') ->
  QueryPlugins.IBCQuerier ctx caller (mkIBCQuery (Some tt) channels channel fee) s
  = (Panic (PRuntime "invalid memory address or nil pointer dereference"), s').
Proof.
  intros E. unfold QueryPlugins.IBCQuerier. simpl.
  unfold QueryPlugins.caller_port, mbind, M_bind. by rewrite E.
Qed.
End Port.
Lemma IBCQuerier_nil_contract_witness :
  QueryPlugins.IBCQuerier context first (mkIBCQuery (Some tt) None None None) genesis
  = (Panic (PRuntime "invalid memory address or nil pointer dereference"),
     set_meter (100000000%N, 10%N) genesis).
Proof.
  apply IBCQuerier_nil_contract. reflexivity.
Defined.

End Findings.
